(* ===== verification/_CoqProject ===== *)
-Q . S2P
Prelude.v
PyVal.v
Plant.v
Lru.v
Ident.v
Nautilus.v
Orders.v
OrderRows.v
Commission.v
Inventory.v
Host.v
Convert.v
Drain.v
Intake.v
Exposure.v
MassStatus.v
Commands.v
Connect.v
Polling.v
Recovery.v
Framing.v
HistoryWindow.v
Gateway.v
Book.v
Bars.v
Subscriptions.v
Redact.v
Config.v
Ticks.v
Feed.v
Clients.v
Session.v
Instruments.v
Verify.v
DryRun.v
GatewayConfig.v
Requests.v
Attach.v
Endpoint.v
FourBar.v
PublishIndex.v
PublishRun.v
IdleExit.v
Delivery.v
StatusDoc.v
Backtest.v
Smoke.v
Tools.v
Stubs.v
Streams.v
HostSubs.v
HostWorld.v
