(* ===== verification/Prelude.v ===== *)
(** * A verification library for [rithmic-nt-connect]

    The program is a NautilusTrader adapter for the Rithmic futures venue: a
    Python package ([python/rithmic_nt_connect]) that turns venue events into
    trading-engine events and engine commands into venue requests, a Rust crate
    of pure rules it calls ([crates/rithmic-exec]), and a socket client
    ([python/rithmic_gateway]) for processes that share one venue login.

    ** The parts and how they interact

    A _session_ (not modelled; it is the world) carries three streams: market
    data, order notifications and PnL.  A poller per stream fetches batches and
    hands each event to its client.  The execution client keeps the order
    _plant_, a five-state lifecycle machine: commands may leave only while it is
    [Live] (cancels also while [Resyncing]).  Anything that makes venue state
    doubtful (a failed command with unknown outcome, a lost event, a broken
    transport) latches it; a re-arm _barrier_ (re-subscribe, re-read the working
    orders, wait for a PnL observation) is the only way back.  Fills are
    deduplicated in a bounded store shared by the live path and reconciliation.

    ** Files

    - [Prelude]: exceptions as values, the error monad [res], the state-and-error
      monad [M] (a raise keeps the writes made before it), [preserves] with its
      hint database, tactics.
    - [PyVal]: the Python values of an event dictionary and the built-in
      coercions ([str], [int], [float], truth, [repr] of a float) on IEEE
      binary64 data.
    - [Nautilus]: what the adapter reads of NautilusTrader.  The library is not
      in the repository: parsing of prices, quantities and ids, and the cache,
      are type classes ([NautilusTypes], [CacheOps]) whose documented behaviour
      is a class of laws ([CacheLaws]) that clients assume and the concrete
      instances ([MapCache], [PlainTypes]) discharge.
    - [Plant]: [rithmic-exec/src/plant.rs], [_order_plant.py].
    - [Lru]: [lru.rs] and the two stores of [_orders.py] built on it, against an
      abstract recency list ([Spec]).
    - [Ident]: [ident.rs], the symbol rules of [exposure.rs], and their callers
      in [_convert.py].
    - [Orders]: [_orders.py], [notify.rs], [fills.rs]: wire terms, notification
      kinds and actions, fill identity.
    - [OrderRows]: [order_rows.py], [drain.rs]: what a working-order row means,
      which rows are trusted, fresh, stale.
    - [Commission]: [commission.rs], [commission.py].
    - [Inventory]: [inventory.rs], [inventory.py]: working orders and positions
      for tools that run without an engine.
    - [Host]: the attributes of [RithmicExecutionClient] ([execution.py]) as one
      record shared by its collaborators, the world it runs in ([Env]) and the
      helpers several components use.
    - [Convert]: the converters of [_convert.py].
    - [Drain]: [WorkingOrdersDrain] of [recon.py] and the reconciliation
      generators of [execution.py].
    - [Intake]: [VenueNotificationIntake] of [notification_intake.py].
    - [Exposure]: [exposure.py], the account, position and exposure parts of
      [execution.py].
    - [MassStatus]: [generate_mass_status] of [execution.py] with its helpers in
      [recon.py].
    - [Commands]: the command handlers of [execution.py].
    - [Connect]: connect, disconnect, resync, recovery and the re-arm barrier of
      [execution.py].
    - [Polling]: [PlantPoller] of [polling.py], [errors.py], and the two pollers
      [_plant_poll_loop] builds.
    - [Recovery]: [TransportRecoveryBridge] of [recovery_bridge.py] as a step
      relation.
    - [Framing], [HistoryWindow], [Gateway]: [framing.py], [framed_conn.py],
      [history_window.py], [client.py], [attach.py], [live_md.py] of
      [rithmic_gateway].
    - [Book], [Bars], [Subscriptions]: the order-book, bar and subscription
      parts of [data.py].
    - [Ticks], [Feed]: the rest of [data.py]: trade and quote ticks, then the
      data client (connect, poll loops with gap resync, dispatch, tick requests)
      over one record [Feed], its deliveries and messages in a log.
    - [Clients]: the constructors of both clients, the exposure endpoint, how each
      wires the recovery bridge.
    - [Redact], [Config]: [_redact.py]; [config.py] with its dotenv files,
      credential sources and secrets.
    - [Session]: the facades and constructors of [session.py], the client
      factories of [factories.py]; the extension's event thread
      ([python/session_events.rs]).
    - [Instruments]: [providers.py], [front_month.py], [historical.py].
    - [Verify], [DryRun]: [verify.py] and [scripts/verify_order_dry_run.py].
    - [GatewayConfig]: [config.py], [flock.py], [binary.py] and [__main__.py] of
      [rithmic_gateway], beside the Rust code they must agree with
      ([runtime_dir.rs], [listen.rs], [singleton.rs], [rithmic-host/src/flock.rs]).
    - [Requests]: every request of the gateway client ([client.py] over
      [session.proto]), the session call the parent makes of it
      ([server/dispatch/mod.rs]), and how a failed command comes back
      ([rithmic-host/src/error.rs], [client/mod.rs], [python/mod.rs]).
    - [Attach]: [connect] of [client.py] with the socket, the dial and the lock
      check of [framed_conn.py], over histories of connects and closes.
    - [Endpoint]: the login the parent binary makes of its environment
      ([env_keys.rs], [bin/rithmic_gateway.rs]) beside the one its clients make,
      and the harness that starts a parent ([scripts/_gateway_parent.py]).
    - [HostSubs], [HostWorld]: the subscriptions of the host's clients
      ([rithmic-host/src]: [intents.rs], [fanout.rs], [local/context.rs],
      [local/subscriptions.rs], [pump.rs], [pump/degraded.rs]; the ticker reset of
      [rithmic-plants/src/venue.rs]), one client
      against the others first, then any number of them as a step relation.
    - [Delivery]: the event queues of an attachment ([local/delivery.rs]).
    - [Streams]: the plant event lanes ([streams.rs]); every load, store and
      channel read is a step, and a run is any interleaving of them.
    - [IdleExit]: when a parent without peers exits ([idle_exit.rs]).
    - [FourBar], [Backtest]: [examples/nq_four_bar.py],
      [examples/backtest_nq_today.py].
    - [PublishIndex], [PublishRun]: [scripts/publish_index.py], the index and the
      run that builds it.
    - [StatusDoc]: [scripts/status_progress.py].
    - [Stubs]: [scripts/gen_nautilus_stubs.py], [scripts/gen_gateway_proto.py].
    - [Smoke]: [gateway_tick_consumer.py], [smoke_gateway_shared_ticks.py],
      [smoke_lucid_nq.py].
    - [Tools]: [live_nq_intraday_sandbox.py], [load_nq_time_bars.py],
      [verify_live_vs_history.py], [list_systems.py].

    ** How the code is modelled

    A method of a client is a computation in [M Host]: it reads and writes the
    shared record, appends what leaves the client to [h_out], and may raise.
    An [await] on the session is [call] or [wait]: the world ([Env]) chooses the
    reply, the clock readings, and what the other coroutines did to the shared
    state meanwhile ([e_interleave]).  In [Subscriptions] a ticker command is
    split at its [await] and a run is any sequence of the halves; a book or bar
    command there, and a request of [HostSubs] (which holds its topic lock, a
    ticker reset the session's), is one step.  Theorems quantify over the world; where
    one assumes something of it (the clock is increasing, no second barrier
    runs) that is a [Hypothesis] of its section and a witness instantiates it.
    Dictionaries are [gmap]s from strings to [pyval]; prices from the wire are
    binary64 values; nanosecond and second counts, quantities and ids are [Z],
    bounded explicitly where the Rust code converts to a machine width.
    Logging is not state and is left out; exception texts are kept only where a
    handler inspects or forwards them.

    ** What the theorems show

    - No command leaves unless it may: refusals (C3), the full protocol of a
      command and of each way it can fail (C2), the plant machine under races
      (C6), who may re-arm it (C1), a dead order stream that closes the order
      path (C7); the dry-run script sends only what its gates allow, with a
      trigger taken from the first last trade it polls (C24).  C2 pins every term
      that goes out (contract, side, type, quantity, prices, duration, tag,
      basket) to the command and the order, and requires a cause of a refusal.
    - Fills are delivered once and never dropped silently: C4, C5, the dedup
      store as a refinement of its specification (C20).
    - Venue state is re-read soundly: the drain publishes the last word on every
      order unless the node is ahead of it, both stated on the venue's rows (C8);
      recovery after a transport break, with termination (C9); exposure counts
      exactly the rows sent again after a PnL resync or a forgotten session (C10)
      and a complete snapshot is a proof (C11, the net a 64-bit sum); the startup
      mass status (C12).
    - The gateway client: frames under arbitrary chunking (C13), request/reply
      correlation (C16), losses accounted for (C15), chunked history (C14); the
      parent is asked what the caller asked (C37), and a failed command keeps its
      class on the way back (C33).
    - The host behind it: the subscriptions of all clients against the counters,
      the hub and the venue, over requests (ticker resets included), deaths,
      retries and recoveries (C17);
      every event queued for an attachment is read in order or covered by a gap
      (C18), and so is every event of a plant lane, whatever the interleaving of
      forwarders, attachments and the consumer (C19); the idle parent exits when
      its grace is over and never under a peer (C35).
    - Finding the parent: one environment gives client and parent one login, one
      socket and one lock (C29, for a login the parent accepts and the variables
      both sides read), the lock excludes among processes each with its own
      environment (C30), the socket path fits the address (C31), no impostor is
      attached to, whatever connects and closes came before (C34), a parent the
      harness starts logs in where it was told (C36).
    - Market data: after a gap, a connect or a resume every quote side comes from
      a later message of its instrument (C21), trade ids are distinct (C22), the
      poll loop ends on a terminal error and only then (C23), book batches (C38),
      feeds and their holders while commands of one symbol do not overlap (C39),
      history answers: the newest closed bars, never repeated live (C40).
    - Configuration and sessions: what a configuration satisfies (C25), a test
      system is never sent to a default production URL (C26), the errors (C27),
      passwords kept out of diagnostics (C28), session events reach every
      listener up to one that raises (C32).
    - Lemmas in the component files add, among others: [only_rearm_arms],
      [resync_keeps_latch], [batch_protocol], [stale_pnl_batch_ignored],
      [fill_key_retained], [bound_basket_resolves], [trusted_row_terms],
      [terminal_status_has_evidence], [best_row_correct], [quote_is_latest],
      [live_bars_advance], [commission_rate_rule], [provider_loads_pairs],
      [resolve_bin_sources], [freshest_per_key_correct],
      [finished_basket_stays_out], [create_session_password],
      [compare_accounts], [start_parent_spec], [four_bar_signal],
      [rth_open_spec], [prune_keeps_newest], [render_links],
      [order_leaves_only_on_proof], [fill_key_identity],
      [instrument_id_roundtrip], [expiration_round_trip],
      [redact_text_segments], [backtest_honest], [smoke_ok_means],
      [sandbox_is_paper], [verify_main_honest], [time_bars_main_closes],
      [status_check_exact], [take_ends], [poll_pops_all], [fresh_exec_client],
      [first_exec_client_answers], [exec_wiring_is_bridge],
      [data_wiring_leaves_plant], [history_waits_bounded], [render_pages],
      [hash_keeps_token], [open_terminates], [list_releases_all],
      [chunks_whole], [main_deletes_pruned], [main_writes_index],
      [patch_again], [hand_patches_once], [strip_lines_idempotent],
      [prune_exact], [install_swaps], [install_keeps_old], [main_swaps],
      [proto_shape_checked].
    - Behaviours that differ from what the sources say of themselves are proved
      as lemmas on concrete inputs: [unreadable_contract_reported_flat],
      [startup_drain_swallows_fill], [row_without_balance_publishes_zero],
      [garbled_average_aborts_drain], [boolean_side_is_trusted],
      [poll_reorders_other_streams], [minute_event_reaches_hour_bars],
      [stray_release_stops_held_feed], [queued_resume_survives_detach],
      [explicit_test_env_guard_gap], [legacy_test_url_goes_live],
      [odd_aggressor_fails_reply], [redact_overlap_shows_suffix],
      [disconnect_with_listener_deafens], [year_month_misread],
      [whole_tick_loses_zeros], [stats_update_aborts_recording],
      [failed_cancel_exits_zero], [tiny_offset_is_marketable],
      [base_dirs_diverge], [foreign_dir_diverges],
      [load_orders_window_ignored], [raw_client_misses_test_parent],
      [session_ignores_rithmic_env], [failed_probe_leaks_child],
      [unattached_parent_stays], [zero_gap_vanishes], [dark_join_forgotten],
      [order_retry_skips_join], [wrong_total_is_drift], [pinned_clock_slips],
      [lucid_ok_without_events], [detach_race_loses], [failure_survives_attach],
      [stale_gap_counts_one], [recon_not_idempotent],
      [strategy_patch_without_anchor], [partial_move_stays],
      [overlapping_release_stops_held_feed],
      [overlapping_rollback_raises_key_error], [coalesced_gap_keeps_old_side],
      [failed_probe_leaves_socket], [broken_handshake_leaves_socket],
      [failed_reset_leaves_joins_dark], [other_tmpdir_both_hold],
      [raising_listener_starves_the_next].

    ** Fuel and bounds

    Loops over data are structural.  Deadlines measured on a monotonic clock are
    a number of polls ([Connect]) or a list of answers ([Bars], [Gateway]), over
    which the theorems quantify.  The unbounded loops of a poller take a number
    of turns and say "still looping" when it is used up; the theorems hold for
    every number.  [fill_loop] reads one delivery per turn of the list the
    socket still has to give.  [window_slices] and [shortest] (the printing of a
    float, at most 17 digits) take fuel computed from their input, proved or
    evaluated to be enough.  Following redirects ([open_loop]) takes the fuel the
    handler's own limits allow, proved enough ([open_terminates]); the pages of
    [list_releases] take a number the theorem quantifies over.  The string
    scanners of [Stubs] take the length of the text, and each turn uses a
    character.  The recency map's [u64] clock is unbounded here.
    Strings are ASCII.

    ** Not modelled

    The venue session, and of the Rust host, gateway parent and plant crates what
    is network, threads and protobuf; generated protobuf code (a message is its
    fields, defaults dropped); package glue ([systems.py], [transport.py],
    [wire_types.py], [pandas_compat.py]); the stubs and the tests.  What is left
    of the Python sources is imports, declarations for type checkers, log lines,
    one-line delegations and argument parsing.  In [HostWorld] three answers of the
    venue are excluded from C17, each of which breaks it
    ([dark_join_forgotten], [order_retry_skips_join],
    [failed_reset_leaves_joins_dark]). *)

From stdpp Require Import base gmap strings list fin_maps.
From Stdlib Require Import ZArith Lia.

(** ** Python exceptions

    The exception classes the adapter raises or catches, with the [code]
    attribute and the text the handlers inspect. *)

Inductive exn_class :=
  | ExValue | ExType | ExOverflow | ExKey | ExRuntime | ExTimeout
  | ExConvert | ExOrderMap | ExUnreadable
  | ExVenueQueryUnavailable | ExReconUnavailable
  | ExChannel | ExChannelLagged | ExChannelClosed | ExNotConnected
  | ExPollTransient | ExGateway | ExAttach | ExOs | ExOther
  | ExConfig | ExGatewayConfig | ExInstrumentBuild | ExFrontMonth
  | ExAlreadyConnected | ExSessionLock | ExBinary | ExImport | ExSystemExit | ExHistory.

Record exn := Exn {
  ex_class : exn_class;
  ex_code : option string;
  ex_text : string
}.

#[export] Instance exn_class_eq_dec : EqDecision exn_class.
Proof. solve_decision. Defined.
#[export] Instance exn_eq_dec : EqDecision exn.
Proof. solve_decision. Defined.

(** [except ValueError]: [ConvertError], [OrderMapError],
    [UnreadableEventError], [ConfigError], [GatewayConfigError],
    [InstrumentBuildError] and [FrontMonthError] are subclasses. *)
Definition is_value_error (e : exn) : bool :=
  match ex_class e with
  | ExValue | ExConvert | ExOrderMap | ExUnreadable
  | ExConfig | ExGatewayConfig | ExInstrumentBuild | ExFrontMonth => true
  | _ => false
  end.

(** [except (TypeError, ValueError)] and
    [except (TypeError, ValueError, OverflowError)]. *)
Definition is_type_or_value_error (e : exn) : bool :=
  is_value_error e || bool_decide (ex_class e = ExType).
Definition is_tvo_error (e : exn) : bool :=
  is_type_or_value_error e || bool_decide (ex_class e = ExOverflow).

(** ** Fallible pure code *)

Inductive res (A : Type) :=
  | Ok (a : A)
  | Raise (e : exn).
Arguments Ok {A} _.
Arguments Raise {A} _.

#[export] Instance res_ret : MRet res := fun A a => Ok a.
#[export] Instance res_bind : MBind res := fun A B f m =>
  match m with Ok a => f a | Raise e => Raise e end.

(** [try: m; except <p>: h]. *)
Definition catch {A} (p : exn -> bool) (m : res A) (h : exn -> res A) : res A :=
  match m with
  | Ok a => Ok a
  | Raise e => if p e then h e else Raise e
  end.

(** ** Fallible stateful code

    A Python method runs against the object graph [S]; an exception leaves the
    writes made before it in place, so the state is returned on both
    outcomes. *)

Definition M (S A : Type) : Type := S -> res A * S.

#[export] Instance M_ret {S} : MRet (M S) := fun A a s => (Ok a, s).
#[export] Instance M_bind {S} : MBind (M S) := fun A B f m s =>
  match m s with
  | (Ok a, s') => f a s'
  | (Raise e, s') => (Raise e, s')
  end.

Definition get {S} : M S S := fun s => (Ok s, s).
Definition put {S} (s : S) : M S unit := fun _ => (Ok tt, s).
Definition modify {S} (f : S -> S) : M S unit := fun s => (Ok tt, f s).
Definition throw {S A} (e : exn) : M S A := fun s => (Raise e, s).
Definition lift {S A} (r : res A) : M S A := fun s => (r, s).
Definition gets {S A} (f : S -> A) : M S A := fun s => (Ok (f s), s).
Definition catchM {S A} (p : exn -> bool) (m : M S A) (h : exn -> M S A) : M S A :=
  fun s =>
    match m s with
    | (Ok a, s') => (Ok a, s')
    | (Raise e, s') => if p e then h e s' else (Raise e, s')
    end.
Definition whenM {S} (b : bool) (m : M S unit) : M S unit :=
  if b then m else mret tt.

Fixpoint forM_ {S A} (l : list A) (f : A -> M S unit) : M S unit :=
  match l with
  | [] => mret tt
  | a :: l' => f a ≫= fun _ => forM_ l' f
  end.

Definition any_exn (_ : exn) : bool := true.

(** ** Automation *)

(** Expose the state passing of a monadic definition. *)
Ltac run_monad :=
  cbv beta iota zeta delta
    [get put modify throw lift gets whenM mbind M_bind mret M_ret].

(** Close a decidable closed goal by evaluation. *)
Ltac evaluate := apply (bool_decide_unpack _); vm_compute; exact I.

(** Case analysis on the scrutinee of the innermost [match] or [if]. *)
Ltac case_scrut :=
  match goal with
  | |- context [match ?x with _ => _ end] =>
      lazymatch x with
      | context [match _ with _ => _ end] => fail
      | _ => destruct x eqn:?
      end
  end.
Ltac case_scrut_in H :=
  match type of H with
  | context [match ?x with _ => _ end] =>
      lazymatch x with
      | context [match _ with _ => _ end] => fail
      | _ => destruct x eqn:?
      end
  end.

(** ** Invariants of stateful code

    [preserves R m]: every run of [m], whether it returns or raises, relates
    the state before to the state after.  For a preorder [R] the rules below
    compose; with [R s s' := P s -> P s'] this is invariance of [P]. *)

Definition preserves {S A} (R : S -> S -> Prop) (m : M S A) : Prop :=
  forall s, R s (m s).2.

Section Preserves.
Context {S : Type} (R : S -> S -> Prop) `{!PreOrder R}.

Lemma preserves_bind {A B} (m : M S A) (f : A -> M S B) :
  preserves R m -> (forall a, preserves R (f a)) -> preserves R (m ≫= f).
Proof.
  intros Hm Hf s. unfold mbind, M_bind. specialize (Hm s).
  destruct (m s) as [[a|e] s']; simpl in *; [|done]. etransitivity; [done|]. apply Hf.
Qed.

Lemma preserves_ret {A} (a : A) : preserves R (mret a : M S A).
Proof. by intros s. Qed.

Lemma preserves_get : preserves R get.
Proof. by intros s. Qed.

Lemma preserves_gets {A} (f : S -> A) : preserves R (gets f).
Proof. by intros s. Qed.

Lemma preserves_lift {A} (r : res A) : preserves R (lift r).
Proof. by intros s. Qed.

Lemma preserves_throw {A} e : preserves R (throw e : M S A).
Proof. by intros s. Qed.

Lemma preserves_modify f : (forall s, R s (f s)) -> preserves R (modify f).
Proof. intros H s. apply H. Qed.

Lemma preserves_when b m : preserves R m -> preserves R (whenM b m).
Proof. intros H. destruct b; [done|]. apply preserves_ret. Qed.

Lemma preserves_catch {A} p (m : M S A) h :
  preserves R m -> (forall e, preserves R (h e)) -> preserves R (catchM p m h).
Proof.
  intros Hm Hh s. unfold catchM. specialize (Hm s).
  destruct (m s) as [[a|e] s']; simpl in *; [done|].
  destruct (p e); [|done]. etransitivity; [done|]. apply Hh.
Qed.

Lemma preserves_forM {A} (l : list A) f :
  (forall a, a ∈ l -> preserves R (f a)) -> preserves R (forM_ l f).
Proof.
  induction l as [|a l IH]; intros H; simpl; [apply preserves_ret|].
  apply preserves_bind; [apply H; constructor|]. intros _. apply IH.
  intros b Hb. apply H. by constructor.
Qed.

End Preserves.

Create HintDb preserve.
#[export] Hint Resolve preserves_ret preserves_get preserves_gets preserves_lift
  preserves_throw preserves_when : preserve.

(** Walk a monadic definition, leaving the state writes as goals. *)
Ltac preserve_step :=
  first
    [ solve [auto with preserve typeclass_instances]
    | lazymatch goal with
      | |- preserves _ (mbind _ _) => apply preserves_bind; [try apply _| |intros ?]
      | |- preserves _ (catchM _ _ _) => apply preserves_catch; [try apply _| |intros ?]
      | |- preserves _ (whenM _ _) => apply preserves_when; [try apply _|]
      | |- preserves _ (forM_ _ _) => apply preserves_forM; [try apply _|intros ? ?]
      | |- preserves _ (let _ := _ in _) => cbv zeta
      end
    | case_scrut ].
Ltac preserve := repeat preserve_step.
