(* ===== verification/PyVal.v ===== *)
(** * Python values and the built-in coercions the adapter applies to them

    Venue events reach the adapter as dictionaries whose values have type
    [Any].  [pyval] is the closed set of shapes the wire produces ([None],
    [bool], [int], [float], [str]); the functions below are the built-ins the
    sources apply to them: truthiness, [str], [int], [float], [repr] of a float
    and fixed-point formatting.

    Floats are IEEE binary64 data ([spec_float], no primitive operations), so
    every coercion computes inside the kernel.  Strings are ASCII: case mapping
    and trimming are the ASCII restrictions of the Python and Rust functions. *)

From Stdlib Require Import Ascii String.
From stdpp Require Import base gmap strings list.
From Stdlib Require Import ZArith Lia DecimalString DecimalPos.
From Corelib Require Import SpecFloat.
From S2P Require Import Prelude.
Open Scope Z_scope.
Open Scope char_scope.
Open Scope string_scope.
Open Scope Z_scope.

(** ** Text *)

Module Text.

Definition chr (a : ascii) : Z := Z.of_N (N_of_ascii a).

(** Characters [str.strip] removes (ASCII part) and [str::trim] removes. *)
Definition py_space (a : ascii) : bool :=
  let c := chr a in ((9 <=? c) && (c <=? 13)) || ((28 <=? c) && (c <=? 32)).
Definition rs_space (a : ascii) : bool :=
  let c := chr a in ((9 <=? c) && (c <=? 13)) || (c =? 32).

Definition is_digit (a : ascii) : bool := let c := chr a in (48 <=? c) && (c <=? 57).
Definition is_upper (a : ascii) : bool := let c := chr a in (65 <=? c) && (c <=? 90).
Definition is_lower (a : ascii) : bool := let c := chr a in (97 <=? c) && (c <=? 122).

Definition up_ascii (a : ascii) : ascii :=
  if is_lower a then ascii_of_N (N_of_ascii a - 32) else a.
Definition low_ascii (a : ascii) : ascii :=
  if is_upper a then ascii_of_N (N_of_ascii a + 32) else a.

Fixpoint smap (f : ascii -> ascii) (s : string) : string :=
  match s with
  | EmptyString => EmptyString
  | String a s' => String (f a) (smap f s')
  end.

Definition upper : string -> string := smap up_ascii.
Definition lower : string -> string := smap low_ascii.

Fixpoint dropl (p : ascii -> bool) (s : string) : string :=
  match s with
  | EmptyString => EmptyString
  | String a s' => if p a then dropl p s' else s
  end.

(** Remove the trailing characters that satisfy [p]. *)
Fixpoint dropr (p : ascii -> bool) (s : string) : string :=
  match s with
  | EmptyString => EmptyString
  | String a s' =>
      match dropr p s' with
      | EmptyString => if p a then EmptyString else String a EmptyString
      | t => String a t
      end
  end.

Definition strip_by (p : ascii -> bool) (s : string) : string := dropr p (dropl p s).
Definition strip : string -> string := strip_by py_space.
Definition trim : string -> string := strip_by rs_space.

Fixpoint has_char (c : ascii) (s : string) : bool :=
  match s with
  | EmptyString => false
  | String a s' => bool_decide (a = c) || has_char c s'
  end.

Fixpoint sall (p : ascii -> bool) (s : string) : bool :=
  match s with
  | EmptyString => true
  | String a s' => p a && sall p s'
  end.

(** [sub in s]. *)
Fixpoint contains (sub s : string) : bool :=
  String.prefix sub s ||
  match s with
  | EmptyString => false
  | String _ s' => contains sub s'
  end.

(** [s.split_once(c)]: at the first occurrence. *)
Fixpoint split_once (c : ascii) (s : string) : option (string * string) :=
  match s with
  | EmptyString => None
  | String a s' =>
      if bool_decide (a = c) then Some (EmptyString, s')
      else match split_once c s' with
           | Some (l, r) => Some (String a l, r)
           | None => None
           end
  end.

(** [s.strip_prefix(p)] and [s.strip_suffix(p)]. *)
Fixpoint strip_prefix (p s : string) : option string :=
  match p, s with
  | EmptyString, _ => Some s
  | String a p', String b s' => if bool_decide (a = b) then strip_prefix p' s' else None
  | String _ _, EmptyString => None
  end.

Fixpoint strip_suffix (p s : string) : option string :=
  if bool_decide (s = p) then Some EmptyString
  else match s with
       | EmptyString => None
       | String a s' => String a <$> strip_suffix p s'
       end.

Definition removeprefix (p s : string) : string := default s (strip_prefix p s).

Definition nonempty (s : string) : bool :=
  match s with EmptyString => false | _ => true end.

End Text.
Import Text.

(** ** Integers as text *)

Definition str_of_Z (z : Z) : string := NilZero.string_of_int (Z.to_int z).

(** Digits with single underscores between them, most significant first. *)
Fixpoint digits_value (acc : Z) (after_digit : bool) (s : string) : option Z :=
  match s with
  | EmptyString => if after_digit then Some acc else None
  | String a s' =>
      if is_digit a then digits_value (acc * 10 + (chr a - 48)) true s'
      else if bool_decide (a = "_"%char) then
             if after_digit then digits_value acc false s' else None
           else None
  end.

(** [int(s)] for a string: optional sign, decimal digits, surrounding blanks. *)
Definition Z_of_str (s : string) : option Z :=
  match trim s with
  | String "-" r => Z.opp <$> digits_value 0 false r
  | String "+" r => digits_value 0 false r
  | r => digits_value 0 false r
  end.

(** ** Floats *)

Definition f64 : Set := spec_float.
Definition prec64 : Z := 53.
Definition emax64 : Z := 1024.

#[export] Instance f64_eq_dec : EqDecision f64.
Proof. unfold f64. solve_decision. Defined.

(** The binary64 number nearest to [(-1)^s * c * 10^x] (ties to even). *)
Definition f64_of_decimal (s : bool) (c : N) (x : Z) : f64 :=
  match c with
  | 0%N => S754_zero s
  | Npos p =>
      if 0 <=? x then
        binary_round prec64 emax64 s (p * Z.to_pos (10 ^ x)) 0
      else
        let '(q, e, l) := SFdiv_core_binary prec64 emax64 (Zpos p) 0 (10 ^ (- x)) 0 in
        binary_round_aux prec64 emax64 s q e l
  end.

(** [float(n)] for an [int]: [None] is the [OverflowError]. *)
Definition f64_of_Z (z : Z) : option f64 :=
  match binary_normalize prec64 emax64 z 0 false with
  | S754_infinity _ => None
  | f => Some f
  end.

(** [int(f)]: truncation; an infinity overflows, a NaN is a [ValueError]. *)
Definition Z_of_f64 (f : f64) : res Z :=
  match f with
  | S754_zero _ => Ok 0
  | S754_infinity _ =>
      Raise (Exn ExOverflow None "cannot convert float infinity to integer")
  | S754_nan => Raise (Exn ExValue None "cannot convert float NaN to integer")
  | S754_finite s m e =>
      let a := if 0 <=? e then Zpos m * 2 ^ e else Zpos m / 2 ^ (- e) in
      Ok (if s then - a else a)
  end.

(** The exact value [|f| = num / den] of a finite non-zero float. *)
Definition f64_ratio (m : positive) (e : Z) : Z * Z :=
  if 0 <=? e then (Zpos m * 2 ^ e, 1) else (Zpos m, 2 ^ (- e)).

(** Exact comparison with an integer, as [int == float] does. *)
Definition f64_eq_Z (f : f64) (z : Z) : bool :=
  match f with
  | S754_zero _ => z =? 0
  | S754_finite s m e =>
      let '(n, d) := f64_ratio m e in (if s then - n else n) =? z * d
  | _ => false
  end.

Definition f64_neg (f : f64) : bool :=
  match f with
  | S754_zero s | S754_infinity s => s
  | S754_nan => false
  | S754_finite s _ _ => s
  end.

(** [-1.0]. *)
Definition f64_minus_one : f64 := f64_of_decimal true 1 0.

(** *** [repr]: the shortest decimal that rounds back *)

Fixpoint zeros (n : nat) : string :=
  match n with O => EmptyString | S n' => String "0" (zeros n') end.

Definition pad_left (w : nat) (s : string) : string :=
  zeros (w - String.length s) +:+ s.

(** The decimal point position: [10^(k-1) <= num/den < 10^k]. *)
Fixpoint decpt_search (fuel : nat) (num den k : Z) : Z :=
  match fuel with
  | O => k
  | S fuel' =>
      let lt10k := if 0 <=? k then num <? den * 10 ^ k else num * 10 ^ (- k) <? den in
      let ge10k1 :=
        if 0 <=? k - 1 then den * 10 ^ (k - 1) <=? num
        else den <=? num * 10 ^ (1 - k) in
      if negb lt10k then decpt_search fuel' num den (k + 1)
      else if negb ge10k1 then decpt_search fuel' num den (k - 1)
      else k
  end.

(** [log10] is bracketed by [log2]: four corrections are more than enough. *)
Definition decpt (num den : Z) : Z :=
  decpt_search 4 num den ((Z.log2 num - Z.log2 den) * 30103 / 100000 + 1).

(** [num/den] scaled to an integer of [n] digits, rounded down, and the
    remainder as a fraction of the divisor. *)
Definition scaled (num den k n : Z) : Z * Z * Z :=
  let x := k - n in
  let '(a, b) := if 0 <=? x then (num, den * 10 ^ x) else (num * 10 ^ (- x), den) in
  (a / b, a mod b, b).

Definition shortest_at (f : f64) (num den k n : Z) : option Z :=
  let '(d, r, b) := scaled num den k n in
  let good c := bool_decide (f64_of_decimal false (Z.to_N c) (k - n) = f) in
  let near_down := (2 * r <? b) || ((2 * r =? b) && Z.even d) in
  let '(c1, c2) := if near_down then (d, d + 1) else (d + 1, d) in
  if good c1 then Some c1 else if good c2 then Some c2 else None.

Fixpoint shortest (fuel : nat) (f : f64) (num den k n : Z) : Z * Z :=
  match fuel with
  | O => (fst (fst (scaled num den k 17)), 17)
  | S fuel' =>
      match shortest_at f num den k n with
      | Some c => (c, n)
      | None => shortest fuel' f num den k (n + 1)
      end
  end.

Definition drop_trailing_zeros (s : string) : string :=
  dropr (fun a => bool_decide (a = "0"%char)) s.

(** Digits [0.d1 d2 ... * 10^k] in Python's [repr] layout. *)
Definition layout (digits : string) (k : Z) : string :=
  let len := Z.of_nat (String.length digits) in
  if (-4 <? k) && (k <=? 16) then
    if k <=? 0 then "0." +:+ zeros (Z.to_nat (- k)) +:+ digits
    else if len <=? k then digits +:+ zeros (Z.to_nat (k - len)) +:+ ".0"
    else String.substring 0 (Z.to_nat k) digits +:+ "." +:+
         String.substring (Z.to_nat k) (Z.to_nat (len - k)) digits
  else
    let e := k - 1 in
    let frac := String.substring 1 (String.length digits) digits in
    String.substring 0 1 digits +:+ (if nonempty frac then "." +:+ frac else EmptyString) +:+
    "e" +:+ (if e <? 0 then "-" else "+") +:+ pad_left 2 (str_of_Z (Z.abs e)).

Definition repr_f64 (f : f64) : string :=
  match f with
  | S754_nan => "nan"
  | S754_infinity s => if s then "-inf" else "inf"
  | S754_zero s => if s then "-0.0" else "0.0"
  | S754_finite s m e =>
      let '(num, den) := f64_ratio m e in
      let k := decpt num den in
      let '(c, n) := shortest 17 (S754_finite false m e) num den k 1 in
      let ds := str_of_Z c in
      (* rounding up to 10^n moves the point *)
      let k' := k + (Z.of_nat (String.length ds) - n) in
      (if s then "-" else EmptyString) +:+ layout (drop_trailing_zeros ds) k'
  end.

(** [f"{x:.{p}f}"] of a finite float: exact value, half-even at [p] places. *)
Definition fixed_f64 (p : Z) (f : f64) : string :=
  match f with
  | S754_nan => "nan"
  | S754_infinity s => if s then "-inf" else "inf"
  | S754_zero s => (if s then "-0" else "0") +:+
                   (if p =? 0 then EmptyString else "." +:+ zeros (Z.to_nat p))
  | S754_finite s m e =>
      let '(num, den) := f64_ratio m e in
      let a := num * 10 ^ p in
      let d := a / den in
      let r := a mod den in
      let c := if (2 * r <? den) || ((2 * r =? den) && Z.even d) then d else d + 1 in
      let txt := pad_left (S (Z.to_nat p)) (str_of_Z c) in
      let cut := (String.length txt - Z.to_nat p)%nat in
      (if s then "-" else EmptyString) +:+
      (if p =? 0 then txt
       else String.substring 0 cut txt +:+ "." +:+ String.substring cut (Z.to_nat p) txt)
  end.

(** *** [float(s)] for a string *)

(** A run of digits with single underscores between them: value, digit count,
    rest.  [ok_us] says an underscore may come next. *)
Fixpoint digit_run (acc : N) (cnt : Z) (ok_us : bool) (s : string) : N * Z * string :=
  match s with
  | String a s' =>
      if is_digit a then digit_run (acc * 10 + Z.to_N (chr a - 48))%N (cnt + 1) true s'
      else if bool_decide (a = "_"%char) && ok_us then
             match s' with
             | String b _ => if is_digit b then digit_run acc cnt false s' else (acc, cnt, s)
             | EmptyString => (acc, cnt, s)
             end
           else (acc, cnt, s)
  | EmptyString => (acc, cnt, s)
  end.

Definition split_sign (s : string) : bool * string :=
  match s with
  | String "-" r => (true, r)
  | String "+" r => (false, r)
  | r => (false, r)
  end.

(** The exponent part: nothing, or [e] with an optional sign and digits. *)
Definition exponent_part (s : string) : option Z :=
  match s with
  | EmptyString => Some 0
  | String a r =>
      if bool_decide (low_ascii a = "e"%char) then
        let '(neg, r') := split_sign r in
        let '(v, n, rest) := digit_run 0 0 false r' in
        if (0 <? n) && negb (nonempty rest)
        then Some (if neg then - Z.of_N v else Z.of_N v) else None
      else None
  end.

Definition f64_of_str (s : string) : option f64 :=
  let '(neg, body) := split_sign (trim s) in
  let word := lower body in
  if bool_decide (word = "inf") || bool_decide (word = "infinity") then
    Some (S754_infinity neg)
  else if bool_decide (word = "nan") then Some S754_nan
  else
    let '(ip, in_, r) := digit_run 0 0 false body in
    let '(fp, fn, r') :=
      match r with
      | String "." r1 => digit_run ip 0 false r1
      | _ => (ip, 0, r)
      end in
    if (0 <? in_ + fn) then
      match exponent_part r' with
      | Some x => Some (f64_of_decimal neg fp (x - fn))
      | None => None
      end
    else None.

(** ** Values *)

Inductive pyval :=
  | VNone
  | VBool (b : bool)
  | VInt (z : Z)
  | VFloat (f : f64)
  | VStr (s : string).

#[export] Instance pyval_eq_dec : EqDecision pyval.
Proof. solve_decision. Defined.

Definition is_none (v : pyval) : bool :=
  match v with VNone => true | _ => false end.

(** [bool(v)]: a NaN is truthy. *)
Definition truthy (v : pyval) : bool :=
  match v with
  | VNone => false
  | VBool b => b
  | VInt z => negb (z =? 0)
  | VFloat (S754_zero _) => false
  | VFloat _ => true
  | VStr s => nonempty s
  end.

(** [a or b]. *)
Definition por (a b : pyval) : pyval := if truthy a then a else b.

Definition py_str (v : pyval) : string :=
  match v with
  | VNone => "None"
  | VBool b => if b then "True" else "False"
  | VInt z => str_of_Z z
  | VFloat f => repr_f64 f
  | VStr s => s
  end.

(** [str(v or "")]. *)
Definition str_or_empty (v : pyval) : string := py_str (por v (VStr "")).

Definition type_error : exn := Exn ExType None "int() argument".
Definition value_error : exn := Exn ExValue None "invalid literal".

Definition py_int (v : pyval) : res Z :=
  match v with
  | VNone => Raise type_error
  | VBool b => Ok (if b then 1 else 0)
  | VInt z => Ok z
  | VFloat f => Z_of_f64 f
  | VStr s => match Z_of_str s with Some z => Ok z | None => Raise value_error end
  end.

Definition py_float (v : pyval) : res f64 :=
  match v with
  | VNone => Raise type_error
  | VBool b => Ok (f64_of_decimal false (if b then 1 else 0) 0)
  | VInt z =>
      match f64_of_Z z with
      | Some f => Ok f
      | None => Raise (Exn ExOverflow None "int too large to convert to float")
      end
  | VFloat f => Ok f
  | VStr s => match f64_of_str s with Some f => Ok f | None => Raise value_error end
  end.

(** [int(v or 0)]. *)
Definition int_or_zero (v : pyval) : res Z := py_int (por v (VInt 0)).

(** ** Dictionaries with string keys: [d.get(k)] *)

Abbreviation pydict := (gmap string pyval).

Definition dget (d : pydict) (k : string) : pyval := default VNone (d !! k).

(** A literal dictionary, later bindings winning. *)
Definition dict_of (l : list (string * pyval)) : pydict := list_to_map (reverse l).

(** [v == "text"] for a Python string literal. *)
Definition is_str (v : pyval) (s : string) : bool :=
  match v with VStr t => bool_decide (t = s) | _ => false end.

Definition is_str_in (v : pyval) (l : list string) : bool :=
  match v with VStr t => bool_decide (t ∈ l) | _ => false end.

(** ** Facts *)

Create HintDb pyval.
Create Rewrite HintDb pyval.

Lemma por_truthy a b : truthy a = true -> por a b = a.
Proof. unfold por. by intros ->. Qed.

Lemma por_falsy a b : truthy a = false -> por a b = b.
Proof. unfold por. by intros ->. Qed.

Lemma is_str_true v s : is_str v s = true <-> v = VStr s.
Proof.
  destruct v; simpl; try (split; congruence).
  rewrite bool_decide_eq_true. split; congruence.
Qed.

Lemma is_str_false v s : is_str v s = false <-> v <> VStr s.
Proof.
  rewrite <- is_str_true. destruct (is_str v s); split; congruence.
Qed.

Lemma truthy_nonempty_str s : truthy (VStr s) = true <-> s <> "".
Proof. destruct s; simpl; split; congruence. Qed.

Lemma dget_insert d k v : dget (<[k := v]> d) k = v.
Proof. unfold dget. by rewrite lookup_insert_eq. Qed.

Lemma dget_insert_ne d k k' v : k <> k' -> dget (<[k := v]> d) k' = dget d k'.
Proof. intros ?. unfold dget. by rewrite lookup_insert_ne. Qed.

#[export] Hint Rewrite dget_insert : pyval.
#[export] Hint Resolve por_truthy por_falsy : pyval.

(** *** Trimming and text lemmas *)

Lemma dropl_none p s : sall (fun a => negb (p a)) s = true -> dropl p s = s.
Proof. destruct s; simpl; [done|]. by destruct (p a). Qed.

Lemma dropr_none p s : sall (fun a => negb (p a)) s = true -> dropr p s = s.
Proof.
  induction s as [|a s IH]; simpl; [done|].
  rewrite andb_true_iff. intros [Ha Hs]. rewrite (IH Hs).
  destruct (p a); [done|]. by destruct s.
Qed.

Lemma strip_by_none p s : sall (fun a => negb (p a)) s = true -> strip_by p s = s.
Proof. intros H. unfold strip_by. by rewrite (dropl_none _ _ H), dropr_none. Qed.

Lemma sall_impl (p q : ascii -> bool) s :
  (forall a, p a = true -> q a = true) -> sall p s = true -> sall q s = true.
Proof.
  intros Hpq. induction s as [|a s IH]; simpl; [done|].
  rewrite !andb_true_iff. naive_solver.
Qed.

Lemma sall_app p s t : sall p (s +:+ t) = sall p s && sall p t.
Proof. induction s as [|a s IH]; simpl; [done|]. by rewrite IH, andb_assoc. Qed.

Lemma has_char_app c s t : has_char c (s +:+ t) = has_char c s || has_char c t.
Proof. induction s as [|a s IH]; simpl; [done|]. by rewrite IH, orb_assoc. Qed.

Lemma string_app_assoc (s t u : string) : (s +:+ t) +:+ u = s +:+ (t +:+ u).
Proof. induction s as [|a s IH]; [done|]. change ((String a s +:+ t) +:+ u) with (String a ((s +:+ t) +:+ u)). by rewrite IH. Qed.

Lemma string_app_nil (t : string) : "" +:+ t = t.
Proof. reflexivity. Qed.

Lemma string_app_cons a (s t : string) : String a s +:+ t = String a (s +:+ t).
Proof. reflexivity. Qed.

Lemma string_length_app s t :
  String.length (s +:+ t) = (String.length s + String.length t)%nat.
Proof. induction s as [|a s IH]; [done|]. exact (f_equal S IH). Qed.

#[export] Hint Rewrite string_app_nil string_app_cons string_length_app : pyval.

Lemma string_app_inj_l (s t u : string) : s +:+ t = s +:+ u -> t = u.
Proof. induction s as [|a s IH]; [done|]. intros [=]. auto. Qed.

Lemma strip_prefix_eq p s r : strip_prefix p s = Some r -> s = p +:+ r.
Proof.
  revert s. induction p as [|a p IH]; intros s; simpl; [by intros [= ->]|].
  destruct s as [|b s]; [done|]. case_bool_decide; [|done]. intros Hr. subst b.
  by rewrite string_app_cons, <- (IH s Hr).
Qed.

(** Stripping twice is stripping once. *)
Section Strip.
Context (p : ascii -> bool).

Lemma dropl_head s : dropl p s = "" \/ exists a t, dropl p s = String a t /\ p a = false.
Proof.
  induction s as [|a s IH]; simpl; [by left|].
  destruct (p a) eqn:E; [done|]. right. eauto.
Qed.

Lemma dropr_head a t : p a = false -> exists u, dropr p (String a t) = String a u.
Proof.
  intros H. simpl. destruct (dropr p t); [|eauto]. rewrite H. eauto.
Qed.

Lemma dropr_idem s : dropr p (dropr p s) = dropr p s.
Proof.
  induction s as [|a s IH]; simpl; [done|].
  destruct (dropr p s) as [|b t] eqn:E.
  - destruct (p a) eqn:Ea; simpl; [done|]. by rewrite Ea.
  - change (dropr p (String a (String b t))) with
      (match dropr p (String b t) with
       | EmptyString => if p a then EmptyString else String a EmptyString
       | u => String a u end).
    by rewrite IH.
Qed.

Lemma strip_by_idem s : strip_by p (strip_by p s) = strip_by p s.
Proof.
  unfold strip_by. destruct (dropl_head s) as [->|(a & t & -> & Ha)]; [done|].
  destruct (dropr_head a t Ha) as [u Hu].
  assert (dropl p (dropr p (String a t)) = dropr p (String a t)) as ->.
  { rewrite Hu. simpl. by rewrite Ha. }
  apply dropr_idem.
Qed.
End Strip.

(** What a larger set of blanks leaves alone, a smaller one does too. *)
Section Weaker.
Context (p q : ascii -> bool) (Hqp : forall a, q a = true -> p a = true).

Lemma dropr_weaker s : dropr p s = s -> dropr q s = s.
Proof.
  induction s as [|a s IH]; simpl; [done|].
  destruct (dropr p s) as [|b u] eqn:E.
  - destruct (p a) eqn:Ea; [done|]. intros [= <-]. simpl.
    destruct (q a) eqn:Eq; [|done]. apply Hqp in Eq. congruence.
  - intros [= <-]. rewrite IH by done. done.
Qed.

Lemma dropl_length s : (String.length (dropl p s) <= String.length s)%nat.
Proof. induction s as [|a s IH]; simpl; [done|]. destruct (p a); simpl; lia. Qed.

Lemma dropr_length s : (String.length (dropr p s) <= String.length s)%nat.
Proof.
  induction s as [|a s IH]; simpl; [done|].
  destruct (dropr p s); [destruct (p a); simpl; lia|]. simpl in *. lia.
Qed.

Lemma strip_by_weaker s : strip_by p s = s -> strip_by q s = s.
Proof.
  unfold strip_by. destruct s as [|a s]; [done|]. simpl dropl. destruct (p a) eqn:Ea.
  - intros E. pose proof (dropr_length (dropl p s)). pose proof (dropl_length s).
    rewrite E in *. simpl in *. lia.
  - destruct (q a) eqn:Eq; [apply Hqp in Eq; congruence|]. apply dropr_weaker.
Qed.
End Weaker.

Lemma trim_of_strip s : strip s = s -> trim s = s.
Proof. apply strip_by_weaker. intros a. unfold rs_space, py_space. lia. Qed.

(** A boolean filter respects permutations and keeps entries distinct. *)
Lemma filter_perm {A} (f : A -> bool) l l' :
  Permutation l l' -> Permutation (List.filter f l) (List.filter f l').
Proof.
  induction 1 as [|x l l' _ IH|x y l|l l' l'' _ IH _ IH']; simpl; [done| | |by etrans].
  - destruct (f x); [by constructor|done].
  - destruct (f x), (f y); try done. constructor.
Qed.

Lemma filter_nodup {A} (f : A -> bool) (l : list A) : NoDup l -> NoDup (List.filter f l).
Proof.
  intros Hl. apply NoDup_ListNoDup, List.NoDup_filter, NoDup_ListNoDup, Hl.
Qed.

(** *** Integer text round trip *)

Lemma digits_value_digit a s acc b :
  is_digit a = true ->
  digits_value acc b (String a s) = digits_value (acc * 10 + (chr a - 48)) true s.
Proof. intros H. simpl. by rewrite H. Qed.

Lemma digits_value_acc d : forall acc,
  digits_value (Zpos acc) true (NilEmpty.string_of_uint d)
  = Some (Zpos (Pos.of_uint_acc d acc)).
Proof.
  induction d; intros acc; [done|..]; cbn [NilEmpty.string_of_uint];
    rewrite digits_value_digit by reflexivity; cbn [Pos.of_uint_acc];
    rewrite <- IHd; f_equal; vm_compute (chr _); lia.
Qed.

Lemma digits_value_uint d b :
  d <> Decimal.Nil ->
  digits_value 0 b (NilEmpty.string_of_uint d) = Some (Z.of_N (Pos.of_uint d)).
Proof.
  intros Hd. revert b.
  assert (H : forall b, b = true \/ d <> Decimal.Nil ->
    digits_value 0 b (NilEmpty.string_of_uint d) = Some (Z.of_N (Pos.of_uint d)));
    [|auto].
  clear Hd. induction d; intros b Hb; cbn [NilEmpty.string_of_uint].
  { destruct b; [done|naive_solver]. }
  all: rewrite digits_value_digit by reflexivity; cbn [Pos.of_uint Z.of_N].
  { rewrite <- (IHd true) by auto. done. }
  all: rewrite <- digits_value_acc; f_equal; done.
Qed.

Lemma sall_digits d :
  sall is_digit (NilEmpty.string_of_uint d) = true.
Proof. induction d; simpl; auto. Qed.

Lemma digit_not_space a : is_digit a = true -> negb (rs_space a) = true.
Proof. unfold is_digit, rs_space. lia. Qed.

(** [int(str(n)) == n]. *)
Lemma Z_of_str_of_Z z : Z_of_str (str_of_Z z) = Some z.
Proof.
  unfold str_of_Z, Z_of_str, NilZero.string_of_int.
  assert (Hs : forall d, trim (NilEmpty.string_of_uint d) = NilEmpty.string_of_uint d).
  { intros d. apply strip_by_none, (sall_impl is_digit); auto using digit_not_space, sall_digits. }
  assert (Hp : forall p, Pos.to_uint p <> Decimal.Nil).
  { intros p E. pose proof (DecimalPos.Unsigned.of_to p) as H. by rewrite E in H. }
  assert (Hz : forall p, NilZero.string_of_uint (Pos.to_uint p)
                         = NilEmpty.string_of_uint (Pos.to_uint p)).
  { intros p. specialize (Hp p). by destruct (Pos.to_uint p). }
  destruct z as [|p|p]; [done| |]; cbn [Z.to_int]; rewrite Hz.
  - rewrite Hs.
    replace (match NilEmpty.string_of_uint (Pos.to_uint p) with
             | String "-" r => Z.opp <$> digits_value 0 false r
             | String "+" r => digits_value 0 false r
             | r => digits_value 0 false r end)
      with (digits_value 0 false (NilEmpty.string_of_uint (Pos.to_uint p)))
      by (by destruct (Pos.to_uint p)).
    rewrite digits_value_uint by auto. by rewrite DecimalPos.Unsigned.of_to.
  - assert (Ht : trim (String "-" (NilEmpty.string_of_uint (Pos.to_uint p)))
                 = String "-" (NilEmpty.string_of_uint (Pos.to_uint p))).
    { apply strip_by_none. simpl. apply (sall_impl is_digit);
        auto using digit_not_space, sall_digits. }
    rewrite Ht, digits_value_uint by auto. by rewrite DecimalPos.Unsigned.of_to.
Qed.

Lemma str_of_Z_inj z z' : str_of_Z z = str_of_Z z' -> z = z'.
Proof. intros H. apply (f_equal Z_of_str) in H. rewrite !Z_of_str_of_Z in H. congruence. Qed.
