(* ===== verification/Plant.v ===== *)
(** * The order-plant lifecycle machine

    [PlantPolicy] of [crates/rithmic-exec/src/plant.rs] and its Python binding
    [OrderPlantPolicy] ([_order_plant.py]).  The state moves only through the
    transition methods; [plant_op] names the calls the adapter makes so that an
    interleaving of coroutines is a list of operations. *)

From Stdlib Require Import Ascii String.
From stdpp Require Import base strings list.
From S2P Require Import Prelude PyVal.
Open Scope string_scope.
Open Scope list_scope.

Inductive PlantState :=
  | Disconnected | Connecting | Live | Resyncing | Latched.

#[export] Instance PlantState_eq_dec : EqDecision PlantState.
Proof. solve_decision. Defined.

Definition ALL : list PlantState := [Disconnected; Connecting; Live; Resyncing; Latched].

Definition as_str (s : PlantState) : string :=
  match s with
  | Disconnected => "disconnected"
  | Connecting => "connecting"
  | Live => "live"
  | Resyncing => "resyncing"
  | Latched => "latched"
  end.

Definition parse (name : string) : option PlantState :=
  List.find (fun s => bool_decide (as_str s = name)) ALL.

Definition latched (s : PlantState) : bool := bool_decide (s = Latched).

Definition begin_connect (s : PlantState) : PlantState := Connecting.
Definition disconnect (s : PlantState) : PlantState := Disconnected.
Definition latch (s : PlantState) : PlantState := Latched.

Definition resync_start (s : PlantState) : PlantState :=
  match s with
  | Latched | Disconnected => s
  | Connecting => Latched
  | Live | Resyncing => Resyncing
  end.

Definition resync_complete (s : PlantState) : PlantState :=
  match s with Resyncing => Live | _ => s end.

Definition resync_failed (s : PlantState) : PlantState :=
  match s with Latched => Latched | _ => Disconnected end.

Definition rearm (poll_alive : bool) (s : PlantState) : bool * PlantState :=
  match s with
  | Latched => (false, Latched)
  | Connecting => if poll_alive then (true, Live) else (false, Disconnected)
  | _ => (false, Disconnected)
  end.

Definition allow_submit (s : PlantState) : bool := bool_decide (s = Live).
Definition allow_modify (s : PlantState) : bool := bool_decide (s = Live).
Definition allow_cancel (s : PlantState) : bool :=
  match s with Live | Resyncing => true | _ => false end.

Definition reject_reason (action : string) (s : PlantState) : string :=
  "order plant " +:+ as_str s +:+ "; " +:+ action +:+ " blocked".

(** ** Interleavings *)

Inductive plant_op :=
  | BeginConnect | Disconnect | Latch
  | ResyncStart | ResyncComplete | ResyncFailed
  | Rearm (poll_alive : bool).

#[export] Instance plant_op_eq_dec : EqDecision plant_op.
Proof. solve_decision. Defined.

Definition apply_op (s : PlantState) (o : plant_op) : PlantState :=
  match o with
  | BeginConnect => begin_connect s
  | Disconnect => disconnect s
  | Latch => latch s
  | ResyncStart => resync_start s
  | ResyncComplete => resync_complete s
  | ResyncFailed => resync_failed s
  | Rearm a => snd (rearm a s)
  end.

Definition run (s : PlantState) (ops : list plant_op) : PlantState := fold_left apply_op ops s.

Lemma run_app s ops1 ops2 : run s (ops1 ++ ops2) = run (run s ops1) ops2.
Proof. apply fold_left_app. Qed.

Lemma run_cons s o ops : run s (o :: ops) = run (apply_op s o) ops.
Proof. done. Qed.

(** Commands are open: some command may reach the venue. *)
Definition commands_open (s : PlantState) : bool :=
  allow_submit s || allow_modify s || allow_cancel s.

Lemma commands_open_live s : commands_open s = true <-> s = Live \/ s = Resyncing.
Proof. destruct s; vm_compute; naive_solver. Qed.

(** A state in which no coroutine finished a re-arm: closed under everything
    but a re-arm from the barrier. *)
Lemma unarmed_step s o :
  commands_open s = false ->
  (forall a, o = Rearm a -> s = Connecting -> a = false) ->
  commands_open (apply_op s o) = false.
Proof.
  intros Hs Ho. destruct o as [| | | | | |[]]; destruct s; try done.
  by specialize (Ho true eq_refl eq_refl).
Qed.

Lemma unarmed_run s ops :
  commands_open s = false -> commands_open (run s ops) = true ->
  exists pre post, ops = pre ++ Rearm true :: post /\ run s pre = Connecting.
Proof.
  revert s. induction ops as [|o ops IH]; intros s Hs Hr; [simpl in Hr; congruence|].
  rewrite run_cons in Hr.
  destruct (commands_open (apply_op s o)) eqn:Ho.
  - destruct (decide (o = Rearm true /\ s = Connecting)) as [[-> ->]|Hn].
    + by exists [], ops.
    + rewrite unarmed_step in Ho; [done|done|].
      intros [] -> ->; [by destruct Hn|done].
  - destruct (IH _ Ho Hr) as (pre & post & -> & Hp). by exists (o :: pre), post.
Qed.

Lemma latched_stays ops :
  BeginConnect ∉ ops -> Disconnect ∉ ops -> run Latched ops = Latched.
Proof.
  induction ops as [|o ops IH]; intros Hb Hd; [done|].
  rewrite run_cons. apply not_elem_of_cons in Hb as [? ?], Hd as [? ?].
  replace (apply_op Latched o) with Latched by (by destruct o). auto.
Qed.

(** What a state must be for a barrier without a newer [BeginConnect] to arm. *)
Lemma off_barrier_run s ops :
  s <> Connecting -> BeginConnect ∉ ops -> run s ops <> Connecting.
Proof.
  revert s. induction ops as [|o ops IH]; intros s Hs Hb; [done|].
  apply not_elem_of_cons in Hb as [? ?]. rewrite run_cons. apply IH; [|done].
  destruct o as [| | | | | |[]], s; done.
Qed.

Lemma barrier_run ops :
  BeginConnect ∉ ops ->
  run Connecting ops = Connecting <-> Forall (fun o => o = ResyncComplete) ops.
Proof.
  induction ops as [|o ops IH]; intros Hb; [by split|].
  apply not_elem_of_cons in Hb as [Hb1 Hb2]. rewrite run_cons, Forall_cons.
  destruct (decide (o = ResyncComplete)) as [->|Hne].
  - rewrite <- IH by done. naive_solver.
  - split; [|naive_solver]. intros Hr. exfalso.
    apply (off_barrier_run (apply_op Connecting o) ops); auto.
    destruct o as [| | | | | |[]]; done.
Qed.

Lemma rearm_true s a : fst (rearm a s) = true <-> s = Connecting /\ a = true.
Proof. destruct s, a; vm_compute; naive_solver. Qed.

(** (C6) The race token of the re-arm barrier: after [begin_connect], and with
    no newer [begin_connect], a final [rearm] arms the plant exactly when its
    poll task is alive and nothing but [resync_complete] ran in between.  Every
    latch, stream failure, resync, disconnect or competing re-arm by another
    coroutine leaves the plant un-armed. *)
Theorem rearm_barrier_race s ops a :
  BeginConnect ∉ ops ->
  fst (rearm a (run s (BeginConnect :: ops))) = true
  <-> a = true /\ Forall (fun o => o = ResyncComplete) ops.
Proof.
  intros Hb. rewrite run_cons. simpl. unfold begin_connect.
  rewrite rearm_true, <- barrier_run by done. naive_solver.
Qed.

Lemma rearm_barrier_race_witness :
  fst (rearm true (run Latched [BeginConnect; ResyncComplete])) = true
  /\ fst (rearm true (run Latched [BeginConnect; Latch])) = false.
Proof.
  split.
  - apply (rearm_barrier_race Latched [ResyncComplete] true); [evaluate|].
    split; [done|]. by constructor.
  - reflexivity.
Defined.

(** [rearm] is the only arming transition: whatever the interleaving, if a
    plant whose commands are blocked ends up accepting a command, then some
    [rearm] with a live poll task ran while the plant was at the barrier. *)
Theorem only_rearm_arms s ops :
  commands_open s = false -> commands_open (run s ops) = true ->
  exists pre post, ops = pre ++ Rearm true :: post /\ run s pre = Connecting.
Proof. apply unarmed_run. Qed.

Lemma only_rearm_arms_witness :
  exists pre post,
    [BeginConnect; Rearm true; ResyncStart] = pre ++ Rearm true :: post
    /\ run Latched pre = Connecting.
Proof.
  apply (only_rearm_arms Latched [BeginConnect; Rearm true; ResyncStart]); reflexivity.
Defined.

(** A latch survives every resync step, every re-arm and every further
    latch: until a new connect attempt or a disconnect, submit, modify and
    cancel are all refused and the reject reason names the latch. *)
Theorem latch_blocks_commands ops action :
  BeginConnect ∉ ops -> Disconnect ∉ ops ->
  let s := run Latched ops in
  allow_submit s = false /\ allow_modify s = false /\ allow_cancel s = false
  /\ reject_reason action s = "order plant latched; " +:+ action +:+ " blocked".
Proof. intros Hb Hd s. subst s. by rewrite latched_stays. Qed.

Lemma latch_blocks_commands_witness :
  allow_cancel (run Latched [ResyncStart; ResyncComplete; Rearm true]) = false.
Proof.
  apply (latch_blocks_commands [ResyncStart; ResyncComplete; Rearm true] "cancel");
    evaluate.
Defined.

(** The wire names are a bijection with the states: [parse] inverts
    [as_str] and accepts nothing else. *)
Theorem plant_state_roundtrip name s : parse name = Some s <-> as_str s = name.
Proof.
  unfold parse. split.
  - intros H%List.find_some. by destruct H as [_ H%bool_decide_eq_true].
  - intros <-. by destruct s.
Qed.
