(* ===== verification/Lru.v ===== *)
(** * The bounded recency map behind fill dedup and the untracked-status book

    [Lru<V>] of [crates/rithmic-exec/src/lru.rs], bound to Python as
    [SeenKeyCache], and the two stores of [_orders.py] built on it.  The Rust
    structure keeps a hash map of values with ticks and an ordered map from
    tick to key; [by_recency] is modelled as the ordered map's ascending
    association list.  The section [Spec] is the contract (a list of entries,
    oldest first); the refinement theorem says the structure is
    indistinguishable from it.  The [u64] clock is unbounded here: one tick per
    operation, it would take 2^64 operations to wrap. *)

From Stdlib Require Import Ascii String.
From stdpp Require Import base gmap strings list sorting.
From Stdlib Require Import ZArith Lia.
From S2P Require Import Prelude PyVal.
Open Scope string_scope.
Open Scope list_scope.
Open Scope nat_scope.

(** ** The Rust structure *)

Record Lru (V : Type) := MkLru {
  entries : gmap string (V * nat);
  by_recency : list (nat * string);
  clock : nat;
  max_size : nat
}.
Arguments MkLru {V} _ _ _ _.
Arguments entries {V} _.
Arguments by_recency {V} _.
Arguments clock {V} _.
Arguments max_size {V} _.

(** [BTreeMap::insert] and [BTreeMap::remove] on the ascending list. *)
Fixpoint bt_insert (t : nat) (k : string) (l : list (nat * string)) : list (nat * string) :=
  match l with
  | [] => [(t, k)]
  | (t', k') :: l' =>
      if decide (t < t') then (t, k) :: l
      else if decide (t = t') then (t, k) :: l'
      else (t', k') :: bt_insert t k l'
  end.

Definition bt_remove (t : nat) (l : list (nat * string)) : list (nat * string) :=
  filter (fun p => p.1 <> t) l.

Section Ops.
Context {V : Type}.

Definition new (max_size : nat) : Lru V := MkLru ∅ [] 0 max_size.

Definition touch (key : string) (c : Lru V) : Lru V :=
  let clk := S (clock c) in
  match entries c !! key with
  | Some (v, tick) =>
      MkLru (<[key := (v, clk)]> (entries c))
            (bt_insert clk key (bt_remove tick (by_recency c)))
            clk (max_size c)
  | None => MkLru (entries c) (by_recency c) clk (max_size c)
  end.

Definition has (key : string) (c : Lru V) : bool * Lru V :=
  let hit := bool_decide (is_Some (entries c !! key)) in
  (hit, if hit then touch key c else c).

Definition lru_get (key : string) (c : Lru V) : option V * Lru V :=
  match entries c !! key with
  | None => (None, c)
  | Some _ =>
      let c' := touch key c in
      (fst <$> entries c' !! key, c')
  end.

(** The eviction loop; [fuel] is the number of recency entries, one of which
    each round removes. *)
Fixpoint evict (fuel : nat) (c : Lru V) : Lru V :=
  match fuel with
  | O => c
  | S fuel' =>
      if decide (max_size c < size (entries c)) then
        match by_recency c with
        | [] => c
        | (_, oldest) :: rest =>
            evict fuel' (MkLru (delete oldest (entries c)) rest (clock c) (max_size c))
        end
      else c
  end.

Definition insert (key : string) (value : V) (c : Lru V) : Lru V :=
  let clk := S (clock c) in
  let br :=
    match entries c !! key with
    | Some (_, old_tick) => bt_remove old_tick (by_recency c)
    | None => by_recency c
    end in
  let c' := MkLru (<[key := (value, clk)]> (entries c)) (bt_insert clk key br)
                  clk (max_size c) in
  evict (length (by_recency c')) c'.

Definition clear (c : Lru V) : Lru V := MkLru ∅ [] (clock c) (max_size c).

Definition len (c : Lru V) : nat := size (entries c).

End Ops.

(** ** The contract: entries oldest first, each key once *)

Module Spec.
Section Spec.
Context {V : Type}.
Implicit Type l : list (string * V).

Definition value_of (k : string) (l : list (string * V)) : option V :=
  snd <$> List.find (fun p => bool_decide (p.1 = k)) l.

Definition drop_key (k : string) (l : list (string * V)) : list (string * V) :=
  filter (fun p => p.1 <> k) l.

Definition refresh (k : string) (l : list (string * V)) : list (string * V) :=
  match value_of k l with
  | Some v => drop_key k l ++ [(k, v)]
  | None => l
  end.

Definition spec_has (k : string) (l : list (string * V)) : bool * list (string * V) :=
  (bool_decide (is_Some (value_of k l)), refresh k l).

Definition spec_get (k : string) (l : list (string * V)) : option V * list (string * V) :=
  (value_of k l, refresh k l).

(** Keep the newest [n]. *)
Definition keep (n : nat) (l : list (string * V)) : list (string * V) :=
  drop (length l - n) l.

Definition spec_insert (n : nat) (k : string) (v : V) (l : list (string * V)) :=
  keep n (drop_key k l ++ [(k, v)]).

End Spec.
End Spec.
Import Spec.

(** ** Client programs *)

Inductive lru_op (V : Type) :=
  | OpHas (k : string) | OpGet (k : string) | OpInsert (k : string) (v : V)
  | OpClear | OpLen.
Arguments OpHas {V} _.
Arguments OpGet {V} _.
Arguments OpInsert {V} _ _.
Arguments OpClear {V}.
Arguments OpLen {V}.

Inductive lru_obs (V : Type) := ObsBool (b : bool) | ObsVal (v : option V) | ObsUnit | ObsLen (n : nat).
Arguments ObsBool {V} _.
Arguments ObsVal {V} _.
Arguments ObsUnit {V}.
Arguments ObsLen {V} _.

Definition step_lru {V} (o : lru_op V) (c : Lru V) : lru_obs V * Lru V :=
  match o with
  | OpHas k => let '(b, c') := has k c in (ObsBool b, c')
  | OpGet k => let '(v, c') := lru_get k c in (ObsVal v, c')
  | OpInsert k v => (ObsUnit, insert k v c)
  | OpClear => (ObsUnit, clear c)
  | OpLen => (ObsLen (len c), c)
  end.

Definition step_spec {V} (n : nat) (o : lru_op V) (l : list (string * V)) :
    lru_obs V * list (string * V) :=
  match o with
  | OpHas k => let '(b, l') := spec_has k l in (ObsBool b, l')
  | OpGet k => let '(v, l') := spec_get k l in (ObsVal v, l')
  | OpInsert k v => (ObsUnit, spec_insert n k v l)
  | OpClear => (ObsUnit, [])
  | OpLen => (ObsLen (length l), l)
  end.

Fixpoint run_with {S O Obs} (step : O -> S -> Obs * S) (ops : list O) (s : S) : list Obs * S :=
  match ops with
  | [] => ([], s)
  | o :: ops' =>
      let '(b, s') := step o s in
      let '(bs, s'') := run_with step ops' s' in (b :: bs, s'')
  end.

(** ** The two stores of [_orders.py] *)

(** [FillDedupStore]: the stored value is Python's [None]. *)
Definition FillDedupStore := Lru unit.
Definition fds_new (max_size : nat) : FillDedupStore := new max_size.
Definition fds_has_seen (key : string) (s : FillDedupStore) : bool * FillDedupStore := has key s.
Definition fds_mark (key : string) (s : FillDedupStore) : FillDedupStore := insert key tt s.
Definition fds_clear (s : FillDedupStore) : FillDedupStore := clear s.
Definition fds_len (s : FillDedupStore) : nat := len s.

(** [UntrackedStatusBook]: [get] returns the stored snapshot or [None]. *)
Definition UntrackedStatusBook (V : Type) := Lru V.
Definition usb_new {V} (max_size : nat) : UntrackedStatusBook V := new max_size.
Definition usb_get {V} (key : string) (s : UntrackedStatusBook V) :
    option V * UntrackedStatusBook V := lru_get key s.
Definition usb_record {V} (key : string) (value : V) (s : UntrackedStatusBook V) :
    UntrackedStatusBook V := insert key value s.
Definition usb_clear {V} (s : UntrackedStatusBook V) : UntrackedStatusBook V := clear s.
Definition usb_len {V} (s : UntrackedStatusBook V) : nat := len s.

(** ** Refinement proof

    A ghost list of [(tick, (key, value))], oldest first, determines the
    structure. *)

Section Refinement.
Context {V : Type}.
Implicit Types (g : list (nat * (string * V))) (l : list (string * V)).

Definition ent (p : nat * (string * V)) : string * (V * nat) := (p.2.1, (p.2.2, p.1)).
Definition rec_of (p : nat * (string * V)) : nat * string := (p.1, p.2.1).

Definition conc g (clk n : nat) : Lru V :=
  MkLru (list_to_map (ent <$> g)) (rec_of <$> g) clk n.

Record gwf g (clk : nat) : Prop := {
  gwf_keys : NoDup ((fun p => p.2.1) <$> g);
  gwf_sorted : StronglySorted lt g.*1;
  gwf_bound : Forall (fun t => t <= clk) g.*1
}.

Definition remk (k : string) (g : list (nat * (string * V))) : list (nat * (string * V)) :=
  filter (fun p => p.2.1 <> k) g.

Lemma ent_keys g : (ent <$> g).*1 = (fun p => p.2.1) <$> g.
Proof. by rewrite <- list_fmap_compose. Qed.

Lemma conc_lookup g clk n k v t :
  gwf g clk -> entries (conc g clk n) !! k = Some (v, t) <-> (t, (k, v)) ∈ g.
Proof.
  intros [Hk _ _]. simpl. rewrite <- elem_of_list_to_map by (by rewrite ent_keys).
  rewrite list_elem_of_fmap. split.
  - intros ([t' [k' v']] & Heq & Hin). by inversion Heq; subst.
  - intros Hin. by exists (t, (k, v)).
Qed.

Lemma conc_lookup_None g clk n k :
  entries (conc g clk n) !! k = None <-> k ∉ (fun p => p.2.1) <$> g.
Proof. simpl. by rewrite <- not_elem_of_list_to_map, ent_keys. Qed.

Lemma bt_insert_last t k (br : list (nat * string)) :
  Forall (fun t' => t' < t) br.*1 -> bt_insert t k br = br ++ [(t, k)].
Proof.
  induction br as [|[t' k'] br IH]; simpl; [done|].
  rewrite Forall_cons. intros [Hlt H]. rewrite IH by done.
  rewrite !decide_False by lia. done.
Qed.

Lemma remk_none g k : k ∉ (fun p => p.2.1) <$> g -> remk k g = g.
Proof.
  unfold remk. induction g as [|[t [k' v]] g IH]; simpl; [done|].
  rewrite not_elem_of_cons. intros [Hne Hn]. rewrite filter_cons_True by (by simpl).
  f_equal. auto.
Qed.

Lemma remk_subset g k (P : nat -> Prop) : Forall P g.*1 -> Forall P (remk k g).*1.
Proof.
  unfold remk. induction g as [|p g IH]; simpl; [done|].
  rewrite Forall_cons. intros [Hp Hg]. rewrite filter_cons. case_decide; simpl; auto.
Qed.

Lemma remk_sorted g k : StronglySorted lt g.*1 -> StronglySorted lt (remk k g).*1.
Proof.
  unfold remk. induction g as [|p g IH]; simpl; [done|]. intros H; inversion H; subst.
  rewrite filter_cons. case_decide; simpl; [|auto]. constructor; auto. by apply remk_subset.
Qed.

Lemma remk_keys g k p : p ∈ (fun p => p.2.1) <$> remk k g <-> p <> k /\ p ∈ (fun p => p.2.1) <$> g.
Proof.
  unfold remk. rewrite !list_elem_of_fmap. split.
  - intros (q & -> & Hq%list_elem_of_filter). naive_solver.
  - intros (Hne & q & -> & Hq). exists q. by rewrite list_elem_of_filter.
Qed.

Lemma remk_nodup g k : NoDup ((fun p => p.2.1) <$> g) -> NoDup ((fun p => p.2.1) <$> remk k g).
Proof.
  induction g as [|p g IH]; [done|]. unfold remk. rewrite filter_cons.
  rewrite fmap_cons, NoDup_cons. intros [Hn Hd].
  case_decide; [|by apply IH]. rewrite fmap_cons, NoDup_cons. split; [|by apply IH].
  intros Hin. apply Hn. by apply (remk_keys g k).
Qed.

Lemma remk_entries g k :
  (list_to_map (ent <$> remk k g) : gmap string (V * nat)) = delete k (list_to_map (ent <$> g)).
Proof.
  unfold remk. induction g as [|[t [k' v]] g IH]; csimpl; [by rewrite delete_empty|].
  rewrite filter_cons. case_decide as Hk; csimpl.
  - by rewrite IH, delete_insert_ne.
  - assert (k' = k) as -> by (by destruct (decide (k' = k))).
    by rewrite IH, delete_insert_eq.
Qed.

Lemma sorted_head_lt (t : nat) ts : StronglySorted lt (t :: ts) -> Forall (fun t' => t <> t') ts.
Proof. intros H; inversion H; subst. eapply Forall_impl; [done|]. intros; lia. Qed.

Lemma bt_remove_remk g clk t k v :
  gwf g clk -> (t, (k, v)) ∈ g -> bt_remove t (rec_of <$> g) = rec_of <$> remk k g.
Proof.
  intros [Hk Hs _]. unfold bt_remove, remk.
  induction g as [|[t' [k' v']] g IH]; [by intros ?%not_elem_of_nil|].
  simpl in *. apply NoDup_cons in Hk as [Hn Hd].
  rewrite elem_of_cons. intros [[= <- <- <-]|Hin].
  - rewrite !filter_cons_False by (simpl; naive_solver).
    fold (remk k g). rewrite remk_none by done.
    apply sorted_head_lt in Hs. clear -Hs.
    induction g as [|p g IH]; [done|]. simpl in *. apply Forall_cons in Hs as [Hp Hs].
    rewrite filter_cons_True by (simpl; naive_solver). f_equal. auto.
  - assert (k' <> k) as Hkk.
    { intros ->. apply Hn. apply list_elem_of_fmap. by exists (t, (k, v)). }
    assert (t' <> t) as Htt.
    { apply sorted_head_lt in Hs. rewrite Forall_forall in Hs. apply Hs.
      apply list_elem_of_fmap. by exists (t, (k, v)). }
    rewrite !filter_cons_True by done. simpl. f_equal.
    apply IH; auto. by inversion Hs.
Qed.

Lemma gwf_remk_snoc g clk k v :
  gwf g clk -> gwf (remk k g ++ [(S clk, (k, v))]) (S clk).
Proof.
  intros [Hk Hs Hb]. split.
  - rewrite fmap_app. apply NoDup_app. split; [by apply remk_nodup|]. split.
    + intros p Hp%remk_keys. simpl. rewrite list_elem_of_singleton. naive_solver.
    + apply NoDup_singleton.
  - rewrite fmap_app. simpl. apply (remk_sorted _ k) in Hs. apply (remk_subset _ k) in Hb.
    revert Hs Hb. generalize (remk k g).*1. induction l as [|t ts IH]; simpl.
    { intros. constructor; constructor. }
    intros Hst Hf. inversion Hst; subst. apply Forall_cons in Hf as [? ?].
    constructor; [auto|]. apply Forall_app. split; [done|].
    apply Forall_cons. split; [lia|constructor].
  - rewrite fmap_app, Forall_app. split; [|simpl; by repeat constructor].
    eapply Forall_impl; [by apply remk_subset|]. simpl. intros; lia.
Qed.

Lemma conc_refresh g clk n k v t :
  gwf g clk -> (t, (k, v)) ∈ g -> forall v',
  MkLru (<[k := (v', S clk)]> (entries (conc g clk n)))
        (bt_insert (S clk) k (bt_remove t (by_recency (conc g clk n)))) (S clk) n
  = conc (remk k g ++ [(S clk, (k, v'))]) (S clk) n.
Proof.
  intros Hg Hin v'. unfold conc. simpl. f_equal.
  - rewrite fmap_app. csimpl.
    change (ent (S clk, (k, v'))) with (k, (v', S clk)). rewrite list_to_map_snoc.
    + by rewrite remk_entries, insert_delete_eq.
    + rewrite ent_keys. intros [? _]%remk_keys. done.
  - rewrite (bt_remove_remk g clk t k v) by done.
    rewrite bt_insert_last, fmap_app; [done|].
    rewrite <- list_fmap_compose. destruct Hg as [_ _ Hb].
    eapply Forall_impl; [by apply (remk_subset g k)|]. simpl; intros; lia.
Qed.

Lemma conc_add g clk n k v' :
  gwf g clk -> k ∉ (fun p => p.2.1) <$> g ->
  MkLru (<[k := (v', S clk)]> (entries (conc g clk n)))
        (bt_insert (S clk) k (by_recency (conc g clk n))) (S clk) n
  = conc (remk k g ++ [(S clk, (k, v'))]) (S clk) n.
Proof.
  intros Hg Hn. rewrite remk_none by done. unfold conc. simpl. f_equal.
  - rewrite fmap_app. csimpl.
    change (ent (S clk, (k, v'))) with (k, (v', S clk)). rewrite list_to_map_snoc; [done|]. by rewrite ent_keys.
  - rewrite bt_insert_last, fmap_app; [done|].
    rewrite <- list_fmap_compose. destruct Hg as [_ _ Hb].
    eapply Forall_impl; [done|]. simpl; intros; lia.
Qed.

Lemma drop_key_remk g k : drop_key k g.*2 = (remk k g).*2.
Proof.
  unfold drop_key, remk. induction g as [|p g IH]; csimpl; [done|].
  rewrite !filter_cons. repeat case_decide; csimpl; by rewrite IH.
Qed.

Lemma value_of_conc g clk n k :
  gwf g clk -> value_of k g.*2 = fst <$> entries (conc g clk n) !! k.
Proof.
  intros [Hk _ _]. unfold value_of. simpl.
  induction g as [|[t [k' v]] g IH]; csimpl; [by rewrite lookup_empty|].
  apply NoDup_cons in Hk as [_ Hd]. destruct (decide (k' = k)) as [->|Hne].
  - by rewrite bool_decide_eq_true_2, lookup_insert_eq.
  - rewrite bool_decide_eq_false_2, lookup_insert_ne by done. auto.
Qed.

Lemma refresh_conc g clk n k v t :
  gwf g clk -> entries (conc g clk n) !! k = Some (v, t) ->
  refresh k g.*2 = (remk k g ++ [(S clk, (k, v))]).*2.
Proof.
  intros Hg He. unfold refresh. rewrite (value_of_conc g clk n k Hg), He. simpl.
  by rewrite fmap_app, drop_key_remk.
Qed.

Lemma evict_conc fuel : forall g clk n,
  gwf g clk -> length g <= fuel ->
  evict fuel (conc g clk n) = conc (drop (length g - n) g) clk n
  /\ gwf (drop (length g - n) g) clk.
Proof.
  induction fuel as [|fuel IH]; intros g clk n Hg Hl.
  { destruct g; [|simpl in Hl; lia]. by rewrite drop_nil. }
  simpl. assert (Hsz : size (list_to_map (ent <$> g) : gmap string (V * nat)) = length g).
  { rewrite map_size_list_to_map; [by rewrite length_fmap|].
    rewrite ent_keys. by destruct Hg. }
  rewrite Hsz. case_decide as Hn; [|by replace (length g - n) with 0 by lia].
  destruct g as [|[t [k v]] g]; csimpl; [simpl in Hn; lia|].
  assert (Hg' : gwf g clk).
  { destruct Hg as [Hk Hs Hb]. csimpl in *. apply NoDup_cons in Hk as [_ ?]. apply Forall_cons in Hb as [_ ?].
    inversion Hs; subst. by split. }
  assert (Hk : k ∉ (fun p => p.2.1) <$> g).
  { destruct Hg as [Hk _ _]. csimpl in *. by apply NoDup_cons in Hk as [? _]. }
  replace (MkLru _ _ _ _) with (conc g clk n).
  2:{ unfold conc. f_equal. rewrite delete_insert_id; [done|].
      by apply (conc_lookup_None g clk n). }
  simpl in Hn, Hl. destruct (IH g clk n Hg' ltac:(lia)) as [-> ?].
  by replace (S (length g) - n) with (S (length g - n)) by lia.
Qed.

(** The simulation relation. *)
Definition refines (n : nat) (c : Lru V) l : Prop :=
  exists g clk, gwf g clk /\ c = conc g clk n /\ l = g.*2.

Lemma refines_new n : refines n (new n) [].
Proof. exists [], 0. split; [|done]. split; constructor. Qed.

Lemma touch_conc g clk n k v t :
  gwf g clk -> entries (conc g clk n) !! k = Some (v, t) ->
  touch k (conc g clk n) = conc (remk k g ++ [(S clk, (k, v))]) (S clk) n.
Proof.
  intros Hg He. unfold touch. rewrite He. apply (conc_refresh g clk n k v t); [done|].
  by apply (conc_lookup g clk n).
Qed.

Lemma refines_step n o c l :
  refines n c l ->
  (step_lru o c).1 = (step_spec n o l).1 /\ refines n (step_lru o c).2 (step_spec n o l).2.
Proof.
  intros (g & clk & Hg & -> & ->). destruct o as [k|k|k v| |]; cbn [step_lru step_spec].
  - (* has *)
    unfold has, spec_has. rewrite (value_of_conc g clk n k Hg).
    destruct (entries (conc g clk n) !! k) as [[v t]|] eqn:He; cbn -[conc].
    + rewrite (touch_conc g clk n k v t), (refresh_conc g clk n k v t) by done.
      split; [done|]. eexists _, _. split; [by apply gwf_remk_snoc|done].
    + split; [done|]. unfold refresh. rewrite (value_of_conc g clk n k Hg), He. simpl.
      by exists g, clk.
  - (* get *)
    unfold lru_get, spec_get. rewrite (value_of_conc g clk n k Hg).
    destruct (entries (conc g clk n) !! k) as [[v t]|] eqn:He; cbn [fst snd].
    + rewrite (touch_conc g clk n k v t), (refresh_conc g clk n k v t) by done. split.
      * pose proof (gwf_remk_snoc g clk k v Hg) as Hg'.
        assert (entries (conc (remk k g ++ [(S clk, (k, v))]) (S clk) n) !! k = Some (v, S clk)) as ->;
          [|done].
        apply conc_lookup; [done|]. apply elem_of_app. right. by apply list_elem_of_singleton.
      * eexists _, _. split; [by apply gwf_remk_snoc|done].
    + split; [done|]. unfold refresh. rewrite (value_of_conc g clk n k Hg), He. simpl.
      by exists g, clk.
  - (* insert *)
    split; [done|]. unfold insert.
    set (c' := MkLru _ _ _ _).
    assert (Hc : c' = conc (remk k g ++ [(S clk, (k, v))]) (S clk) n).
    { subst c'. destruct (entries (conc g clk n) !! k) as [[v0 t]|] eqn:He.
      - apply (conc_refresh g clk n k v0 t); [done|]. by apply (conc_lookup g clk n).
      - apply conc_add; [done|]. by apply (conc_lookup_None g clk n). }
    rewrite Hc. pose proof (gwf_remk_snoc g clk k v Hg) as Hg'.
    destruct (evict_conc (length (by_recency (conc (remk k g ++ [(S clk, (k, v))]) (S clk) n)))
                _ _ n Hg') as [-> Hg''].
    { simpl. by rewrite length_fmap. }
    eexists _, _. split; [done|]. split; [done|].
    unfold spec_insert, keep. rewrite fmap_drop, fmap_app, drop_key_remk.
    rewrite !length_app, length_fmap. done.
  - (* clear *)
    split; [done|]. exists [], clk. split; [|done]. split; constructor.
  - (* len *)
    split; [|by exists g, clk]. unfold len. cbn [fst]. f_equal. simpl.
    rewrite map_size_list_to_map, !length_fmap; [done|].
    rewrite ent_keys. by destruct Hg.
Qed.

Lemma refines_run n ops : forall c l,
  refines n c l ->
  (run_with step_lru ops c).1 = (run_with (step_spec n) ops l).1
  /\ refines n (run_with step_lru ops c).2 (run_with (step_spec n) ops l).2.
Proof.
  induction ops as [|o ops IH]; intros c l Hr; [done|]. simpl.
  destruct (refines_step n o c l Hr) as [Ho Hr'].
  destruct (step_lru o c) as [b c'], (step_spec n o l) as [b' l']. simpl in *.
  destruct (IH c' l' Hr') as [Hos Hr''].
  destruct (run_with step_lru ops c'), (run_with (step_spec n) ops l'). simpl in *.
  by subst.
Qed.

End Refinement.

(** (C20) The Rust recency map (hash map plus ordered tick map plus eviction
    loop) is observationally the abstract recency list: every program of
    lookups, refreshing reads, inserts, clears and length queries gets the same
    answers from both, for every bound and every value type. *)
Theorem lru_refines_spec {V} (n : nat) (ops : list (lru_op V)) :
  (run_with step_lru ops (new n)).1 = (run_with (step_spec n) ops []).1.
Proof. apply refines_run, refines_new. Qed.

(** *** Retention *)

Section Retention.
Context {V : Type}.
Implicit Types (l : list (string * V)).

(** [k] is held with at most [m] more recent entries. *)
Definition held (k : string) (m : nat) l : Prop :=
  exists l1 v l2, l = l1 ++ (k, v) :: l2 /\ length l2 <= m /\ k ∉ l2.*1.

Definition names_other (k : string) (o : lru_op V) : bool :=
  match o with
  | OpHas k' | OpGet k' | OpInsert k' _ => bool_decide (k' <> k)
  | _ => false
  end.

Definition others (k : string) (ops : list (lru_op V)) : nat :=
  length (List.filter (names_other k) ops).

Lemma drop_key_length k l : length (drop_key k l) <= length l.
Proof. apply length_filter. Qed.

Lemma drop_key_app k l1 l2 : drop_key k (l1 ++ l2) = drop_key k l1 ++ drop_key k l2.
Proof. apply filter_app. Qed.

Lemma drop_key_subset k l p : p ∈ (drop_key k l).*1 -> p ∈ l.*1.
Proof.
  rewrite !list_elem_of_fmap. intros (q & -> & Hq%list_elem_of_filter). naive_solver.
Qed.

Lemma held_snoc_other k k' v' m l :
  k' <> k -> held k m l -> held k (S m) (drop_key k' l ++ [(k', v')]).
Proof.
  intros Hne (l1 & v & l2 & -> & Hm & Hn).
  exists (drop_key k' l1), v, (drop_key k' l2 ++ [(k', v')]). split_and!.
  - rewrite drop_key_app. unfold drop_key at 2. rewrite filter_cons_True by done.
    by rewrite <- app_assoc.
  - rewrite length_app. pose proof (drop_key_length k' l2). simpl. lia.
  - rewrite fmap_app, not_elem_of_app. split; [by intros ?%drop_key_subset|].
    csimpl. rewrite list_elem_of_singleton. naive_solver.
Qed.

Lemma held_snoc_self k v m l : held k m (l ++ [(k, v)]).
Proof. exists l, v, []. split_and!; [done|simpl; lia|by apply not_elem_of_nil]. Qed.

Lemma held_keep k m n l : m < n -> held k m l -> held k m (keep n l).
Proof.
  intros Hlt (l1 & v & l2 & -> & Hm & Hn). unfold keep.
  rewrite length_app. simpl. exists (drop (length l1 + S (length l2) - n) l1), v, l2.
  split_and!; [|done|done]. apply drop_app_le. lia.
Qed.

Lemma held_mono k m m' l : m <= m' -> held k m l -> held k m' l.
Proof. intros Hle (l1 & v & l2 & -> & Hm & Hn). exists l1, v, l2. split_and!; [done|lia|done]. Qed.

Lemma held_value k m l : held k m l -> is_Some (value_of k l).
Proof.
  intros (l1 & v & l2 & -> & _ & _). unfold value_of.
  apply fmap_is_Some. induction l1 as [|[k' v'] l1 IH]; csimpl.
  - rewrite bool_decide_eq_true_2 by done. eauto.
  - case_bool_decide; eauto.
Qed.

Lemma held_refresh k k' m l :
  held k m l -> held k (if bool_decide (k' <> k) then S m else m) (refresh k' l).
Proof.
  intros Hh. unfold refresh. destruct (value_of k' l) as [v'|] eqn:E.
  - case_bool_decide as Hk; [by apply held_snoc_other|].
    assert (k' = k) as -> by (by destruct (decide (k' = k))). apply held_snoc_self.
  - case_bool_decide; [eapply held_mono; [|done]; lia|done].
Qed.

Lemma held_step k m n o l :
  o <> OpClear -> m + (if names_other k o then 1 else 0) < n -> held k m l ->
  held k (m + if names_other k o then 1 else 0) (step_spec n o l).2.
Proof.
  intros Ho Hlt Hh. destruct o as [k'|k'|k' v'| |]; simpl in *; [| | |done|].
  - pose proof (held_refresh k k' m l Hh) as H. case_bool_decide; [by rewrite Nat.add_1_r|by rewrite Nat.add_0_r].
  - pose proof (held_refresh k k' m l Hh) as H. case_bool_decide; [by rewrite Nat.add_1_r|by rewrite Nat.add_0_r].
  - unfold spec_insert. apply held_keep; [done|]. case_bool_decide as Hk.
    + rewrite Nat.add_1_r. by apply held_snoc_other.
    + assert (k' = k) as -> by (by destruct (decide (k' = k))). apply held_snoc_self.
  - by rewrite Nat.add_0_r.
Qed.

Lemma held_run k n ops : forall m l,
  OpClear ∉ ops -> m + others k ops < n -> held k m l ->
  held k (m + others k ops) (run_with (step_spec n) ops l).2.
Proof.
  unfold others. induction ops as [|o ops IH]; intros m l Hc Hlt Hh; simpl.
  { by rewrite Nat.add_0_r. }
  apply not_elem_of_cons in Hc as [Hc Hcs]. simpl in Hlt.
  pose proof (held_step k m n o l) as Hs.
  destruct (step_spec n o l) as [b l']. simpl in Hs.
  specialize (IH (m + if names_other k o then 1 else 0) l').
  destruct (run_with (step_spec n) ops l') as [bs l'']. simpl in *.
  destruct (names_other k o); simpl in *.
  - replace (m + S (length (List.filter (names_other k) ops)))
      with (m + 1 + length (List.filter (names_other k) ops)) by lia.
    apply IH; [done|lia|]. apply Hs; [done|lia|done].
  - rewrite Nat.add_0_r in *. apply IH; [done|lia|]. apply Hs; [done|lia|done].
Qed.

Lemma run_with_app {S O Obs} (step : O -> S -> Obs * S) ops1 ops2 s :
  (run_with step (ops1 ++ ops2) s).2 = (run_with step ops2 (run_with step ops1 s).2).2.
Proof.
  revert s. induction ops1 as [|o ops1 IH]; intros s; simpl; [done|].
  destruct (step o s) as [b s']. specialize (IH s').
  destruct (run_with step (ops1 ++ ops2) s'), (run_with step ops1 s'). done.
Qed.

Lemma step_spec_bounded n o l : length l <= n -> length (step_spec n o l).2 <= n.
Proof.
  intros Hl. destruct o as [k|k|k v| |]; simpl; [| | |lia|done].
  3: { unfold spec_insert, keep. rewrite length_drop. lia. }
  all: unfold refresh; destruct (value_of k l) as [v|] eqn:E; [|done];
    unfold value_of in E; apply fmap_Some in E as ([k' v'] & E%List.find_some & ->);
    destruct E as [Hin%list_elem_of_In Hk%bool_decide_eq_true]; simpl in Hk; subst k';
    apply list_elem_of_split in Hin as (l1 & l2 & ->);
    rewrite length_app, drop_key_app; unfold drop_key; rewrite filter_cons_False by (simpl; naive_solver);
    rewrite length_app in *; simpl in *;
    pose proof (drop_key_length k l1); pose proof (drop_key_length k l2);
    unfold drop_key in *; lia.
Qed.

Lemma run_spec_bounded n ops : forall l,
  length l <= n -> length (run_with (step_spec n) ops l).2 <= n.
Proof.
  induction ops as [|o ops IH]; intros l Hl; simpl; [done|].
  pose proof (step_spec_bounded n o l Hl). destruct (step_spec n o l) as [b l'].
  specialize (IH l'). destruct (run_with (step_spec n) ops l'). simpl in *. auto.
Qed.

End Retention.

(** *** What the clients of the fill store rely on

    [remembers n k m s]: the store [s], of bound [n], holds [k] with at most
    [m] more recent keys. *)

Definition store_ok (n : nat) (s : FillDedupStore) : Prop := exists l, refines n s l.
Definition remembers (n : nat) (k : string) (m : nat) (s : FillDedupStore) : Prop :=
  exists l, refines n s l /\ held k m l.

Lemma fds_new_ok n : store_ok n (fds_new n).
Proof. exists []. apply refines_new. Qed.

Lemma fds_has_ok n k s : store_ok n s -> store_ok n (fds_has_seen k s).2.
Proof. intros [l Hr]. eexists. apply (refines_step n (OpHas k) s l Hr). Qed.

Lemma fds_mark_ok n k s : store_ok n s -> store_ok n (fds_mark k s).
Proof. intros [l Hr]. eexists. apply (refines_step n (OpInsert k tt) s l Hr). Qed.

Lemma remembers_ok n k m s : remembers n k m s -> store_ok n s.
Proof. intros (l & Hr & _). by exists l. Qed.

Lemma remembers_seen n k m s : remembers n k m s -> (fds_has_seen k s).1 = true.
Proof.
  intros (l & Hr & Hh). destruct (refines_step n (OpHas k) s l Hr) as [Ho _].
  unfold fds_has_seen. simpl in Ho |- *. injection Ho as Ho. etransitivity; [exact Ho|].
  by apply bool_decide_eq_true, (held_value k m).
Qed.

Lemma remembers_has n k k' m s :
  remembers n k m s -> remembers n k (S m) (fds_has_seen k' s).2.
Proof.
  intros (l & Hr & Hh). destruct (refines_step n (OpHas k') s l Hr) as [_ Hr'].
  eexists. split; [exact Hr'|]. simpl.
  pose proof (held_refresh k k' m l Hh) as H. case_bool_decide; [done|].
  eapply held_mono; [|exact H]. lia.
Qed.

Lemma fds_miss_same k s : (fds_has_seen k s).1 = false -> (fds_has_seen k s).2 = s.
Proof. unfold fds_has_seen, has. simpl. by intros ->. Qed.

Lemma remembers_mark n k k' m s :
  S m < n -> remembers n k m s -> remembers n k (S m) (fds_mark k' s).
Proof.
  intros Hlt (l & Hr & Hh). destruct (refines_step n (OpInsert k' tt) s l Hr) as [_ Hr'].
  eexists. split; [exact Hr'|]. simpl. unfold spec_insert. apply held_keep; [done|].
  destruct (decide (k' = k)) as [->|Hk]; [apply held_snoc_self|by apply held_snoc_other].
Qed.

Lemma remembers_marked n k s : 0 < n -> store_ok n s -> remembers n k 0 (fds_mark k s).
Proof.
  intros Hn [l Hr]. destruct (refines_step n (OpInsert k tt) s l Hr) as [_ Hr'].
  eexists. split; [exact Hr'|]. simpl. unfold spec_insert. apply held_keep; [done|].
  apply held_snoc_self.
Qed.

(** The fill dedup store never forgets a recent fill: once a key is marked
    it is still reported as seen after any further traffic that names fewer
    than [n] other keys ([n] is the bound the store was built with), whatever
    came before. *)
Theorem fill_key_retained (n : nat) (pre ops : list (lru_op unit)) (k : string) :
  OpClear ∉ ops -> others k ops < n ->
  let s0 := (run_with step_lru pre (fds_new n)).2 in
  let s1 := (run_with step_lru ops (fds_mark k s0)).2 in
  (fds_has_seen k s1).1 = true.
Proof.
  intros Hc Hlt s0 s1.
  destruct (refines_run n pre _ _ (refines_new n)) as [_ Hr].
  destruct (refines_step n (OpInsert k tt) _ _ Hr) as [_ Hr1].
  destruct (refines_run n ops _ _ Hr1) as [_ Hr2].
  destruct (refines_step n (OpHas k) _ _ Hr2) as [Hh _].
  unfold fds_has_seen. subst s1 s0. unfold fds_mark, fds_new.
  simpl in Hh |- *. injection Hh as Hh. etransitivity; [exact Hh|].
  apply bool_decide_eq_true, (held_value k (0 + others k ops)).
  apply held_run; [done|lia|]. unfold spec_insert.
  apply held_keep; [lia|]. apply held_snoc_self.
Qed.

Lemma fill_key_retained_witness :
  (fds_has_seen "F1" (run_with step_lru [OpInsert "F2" tt; OpHas "F0"]
     (fds_mark "F1" (run_with step_lru [OpInsert "F0" tt] (fds_new 3)).2)).2).1 = true.
Proof.
  apply (fill_key_retained 3 [OpInsert "F0" tt] [OpInsert "F2" tt; OpHas "F0"] "F1").
  - intros H. repeat (apply elem_of_cons in H as [H|H]; [discriminate|]).
    by apply not_elem_of_nil in H.
  - vm_compute. lia.
Defined.

(** The store is bounded: whatever the traffic, it never holds more than
    [n] keys. *)
Theorem fill_store_bounded (n : nat) (ops : list (lru_op unit)) :
  fds_len (run_with step_lru ops (fds_new n)).2 <= n.
Proof.
  destruct (refines_run n ops _ _ (refines_new n)) as [_ Hr].
  destruct (refines_step n OpLen _ _ Hr) as [Hl _]. injection Hl as Hl.
  unfold fds_len, fds_new in *. rewrite Hl. apply run_spec_bounded. simpl; lia.
Qed.
