(* ===== verification/Ident.v ===== *)
(** * Instrument identity, event time and product roots

    The rules of [crates/rithmic-exec/src/ident.rs] and the symbol rules of
    [exposure.rs], with their Python faces in [_convert.py].  Rust's [Result]
    is a [sum] with the source's error constructors; the Python wrapper turns
    every constructor into [ConvertError] (a [ValueError]).  Exception texts
    are carried only where some handler inspects them.  The two [lru_cache]
    decorators memoise pure functions and are not state of the model. *)

From Stdlib Require Import Ascii String.
From stdpp Require Import base gmap strings list.
From Stdlib Require Import ZArith Lia.
From S2P Require Import Prelude PyVal.
Import Text.
Open Scope string_scope.
Open Scope list_scope.
Open Scope Z_scope.

(** ** Instrument ids *)

Inductive IdentError :=
  | ForbiddenChar (label value : string)
  | EmptySymbol
  | MissingVenue (venue_suffix raw : string)
  | EmptyComponent (raw : string)
  | BadHyphenEncoding (raw : string).

Definition require_safe (value label : string) : string + IdentError :=
  if has_char "-" value || has_char "." value
  then inr (ForbiddenChar label value) else inl value.

Definition instrument_id (symbol : string) (exchange : option string) (venue : string)
  : string + IdentError :=
  match require_safe (trim symbol) "symbol" with
  | inr e => inr e
  | inl sym =>
      if negb (nonempty sym) then inr EmptySymbol
      else
        match exchange with
        | Some e =>
            if nonempty (trim e) then
              match require_safe (upper (trim e)) "exchange" with
              | inr err => inr err
              | inl exch => inl (sym +:+ "-" +:+ exch +:+ "." +:+ venue)
              end
            else inl (sym +:+ "." +:+ venue)
        | None => inl (sym +:+ "." +:+ venue)
        end
  end.

Definition split_instrument_id (id venue : string)
  : (string * option string) + IdentError :=
  let raw := trim id in
  let venue_suffix := "." +:+ venue in
  match strip_suffix venue_suffix raw with
  | None => inr (MissingVenue venue_suffix raw)
  | Some sym_exch =>
      if negb (nonempty sym_exch) then inr (EmptyComponent raw)
      else
        match split_once "-" sym_exch with
        | Some (sym, exch) =>
            if negb (nonempty sym) || negb (nonempty exch)
            then inr (BadHyphenEncoding raw)
            else if has_char "." sym then inr (ForbiddenChar "symbol" sym)
            else
              match require_safe (upper exch) "exchange" with
              | inr e => inr e
              | inl exch' => inl (sym, Some exch')
              end
        | None =>
            match require_safe sym_exch "symbol" with
            | inr e => inr e
            | inl sym => inl (sym, None)
            end
        end
  end.

(** *** [_convert.py] *)

Definition VENUE : string := "RITHMIC".

Definition convert_error : exn := Exn ExConvert None "".

Definition instrument_id_from_symbol (symbol : string) (exchange : option string)
  : res string :=
  match instrument_id symbol exchange VENUE with
  | inl id => Ok id
  | inr _ => Raise convert_error
  end.

Definition symbol_and_exchange_from_instrument_id (id : string)
  : res (string * option string) :=
  match split_instrument_id id VENUE with
  | inl p => Ok p
  | inr _ => Raise convert_error
  end.

(** ** Event time *)

Definition NANOS_PER_SEC : Z := 1000000000.
Definition nanos (ssboe usecs : Z) : Z := ssboe * NANOS_PER_SEC + usecs * 1000.

Definition event_ts_ns (ts ssboe usecs : option Z) : option Z :=
  match ts with
  | Some t => Some t
  | None => (fun s => nanos s (default 0 usecs)) <$> ssboe
  end.

(** [u64::try_from]. *)
Definition u64_try_from (z : Z) : option Z :=
  if (0 <=? z) && (z <? 2 ^ 64) then Some z else None.

Definition venue_ts_ns (ssboe usecs : option Z) : option Z :=
  match ssboe with
  | None => None
  | Some s =>
      let u := default 0 usecs in
      if (s <? 0) || negb ((0 <=? u) && (u <? 1000000)) then None
      else u64_try_from (nanos s u)
  end.

Definition exchange_ts_ns (source_ssboe source_usecs source_nsecs : option Z) : option Z :=
  match source_ssboe with
  | None => None
  | Some ssboe =>
      if ssboe <=? 0 then None
      else
        let base := ssboe * NANOS_PER_SEC in
        let usecs :=
          match source_usecs with
          | Some u => if (0 <=? u) && (u <? 1000000) then Some u else None
          | None => None
          end in
        let within :=
          match usecs, source_nsecs with
          | Some u, Some n =>
              if (0 <=? n) && (Z.quot n 1000 =? u) then n
              else if (0 <=? n) && (n <? 1000) then u * 1000 + n
              else u * 1000
          | Some u, None => u * 1000
          | None, Some n => if (0 <=? n) && (n <? 1000000000) then n else 0
          | None, None => 0
          end in
        u64_try_from (base + within)
  end.

(** *** [_convert.py] *)

(** [k not in d or d[k] is None] for some listed key. *)
Definition require_keys (d : pydict) (keys : list string) : res unit :=
  if existsb (fun k => is_none (dget d k)) keys then Raise convert_error else Ok tt.

Definition opt_int (v : pyval) : res (option Z) :=
  match v with VNone => Ok None | _ => z ← py_int v; Ok (Some z) end.

Definition ts_ns (d : pydict) : res (option Z) :=
  match dget d "ts_event_ns" with
  | VNone =>
      ssboe ← opt_int (dget d "ssboe");
      usecs ← int_or_zero (dget d "usecs");
      Ok (event_ts_ns None ssboe (Some usecs))
  | ts => t ← py_int ts; Ok (Some t)
  end.

(** [f"{float(value):.8f}".rstrip("0").rstrip(".")], with [".0"] restored. *)
Definition format_price_str (value : pyval) : res string :=
  f ← py_float value;
  let text := dropr (fun a => bool_decide (a = "."%char))
                (drop_trailing_zeros (fixed_f64 8 f)) in
  Ok (if has_char "." text then text else text +:+ ".0").

Definition rithmic_route_from_info (info : pydict) : res (string * string) :=
  let symbol := dget info "rithmic_symbol" in
  let exchange := dget info "rithmic_exchange" in
  if negb (truthy symbol) || negb (truthy exchange) then
    Raise (Exn ExValue None "missing rithmic_symbol/rithmic_exchange in info")
  else Ok (py_str symbol, py_str exchange).

(** ** Product roots *)

Definition MONTH_CODES : string := "FGHJKMNQUVXZ".

Definition norm (s : string) : string := upper (trim s).

Definition trailing_digits (s : string) : nat :=
  String.length s - String.length (dropr is_digit s).

Definition is_root_char (a : ascii) : bool := is_upper a || is_digit a.

Definition product_root (symbol : string) : string :=
  let sym := norm symbol in
  let digits := trailing_digits sym in
  let len := String.length sym in
  if ((1 <=? digits) && (digits <=? 2) && (digits + 2 <=? len))%nat then
    let letter_at := (len - digits - 1)%nat in
    let root := String.substring 0 letter_at sym in
    match String.get letter_at sym with
    | Some c => if has_char c MONTH_CODES && sall is_root_char root then root else sym
    | None => sym
    end
  else sym.

Definition is_listed_contract (symbol : string) : bool :=
  negb (bool_decide (product_root symbol = norm symbol)).

Definition matches_root (symbol root : string) : bool :=
  let want := norm root in
  nonempty want && bool_decide (product_root symbol = want).

(** ** Facts about ids *)

Lemma require_safe_inl v l s :
  require_safe v l = inl s <-> s = v /\ has_char "-" v = false /\ has_char "." v = false.
Proof.
  unfold require_safe. destruct (has_char "-" v), (has_char "." v); simpl; naive_solver.
Qed.

Lemma strip_suffix_app s p : strip_suffix p (s +:+ p) = Some s.
Proof.
  induction s as [|a s IH].
  - change ("" +:+ p) with p. destruct p; cbn [strip_suffix]; by rewrite bool_decide_eq_true_2.
  - change (String a s +:+ p) with (String a (s +:+ p)). cbn [strip_suffix].
    rewrite bool_decide_eq_false_2; [by rewrite IH|].
    intros H%(f_equal String.length). cbn in H. rewrite string_length_app in H. lia.
Qed.

Lemma split_once_app c s t :
  has_char c s = false -> split_once c (s +:+ String c t) = Some (s, t).
Proof.
  induction s as [|a s IH].
  - intros _. rewrite string_app_nil. cbn. by rewrite bool_decide_eq_true_2.
  - rewrite string_app_cons. cbn. rewrite orb_false_iff, bool_decide_eq_false. intros [Ha Hs].
    rewrite bool_decide_eq_false_2 by done. by rewrite (IH Hs).
Qed.

Lemma split_once_none c s : has_char c s = false -> split_once c s = None.
Proof.
  induction s as [|a s IH]; cbn; [done|].
  rewrite orb_false_iff, bool_decide_eq_false. intros [Ha Hs].
  rewrite bool_decide_eq_false_2 by done. by rewrite (IH Hs).
Qed.

Lemma up_ascii_idem a : up_ascii (up_ascii a) = up_ascii a.
Proof. destruct a as [[] [] [] [] [] [] [] []]; reflexivity. Qed.

Lemma upper_idem s : upper (upper s) = upper s.
Proof. unfold upper. induction s as [|a s IH]; cbn; [done|]. by rewrite up_ascii_idem, IH. Qed.

Lemma nonempty_upper s : nonempty (upper s) = nonempty s.
Proof. by destruct s. Qed.

Lemma dropr_snoc_keep p s t : nonempty t = true -> dropr p t = t -> dropr p (s +:+ t) = s +:+ t.
Proof.
  intros Hne Ht. induction s as [|a s IH]; [done|].
  change (String a s +:+ t) with (String a (s +:+ t)). cbn [dropr]. rewrite IH.
  destruct (s +:+ t) eqn:E; [|done]. destruct s, t; cbn in E; done.
Qed.

(** A trimmed non-empty text starts with a kept character. *)
Lemma trim_head p s :
  nonempty (strip_by p s) = true ->
  exists a t, strip_by p s = String a t /\ p a = false.
Proof.
  unfold strip_by. destruct (dropl_head p s) as [->|(a & t & -> & Ha)]; [done|].
  intros _. destruct (dropr_head p a t Ha) as [t' ->]. eauto.
Qed.

(** Trimming an id built from a trimmed symbol changes nothing. *)
Lemma trim_id s rest suffix :
  nonempty (trim s) = true -> nonempty suffix = true ->
  dropr rs_space suffix = suffix ->
  trim (trim s +:+ rest +:+ suffix) = trim s +:+ rest +:+ suffix.
Proof.
  intros Hne Hn Hs. destruct (trim_head rs_space s Hne) as (a & t & E & Ha).
  unfold trim in *. rewrite E.
  change (String a t +:+ rest +:+ suffix) with (String a (t +:+ rest +:+ suffix)).
  unfold strip_by. cbn [dropl]. rewrite Ha.
  change (String a (t +:+ rest +:+ suffix)) with (String a t +:+ (rest +:+ suffix)).
  rewrite <- string_app_assoc. by apply dropr_snoc_keep.
Qed.

(** What [split_instrument_id] is expected to give back. *)
Definition canonical_exchange (exchange : option string) : option string :=
  match exchange with
  | Some e => if nonempty (trim e) then Some (upper (trim e)) else None
  | None => None
  end.

Lemma nonempty_app s t : nonempty s = true -> nonempty (s +:+ t) = true.
Proof. by destruct s. Qed.

Lemma split_after_suffix body :
  nonempty body = true -> trim (body +:+ "." +:+ VENUE) = body +:+ "." +:+ VENUE ->
  split_instrument_id (body +:+ "." +:+ VENUE) VENUE =
  match split_once "-" body with
  | Some (sym, exch) =>
      if negb (nonempty sym) || negb (nonempty exch)
      then inr (BadHyphenEncoding (body +:+ "." +:+ VENUE))
      else if has_char "." sym then inr (ForbiddenChar "symbol" sym)
      else match require_safe (upper exch) "exchange" with
           | inr e => inr e
           | inl exch' => inl (sym, Some exch')
           end
  | None => match require_safe body "symbol" with
            | inr e => inr e
            | inl sym => inl (sym, None)
            end
  end.
Proof.
  intros Hn Ht. unfold split_instrument_id. rewrite Ht, strip_suffix_app, Hn. done.
Qed.

(** Building an id and splitting it again gives back the trimmed symbol
    and the trimmed, uppercased exchange, for every symbol and exchange the
    builder accepts; so distinct (symbol, exchange) routes never share an
    id. *)
Theorem instrument_id_roundtrip (symbol : string) (exchange : option string) (id : string) :
  instrument_id_from_symbol symbol exchange = Ok id ->
  symbol_and_exchange_from_instrument_id id = Ok (trim symbol, canonical_exchange exchange).
Proof.
  unfold instrument_id_from_symbol, symbol_and_exchange_from_instrument_id, instrument_id.
  destruct (require_safe (trim symbol) "symbol") as [sym|] eqn:Hs; [|done].
  apply require_safe_inl in Hs as (-> & Hh & Hd).
  destruct (nonempty (trim symbol)) eqn:Hne; simpl; [|done].
  assert (Hplain : split_instrument_id (trim symbol +:+ "." +:+ VENUE) VENUE
                   = inl (trim symbol, None)).
  { rewrite split_after_suffix; [|done|apply (trim_id _ "" ("." +:+ VENUE)); done].
    rewrite split_once_none by done. unfold require_safe. by rewrite Hh, Hd. }
  destruct exchange as [e|]; simpl; [|intros [= <-]; by rewrite Hplain].
  destruct (nonempty (trim e)) eqn:Hen; [|intros [= <-]; by rewrite Hplain].
  destruct (require_safe (upper (trim e)) "exchange") as [x|] eqn:Hx; [|done].
  apply require_safe_inl in Hx as (-> & Hxh & Hxd).
  intros [= <-].
  replace (trim symbol +:+ "-" +:+ upper (trim e) +:+ "." +:+ VENUE)
    with ((trim symbol +:+ String "-" (upper (trim e))) +:+ "." +:+ VENUE)
    by (by rewrite string_app_assoc).
  rewrite split_after_suffix;
    [|by apply nonempty_app|rewrite string_app_assoc; apply trim_id; done].
  rewrite split_once_app by done. rewrite Hne, nonempty_upper, Hen. simpl.
  rewrite Hd, upper_idem. unfold require_safe. by rewrite Hxh, Hxd.
Qed.

Lemma instrument_id_roundtrip_witness :
  symbol_and_exchange_from_instrument_id "NQU6-CME.RITHMIC" = Ok ("NQU6", Some "CME").
Proof. apply (instrument_id_roundtrip " NQU6" (Some "cme ") "NQU6-CME.RITHMIC"). reflexivity. Defined.

(** ** Facts about roots *)

Lemma get_split n : forall s c,
  String.get n s = Some c ->
  exists t, s = String.substring 0 n s +:+ String c t /\ String.length (String.substring 0 n s) = n.
Proof.
  induction n as [|n IH]; intros [|a s] c; cbn [String.get]; try done.
  - intros [= ->]. exists s. by destruct s.
  - intros H. destruct (IH s c H) as (t & E & L). exists t. cbn [String.substring].
    rewrite string_app_cons, <- E. cbn [String.length]. by rewrite L.
Qed.

Lemma get_app r c t : String.get (String.length r) (r +:+ String c t) = Some c.
Proof. induction r as [|a r IH]; [done|]. rewrite string_app_cons. apply IH. Qed.

Lemma substring_app r t : String.substring 0 (String.length r) (r +:+ t) = r.
Proof.
  induction r as [|a r IH]; [by destruct t|].
  rewrite string_app_cons. cbn [String.length String.substring]. by rewrite IH.
Qed.

Lemma dropr_split p s : exists y, s = dropr p s +:+ y /\ sall p y = true.
Proof.
  induction s as [|a s (y & E & Hy)]; [by exists ""|]. cbn [dropr].
  destruct (dropr p s) as [|b t] eqn:D.
  - rewrite string_app_nil in E. subst y. destruct (p a) eqn:Ha.
    + exists (String a s). cbn. by rewrite Ha.
    + exists s. done.
  - exists y. by rewrite string_app_cons, <- E.
Qed.

Lemma dropr_all p y : sall p y = true -> dropr p y = "".
Proof.
  induction y as [|a y IH]; [done|]. cbn. rewrite andb_true_iff.
  intros [Ha Hy]. by rewrite (IH Hy), Ha.
Qed.

Lemma dropr_month r c y :
  is_digit c = false -> sall is_digit y = true ->
  dropr is_digit (r +:+ String c y) = r +:+ String c "".
Proof.
  intros Hc Hy. induction r as [|a r IH].
  - rewrite !string_app_nil. cbn [dropr]. by rewrite dropr_all, Hc.
  - rewrite !string_app_cons. cbn [dropr]. rewrite IH. by destruct r.
Qed.

Lemma month_not_digit c : has_char c MONTH_CODES = true -> is_digit c = false.
Proof. destruct c as [[] [] [] [] [] [] [] []]; vm_compute; done. Qed.

Lemma app_same_length a b c d :
  String.length a = String.length b -> a +:+ c = b +:+ d -> a = b /\ c = d.
Proof.
  revert b. induction a as [|x a IH]; intros [|y b]; try done.
  intros [= L]. rewrite !string_app_cons. intros [= -> E]. by destruct (IH b L E) as [-> ->].
Qed.

(** [s] is a listed contract of the root [r]: root, month letter, one or two
    year digits. *)
Definition contract_of (r s : string) : Prop :=
  exists c y, s = r +:+ String c y /\ has_char c MONTH_CODES = true /\
    sall is_digit y = true /\ (1 <= String.length y <= 2)%nat /\
    nonempty r = true /\ sall is_root_char r = true.

Lemma product_root_of_contract symbol r :
  contract_of r (norm symbol) -> product_root symbol = r.
Proof.
  intros (c & y & E & Hc & Hy & Hl & Hr & Ha). unfold product_root, trailing_digits.
  rewrite E, dropr_month by auto using month_not_digit.
  rewrite !string_length_app. cbn [String.length].
  replace (String.length r + S (String.length y) - (String.length r + 1))%nat
    with (String.length y) by lia.
  assert (1 <= String.length r)%nat by (destruct r; cbn in *; [done|lia]).
  replace (String.length r + S (String.length y) - String.length y - 1)%nat
    with (String.length r) by lia.
  rewrite get_app, substring_app, Hc, Ha.
  destruct (Nat.leb_spec 1 (String.length y)), (Nat.leb_spec (String.length y) 2),
    (Nat.leb_spec (String.length y + 2) (String.length r + S (String.length y)));
    cbn; done || lia.
Qed.

Lemma product_root_shape symbol :
  product_root symbol = norm symbol \/ contract_of (product_root symbol) (norm symbol).
Proof.
  unfold product_root. generalize (norm symbol) as s. intros s.
  destruct (Nat.leb 1 (trailing_digits s) && _ && _) eqn:B; [|by left].
  destruct (String.get _ s) as [c|] eqn:G; [|by left].
  destruct (has_char c MONTH_CODES && _) eqn:B2; [|by left]. right.
  apply andb_prop in B2 as [Hc Ha]. apply andb_prop in B as [B B3]. apply andb_prop in B as [B1 B2].
  apply Nat.leb_le in B1, B2, B3.
  destruct (get_split _ _ _ G) as (t & E & L).
  destruct (dropr_split is_digit s) as (y & Ey & Hy).
  unfold trailing_digits in *.
  assert (Hls : String.length s = (String.length (dropr is_digit s) + String.length y)%nat)
    by (rewrite Ey at 1; by rewrite string_length_app).
  set (r := String.substring 0 _ s) in *.
  assert (Ht : y = t).
  { eapply (app_same_length (dropr is_digit s) (r +:+ String c "")).
    - rewrite string_length_app, L. cbn. lia.
    - rewrite <- Ey, string_app_assoc. exact E. }
  subst t. exists c, y. repeat split; try done; try lia.
  destruct r; cbn in L |- *; [lia|done].
Qed.

(** Root matching is exact, never a prefix match: a symbol belongs to a
    (non-blank) root when it is that root itself, or the root followed by one
    month letter and a one or two digit year. *)
Theorem matches_root_exact (symbol root : string) :
  matches_root symbol root = true <->
  norm root <> "" /\
  (is_listed_contract symbol = false /\ norm symbol = norm root
   \/ contract_of (norm root) (norm symbol)).
Proof.
  unfold matches_root, is_listed_contract.
  rewrite andb_true_iff, bool_decide_eq_true, negb_false_iff, bool_decide_eq_true.
  assert (nonempty (norm root) = true <-> norm root <> "") as -> by (by destruct (norm root)).
  apply and_iff_compat_l. split.
  - intros <-. destruct (product_root_shape symbol) as [E|C]; [|by right].
    left. by rewrite E.
  - intros [[E1 E2]|C]; [congruence|by apply product_root_of_contract].
Qed.

(** A venue time stamp never wraps or panics: for 32-bit parts the result
    is [None] exactly when a part is absent or out of range, and otherwise is
    [ssboe] seconds plus [usecs] microseconds as a 64-bit number of
    nanoseconds. *)
Theorem venue_ts_ns_total (ssboe usecs : Z) :
  - 2 ^ 31 <= ssboe < 2 ^ 31 ->
  venue_ts_ns (Some ssboe) (Some usecs) =
  (if bool_decide (0 <= ssboe /\ 0 <= usecs < 1000000)
   then Some (ssboe * 1000000000 + usecs * 1000) else None) /\
  (0 <= ssboe -> 0 <= usecs < 1000000 ->
   0 <= ssboe * 1000000000 + usecs * 1000 < 2 ^ 64).
Proof.
  intros H. split; [|lia]. unfold venue_ts_ns, u64_try_from, nanos, NANOS_PER_SEC. simpl.
  case_bool_decide as B.
  - replace ((ssboe <? 0) || negb ((0 <=? usecs) && (usecs <? 1000000))) with false by lia.
    replace ((0 <=? _) && (_ <? 18446744073709551616)) with true by lia. done.
  - by replace ((ssboe <? 0) || negb ((0 <=? usecs) && (usecs <? 1000000))) with true by lia.
Qed.

Lemma venue_ts_ns_total_witness :
  venue_ts_ns (Some 1790000000) (Some 250000) = Some 1790000000250000000.
Proof. exact (proj1 (venue_ts_ns_total 1790000000 250000 ltac:(lia))). Defined.
