(* ===== verification/Nautilus.v ===== *)
(** * The NautilusTrader interface the adapter is written against

    NautilusTrader is not part of the repository.  This file fixes only what
    the adapter reads of it: the enumeration members the sources name, the
    attributes it reads of an [Order], and, as type classes, the operations it
    calls.  Parsing of [Price], [Quantity] and [InstrumentId] and the [Cache]
    are parameters: [NautilusTypes] and [CacheOps] list the operations,
    [CacheLaws] the documented behaviour the theorems rely on, and [MapCache]
    and [PlainTypes] are concrete instances used to evaluate witnesses. *)

From Stdlib Require Import Ascii String.
From stdpp Require Import base gmap strings list.
From Stdlib Require Import ZArith Lia.
From S2P Require Import Prelude PyVal.
Import Text.
Open Scope string_scope.
Open Scope list_scope.
Open Scope Z_scope.

(** ** Enumerations (the members the adapter names) *)

Inductive OrderSide := BUY | SELL.

Inductive OrderType :=
  | MARKET | LIMIT | STOP_MARKET | STOP_LIMIT
  | MARKET_IF_TOUCHED | LIMIT_IF_TOUCHED | MARKET_TO_LIMIT
  | TRAILING_STOP_MARKET | TRAILING_STOP_LIMIT.

Inductive TimeInForce := GTC | IOC | FOK | GTD | DAY | AT_THE_OPEN | AT_THE_CLOSE.

Inductive TriggerType := NO_TRIGGER | DEFAULT.

Inductive OrderStatus :=
  | INITIALIZED | DENIED | EMULATED | RELEASED | SUBMITTED | ACCEPTED | REJECTED
  | CANCELED | EXPIRED | TRIGGERED | PENDING_UPDATE | PENDING_CANCEL
  | PARTIALLY_FILLED | FILLED.

Inductive PositionSide := FLAT | LONG | SHORT.

Inductive TrailingOffsetType := NO_TRAILING_OFFSET | OFF_PRICE | BASIS_POINTS | TICKS | PRICE_TIER.

#[export] Instance OrderSide_eq_dec : EqDecision OrderSide.
Proof. solve_decision. Defined.
#[export] Instance OrderType_eq_dec : EqDecision OrderType.
Proof. solve_decision. Defined.
#[export] Instance TimeInForce_eq_dec : EqDecision TimeInForce.
Proof. solve_decision. Defined.
#[export] Instance TriggerType_eq_dec : EqDecision TriggerType.
Proof. solve_decision. Defined.
#[export] Instance OrderStatus_eq_dec : EqDecision OrderStatus.
Proof. solve_decision. Defined.
#[export] Instance PositionSide_eq_dec : EqDecision PositionSide.
Proof. solve_decision. Defined.
#[export] Instance TrailingOffsetType_eq_dec : EqDecision TrailingOffsetType.
Proof. solve_decision. Defined.

(** The [name] attribute of an enumeration member. *)
Definition side_name (s : OrderSide) : string :=
  match s with BUY => "BUY" | SELL => "SELL" end.

Definition order_type_name_of (t : OrderType) : string :=
  match t with
  | MARKET => "MARKET" | LIMIT => "LIMIT" | STOP_MARKET => "STOP_MARKET"
  | STOP_LIMIT => "STOP_LIMIT" | MARKET_IF_TOUCHED => "MARKET_IF_TOUCHED"
  | LIMIT_IF_TOUCHED => "LIMIT_IF_TOUCHED" | MARKET_TO_LIMIT => "MARKET_TO_LIMIT"
  | TRAILING_STOP_MARKET => "TRAILING_STOP_MARKET"
  | TRAILING_STOP_LIMIT => "TRAILING_STOP_LIMIT"
  end.

Definition tif_name (t : TimeInForce) : string :=
  match t with
  | GTC => "GTC" | IOC => "IOC" | FOK => "FOK" | GTD => "GTD" | DAY => "DAY"
  | AT_THE_OPEN => "AT_THE_OPEN" | AT_THE_CLOSE => "AT_THE_CLOSE"
  end.

Definition trailing_offset_name (t : TrailingOffsetType) : string :=
  match t with
  | NO_TRAILING_OFFSET => "NO_TRAILING_OFFSET" | OFF_PRICE => "PRICE"
  | BASIS_POINTS => "BASIS_POINTS" | TICKS => "TICKS" | PRICE_TIER => "PRICE_TIER"
  end.

Definition status_name (s : OrderStatus) : string :=
  match s with
  | INITIALIZED => "INITIALIZED" | DENIED => "DENIED" | EMULATED => "EMULATED"
  | RELEASED => "RELEASED" | SUBMITTED => "SUBMITTED" | ACCEPTED => "ACCEPTED"
  | REJECTED => "REJECTED" | CANCELED => "CANCELED" | EXPIRED => "EXPIRED"
  | TRIGGERED => "TRIGGERED" | PENDING_UPDATE => "PENDING_UPDATE"
  | PENDING_CANCEL => "PENDING_CANCEL" | PARTIALLY_FILLED => "PARTIALLY_FILLED"
  | FILLED => "FILLED"
  end.

(** ** Values *)

(** A fixed-point price [px_raw * 10^-px_precision]. *)
Record Price := MkPrice { px_raw : Z; px_precision : Z }.

#[export] Instance Price_eq_dec : EqDecision Price.
Proof. solve_decision. Defined.

(** A finite [decimal.Decimal]: [d_coef * 10^d_exp]. *)
Record decimal := Dec { d_coef : Z; d_exp : Z }.

#[export] Instance decimal_eq_dec : EqDecision decimal.
Proof. solve_decision. Defined.

(** [int(d)] truncates toward zero. *)
Definition dec_int (d : decimal) : Z :=
  if 0 <=? d_exp d then d_coef d * 10 ^ d_exp d else Z.quot (d_coef d) (10 ^ (- d_exp d)).

(** Numeric equality and order of decimals. *)
Definition dec_scale (d e : decimal) : Z * Z :=
  let m := Z.min (d_exp d) (d_exp e) in
  (d_coef d * 10 ^ (d_exp d - m), d_coef e * 10 ^ (d_exp e - m)).
Definition dec_eqb (d e : decimal) : bool := let '(a, b) := dec_scale d e in a =? b.

(** [float(d)]. *)
Definition dec_float (d : decimal) : f64 :=
  f64_of_decimal (d_coef d <? 0) (Z.to_N (Z.abs (d_coef d))) (d_exp d).

(** [Decimal(text)]: a finite value, or an infinity or NaN; [None] is the
    [InvalidOperation] error. *)
Inductive pydecimal := DFinite (d : decimal) | DSpecial.

Definition dec_of_str (s : string) : option pydecimal :=
  let '(neg, body) := split_sign (strip s) in
  let word := lower body in
  if bool_decide (word ∈ ["inf"; "infinity"; "nan"; "snan"]) then Some DSpecial
  else
    let '(ip, in_, r) := digit_run 0 0 false body in
    let '(fp, fn, r') :=
      match r with
      | String "." r1 => digit_run ip 0 false r1
      | _ => (ip, 0, r)
      end in
    if 0 <? in_ + fn then
      match exponent_part r' with
      | Some x => Some (DFinite (Dec (if neg then - Z.of_N fp else Z.of_N fp) (x - fn)))
      | None => None
      end
    else None.

(** The attributes of a cached [Order] the adapter reads. *)
Record Order := MkOrder {
  o_client_order_id : string;
  o_venue_order_id : option string;
  o_strategy_id : string;
  o_instrument_id : string;
  o_side : OrderSide;
  o_order_type : OrderType;
  o_time_in_force : TimeInForce;
  o_status : OrderStatus;
  o_is_closed : bool;
  o_is_inflight : bool;
  o_is_reduce_only : bool;
  o_quantity : Z;
  o_filled_qty : Z;
  o_leaves_qty : option Z;
  o_price : option Price;              (* [has_price] is [is_Some] *)
  o_trigger_price : option Price;
  o_trigger_type : TriggerType;
  o_avg_px : pyval;
  o_trailing_offset_type : TrailingOffsetType;
  o_trailing_offset : option decimal;
  o_parent_order_id : option string;
  o_linked_order_ids : list string;
  o_ts_accepted : Z;
  o_ts_last : Z
}.

#[export] Instance Order_eq_dec : EqDecision Order.
Proof. solve_decision. Defined.

(** The attributes of a cached instrument the adapter reads. *)
Record Instrument := MkInstrument {
  i_id : string;
  i_price_precision : Z;
  i_price_increment : f64;
  i_info : pydict
}.

(** An open position of the cache: instrument and signed quantity. *)
Record Position := MkPosition {
  p_instrument_id : string;
  p_signed_qty : Z
}.

(** ** Parameters *)

Class NautilusTypes := {
  price_from_str : string -> res Price;
  price_float : Price -> f64;
  price_str : Price -> string;
  make_price : Instrument -> pyval -> res Price;
  quantity_from_int : Z -> res Z;
  currency_from_str : string -> res string;
  instrument_id_from_str : string -> res string
}.

Class CacheOps (C : Type) := {
  cache_order : C -> string -> option Order;
  cache_client_order_id : C -> string -> option string;
  cache_venue_order_id : C -> string -> option string;
  cache_instrument : C -> string -> option Instrument;
  cache_orders : C -> option string -> list Order;
  cache_orders_open : C -> option string -> list Order;
  cache_positions_open : C -> list Position;
  cache_add_venue_order_id : string -> string -> C -> res C
}.

(** Documented behaviour of [Cache.add_venue_order_id]: it records the mapping
    in both directions and touches nothing else. *)
Class CacheLaws (C : Type) {ops : CacheOps C} := {
  add_venue_client c c' cid vid :
    cache_add_venue_order_id cid vid c = Ok c' ->
    cache_client_order_id c' vid = Some cid;
  add_venue_venue c c' cid vid :
    cache_add_venue_order_id cid vid c = Ok c' ->
    cache_venue_order_id c' cid = Some vid;
  add_venue_client_other c c' cid vid vid' :
    cache_add_venue_order_id cid vid c = Ok c' -> vid' <> vid ->
    cache_client_order_id c' vid' = cache_client_order_id c vid';
  add_venue_order c c' cid vid k :
    cache_add_venue_order_id cid vid c = Ok c' ->
    cache_order c' k = cache_order c k
}.

(** ** Concrete instances *)

Record MapCache := MkMapCache {
  mc_orders : list (string * Order);
  mc_by_venue : gmap string string;
  mc_by_client : gmap string string;
  mc_instruments : gmap string Instrument;
  mc_positions : list Position
}.

Definition assoc {A} (k : string) (l : list (string * A)) : option A :=
  snd <$> List.find (fun p => bool_decide (p.1 = k)) l.

Definition selected (inst : option string) (o : Order) : bool :=
  match inst with Some i => bool_decide (o_instrument_id o = i) | None => true end.

#[export] Instance MapCache_ops : CacheOps MapCache := {
  cache_order c k := assoc k (mc_orders c);
  cache_client_order_id c v := mc_by_venue c !! v;
  cache_venue_order_id c k := mc_by_client c !! k;
  cache_instrument c i := mc_instruments c !! i;
  cache_orders c i := List.filter (selected i) (snd <$> mc_orders c);
  cache_orders_open c i :=
    List.filter (fun o => selected i o && negb (o_is_closed o)) (snd <$> mc_orders c);
  cache_positions_open c := mc_positions c;
  cache_add_venue_order_id k v c :=
    match mc_by_client c !! k with
    | Some v' =>
        if bool_decide (v' = v) then
          Ok (MkMapCache (mc_orders c) (<[v := k]> (mc_by_venue c)) (mc_by_client c)
                (mc_instruments c) (mc_positions c))
        else Raise (Exn ExValue None "existing venue_order_id")
    | None =>
        Ok (MkMapCache (mc_orders c) (<[v := k]> (mc_by_venue c))
              (<[k := v]> (mc_by_client c)) (mc_instruments c) (mc_positions c))
    end
}.

#[export] Instance MapCache_laws : CacheLaws MapCache.
Proof.
  split; intros c c' cid vid; simpl; intros; repeat case_match; simplify_eq; simpl;
    repeat case_bool_decide; simplify_eq; simpl;
    by rewrite ?lookup_insert_eq, ?lookup_insert_ne.
Qed.

(** Decimal text to a fixed-point price. *)
Definition price_of_text (s : string) : res Price :=
  let '(neg, body) := split_sign s in
  let sign (z : Z) := if neg then - z else z in
  match split_once "." body with
  | Some (ip, fp) =>
      match Z_of_str (ip +:+ fp) with
      | Some z => Ok (MkPrice (sign z) (Z.of_nat (String.length fp)))
      | None => Raise value_error
      end
  | None =>
      match Z_of_str body with
      | Some z => Ok (MkPrice (sign z) 0)
      | None => Raise value_error
      end
  end.

Definition price_text (p : Price) : string :=
  let n := Z.to_nat (px_precision p) in
  let txt := pad_left (S n) (str_of_Z (Z.abs (px_raw p))) in
  let cut := (String.length txt - n)%nat in
  (if px_raw p <? 0 then "-" else "") +:+
  (if (0 <? px_precision p) then
     String.substring 0 cut txt +:+ "." +:+ String.substring cut n txt
   else txt).

Definition PlainTypes : NautilusTypes := {|
  price_from_str := price_of_text;
  price_float p :=
    f64_of_decimal (px_raw p <? 0) (Z.to_N (Z.abs (px_raw p))) (- px_precision p);
  price_str := price_text;
  make_price i v :=
    match py_float v with
    | Ok f => price_of_text (fixed_f64 (i_price_precision i) f)
    | Raise e => Raise e
    end;
  currency_from_str s := if bool_decide (s ∈ ["USD"; "EUR"; "GBP"]) then Ok s else Raise value_error;
  quantity_from_int z := if 0 <=? z then Ok z else Raise value_error;
  instrument_id_from_str s :=
    if has_char "." s then Ok s else Raise value_error
|}.
