(* ===== verification/Orders.v ===== *)
(** * Order mapping and notification classification

    [_orders.py] with the rules of [crates/rithmic-exec/src/notify.rs] and
    [fills.rs] it calls.  A venue event and its normalised fields are Python
    dictionaries ([pydict]); notification and action kinds stay the strings the
    sources compare. *)

From Stdlib Require Import Ascii String.
From stdpp Require Import base gmap strings list.
From Stdlib Require Import ZArith Lia.
From Corelib Require Import SpecFloat.
From S2P Require Import Prelude PyVal Ident Nautilus.
Import Text.
Open Scope string_scope.
Open Scope list_scope.
Open Scope Z_scope.

(** ** Closed-set tables *)

Definition RITHMIC_PRICE_TYPE_TO_ORDER_TYPE (n : Z) : option OrderType :=
  match n with
  | 1 => Some LIMIT
  | 2 => Some MARKET
  | 3 => Some STOP_LIMIT
  | 4 => Some STOP_MARKET
  | _ => None
  end.

Definition RITHMIC_DURATION_TO_TIF (n : Z) : option TimeInForce :=
  match n with
  | 1 => Some DAY
  | 2 => Some GTC
  | 3 => Some IOC
  | 4 => Some FOK
  | _ => None
  end.

Definition ORDER_TYPE_TO_RITHMIC (name : string) : option string :=
  assoc name
    [("MARKET", "MARKET"); ("LIMIT", "LIMIT"); ("STOP_MARKET", "STOP_MARKET");
     ("STOP_LIMIT", "STOP_LIMIT"); ("MARKET_IF_TOUCHED", "MARKET_IF_TOUCHED");
     ("LIMIT_IF_TOUCHED", "LIMIT_IF_TOUCHED");
     ("TRAILING_STOP_MARKET", "STOP_MARKET"); ("TRAILING_STOP_LIMIT", "STOP_LIMIT")].

Definition TIF_TO_RITHMIC (name : string) : option string :=
  assoc name [("DAY", "DAY"); ("GTC", "GTC"); ("IOC", "IOC"); ("FOK", "FOK")].

Definition DEFAULT_TRAIL_BY_PRICE_ID : Z := 1.

Definition TRAILING_ORDER_TYPES : list string :=
  ["TRAILING_STOP_MARKET"; "TRAILING_STOP_LIMIT"].

(** ** Nautilus to Rithmic *)

Definition order_map_error (text : string) : exn := Exn ExOrderMap None text.

(** [name] is the member's [name] attribute (or its [str]). *)
Definition enum_name (name prefix : string) : string := removeprefix prefix (upper name).

Definition order_type_name (t : OrderType) : string :=
  enum_name (order_type_name_of t) "ORDERTYPE.".

Definition nautilus_side_to_rithmic (side_name : string) : res string :=
  let name := enum_name side_name "ORDERSIDE." in
  if bool_decide (name ∈ ["BUY"; "B"]) then Ok "BUY"
  else if bool_decide (name ∈ ["SELL"; "S"]) then Ok "SELL"
  else Raise (order_map_error "unsupported order side").

Definition nautilus_order_type_to_rithmic (t : OrderType) : res string :=
  match ORDER_TYPE_TO_RITHMIC (order_type_name t) with
  | Some mapped => Ok mapped
  | None => Raise (order_map_error "unsupported order type for Rithmic")
  end.

Definition is_trailing_order_type (t : OrderType) : bool :=
  bool_decide (order_type_name t ∈ TRAILING_ORDER_TYPES).

Definition trailing_ticks_from_order (order : Order) : res (option Z) :=
  if negb (is_trailing_order_type (o_order_type order)) then Ok None
  else
    let type_name :=
      enum_name (trailing_offset_name (o_trailing_offset_type order)) "TRAILINGOFFSETTYPE." in
    if negb (bool_decide (type_name = "TICKS")) then
      Raise (order_map_error "Rithmic trailing stops require TrailingOffsetType.TICKS")
    else
      match o_trailing_offset order with
      | None => Raise (order_map_error "trailing stop missing trailing_offset")
      | Some offset =>
          let ticks := dec_int offset in
          if ticks <? 1 then Raise (order_map_error "trailing_offset must be >= 1 tick")
          else if negb (bool_decide (dec_float offset = dec_float (Dec ticks 0))) then
            Raise (order_map_error "trailing_offset must be a whole tick count")
          else Ok (Some ticks)
      end.

Definition nautilus_tif_to_rithmic (t : TimeInForce) : res string :=
  match TIF_TO_RITHMIC (enum_name (tif_name t) "TIMEINFORCE.") with
  | Some mapped => Ok mapped
  | None => Raise (order_map_error "unsupported time in force for Rithmic")
  end.

(** ** Exact coercions at the convert boundary *)

Definition enum_int (value : pyval) : option Z :=
  match value with
  | VNone | VBool _ => None
  | VStr s => Z_of_str s
  | _ =>
      match py_int value with
      | Raise _ => None
      | Ok coerced =>
          let same :=
            match value with
            | VInt z => coerced =? z
            | VFloat f => f64_eq_Z f coerced
            | _ => false
            end in
          if same then Some coerced else None
      end
  end.

(** Only [TypeError] and [ValueError] of [float(value)] are swallowed. *)
Definition sentinel_none (value : pyval) : res pyval :=
  match value with
  | VNone => Ok VNone
  | _ =>
      match py_float value with
      | Ok f => Ok (if bool_decide (f = f64_minus_one) then VNone else value)
      | Raise e => if is_type_or_value_error e then Ok value else Raise e
      end
  end.

(** ** Notification kinds ([notify.rs]) *)

Definition rs_kind_from_notify (source name0 : string) (status text : option string)
  : option string :=
  let name := upper name0 in
  if bool_decide (source = "rithmic") then
    if bool_decide (name = "OPEN") then Some "accepted"
    else if bool_decide (name = "TRIGGER_PENDING") then Some "accepted"
    else if bool_decide (name = "MODIFIED") then Some "updated"
    else if bool_decide (name = "MODIFICATION_FAILED") then Some "modify_rejected"
    else if bool_decide (name = "CANCELLATION_FAILED") then Some "cancel_rejected"
    else if bool_decide (name = "COMPLETE") then
      let st := upper (default "" status) in
      if bool_decide (st = "CANCELLED") || bool_decide (st = "CANCELED") then Some "canceled"
      else if match text with Some t => nonempty (trim t) | None => false end
           then Some "rejected"
      else None
    else None
  else if bool_decide (source = "exchange") then
    if bool_decide (name = "FILL") then Some "filled"
    else if bool_decide (name = "REJECT") then Some "rejected"
    else if bool_decide (name = "CANCEL") then Some "canceled"
    else if bool_decide (name = "TRIGGER") then Some "triggered"
    else if bool_decide (name = "NOT_MODIFIED") then Some "modify_rejected"
    else if bool_decide (name ∈ ["NOT_CANCELLED"; "NOT_CANCELED"]) then Some "cancel_rejected"
    else None
  else None.

Definition kind_from_notify (source name : string) (status text : pyval) : option string :=
  rs_kind_from_notify source name (Some (str_or_empty status)) (Some (str_or_empty text)).

(** ** The normalised notification *)

Definition opt_str (o : option string) : pyval :=
  match o with Some s => VStr s | None => VNone end.
Definition opt_int_val (o : option Z) : pyval :=
  match o with Some z => VInt z | None => VNone end.

(** [None if exchange is None else str(exchange)]. *)
Definition exchange_arg (v : pyval) : option string :=
  match v with VNone => None | _ => Some (py_str v) end.

Definition order_notification_to_fields (d : pydict) : res pydict :=
  if negb (is_none (dget d "type") || is_str (dget d "type") "order_notification")
  then Raise convert_error
  else if negb (is_str_in (dget d "source") ["rithmic"; "exchange"])
  then Raise convert_error
  else if negb (truthy (dget d "symbol")) then Raise convert_error
  else
    ts ← ts_ns d;
    let kind :=
      if is_none (dget d "kind") && negb (is_none (dget d "notify_type_name")) then
        opt_str (kind_from_notify (py_str (dget d "source"))
                   (py_str (dget d "notify_type_name")) (dget d "status") (dget d "text"))
      else dget d "kind" in
    instrument ← instrument_id_from_symbol (py_str (dget d "symbol"))
                   (exchange_arg (dget d "exchange"));
    price ← sentinel_none (dget d "price");
    trigger_price ← sentinel_none (dget d "trigger_price");
    avg_fill_price ← sentinel_none (dget d "avg_fill_price");
    fill_price ← sentinel_none (dget d "fill_price");
    Ok (dict_of
      [("type", VStr "order_notification");
       ("source", dget d "source");
       ("kind", kind);
       ("notify_type", dget d "notify_type");
       ("notify_type_name", dget d "notify_type_name");
       ("status", dget d "status");
       ("basket_id", dget d "basket_id");
       ("exchange_order_id", dget d "exchange_order_id");
       ("user_tag", dget d "user_tag");
       ("account_id", dget d "account_id");
       ("symbol", VStr (py_str (dget d "symbol")));
       ("exchange", dget d "exchange");
       ("instrument_id", VStr instrument);
       ("quantity", dget d "quantity");
       ("total_fill_size", dget d "total_fill_size");
       ("total_unfilled_size", dget d "total_unfilled_size");
       ("fill_size", dget d "fill_size");
       ("price", price);
       ("trigger_price", trigger_price);
       ("avg_fill_price", avg_fill_price);
       ("fill_price", fill_price);
       ("transaction_type", dget d "transaction_type");
       ("price_type", opt_int_val (enum_int (dget d "price_type")));
       ("duration", opt_int_val (enum_int (dget d "duration")));
       ("fill_id", dget d "fill_id");
       ("text", dget d "text");
       ("report_text", dget d "report_text");
       ("completion_reason", dget d "completion_reason");
       ("ssboe", dget d "ssboe");
       ("usecs", dget d "usecs");
       ("ts_event", opt_int_val ts);
       ("is_snapshot", dget d "is_snapshot");
       ("venue", VStr VENUE)]).

(** ** Fill identity ([fills.rs] and its callers) *)

Record FillParts := MkFillParts {
  fp_fill_id : option string;
  fp_basket_id : string;
  fp_exchange_order_id : string;
  fp_fill_size : string;
  fp_fill_price : string
}.

Definition rs_trade_id (parts : FillParts) (ts_event : Z) : string :=
  let composite :=
    fp_basket_id parts +:+ ":" +:+ fp_exchange_order_id parts +:+ ":" +:+
    str_of_Z ts_event +:+ ":" +:+ fp_fill_size parts +:+ ":" +:+ fp_fill_price parts in
  match fp_fill_id parts with
  | Some id => if nonempty id then id else composite
  | None => composite
  end.

Definition rs_dedup_key (account_id instrument_id : string) (parts : FillParts) (ts_event : Z)
  : string :=
  account_id +:+ "|" +:+ instrument_id +:+ "|" +:+ rs_trade_id parts ts_event.

Definition fill_parts (fields : pydict) : FillParts :=
  let fill_id := dget fields "fill_id" in
  MkFillParts
    (if truthy fill_id then Some (py_str fill_id) else None)
    (str_or_empty (dget fields "basket_id"))
    (str_or_empty (dget fields "exchange_order_id"))
    (py_str (dget fields "fill_size"))
    (py_str (dget fields "fill_price")).

Definition fill_identity_ts (fields : pydict) : res Z :=
  let raw := dget fields "ts_event" in
  if truthy raw then py_int raw else Ok 0.

Definition trade_id_from_fill_fields (fields : pydict) (ts_event : Z) : string :=
  rs_trade_id (fill_parts fields) ts_event.

Definition fill_dedup_key (fields : pydict) (ts_event : Z) : string :=
  rs_dedup_key (str_or_empty (dget fields "account_id"))
    (str_or_empty (dget fields "instrument_id")) (fill_parts fields) ts_event.

(** ** Reading a normalised row *)

Definition order_side_from_notification (fields : pydict) : res (option OrderSide) :=
  let raw := dget fields "transaction_type" in
  if is_none raw then Ok None
  else
    catch is_type_or_value_error
      (value ← py_int raw;
       Ok (if value =? 1 then Some BUY else if value =? 2 then Some SELL else None))
      (fun _ => Ok None).

Definition slim_order_fields (fields : pydict) : pydict :=
  filter (fun kv => kv.2 <> VNone /\
    kv.1 ∈ ["kind"; "source"; "notify_type_name"; "status"; "basket_id"; "user_tag";
            "symbol"; "exchange"; "fill_id"; "transaction_type"; "text"; "report_text"])
    fields.

Definition is_benign_bare_complete (fields : pydict) (order : option Order) : bool :=
  match order with
  | None => false
  | Some o =>
      o_is_closed o
      && is_str (dget fields "source") "rithmic"
      && bool_decide (upper (str_or_empty (dget fields "notify_type_name")) = "COMPLETE")
      && bool_decide (lower (str_or_empty (dget fields "status")) = "complete")
      && is_none (dget fields "kind")
      && is_none (dget fields "quantity")
      && is_none (dget fields "fill_size")
      && is_none (dget fields "fill_id")
      && bool_decide (o_status o ∈ [FILLED; CANCELED])
  end.

(** ** Actions *)

Record OrderAction := MkAction {
  a_kind : string;
  a_reason : option string;
  a_quantity : option Z;
  a_price : pyval;
  a_trigger : pyval;
  a_fill_qty : option Z;
  a_fill_px : pyval;
  a_trade_id : option string
}.

Definition plain_action (kind : string) (reason : option string) : OrderAction :=
  MkAction kind reason None VNone VNone None VNone None.

(** The first non-empty of the venue's text, report text and status. *)
Definition refusal (text report_text status : option string) (dflt : string) : string :=
  match List.find nonempty (omap id [text; report_text; status]) with
  | Some s => s
  | None => dflt
  end.

Definition rs_notification_action (kind : string) (text report_text status : option string)
  : option (string * option string) :=
  if bool_decide (kind ∈ ["accepted"; "updated"; "canceled"; "triggered"; "filled"])
  then Some (kind, None)
  else if bool_decide (kind = "rejected")
  then Some ("rejected", Some (refusal text report_text status "REJECT"))
  else if bool_decide (kind = "modify_rejected")
  then Some ("modify_rejected", Some (refusal text report_text status "NOT_MODIFIED"))
  else if bool_decide (kind = "cancel_rejected")
  then Some ("cancel_rejected", Some (refusal text report_text status "NOT_CANCELLED"))
  else None.

Definition text_or_none (v : pyval) : option string :=
  if truthy v then Some (py_str v) else None.

Definition notification_action (fields : pydict) (order : Order) : res (option OrderAction) :=
  let kind := dget fields "kind" in
  if negb (truthy kind) then Ok None
  else
    match rs_notification_action (py_str kind) (text_or_none (dget fields "text"))
            (text_or_none (dget fields "report_text")) (text_or_none (dget fields "status")) with
    | None => Ok None
    | Some (action, reason) =>
        if bool_decide (action = "updated") then
          let qty_raw := dget fields "quantity" in
          qty ← (if is_none qty_raw then Ok (o_quantity order) else py_int qty_raw);
          Ok (Some (MkAction "updated" None (Some qty) (dget fields "price")
                      (dget fields "trigger_price") None VNone None))
        else if bool_decide (action = "filled") then
          let fill_sz := dget fields "fill_size" in
          if is_none fill_sz then Ok None
          else
            ts_event ← fill_identity_ts fields;
            q ← py_int fill_sz;
            Ok (Some (MkAction "filled" None None VNone VNone (Some q)
                        (dget fields "fill_price")
                        (Some (trade_id_from_fill_fields fields ts_event))))
        else Ok (Some (plain_action action reason))
    end.

(** ** Facts *)

(** Every kind the plant mapping produces is one the action rule answers. *)
Lemma kind_from_notify_closed source name status text k :
  kind_from_notify source name status text = Some k ->
  k ∈ ["accepted"; "updated"; "canceled"; "triggered"; "filled"; "rejected";
       "modify_rejected"; "cancel_rejected"].
Proof.
  unfold kind_from_notify, rs_kind_from_notify. intros H.
  repeat (case_match; simplify_eq); evaluate.
Qed.

(** No classified notification is dropped: whatever kind the venue's
    [notify_type_name] maps to, the action rule answers with that same kind,
    and a refusal always carries a non-empty reason. *)
Theorem notified_kind_has_action source name status text k t r s :
  kind_from_notify source name status text = Some k ->
  exists reason, rs_notification_action k t r s = Some (k, reason) /\
    (k ∈ ["rejected"; "modify_rejected"; "cancel_rejected"] ->
     exists why, reason = Some why /\ why <> "").
Proof.
  intros Hk%kind_from_notify_closed.
  assert (Hr : forall d, d <> "" -> refusal t r s d <> "").
  { intros d Hd. unfold refusal. destruct (List.find _ _) as [w|] eqn:E; [|done].
    apply List.find_some in E as [_ E]. by destruct w. }
  unfold rs_notification_action.
  repeat (apply elem_of_cons in Hk as [->|Hk];
    [eexists; split; [reflexivity|];
     intros Hin; try (eexists; split; [reflexivity|by apply Hr]);
     exfalso; revert Hin; rewrite !elem_of_cons, elem_of_nil; naive_solver|]).
  by apply not_elem_of_nil in Hk.
Qed.

Lemma notified_kind_has_action_witness :
  exists reason, rs_notification_action "rejected" None None (Some "bad price") =
    Some ("rejected", reason) /\
    ("rejected" ∈ ["rejected"; "modify_rejected"; "cancel_rejected"] ->
     exists why, reason = Some why /\ why <> "").
Proof.
  apply (notified_kind_has_action "rithmic" "complete" (VStr "failed") (VStr "no margin")).
  reflexivity.
Defined.

(** *** The convert boundary *)

Lemma sentinel_none_spec v w :
  sentinel_none v = Ok w -> w = VNone \/ (w = v /\ py_float w <> Ok f64_minus_one).
Proof.
  unfold sentinel_none. intros H.
  destruct v; [by left; simplify_eq|..];
    match type of H with context [py_float ?x] => destruct (py_float x) as [g|e] eqn:E end;
    try (case_bool_decide; simplify_eq; [by left|right; split; [done|rewrite E; congruence]]);
    destruct (is_type_or_value_error e); simplify_eq; right; (split; [done|by rewrite E]).
Qed.

Lemma enum_int_spec v z : enum_int v = Some z ->
  v = VInt z \/ (exists f, v = VFloat f /\ f64_eq_Z f z = true)
  \/ (exists s, v = VStr s /\ Z_of_str s = Some z).
Proof.
  destruct v as [| | n | f | s]; cbn [enum_int]; try done; intros H.
  - cbn in H. rewrite Z.eqb_refl in H. left. congruence.
  - right; left. exists f. split; [done|]. destruct (py_int _); [|done].
    destruct (f64_eq_Z f a) eqn:E; simplify_eq. done.
  - right; right. eauto.
Qed.

Definition price_keys : list string :=
  ["price"; "trigger_price"; "avg_fill_price"; "fill_price"].

(** The convert boundary never fabricates a term.  In a normalised
    notification the pending-price marker [-1.0] has disappeared from every
    price field, each price kept is the venue's own value, and each closed-set
    code is absent or an integer the venue really sent (never a truncated
    float or a boolean). *)
Theorem normalised_terms_are_genuine (d f : pydict) :
  order_notification_to_fields d = Ok f ->
  (forall k, k ∈ price_keys ->
     dget f k = VNone \/ (dget f k = dget d k /\ py_float (dget f k) <> Ok f64_minus_one)) /\
  (forall k, k ∈ ["price_type"; "duration"] ->
     dget f k = VNone \/ exists z, dget f k = VInt z /\
       (dget d k = VInt z \/ (exists g, dget d k = VFloat g /\ f64_eq_Z g z = true)
        \/ (exists s, dget d k = VStr s /\ Z_of_str s = Some z))).
Proof.
  unfold order_notification_to_fields. intros H.
  do 3 (case_match; [done|]).
  destruct (ts_ns d) as [ts|]; [|done]. simpl in H.
  destruct (instrument_id_from_symbol _ _) as [i|]; [|done]. simpl in H.
  destruct (sentinel_none (dget d "price")) as [p1|] eqn:E1; [|done].
  destruct (sentinel_none (dget d "trigger_price")) as [p2|] eqn:E2; [|done].
  destruct (sentinel_none (dget d "avg_fill_price")) as [p3|] eqn:E3; [|done].
  destruct (sentinel_none (dget d "fill_price")) as [p4|] eqn:E4; [|done].
  cbn [mbind res_bind] in H. injection H as <-.
  apply sentinel_none_spec in E1, E2, E3, E4.
  set (f := dict_of _).
  assert (Hf1 : dget f "price" = p1) by reflexivity.
  assert (Hf2 : dget f "trigger_price" = p2) by reflexivity.
  assert (Hf3 : dget f "avg_fill_price" = p3) by reflexivity.
  assert (Hf4 : dget f "fill_price" = p4) by reflexivity.
  assert (Hf5 : dget f "price_type" = opt_int_val (enum_int (dget d "price_type"))) by reflexivity.
  assert (Hf6 : dget f "duration" = opt_int_val (enum_int (dget d "duration"))) by reflexivity.
  clearbody f. unfold price_keys.
  split; intros k Hk; rewrite !elem_of_cons, elem_of_nil in Hk;
    repeat destruct Hk as [->|Hk]; try done;
    rewrite ?Hf1, ?Hf2, ?Hf3, ?Hf4, ?Hf5, ?Hf6; try done.
  all: match goal with |- context [enum_int ?v] =>
         destruct (enum_int v) as [z|] eqn:E; [|by left] end;
       right; exists z; split; [done|by apply enum_int_spec].
Qed.

Definition sample_notification : pydict :=
  dict_of [("source", VStr "exchange"); ("symbol", VStr "MNQZ6"); ("exchange", VStr "CME");
           ("notify_type_name", VStr "FILL"); ("basket_id", VStr "B1");
           ("user_tag", VStr "O-1"); ("account_id", VStr "ACC");
           ("fill_id", VStr "F1"); ("fill_size", VInt 2); ("fill_price", VFloat f64_minus_one);
           ("price_type", VBool true); ("duration", VFloat (f64_of_decimal false 15 (-1)));
           ("ssboe", VInt 1790000000)].

Lemma normalised_terms_are_genuine_witness :
  exists f, order_notification_to_fields sample_notification = Ok f /\
  dget f "fill_price" = VNone /\ dget f "price_type" = VNone /\ dget f "duration" = VNone /\
  (forall k, k ∈ price_keys -> dget f k = VNone \/
     (dget f k = dget sample_notification k /\ py_float (dget f k) <> Ok f64_minus_one)).
Proof.
  eexists. split; [reflexivity|]. do 3 (split; [vm_compute; reflexivity|]).
  apply (normalised_terms_are_genuine sample_notification). reflexivity.
Defined.

(** *** Fill identity *)

Lemma uint_no_char c d :
  is_digit c = false -> has_char c (DecimalString.NilEmpty.string_of_uint d) = false.
Proof.
  intros Hc. assert (H : forall x, is_digit x = true -> bool_decide (x = c) = false).
  { intros x Hx. apply bool_decide_eq_false. congruence. }
  induction d; cbn; rewrite ?IHd, ?H; done.
Qed.

Lemma str_of_Z_no_char c z :
  is_digit c = false -> c <> "-"%char -> has_char c (str_of_Z z) = false.
Proof.
  intros Hc Hm. unfold str_of_Z, DecimalString.NilZero.string_of_int.
  assert (H0 : forall d, has_char c (DecimalString.NilZero.string_of_uint d) = false).
  { intros [|d|d|d|d|d|d|d|d|d|d]; try apply (uint_no_char c); auto.
    cbn. rewrite bool_decide_eq_false_2; [done|]. intros <-. done. }
  destruct (Z.to_int z); [apply H0|]. cbn [has_char].
  rewrite H0, orb_false_r. by apply bool_decide_eq_false.
Qed.

(** Text up to a separator it does not contain is determined. *)
Lemma sep_inj c a b s t :
  has_char c a = false -> has_char c b = false ->
  a +:+ String c s = b +:+ String c t -> a = b /\ s = t.
Proof.
  intros Ha Hb H. apply (f_equal (split_once c)) in H.
  rewrite !split_once_app in H by done. by simplify_eq.
Qed.

Lemma nonempty_app_r (s t : string) : t <> "" -> s +:+ t <> "".
Proof. destruct s; [done|]. rewrite string_app_cons. congruence. Qed.

Lemma nonempty_app_l (s t : string) : s <> "" -> s +:+ t <> "".
Proof. destruct s; [done|]. rewrite string_app_cons. congruence. Qed.

Lemma layout_nonempty ds k : layout ds k <> "".
Proof.
  unfold layout. repeat case_match; try (by rewrite string_app_cons);
    repeat first [done | apply nonempty_app_r].
Qed.

Lemma str_of_Z_nonempty z : str_of_Z z <> "".
Proof.
  intros H. pose proof (Z_of_str_of_Z z) as E. by rewrite H in E.
Qed.

Lemma truthy_text v : truthy v = true -> py_str v <> "".
Proof.
  destruct v as [|b|z|f|s]; cbn; try done.
  - by destruct b.
  - intros _. apply str_of_Z_nonempty.
  - intros _. destruct f as [| | |s m e]; try (by destruct s); try done.
    unfold repr_f64. destruct (f64_ratio m e), (shortest _ _ _ _ _ _).
    apply nonempty_app_r, layout_nonempty.
  - by destruct s.
Qed.

Lemma tagged_trade_id d t :
  truthy (dget d "fill_id") = true -> trade_id_from_fill_fields d t = py_str (dget d "fill_id").
Proof.
  intros Ht. unfold trade_id_from_fill_fields, rs_trade_id, fill_parts. cbn.
  rewrite Ht. apply truthy_text in Ht. by destruct (py_str _).
Qed.

Lemma untagged_trade_id d t :
  truthy (dget d "fill_id") = false ->
  trade_id_from_fill_fields d t =
  str_or_empty (dget d "basket_id") +:+ ":" +:+ str_or_empty (dget d "exchange_order_id")
  +:+ ":" +:+ str_of_Z t +:+ ":" +:+ py_str (dget d "fill_size") +:+ ":" +:+
  py_str (dget d "fill_price").
Proof.
  intros Ht. unfold trade_id_from_fill_fields, rs_trade_id, fill_parts. cbn. by rewrite Ht.
Qed.

Definition untagged (f : pydict) : Prop := truthy (dget f "fill_id") = false.

(** Two reports concern the same order of the same account. *)
Definition same_order (f g : pydict) : Prop :=
  forall k, k ∈ ["account_id"; "instrument_id"; "basket_id"; "exchange_order_id"] ->
  dget f k = dget g k.

Lemma dedup_key_scope f g ts ts' :
  same_order f g -> fill_dedup_key f ts = fill_dedup_key g ts' ->
  trade_id_from_fill_fields f ts = trade_id_from_fill_fields g ts'.
Proof.
  intros Hs. unfold fill_dedup_key, rs_dedup_key.
  rewrite (Hs "account_id"), (Hs "instrument_id") by evaluate.
  intros H. do 4 apply string_app_inj_l in H. done.
Qed.

(** The dedup key identifies a fill.  Within one account, instrument
    and order: two fills the venue tagged share a key exactly when their fill
    ids read the same; two fills it did not tag share a key exactly when their
    venue time, size and price read the same, whatever the adapter clock
    says. *)
Theorem fill_key_identity (f g : pydict) (ts ts' q q' : Z) :
  same_order f g ->
  (~ untagged f -> ~ untagged g ->
   fill_dedup_key f ts = fill_dedup_key g ts' <->
   py_str (dget f "fill_id") = py_str (dget g "fill_id")) /\
  (untagged f -> untagged g ->
   dget f "fill_size" = VInt q -> dget g "fill_size" = VInt q' ->
   fill_dedup_key f ts = fill_dedup_key g ts' <->
   ts = ts' /\ q = q' /\ py_str (dget f "fill_price") = py_str (dget g "fill_price")).
Proof.
  intros Hs. unfold untagged. split.
  - rewrite !not_false_iff_true. intros Hf Hg. split.
    + intros H%dedup_key_scope; [|done]. by rewrite !tagged_trade_id in H.
    + intros H. unfold fill_dedup_key, rs_dedup_key.
      change (rs_trade_id (fill_parts f) ts) with (trade_id_from_fill_fields f ts).
      change (rs_trade_id (fill_parts g) ts') with (trade_id_from_fill_fields g ts').
      by rewrite !tagged_trade_id, H, (Hs "account_id"), (Hs "instrument_id") by (done || evaluate).
  - intros Hf Hg Qf Qg. split.
    + intros H%dedup_key_scope; [|done]. revert H.
      rewrite !untagged_trade_id by done. rewrite Qf, Qg.
      rewrite (Hs "basket_id"), (Hs "exchange_order_id") by evaluate.
      intros H. do 4 apply string_app_inj_l in H.
      assert (Hc : forall z, has_char ":" (str_of_Z z) = false)
        by (intros z; by apply str_of_Z_no_char).
      apply (sep_inj ":") in H as [H1%str_of_Z_inj H]; [|by apply Hc..].
      by apply (sep_inj ":") in H as [H2%str_of_Z_inj H]; [|by apply Hc..].
    + intros (-> & -> & H). unfold fill_dedup_key, rs_dedup_key.
      change (rs_trade_id (fill_parts f) ts') with (trade_id_from_fill_fields f ts').
      change (rs_trade_id (fill_parts g) ts') with (trade_id_from_fill_fields g ts').
      rewrite !untagged_trade_id by done. rewrite Qf, Qg, H.
      by rewrite (Hs "account_id"), (Hs "instrument_id"), (Hs "basket_id"),
        (Hs "exchange_order_id") by evaluate.
Qed.

Lemma fill_key_identity_witness :
  fill_dedup_key sample_notification 7 <>
  fill_dedup_key (<["fill_id" := VStr "F2"]> sample_notification) 7.
Proof.
  intros H.
  apply (proj1 (fill_key_identity sample_notification
    (<["fill_id" := VStr "F2"]> sample_notification) 7 7 0 0
    ltac:(intros k Hk; rewrite !elem_of_cons, elem_of_nil in Hk;
          repeat destruct Hk as [->|Hk]; try done; vm_compute; reflexivity))) in H;
    [vm_compute in H; discriminate|vm_compute; discriminate..].
Defined.
