(* ===== verification/OrderRows.v ===== *)
(** * What an order row means, and which drain rows count

    [order_rows.py] (closed-set values to Nautilus meaning, the trust gate) and
    [crates/rithmic-exec/src/drain.rs] (trust, freshest row per order, stale
    rows).  Builders are permissive and fall back; the trust gate is strict;
    the theorems say the two meet: a trusted row never used a fallback. *)

From Stdlib Require Import Ascii String.
From stdpp Require Import base gmap strings list sorting.
From Stdlib Require Import ZArith Lia.
From S2P Require Import Prelude PyVal Ident Nautilus Orders.
Import Text.
Open Scope string_scope.
Open Scope list_scope.
Open Scope Z_scope.

(** ** [order_rows.py] *)

Definition STOP_PRICE_TYPES (n : Z) : bool :=
  match RITHMIC_PRICE_TYPE_TO_ORDER_TYPE n with
  | Some t => bool_decide (t ∈ [STOP_LIMIT; STOP_MARKET])
  | None => false
  end.

Definition TRIGGERABLE_ORDER_TYPES : list OrderType :=
  [STOP_LIMIT; TRAILING_STOP_LIMIT; LIMIT_IF_TOUCHED].

Definition order_type_from_fields (fields : pydict) : res OrderType :=
  let raw := dget fields "price_type" in
  if is_none raw then Ok MARKET
  else catch is_type_or_value_error
         (n ← py_int raw; Ok (default MARKET (RITHMIC_PRICE_TYPE_TO_ORDER_TYPE n)))
         (fun _ => Ok MARKET).

Definition tif_from_fields (fields : pydict) : res TimeInForce :=
  let raw := dget fields "duration" in
  if is_none raw then Ok GTC
  else catch is_type_or_value_error
         (n ← py_int raw; Ok (default GTC (RITHMIC_DURATION_TO_TIF n)))
         (fun _ => Ok GTC).

Definition trigger_type_from_fields (fields : pydict) : res TriggerType :=
  let raw := dget fields "price_type" in
  if is_none raw then Ok NO_TRIGGER
  else catch is_type_or_value_error
         (n ← py_int raw; Ok (if STOP_PRICE_TYPES n then DEFAULT else NO_TRIGGER))
         (fun _ => Ok NO_TRIGGER).

Definition order_status_from_fields (fields : pydict) : res OrderStatus :=
  let kind := dget fields "kind" in
  let status_u := upper (str_or_empty (dget fields "status")) in
  '(qty, filled) ← catch is_type_or_value_error
    (q ← int_or_zero (dget fields "quantity");
     f ← int_or_zero (dget fields "total_fill_size");
     Ok (q, f))
    (fun _ => Ok (0, 0));
  let partial := (0 <? qty) && (0 <? filled) && (filled <? qty) in
  if is_str kind "filled" || ((0 <? qty) && (qty <=? filled)) then Ok FILLED
  else if is_str_in kind ["modify_rejected"; "cancel_rejected"] then
    Ok (if partial then PARTIALLY_FILLED else ACCEPTED)
  else if is_str kind "rejected" || contains "REJECT" status_u then Ok REJECTED
  else if is_str kind "canceled" || bool_decide (status_u ∈ ["CANCELLED"; "CANCELED"])
  then Ok CANCELED
  else if is_str kind "expired" || contains "EXPIRED" status_u then Ok EXPIRED
  else if partial then Ok PARTIALLY_FILLED
  else if is_str kind "triggered" then
    t ← order_type_from_fields fields;
    Ok (if bool_decide (t ∈ TRIGGERABLE_ORDER_TYPES) then TRIGGERED else ACCEPTED)
  else Ok ACCEPTED.

(** ** [drain.rs] *)

Definition TRUSTWORTHY_PRICE_TYPES : list Z := [1; 2; 3; 4].
Definition TRUSTWORTHY_DURATIONS : list Z := [1; 2; 3; 4].
Definition RECOGNIZABLE_KINDS : list string :=
  ["accepted"; "updated"; "canceled"; "filled"; "rejected"; "modify_rejected";
   "cancel_rejected"; "expired"; "triggered"].
Definition STATUS_MARKERS : list string :=
  ["OPEN"; "WORKING"; "CANCEL"; "REJECT"; "EXPIRED"; "TRIGGER"].

Record RowTerms := MkRowTerms {
  rt_side_known : bool;
  rt_price_type : option Z;
  rt_duration : option Z;
  rt_kind : option string;
  rt_status : string
}.

Definition rs_row_is_trustworthy (terms : RowTerms) : bool :=
  if negb (rt_side_known terms) then false
  else
    match rt_price_type terms, rt_duration terms with
    | Some price_type, Some duration =>
        if negb (bool_decide (price_type ∈ TRUSTWORTHY_PRICE_TYPES))
           || negb (bool_decide (duration ∈ TRUSTWORTHY_DURATIONS)) then false
        else if match rt_kind terms with
                | Some k => bool_decide (k ∈ RECOGNIZABLE_KINDS)
                | None => false
                end then true
        else
          let status := upper (rt_status terms) in
          existsb (fun marker => contains marker status) STATUS_MARKERS
    | _, _ => false
    end.

(** The Python face: coercions applied, then the rule above. *)
Definition row_is_trustworthy (fields : pydict) : res bool :=
  side ← order_side_from_notification fields;
  Ok (rs_row_is_trustworthy (MkRowTerms
    (match side with Some _ => true | None => false end)
    (enum_int (dget fields "price_type"))
    (enum_int (dget fields "duration"))
    (match dget fields "kind" with VStr k => Some k | _ => None end)
    (str_or_empty (dget fields "status")))).

(** The freshest row of each key: [order] is the keys by first appearance,
    [winner] the index that currently holds the key. *)
Fixpoint freshest_loop (rows rest : list (string * Z)) (index : nat)
  (order : list string) (winner : gmap string nat) : list string * gmap string nat :=
  match rest with
  | [] => (order, winner)
  | (key, ts) :: rest' =>
      match winner !! key with
      | None => freshest_loop rows rest' (S index) (order ++ [key]) (<[key := index]> winner)
      | Some current =>
          if default 0 (snd <$> rows !! current) <=? ts
          then freshest_loop rows rest' (S index) order (<[key := index]> winner)
          else freshest_loop rows rest' (S index) order winner
      end
  end.

Definition freshest_per_key (rows : list (string * Z)) : list nat :=
  let '(order, winner) := freshest_loop rows rows 0 [] ∅ in
  omap (fun key => winner !! key) order.

Record StaleFacts := MkStaleFacts {
  sf_order_closed : bool;
  sf_live_stream_authoritative : bool;
  sf_report_non_terminal : bool;
  sf_row_ts_ns : Z;
  sf_order_ts_last_ns : Z
}.

Definition stale_reason (facts : StaleFacts) : option string :=
  if sf_order_closed facts then
    if sf_live_stream_authoritative facts then Some "order closed locally"
    else if sf_report_non_terminal facts
         then Some "non-terminal snapshot for locally closed order" else None
  else if sf_live_stream_authoritative facts
          && negb (sf_row_ts_ns facts =? 0)
          && (sf_row_ts_ns facts <? sf_order_ts_last_ns facts)
  then Some "live stream advanced past the snapshot"
  else None.

(** [recon.py]: the statuses that end an order. *)
Definition TERMINAL_ORDER_STATUSES : list OrderStatus := [FILLED; CANCELED; REJECTED; EXPIRED].

(** ** Facts about meaning *)

Lemma enum_int_py_int v z : enum_int v = Some z -> py_int v = Ok z.
Proof.
  destruct v as [| | n | f | s]; cbn [enum_int]; try done.
  - cbn. rewrite Z.eqb_refl. congruence.
  - destruct (py_int _) as [c|]; [|done]. destruct (f64_eq_Z f c); congruence.
  - cbn. by intros ->.
Qed.

Lemma enum_int_not_none v z : enum_int v = Some z -> is_none v = false.
Proof. by destruct v. Qed.

Lemma trusted_code z :
  z ∈ TRUSTWORTHY_PRICE_TYPES ->
  (exists t, RITHMIC_PRICE_TYPE_TO_ORDER_TYPE z = Some t) /\
  (exists t, RITHMIC_DURATION_TO_TIF z = Some t).
Proof.
  unfold TRUSTWORTHY_PRICE_TYPES. rewrite !elem_of_cons, elem_of_nil.
  intros [->|[->|[->|[->|[]]]]]; cbn; eauto.
Qed.

(** A trusted drain row never rests on a fallback: its side is known and
    its order type and time in force are the images of codes the venue sent,
    and these are exactly what the permissive builders report for the row. *)
Theorem trusted_row_terms (fields : pydict) :
  row_is_trustworthy fields = Ok true ->
  exists side pt du ty tif,
    order_side_from_notification fields = Ok (Some side) /\
    enum_int (dget fields "price_type") = Some pt /\
    RITHMIC_PRICE_TYPE_TO_ORDER_TYPE pt = Some ty /\
    order_type_from_fields fields = Ok ty /\
    enum_int (dget fields "duration") = Some du /\
    RITHMIC_DURATION_TO_TIF du = Some tif /\
    tif_from_fields fields = Ok tif.
Proof.
  unfold row_is_trustworthy, rs_row_is_trustworthy.
  destruct (order_side_from_notification fields) as [[side|]|]; cbn; try done.
  destruct (enum_int (dget fields "price_type")) as [pt|] eqn:Ep; [|done].
  destruct (enum_int (dget fields "duration")) as [du|] eqn:Ed; [|done].
  destruct (bool_decide (pt ∈ _)) eqn:Bp; [|done].
  destruct (bool_decide (du ∈ _)) eqn:Bd; [|done]. intros _.
  apply bool_decide_eq_true in Bp, Bd.
  destruct (trusted_code pt Bp) as [[ty Hty] _].
  destruct (trusted_code du Bd) as [_ [tif Htif]].
  exists side, pt, du, ty, tif. unfold order_type_from_fields, tif_from_fields.
  rewrite (enum_int_not_none _ _ Ep), (enum_int_not_none _ _ Ed).
  rewrite (enum_int_py_int _ _ Ep), (enum_int_py_int _ _ Ed). cbn. by rewrite Hty, Htif.
Qed.

Definition working_row : pydict :=
  dict_of [("transaction_type", VInt 1); ("price_type", VStr "3"); ("duration", VInt 2);
           ("status", VStr "open"); ("quantity", VInt 2); ("basket_id", VStr "B1")].

Lemma trusted_row_terms_witness :
  exists side pt du ty tif,
    order_side_from_notification working_row = Ok (Some side) /\
    enum_int (dget working_row "price_type") = Some pt /\
    RITHMIC_PRICE_TYPE_TO_ORDER_TYPE pt = Some ty /\
    order_type_from_fields working_row = Ok ty /\
    enum_int (dget working_row "duration") = Some du /\
    RITHMIC_DURATION_TO_TIF du = Some tif /\
    tif_from_fields working_row = Ok tif.
Proof. apply (trusted_row_terms working_row). vm_compute. reflexivity. Defined.

(** Evidence a row can give that its order has ended. *)
Definition terminal_evidence (fields : pydict) (st : OrderStatus) : Prop :=
  let kind := dget fields "kind" in
  let status_u := upper (str_or_empty (dget fields "status")) in
  match st with
  | FILLED =>
      kind = VStr "filled" \/
      exists q f, int_or_zero (dget fields "quantity") = Ok q /\
        int_or_zero (dget fields "total_fill_size") = Ok f /\ 0 < q <= f
  | REJECTED => kind = VStr "rejected" \/ contains "REJECT" status_u = true
  | CANCELED => kind = VStr "canceled" \/ status_u = "CANCELLED" \/ status_u = "CANCELED"
  | EXPIRED => kind = VStr "expired" \/ contains "EXPIRED" status_u = true
  | _ => True
  end.

(** Recon never invents an ending: the status derived from a row is
    terminal only on explicit evidence in that row, and a refused modify or
    cancel leaves the order working unless its quantity is filled. *)
Theorem terminal_status_has_evidence (fields : pydict) (st : OrderStatus) :
  order_status_from_fields fields = Ok st ->
  terminal_evidence fields st /\
  (is_str_in (dget fields "kind") ["modify_rejected"; "cancel_rejected"] = true ->
   st ∈ [FILLED; PARTIALLY_FILLED; ACCEPTED]).
Proof.
  unfold order_status_from_fields.
  destruct (catch _ _ _) as [[q f]|] eqn:E; [|done]. cbn [mbind res_bind].
  assert (Hq : 0 < q -> int_or_zero (dget fields "quantity") = Ok q /\
                        int_or_zero (dget fields "total_fill_size") = Ok f).
  { intros Hq. destruct (int_or_zero (dget fields "quantity")) as [q'|e]; cbn in E.
    - destruct (int_or_zero (dget fields "total_fill_size")) as [f'|e]; cbn in E.
      + by simplify_eq.
      + destruct (is_type_or_value_error e); simplify_eq; lia.
    - destruct (is_type_or_value_error e); simplify_eq; lia. }
  unfold terminal_evidence.
  destruct (is_str (dget fields "kind") "filled" || _) eqn:B1.
  { intros [= <-]. split; [|intros _; evaluate].
    apply orb_true_iff in B1 as [B|B]; [left; by apply is_str_true|right].
    exists q, f. assert (0 < q <= f) as H by lia. destruct Hq; [lia|done]. }
  destruct (is_str_in _ _) eqn:B2.
  { destruct (_ && _ && _); intros [= <-]; (split; [done|intros _; evaluate]). }
  intros H. cut (match st with
    | FILLED => False
    | REJECTED => dget fields "kind" = VStr "rejected" \/
        contains "REJECT" (upper (str_or_empty (dget fields "status"))) = true
    | CANCELED => dget fields "kind" = VStr "canceled" \/
        upper (str_or_empty (dget fields "status")) = "CANCELLED" \/
        upper (str_or_empty (dget fields "status")) = "CANCELED"
    | EXPIRED => dget fields "kind" = VStr "expired" \/
        contains "EXPIRED" (upper (str_or_empty (dget fields "status"))) = true
    | _ => True end); [by destruct st|].
  destruct (is_str _ "rejected" || _) eqn:B3.
  { injection H as <-. apply orb_true_iff in B3 as [B%is_str_true|B]; auto. }
  destruct (is_str _ "canceled" || _) eqn:B4.
  { injection H as <-. apply orb_true_iff in B4 as [B%is_str_true|B]; [by left|right].
    apply bool_decide_eq_true in B. rewrite !elem_of_cons, elem_of_nil in B. naive_solver. }
  destruct (is_str _ "expired" || _) eqn:B5.
  { injection H as <-. apply orb_true_iff in B5 as [B%is_str_true|B]; auto. }
  destruct (_ && _ && _) in H; [by simplify_eq|].
  destruct (is_str _ "triggered") in H; [|by simplify_eq].
  destruct (order_type_from_fields fields); [|done]. cbn in H.
  destruct (bool_decide _) in H; by simplify_eq.
Qed.

Lemma terminal_status_has_evidence_witness :
  order_status_from_fields (<["kind" := VStr "cancel_rejected"]> working_row) = Ok ACCEPTED /\
  ACCEPTED ∈ [FILLED; PARTIALLY_FILLED; ACCEPTED].
Proof.
  split; [reflexivity|].
  apply (terminal_status_has_evidence (<["kind" := VStr "cancel_rejected"]> working_row) ACCEPTED);
    reflexivity.
Defined.

(** The two authority models agree in one direction: a row suppressed in
    bulk recon is also suppressed at the re-arm barrier; bulk recon forwards
    every terminal row, and the barrier forwards no row for a closed order. *)
Theorem stale_reason_authority (closed non_terminal : bool) (row_ts ts_last : Z) :
  let bulk := stale_reason (MkStaleFacts closed false non_terminal row_ts ts_last) in
  let barrier := stale_reason (MkStaleFacts closed true non_terminal row_ts ts_last) in
  (bulk <> None -> barrier <> None) /\
  (bulk = None <-> closed = false \/ non_terminal = false) /\
  (barrier = None <-> closed = false /\ (row_ts = 0 \/ ts_last <= row_ts)).
Proof.
  unfold stale_reason; cbn. destruct closed, non_terminal; cbn; repeat split;
    try naive_solver;
    destruct (Z.eqb_spec row_ts 0), (Z.ltb_spec row_ts ts_last); cbn; try naive_solver; lia.
Qed.

(** ** Facts about the freshest row *)

(** Row [i] is the freshest of key [k]: newest time stamp, and the last to
    arrive among equals. *)
Definition freshest (rows : list (string * Z)) (k : string) (i : nat) : Prop :=
  exists ts, rows !! i = Some (k, ts) /\
    forall j ts', rows !! j = Some (k, ts') -> ts' < ts \/ ts' = ts /\ (j <= i)%nat.

Lemma freshest_unique rows k i i' : freshest rows k i -> freshest rows k i' -> i = i'.
Proof.
  intros (ts & Hi & Hmax) (ts' & Hi' & Hmax').
  destruct (Hmax _ _ Hi'), (Hmax' _ _ Hi); lia.
Qed.

(** The loop invariant: [pre] has been read. *)
Record freshest_inv (pre : list (string * Z)) (order : list string)
  (winner : gmap string nat) : Prop := {
  fi_nodup : NoDup order;
  fi_order k : k ∈ order <-> is_Some (winner !! k);
  fi_best k i : winner !! k = Some i -> freshest pre k i;
  fi_none k : winner !! k = None -> forall j ts, pre !! j <> Some (k, ts)
}.

Lemma lookup_snoc_inv {A} (l : list A) x j y :
  (l ++ [x]) !! j = Some y -> l !! j = Some y \/ (j = length l /\ y = x).
Proof.
  intros [H|[? H]]%lookup_app_Some; [by left|right].
  destruct (j - length l)%nat as [|n] eqn:E; simpl in H; [split; [lia|congruence]|done].
Qed.

Lemma freshest_other pre k k' ts i :
  k' <> k -> freshest pre k i -> freshest (pre ++ [(k', ts)]) k i.
Proof.
  intros Hk (t & Hi & Hmax). exists t. split; [by apply lookup_app_l_Some|].
  intros j t' [Hj|[_ Hj]]%lookup_snoc_inv; [by apply Hmax|congruence].
Qed.

Lemma freshest_last pre k ts :
  (forall j t, pre !! j = Some (k, t) -> t <= ts) ->
  freshest (pre ++ [(k, ts)]) k (length pre).
Proof.
  intros Hle. exists ts. split; [by rewrite lookup_app_r, Nat.sub_diag|].
  intros j t [Hj|[-> Hj]]%lookup_snoc_inv.
  - specialize (Hle _ _ Hj). apply lookup_lt_Some in Hj. lia.
  - injection Hj as ->. right. lia.
Qed.

Lemma freshest_keep pre k ts t i :
  pre !! i = Some (k, t) -> ts < t -> freshest pre k i -> freshest (pre ++ [(k, ts)]) k i.
Proof.
  intros Hp Hlt (t0 & Hi & Hmax). assert (t0 = t) as -> by congruence.
  exists t. split; [by apply lookup_app_l_Some|].
  intros j t' [Hj|[_ Hj]]%lookup_snoc_inv; [by apply Hmax|]. injection Hj as ->. by left.
Qed.

Lemma freshest_inv_new pre order winner key ts :
  winner !! key = None -> freshest_inv pre order winner ->
  freshest_inv (pre ++ [(key, ts)]) (order ++ [key]) (<[key := length pre]> winner).
Proof.
  intros Hw [Hnd Ho Hb Hn]. split.
  - apply NoDup_app. split; [done|]. split; [|apply NoDup_singleton].
    intros x Hx%Ho Heq%list_elem_of_singleton. subst. rewrite Hw in Hx. by destruct Hx.
  - intros k. rewrite elem_of_app, Ho, list_elem_of_singleton.
    destruct (decide (k = key)) as [->|Hk]; simplify_map_eq; [|naive_solver].
    split; eauto.
  - intros k i. destruct (decide (k = key)) as [->|Hk]; simplify_map_eq.
    + intros [= <-]. apply freshest_last. intros j t Hj. by destruct (Hn key Hw j t).
    + intros Hi. apply freshest_other; [congruence|auto].
  - intros k. destruct (decide (k = key)) as [->|Hk]; simplify_map_eq; [done|].
    intros Hwk j t [Hj|[_ Hj]]%lookup_snoc_inv; [by eapply Hn|congruence].
Qed.

Lemma freshest_inv_seen pre order winner winner' key ts c :
  winner !! key = Some c ->
  winner' = winner \/ winner' = <[key := length pre]> winner ->
  (forall i, winner' !! key = Some i -> freshest (pre ++ [(key, ts)]) key i) ->
  freshest_inv pre order winner -> freshest_inv (pre ++ [(key, ts)]) order winner'.
Proof.
  intros Hw Hw' Hkey [Hnd Ho Hb Hn]. split; [done|..].
  - intros k. rewrite Ho. destruct Hw' as [->| ->]; [done|].
    destruct (decide (k = key)) as [->|Hk]; simplify_map_eq; [|done]. split; eauto.
  - intros k i. destruct (decide (k = key)) as [->|Hk]; [auto|].
    intros Hi. apply freshest_other; [congruence|]. apply Hb.
    destruct Hw' as [->| ->]; by simplify_map_eq.
  - intros k Hk j t [Hj|[_ Hj]]%lookup_snoc_inv.
    + revert Hj. apply Hn. destruct Hw' as [->| ->]; [done|].
      destruct (decide (k = key)) as [->|?]; by simplify_map_eq.
    + injection Hj as -> ->. destruct Hw' as [->| ->]; by simplify_map_eq.
Qed.

Lemma freshest_loop_inv rows rest : forall pre order winner,
  rows = pre ++ rest -> freshest_inv pre order winner ->
  let '(order', winner') := freshest_loop rows rest (length pre) order winner in
  freshest_inv rows order' winner'.
Proof.
  induction rest as [|[key ts] rest IH]; intros pre order winner -> Hinv; simpl.
  { by rewrite app_nil_r. }
  assert (Hsnoc : pre ++ (key, ts) :: rest = (pre ++ [(key, ts)]) ++ rest)
    by (by rewrite <- app_assoc).
  assert (Hlen : S (length pre) = length (pre ++ [(key, ts)])) by (rewrite length_app; simpl; lia).
  rewrite Hlen. destruct (winner !! key) as [c|] eqn:Hw.
  2: { apply IH; [done|]. by apply freshest_inv_new. }
  destruct (fi_best _ _ _ Hinv key c Hw) as (t & Hc & Hmax).
  rewrite (lookup_app_l_Some _ _ _ _ Hc). simpl.
  destruct (Z.leb_spec t ts); apply IH; try done.
  - eapply freshest_inv_seen; eauto. intros i [= <-]%lookup_insert_rev.
    apply freshest_last. intros j t' Hj. destruct (Hmax _ _ Hj); lia.
  - eapply freshest_inv_seen; eauto. intros i Hi. assert (i = c) as -> by congruence.
    eapply freshest_keep; eauto. by exists t.
Qed.

Lemma freshest_per_key_spec (rows : list (string * Z)) :
  NoDup (freshest_per_key rows) /\
  forall i, i ∈ freshest_per_key rows <-> exists k, freshest rows k i.
Proof.
  unfold freshest_per_key.
  pose proof (freshest_loop_inv rows rows [] [] ∅ eq_refl) as H.
  revert H. change (length []) with 0%nat.
  destruct (freshest_loop rows rows 0 [] ∅) as [order winner]. intros H.
  destruct H as [Hnd Ho Hb Hn].
  { split; [constructor|..]; intros; rewrite ?lookup_empty in *; try done.
    rewrite elem_of_nil. split; [done|]. by intros []. }
  split.
  - clear Ho Hn. induction Hnd as [|k order Hk Hnd IH]; simpl; [constructor|].
    destruct (winner !! k) as [i|] eqn:E; [|done]. constructor; [|done].
    intros (k' & Hk' & E')%list_elem_of_omap.
    destruct (Hb _ _ E) as (t & Hi & _), (Hb _ _ E') as (t' & Hi' & _). congruence.
  - intros i. rewrite list_elem_of_omap. split; [intros (k & _ & E); eauto|].
    intros [k Hf]. exists k. destruct (winner !! k) as [i'|] eqn:E.
    + rewrite (freshest_unique _ _ _ _ Hf (Hb _ _ E)). split; [apply Ho; eauto|done].
    + destruct Hf as (t & Hi & _). by destruct (Hn _ E _ _ Hi).
Qed.

(** The drain keeps exactly one row per order, the freshest: the indices
    returned are distinct, and an index is returned exactly when its row has
    the newest time stamp of its key, the last arrival winning a tie. *)
Theorem freshest_per_key_correct (rows : list (string * Z)) :
  NoDup (freshest_per_key rows) /\
  forall i, i ∈ freshest_per_key rows <-> exists k, freshest rows k i.
Proof. apply freshest_per_key_spec. Qed.

(** The side goes through [int]: a boolean [transaction_type] counts as a side,
    so such a row is trusted. *)
Definition boolean_side_row : pydict :=
  dict_of [("transaction_type", VBool true); ("price_type", VInt 1); ("duration", VInt 2);
           ("kind", VStr "accepted"); ("status", VStr "open")].

Lemma boolean_side_is_trusted : row_is_trustworthy boolean_side_row = Ok true.
Proof. vm_compute. reflexivity. Qed.
