(* ===== verification/Commission.v ===== *)
(** * Venue commission rates

    [CommissionTable] of [crates/rithmic-exec/src/commission.rs] and the
    [CommissionRegistry] of [commission.py] over it.  Rates stay decimal text in
    the table; the multiplication is exact decimal arithmetic (a rate of at
    most 17 digits times a contract count is far below the 28 digits of the
    default context). *)

From Stdlib Require Import Ascii String.
From stdpp Require Import base gmap strings list.
From Stdlib Require Import ZArith Lia.
From S2P Require Import Prelude PyVal Nautilus.
Import Text.
Open Scope string_scope.
Open Scope list_scope.
Open Scope Z_scope.

(** ** [commission.rs] *)

Record CommissionTable := MkTable {
  ct_rates : gmap string string;
  ct_default : option string
}.

Definition ct_new : CommissionTable := MkTable ∅ None.

Definition product_row (row : option string * option string) : option (string * string) :=
  match row with
  | (Some code, Some rate) =>
      if nonempty code && nonempty rate then Some (code, rate) else None
  | _ => None
  end.

(** Collecting into the map: a later row of the same code wins. *)
Definition load_products (rows : list (option string * option string)) (t : CommissionTable)
  : CommissionTable :=
  MkTable (list_to_map (reverse (omap product_row rows))) (ct_default t).

Definition load_account_default (rows : list (string * option string))
  (active : option string) (t : CommissionTable) : CommissionTable :=
  let ok (row : string * option string) :=
    match row.2 with
    | Some _ => match active with
                | None => true
                | Some a => bool_decide (row.1 = a)
                end
    | None => false
    end in
  MkTable (ct_rates t) (List.find ok rows ≫= snd).

Definition set_rates (rates : gmap string string) (t : CommissionTable) : CommissionTable :=
  MkTable rates (ct_default t).
Definition set_default (d : option string) (t : CommissionTable) : CommissionTable :=
  MkTable (ct_rates t) d.

Definition rate_for (product_code : option string) (t : CommissionTable) : option string :=
  match product_code ≫= (fun code => ct_rates t !! code) with
  | Some r => Some r
  | None => ct_default t
  end.

(** ** [commission.py] *)

Definition invalid_operation : exn := Exn ExOther None "decimal.InvalidOperation".

Definition py_decimal (text : string) : res pydecimal :=
  match dec_of_str text with Some d => Ok d | None => Raise invalid_operation end.

(** [_text]. *)
Definition text_of (v : pyval) : option string :=
  match v with VNone => None | _ => Some (py_str v) end.

(** [load]: the two fetches are independent; each is the session's answer.  A
    failed fetch counts as no rows. *)
Definition load_product_step (product_rows : res (list pydict)) (t : CommissionTable)
  : CommissionTable :=
  let rows := match product_rows with Ok l => l | Raise _ => [] end in
  load_products
    ((fun row => (text_of (dget row "product_code"),
                  text_of (dget row "commission_fill_rate"))) <$> rows) t.

Definition load_account_step (account_rows : res (list pydict)) (active_account : option string)
  (t : CommissionTable) : CommissionTable :=
  let rows := match account_rows with Ok l => l | Raise _ => [] end in
  load_account_default
    ((fun row => (py_str (dget row "account_id"),
                  text_of (dget row "default_commission"))) <$> rows) active_account t.

Definition load (product_rows account_rows : res (list pydict)) (active_account : option string)
  (t : CommissionTable) : CommissionTable :=
  load_account_step account_rows active_account (load_product_step product_rows t).

(** [instrument.info] is a dictionary (empty when absent). *)
Definition product_code_for_fill {C} `{CacheOps C} (cache : C) (instrument_id : option string)
  (symbol : option string) : option string :=
  match instrument_id ≫= cache_instrument cache with
  | Some instrument =>
      let code := dget (i_info instrument) "rithmic_product_code" in
      if truthy code then Some (py_str code) else symbol
  | None => symbol
  end.

(** The amount of [Money], in US dollars. *)
Definition commission_money (product_code : option string) (qty : Z) (t : CommissionTable)
  : res pydecimal :=
  rate ← match rate_for product_code t with
         | Some text => py_decimal text
         | None => Ok (DFinite (Dec 0 0))
         end;
  Ok (match rate with
      | DFinite d => DFinite (Dec (d_coef d * qty) (d_exp d))
      | DSpecial => DSpecial
      end).

(** ** Facts *)

Lemma list_to_map_reverse_last (l : list (string * string)) k :
  (list_to_map (reverse l) : gmap string string) !! k =
  snd <$> last (List.filter (fun p => bool_decide (p.1 = k)) l).
Proof.
  induction l as [|[k' v'] l IH] using rev_ind; [done|].
  rewrite reverse_app, List.filter_app. simpl.
  destruct (decide (k' = k)) as [->|Hk].
  - rewrite bool_decide_eq_true_2 by done. rewrite last_snoc. by simplify_map_eq.
  - rewrite bool_decide_eq_false_2, app_nil_r by done. rewrite lookup_insert_ne by done. done.
Qed.

(** Which rate a fill is charged: the last usable RMS row of its product
    code, and only without one the account default the same load left.  Loading
    never depends on what the table held before, and a failed account fetch does
    not clear the product rates. *)
Theorem commission_rate_rule (prow : list pydict) (arow : res (list pydict))
  (active : option string) (t : CommissionTable) (code : string) :
  let usable row := product_row
        (text_of (dget row "product_code"), text_of (dget row "commission_fill_rate")) in
  let own := snd <$> last (List.filter (fun p => bool_decide (p.1 = code)) (omap usable prow)) in
  let t' := load (Ok prow) arow active t in
  rate_for (Some code) t' =
    match own with Some r => Some r | None => ct_default t' end /\
  t' = load (Ok prow) arow active ct_new /\
  ct_rates (load (Ok prow) (Raise invalid_operation) active t) = ct_rates t'.
Proof.
  intros usable own t'. split; [|split; done].
  unfold rate_for, t', load. simpl. rewrite list_to_map_reverse_last.
  assert (E : forall l : list pydict, omap product_row
    ((fun row => (text_of (dget row "product_code"),
       text_of (dget row "commission_fill_rate"))) <$> l) = omap usable l).
  { intros l. induction l as [|r l IH]; [done|]. csimpl. rewrite IH. done. }
  unfold own. rewrite E. done.
Qed.
