(* ===== verification/Inventory.v ===== *)
(** * Venue inventory without a node

    [inventory.py] with the rules of [crates/rithmic-exec/src/inventory.rs]:
    order and PnL events are reduced into working baskets and net positions.
    [Inventory] has the fields of the Python class; a method is a state
    transformer that may raise ([M]).  Monotonic times are binary64 seconds, as
    in the source.  The session's pollers are a list of what each poll
    returned. *)

From Stdlib Require Import Ascii String.
From stdpp Require Import base gmap strings list sorting.
From Stdlib Require Import ZArith Lia.
From Corelib Require Import SpecFloat.
From S2P Require Import Prelude PyVal Ident Nautilus Orders OrderRows.
Import Text.
Open Scope string_scope.
Open Scope list_scope.
Open Scope Z_scope.

(** ** [inventory.rs] *)

Inductive StatusClass := Working | Filled | OtherTerminal.

Definition order_is_gone (class : StatusClass) (unfilled quantity total_fill : option Z) : bool :=
  match class with
  | Working => false
  | OtherTerminal => true
  | Filled =>
      match unfilled with
      | Some u => u <=? 0
      | None =>
          match quantity, total_fill with
          | Some q, Some f => (0 <? q) && (q <=? f)
          | _, _ => false
          end
      end
  end.

Inductive PositionChange := Unknown | Flat | Net (n : Z).

Definition position_change (net : option Z) : PositionChange :=
  match net with
  | None => Unknown
  | Some n => if n =? 0 then Flat else Net n
  end.

Definition f64_sub (a b : f64) : f64 := SFsub prec64 emax64 a b.

Definition rs_pnl_live (first_seen_s observed_until_s : option f64) (any_unreadable : bool)
  (settle_s : f64) : bool :=
  match first_seen_s, observed_until_s with
  | Some first, Some until =>
      if any_unreadable then false else SFleb settle_s (f64_sub until first)
  | _, _ => false
  end.

Definition side_from_txn (code : option Z) (text : string) : option string :=
  let by_text :=
    let t := upper (trim text) in
    if bool_decide (t ∈ ["BUY"; "B"; "1"]) then Some "BUY"
    else if bool_decide (t ∈ ["SELL"; "S"; "2"]) then Some "SELL" else None in
  match code with
  | Some n => if n =? 1 then Some "BUY" else if n =? 2 then Some "SELL" else by_text
  | None => by_text
  end.

Definition flatten_side (net : Z) : string := if 0 <? net then "SELL" else "BUY".

(** ** [inventory.py] *)

(** 3 seconds. *)
Definition PNL_SETTLE_S : f64 := f64_of_decimal false 3 0.

Definition as_int (raw : pyval) : res (option Z) :=
  if is_none raw || is_str raw "" then Ok None
  else catch is_type_or_value_error
         (z ← py_int (VStr (py_str raw)); Ok (Some z))
         (fun _ => catch is_type_or_value_error
            (f ← py_float (VStr (py_str raw)); z ← Z_of_f64 f; Ok (Some z))
            (fun _ => Ok None)).

Definition as_float (raw : pyval) : option f64 :=
  if is_none raw || is_str raw "" then None
  else match py_float (VStr (py_str raw)) with Ok f => Some f | Raise _ => None end.

Definition side_of_txn (raw : pyval) : res (option string) :=
  n ← as_int raw; Ok (side_from_txn n (str_or_empty raw)).

Record WorkingOrder := MkWorking {
  w_basket_id : string;
  w_symbol : string;
  w_exchange : string;
  w_side : option string;
  w_qty : option Z;
  w_unfilled : option Z;
  w_status : option string;
  w_kind : option string;
  w_user_tag : option string;
  w_price : option f64
}.

Record OpenPosition := MkOpen { op_symbol : string; op_exchange : string; op_net_qty : Z }.

(** The exported row: the side and size of the order that would flatten. *)
Definition open_position_as_dict (p : OpenPosition) : pydict :=
  dict_of [("symbol", VStr (op_symbol p)); ("exchange", VStr (op_exchange p));
           ("net_qty", VInt (op_net_qty p));
           ("flatten_side", VStr (flatten_side (op_net_qty p)));
           ("flatten_qty", VInt (Z.abs (op_net_qty p)))].

Definition opt_f64 (o : option f64) : pyval :=
  match o with Some f => VFloat f | None => VNone end.

Definition working_as_dict (w : WorkingOrder) : pydict :=
  dict_of [("basket_id", VStr (w_basket_id w)); ("symbol", VStr (w_symbol w));
           ("exchange", VStr (w_exchange w)); ("side", opt_str (w_side w));
           ("qty", opt_int_val (w_qty w)); ("unfilled", opt_int_val (w_unfilled w));
           ("status", opt_str (w_status w)); ("kind", opt_str (w_kind w));
           ("user_tag", opt_str (w_user_tag w)); ("price", opt_f64 (w_price w))].

Record Inventory := MkInv {
  inv_orders : gmap string WorkingOrder;
  inv_positions : gmap string OpenPosition;
  inv_pnl_events : Z;
  inv_pnl_first_s : option f64;
  inv_observed_until_s : option f64;
  inv_done_baskets : gset string;
  inv_unknown_positions : gset string
}.

Definition inventory_init : Inventory := MkInv ∅ ∅ 0 None None ∅ ∅.

Definition set_orders o (i : Inventory) : Inventory :=
  MkInv o (inv_positions i) (inv_pnl_events i) (inv_pnl_first_s i) (inv_observed_until_s i)
        (inv_done_baskets i) (inv_unknown_positions i).
Definition set_positions p u (i : Inventory) : Inventory :=
  MkInv (inv_orders i) p (inv_pnl_events i) (inv_pnl_first_s i) (inv_observed_until_s i)
        (inv_done_baskets i) u.
Definition mark_observed (now_s : f64) (i : Inventory) : Inventory :=
  MkInv (inv_orders i) (inv_positions i) (inv_pnl_events i) (inv_pnl_first_s i) (Some now_s)
        (inv_done_baskets i) (inv_unknown_positions i).

Definition pnl_live (i : Inventory) : bool :=
  rs_pnl_live (inv_pnl_first_s i) (inv_observed_until_s i)
    (negb (bool_decide (inv_unknown_positions i = ∅))) PNL_SETTLE_S.

Definition is_gone (fields : pydict) (unfilled : option Z) : res bool :=
  status ← order_status_from_fields fields;
  let class :=
    if negb (bool_decide (status ∈ TERMINAL_ORDER_STATUSES)) then Working
    else if bool_decide (status = FILLED) then Filled else OtherTerminal in
  quantity ← as_int (dget fields "quantity");
  total ← as_int (dget fields "total_fill_size");
  Ok (order_is_gone class unfilled quantity total).

(** The working order an event describes, over the previous one. *)
Definition merged_order (event : pydict) (basket symbol : string) (kind : pyval)
  (status : option string) (unfilled : option Z) (prev : option WorkingOrder)
  : res WorkingOrder :=
  let exchange :=
    py_str (por (por (dget event "exchange")
                     (VStr (match prev with Some p => w_exchange p | None => "CME" end)))
                (VStr "CME")) in
  side0 ← side_of_txn (dget event "transaction_type");
  let side := match side0 with Some s => Some s | None => prev ≫= w_side end in
  qty0 ← as_int (dget event "quantity");
  let qty := match qty0 with Some q => Some q | None => prev ≫= w_qty end in
  let unfilled' := match unfilled with Some u => Some u | None => prev ≫= w_unfilled end in
  Ok (MkWorking basket symbol exchange side qty unfilled' status
    (if is_none kind then prev ≫= w_kind else Some (py_str kind))
    (if is_none (dget event "user_tag") then prev ≫= w_user_tag
     else Some (py_str (dget event "user_tag")))
    (if is_none (dget event "price") then prev ≫= w_price
     else as_float (dget event "price"))).

Definition ingest_order (event : pydict) : M Inventory unit :=
  inv ← get;
  let basket := strip (str_or_empty (dget event "basket_id")) in
  if negb (nonempty basket) || bool_decide (basket ∈ inv_done_baskets inv) then mret tt
  else
    let fields :=
      match order_notification_to_fields event with Ok f => Some f | Raise _ => None end in
    let kind := match fields with Some f => dget f "kind" | None => dget event "kind" end in
    let status_u := upper (str_or_empty (dget event "status")) in
    let status := if nonempty status_u then Some status_u else None in
    unfilled ← lift (as_int (dget event "total_unfilled_size"));
    gone ← lift (match fields with Some f => is_gone f unfilled | None => Ok false end);
    if (gone : bool) then
      put (MkInv (delete basket (inv_orders inv)) (inv_positions inv) (inv_pnl_events inv)
             (inv_pnl_first_s inv) (inv_observed_until_s inv)
             ({[basket]} ∪ inv_done_baskets inv) (inv_unknown_positions inv))
    else
      let prev := inv_orders inv !! basket in
      let symbol := strip (py_str (por (dget event "symbol")
        (VStr (match prev with Some p => w_symbol p | None => "" end)))) in
      if negb (nonempty symbol) then mret tt
      else
        order ← lift (merged_order event basket symbol kind status unfilled prev);
        put (set_orders (<[basket := order]> (inv_orders inv)) inv).

Definition ingest_position (event : pydict) : M Inventory unit :=
  inv ← get;
  let symbol := strip (str_or_empty (dget event "symbol")) in
  if negb (nonempty symbol) then mret tt
  else
    let exchange := py_str (por (dget event "exchange") (VStr "CME")) in
    let key := symbol +:+ "." +:+ exchange in
    net ← lift (as_int (dget event "net_quantity"));
    match position_change net with
    | Unknown =>
        put (set_positions (delete key (inv_positions inv))
               ({[key]} ∪ inv_unknown_positions inv) inv)
    | Flat =>
        put (set_positions (delete key (inv_positions inv))
               (inv_unknown_positions inv ∖ {[key]}) inv)
    | Net n =>
        put (set_positions (<[key := MkOpen symbol exchange n]> (inv_positions inv))
               (inv_unknown_positions inv ∖ {[key]}) inv)
    end.

(** [max(now, observed or now)]. *)
Definition f64_max_or (now : f64) (observed : option f64) : f64 :=
  let o := match observed with
           | Some f => if truthy (VFloat f) then f else now
           | None => now
           end in
  if SFltb now o then o else now.

Definition note_pnl (now : f64) (inv : Inventory) : Inventory :=
  mark_observed (f64_max_or now (inv_observed_until_s inv))
    (MkInv (inv_orders inv) (inv_positions inv) (inv_pnl_events inv + 1)
       (match inv_pnl_first_s inv with Some f => Some f | None => Some now end)
       (inv_observed_until_s inv) (inv_done_baskets inv) (inv_unknown_positions inv)).

Definition ingest (event : pydict) (now : f64) : M Inventory unit :=
  let etype := str_or_empty (dget event "type") in
  let from_order_stream :=
    bool_decide (etype = "order_notification")
    && is_str_in (dget event "source") ["rithmic"; "exchange"] in
  if bool_decide (etype ∈ [""; "order_notification"])
     && (truthy (dget event "basket_id") || from_order_stream)
  then ingest_order event
  else
    whenM (bool_decide (etype ∈ ["account_pnl"; "instrument_pnl"])) (modify (note_pnl now)) ;;
    whenM (bool_decide (etype = "instrument_pnl")) (ingest_position event).

Definition str_le (a b : string) : Prop := String.leb a b = true.
#[export] Instance str_le_dec : RelDecision str_le.
Proof. intros a b. unfold str_le. apply _. Defined.

Definition working (i : Inventory) : list WorkingOrder :=
  omap (fun k => inv_orders i !! k) (merge_sort str_le (elements (dom (inv_orders i)))).
Definition positions (i : Inventory) : list OpenPosition :=
  omap (fun k => inv_positions i !! k) (merge_sort str_le (elements (dom (inv_positions i)))).

(** One round of [poll_into]: what the two pollers returned, with the clock
    read by [ingest] for each, and the clock read at the end of the round. *)
Record poll_round := MkRound {
  pr_order : option (pydict * f64);
  pr_pnl : option (pydict * f64);
  pr_end : f64
}.

Definition ingest_opt (e : option (pydict * f64)) : M Inventory Z :=
  match e with
  | Some (ev, now) => ingest ev now ;; mret 1
  | None => mret 0
  end.

Fixpoint poll_into (rounds : list poll_round) (seen : Z) : M Inventory Z :=
  match rounds with
  | [] => mret seen
  | r :: rounds' =>
      a ← ingest_opt (pr_order r);
      b ← ingest_opt (pr_pnl r);
      modify (mark_observed (pr_end r)) ;;
      poll_into rounds' (seen + a + b)
  end.

(** [venue_inventory_snapshot]: the session's answers are arguments. *)
Definition venue_inventory_snapshot (subscribe_orders : res unit)
  (load_orders : res (list (pydict * f64))) (subscribe_pnl : res unit)
  (rounds : list poll_round) : res Inventory :=
  _ ← subscribe_orders;
  rows ← load_orders;
  let '(r, inv) := forM_ rows (fun '(ev, now) => ingest ev now) inventory_init in
  _ ← r;
  _ ← subscribe_pnl;
  let '(r2, inv2) := poll_into rounds 0 inv in
  _ ← r2;
  Ok inv2.

(** ** Facts *)

Definition ingest_all (events : list (pydict * f64)) : M Inventory unit :=
  forM_ events (fun '(ev, now) => ingest ev now).

Lemma ingest_all_cons ev now events inv :
  ingest_all ((ev, now) :: events) inv =
  match ingest ev now inv with
  | (Ok _, inv') => ingest_all events inv'
  | (Raise e, inv') => (Raise e, inv')
  end.
Proof. reflexivity. Qed.

(** *** Finished baskets *)

(** A finished basket is not working, and stays finished. *)
Definition stays_done (i j : Inventory) : Prop :=
  forall b, b ∈ inv_done_baskets i -> inv_orders i !! b = None ->
  b ∈ inv_done_baskets j /\ inv_orders j !! b = None.

#[export] Instance stays_done_preorder : PreOrder stays_done.
Proof. split; [done|]. intros i j k Hij Hjk b Hd Ho. destruct (Hij b Hd Ho). by apply Hjk. Qed.

Lemma stays_done_frame f :
  (forall i, inv_orders (f i) = inv_orders i /\ inv_done_baskets (f i) = inv_done_baskets i) ->
  forall i, stays_done i (f i).
Proof. intros H i b. by destruct (H i) as [-> ->]. Qed.

Definition basket_of (ev : pydict) : string := strip (str_or_empty (dget ev "basket_id")).

(** The three things an order row can do. *)
Definition row_dropped (ev : pydict) (i j : Inventory) : Prop :=
  exists f u, order_notification_to_fields ev = Ok f /\
    as_int (dget ev "total_unfilled_size") = Ok u /\ is_gone f u = Ok true /\
    inv_orders j = delete (basket_of ev) (inv_orders i) /\
    inv_done_baskets j = {[basket_of ev]} ∪ inv_done_baskets i.

Definition row_stored (ev : pydict) (i j : Inventory) : Prop :=
  exists w, (basket_of ev ∉ inv_done_baskets i) /\
    inv_orders j = <[basket_of ev := w]> (inv_orders i) /\
    inv_done_baskets j = inv_done_baskets i.

Local Ltac unchanged := do 2 (split; [done|]); by left.

Lemma ingest_order_cases ev i :
  let j := (ingest_order ev i).2 in
  inv_positions j = inv_positions i /\
  inv_unknown_positions j = inv_unknown_positions i /\
  (j = i \/ row_dropped ev i j \/ row_stored ev i j).
Proof.
  unfold ingest_order. run_monad. fold (basket_of ev).
  destruct (negb (nonempty (basket_of ev)) || _) eqn:B; [unchanged|].
  apply orb_false_iff in B as [_ Hnd%bool_decide_eq_false].
  destruct (as_int (dget ev "total_unfilled_size")) as [u|] eqn:Eu; [|unchanged].
  destruct (order_notification_to_fields ev) as [f|] eqn:Ef;
    [destruct (is_gone f u) as [[]|] eqn:Eg|]; [| |unchanged|].
  - do 2 (split; [done|]). right; left. by exists f, u.
  - destruct (negb _); [unchanged|]. destruct (merged_order _ _ _ _ _ _ _); [|unchanged].
    do 2 (split; [done|]). right; right. by eexists.
  - destruct (negb _); [unchanged|]. destruct (merged_order _ _ _ _ _ _ _); [|unchanged].
    do 2 (split; [done|]). right; right. by eexists.
Qed.

Lemma ingest_order_stays_done ev : preserves stays_done (ingest_order ev).
Proof.
  intros i b Hd Ho.
  destruct (ingest_order_cases ev i)
    as (_ & _ & [->|[(f & u & _ & _ & _ & -> & ->)|(w & Hn & -> & ->)]]); [done|..].
  - split; [set_solver|]. rewrite lookup_delete_None. by right.
  - split; [done|]. rewrite lookup_insert_ne; [done|]. by intros <-.
Qed.

Lemma ingest_position_frame ev i :
  let j := (ingest_position ev i).2 in
  inv_orders j = inv_orders i /\ inv_done_baskets j = inv_done_baskets i.
Proof.
  unfold ingest_position. run_monad. destruct (negb _); [done|].
  destruct (as_int _) as [net|]; [|done]. by destruct (position_change net).
Qed.

Lemma ingest_stays_done ev now : preserves stays_done (ingest ev now).
Proof.
  unfold ingest. destruct (_ && _); [apply ingest_order_stays_done|].
  apply preserves_bind; [apply _| |intros _]; apply preserves_when; try apply _.
  - apply preserves_modify. by apply stays_done_frame.
  - intros i b. by destruct (ingest_position_frame ev i) as [-> ->].
Qed.

Lemma ingest_all_stays_done events : preserves stays_done (ingest_all events).
Proof.
  apply preserves_forM; [apply _|]. intros [ev now] _. apply ingest_stays_done.
Qed.

(** The reachable invariant: no finished basket is working. *)
Definition done_not_working (i : Inventory) : Prop :=
  forall b, b ∈ inv_done_baskets i -> inv_orders i !! b = None.

Lemma ingest_order_done ev i :
  done_not_working i -> done_not_working (ingest_order ev i).2.
Proof.
  intros Hi b. unfold done_not_working in Hi.
  destruct (ingest_order_cases ev i)
    as (_ & _ & [->|[(f & u & _ & _ & _ & -> & ->)|(w & Hn & -> & ->)]]); [auto|..].
  - rewrite elem_of_union, elem_of_singleton, lookup_delete_None. naive_solver.
  - intros Hd. rewrite lookup_insert_ne; [by apply Hi|]. by intros <-.
Qed.

Lemma ingest_all_done events : done_not_working (ingest_all events inventory_init).2.
Proof.
  cut (preserves (fun i j => done_not_working i -> done_not_working j) (ingest_all events)).
  { intros H. by apply H. }
  assert (PreOrder (fun i j : Inventory => done_not_working i -> done_not_working j)) by firstorder.
  apply preserves_forM; [done|]. intros [ev now] _. unfold ingest.
  destruct (_ && _); [intros i; apply ingest_order_done|].
  apply preserves_bind; [done| |intros _]; apply preserves_when; [done| |done|].
  - by intros i Hi.
  - intros i Hi b. destruct (ingest_position_frame ev i) as [-> ->]. apply Hi.
Qed.

(** A finished basket is never resurrected: once the venue has ended an
    order, no later row (a bare COMPLETE, a replayed snapshot) brings it back
    into the working set. *)
Theorem finished_basket_stays_out (before after : list (pydict * f64)) (b : string) :
  b ∈ inv_done_baskets (ingest_all before inventory_init).2 ->
  inv_orders (ingest_all after (ingest_all before inventory_init).2).2 !! b = None.
Proof.
  intros Hb. apply (ingest_all_stays_done after); [done|]. by apply ingest_all_done.
Qed.

Definition t0 : f64 := f64_of_decimal false 100 0.

Definition order_event (basket kind : string) (extra : list (string * pyval)) : pydict :=
  dict_of ([("type", VStr "order_notification"); ("source", VStr "rithmic");
            ("basket_id", VStr basket); ("symbol", VStr "MNQZ6"); ("exchange", VStr "CME");
            ("kind", VStr kind)] ++ extra).

Lemma finished_basket_stays_out_witness :
  inv_orders (ingest_all [(order_event "B1" "accepted" [], t0)]
    (ingest_all [(order_event "B1" "accepted" [], t0); (order_event "B1" "canceled" [], t0)]
       inventory_init).2).2 !! "B1" = None.
Proof. apply finished_basket_stays_out. evaluate. Defined.

(** A fill is provably complete. *)
Definition fill_complete (f : pydict) (u : option Z) : Prop :=
  match u with
  | Some n => n <= 0
  | None => exists q t, as_int (dget f "quantity") = Ok (Some q) /\
      as_int (dget f "total_fill_size") = Ok (Some t) /\ 0 < q <= t
  end.

Lemma is_gone_true f u : is_gone f u = Ok true ->
  exists st, order_status_from_fields f = Ok st /\ st ∈ TERMINAL_ORDER_STATUSES /\
    (st = FILLED -> fill_complete f u).
Proof.
  unfold is_gone. destruct (order_status_from_fields f) as [st|]; [|done]. cbn [mbind res_bind].
  destruct (as_int (dget f "quantity")) as [q|] eqn:Eq; [|done]. cbn [mbind res_bind].
  destruct (as_int (dget f "total_fill_size")) as [t|] eqn:Et; [|done]. cbn [mbind res_bind].
  intros [= H]. exists st. split; [done|].
  destruct (bool_decide (st ∈ TERMINAL_ORDER_STATUSES)) eqn:B; [|done].
  apply bool_decide_eq_true in B. split; [done|]. intros ->.
  rewrite bool_decide_eq_true_2 in H by done. cbn in H. unfold fill_complete.
  destruct u as [n|]; [lia|]. destruct q as [q|], t as [t|]; try done.
  exists q, t. split; [done|]. split; [done|]. lia.
Qed.

(** An order leaves the working set only on proof: if a basket was
    working before an event and is not after it, the event is a readable
    notification of that basket whose status is terminal, and a fill that
    removes it is complete (nothing unfilled, or filled in total). *)
Theorem order_leaves_only_on_proof (ev : pydict) (now : f64) (i : Inventory) (b : string) :
  is_Some (inv_orders i !! b) -> inv_orders (ingest ev now i).2 !! b = None ->
  b = basket_of ev /\
  exists f u st, order_notification_to_fields ev = Ok f /\
    as_int (dget ev "total_unfilled_size") = Ok u /\
    order_status_from_fields f = Ok st /\ st ∈ TERMINAL_ORDER_STATUSES /\
    (st = FILLED -> fill_complete f u).
Proof.
  intros Hs. unfold ingest. destruct (_ && _).
  - destruct (ingest_order_cases ev i)
      as (_ & _ & [->|[(f & u & Hf & Hu & Hg & -> & _)|(w & Hn & -> & _)]]).
    + intros H. rewrite H in Hs. by destruct Hs.
    + intros [Hb|Hb]%lookup_delete_None; [|rewrite Hb in Hs; by destruct Hs].
      split; [done|]. destruct (is_gone_true f u Hg) as (st & ? & ? & ?). by exists f, u, st.
    + intros [Hb _]%lookup_insert_None. rewrite Hb in Hs. by destruct Hs.
  - intros H. exfalso. cut (inv_orders i !! b = None); [intros E; rewrite E in Hs; by destruct Hs|].
    revert H. unfold whenM. repeat case_bool_decide; try done;
      destruct (ingest_position_frame ev (note_pnl now i)) as [E1 _];
      destruct (ingest_position_frame ev i) as [E2 _]; simpl in E1, E2.
    + change (inv_orders (ingest_position ev (note_pnl now i)).2 !! b = None -> inv_orders i !! b = None).
      by rewrite E1.
    + change (inv_orders (ingest_position ev i).2 !! b = None -> inv_orders i !! b = None).
      by rewrite E2.
Qed.

Definition working_b1 : Inventory := (ingest_all [(order_event "B1" "accepted" [], t0)] inventory_init).2.
Definition final_fill : pydict :=
  order_event "B1" "filled" [("quantity", VInt 2); ("total_unfilled_size", VInt 0)].

Lemma order_leaves_only_on_proof_witness :
  "B1" = basket_of final_fill /\
  exists f u st, order_notification_to_fields final_fill = Ok f /\
    as_int (dget final_fill "total_unfilled_size") = Ok u /\
    order_status_from_fields f = Ok st /\ st ∈ TERMINAL_ORDER_STATUSES /\
    (st = FILLED -> fill_complete f u).
Proof.
  apply (order_leaves_only_on_proof final_fill t0 working_b1 "B1").
  - eexists. vm_compute. reflexivity.
  - vm_compute. reflexivity.
Defined.

(** *** The position book *)

(** What a PnL event says about a contract: its key and the readable net. *)
Definition position_row (ev : pydict) : option (string * option Z) :=
  let symbol := strip (str_or_empty (dget ev "symbol")) in
  if bool_decide (str_or_empty (dget ev "type") = "instrument_pnl") && nonempty symbol then
    match as_int (dget ev "net_quantity") with
    | Ok net => Some (symbol +:+ "." +:+ py_str (por (dget ev "exchange") (VStr "CME")), net)
    | Raise _ => None
    end
  else None.

(** The last row of a contract, [None] when it has none. *)
Definition last_net (key : string) (events : list (pydict * f64)) : option (option Z) :=
  snd <$> last (List.filter (fun p => bool_decide (p.1 = key))
                  (omap (fun e => position_row e.1) events)).

(** The book agrees with what the last row of the contract said. *)
Definition book_says (i : Inventory) (key : string) (row : option (option Z)) : Prop :=
  match row with
  | Some None => inv_positions i !! key = None /\ key ∈ inv_unknown_positions i
  | None | Some (Some 0) => inv_positions i !! key = None /\ key ∉ inv_unknown_positions i
  | Some (Some n) => op_net_qty <$> inv_positions i !! key = Some n /\
                     key ∉ inv_unknown_positions i
  end.

Lemma book_frame i j key row :
  inv_positions j = inv_positions i -> inv_unknown_positions j = inv_unknown_positions i ->
  book_says i key row -> book_says j key row.
Proof. unfold book_says. by intros -> ->. Qed.

Lemma ingest_position_book ev i j key row :
  ingest_position ev i = (Ok tt, j) -> str_or_empty (dget ev "type") = "instrument_pnl" ->
  book_says i key row ->
  book_says j key (match position_row ev with
                   | Some (k, net) => if bool_decide (k = key) then Some net else row
                   | None => row
                   end).
Proof.
  unfold ingest_position, position_row. run_monad. intros H -> Hb.
  rewrite bool_decide_eq_true_2 by done. simpl.
  destruct (nonempty _); simpl in *; [|by simplify_eq].
  destruct (as_int (dget ev "net_quantity")) as [net|] eqn:En; [|done].
  set (k := _ +:+ _) in *.
  case_bool_decide as Hk; [subst key|].
  - unfold position_change in H. destruct net as [n|]; [destruct (Z.eqb_spec n 0)|];
      simplify_eq; simpl; [| |].
    + split; [by rewrite lookup_delete_eq|set_solver].
    + destruct n; [done|..]; (split; [by rewrite lookup_insert_eq|set_solver]).
    + split; [by rewrite lookup_delete_eq|set_solver].
  - assert (Hj : inv_positions j !! key = inv_positions i !! key /\
      (key ∈ inv_unknown_positions j <-> key ∈ inv_unknown_positions i)).
    { destruct (position_change net); simplify_eq; simpl.
      - rewrite lookup_delete_ne by done. set_solver.
      - rewrite lookup_delete_ne by done. set_solver.
      - rewrite lookup_insert_ne by done. set_solver. }
    destruct Hj as [E1 E2]. unfold book_says in *. rewrite E1.
    repeat case_match; rewrite E2; done.
Qed.

Lemma ingest_book ev now i j key row :
  ingest ev now i = (Ok tt, j) -> book_says i key row ->
  book_says j key (match position_row ev with
                   | Some (k, net) => if bool_decide (k = key) then Some net else row
                   | None => row
                   end).
Proof.
  intros H Hb. unfold ingest in H.
  destruct (bool_decide (str_or_empty (dget ev "type") = "instrument_pnl")) eqn:Bt.
  - apply bool_decide_eq_true in Bt. rewrite Bt in H.
    rewrite bool_decide_eq_false_2 in H by evaluate. simpl in H.
    eapply (ingest_position_book ev); [exact H|done|]. by eapply book_frame; [..|exact Hb].
  - replace (position_row ev) with (@None (string * option Z))
      by (unfold position_row; by rewrite Bt).
    destruct (_ && _) in H.
    + destruct (ingest_order_cases ev i) as (E1 & E2 & _). rewrite H in E1, E2. simpl in *.
      by eapply book_frame.
    + revert H. run_monad. destruct (bool_decide (_ ∈ _)); intros [= <-]; [|done].
      by eapply book_frame; [..|exact Hb].
Qed.

(** The position book is the last readable word of the venue: after any
    event sequence, a contract is in the book with exactly the non-zero net of
    its last row, out of it when that net is zero (or it never had a row), and
    marked unknown, never flat, when its last row could not be read; while any
    contract is unknown the inventory does not claim to be live. *)
Theorem position_book_correct (events : list (pydict * f64)) (inv : Inventory) (key : string) :
  ingest_all events inventory_init = (Ok tt, inv) ->
  book_says inv key (last_net key events) /\
  (last_net key events = Some None -> pnl_live inv = false).
Proof.
  intros H. assert (Hb : book_says inv key (last_net key events)).
  2: { split; [done|]. intros E. rewrite E in Hb. destruct Hb as [_ Hu].
       unfold pnl_live, rs_pnl_live. rewrite bool_decide_eq_false_2 by set_solver.
       by destruct (inv_pnl_first_s inv), (inv_observed_until_s inv). }
  revert inv H. induction events as [|[ev now] events IH] using rev_ind; intros inv H.
  { injection H as <-. split; [apply lookup_empty|set_solver]. }
  assert (Hsplit : exists i, ingest_all events inventory_init = (Ok tt, i) /\
                             ingest ev now i = (Ok tt, inv)).
  { clear IH. revert H. generalize inventory_init as s.
    induction events as [|[ev' now'] events IH]; intros s; simpl.
    - unfold ingest_all. simpl. run_monad. destruct (ingest ev now s) as [[[]|] s'] eqn:E; [|done].
      intros [= <-]. eauto.
    - rewrite !ingest_all_cons. destruct (ingest ev' now' s) as [[[]|] s'] eqn:E; [|done]. apply IH. }
  destruct Hsplit as (i & Hi & Hj). specialize (IH i Hi).
  pose proof (ingest_book ev now i inv key _ Hj IH) as Hbook.
  unfold last_net. rewrite omap_app, List.filter_app. simpl.
  destruct (position_row ev) as [[k net]|]; simpl; [|by rewrite app_nil_r].
  destruct (bool_decide (k = key)); [by rewrite last_snoc|by rewrite app_nil_r].
Qed.

Definition pnl_row (sym : string) (net : pyval) : pydict :=
  dict_of [("type", VStr "instrument_pnl"); ("symbol", VStr sym); ("net_quantity", net)].

Definition pnl_rows : list (pydict * f64) :=
  [(pnl_row "MNQZ6" (VInt 2), t0); (pnl_row "ESZ6" (VInt 1), t0);
   (pnl_row "MNQZ6" (VStr "garbled"), t0)].

Lemma position_book_correct_witness :
  exists inv, ingest_all pnl_rows inventory_init = (Ok tt, inv) /\
    book_says inv "MNQZ6.CME" (last_net "MNQZ6.CME" pnl_rows) /\
    (last_net "MNQZ6.CME" pnl_rows = Some None -> pnl_live inv = false).
Proof.
  exists (ingest_all pnl_rows inventory_init).2.
  split; [vm_compute; reflexivity|].
  apply (position_book_correct pnl_rows). vm_compute. reflexivity.
Defined.
