(* ===== verification/Host.v ===== *)
(** * The execution client's state and its primitive operations

    [RithmicExecutionClient] of [execution.py]: the attributes the handlers
    read and write, and the helpers several components share (account seeding,
    identity resolution, price and fill-report building).  Collaborators hold
    the client by reference ([VenueNotificationIntake], [WorkingOrdersDrain]),
    so one record [Host] is the shared state.

    What leaves the client (events handed to the engine, reports, bus
    messages, session calls) is appended to [h_out].  The world is [Env]: the
    answers of the session, whether a report is accepted, the clock, and, at
    each [await], whatever the other coroutines did to the shared state
    meanwhile ([e_interleave]); the theorems quantify over it. *)

From Stdlib Require Import Ascii String.
From stdpp Require Import base gmap strings list.
From Stdlib Require Import ZArith Lia.
From S2P Require Import Prelude PyVal Plant Lru Ident Nautilus Orders OrderRows Commission.
Import Text.
Open Scope string_scope.
Open Scope list_scope.
Open Scope Z_scope.

(** ** Reports, events and session calls *)

Record StatusReport := MkStatus {
  sr_account_id : string;
  sr_instrument_id : string;
  sr_venue_order_id : string;
  sr_side : OrderSide;
  sr_type : OrderType;
  sr_tif : TimeInForce;
  sr_status : OrderStatus;
  sr_quantity : Z;
  sr_filled : Z;
  sr_ts_accepted : Z;
  sr_ts_last : Z;
  sr_ts_init : Z;
  sr_client_order_id : option string;
  sr_price : option Price;
  sr_trigger_price : option Price;
  sr_trigger_type : TriggerType;
  sr_reduce_only : bool;
  sr_avg_px : option pydecimal
}.

Record FillReport := MkFill {
  fr_account_id : string;
  fr_instrument_id : string;
  fr_venue_order_id : string;
  fr_trade_id : string;
  fr_side : OrderSide;
  fr_qty : Z;
  fr_px : Price;
  fr_commission : pydecimal;
  fr_ts_event : Z;
  fr_ts_init : Z
}.

(** What [publish_untracked_status] compares: the report's visible terms.  The
    source compares their printed forms, which determine the values. *)
Record StatusKey := MkStatusKey {
  sk_venue : string;
  sk_status : OrderStatus;
  sk_quantity : Z;
  sk_price : option Price;
  sk_trigger : option Price;
  sk_filled : Z;
  sk_avg : option pydecimal
}.

#[export] Instance pydecimal_eq_dec : EqDecision pydecimal.
Proof. solve_decision. Defined.
#[export] Instance StatusKey_eq_dec : EqDecision StatusKey.
Proof. solve_decision. Defined.
#[export] Instance StatusReport_eq_dec : EqDecision StatusReport.
Proof. solve_decision. Defined.
#[export] Instance FillReport_eq_dec : EqDecision FillReport.
Proof. solve_decision. Defined.

(** [ExposureSnapshot] of [exposure.py]. *)
Record ExposureSnapshot := MkSnap {
  es_root : string;
  es_net : option Z;
  es_open_orders : option Z;
  es_pnl_ts_ns : option Z;
  es_drain_ts_ns : option Z;
  es_ts_init : Z;
  es_reply : bool
}.

#[export] Instance ExposureSnapshot_eq_dec : EqDecision ExposureSnapshot.
Proof. solve_decision. Defined.

Inductive SessionCall :=
  | SPlaceOrder (symbol exchange side price_type : string) (qty : Z) (user_tag : string)
      (price trigger : option f64) (duration : string) (trail_by_ticks trail_by_price_id : option Z)
  | SPlaceBracket (symbol exchange side price_type : string) (qty : Z) (localid : string)
      (price trigger : option f64) (duration : string) (stop_ticks target_ticks : Z)
  | SModifyOrder (venue_id symbol exchange : string) (qty : Z) (price_type : string)
      (price trigger : option f64) (trail_by_ticks : option Z)
  | SCancelOrder (venue_id : string)
  | SLoadOrders (start_sec end_sec : Z)
  | SNextEvents (stream : string)
  | SEnsureConnected | SDisconnect | SOpenGates (trading cancel_all : bool)
  | SSubscribePnl | SDisconnectPnlPlant
  | SSubscribeOrderUpdates | SSubscribeBracketUpdates | SDisconnectOrderPlant
  | SResolvedAccount | SLoadProductRms | SLoadAccountRms.

#[export] Instance SessionCall_eq_dec : EqDecision SessionCall.
Proof. solve_decision. Defined.

(** A tracked order's identity in an event: strategy, instrument, client id. *)
Record Who := MkWho { who_strategy : string; who_instrument : string; who_client : string }.

#[export] Instance Who_eq_dec : EqDecision Who.
Proof. solve_decision. Defined.

Inductive Out :=
  | OSubmitted (w : Who) (ts : Z)
  | ODenied (w : Who) (reason : string) (ts : Z)
  | OAccepted (w : Who) (venue_id : string) (ts : Z)
  | ORejected (w : Who) (reason : string) (ts : Z)
  | OModifyRejected (w : Who) (venue_id reason : string) (ts : Z)
  | OCancelRejected (w : Who) (venue_id reason : string) (ts : Z)
  | OUpdated (w : Who) (venue_id : string) (qty : Z) (price trigger : option Price) (ts : Z)
  | OCanceled (w : Who) (venue_id : string) (ts : Z)
  | OTriggered (w : Who) (venue_id : string) (ts : Z)
  | OFilled (w : Who) (venue_id trade_id : string) (side : OrderSide) (type : OrderType)
      (qty : Z) (px : Price) (commission : pydecimal) (ts : Z)
  | OStatusReport (r : StatusReport)
  | OFillReport (r : FillReport)
  | OAccountState (account currency : string) (free : decimal) (ts : Z)
  | OExposure (topic : string) (snap : ExposureSnapshot)
  | OSession (c : SessionCall).

#[export] Instance Out_eq_dec : EqDecision Out.
Proof. solve_decision. Defined.

(** ** State *)

Record Config := MkConfig {
  cfg_enable_trading : bool;
  cfg_soft_fail_pnl : bool;
  cfg_account_id : option string;
  cfg_cancel_all_requested : bool;
  cfg_brackets : bool;
  (* the parent gateway's trading gate, [True] when the session has none *)
  cfg_session_trading : bool
}.

Record Account := MkAccount {
  ac_account_id : option string;
  ac_seeded : bool;
  ac_resolved_raw : option string;
  ac_last_state_key : option (string * string * decimal)
}.

Record PnlState := MkPnl {
  pn_connected : bool;
  pn_observed : bool;
  pn_live_since_ns : option Z;
  pn_epoch : Z;
  (* insertion-ordered dictionary of the last row per instrument *)
  pn_positions : list (string * pydict);
  pn_seen_ns : gmap string Z;
  pn_unreadable : gset string
}.

Record Stores := MkStores {
  st_seen_fill_keys : FillDedupStore;
  st_untracked_status : UntrackedStatusBook StatusKey
}.

(** Which poll tasks run. *)
Record Tasks := MkTasks { tk_pnl_alive : bool; tk_order_alive : bool }.

Record Host (C : Type) := MkHost {
  h_cfg : Config;
  h_cache : C;
  h_plant : PlantState;
  h_account : Account;
  h_pnl : PnlState;
  h_stores : Stores;
  h_commission : CommissionTable;
  h_tasks : Tasks;
  h_reads : nat;        (* clock reads so far *)
  h_calls : nat;        (* session calls so far *)
  h_out : list Out
}.
Arguments MkHost {C} _ _ _ _ _ _ _ _ _ _ _.
Arguments h_cfg {C} _.
Arguments h_cache {C} _.
Arguments h_plant {C} _.
Arguments h_account {C} _.
Arguments h_pnl {C} _.
Arguments h_stores {C} _.
Arguments h_commission {C} _.
Arguments h_tasks {C} _.
Arguments h_reads {C} _.
Arguments h_calls {C} _.
Arguments h_out {C} _.

Section Setters.
Context {C : Type}.
Implicit Type h : Host C.

Definition set_cache (c : C) h : Host C :=
  MkHost (h_cfg h) c (h_plant h) (h_account h) (h_pnl h) (h_stores h) (h_commission h)
    (h_tasks h) (h_reads h) (h_calls h) (h_out h).
Definition on_plant (f : PlantState -> PlantState) h : Host C :=
  MkHost (h_cfg h) (h_cache h) (f (h_plant h)) (h_account h) (h_pnl h) (h_stores h)
    (h_commission h) (h_tasks h) (h_reads h) (h_calls h) (h_out h).
Definition set_account (a : Account) h : Host C :=
  MkHost (h_cfg h) (h_cache h) (h_plant h) a (h_pnl h) (h_stores h) (h_commission h)
    (h_tasks h) (h_reads h) (h_calls h) (h_out h).
Definition on_pnl (f : PnlState -> PnlState) h : Host C :=
  MkHost (h_cfg h) (h_cache h) (h_plant h) (h_account h) (f (h_pnl h)) (h_stores h)
    (h_commission h) (h_tasks h) (h_reads h) (h_calls h) (h_out h).
Definition on_stores (f : Stores -> Stores) h : Host C :=
  MkHost (h_cfg h) (h_cache h) (h_plant h) (h_account h) (h_pnl h) (f (h_stores h))
    (h_commission h) (h_tasks h) (h_reads h) (h_calls h) (h_out h).
Definition set_commission (t : CommissionTable) h : Host C :=
  MkHost (h_cfg h) (h_cache h) (h_plant h) (h_account h) (h_pnl h) (h_stores h) t
    (h_tasks h) (h_reads h) (h_calls h) (h_out h).
Definition set_tasks (t : Tasks) h : Host C :=
  MkHost (h_cfg h) (h_cache h) (h_plant h) (h_account h) (h_pnl h) (h_stores h)
    (h_commission h) t (h_reads h) (h_calls h) (h_out h).
Definition next_read h : Host C :=
  MkHost (h_cfg h) (h_cache h) (h_plant h) (h_account h) (h_pnl h) (h_stores h)
    (h_commission h) (h_tasks h) (S (h_reads h)) (h_calls h) (h_out h).
Definition next_call h : Host C :=
  MkHost (h_cfg h) (h_cache h) (h_plant h) (h_account h) (h_pnl h) (h_stores h)
    (h_commission h) (h_tasks h) (h_reads h) (S (h_calls h)) (h_out h).
Definition push_out (o : Out) h : Host C :=
  MkHost (h_cfg h) (h_cache h) (h_plant h) (h_account h) (h_pnl h) (h_stores h)
    (h_commission h) (h_tasks h) (h_reads h) (h_calls h) (h_out h ++ [o]).

End Setters.

(** What a session call answers. *)
Inductive Reply :=
  | RUnit
  | RRows (rows : list pydict)
  | RAccount (row : option pydict).

(** The world around the client. *)
Record Env (C : Type) := MkEnv {
  e_clock : nat -> Z;
  e_session : nat -> SessionCall -> res Reply;
  e_interleave : nat -> Host C -> Host C;
  (* whether an awaited condition came true within its timeout *)
  e_wait : nat -> bool;
  e_send_status : StatusReport -> res unit;
  e_send_fill : FillReport -> res unit
}.
Arguments MkEnv {C} _ _ _ _ _ _.
Arguments e_clock {C} _ _.
Arguments e_session {C} _ _ _.
Arguments e_interleave {C} _ _ _.
Arguments e_wait {C} _ _.
Arguments e_send_status {C} _ _.
Arguments e_send_fill {C} _ _.

(** ** Shared operations *)

Section Ops.
Context {C : Type} `{CacheOps C} `{NautilusTypes}.
Variable env : Env C.

Definition emit (o : Out) : M (Host C) unit := modify (push_out o).

Definition timestamp_ns : M (Host C) Z :=
  fun h => (Ok (e_clock env (h_reads h)), next_read h).

(** A session call made off the event loop: the caller is suspended, so the
    other coroutines run before it resumes. *)
Definition call (c : SessionCall) : M (Host C) Reply :=
  fun h =>
    let n := h_calls h in
    let h1 := e_interleave env n (next_call (push_out (OSession c) h)) in
    (e_session env n c, h1).

(** [await asyncio.sleep(...)] and awaited conditions: the other coroutines run
    and the wait ends, [true] when its condition came true in time. *)
Definition wait : M (Host C) bool :=
  fun h => let n := h_calls h in (Ok (e_wait env n), e_interleave env n (next_call h)).

Definition enable_trading : M (Host C) bool := gets (fun h => cfg_enable_trading (h_cfg h)).

(** *** Account *)

Definition account_id : M (Host C) (option string) := gets (fun h => ac_account_id (h_account h)).

(** A string or [None] that is truthy. *)
Definition filled_text (o : option string) : option string :=
  match o with Some s => if nonempty s then Some s else None | None => None end.

Definition account_raw (hint : option string) (h : Host C) : option string :=
  match filled_text hint with
  | Some s => Some s
  | None =>
      match ac_resolved_raw (h_account h) with
      | Some s => Some s
      | None =>
          match filled_text (cfg_account_id (h_cfg h)) with
          | Some s => Some s
          | None => (fun v => removeprefix (VENUE +:+ "-") v) <$> ac_account_id (h_account h)
          end
      end
  end.

Definition set_account_id (id : string) : M (Host C) unit :=
  modify (fun h => let a := h_account h in
    set_account (MkAccount (Some id) (ac_seeded a) (ac_resolved_raw a) (ac_last_state_key a)) h).

Definition seed_account_if_needed (hint : option string) : M (Host C) unit :=
  h ← get;
  let a := h_account h in
  if ac_seeded a && bool_decide (is_Some (ac_account_id a)) then mret tt
  else
    match filled_text (account_raw hint h) with
    | None => mret tt
    | Some raw =>
        whenM (bool_decide (ac_account_id a = None)) (set_account_id (VENUE +:+ "-" +:+ raw)) ;;
        if ac_seeded a then mret tt
        else
          ts ← timestamp_ns;
          id ← account_id;
          emit (OAccountState (default "" id) "USD" (Dec 0 0) ts) ;;
          modify (fun h' => let a' := h_account h' in
            set_account (MkAccount (ac_account_id a') true (ac_resolved_raw a')
              (Some (default "" (ac_account_id a'), "USD", Dec 0 0))) h')
    end.

Definition refresh_resolved_account : M (Host C) unit :=
  h ← get;
  if bool_decide (is_Some (ac_resolved_raw (h_account h))) then mret tt
  else
    catchM any_exn
      (r ← call SResolvedAccount;
       match r with
       | RAccount (Some row) =>
           whenM (truthy (dget row "account_id"))
             (modify (fun h' => let a := h_account h' in
                set_account (MkAccount (ac_account_id a) (ac_seeded a)
                  (Some (py_str (dget row "account_id"))) (ac_last_state_key a)) h'))
       | _ => mret tt
       end)
      (fun _ => mret tt).

Definition resolve_and_seed_account : M (Host C) unit :=
  refresh_resolved_account ;; seed_account_if_needed None.

(** *** Plant *)

Definition latch_order_plant : M (Host C) unit := modify (on_plant latch).

(** *** Fill dedup store *)

Definition fill_key_seen (key : string) : M (Host C) bool :=
  fun h =>
    let '(seen, s') := fds_has_seen key (st_seen_fill_keys (h_stores h)) in
    (Ok seen, on_stores (fun st => MkStores s' (st_untracked_status st)) h).

Definition mark_fill_key (key : string) : M (Host C) unit :=
  modify (on_stores (fun st => MkStores (fds_mark key (st_seen_fill_keys st))
                                 (st_untracked_status st))).

(** *** Identity *)

(** [v or None] of a notification field, as text. *)
Definition field_text (fields : pydict) (k : string) : option string :=
  if truthy (dget fields k) then Some (py_str (dget fields k)) else None.

Definition is_open (o : option Order) : bool :=
  match o with Some o => negb (o_is_closed o) | None => false end.

Definition resolve_client_order_id (fields : pydict) (c : C) : option string :=
  let by_tag :=
    match field_text fields "user_tag" with
    | Some tag => if is_open (cache_order c tag) then Some tag else None
    | None => None
    end in
  match field_text fields "basket_id" ≫= cache_client_order_id c with
  | Some cid =>
      match cache_order c cid with
      | None => Some cid
      | Some o => if o_is_closed o then by_tag else Some cid
      end
  | None => by_tag
  end.

Definition basket_client_id (fields : pydict) (c : C) : option string :=
  field_text fields "basket_id" ≫= cache_client_order_id c.

Definition drain_client_order_id (fields : pydict) (c : C) : option string :=
  match basket_client_id fields c with
  | Some cid => Some cid
  | None => resolve_client_order_id fields c
  end.

Definition bind_venue_id (cid venue_id : string) : M (Host C) unit :=
  h ← get;
  c ← lift (cache_add_venue_order_id cid venue_id (h_cache h));
  modify (set_cache c).

Definition venue_id_for (fields : pydict) (cid : option string) (c : C) : string :=
  match field_text fields "basket_id" with
  | Some b => b
  | None =>
      match cid ≫= cache_venue_order_id c with
      | Some v => v
      | None => default (default "" cid) (field_text fields "user_tag")
      end
  end.

Definition venue_id_for_order (o : Order) (c : C) : option string :=
  match cache_venue_order_id c (o_client_order_id o) with
  | Some v => Some v
  | None => o_venue_order_id o
  end.

Definition instrument_id_from_order_fields (fields : pydict) : option string :=
  let raw := dget fields "instrument_id" in
  let symbol := dget fields "symbol" in
  if negb (truthy raw || truthy symbol) then None
  else
    match instrument_id_from_str
            (if truthy raw then py_str raw else py_str symbol +:+ "." +:+ VENUE) with
    | Ok i => Some i
    | Raise _ => None
    end.

(** *** Prices *)

(** [_prices.py]: with a precision the value is fixed to that many places. *)
Definition price_from_wire (value : pyval) (precision : option Z) : res Price :=
  match precision with
  | None => text ← format_price_str value; price_from_str text
  | Some p =>
      if p <? 0 then Raise convert_error
      else f ← py_float value; price_from_str (fixed_f64 p f)
  end.

Definition price_for_instrument (instrument : string) (value : pyval) (c : C) : res Price :=
  match cache_instrument c instrument with
  | Some i => make_price i value
  | None => price_from_wire value None
  end.

Definition route (instrument : string) (c : C) : res (string * string) :=
  match cache_instrument c instrument with
  | None => Raise (Exn ExValue None "instrument not in cache")
  | Some i => rithmic_route_from_info (i_info i)
  end.

(** *** Fill report *)

Definition fill_commission (instrument : string) (fields : pydict) (qty : Z) (h : Host C)
  : res pydecimal :=
  let symbol := match dget fields "symbol" with VNone => None | v => Some (py_str v) end in
  commission_money (product_code_for_fill (h_cache h) (Some instrument) symbol) qty
    (h_commission h).

Definition fill_report_from_fields (fields : pydict) (ts_event : Z)
  : M (Host C) (option FillReport) :=
  match field_text fields "basket_id", instrument_id_from_order_fields fields with
  | Some basket, Some instrument =>
      (match field_text fields "account_id" with
       | Some a => seed_account_if_needed (Some a)
       | None => mret tt
       end) ;;
      acct ← account_id;
      match acct with
      | None => mret None
      | Some account =>
          let fill_px := dget fields "fill_price" in
          let fill_sz := dget fields "fill_size" in
          side ← lift (order_side_from_notification fields);
          if is_none fill_px || is_none fill_sz then mret None
          else
            match side with
            | None => mret None
            | Some sd =>
                h ← get;
                built ← lift (catch is_tvo_error
                  (n ← py_int fill_sz;
                   q ← quantity_from_int n;
                   p ← price_for_instrument instrument fill_px (h_cache h);
                   Ok (Some (q, p)))
                  (fun _ => Ok None));
                match built with
                | None => mret None
                | Some (q, p) =>
                    report_ts ← (if ts_event =? 0 then timestamp_ns else mret ts_event);
                    h2 ← get;
                    commission ← lift (fill_commission instrument fields q h2);
                    ts_init ← timestamp_ns;
                    mret (Some (MkFill account instrument basket
                      (trade_id_from_fill_fields fields ts_event) sd q p commission
                      report_ts ts_init))
                end
            end
      end
  | _, _ => mret None
  end.

Definition send_status_report (r : StatusReport) : M (Host C) unit :=
  _ ← lift (e_send_status env r); emit (OStatusReport r).

Definition send_fill_report (r : FillReport) : M (Host C) unit :=
  _ ← lift (e_send_fill env r); emit (OFillReport r).

(** [publish_order_status_report]: [false] on failure. *)
Definition publish_order_status_report (r : StatusReport) : M (Host C) bool :=
  catchM any_exn (send_status_report r ;; mret true) (fun _ => mret false).

End Ops.

(** ** Frames

    [quiet h h']: the step emitted no fill, left the fill dedup store as it
    was and did not move the plant. *)

Definition is_fill_out (o : Out) : bool :=
  match o with OFilled _ _ _ _ _ _ _ _ _ | OFillReport _ => true | _ => false end.

Definition fills_of (l : list Out) : list Out := List.filter is_fill_out l.

Section Frames.
Context {C : Type} `{CacheOps C} `{NautilusTypes}.
Variable env : Env C.

Definition seen_of (h : Host C) : FillDedupStore := st_seen_fill_keys (h_stores h).
Definition emitted_fills (h : Host C) : list Out := fills_of (h_out h).

Definition quiet (h h' : Host C) : Prop :=
  seen_of h' = seen_of h /\ emitted_fills h' = emitted_fills h /\ h_plant h' = h_plant h.

#[export] Instance quiet_preorder : PreOrder quiet.
Proof.
  split; [done|]. intros a b c (? & ? & ?) (? & ? & ?). unfold quiet. split_and!; congruence.
Qed.

Lemma fills_of_snoc l o : is_fill_out o = false -> fills_of (l ++ [o]) = fills_of l.
Proof.
  intros Ho. unfold fills_of. rewrite List.filter_app. simpl. by rewrite Ho, app_nil_r.
Qed.

Lemma emit_quiet o : is_fill_out o = false -> preserves quiet (emit (C:=C) o).
Proof. intros Ho h. split_and!; [done|by apply fills_of_snoc|done]. Qed.

Lemma timestamp_quiet : preserves quiet (timestamp_ns env).
Proof. by intros h. Qed.

Lemma enable_trading_quiet : preserves quiet (enable_trading (C:=C)).
Proof. by intros h. Qed.

Lemma account_id_quiet : preserves quiet (account_id (C:=C)).
Proof. by intros h. Qed.

Lemma set_account_id_quiet id : preserves quiet (set_account_id (C:=C) id).
Proof. by intros h. Qed.

Lemma bind_venue_quiet cid v : preserves quiet (bind_venue_id cid v).
Proof.
  unfold bind_venue_id. apply preserves_bind; [apply _|by intros h|intros h].
  apply preserves_bind; [apply _|by intros ?|intros c]. by intros h'.
Qed.

End Frames.

#[export] Hint Resolve timestamp_quiet enable_trading_quiet account_id_quiet
  set_account_id_quiet bind_venue_quiet : preserve.
#[export] Hint Extern 2 (preserves quiet (emit _)) => apply emit_quiet; reflexivity : preserve.
#[export] Hint Extern 3 (preserves quiet (modify _)) => intros ?; done : preserve.

Lemma seed_quiet {C} (env : Env C) hint : preserves quiet (seed_account_if_needed env hint).
Proof. unfold seed_account_if_needed. preserve. Qed.
#[export] Hint Resolve seed_quiet : preserve.

Lemma send_status_quiet {C} (env : Env C) r : preserves quiet (send_status_report env r).
Proof. unfold send_status_report. preserve. Qed.
#[export] Hint Resolve send_status_quiet : preserve.

Lemma publish_status_quiet {C} (env : Env C) r :
  preserves quiet (publish_order_status_report env r).
Proof. unfold publish_order_status_report. preserve. Qed.

Lemma fill_report_quiet {C} `{CacheOps C} `{NautilusTypes} (env : Env C) fields ts :
  preserves quiet (fill_report_from_fields env fields ts).
Proof. unfold fill_report_from_fields. preserve. Qed.

#[export] Hint Resolve publish_status_quiet fill_report_quiet : preserve.

(** ** A concrete client

    Used to evaluate the theorems' hypotheses: one open limit order [O-1], its
    instrument, a session that accepts everything and a clock that ticks. *)

Module Sample.

Definition mnq : Instrument :=
  MkInstrument "MNQZ6-CME.RITHMIC" 2 (f64_of_decimal false 25 (-2))
    (dict_of [("rithmic_symbol", VStr "MNQZ6"); ("rithmic_exchange", VStr "CME");
              ("rithmic_product_code", VStr "MNQ")]).

Definition order (status : OrderStatus) (closed : bool) : Order :=
  MkOrder "O-1" None "S-1" "MNQZ6-CME.RITHMIC" BUY LIMIT GTC status closed false false
    2 0 (Some 2) (Some (MkPrice 2100025 2)) None NO_TRIGGER VNone NO_TRAILING_OFFSET None
    None [] 0 0.

Definition cache (orders : list Order) : MapCache :=
  MkMapCache ((fun o => (o_client_order_id o, o)) <$> orders) ∅ ∅
    {["MNQZ6-CME.RITHMIC" := mnq]} [].

Definition env : Env MapCache :=
  MkEnv (fun n => 1000 + Z.of_nat n)
    (fun _ c => match c with
                | SLoadOrders _ _ => Ok (RRows [])
                | SResolvedAccount => Ok (RAccount None)
                | SLoadProductRms | SLoadAccountRms => Ok (RRows [])
                | _ => Ok RUnit
                end)
    (fun _ h => h) (fun _ => true) (fun _ => Ok tt) (fun _ => Ok tt).

(** The client uses 10,000; a small bound keeps evaluation fast. *)
Definition store_bound : nat := 16.

Definition host (orders : list Order) (plant : PlantState) : Host MapCache :=
  MkHost (MkConfig true false (Some "ACC") false false true) (cache orders) plant
    (MkAccount None false None None)
    (MkPnl false false None 0 [] ∅ ∅)
    (MkStores (fds_new store_bound) (usb_new store_bound))
    ct_new (MkTasks false false) 0 0 [].

(** A fill of [O-1] as the venue sends it. *)
Definition fill_event (fill_id : string) (price : pyval) : pydict :=
  dict_of [("type", VStr "order_notification"); ("source", VStr "exchange");
           ("symbol", VStr "MNQZ6"); ("exchange", VStr "CME");
           ("notify_type_name", VStr "FILL"); ("basket_id", VStr "B1");
           ("user_tag", VStr "O-1"); ("account_id", VStr "ACC");
           ("fill_id", VStr fill_id); ("fill_size", VInt 1); ("fill_price", price);
           ("quantity", VInt 2); ("transaction_type", VInt 1);
           ("price_type", VInt 1); ("duration", VInt 2);
           ("ssboe", VInt 1790000000); ("usecs", VInt 5)].

Definition fill_fields (fill_id : string) (price : pyval) : pydict :=
  match order_notification_to_fields (fill_event fill_id price) with
  | Ok f => f
  | Raise _ => ∅
  end.

Definition px : pyval := VFloat (f64_of_decimal false 2100025 (-2)).

End Sample.

(** *** The cache frame *)

Definition same_cache {C} (h h' : Host C) : Prop := h_cache h' = h_cache h.

#[export] Instance same_cache_preorder {C} : PreOrder (same_cache (C:=C)).
Proof. split; [done|]. unfold same_cache. intros ? ? ? ? ?. congruence. Qed.

Lemma timestamp_same_cache {C} (env : Env C) : preserves same_cache (timestamp_ns env).
Proof. by intros h. Qed.
Lemma account_id_same_cache {C} : preserves same_cache (account_id (C:=C)).
Proof. by intros h. Qed.
Lemma emit_same_cache {C} o : preserves same_cache (emit (C:=C) o).
Proof. by intros h. Qed.
Lemma set_account_same_cache {C} id : preserves same_cache (set_account_id (C:=C) id).
Proof. by intros h. Qed.
Lemma latch_same_cache {C} : preserves same_cache (latch_order_plant (C:=C)).
Proof. by intros h. Qed.
Lemma mark_same_cache {C} k : preserves same_cache (mark_fill_key (C:=C) k).
Proof. by intros h. Qed.
Lemma fill_key_seen_same_cache {C} k : preserves same_cache (fill_key_seen (C:=C) k).
Proof. intros h. unfold fill_key_seen. by destruct (fds_has_seen _ _). Qed.
#[export] Hint Resolve timestamp_same_cache account_id_same_cache emit_same_cache
  set_account_same_cache latch_same_cache mark_same_cache fill_key_seen_same_cache : preserve.
#[export] Hint Extern 3 (preserves same_cache (modify _)) => intros ?; done : preserve.

Lemma seed_same_cache {C} (env : Env C) hint :
  preserves same_cache (seed_account_if_needed env hint).
Proof. unfold seed_account_if_needed. preserve. Qed.
#[export] Hint Resolve seed_same_cache : preserve.

Lemma seed_returns {C} (env : Env C) hint h :
  seed_account_if_needed env hint h = (Ok tt, (seed_account_if_needed env hint h).2).
Proof.
  unfold seed_account_if_needed. run_monad.
  destruct (_ && _); [done|]. destruct (filled_text _); [|done].
  destruct (bool_decide (ac_account_id _ = None)); destruct (ac_seeded _); done.
Qed.
