(* ===== verification/Convert.v ===== *)
(** * Venue events to field maps

    The converters of [_convert.py].  The mutable per-symbol accumulator of
    [bbo_to_fields] is the state of an [M] computation; a missing required
    field is [ConvertError].  An order-book event carries lists, so it is a
    record beside the scalar dictionary. *)

From Stdlib Require Import Ascii String.
From stdpp Require Import base gmap strings list.
From Stdlib Require Import ZArith Lia.
From Corelib Require Import SpecFloat.
From S2P Require Import Prelude PyVal Ident Orders.
Import Text.
Open Scope string_scope.
Open Scope list_scope.
Open Scope Z_scope.

Definition DEFAULT_ACCOUNT_CURRENCY : string := "USD".

Definition opt_float (o : option f64) : pyval :=
  match o with Some f => VFloat f | None => VNone end.

(** ** Trades *)

Definition last_trade_to_fields (d : pydict) : res pydict :=
  _ ← require_keys d ["symbol"; "trade_price"; "trade_size"];
  let symbol := py_str (dget d "symbol") in
  let exchange := dget d "exchange" in
  ts ← ts_ns d;
  match ts with
  | None => Raise convert_error
  | Some t =>
      instrument ← instrument_id_from_symbol symbol (exchange_arg exchange);
      price ← py_float (dget d "trade_price");
      size ← py_float (dget d "trade_size");
      Ok (dict_of [("type", VStr "trade"); ("instrument_id", VStr instrument);
                   ("symbol", VStr symbol); ("exchange", exchange);
                   ("price", VFloat price); ("size", VFloat size);
                   ("aggressor", dget d "aggressor"); ("ts_event", VInt t);
                   ("venue", VStr VENUE)])
  end.

(** ** Quotes *)

Definition f64_one : f64 := f64_of_decimal false 1 0.

(** [state[k] = v]. *)
Definition store (k : string) (v : pyval) : M pydict unit := modify (<[k := v]>).

(** One side of the message, merged into the accumulator. *)
Definition merge_side (d : pydict) (side : string) : M pydict unit :=
  let price_k := side +:+ "_price" in
  let size_k := side +:+ "_size" in
  if is_none (dget d price_k) then mret tt
  else
    p ← lift (py_float (dget d price_k));
    store price_k (VFloat p) ;;
    s ← lift (py_float (por (dget d size_k) (VInt 0)));
    store size_k (VFloat s).

(** [float(state.get(k) or 0) < 1]. *)
Definition side_empty (state : pydict) (k : string) : res bool :=
  s ← py_float (por (dget state k) (VInt 0)); Ok (SFltb s f64_one).

(** The part of [bbo_to_fields] that updates the accumulator. *)
Definition merge_message (d : pydict) : M pydict unit :=
  _ ← lift (require_keys d ["symbol"]);
  store "symbol" (VStr (py_str (dget d "symbol"))) ;;
  whenM (negb (is_none (dget d "exchange"))) (store "exchange" (dget d "exchange")) ;;
  ts ← lift (ts_ns d);
  (match ts with Some t => store "ts_event" (VInt t) | None => mret tt end) ;;
  merge_side d "bid" ;;
  merge_side d "ask".

(** The quote the accumulator holds, once both sides are known and sized. *)
Definition quote_of (state : pydict) : res (option pydict) :=
  if is_none (dget state "bid_price") || is_none (dget state "ask_price") then Ok None
  else if is_none (dget state "ts_event") then Ok None
  else
    bid_empty ← side_empty state "bid_size";
    if (bid_empty : bool) then Ok None
    else
      ask_empty ← side_empty state "ask_size";
      if (ask_empty : bool) then Ok None
      else
        instrument ← instrument_id_from_symbol (py_str (dget state "symbol"))
                       (exchange_arg (dget state "exchange"));
        bid_price ← py_float (dget state "bid_price");
        ask_price ← py_float (dget state "ask_price");
        bid_size ← py_float (dget state "bid_size");
        ask_size ← py_float (dget state "ask_size");
        Ok (Some (dict_of
          [("type", VStr "quote"); ("instrument_id", VStr instrument);
           ("symbol", dget state "symbol"); ("exchange", dget state "exchange");
           ("bid_price", VFloat bid_price); ("ask_price", VFloat ask_price);
           ("bid_size", VFloat bid_size); ("ask_size", VFloat ask_size);
           ("ts_event", dget state "ts_event"); ("venue", VStr VENUE)])).

Definition bbo_to_fields (d : pydict) : M pydict (option pydict) :=
  merge_message d ;; state ← get; lift (quote_of state).

(** ** Account and position rows *)

Definition account_pnl_to_fields (d : pydict) : res pydict :=
  _ ← require_keys d ["account_id"];
  let none := is_none (dget d "cash_on_hand") && is_none (dget d "account_balance") in
  let cash := if none then VStr "0" else dget d "cash_on_hand" in
  let balance := if none then VStr "0" else dget d "account_balance" in
  Ok (dict_of
    [("type", VStr "account_pnl"); ("account_id", VStr (py_str (dget d "account_id")));
     ("fcm_id", dget d "fcm_id"); ("ib_id", dget d "ib_id");
     ("account_balance", balance); ("cash_on_hand", cash);
     ("margin_balance", dget d "margin_balance"); ("day_pnl", dget d "day_pnl");
     ("open_position_pnl", dget d "open_position_pnl");
     ("closed_position_pnl", dget d "closed_position_pnl");
     ("available_buying_power", dget d "available_buying_power");
     ("used_buying_power", dget d "used_buying_power");
     ("currency", por (dget d "currency") (VStr DEFAULT_ACCOUNT_CURRENCY));
     ("is_snapshot", dget d "is_snapshot"); ("venue", VStr VENUE)]).

Definition side_and_qty (net : Z) : string * Z :=
  if 0 <? net then ("LONG", net)
  else if net <? 0 then ("SHORT", Z.abs net)
  else ("FLAT", 0).

Definition instrument_pnl_to_fields (d : pydict) : res pydict :=
  _ ← require_keys d ["symbol"; "net_quantity"];
  let symbol := py_str (dget d "symbol") in
  let exchange := dget d "exchange" in
  net ← py_int (dget d "net_quantity");
  let '(side, qty) := side_and_qty net in
  instrument ← instrument_id_from_symbol symbol (exchange_arg exchange);
  Ok (dict_of
    [("type", VStr "instrument_pnl"); ("account_id", dget d "account_id");
     ("instrument_id", VStr instrument); ("symbol", VStr symbol); ("exchange", exchange);
     ("position_side", VStr side); ("quantity", VInt qty);
     ("avg_px_open", dget d "avg_open_fill_price");
     ("open_position_pnl", dget d "open_position_pnl");
     ("closed_position_pnl", dget d "closed_position_pnl");
     ("is_snapshot", dget d "is_snapshot"); ("venue", VStr VENUE)]).

(** ** Bars *)

Definition time_bar_to_fields (d : pydict) : res pydict :=
  _ ← require_keys d
    ["symbol"; "open_price"; "high_price"; "low_price"; "close_price"; "volume"];
  let symbol := py_str (dget d "symbol") in
  let exchange := dget d "exchange" in
  ts0 ← ts_ns d;
  ts ← (match ts0 with
        | Some t => Ok (Some t)
        | None => if is_none (dget d "marker") then Ok None
                  else m ← py_int (dget d "marker"); Ok (Some (m * 1000000000))
        end);
  match ts with
  | None => Raise convert_error
  | Some t =>
      volume ← py_float (dget d "volume");
      if SFltb volume (S754_zero false) then Raise convert_error
      else
        instrument ← instrument_id_from_symbol symbol (exchange_arg exchange);
        o ← py_float (dget d "open_price");
        hi ← py_float (dget d "high_price");
        lo ← py_float (dget d "low_price");
        c ← py_float (dget d "close_price");
        Ok (dict_of
          [("type", VStr "bar"); ("instrument_id", VStr instrument);
           ("symbol", VStr symbol); ("exchange", exchange);
           ("open", VFloat o); ("high", VFloat hi); ("low", VFloat lo); ("close", VFloat c);
           ("volume", VFloat volume); ("num_trades", dget d "num_trades");
           ("bar_type", dget d "bar_type"); ("period", dget d "period");
           ("marker", dget d "marker"); ("ts_event", VInt t); ("venue", VStr VENUE)])
  end.

(** ** Order book *)

Inductive BookUpdate := BClear | BNoBook | BSnapshot | BBegin | BMiddle | BEnd | BSolo.

#[export] Instance BookUpdate_eq_dec : EqDecision BookUpdate.
Proof. solve_decision. Defined.

Definition book_update_from_wire (value : Z) : option BookUpdate :=
  match value with
  | 1 => Some BClear | 2 => Some BNoBook | 3 => Some BSnapshot | 4 => Some BBegin
  | 5 => Some BMiddle | 6 => Some BEnd | 7 => Some BSolo
  | _ => None
  end.

(** A book event: the scalar fields, and each list column as absent, [None] or
    a list. *)
Inductive column := CAbsent | CNone | CList (l : list pyval).

Record BookEvent := MkBook {
  be_scalars : pydict;
  be_bid_price : column;
  be_bid_size : column;
  be_ask_price : column;
  be_ask_size : column
}.

Record Level := MkLevel { lv_buy : bool; lv_price : f64; lv_size : f64; lv_order_id : Z }.

Record BookFields := MkBookFields {
  bf_instrument_id : string;
  bf_symbol : string;
  bf_exchange : pyval;
  bf_update_kind : BookUpdate;
  bf_levels : list Level;
  bf_ts_event : Z
}.

Definition column_list (c : column) : list pyval :=
  match c with CList l => l | _ => [] end.

(** The levels of one side; [base] is the first order id less one. *)
Fixpoint side_levels (buy : bool) (base : Z) (prices sizes : list pyval) : res (list Level) :=
  match prices, sizes with
  | p :: prices', s :: sizes' =>
      if is_none p || is_none s then Raise convert_error
      else
        px ← py_float p;
        sz ← py_float s;
        rest ← side_levels buy (base + 1) prices' sizes';
        Ok (MkLevel buy px sz (base + 1) :: rest)
  | _, _ => Ok []
  end.

Definition order_book_to_fields (e : BookEvent) (ts_init : option Z) : res BookFields :=
  let d := be_scalars e in
  _ ← require_keys d ["symbol"];
  let symbol := py_str (dget d "symbol") in
  let exchange := dget d "exchange" in
  ts0 ← ts_ns d;
  match (match ts0 with Some t => Some t | None => ts_init end) with
  | None => Raise convert_error
  | Some ts =>
      match be_bid_price e, be_ask_price e with
      | CAbsent, _ | _, CAbsent => Raise convert_error
      | bp, ap =>
          let bid_price := column_list bp in
          let bid_size := column_list (be_bid_size e) in
          let ask_price := column_list ap in
          let ask_size := column_list (be_ask_size e) in
          if negb (bool_decide (length bid_price = length bid_size)) then Raise convert_error
          else if negb (bool_decide (length ask_price = length ask_size)) then Raise convert_error
          else
            bids ← side_levels true 0 bid_price bid_size;
            asks ← side_levels false 1000000 ask_price ask_size;
            kind ← (if is_none (dget d "update_type") then Ok BSnapshot
                    else
                      n ← py_int (dget d "update_type");
                      match book_update_from_wire n with
                      | Some k => Ok k
                      | None => Raise convert_error
                      end);
            instrument ← instrument_id_from_symbol symbol (exchange_arg exchange);
            Ok (MkBookFields instrument symbol exchange kind (bids ++ asks) ts)
      end
  end.

(** ** Facts *)

(** A position row keeps the venue's signed net: the side and size it is
    split into determine it, and size and side agree. *)
Lemma side_and_qty_signed net :
  let '(side, qty) := side_and_qty net in
  0 <= qty /\ net = (if bool_decide (side = "LONG") then qty
                     else if bool_decide (side = "SHORT") then - qty else 0) /\
  side ∈ ["LONG"; "SHORT"; "FLAT"].
Proof.
  unfold side_and_qty. destruct (Z.ltb_spec 0 net); [split_and!; [lia|done|evaluate]|].
  destruct (Z.ltb_spec net 0); (split_and!; [lia|repeat (case_bool_decide; try done); lia|evaluate]).
Qed.

(** *** Quote assembly *)

Lemma store_run k v st : store k v st = (Ok tt, <[k := v]> st).
Proof. reflexivity. Qed.

(** What a merged side says: the new price when the message has one. *)
Definition side_price (d : pydict) (side : string) (old : pyval) : res pyval :=
  if is_none (dget d (side +:+ "_price")) then Ok old
  else p ← py_float (dget d (side +:+ "_price")); Ok (VFloat p).

Lemma merge_side_spec d side st st' :
  side ∈ ["bid"; "ask"] -> merge_side d side st = (Ok tt, st') ->
  side_price d side (dget st (side +:+ "_price")) = Ok (dget st' (side +:+ "_price")) /\
  (forall k, k <> side +:+ "_price" -> k <> side +:+ "_size" -> dget st' k = dget st k).
Proof.
  intros Hside. unfold merge_side, side_price.
  assert (Hne : side +:+ "_price" <> side +:+ "_size").
  { intros E%string_app_inj_l. discriminate. }
  destruct (is_none (dget d (side +:+ "_price"))); [by intros [= <-]|].
  run_monad. destruct (py_float (dget d (side +:+ "_price"))) as [p|]; [|done].
  unfold store. run_monad. destruct (py_float (por _ _)) as [s|]; [|done].
  intros [= <-]. simpl. split.
  - rewrite dget_insert_ne by congruence. by rewrite dget_insert.
  - intros k H1 H2. by rewrite !dget_insert_ne by congruence.
Qed.

Lemma merge_message_spec d st st' :
  merge_message d st = (Ok tt, st') ->
  side_price d "bid" (dget st "bid_price") = Ok (dget st' "bid_price") /\
  side_price d "ask" (dget st "ask_price") = Ok (dget st' "ask_price").
Proof.
  unfold merge_message. run_monad. destruct (require_keys _ _); [|done].
  rewrite store_run.
  set (st1 := <["symbol" := _]> st).
  assert (E1 : exists st2, (if negb (is_none (dget d "exchange"))
      then store "exchange" (dget d "exchange") else fun s => (Ok tt, s)) st1 = (Ok tt, st2) /\
      dget st2 "bid_price" = dget st "bid_price" /\ dget st2 "ask_price" = dget st "ask_price").
  { destruct (negb _); eexists; (split; [reflexivity|]); unfold st1;
      rewrite !dget_insert_ne by done; done. }
  destruct E1 as (st2 & -> & Eb & Ea).
  destruct (ts_ns d) as [ts|]; [|done].
  assert (E2 : exists st3, (match ts with Some t => store "ts_event" (VInt t)
                            | None => fun s => (Ok tt, s) end) st2 = (Ok tt, st3) /\
      dget st3 "bid_price" = dget st "bid_price" /\ dget st3 "ask_price" = dget st "ask_price").
  { destruct ts; eexists; (split; [reflexivity|]); rewrite ?dget_insert_ne by done; done. }
  destruct E2 as (st3 & -> & Eb' & Ea').
  destruct (merge_side d "bid" st3) as [[[]|] st4] eqn:Hb; [|done]. intros Ha.
  apply merge_side_spec in Hb as [Hb Hbo]; [|evaluate].
  apply merge_side_spec in Ha as [Ha Hao]; [|evaluate].
  cbn in Hb, Hbo, Ha, Hao. rewrite <- Eb', <- Ea'. split.
  - rewrite Hao by done. exact Hb.
  - rewrite <- Hbo by done. exact Ha.
Qed.

Lemma quote_of_spec st q :
  quote_of st = Ok (Some q) ->
  exists b a, py_float (dget st "bid_price") = Ok b /\ py_float (dget st "ask_price") = Ok a /\
    dget q "bid_price" = VFloat b /\ dget q "ask_price" = VFloat a.
Proof.
  unfold quote_of. destruct (_ || _); [done|]. destruct (is_none _); [done|].
  destruct (side_empty st "bid_size") as [[]|]; try done. cbn [mbind res_bind].
  destruct (side_empty st "ask_size") as [[]|]; try done. cbn [mbind res_bind].
  destruct (instrument_id_from_symbol _ _) as [i|]; [|done]. cbn [mbind res_bind].
  destruct (py_float (dget st "bid_price")) as [b|]; [|done]. cbn [mbind res_bind].
  destruct (py_float (dget st "ask_price")) as [a|]; [|done]. cbn [mbind res_bind].
  destruct (py_float (dget st "bid_size")) as [bs|]; [|done]. cbn [mbind res_bind].
  destruct (py_float (dget st "ask_size")) as [as_|]; [|done]. cbn [mbind res_bind].
  intros [= <-]. exists b, a. split_and!; reflexivity.
Qed.

(** The prices a message sequence carried for one side. *)
Definition side_floats (side : string) (msgs : list pydict) : list f64 :=
  omap (fun d => if is_none (dget d (side +:+ "_price")) then None
                 else match py_float (dget d (side +:+ "_price")) with
                      | Ok p => Some p
                      | Raise _ => None
                      end) msgs.

(** The accumulator shared by successive messages of one symbol. *)
Fixpoint feed (msgs : list pydict) : M pydict (option pydict) :=
  match msgs with
  | [] => mret None
  | [d] => bbo_to_fields d
  | d :: msgs' => bbo_to_fields d ≫= fun _ => feed msgs'
  end.

Lemma side_price_step d side pre old new :
  old = opt_float (last (side_floats side pre)) -> side_price d side old = Ok new ->
  new = opt_float (last (side_floats side (pre ++ [d]))).
Proof.
  intros ->. unfold side_price, side_floats. rewrite omap_app. csimpl.
  destruct (is_none (dget d _)); [rewrite app_nil_r; congruence|].
  destruct (py_float (dget d _)) as [p|]; [|done]. intros [= <-]. by rewrite last_snoc.
Qed.

Lemma bbo_step d pre st r st' :
  dget st "bid_price" = opt_float (last (side_floats "bid" pre)) ->
  dget st "ask_price" = opt_float (last (side_floats "ask" pre)) ->
  bbo_to_fields d st = (Ok r, st') ->
  dget st' "bid_price" = opt_float (last (side_floats "bid" (pre ++ [d]))) /\
  dget st' "ask_price" = opt_float (last (side_floats "ask" (pre ++ [d]))) /\
  quote_of st' = Ok r.
Proof.
  intros Hb Ha. unfold bbo_to_fields, mbind, M_bind, get, lift.
  destruct (merge_message d st) as [[[]|] st1] eqn:E; [|done]. intros [= Hq <-].
  apply merge_message_spec in E as [Eb Ea].
  split_and!; [by eapply side_price_step|by eapply side_price_step|done].
Qed.

(** A quote is the venue's latest word on both sides: after any sequence
    of (usually one-sided) best-bid-offer messages of a symbol, the quote given
    out has the bid price of the last message that carried a bid and the ask
    price of the last one that carried an ask, and none is given out before
    both are known. *)
Theorem quote_is_latest (msgs : list pydict) (q st : pydict) :
  feed msgs ∅ = (Ok (Some q), st) ->
  exists b a, last (side_floats "bid" msgs) = Some b /\
    last (side_floats "ask" msgs) = Some a /\
    dget q "bid_price" = VFloat b /\ dget q "ask_price" = VFloat a.
Proof.
  assert (Hgen : forall msgs pre st0,
    dget st0 "bid_price" = opt_float (last (side_floats "bid" pre)) ->
    dget st0 "ask_price" = opt_float (last (side_floats "ask" pre)) ->
    feed msgs st0 = (Ok (Some q), st) ->
    dget st "bid_price" = opt_float (last (side_floats "bid" (pre ++ msgs))) /\
    dget st "ask_price" = opt_float (last (side_floats "ask" (pre ++ msgs))) /\
    quote_of st = Ok (Some q)).
  { clear msgs. induction msgs as [|d msgs IH]; intros pre st0 Hb Ha; [done|].
    destruct msgs as [|d' msgs]; [by apply bbo_step|].
    change (feed (d :: d' :: msgs)) with (bbo_to_fields d ≫= fun _ => feed (d' :: msgs)).
    unfold mbind, M_bind. destruct (bbo_to_fields d st0) as [[r|] st1] eqn:E; [|done].
    destruct (bbo_step d pre st0 r st1 Hb Ha E) as (Hb1 & Ha1 & _).
    intros Hf. destruct (IH _ _ Hb1 Ha1 Hf) as (H1 & H2 & H3).
    by rewrite <- app_assoc in H1, H2. }
  intros Hf. destruct (Hgen msgs [] ∅ ltac:(done) ltac:(done) Hf) as (Hb & Ha & Hq). simpl in Hb, Ha.
  destruct (quote_of_spec st q Hq) as (b & a & Pb & Pa & Qb & Qa).
  rewrite Hb in Pb. rewrite Ha in Pa.
  destruct (last (side_floats "bid" msgs)) as [b'|]; [|done].
  destruct (last (side_floats "ask" msgs)) as [a'|]; [|done].
  cbn in Pb, Pa. simplify_eq. by exists b, a.
Qed.

Definition one_sided (side : string) (price : N) (size : Z) : pydict :=
  dict_of [("symbol", VStr "MNQZ6"); ("exchange", VStr "CME"); ("ssboe", VInt 7);
           (side +:+ "_price", VFloat (f64_of_decimal false price 0));
           (side +:+ "_size", VInt size)].

Definition sample_quotes : list pydict :=
  [one_sided "bid" 100 1; one_sided "ask" 102 2; one_sided "bid" 101 3].

Definition gives_quote (r : res (option pydict) * pydict) : bool :=
  match r with (Ok (Some _), _) => true | _ => false end.

Lemma quote_is_latest_witness :
  exists b a, last (side_floats "bid" sample_quotes) = Some b /\
    last (side_floats "ask" sample_quotes) = Some a /\
    a = f64_of_decimal false 102 0 /\ b = f64_of_decimal false 101 0.
Proof.
  assert (Hg : gives_quote (feed sample_quotes ∅) = true) by (vm_compute; reflexivity).
  destruct (feed sample_quotes ∅) as [[[q|]|] st] eqn:E; try discriminate Hg.
  destruct (quote_is_latest sample_quotes q st E) as (b & a & Hb & Ha & _).
  exists b, a. split; [exact Hb|]. split; [exact Ha|].
  vm_compute in Hb, Ha. injection Hb as <-. injection Ha as <-.
  split; vm_compute; reflexivity.
Defined.
