(* ===== verification/Drain.v ===== *)
(** * The working-orders drain

    [WorkingOrdersDrain] of [recon.py]: one interpretation of a drain row
    ([drain_row_from_fields]), the freshest row per order, the re-arm apply and
    the status and fill reports recon returns; with the helpers of
    [execution.py] they call.  Generators are lists (each caller consumes them
    in order); an [await] is a session call of [Host]. *)

From Stdlib Require Import Ascii String.
From stdpp Require Import base gmap strings list.
From Stdlib Require Import ZArith Lia.
From S2P Require Import Prelude PyVal Plant Lru Ident Nautilus Orders OrderRows Commission Host.
Import Text.
Open Scope string_scope.
Open Scope list_scope.
Open Scope Z_scope.

(** ** Pure helpers of [execution.py] *)

Definition venue_query_unavailable : exn := Exn ExVenueQueryUnavailable None "".

Definition is_recon_unavailable (e : exn) : bool :=
  bool_decide (ex_class e = ExReconUnavailable)
  || bool_decide (ex_class e = ExVenueQueryUnavailable)
  || bool_decide (ex_code e = Some "reconciliation_unavailable").

Definition matches_instrument (fields : pydict) (instrument_id venue_order_id : option string)
  : bool :=
  match venue_order_id with
  | Some v =>
      match field_text fields "basket_id" with
      | Some b => bool_decide (b = v)
      | None => false
      end
  | None =>
      match instrument_id with
      | None => true
      | Some want =>
          let event_inst := str_or_empty (dget fields "instrument_id") in
          if bool_decide (event_inst = want) then true
          else
            match symbol_and_exchange_from_instrument_id want,
                  symbol_and_exchange_from_instrument_id event_inst with
            | Ok (want_sym, want_exch), Ok (ev_sym, ev_exch) =>
                if negb (bool_decide (want_sym = ev_sym)) then false
                else match want_exch, ev_exch with
                     | Some a, Some b => bool_decide (a = b)
                     | _, _ => true
                     end
            | _, _ => false
            end
      end
  end.

(** A recon bound: absent, an object with [timestamp()] (whole seconds), a
    number (nanoseconds), or anything else. *)
Inductive TimeArg := TNone | TStamp (secs : Z) | TNumber (n : Z) | TOther.

Definition MAX_RECON_SPAN_S : Z := 32 * 86400.

Definition to_sec (v : TimeArg) : option Z :=
  match v with
  | TNone | TOther => None
  | TStamp s => Some (Z.max 0 s)
  | TNumber n => Some (Z.max 0 (n / 1000000000))
  end.

Definition recon_window_sec (start end_ : TimeArg) (now_sec : Z) : Z * Z :=
  let end_sec := default now_sec (to_sec end_) in
  let start0 := default (now_sec / 86400 * 86400) (to_sec start) in
  let start1 := if end_sec <? start0 then end_sec else start0 in
  let start2 := if MAX_RECON_SPAN_S <? end_sec - start1 then end_sec - MAX_RECON_SPAN_S
                else start1 in
  (start2, end_sec).

(** ** Rows *)

Record DrainRow := MkRow {
  dr_fields : pydict;
  dr_ts_event : Z;
  dr_report : option StatusReport;
  dr_bindable : bool
}.

Definition client_order_id_for_tag (tag : pyval) : option string :=
  if truthy tag then Some (py_str tag) else None.

Section Drain.
Context {C : Type} `{CacheOps C} `{NautilusTypes}.
Variable env : Env C.

(** The [try] body of [order_status_report_from_fields]. *)
Definition build_status (fields : pydict) (ts_event : Z) (basket instrument account : string)
  : M (Host C) (option StatusReport) :=
  side ← lift (order_side_from_notification fields);
  qty ← lift (n ← int_or_zero (dget fields "quantity"); quantity_from_int (Z.max 0 n));
  filled ← lift (n ← int_or_zero (dget fields "total_fill_size"); quantity_from_int (Z.max 0 n));
  price ← lift (if is_none (dget fields "price") then Ok None
                else p ← price_from_wire (dget fields "price") None; Ok (Some p));
  trigger ← lift (if is_none (dget fields "trigger_price") then Ok None
                  else p ← price_from_wire (dget fields "trigger_price") None; Ok (Some p));
  avg_px ← lift (if is_none (dget fields "avg_fill_price") then Ok None
                 else d ← py_decimal (py_str (dget fields "avg_fill_price")); Ok (Some d));
  if qty <=? 0 then mret None
  else
    order_type ← lift (order_type_from_fields fields);
    tif ← lift (tif_from_fields fields);
    status ← lift (order_status_from_fields fields);
    report_ts ← (if ts_event =? 0 then timestamp_ns env else mret ts_event);
    ts_init ← timestamp_ns env;
    trigger_type ← lift (trigger_type_from_fields fields);
    mret (Some (MkStatus account instrument basket (default BUY side) order_type tif status
      qty filled report_ts report_ts ts_init
      (client_order_id_for_tag (dget fields "user_tag")) price trigger trigger_type
      false avg_px)).

Definition order_status_report_from_fields (fields : pydict) (ts_event : Z)
  : M (Host C) (option StatusReport) :=
  match field_text fields "basket_id", instrument_id_from_order_fields fields with
  | Some basket, Some instrument =>
      (match field_text fields "account_id" with
       | Some a => seed_account_if_needed env (Some a)
       | None => mret tt
       end) ;;
      acct ← account_id;
      match acct with
      | None => mret None
      | Some account =>
          catchM is_tvo_error (build_status fields ts_event basket instrument account)
            (fun _ => mret None)
      end
  | _, _ => mret None
  end.

Definition drain_row_from_fields (fields : pydict) (ts_event : Z) : M (Host C) DrainRow :=
  report ← order_status_report_from_fields fields ts_event;
  bindable ← lift (match report with
                   | Some _ => row_is_trustworthy fields
                   | None => Ok false
                   end);
  mret (MkRow fields ts_event report bindable).

Definition is_usable (row : DrainRow) : bool :=
  match dr_report row with Some _ => true | None => false end.

(** [for row in iter_drain_rows(events): body]: the generator is lazy, so the
    body of one row runs before the next row is interpreted. *)
Fixpoint drain_loop {A} (events : list pydict) (body : DrainRow -> M (Host C) (list A))
  : M (Host C) (list A) :=
  match events with
  | [] => mret []
  | raw :: events' =>
      let skip := drain_loop events' body in
      match order_notification_to_fields raw with
      | Raise _ => skip
      | Ok fields =>
          if negb (truthy (dget fields "basket_id")) then skip
          else
            match int_or_zero (dget fields "ts_event") with
            | Raise e => if is_tvo_error e then skip else throw e
            | Ok ts_event =>
                row ← drain_row_from_fields fields ts_event;
                here ← (if is_usable row then body row else mret []);
                rest ← skip;
                mret (here ++ rest)
            end
      end
  end.

Definition iter_drain_rows (events : list pydict) : M (Host C) (list DrainRow) :=
  drain_loop events (fun row => mret [row]).

Definition row_basket (row : DrainRow) : string := py_str (dget (dr_fields row) "basket_id").

Definition latest_drain_rows (events : list pydict) (instrument_id : option string)
  : M (Host C) (list (string * DrainRow)) :=
  rows ← iter_drain_rows events;
  let candidates :=
    List.filter (fun row => matches_instrument (dr_fields row) instrument_id None) rows in
  let winners := freshest_per_key ((fun r => (row_basket r, dr_ts_event r)) <$> candidates) in
  mret ((fun r => (row_basket r, r)) <$> omap (fun i => candidates !! i) winners).

Definition is_terminal (s : OrderStatus) : bool :=
  bool_decide (s ∈ TERMINAL_ORDER_STATUSES).

Definition row_stale_reason (cid : option string) (row : DrainRow) (live_authoritative : bool)
  (c : C) : option string :=
  match cid ≫= cache_order c with
  | None => None
  | Some order =>
      let closed := o_is_closed order in
      let non_terminal :=
        match dr_report row with Some r => negb (is_terminal (sr_status r)) | None => false end in
      let needs_age := negb closed && live_authoritative && negb (dr_ts_event row =? 0) in
      let ts_last := if needs_age then o_ts_last order else 0 in
      stale_reason (MkStaleFacts closed live_authoritative non_terminal (dr_ts_event row) ts_last)
  end.

(** One row at the re-arm barrier: publish first, then bind. *)
Definition apply_drain_row (row : DrainRow) : M (Host C) unit :=
  match dr_report row with
  | None => mret tt
  | Some report =>
      h ← get;
      let cid := drain_client_order_id (dr_fields row) (h_cache h) in
      match row_stale_reason cid row true (h_cache h) with
      | Some _ => mret tt
      | None =>
          ok ← publish_order_status_report env report;
          if negb ok then throw venue_query_unavailable
          else
            h2 ← get;
            match cid with
            | Some k =>
                whenM (dr_bindable row
                       && bool_decide (is_Some (cache_order (h_cache h2) k))
                       && bool_decide (cache_venue_order_id (h_cache h2) k = None))
                  (bind_venue_id k (row_basket row))
            | None => mret tt
            end
      end
  end.

Definition apply_drain_rows (events : list pydict) : M (Host C) unit :=
  rows ← latest_drain_rows events None;
  forM_ rows (fun kr => apply_drain_row kr.2).

Definition load_orders_events (start_sec end_sec : Z) : M (Host C) (list pydict) :=
  catchM any_exn
    (r ← call env (SLoadOrders start_sec end_sec);
     mret (match r with RRows rows => rows | _ => [] end))
    (fun e => if is_recon_unavailable e then throw e else throw venue_query_unavailable).

(** *** Recon reports *)

(** The reports kept from the freshest rows, in order. *)
Definition forwarded_reports (rows : list (string * DrainRow)) (c : C) : list StatusReport :=
  omap (fun kr : string * DrainRow =>
    match row_stale_reason (drain_client_order_id (dr_fields kr.2) c) kr.2 false c with
    | Some _ => None
    | None => dr_report kr.2
    end) rows.

Definition order_status_reports_from_events (events : list pydict)
  (instrument_id : option string) (open_only : bool) : M (Host C) (list StatusReport) :=
  match events with
  | [] => if open_only then mret [] else throw venue_query_unavailable
  | _ =>
      rows ← latest_drain_rows events instrument_id;
      h ← get;
      let reports := forwarded_reports rows (h_cache h) in
      mret (if open_only then List.filter (fun r => negb (is_terminal (sr_status r))) reports
            else reports)
  end.

Definition drain_order_status_reports (start end_ : TimeArg) (now_sec : Z)
  (instrument_id : option string) (open_only : bool) : M (Host C) (list StatusReport) :=
  let '(start_sec, end_sec) := recon_window_sec start end_ now_sec in
  events ← load_orders_events start_sec end_sec;
  order_status_reports_from_events events instrument_id open_only.

(** One drained fill: dedup, build, publish the order it needs, mark. *)
Definition recon_fill (row : DrainRow) : M (Host C) (list FillReport) :=
  let fields := dr_fields row in
  let raw_ts := dr_ts_event row in
  event_ts ← (if raw_ts =? 0 then timestamp_ns env else mret raw_ts);
  let dedup := fill_dedup_key fields raw_ts in
  seen ← fill_key_seen dedup;
  if (seen : bool) then mret []
  else
    report ← fill_report_from_fields env fields raw_ts;
    match report with
    | None => mret []
    | Some r =>
        status ← drain_row_from_fields fields event_ts;
        match dr_report status with
        | None => mret []
        | Some s =>
            ok ← publish_order_status_report env s;
            if negb ok then mret []
            else mark_fill_key dedup ;; mret [r]
        end
    end.

Definition drain_fill_reports (start end_ : TimeArg) (now_sec : Z)
  (instrument_id venue_order_id : option string) : M (Host C) (list FillReport) :=
  let '(start_sec, end_sec) := recon_window_sec start end_ now_sec in
  events ← load_orders_events start_sec end_sec;
  drain_loop events (fun row =>
    if is_str (dget (dr_fields row) "kind") "filled"
       && matches_instrument (dr_fields row) instrument_id venue_order_id
    then recon_fill row else mret []).

(** *** Cache-backed answers of [execution.py]

    [account] is the client's account id, the empty text standing for [None]. *)

Definition order_status_report_for (order : Order) (ts_init : Z) (account : string) (c : C)
  : res (option StatusReport) :=
  match venue_id_for_order order c with
  | None => Ok None
  | Some venue_id =>
      avg ← (if truthy (o_avg_px order)
             then d ← py_decimal (py_str (o_avg_px order)); Ok (Some d) else Ok None);
      Ok (Some (MkStatus account (o_instrument_id order) venue_id (o_side order)
        (o_order_type order) (o_time_in_force order)
        (if bool_decide (o_status order = SUBMITTED) then ACCEPTED else o_status order)
        (o_quantity order) (o_filled_qty order) (o_ts_accepted order) (o_ts_last order) ts_init
        (Some (o_client_order_id order)) (o_price order) (o_trigger_price order)
        (o_trigger_type order) (o_is_reduce_only order) avg))
  end.

(** The strict-usable rows of an order's tag: the newest, last arrival on ties. *)
Definition best_row (tag : string) (rows : list DrainRow) : option DrainRow :=
  fold_left (fun best row =>
    if bool_decide (str_or_empty (dget (dr_fields row) "user_tag") = tag) && dr_bindable row then
      match best with
      | None => Some row
      | Some b => if dr_ts_event b <=? dr_ts_event row then Some row else best
      end
    else best) rows None.

Definition resolve_inflight_by_tag (order0 : Order) (ts_init now_sec : Z)
  : M (Host C) (option StatusReport) :=
  let '(start_sec, end_sec) := recon_window_sec TNone TNone now_sec in
  events ← load_orders_events start_sec end_sec;
  h ← get;
  let order := default order0 (cache_order (h_cache h) (o_client_order_id order0)) in
  let account := default "" (ac_account_id (h_account h)) in
  if bool_decide (is_Some (cache_venue_order_id (h_cache h) (o_client_order_id order)))
  then lift (order_status_report_for order ts_init account (h_cache h))
  else if o_is_closed order
  then lift (order_status_report_for order ts_init account (h_cache h))
  else
    rows ← iter_drain_rows events;
    match best_row (o_client_order_id order) rows with
    | None => mret None
    | Some best =>
        bind_venue_id (o_client_order_id order) (row_basket best) ;;
        mret (dr_report best)
    end.

Definition generate_order_status_report (client_order_id venue_order_id : option string)
  (now_sec : Z) : M (Host C) (option StatusReport) :=
  h ← get;
  let c := h_cache h in
  let by_client : option Order := filled_text client_order_id ≫= cache_order c in
  let order :=
    match by_client with
    | Some o => Some o
    | None => (venue_order_id ≫= cache_client_order_id c) ≫= cache_order c
    end in
  match order with
  | None => mret None
  | Some o =>
      ts_init ← timestamp_ns env;
      let account := default "" (ac_account_id (h_account h)) in
      trading ← enable_trading;
      if negb trading then lift (order_status_report_for o ts_init account c)
      else if o_is_inflight o && bool_decide (venue_id_for_order o c = None) then
        report ← resolve_inflight_by_tag o ts_init now_sec;
        match report with
        | Some r => mret (Some r)
        | None => throw venue_query_unavailable
        end
      else lift (order_status_report_for o ts_init account c)
  end.

(** [order_status_report_for] over a list of orders, dropping those with no
    venue id. *)
Fixpoint reports_for (orders : list Order) (ts_init : Z) (account : string) (c : C)
  : res (list StatusReport) :=
  match orders with
  | [] => Ok []
  | o :: orders' =>
      r ← order_status_report_for o ts_init account c;
      rest ← reports_for orders' ts_init account c;
      Ok (match r with Some x => x :: rest | None => rest end)
  end.

Definition cache_backed_order_status_reports (instrument_id : option string) (open_only : bool)
  : M (Host C) (list StatusReport) :=
  ts_init ← timestamp_ns env;
  h ← get;
  lift (reports_for
    (if open_only then cache_orders_open (h_cache h) instrument_id
     else cache_orders (h_cache h) instrument_id)
    ts_init (default "" (ac_account_id (h_account h))) (h_cache h)).

Definition generate_order_status_reports (start end_ : TimeArg) (now_sec : Z)
  (instrument_id : option string) (open_only : bool) : M (Host C) (list StatusReport) :=
  trading ← enable_trading;
  if negb trading then cache_backed_order_status_reports instrument_id open_only
  else drain_order_status_reports start end_ now_sec instrument_id open_only.

Definition generate_fill_reports (start end_ : TimeArg) (now_sec : Z)
  (instrument_id venue_order_id : option string) : M (Host C) (list FillReport) :=
  trading ← enable_trading;
  if negb trading then throw venue_query_unavailable
  else drain_fill_reports start end_ now_sec instrument_id venue_order_id.

End Drain.

(** ** Frames *)

Lemma build_status_quiet {C} `{NautilusTypes} (env : Env C) fields ts b i a :
  preserves quiet (build_status env fields ts b i a).
Proof. unfold build_status. preserve. Qed.
#[export] Hint Resolve build_status_quiet : preserve.

Lemma status_report_quiet {C} `{NautilusTypes} (env : Env C) fields ts :
  preserves quiet (order_status_report_from_fields env fields ts).
Proof. unfold order_status_report_from_fields. preserve. Qed.
#[export] Hint Resolve status_report_quiet : preserve.

Lemma drain_row_quiet {C} `{NautilusTypes} (env : Env C) fields ts :
  preserves quiet (drain_row_from_fields env fields ts).
Proof. unfold drain_row_from_fields. preserve. Qed.
#[export] Hint Resolve drain_row_quiet : preserve.

(** ** Facts about the re-arm apply *)

Section Apply.
Context {C : Type} `{CacheLaws C} `{NautilusTypes}.
Variable env : Env C.
Implicit Types (h : Host C) (row : DrainRow).

Definition status_outs (l : list Out) : list StatusReport :=
  omap (fun o => match o with OStatusReport r => Some r | _ => None end) l.

(** Steps that publish no status report and leave the cache alone. *)
Definition mute h h' : Prop :=
  h_cache h' = h_cache h /\ status_outs (h_out h') = status_outs (h_out h).

#[export] Instance mute_preorder : PreOrder mute.
Proof. split; [done|]. unfold mute. intros ? ? ? [] []. split; congruence. Qed.

Lemma status_outs_app l l' : status_outs (l ++ l') = status_outs l ++ status_outs l'.
Proof. apply omap_app. Qed.

Lemma emit_mute o : status_outs [o] = [] -> preserves mute (emit (C:=C) o).
Proof.
  intros Ho h. split; [done|]. simpl. by rewrite status_outs_app, Ho, app_nil_r.
Qed.

Lemma timestamp_mute : preserves mute (timestamp_ns env).
Proof. by intros h. Qed.
Lemma account_id_mute : preserves mute (account_id (C:=C)).
Proof. by intros h. Qed.
Lemma set_account_id_mute id : preserves mute (set_account_id (C:=C) id).
Proof. by intros h. Qed.
#[local] Hint Resolve timestamp_mute account_id_mute set_account_id_mute : preserve.
#[local] Hint Extern 2 (preserves mute (emit _)) => apply emit_mute; reflexivity : preserve.
#[local] Hint Extern 3 (preserves mute (modify _)) => intros ?; done : preserve.

Lemma seed_mute hint : preserves mute (seed_account_if_needed env hint).
Proof. unfold seed_account_if_needed. preserve. Qed.
#[local] Hint Resolve seed_mute : preserve.

Lemma build_status_mute fields ts b i a : preserves mute (build_status env fields ts b i a).
Proof. unfold build_status. preserve. Qed.
#[local] Hint Resolve build_status_mute : preserve.

Lemma drain_row_mute fields ts : preserves mute (drain_row_from_fields env fields ts).
Proof. unfold drain_row_from_fields, order_status_report_from_fields. preserve. Qed.

Lemma drain_row_fields fields ts h row h' :
  drain_row_from_fields env fields ts h = (Ok row, h') -> dr_fields row = fields.
Proof.
  unfold drain_row_from_fields, mbind, M_bind, lift.
  destruct (order_status_report_from_fields env fields ts h) as [[r|] h1]; [|done].
  destruct (match r with Some _ => _ | None => _ end); [|done]. by intros [= <- _].
Qed.

(** A row the drain yields: it has a basket and a report. *)
Definition yielded row : Prop :=
  field_text (dr_fields row) "basket_id" = Some (row_basket row) /\ is_usable row = true.

(** An event the drain reads as a row: order fields with a basket and a time
    stamp, interpreted in some state of the host. *)
Definition reads_as (raw : pydict) row : Prop :=
  exists fields ts h0 h1, order_notification_to_fields raw = Ok fields
  /\ truthy (dget fields "basket_id") = true
  /\ int_or_zero (dget fields "ts_event") = Ok ts
  /\ drain_row_from_fields env fields ts h0 = (Ok row, h1).

(** An event that is no row: unreadable, without a basket, or without a usable
    time stamp. *)
Definition unreadable (raw : pydict) : Prop :=
  match order_notification_to_fields raw with
  | Raise _ => True
  | Ok fields =>
      truthy (dget fields "basket_id") = false
      \/ exists e, int_or_zero (dget fields "ts_event") = Raise e
  end.

(** The rows of a drain: every readable event that makes a report, in order. *)
Inductive interprets : list pydict -> list DrainRow -> Prop :=
  | interprets_nil : interprets [] []
  | interprets_skip raw events rows :
      unreadable raw -> interprets events rows -> interprets (raw :: events) rows
  | interprets_none raw row events rows :
      reads_as raw row -> dr_report row = None -> interprets events rows ->
      interprets (raw :: events) rows
  | interprets_row raw row report events rows :
      reads_as raw row -> dr_report row = Some report -> interprets events rows ->
      interprets (raw :: events) (row :: rows).

Lemma reads_as_yielded raw row :
  reads_as raw row -> is_usable row = true -> yielded row.
Proof.
  intros (fields & ts & h0 & h1 & _ & Hb & _ & Hf%drain_row_fields) Hu. split; [|done].
  unfold field_text, row_basket. by rewrite Hf, Hb.
Qed.

Lemma interprets_yielded events rows : interprets events rows -> Forall yielded rows.
Proof.
  induction 1 as [|raw events rows _ _ IH|raw row events rows _ _ _ IH|raw row report events rows Hr E _ IH];
    [done..|].
  constructor; [|done]. apply (reads_as_yielded raw); [done|]. unfold is_usable. by rewrite E.
Qed.

Lemma iter_drain_rows_spec events : forall h rows h',
  iter_drain_rows env events h = (Ok rows, h') -> interprets events rows /\ mute h h'.
Proof.
  unfold iter_drain_rows.
  induction events as [|raw events IH]; intros h rows h'; cbn [drain_loop].
  { intros [= <- <-]. split; [constructor|done]. }
  assert (Hskip : unreadable raw ->
    drain_loop env events (fun row => mret [row]) h = (Ok rows, h') ->
    interprets (raw :: events) rows /\ mute h h').
  { intros Hu E. destruct (IH _ _ _ E) as [? ?]. by split; [apply interprets_skip|]. }
  unfold unreadable in Hskip.
  destruct (order_notification_to_fields raw) as [fields|] eqn:En; [|by apply Hskip].
  destruct (truthy (dget fields "basket_id")) eqn:Hb; [|apply Hskip; by left]. cbn [negb].
  destruct (int_or_zero (dget fields "ts_event")) as [ts|e] eqn:Et;
    [|destruct (is_tvo_error e); [apply Hskip; eauto|done]].
  unfold mbind at 1, M_bind at 1. pose proof (drain_row_mute fields ts h) as Hm.
  destruct (drain_row_from_fields env fields ts h) as [[row|] h1] eqn:Er; [|done].
  assert (Hrd : reads_as raw row) by (exists fields, ts, h, h1; done).
  unfold mbind, M_bind, is_usable.
  set (body := fun row : DrainRow => mret [row] : M (Host C) (list DrainRow)) in *.
  destruct (dr_report row) eqn:Ed; simpl;
    destruct (drain_loop env events body h1) as [[rest|] h2] eqn:E; try done;
    destruct (IH _ _ _ E) as [Hr Hm']; intros [= <- <-]; (split; [|by etransitivity]).
  - by eapply interprets_row.
  - by eapply interprets_none.
Qed.

(** Row [i] has the last word on its basket: no row of that basket is newer,
    and none as new arrived later. *)
Definition last_word (all : list DrainRow) (i : nat) row : Prop :=
  all !! i = Some row /\
  forall j row', all !! j = Some row' -> row_basket row' = row_basket row ->
    dr_ts_event row' < dr_ts_event row
    \/ dr_ts_event row' = dr_ts_event row /\ (j <= i)%nat.

Lemma last_word_freshest all i row :
  last_word all i row <->
  all !! i = Some row /\
  exists k, freshest ((fun r => (row_basket r, dr_ts_event r)) <$> all) k i.
Proof.
  unfold last_word, freshest. split; intros [Hi Hf]; (split; [done|]).
  - exists (row_basket row), (dr_ts_event row). rewrite list_lookup_fmap, Hi. split; [done|].
    intros j ts' Hj. rewrite list_lookup_fmap in Hj.
    destruct (all !! j) as [r'|] eqn:Ej; simplify_eq/=. eauto.
  - destruct Hf as (k & ts & Hk & Hmax). rewrite list_lookup_fmap, Hi in Hk. simplify_eq/=.
    intros j row' Hj Eb. apply (Hmax j). by rewrite list_lookup_fmap, Hj, <- Eb.
Qed.

(** The rows the drain keeps: one per basket, each with the last word. *)
Definition last_words (all kept : list DrainRow) : Prop :=
  NoDup (row_basket <$> kept) /\
  forall row, row ∈ kept <-> exists i, last_word all i row.

Lemma winners_keep all :
  last_words all (omap (fun i => all !! i)
    (freshest_per_key ((fun r => (row_basket r, dr_ts_event r)) <$> all))).
Proof.
  set (keys := (fun r => (row_basket r, dr_ts_event r)) <$> all).
  destruct (freshest_per_key_spec keys) as [Hnd Hin].
  set (win := freshest_per_key keys) in *. split.
  - assert (Hw : forall i, i ∈ win -> exists k, freshest keys k i) by (intros i Hi; by apply Hin).
    clear Hin. induction Hnd as [|i win Hi Hnd IH]; simpl; [constructor|].
    destruct (all !! i) as [r|] eqn:Er; [|apply IH; intros; apply Hw; by constructor].
    constructor; [|apply IH; intros; apply Hw; by constructor].
    intros (r' & Hk & (j & Hj & Er')%list_elem_of_omap)%list_elem_of_fmap.
    assert (last_word all i r) as [_ Hi'] by (apply last_word_freshest; split; [done|]; apply Hw; by constructor).
    assert (last_word all j r') as [_ Hj'] by (apply last_word_freshest; split; [done|]; apply Hw; by constructor).
    assert (i = j) as ->; [|done].
    pose proof (Hi' j r' Er' (eq_sym Hk)). pose proof (Hj' i r Er Hk). lia.
  - intros row. rewrite list_elem_of_omap. split.
    + intros (i & Hi & Er). exists i. apply last_word_freshest. split; [done|]. by apply Hin.
    + intros (i & [Er Hf]%last_word_freshest). exists i. split; [|done]. by apply Hin.
Qed.

Lemma latest_drain_rows_spec events h rows h' :
  latest_drain_rows env events None h = (Ok rows, h') ->
  exists all, interprets events all /\ last_words all rows.*2 /\ rows.*1 = row_basket <$> rows.*2
    /\ mute h h'.
Proof.
  unfold latest_drain_rows, mbind, M_bind.
  destruct (iter_drain_rows env events h) as [[all|] h1] eqn:E; [|done].
  destruct (iter_drain_rows_spec events h all h1 E) as [Hi Hm].
  assert (List.filter (fun row => matches_instrument (dr_fields row) None None) all = all) as ->.
  { clear. induction all as [|r all IH]; [done|]. simpl. by f_equal. }
  intros [= <- <-].
  exists all. rewrite <- !list_fmap_compose. simpl. rewrite list_fmap_id.
  split_and!; [done|apply winners_keep|done..].
Qed.

Definition barrier_stale (c : C) row : bool :=
  match row_stale_reason (drain_client_order_id (dr_fields row) c) row true c with
  | Some _ => true
  | None => false
  end.

(** The reports the barrier owes for a list of rows. *)
Definition owed (c : C) (rows : list DrainRow) : list StatusReport :=
  omap (fun row => if barrier_stale c row then None else dr_report row) rows.

Lemma resolve_frame fields cid b c c' :
  cache_add_venue_order_id cid b c = Ok c' -> field_text fields "basket_id" <> Some b ->
  drain_client_order_id fields c' = drain_client_order_id fields c.
Proof.
  intros Hadd Hb. unfold drain_client_order_id, basket_client_id, resolve_client_order_id.
  assert (E : field_text fields "basket_id" ≫= cache_client_order_id c' =
              field_text fields "basket_id" ≫= cache_client_order_id c).
  { destruct (field_text fields "basket_id") as [b'|]; [|done]. simpl.
    apply (add_venue_client_other _ _ _ _ _ Hadd). congruence. }
  rewrite E.
  destruct (field_text fields "basket_id" ≫= cache_client_order_id c); [done|].
  destruct (field_text fields "user_tag"); [|done].
  by rewrite (add_venue_order _ _ _ _ _ Hadd).
Qed.

Lemma stale_frame row cid b c c' :
  cache_add_venue_order_id cid b c = Ok c' -> field_text (dr_fields row) "basket_id" <> Some b ->
  barrier_stale c' row = barrier_stale c row.
Proof.
  intros Hadd Hb. unfold barrier_stale. rewrite (resolve_frame _ _ _ _ _ Hadd Hb).
  unfold row_stale_reason. destruct (drain_client_order_id _ c) as [k|]; [|done]. simpl.
  by rewrite (add_venue_order _ _ _ _ _ Hadd).
Qed.

(** One applied row: it published what it owed, and if it changed the cache
    it bound its own basket, from trusted terms. *)
Lemma apply_drain_row_effect row h h' :
  apply_drain_row env row h = (Ok tt, h') ->
  status_outs (h_out h') = status_outs (h_out h) ++ owed (h_cache h) [row] /\
  (h_cache h' = h_cache h \/
   exists cid, cache_add_venue_order_id cid (row_basket row) (h_cache h) = Ok (h_cache h') /\
     dr_bindable row = true /\ cache_venue_order_id (h_cache h) cid = None).
Proof.
  unfold apply_drain_row, owed, barrier_stale. csimpl.
  destruct (dr_report row) as [r|] eqn:Er.
  2: { intros [= <-]. destruct (row_stale_reason _ _ _ _); csimpl; rewrite app_nil_r; auto. }
  change ((get ≫= ?f) h) with (f h h). cbv beta zeta.
  destruct (row_stale_reason _ row true (h_cache h)) as [why|].
  { intros [= <-]. rewrite app_nil_r. auto. }
  unfold publish_order_status_report, send_status_report, catchM, lift, mbind, M_bind, mret, M_ret.
  destruct (e_send_status env r) as [[]|e]; [|done]. simpl.
  set (cid := drain_client_order_id (dr_fields row) (h_cache h)).
  assert (Hout : status_outs (h_out h ++ [OStatusReport r]) = status_outs (h_out h) ++ [r])
    by (by rewrite status_outs_app).
  unfold get. destruct cid as [k|]; [|by intros [= <-]; auto].
  destruct (dr_bindable row) eqn:Hd; simpl; [|by intros [= <-]; auto].
  destruct (bool_decide (is_Some _)); simpl; [|by intros [= <-]; auto].
  case_bool_decide as Hn; simpl; [|by intros [= <-]; auto].
  unfold bind_venue_id. run_monad. simpl.
  destruct (cache_add_venue_order_id k (row_basket row) (h_cache h)) as [c'|] eqn:Ea; [|done].
  intros [= <-]. split; [done|]. right. by exists k.
Qed.

Lemma apply_rows_effect (rows : list (string * DrainRow)) : forall h h',
  Forall yielded rows.*2 -> rows.*1 = row_basket <$> rows.*2 -> NoDup rows.*1 ->
  forM_ rows (fun kr => apply_drain_row env kr.2) h = (Ok tt, h') ->
  status_outs (h_out h') = status_outs (h_out h) ++ owed (h_cache h) rows.*2.
Proof.
  induction rows as [|[k row] rows IH]; intros h h' Hy Hk Hnd; csimpl.
  { intros [= <-]. by rewrite app_nil_r. }
  csimpl in *. apply Forall_cons in Hy as [[Hb _] Hy]. injection Hk as -> Hk.
  apply NoDup_cons in Hnd as [Hni Hnd]. unfold mbind, M_bind.
  destruct (apply_drain_row env row h) as [[[]|] h1] eqn:E; [|done]. intros Hrun.
  destruct (apply_drain_row_effect _ _ _ E) as [Ho Hc].
  rewrite (IH h1 h' Hy Hk Hnd Hrun), Ho, <- app_assoc. f_equal.
  assert (Hs : owed (h_cache h1) rows.*2 = owed (h_cache h) rows.*2).
  { destruct Hc as [->|(cid & Ha & _)]; [done|]. unfold owed.
    clear -Ha Hy Hk Hni H. rewrite Hk in Hni. revert Hy Hni.
    generalize rows.*2 as l. induction l as [|r l IHl]; intros Hy Hni; csimpl; [done|].
    apply Forall_cons in Hy as [[Hr _] Hy]. apply not_elem_of_cons in Hni as [Hne Hni].
    rewrite (stale_frame r cid _ _ _ Ha), (IHl Hy Hni); [done|]. rewrite Hr. congruence. }
  rewrite Hs. unfold owed. csimpl. by destruct (if barrier_stale _ _ then _ else _).
Qed.

(** The order a row speaks of: the one its basket is bound to, else the open
    order its tag names. *)
Definition speaks_of (c : C) row (k : string) : Prop :=
  match cache_client_order_id c (row_basket row) with
  | Some cid => k = cid
  | None =>
      field_text (dr_fields row) "user_tag" = Some k
      /\ exists o, cache_order c k = Some o /\ o_is_closed o = false
  end.

(** The live stream has outrun a row: its order is closed here, or has moved
    after the row's time stamp. *)
Definition outrun (c : C) row : Prop :=
  exists k o, speaks_of c row k /\ cache_order c k = Some o
  /\ (o_is_closed o = true \/ dr_ts_event row <> 0 /\ dr_ts_event row < o_ts_last o).

Lemma speaks_of_spec c row k :
  yielded row -> drain_client_order_id (dr_fields row) c = Some k <-> speaks_of c row k.
Proof.
  intros [Hb _]. unfold drain_client_order_id, basket_client_id, resolve_client_order_id, speaks_of.
  rewrite Hb. simpl. destruct (cache_client_order_id c (row_basket row)); [naive_solver|].
  destruct (field_text _ "user_tag") as [tag|]; [|naive_solver].
  unfold is_open. destruct (cache_order c tag) as [o|] eqn:Eo; [destruct (o_is_closed o) eqn:Ec|]; simpl.
  2: { split; [intros [= <-]; eauto|by intros [[= <-] _]]. }
  all: split; [done|intros ([= <-] & o' & Ho & ?)]; congruence.
Qed.

Lemma barrier_stale_spec c row : yielded row -> barrier_stale c row = true <-> outrun c row.
Proof.
  intros Hy. unfold barrier_stale, row_stale_reason, outrun.
  setoid_rewrite <- speaks_of_spec; [|done].
  destruct (drain_client_order_id _ c) as [k|]; [|split; [done|by intros (? & ? & ? & _)]].
  simpl. destruct (cache_order c k) as [o|] eqn:Eo.
  2: { split; [done|]. intros (? & ? & [= <-] & ? & _). congruence. }
  unfold stale_reason. cbn. destruct (o_is_closed o) eqn:Ec; cbn.
  { split; [|done]. intros _. exists k, o. auto. }
  split.
  - intros Hs. exists k, o. split_and!; [done..|]. right.
    destruct (Z.eqb_spec (dr_ts_event row) 0); cbn in Hs; [done|].
    destruct (Z.ltb_spec (dr_ts_event row) (o_ts_last o)); done.
  - intros (? & o' & [= <-] & Ho & Hw). assert (o' = o) as -> by congruence.
    destruct Hw as [?|[Hz Hlt]]; [congruence|].
    apply Z.eqb_neq in Hz as ->. cbn. by apply Z.ltb_lt in Hlt as ->.
Qed.

(** What is owed for kept rows is the reports of those not outrun. *)
Lemma owed_spec c rows :
  Forall yielded rows ->
  exists published, published `sublist_of` rows
  /\ (forall row, row ∈ published <-> row ∈ rows /\ ~ outrun c row)
  /\ Some <$> owed c rows = dr_report <$> published.
Proof.
  induction 1 as [|row rows Hy _ (pub & Hsub & Hin & Eo)].
  { exists []. split_and!; [done| |done]. intros row. rewrite elem_of_nil. naive_solver. }
  assert (exists r, dr_report row = Some r) as [r Er].
  { destruct Hy as [_ Hu]. unfold is_usable in Hu. destruct (dr_report row); naive_solver. }
  pose proof (barrier_stale_spec c row Hy) as Hs. unfold owed in *. csimpl.
  destruct (barrier_stale c row).
  - exists pub. split_and!; [by constructor| |done].
    intros x. rewrite Hin, elem_of_cons. naive_solver.
  - exists (row :: pub). split_and!; [by constructor| |].
    + intros x. rewrite !elem_of_cons, Hin. naive_solver.
    + rewrite Er. csimpl. by rewrite Er, Eo.
Qed.

(** (C8) The re-arm barrier publishes before it lets trading resume.  Read the
    drained events into rows (every readable event that makes a report).  When
    applying the drain returns, the reports published since it began are those
    of a list of rows with at most one row per basket, and a row is in it
    exactly when no row of its basket is newer (nor, equally new, later in the
    drain) and the live stream has not outrun it: its order, in the cache the
    barrier started from, is not closed and has not moved after a dated row.
    Binding the venue ids of earlier rows changes nothing a later row owes, and
    a report that fails to publish aborts the barrier. *)
Theorem barrier_publishes_all (events : list pydict) h h' :
  apply_drain_rows env events h = (Ok tt, h') ->
  exists all published reports,
    interprets events all
    /\ NoDup (row_basket <$> published)
    /\ (forall row, row ∈ published <->
          (exists i, last_word all i row) /\ ~ outrun (h_cache h) row)
    /\ dr_report <$> published = Some <$> reports
    /\ status_outs (h_out h') = status_outs (h_out h) ++ reports.
Proof.
  unfold apply_drain_rows, mbind, M_bind.
  destruct (latest_drain_rows env events None h) as [[rows|] h1] eqn:Hl; [|done]. intros Hrun.
  destruct (latest_drain_rows_spec _ _ _ _ Hl) as (all & Hi & [Hnd Hk] & Hb & [Hc Ho]).
  assert (Forall yielded rows.*2) as Hy.
  { apply Forall_forall. intros r (i & Hr & _)%Hk. apply interprets_yielded in Hi.
    rewrite Forall_lookup in Hi. eauto. }
  destruct (owed_spec (h_cache h) rows.*2 Hy) as (pub & Hsub & Hin & E).
  exists all, pub, (owed (h_cache h) rows.*2). split_and!; [done| | |done|].
  - eapply sublist_NoDup; [done|]. by apply fmap_sublist.
  - intros row. by rewrite Hin, Hk.
  - rewrite <- Ho, <- Hc. apply apply_rows_effect; try done. by rewrite Hb.
Qed.

End Apply.

#[local] Existing Instance PlainTypes.

Definition sample_drain : list pydict :=
  [Sample.fill_event "F1" Sample.px; ∅; Sample.fill_event "F2" Sample.px].

Definition barrier_host : Host MapCache := Sample.host [Sample.order SUBMITTED false] Connecting.

Lemma barrier_publishes_all_witness :
  let h' := (apply_drain_rows Sample.env sample_drain barrier_host).2 in
  (exists all published reports,
    interprets Sample.env sample_drain all
    /\ NoDup (row_basket <$> published)
    /\ (forall row, row ∈ published <->
          (exists i, last_word all i row) /\ ~ outrun (h_cache barrier_host) row)
    /\ dr_report <$> published = Some <$> reports
    /\ status_outs (h_out h') = status_outs (h_out barrier_host) ++ reports) /\
  length (status_outs (h_out h')) = 1%nat /\
  cache_venue_order_id (h_cache h') "O-1" = Some "B1".
Proof.
  intros h'. split; [|split; vm_compute; reflexivity].
  apply (barrier_publishes_all Sample.env sample_drain barrier_host h').
  subst h'.
  destruct (apply_drain_rows Sample.env sample_drain barrier_host) as [[[]|e] h2] eqn:E; [done|].
  exfalso. apply (f_equal (fun r => match r.1 with Ok _ => true | Raise _ => false end)) in E.
  vm_compute in E. discriminate.
Defined.

(** ** The recon window *)

(** Whatever bounds a recon command carries (absent, future, swapped, in
    the wrong unit), the window queried is ordered, ends where asked and spans
    at most 32 days; its start is the one asked for, the day start, or the
    result of a clamp. *)
Theorem recon_window_bounded (start end_ : TimeArg) (now_sec : Z) :
  let '(s, e) := recon_window_sec start end_ now_sec in
  s <= e /\ e - s <= MAX_RECON_SPAN_S /\ e = default now_sec (to_sec end_) /\
  (to_sec start = Some s \/ s = e \/ s = e - MAX_RECON_SPAN_S \/ s = now_sec / 86400 * 86400).
Proof.
  unfold recon_window_sec. generalize (default now_sec (to_sec end_)) as e. intros e.
  assert (Hs : exists s0, default (now_sec / 86400 * 86400) (to_sec start) = s0 /\
                (to_sec start = Some s0 \/ s0 = now_sec / 86400 * 86400))
    by (destruct (to_sec start); simpl; eauto).
  destruct Hs as (s0 & -> & Hs0). unfold MAX_RECON_SPAN_S.
  destruct (Z.ltb_spec e s0); [replace (32 * 86400 <? e - e) with false by lia; split_and!; auto; lia|].
  destruct (Z.ltb_spec (32 * 86400) (e - s0)); split_and!; auto; try lia. naive_solver.
Qed.

(** ** In-flight recovery *)

(** A strict-usable row of the order with this tag. *)
Definition candidate (tag : string) (row : DrainRow) : bool :=
  bool_decide (str_or_empty (dget (dr_fields row) "user_tag") = tag) && dr_bindable row.

Lemma best_row_snoc tag rows row :
  best_row tag (rows ++ [row]) =
  if candidate tag row then
    match best_row tag rows with
    | None => Some row
    | Some b => if dr_ts_event b <=? dr_ts_event row then Some row else best_row tag rows
    end
  else best_row tag rows.
Proof. unfold best_row. rewrite fold_left_app. done. Qed.

(** In-flight recovery answers from one row only: a trusted row that
    carries the order's own tag, newer than every other such row and the last
    to arrive among equals; with no such row it binds nothing and gives no
    answer. *)
Theorem best_row_correct (tag : string) (rows : list DrainRow) :
  match best_row tag rows with
  | None => forall r, r ∈ rows -> candidate tag r = false
  | Some b =>
      exists pre post, rows = pre ++ b :: post /\ candidate tag b = true /\
        (forall r, r ∈ pre -> candidate tag r = true -> dr_ts_event r <= dr_ts_event b) /\
        (forall r, r ∈ post -> candidate tag r = true -> dr_ts_event r < dr_ts_event b)
  end.
Proof.
  induction rows as [|row rows IH] using rev_ind; [by intros r ?%not_elem_of_nil|].
  rewrite best_row_snoc. destruct (best_row tag rows) as [b|].
  - destruct IH as (pre & post & -> & Hb & Hpre & Hpost).
    assert (Hall : forall r, r ∈ pre ++ b :: post -> candidate tag r = true ->
                             dr_ts_event r <= dr_ts_event b).
    { intros r [Hr|[->|Hr]%elem_of_cons]%elem_of_app Hc; [auto|lia|].
      specialize (Hpost r Hr Hc). lia. }
    assert (Hold : (candidate tag row = true -> dr_ts_event row < dr_ts_event b) ->
      exists pre0 post0, (pre ++ b :: post) ++ [row] = pre0 ++ b :: post0 /\
        candidate tag b = true /\
        (forall r, r ∈ pre0 -> candidate tag r = true -> dr_ts_event r <= dr_ts_event b) /\
        (forall r, r ∈ post0 -> candidate tag r = true -> dr_ts_event r < dr_ts_event b)).
    { intros Hrow. exists pre, (post ++ [row]). rewrite <- app_assoc. split_and!; [done..|].
      intros r [Hr| ->%list_elem_of_singleton]%elem_of_app Hc; auto. }
    destruct (candidate tag row) eqn:Ec; [|by apply Hold].
    destruct (Z.leb_spec (dr_ts_event b) (dr_ts_event row)); [|by apply Hold].
    exists (pre ++ b :: post), []. split_and!; [done..| |by intros r ?%not_elem_of_nil].
    intros r Hr Hc. specialize (Hall r Hr Hc). lia.
  - destruct (candidate tag row) eqn:Ec.
    + exists rows, []. split_and!; [done..| |by intros r ?%not_elem_of_nil].
      intros r Hr Hc. by rewrite (IH r Hr) in Hc.
    + intros r [Hr| ->%list_elem_of_singleton]%elem_of_app; auto.
Qed.

(** ** A row the skip does not cover *)

#[local] Existing Instance PlainTypes.

(** An average price that is not a number raises [decimal.InvalidOperation],
    which is none of the errors a malformed row is skipped for: the readable row
    behind it is not interpreted either. *)
Definition garbled_row : pydict :=
  <["avg_fill_price" := VStr "n/a"]> (Sample.fill_event "F1" Sample.px).

Lemma garbled_average_aborts_drain :
  (iter_drain_rows Sample.env [garbled_row; Sample.fill_event "F2" Sample.px]
     (Sample.host [Sample.order ACCEPTED false] Live)).1 = Raise invalid_operation.
Proof. vm_compute. reflexivity. Qed.
