(* ===== verification/Intake.v ===== *)
(** * Venue notification intake

    [VenueNotificationIntake] of [notification_intake.py]: a normalised order
    notification becomes events of a tracked order or reports of an external
    one.  Every method is modelled with its guards, the writes it makes to the
    shared client state and what it emits. *)

From Stdlib Require Import Ascii String.
From stdpp Require Import base gmap strings list.
From Stdlib Require Import ZArith Lia.
From S2P Require Import Prelude PyVal Plant Lru Ident Nautilus Orders OrderRows Commission Host Drain.
Import Text.
Open Scope string_scope.
Open Scope list_scope.
Open Scope Z_scope.

Section Intake.
Context {C : Type} `{CacheOps C} `{NautilusTypes}.
Variable env : Env C.

Definition who_of (order : Order) : Who :=
  MkWho (o_strategy_id order) (o_instrument_id order) (o_client_order_id order).

Definition who_as (order : Order) (cid : string) : Who :=
  MkWho (o_strategy_id order) (o_instrument_id order) cid.

Definition event_time (fields : pydict) : M (Host C) Z :=
  if is_none (dget fields "ts_event") then timestamp_ns env
  else lift (py_int (dget fields "ts_event")).

Definition emit_accepted (order : Order) (cid venue_id : string) (ts_event : Z)
  : M (Host C) unit :=
  whenM (bool_decide (o_status order = SUBMITTED))
    (emit (OAccepted (who_as order cid) venue_id ts_event)).

Definition resolve_updated_terms (order : Order) (action : OrderAction)
  : res (Z * option Price * option Price) :=
  qty ← match a_quantity action with
        | Some q => quantity_from_int q
        | None => Ok (o_quantity order)
        end;
  let prec := px_precision <$> o_price order in
  price ← (if is_none (a_price action) then Ok (o_price order)
           else p ← price_from_wire (a_price action) prec; Ok (Some p));
  trigger ← (if is_none (a_trigger action) then Ok (o_trigger_price order)
             else p ← price_from_wire (a_trigger action) prec; Ok (Some p));
  Ok (qty, price, trigger).

Definition emit_triggered_guarded (order : Order) (cid venue_id : string) (ts_event : Z)
  : M (Host C) unit :=
  if negb (bool_decide (o_order_type order ∈ TRIGGERABLE_ORDER_TYPES))
     || bool_decide (o_status order = TRIGGERED) then mret tt
  else emit (OTriggered (who_as order cid) venue_id ts_event).

Definition handle_tracked_fill (order : Order) (cid venue_id : string) (fields : pydict)
  (ts_event : Z) (action : OrderAction) : M (Host C) unit :=
  match a_fill_qty action, a_trade_id action with
  | Some n, Some trade_id =>
      identity_ts ← lift (fill_identity_ts fields);
      let dedup := fill_dedup_key fields identity_ts in
      seen ← fill_key_seen dedup;
      if (seen : bool) then mret tt
      else
        h ← get;
        priced ← lift (catch is_tvo_error
          (q ← quantity_from_int n;
           if is_none (a_fill_px action) then Raise (Exn ExValue None "fill price missing")
           else
             p ← price_for_instrument (o_instrument_id order) (a_fill_px action) (h_cache h);
             Ok (Some (q, p)))
          (fun _ => Ok None));
        match priced with
        | None => latch_order_plant
        | Some (q, p) =>
            whenM (match o_leaves_qty order with Some l => l <? q | None => false end)
              latch_order_plant ;;
            h2 ← get;
            commission ← lift (fill_commission (o_instrument_id order) fields q h2);
            emit (OFilled (who_as order cid) venue_id trade_id (o_side order)
                    (o_order_type order) q p commission ts_event) ;;
            mark_fill_key dedup
        end
  | _, _ => mret tt
  end.

Definition status_key_of (r : StatusReport) : StatusKey :=
  MkStatusKey (sr_venue_order_id r) (sr_status r) (sr_quantity r) (sr_price r)
    (sr_trigger_price r) (sr_filled r) (sr_avg_px r).

(** The book's last snapshot of a venue order; a hit refreshes its recency. *)
Definition untracked_get (key : string) : M (Host C) (option StatusKey) :=
  fun h =>
    let '(v, b) := usb_get key (st_untracked_status (h_stores h)) in
    (Ok v, on_stores (fun st => MkStores (st_seen_fill_keys st) b) h).

Definition untracked_record (key : string) (v : StatusKey) : M (Host C) unit :=
  modify (on_stores (fun st => MkStores (st_seen_fill_keys st)
                                 (usb_record key v (st_untracked_status st)))).

(** [false] suppresses the fill that follows. *)
Definition publish_untracked_status (fields : pydict) (ts_event : Z) : M (Host C) bool :=
  row ← drain_row_from_fields env fields ts_event;
  match dr_report row with
  | None => mret true
  | Some report =>
      let venue_key := sr_venue_order_id report in
      last ← untracked_get venue_key;
      if bool_decide (last = Some (status_key_of report)) then mret true
      else
        ok ← publish_order_status_report env report;
        if negb ok then mret false
        else untracked_record venue_key (status_key_of report) ;; mret true
  end.

Definition publish_untracked_fill (fields : pydict) : M (Host C) unit :=
  if negb (is_str (dget fields "kind") "filled") then mret tt
  else
    identity_ts ← lift (fill_identity_ts fields);
    let dedup := fill_dedup_key fields identity_ts in
    seen ← fill_key_seen dedup;
    if (seen : bool) then mret tt
    else
      report ← fill_report_from_fields env fields identity_ts;
      match report with
      | None => mret tt
      | Some r => send_fill_report env r ;; mark_fill_key dedup
      end.

Definition handle_untracked_notification (fields : pydict) : M (Host C) unit :=
  ts_event ← event_time fields;
  if negb (truthy (dget fields "basket_id"))
     || negb (truthy (dget fields "instrument_id") || truthy (dget fields "symbol"))
  then mret tt
  else
    (match field_text fields "account_id" with
     | Some a => seed_account_if_needed env (Some a)
     | None => mret tt
     end) ;;
    acct ← account_id;
    match acct with
    | None => mret tt
    | Some _ =>
        ok ← publish_untracked_status fields ts_event;
        whenM ok (publish_untracked_fill fields)
    end.

(** What a tracked order's action does. *)
Definition perform_action (order : Order) (cid venue_id : string) (fields : pydict)
  (ts_event : Z) (action : OrderAction) : M (Host C) unit :=
  let kind := a_kind action in
  let reason := default "None" (a_reason action) in
  let w := who_as order cid in
  if bool_decide (kind = "accepted") then emit_accepted order cid venue_id ts_event
  else if bool_decide (kind = "rejected") then emit (ORejected w reason ts_event)
  else if bool_decide (kind = "modify_rejected")
  then emit (OModifyRejected w venue_id reason ts_event)
  else if bool_decide (kind = "cancel_rejected")
  then emit (OCancelRejected w venue_id reason ts_event)
  else if bool_decide (kind = "updated") then
    '(qty, price, trigger) ← lift (resolve_updated_terms order action);
    emit (OUpdated w venue_id qty price trigger ts_event)
  else if bool_decide (kind = "canceled") then emit (OCanceled w venue_id ts_event)
  else if bool_decide (kind = "triggered")
  then emit_triggered_guarded order cid venue_id ts_event
  else if bool_decide (kind = "filled")
  then handle_tracked_fill order cid venue_id fields ts_event action
  else mret tt.

Definition handle_order_notification (fields : pydict) : M (Host C) unit :=
  (match field_text fields "account_id" with
   | Some a => seed_account_if_needed env (Some a)
   | None => mret tt
   end) ;;
  h ← get;
  match resolve_client_order_id fields (h_cache h) with
  | None => handle_untracked_notification fields
  | Some cid =>
      match cache_order (h_cache h) cid with
      | None => mret tt
      | Some order =>
          ts_event ← event_time fields;
          (match field_text fields "basket_id" with
           | Some b => bind_venue_id cid b
           | None => mret tt
           end) ;;
          h2 ← get;
          let venue_id := venue_id_for fields (Some cid) (h_cache h2) in
          action ← lift (notification_action fields order);
          match action with
          | None => mret tt
          | Some a => perform_action order cid venue_id fields ts_event a
          end
      end
  end.

(** [_dispatch_order_event] of [execution.py]. *)
Definition unreadable_event : exn := Exn ExUnreadable None "invalid order_notification".

Definition dispatch_order_event (event : pydict) : M (Host C) unit :=
  if is_str (dget event "type") "bracket_update" then mret tt
  else if negb (is_str (dget event "type") "order_notification") then mret tt
  else
    match order_notification_to_fields event with
    | Raise _ => throw unreadable_event
    | Ok fields => handle_order_notification fields
    end.

End Intake.

(** ** Facts *)

Section Facts.
Context {C : Type} `{CacheOps C} `{NautilusTypes}.
Variable env : Env C.
Implicit Types (h : Host C).

Lemma event_time_quiet fields : preserves quiet (event_time env fields).
Proof. unfold event_time. preserve. Qed.

Lemma untracked_get_quiet k : preserves quiet (untracked_get (C:=C) k).
Proof. intros h. unfold untracked_get. by destruct (usb_get _ _). Qed.

Lemma untracked_record_quiet k v : preserves quiet (untracked_record (C:=C) k v).
Proof. by intros h. Qed.

#[local] Hint Resolve event_time_quiet untracked_get_quiet untracked_record_quiet : preserve.

Lemma publish_untracked_status_quiet fields ts :
  preserves quiet (publish_untracked_status env fields ts).
Proof. unfold publish_untracked_status. preserve. Qed.
#[local] Hint Resolve publish_untracked_status_quiet : preserve.

(** What one notification can do to the fill store and the fills emitted, when
    the fill it carries (if any) has the key [k]. *)
Definition fill_step (k : option string) h h' : Prop :=
  (seen_of h' = seen_of h /\ emitted_fills h' = emitted_fills h) \/
  exists key, k = Some key /\
    let '(hit, s) := fds_has_seen key (seen_of h) in
    (seen_of h' = s /\ emitted_fills h' = emitted_fills h) \/
    (hit = false /\ seen_of h' = fds_mark key s /\
     exists o, emitted_fills h' = emitted_fills h ++ [o]).

Definition fill_key (fields : pydict) : option string :=
  match fill_identity_ts fields with
  | Ok ts => Some (fill_dedup_key fields ts)
  | Raise _ => None
  end.

Lemma fill_step_quiet k h h' : quiet h h' -> fill_step k h h'.
Proof. intros (? & ? & ?). by left. Qed.

Lemma fill_step_before k h h1 h' : quiet h h1 -> fill_step k h1 h' -> fill_step k h h'.
Proof. intros (E1 & E2 & _). unfold fill_step. by rewrite E1, E2. Qed.

Lemma fill_key_seen_eq key h :
  fill_key_seen (C:=C) key h =
  (Ok (fds_has_seen key (seen_of h)).1,
   on_stores (fun st => MkStores (fds_has_seen key (seen_of h)).2 (st_untracked_status st)) h).
Proof. unfold fill_key_seen, seen_of. by destruct (fds_has_seen _ _). Qed.

(** The shared shape of the two fill handlers: check the key, do something
    quiet, and possibly emit one fill and mark. *)
Lemma fill_step_checked key h h1 h' :
  seen_of h1 = (fds_has_seen key (seen_of h)).2 -> emitted_fills h1 = emitted_fills h ->
  (h' = h1 \/ exists o, (fds_has_seen key (seen_of h)).1 = false /\
     seen_of h' = fds_mark key (seen_of h1) /\
     emitted_fills h' = emitted_fills h1 ++ [o]) ->
  fill_step (Some key) h h'.
Proof.
  intros E1 E2 Hc. right. exists key. split; [done|].
  destruct (fds_has_seen key (seen_of h)) as [hit s]. simpl in *.
  destruct Hc as [->|(o & Hm & Hs & Ho)]; [by left|right].
  rewrite Hs, Ho, E1, E2. split; [done|]. split; [done|]. by exists o.
Qed.

Lemma emitted_fills_snoc o h : is_fill_out o = true ->
  emitted_fills (push_out o h) = emitted_fills h ++ [o].
Proof.
  intros Ho. unfold emitted_fills, fills_of. simpl. rewrite List.filter_app. simpl. by rewrite Ho.
Qed.

Lemma untracked_fill_step fields h :
  fill_step (fill_key fields) h (publish_untracked_fill env fields h).2.
Proof.
  unfold publish_untracked_fill. destruct (negb _); [by left|]. unfold fill_key.
  destruct (fill_identity_ts fields) as [ts|]; [|by left].
  change ((lift (Ok ts) ≫= ?f) h) with (f ts h). cbv beta zeta.
  unfold mbind at 1, M_bind at 1. rewrite fill_key_seen_eq.
  set (h0 := on_stores _ h). pose proof (fill_report_quiet env fields ts h0) as Hq.
  destruct (fds_has_seen _ (seen_of h)).1 eqn:Hhit; simpl.
  { apply (fill_step_checked _ _ h0); auto. }
  unfold mbind, M_bind. destruct (fill_report_from_fields env fields ts h0) as [[[r|]|e] h1];
    simpl in *; destruct Hq as (Hq1 & Hq2 & _);
    try (apply (fill_step_checked _ _ h1); auto; done).
  unfold send_fill_report, lift, mbind, M_bind.
  destruct (e_send_fill env r); simpl; apply (fill_step_checked _ _ h1); auto.
  right. exists (OFillReport r). split; [done|]. split; [done|].
  by apply (emitted_fills_snoc (OFillReport r)).
Qed.

Lemma tracked_fill_step order cid vid fields ts action h :
  fill_step (fill_key fields) h (handle_tracked_fill order cid vid fields ts action h).2.
Proof.
  unfold handle_tracked_fill. destruct (a_fill_qty action) as [n|]; [|by left].
  destruct (a_trade_id action) as [tid|]; [|by left]. unfold fill_key.
  destruct (fill_identity_ts fields) as [its|]; [|by left].
  change ((lift (Ok its) ≫= ?f) h) with (f its h). cbv beta zeta.
  unfold mbind at 1, M_bind at 1. rewrite fill_key_seen_eq.
  set (h0 := on_stores _ h).
  destruct (fds_has_seen _ (seen_of h)).1 eqn:Hhit.
  { apply (fill_step_checked _ _ h0); auto. }
  change ((get ≫= ?f) h0) with (f h0 h0). cbv beta.
  destruct (catch _ _ _) as [[[q p]|]|]; run_monad;
    [|by apply (fill_step_checked _ _ (on_plant latch h0)); auto
     |by apply (fill_step_checked _ _ h0); auto].
  generalize (match o_leaves_qty order with Some l => l <? q | None => false end) as over.
  intros over. set (h1 := if over then on_plant latch h0 else h0).
  assert (E1 : seen_of h1 = seen_of h0) by (subst h1; by destruct over).
  assert (E2 : emitted_fills h1 = emitted_fills h) by (subst h1; by destruct over).
  match goal with |- fill_step _ _ ?x.2 =>
    assert (Hx : x = match fill_commission (o_instrument_id order) fields q h1 with
      | Ok commission =>
          mark_fill_key (fill_dedup_key fields its)
            (push_out (OFilled (who_as order cid) vid tid (o_side order) (o_order_type order)
               q p commission ts) h1)
      | Raise e => (Raise e, h1)
      end) by (subst h1; destruct over; reflexivity) end.
  rewrite Hx. clear Hx.
  destruct (fill_commission _ _ _ _) as [commission|]; simpl;
    apply (fill_step_checked _ _ h1); auto.
  right. eexists. split; [done|]. split; [done|]. by apply emitted_fills_snoc.
Qed.

Definition fill_steps {A} (k : option string) (m : M (Host C) A) : Prop :=
  preserves (fill_step k) m.

Lemma fill_steps_quiet {A} k (m : M (Host C) A) : preserves quiet m -> fill_steps k m.
Proof. intros Hq h. apply fill_step_quiet, Hq. Qed.

Lemma fill_steps_bind {A B} k (m : M (Host C) A) (f : A -> M (Host C) B) :
  preserves quiet m -> (forall a, fill_steps k (f a)) -> fill_steps k (m ≫= f).
Proof.
  intros Hq Hf h. unfold mbind, M_bind. specialize (Hq h).
  destruct (m h) as [[a|e] h1]; simpl in *; [|by apply fill_step_quiet].
  eapply fill_step_before; [done|]. apply Hf.
Qed.

Lemma untracked_steps fields :
  fill_steps (fill_key fields) (handle_untracked_notification env fields).
Proof.
  unfold handle_untracked_notification. apply fill_steps_bind; [preserve|intros ts].
  destruct (_ || _); [apply fill_steps_quiet; preserve|].
  apply fill_steps_bind; [preserve|intros _]. apply fill_steps_bind; [preserve|intros [a|]].
  - apply fill_steps_bind; [preserve|intros ok].
    destruct ok; intros h; [apply untracked_fill_step|by left].
  - apply fill_steps_quiet. preserve.
Qed.

Lemma perform_steps order cid vid fields ts action :
  fill_steps (fill_key fields) (perform_action order cid vid fields ts action).
Proof.
  unfold perform_action. cbv zeta.
  repeat (destruct (bool_decide (a_kind action = _));
    [first [intros h; apply tracked_fill_step
           |apply fill_steps_quiet; unfold emit_accepted, emit_triggered_guarded; preserve]|]).
  apply fill_steps_quiet. preserve.
Qed.

Lemma handle_steps fields :
  fill_steps (fill_key fields) (handle_order_notification env fields).
Proof.
  unfold handle_order_notification. apply fill_steps_bind; [preserve|intros _].
  apply fill_steps_bind; [preserve|intros h].
  destruct (resolve_client_order_id _ _) as [cid|]; [|apply untracked_steps].
  destruct (cache_order _ cid) as [order|]; [|apply fill_steps_quiet; preserve].
  do 4 (apply fill_steps_bind; [preserve|intros ?]).
  destruct (_ : option OrderAction); [apply perform_steps|apply fill_steps_quiet; preserve].
Qed.

(** One notification moves a remembered key down by at most one place. *)
Lemma fill_step_remembers n k k' m h h' :
  (S m < n)%nat -> fill_step k' h h' ->
  remembers n k m (seen_of h) -> remembers n k (S m) (seen_of h').
Proof.
  intros Hm [[-> _]|(key & _ & Hs)] Hr.
  { destruct Hr as (l & Hl & Hh). exists l. split; [done|]. eapply held_mono; [|done]. lia. }
  pose proof (remembers_has n k key m _ Hr) as Hhas.
  pose proof (fds_miss_same key (seen_of h)) as Hmiss.
  destruct (fds_has_seen key (seen_of h)) as [hit s]. simpl in *.
  destruct Hs as [[-> _]|(-> & -> & _)]; [done|].
  rewrite (Hmiss eq_refl). by apply remembers_mark.
Qed.

Lemma fill_step_emitted n k h h' :
  (0 < n)%nat -> store_ok n (seen_of h) -> fill_step k h h' ->
  emitted_fills h' <> emitted_fills h ->
  exists key, k = Some key /\ remembers n key 0 (seen_of h').
Proof.
  intros Hn Hok [[_ E]|(key & -> & Hs)] Hne; [done|]. exists key. split; [done|].
  pose proof (fds_has_ok n key _ Hok) as Hok'.
  destruct (fds_has_seen key (seen_of h)) as [hit s].
  destruct Hs as [[_ E]|(_ & -> & _)]; [done|]. by apply remembers_marked.
Qed.

Lemma fill_step_known n key m h h' :
  remembers n key m (seen_of h) -> fill_step (Some key) h h' ->
  emitted_fills h' = emitted_fills h.
Proof.
  intros Hr [[_ E]|(key' & [= <-] & Hs)]; [done|].
  apply remembers_seen in Hr. destruct (fds_has_seen key (seen_of h)) as [hit s].
  simpl in Hr. subst hit. by destruct Hs as [[_ E]|(? & _)].
Qed.

(** The live stream: each notification is handled in turn, whatever the
    handler of an earlier one raised. *)
Definition handle_all (l : list pydict) h : Host C :=
  fold_left (fun h f => (handle_order_notification env f h).2) l h.

Lemma handle_all_remembers n k l : forall m h,
  (m + length l < n)%nat -> remembers n k m (seen_of h) ->
  remembers n k (m + length l) (seen_of (handle_all l h)).
Proof.
  induction l as [|f l IH]; intros m h Hlt Hr; simpl in *; [by rewrite Nat.add_0_r|].
  rewrite Nat.add_succ_r. apply (IH (S m)); [lia|].
  eapply fill_step_remembers; [lia|apply handle_steps|done].
Qed.

(** (C4) A venue fill reaches the engine at most once.  If handling a
    notification emitted a fill, then no later notification with the same fill
    identity (a snapshot replay, a re-push, tracked or external) emits one,
    as long as fewer notifications than the store's bound came in between. *)
Theorem fill_emitted_at_most_once (n : nat) h (f g : pydict) (between : list pydict) :
  store_ok n (seen_of h) -> (length between < n)%nat -> fill_key g = fill_key f ->
  let h1 := (handle_order_notification env f h).2 in
  emitted_fills h1 <> emitted_fills h ->
  let h2 := handle_all between h1 in
  emitted_fills (handle_order_notification env g h2).2 = emitted_fills h2.
Proof.
  intros Hok Hlen Hkey h1 Hem h2.
  destruct (fill_step_emitted n (fill_key f) h h1) as (key & Hk & Hr);
    [lia|done|apply handle_steps|done|].
  apply (fill_step_known n key (0 + length between)).
  - by apply handle_all_remembers.
  - rewrite <- Hk, <- Hkey. apply handle_steps.
Qed.

End Facts.

#[local] Existing Instance PlainTypes.

Lemma fill_emitted_at_most_once_witness :
  let h := Sample.host [Sample.order ACCEPTED false] Live in
  let f := Sample.fill_fields "F1" Sample.px in
  let h1 := (handle_order_notification Sample.env f h).2 in
  let h2 := handle_all Sample.env [Sample.fill_fields "F2" Sample.px] h1 in
  emitted_fills h1 <> emitted_fills h /\
  emitted_fills (handle_order_notification Sample.env f h2).2 = emitted_fills h2.
Proof.
  intros h f h1 h2. assert (Hne : emitted_fills h1 <> emitted_fills h) by (vm_compute; discriminate).
  split; [exact Hne|].
  apply (fill_emitted_at_most_once Sample.env Sample.store_bound h f f
           [Sample.fill_fields "F2" Sample.px]); [apply fds_new_ok|vm_compute; lia|reflexivity|exact Hne].
Defined.

(** ** No fill is lost silently *)

Section Silent.
Context {C : Type} `{CacheOps C} `{NautilusTypes}.
Implicit Types (h : Host C).

(** (C5) A tracked fill is never dropped in silence: when the handler returns
    for a fill not yet seen, either it emitted exactly that fill (with the
    venue's trade id and the order's side) and marked its key, or the order
    plant is latched, nothing was emitted and the key stays unmarked so that
    recon can still deliver it. *)
Theorem tracked_fill_not_silent order cid vid fields ts action h h' (n its : Z) (tid : string) :
  a_fill_qty action = Some n -> a_trade_id action = Some tid ->
  fill_identity_ts fields = Ok its ->
  let key := fill_dedup_key fields its in
  (fds_has_seen key (seen_of h)).1 = false ->
  handle_tracked_fill order cid vid fields ts action h = (Ok tt, h') ->
  (exists q px commission,
     quantity_from_int n = Ok q /\
     price_for_instrument (o_instrument_id order) (a_fill_px action) (h_cache h) = Ok px /\
     h_out h' = h_out h ++ [OFilled (who_as order cid) vid tid (o_side order)
                              (o_order_type order) q px commission ts] /\
     seen_of h' = fds_mark key (seen_of h) /\
     (match o_leaves_qty order with Some l => l < q | None => False end ->
      h_plant h' = Latched)) \/
  (h_plant h' = Latched /\ h_out h' = h_out h /\ seen_of h' = seen_of h).
Proof.
  intros Hq Ht Hi key Hmiss. unfold handle_tracked_fill. rewrite Hq, Ht, Hi.
  change ((lift (Ok its) ≫= ?f) h) with (f its h). cbv beta zeta.
  unfold mbind at 1, M_bind at 1. rewrite fill_key_seen_eq. fold key.
  pose proof (fds_miss_same key (seen_of h) Hmiss) as Hs. rewrite Hmiss, Hs.
  set (h0 := on_stores _ h).
  assert (E0 : seen_of h0 = seen_of h) by done.
  change ((get ≫= ?f) h0) with (f h0 h0). cbv beta.
  change (h_cache h0) with (h_cache h).
  destruct (quantity_from_int n) as [q|e]; cbn [mbind res_bind catch].
  2: { destruct (is_tvo_error e); run_monad; [|done]. intros [= <-]. by right. }
  destruct (is_none (a_fill_px action)); cbn [catch].
  { run_monad. cbn. intros [= <-]. by right. }
  destruct (price_for_instrument _ _ _) as [p|e] eqn:Ep; cbn [mbind res_bind catch].
  2: { destruct (is_tvo_error e); run_monad; [|done]. intros [= <-]. by right. }
  change ((lift (Ok (Some (q, p))) ≫= ?f) h0) with (f (Some (q, p)) h0). cbv beta iota.
  set (over := match o_leaves_qty order with Some l => l <? q | None => false end).
  assert (Hover : match o_leaves_qty order with Some l => l < q | None => False end -> over = true)
    by (subst over; destruct (o_leaves_qty order); [lia|done]).
  clearbody over. intros Hrun. left. exists q, p.
  unfold latch_order_plant, emit, mark_fill_key in Hrun.
  destruct over; revert Hrun; run_monad; destruct (fill_commission _ _ _ _) as [cm|]; try done;
    intros [= <-]; exists cm; (split_and!; [done..|]).
  - done.
  - intros Ho. by specialize (Hover Ho).
Qed.

End Silent.

Definition fill_action (price : pyval) : OrderAction :=
  MkAction "filled" None None VNone VNone (Some 1) price (Some "F1").

Lemma tracked_fill_not_silent_witness :
  let o := Sample.order ACCEPTED false in
  let h := Sample.host [o] Live in
  let f := Sample.fill_fields "F1" VNone in
  exists h', handle_tracked_fill o "O-1" "B1" f 7 (fill_action VNone) h = (Ok tt, h') /\
    ((exists q px commission,
       quantity_from_int 1 = Ok q /\
       price_for_instrument (o_instrument_id o) VNone (h_cache h) = Ok px /\
       h_out h' = h_out h ++ [OFilled (who_as o "O-1") "B1" "F1" (o_side o)
                                (o_order_type o) q px commission 7] /\
       seen_of h' = fds_mark (fill_dedup_key f 1790000000000005000) (seen_of h) /\
       (match o_leaves_qty o with Some l => l < q | None => False end -> h_plant h' = Latched)) \/
     (h_plant h' = Latched /\ h_out h' = h_out h /\ seen_of h' = seen_of h)).
Proof.
  intros o h f. eexists. split; [vm_compute; reflexivity|].
  apply (tracked_fill_not_silent o "O-1" "B1" f 7 (fill_action VNone) h _ 1
           1790000000000005000 "F1"); try reflexivity; vm_compute; reflexivity.
Defined.

(** ** Identity sticks *)

Section Binding.
Context {C : Type} `{CacheLaws C} `{NautilusTypes}.
Variable env : Env C.
Implicit Types (h : Host C).

Lemma perform_same_cache order cid vid fields ts action :
  preserves same_cache (perform_action (C:=C) order cid vid fields ts action).
Proof.
  unfold perform_action, emit_accepted, emit_triggered_guarded, handle_tracked_fill. preserve.
Qed.

Lemma event_time_same_cache fields : preserves same_cache (event_time env fields).
Proof. unfold event_time. preserve. Qed.

(** Once a tracked order's notification carried a basket id, that basket
    names the order: a later notification that has only the basket (no tag)
    resolves to the same client order, as long as the order is open. *)
Theorem bound_basket_resolves h (f g : pydict) (b cid : string) (order : Order) (c' : C) :
  resolve_client_order_id f (h_cache h) = Some cid ->
  cache_order (h_cache h) cid = Some order -> o_is_closed order = false ->
  field_text f "basket_id" = Some b -> field_text g "basket_id" = Some b ->
  is_none (dget f "ts_event") = true \/ (exists t, py_int (dget f "ts_event") = Ok t) ->
  cache_add_venue_order_id cid b (h_cache h) = Ok c' ->
  resolve_client_order_id g (h_cache (handle_order_notification env f h).2) = Some cid.
Proof.
  intros Hres Hord Hopen Hf Hg Hts Hadd.
  cut (h_cache (handle_order_notification env f h).2 = c').
  { intros ->. unfold resolve_client_order_id. rewrite Hg. simpl.
    rewrite (add_venue_client _ _ _ _ Hadd), (add_venue_order _ _ _ _ _ Hadd), Hord.
    by rewrite Hopen. }
  unfold handle_order_notification. unfold mbind at 1, M_bind at 1.
  set (seeded := match field_text f "account_id" with
                 | Some a => seed_account_if_needed env (Some a) | None => mret tt end).
  assert (Hs : exists h1, seeded h = (Ok tt, h1) /\ h_cache h1 = h_cache h).
  { subst seeded. destruct (field_text f "account_id") as [a|]; [|by exists h].
    eexists. split; [apply seed_returns|]. apply seed_same_cache. }
  destruct Hs as (h1 & -> & E1). change ((get ≫= ?k) h1) with (k h1 h1). cbv beta.
  rewrite E1, Hres, Hord. unfold mbind at 1, M_bind at 1.
  assert (Ht : exists t h2, event_time env f h1 = (Ok t, h2) /\ h_cache h2 = h_cache h).
  { unfold event_time. destruct (is_none _); [by eexists _, _|].
    destruct Hts as [|[t ->]]; [done|]. by exists t, h1. }
  destruct Ht as (t & h2 & -> & E2). rewrite Hf. unfold mbind at 1, M_bind at 1.
  assert (Hb : bind_venue_id cid b h2 = (Ok tt, set_cache c' h2)).
  { unfold bind_venue_id. run_monad. by rewrite E2, Hadd. }
  rewrite Hb. change ((get ≫= ?k) (set_cache c' h2)) with (k (set_cache c' h2) (set_cache c' h2)).
  cbv beta zeta. unfold mbind, M_bind, lift.
  destruct (notification_action f order) as [[a|]|]; try done.
  by rewrite (perform_same_cache _ _ _ _ _ _ _).
Qed.

End Binding.

Lemma bound_basket_resolves_witness :
  let h := Sample.host [Sample.order ACCEPTED false] Live in
  let f := Sample.fill_fields "F1" Sample.px in
  let g := dict_of [("basket_id", VStr "B1")] in
  resolve_client_order_id g (h_cache h) = None /\
  resolve_client_order_id g (h_cache (handle_order_notification Sample.env f h).2) = Some "O-1".
Proof.
  intros h f g. split; [vm_compute; reflexivity|].
  eapply (bound_basket_resolves Sample.env h f g "B1" "O-1" (Sample.order ACCEPTED false));
    try (vm_compute; reflexivity).
  right. eexists. vm_compute. reflexivity.
Defined.
