(* ===== verification/Exposure.v ===== *)
(** * Account and position state, exposure snapshots, position reports

    The PnL side of [execution.py] ([_publish_account], [_cache_position] and
    the snapshot it feeds), [exposure.py] with the rules of
    [crates/rithmic-exec/src/exposure.rs], and the position reports built from
    it. *)

From Stdlib Require Import Ascii String.
From stdpp Require Import base gmap strings list.
From Stdlib Require Import ZArith Lia.
From S2P Require Import Prelude PyVal Plant Lru Ident Nautilus Orders OrderRows Commission Host Convert Drain Intake.
Import Text.
Open Scope string_scope.
Open Scope list_scope.
Open Scope Z_scope.

(** ** [exposure.rs] *)

Definition PNL_SETTLE_NS : Z := 3000000000.

(** Two's-complement 64-bit arithmetic of a release build. *)
Definition wrap_i64 (z : Z) : Z := (z + 2 ^ 63) mod 2 ^ 64 - 2 ^ 63.

Definition in_i64 (z : Z) : bool := (- 2 ^ 63 <=? z) && (z <? 2 ^ 63).

Definition signed_quantity (row : string * Z * string) : Z :=
  let '(_, qty, side) := row in
  if bool_decide (side = "LONG") then qty
  else if bool_decide (side = "SHORT") then wrap_i64 (- qty) else 0.

Definition rs_signed_net (rows : list (string * Z * string)) (root : string) : Z :=
  fold_left (fun acc q => wrap_i64 (acc + q))
    (signed_quantity <$> List.filter (fun '(symbol, _, _) => matches_root symbol root) rows) 0.

Definition exposure_complete (net open_orders pnl_ts_ns drain_ts_ns : option Z) : bool :=
  match net, open_orders, pnl_ts_ns, drain_ts_ns with
  | Some _, Some _, Some pnl, Some drain => PNL_SETTLE_NS <=? drain - pnl
  | _, _, _, _ => false
  end.

(** ** [exposure.py] *)

Definition exposure_topic (root : string) : string :=
  "rithmic.exposure." +:+ upper (strip root).

Definition complete (s : ExposureSnapshot) : bool :=
  exposure_complete (es_net s) (es_open_orders s) (es_pnl_ts_ns s) (es_drain_ts_ns s).

Definition signed_row (fields : pydict) : res (string * Z * string) :=
  qty ← int_or_zero (dget fields "quantity");
  Ok (str_or_empty (dget fields "symbol"), qty,
      py_str (por (dget fields "position_side") (VStr "FLAT"))).

Fixpoint signed_rows (l : list pydict) : res (list (string * Z * string)) :=
  match l with
  | [] => Ok []
  | f :: l' => r ← signed_row f; rest ← signed_rows l'; Ok (r :: rest)
  end.

(** The binding takes 64-bit quantities: a larger one raises. *)
Definition signed_net (positions : list (string * pydict)) (root : string) : res Z :=
  rows ← signed_rows positions.*2;
  if forallb (fun '(_, qty, _) => in_i64 qty) rows then Ok (rs_signed_net rows root)
  else Raise (Exn ExOverflow None "int too big to convert").

(** While the quantities together stay within 64 bits the net is the plain
    signed sum. *)
Definition plain_net (rows : list (string * Z * string)) (root : string) : Z :=
  foldr Z.add 0
    ((fun '(_, qty, side) => if bool_decide (side = "LONG") then qty
                             else if bool_decide (side = "SHORT") then - qty else 0)
     <$> List.filter (fun '(symbol, _, _) => matches_root symbol root) rows).

Definition gross (rows : list (string * Z * string)) : Z :=
  foldr Z.add 0 ((fun '(_, qty, _) => Z.abs qty) <$> rows).

Lemma wrap_i64_id z : Z.abs z < 2 ^ 63 -> wrap_i64 z = z.
Proof. intros Hz. unfold wrap_i64. rewrite Z.mod_small; lia. Qed.

Lemma gross_nonneg rows : 0 <= gross rows.
Proof. induction rows as [|[[s q] d] rows IH]; [done|]. unfold gross in *. csimpl. lia. Qed.

Lemma signed_net_exact rows root :
  gross rows < 2 ^ 63 -> rs_signed_net rows root = plain_net rows root.
Proof.
  unfold rs_signed_net. intros Hg.
  assert (Hk : forall acc, Z.abs acc + gross rows < 2 ^ 63 ->
    fold_left (fun acc q => wrap_i64 (acc + q))
      (signed_quantity <$> List.filter (fun '(symbol, _, _) => matches_root symbol root) rows) acc
    = acc + plain_net rows root); [|apply (Hk 0); lia].
  clear Hg. induction rows as [|[[s q] d] rows IH]; intros acc Hacc; [unfold plain_net; simpl; lia|].
  pose proof (gross_nonneg rows). unfold gross, plain_net in *. csimpl in *.
  destruct (matches_root s root); csimpl; [|apply IH; lia].
  rewrite (wrap_i64_id (- q)) by lia.
  rewrite wrap_i64_id by (repeat case_bool_decide; lia).
  rewrite IH by (repeat case_bool_decide; lia). lia.
Qed.

(** ** [execution.py]: the PnL stream *)

(** Marker for an unreadable row that carried no symbol. *)
Definition ANY_SYMBOL : string := "*".

(** [d[k] = v] on an insertion-ordered dictionary. *)
Fixpoint assoc_set {A} (k : string) (v : A) (l : list (string * A)) : list (string * A) :=
  match l with
  | [] => [(k, v)]
  | (k', v') :: l' => if bool_decide (k' = k) then (k, v) :: l' else (k', v') :: assoc_set k v l'
  end.

Definition forget_pnl (p : PnlState) : PnlState :=
  MkPnl (pn_connected p) false None (pn_epoch p + 1) [] ∅ ∅.

(** [_resync_pnl_subscription] up to its session calls. *)
Definition invalidate_pnl (p : PnlState) : PnlState :=
  MkPnl (pn_connected p) false None (pn_epoch p + 1) (pn_positions p) (pn_seen_ns p)
    (pn_unreadable p ∖ {[ANY_SYMBOL]}).

Definition note_observed (now : Z) (p : PnlState) : PnlState :=
  MkPnl (pn_connected p) true
    (match pn_live_since_ns p with Some t => Some t | None => Some now end)
    (pn_epoch p) (pn_positions p) (pn_seen_ns p) (pn_unreadable p).

Definition rows_seen_since (live : Z) (p : PnlState) : list (string * pydict) :=
  List.filter (fun kf => live <=? default 0 (pn_seen_ns p !! kf.1)) (pn_positions p).

Definition positions_known (p : PnlState) : bool :=
  bool_decide (is_Some (pn_live_since_ns p)) && negb (bool_decide (ANY_SYMBOL ∈ pn_unreadable p)).

Definition position_unreadable_for (root : string) (p : PnlState) : bool :=
  existsb (fun symbol => bool_decide (symbol = ANY_SYMBOL) || matches_root symbol root)
    (elements (pn_unreadable p)).

Section Pnl.
Context {C : Type} `{CacheOps C} `{NautilusTypes}.
Variable env : Env C.

Definition note_pnl_observed (now : option Z) : M (Host C) unit :=
  h ← get;
  match pn_live_since_ns (h_pnl h), now with
  | None, None => t ← timestamp_ns env; modify (on_pnl (note_observed t))
  | _, _ => modify (on_pnl (note_observed (default 0 now)))
  end.

Definition forget_pnl_state : M (Host C) unit := modify (on_pnl forget_pnl).

Definition publish_account (event : pydict) : M (Host C) unit :=
  match account_pnl_to_fields event with
  | Raise _ => mret tt
  | Ok fields =>
      let free_raw := if is_none (dget fields "cash_on_hand")
                      then dget fields "account_balance" else dget fields "cash_on_hand" in
      if is_none free_raw then mret tt
      else
        match dec_of_str (py_str free_raw) with
        | None | Some DSpecial => mret tt
        | Some (DFinite free) =>
            currency ← lift (currency_from_str
              (py_str (por (dget fields "currency") (VStr DEFAULT_ACCOUNT_CURRENCY))));
            let raw := py_str (dget fields "account_id") in
            let id := VENUE +:+ "-" +:+ raw in
            h ← get;
            whenM (bool_decide (ac_account_id (h_account h) = None)) (set_account_id id) ;;
            seed_account_if_needed env (Some raw) ;;
            h2 ← get;
            if match ac_last_state_key (h_account h2) with
               | Some (a, c, d) =>
                   bool_decide (a = id) && bool_decide (c = currency) && dec_eqb d free
               | None => false
               end
            then note_pnl_observed None
            else
              ts ← timestamp_ns env;
              emit (OAccountState id currency free ts) ;;
              modify (fun h' => let a := h_account h' in
                set_account (MkAccount (ac_account_id a) (ac_seeded a) (ac_resolved_raw a)
                  (Some (id, currency, free))) h') ;;
              note_pnl_observed None
        end
  end.

Definition exposure_snapshot (root : string) (open_orders drain_ts_ns : option Z) (reply : bool)
  : M (Host C) ExposureSnapshot :=
  h ← get;
  let p := h_pnl h in
  let live := if position_unreadable_for root p then None else pn_live_since_ns p in
  net ← lift (match live with
              | Some l => n ← signed_net (rows_seen_since l p) root; Ok (Some n)
              | None => Ok None
              end);
  ts ← timestamp_ns env;
  mret (MkSnap (upper (strip root)) net open_orders live drain_ts_ns ts reply).

Definition publish_exposure (snap : ExposureSnapshot) : M (Host C) unit :=
  emit (OExposure (exposure_topic (es_root snap)) snap).

Definition mark_unreadable (symbol : string) (p : PnlState) : PnlState :=
  MkPnl (pn_connected p) (pn_observed p) (pn_live_since_ns p) (pn_epoch p) (pn_positions p)
    (pn_seen_ns p) ({[symbol]} ∪ pn_unreadable p).

Definition set_row (key : string) (fields : pydict) (symbol : string) (p : PnlState) : PnlState :=
  MkPnl (pn_connected p) (pn_observed p) (pn_live_since_ns p) (pn_epoch p)
    (assoc_set key fields (pn_positions p)) (pn_seen_ns p) (pn_unreadable p ∖ {[symbol]}).

Definition set_seen (key : string) (now : Z) (p : PnlState) : PnlState :=
  MkPnl (pn_connected p) (pn_observed p) (pn_live_since_ns p) (pn_epoch p) (pn_positions p)
    (<[key := now]> (pn_seen_ns p)) (pn_unreadable p).

Definition cache_position (event : pydict) : M (Host C) unit :=
  match instrument_pnl_to_fields event with
  | Raise _ =>
      let raw_symbol := strip (str_or_empty (dget event "symbol")) in
      modify (on_pnl (mark_unreadable (if nonempty raw_symbol then raw_symbol else ANY_SYMBOL)))
  | Ok fields =>
      let symbol := py_str (dget fields "symbol") in
      let key := py_str (dget fields "instrument_id") in
      now ← timestamp_ns env;
      modify (on_pnl (set_row key fields (strip symbol))) ;;
      (match field_text fields "account_id" with
       | Some a => seed_account_if_needed env (Some a)
       | None => mret tt
       end) ;;
      note_pnl_observed (Some now) ;;
      modify (on_pnl (set_seen key now)) ;;
      catchM any_exn
        (snap ← exposure_snapshot (product_root symbol) None None false;
         publish_exposure snap)
        (fun _ => mret tt)
  end.

Definition dispatch_pnl_event (event : pydict) : M (Host C) unit :=
  if is_str (dget event "type") "account_pnl" then publish_account event
  else if is_str (dget event "type") "instrument_pnl" then cache_position event
  else mret tt.

(** ** Exposure requests *)

Definition row_in_root (root : string) (fields : pydict) : bool :=
  matches_root (str_or_empty (dget fields "symbol")) root.

(** The distinct baskets of the usable rows (a Python set). *)
Definition working_orders_for_root (events : list pydict) (root : string)
  : M (Host C) (option Z) :=
  let root_rows := length (List.filter (row_in_root root) events) in
  rows ← iter_drain_rows env events;
  let usable := List.filter (fun r => row_in_root root (dr_fields r)) rows in
  if negb (bool_decide (length usable = root_rows)) then mret None
  else
    latest ← latest_drain_rows env events None;
    let baskets := remove_dups (row_basket <$> usable) in
    open ← lift (foldr (fun b acc =>
        n ← acc;
        match assoc b latest with
        | None => Raise (Exn ExKey None b)
        | Some row =>
            Ok (match dr_report row with
                | Some r => if is_terminal (sr_status r) then n else n + 1
                | None => n
                end)
        end) (Ok 0) baskets);
    mret (Some open).

Definition request_exposure (root : string) : M (Host C) ExposureSnapshot :=
  '(open_orders, drain_ts) ← catchM any_exn
    (events ← load_orders_events env 0 0;
     n ← working_orders_for_root events root;
     ts ← timestamp_ns env;
     mret (n, Some ts))
    (fun _ => mret (None, None));
  snap ← exposure_snapshot root open_orders drain_ts true;
  publish_exposure snap ;;
  mret snap.

(** ** Position reports *)

Record PositionReport := MkPosReport {
  prp_account_id : string;
  prp_instrument_id : string;
  prp_side : PositionSide;
  prp_quantity : Z;
  prp_ts : Z;
  prp_avg_px_open : option pydecimal
}.

Definition position_side_of (s : string) : PositionSide :=
  if bool_decide (s = "LONG") then LONG else if bool_decide (s = "SHORT") then SHORT else FLAT.

Definition position_report_from_fields (fields : pydict) (ts_init : Z)
  : M (Host C) (option PositionReport) :=
  h ← get;
  match ac_account_id (h_account h), field_text fields "account_id" with
  | None, None => mret None
  | id, raw =>
      whenM (bool_decide (id = None)) (set_account_id (VENUE +:+ "-" +:+ default "" raw)) ;;
      account ← account_id;
      let side := position_side_of (py_str (dget fields "position_side")) in
      avg ← lift (if is_none (dget fields "avg_px_open") then Ok None
                  else d ← py_decimal (py_str (dget fields "avg_px_open")); Ok (Some d));
      instrument ← lift (instrument_id_from_str (py_str (dget fields "instrument_id")));
      qty ← lift (n ← py_int (dget fields "quantity"); quantity_from_int n);
      mret (Some (MkPosReport (default "" account) instrument side qty ts_init avg))
  end.

(** The report of one row, [None] when the row is skipped. *)
Definition position_row_report (instrument_filter : option string) (ts_init : Z) (fields : pydict)
  : M (Host C) (option PositionReport) :=
  h ← get;
  let symbol := strip (str_or_empty (dget fields "symbol")) in
  if nonempty symbol && bool_decide (symbol ∈ pn_unreadable (h_pnl h)) then mret None
  else
    instrument ← lift (instrument_id_from_str (py_str (dget fields "instrument_id")));
    if match instrument_filter with
       | Some f => negb (bool_decide (instrument = f)) | None => false end
    then mret None
    else
      match cache_instrument (h_cache h) instrument with
      | None =>
          _ ← lift (int_or_zero (dget fields "quantity")); mret None
      | Some _ => position_report_from_fields fields ts_init
      end.

Fixpoint position_reports (rows : list pydict) (instrument_filter : option string) (ts_init : Z)
  : M (Host C) (list PositionReport) :=
  match rows with
  | [] => mret []
  | f :: rows' =>
      r ← position_row_report instrument_filter ts_init f;
      rest ← position_reports rows' instrument_filter ts_init;
      mret (match r with Some x => x :: rest | None => rest end)
  end.

Definition generate_position_status_reports (instrument_filter : option string)
  : M (Host C) (list PositionReport) :=
  ts_init ← timestamp_ns env;
  h ← get;
  if negb (positions_known (h_pnl h)) then mret []
  else
    match pn_live_since_ns (h_pnl h) with
    | None => mret []
    | Some live =>
        position_reports (rows_seen_since live (h_pnl h)).*2 instrument_filter ts_init
    end.

End Pnl.

(** ** Which rows a snapshot counts *)

Section Current.
Context {C : Type} `{CacheOps C} `{NautilusTypes}.
Variable env : Env C.
(** The clock is positive and every reading is later than the one before. *)
Hypothesis clock_pos : 0 < e_clock env 0.
Hypothesis clock_mono : forall m n, (m < n)%nat -> e_clock env m < e_clock env n.
Implicit Types (h : Host C).

Definition now_of h : Z := e_clock env (h_reads h).

Lemma clock_le m n : (m <= n)%nat -> e_clock env m <= e_clock env n.
Proof.
  intros Hle. destruct (decide (m = n)) as [->|Hne]; [lia|].
  specialize (clock_mono m n). lia.
Qed.

(** Every stamp so far is in the past. *)
Definition stamps_past h : Prop := forall k t, pn_seen_ns (h_pnl h) !! k = Some t -> t < now_of h.

(** [obs] are the instruments re-observed since the stream was last declared
    dead: their stamps, and only theirs, are on the live stream. *)
Definition current (obs : list string) h : Prop :=
  stamps_past h /\
  match pn_live_since_ns (h_pnl h) with
  | None => obs = []
  | Some live =>
      0 < live /\ live < now_of h /\
      (forall k, k ∈ obs -> exists t, pn_seen_ns (h_pnl h) !! k = Some t /\ live <= t) /\
      (forall k t, k ∉ obs -> pn_seen_ns (h_pnl h) !! k = Some t -> t < live)
  end.

Definition keeps (obs : list string) h h' : Prop := current obs h -> current obs h'.

#[local] Instance keeps_preorder obs : PreOrder (keeps obs).
Proof. split; [by intros h Hh|]. intros a b c Hab Hbc Ha. by apply Hbc, Hab. Qed.

(** Steps that leave the PnL state alone; the clock only moves on. *)
Definition pnl_frame h h' : Prop := h_pnl h' = h_pnl h /\ (h_reads h <= h_reads h')%nat.

#[local] Instance pnl_frame_preorder : PreOrder pnl_frame.
Proof.
  split; [by intros h|]. intros a b c [E1 L1] [E2 L2]. split; [congruence|lia].
Qed.

Lemma frame_current obs h h' : pnl_frame h h' -> keeps obs h h'.
Proof.
  intros [E L] [Hp Hl]. pose proof (clock_le _ _ L) as Hc. unfold current, stamps_past, now_of in *.
  rewrite E. split; [intros k t Hk; specialize (Hp k t Hk); lia|].
  destruct (pn_live_since_ns (h_pnl h)); [|done]. naive_solver lia.
Qed.

Lemma timestamp_frame : preserves pnl_frame (timestamp_ns env).
Proof. intros h. split; [done|]. simpl. lia. Qed.
Lemma emit_frame o : preserves pnl_frame (emit (C:=C) o).
Proof. by intros h. Qed.
Lemma set_account_frame id : preserves pnl_frame (set_account_id (C:=C) id).
Proof. by intros h. Qed.
Lemma account_id_frame : preserves pnl_frame (account_id (C:=C)).
Proof. by intros h. Qed.
#[local] Hint Resolve timestamp_frame emit_frame set_account_frame account_id_frame : preserve.
#[local] Hint Extern 3 (preserves pnl_frame (modify _)) => intros ?; done : preserve.

Lemma seed_frame hint : preserves pnl_frame (seed_account_if_needed env hint).
Proof. unfold seed_account_if_needed. preserve. Qed.
#[local] Hint Resolve seed_frame : preserve.

Lemma exposure_push_frame root o d r :
  preserves pnl_frame (snap ← exposure_snapshot env root o d r; publish_exposure snap).
Proof. unfold exposure_snapshot, publish_exposure. preserve. Qed.

Lemma frame_keeps {A} obs (m : M (Host C) A) : preserves pnl_frame m -> preserves (keeps obs) m.
Proof. intros Hm h. apply frame_current, Hm. Qed.

Lemma note_observed_keeps obs : preserves (keeps obs) (note_pnl_observed env None).
Proof.
  intros h Hc. unfold note_pnl_observed. run_monad.
  destruct (pn_live_since_ns (h_pnl h)) as [live|] eqn:El; simpl.
  - revert Hc. unfold current, stamps_past, now_of. simpl. by rewrite El.
  - destruct Hc as [Hp Hl]. rewrite El in Hl. subst obs.
    pose proof (clock_mono (h_reads h) (S (h_reads h))) as Hm.
    unfold current, stamps_past, now_of in *. simpl. rewrite El.
    assert (0 < e_clock env (h_reads h)).
    { pose proof (clock_le 0 (h_reads h) ltac:(lia)). lia. }
    split; [intros k t Hk; specialize (Hp k t Hk); lia|].
    split_and!; [done|lia|by intros k ?%not_elem_of_nil|]. intros k t _. apply Hp.
Qed.

Lemma publish_account_keeps obs ev : preserves (keeps obs) (publish_account env ev).
Proof.
  unfold publish_account. pose proof (note_observed_keeps obs) as Hn.
  assert (Hf : forall A (m : M (Host C) A), preserves pnl_frame m -> preserves (keeps obs) m)
    by (intros; by apply frame_keeps).
  repeat first [ exact Hn | apply Hf; solve [preserve] | preserve_step ].
Qed.

(** The instrument a PnL event re-observes. *)
Definition observed_key (ev : pydict) : option string :=
  if is_str (dget ev "type") "account_pnl" then None
  else if is_str (dget ev "type") "instrument_pnl" then
    match instrument_pnl_to_fields ev with
    | Ok fields => Some (py_str (dget fields "instrument_id"))
    | Raise _ => None
    end
  else None.

(** Between the clock reading of a row and its stamp. *)
Definition stamping (obs : list string) (now : Z) h : Prop :=
  current obs h /\ now < now_of h /\ 0 < now /\
  (forall k t, pn_seen_ns (h_pnl h) !! k = Some t -> t < now) /\
  (forall live, pn_live_since_ns (h_pnl h) = Some live -> live < now).

Lemma stamping_frame obs now h h' : pnl_frame h h' -> stamping obs now h -> stamping obs now h'.
Proof.
  intros Hf (Hc & Hn & H0' & Hs & Hl). split; [by eapply frame_current|].
  destruct Hf as [E L]. pose proof (clock_le _ _ L). unfold now_of in *. rewrite E.
  split_and!; [lia|done..].
Qed.

Lemma stamping_row obs now h key f s :
  stamping obs now h -> stamping obs now (on_pnl (set_row key f s) h).
Proof. done. Qed.

Lemma stamping_start obs h : current obs h -> stamping obs (now_of h) (next_read h).
Proof.
  intros Hc. pose proof (clock_mono (h_reads h) (S (h_reads h)) ltac:(lia)) as Hm.
  pose proof (clock_le 0 (h_reads h) ltac:(lia)) as H0'.
  split; [apply (frame_current obs h); [split; [done|simpl; lia]|done]|].
  destruct Hc as [Hp Hl]. unfold now_of, stamps_past in *. simpl.
  split_and!; [done|lia|done|]. intros live El. rewrite El in Hl. lia.
Qed.

Lemma stamping_done obs now key h :
  stamping obs now h ->
  current (obs ++ [key]) (on_pnl (set_seen key now) (on_pnl (note_observed now) h)).
Proof.
  intros ([Hp Hl] & Hn & H0' & Hs & Hlive). unfold current, stamps_past, now_of in *. simpl.
  split.
  - intros k t. destruct (decide (k = key)) as [->|Hk]; [|rewrite lookup_insert_ne by done; apply Hp].
    rewrite lookup_insert_eq. by intros [= <-].
  - destruct (pn_live_since_ns (h_pnl h)) as [live|].
    + destruct Hl as (L0 & L1 & Ho & Hno). specialize (Hlive live eq_refl).
      split_and!; [done|done| |].
      * intros k Hk. destruct (decide (k = key)) as [->|Hne].
        { exists now. rewrite lookup_insert_eq. split; [done|lia]. }
        rewrite lookup_insert_ne by done.
        apply elem_of_app in Hk as [Hk|Hk%list_elem_of_singleton]; [by apply Ho|done].
      * intros k t Hk. apply not_elem_of_app in Hk as [Hk Hne].
        rewrite list_elem_of_singleton in Hne. rewrite lookup_insert_ne by congruence.
        by apply Hno.
    + subst obs. split_and!; [done|done| |].
      * intros k ->%list_elem_of_singleton. exists now. rewrite lookup_insert_eq. split; [done|lia].
      * intros k t Hk. rewrite app_nil_l, list_elem_of_singleton in Hk. rewrite lookup_insert_ne by congruence.
        apply Hs.
Qed.

Lemma cache_position_current obs ev h :
  current obs h -> is_str (dget ev "type") "account_pnl" = false ->
  is_str (dget ev "type") "instrument_pnl" = true ->
  current (obs ++ match observed_key ev with Some k => [k] | None => [] end)
    (cache_position env ev h).2.
Proof.
  intros Hc Ha Hi. unfold cache_position, observed_key. rewrite Ha, Hi.
  destruct (instrument_pnl_to_fields ev) as [fields|]; [|by rewrite app_nil_r].
  set (key := py_str (dget fields "instrument_id")).
  set (symbol := py_str (dget fields "symbol")).
  pose proof (stamping_row _ _ _ key fields (strip symbol) (stamping_start obs h Hc)) as Hst.
  set (h2 := on_pnl (set_row key fields (strip symbol)) (next_read h)) in *.
  change ((timestamp_ns env ≫= ?f) h) with (f (now_of h) (next_read h)). cbv beta zeta.
  change ((modify ?g ≫= ?f) (next_read h)) with (f tt (g (next_read h))). cbv beta.
  fold key symbol. change (on_pnl (set_row key fields (strip symbol)) (next_read h)) with h2.
  unfold mbind at 1, M_bind at 1.
  set (seeded := match field_text fields "account_id" with
                 | Some a => seed_account_if_needed env (Some a) | None => mret tt end).
  assert (Hs : exists h3, seeded h2 = (Ok tt, h3) /\ stamping obs (now_of h) h3).
  { subst seeded. destruct (field_text fields "account_id") as [a|]; [|by exists h2].
    eexists. split; [apply seed_returns|]. eapply stamping_frame; [apply seed_frame|done]. }
  destruct Hs as (h3 & -> & Hst3). unfold mbind at 1, M_bind at 1.
  assert (Hno : note_pnl_observed env (Some (now_of h)) h3
                = (Ok tt, on_pnl (note_observed (now_of h)) h3)).
  { unfold note_pnl_observed. run_monad. by destruct (pn_live_since_ns (h_pnl h3)). }
  rewrite Hno. change ((modify ?g ≫= ?f) ?s) with (f tt (g s)). cbv beta.
  apply (frame_keeps _ _ (preserves_catch pnl_frame any_exn _ (fun _ => mret tt)
    (exposure_push_frame (product_root symbol) None None false)
    (fun _ => preserves_ret pnl_frame tt))).
  by apply stamping_done.
Qed.

(** A PnL event batch dispatched on the stream. *)
Definition dispatch_all (evs : list pydict) h : Host C :=
  fold_left (fun h ev => (dispatch_pnl_event env ev h).2) evs h.

Lemma dispatch_current obs ev h :
  current obs h ->
  current (obs ++ match observed_key ev with Some k => [k] | None => [] end)
    (dispatch_pnl_event env ev h).2.
Proof.
  intros Hc. unfold dispatch_pnl_event.
  destruct (is_str (dget ev "type") "account_pnl") eqn:Ea.
  { unfold observed_key. rewrite Ea, app_nil_r. by apply publish_account_keeps. }
  destruct (is_str (dget ev "type") "instrument_pnl") eqn:Ei.
  { by apply cache_position_current. }
  unfold observed_key. by rewrite Ea, Ei, app_nil_r.
Qed.

Lemma dispatch_all_current evs : forall obs h,
  current obs h -> current (obs ++ omap observed_key evs) (dispatch_all evs h).
Proof.
  induction evs as [|ev evs IH]; intros obs h Hc; csimpl; [by rewrite app_nil_r|].
  pose proof (dispatch_current obs ev h Hc) as Hd.
  specialize (IH _ _ Hd). rewrite <- app_assoc in IH.
  destruct (observed_key ev); simpl in *; exact IH.
Qed.

(** *** The rows of the dictionary *)

Definition same_rows h h' : Prop := pn_positions (h_pnl h') = pn_positions (h_pnl h).

#[local] Instance same_rows_preorder : PreOrder same_rows.
Proof. split; [done|]. unfold same_rows. intros a b c E1 E2. congruence. Qed.

Lemma frame_rows {A} (m : M (Host C) A) : preserves pnl_frame m -> preserves same_rows m.
Proof. intros Hm h. destruct (Hm h) as [E _]. unfold same_rows. by rewrite E. Qed.

Lemma note_observed_rows now : preserves same_rows (note_pnl_observed env now).
Proof.
  intros h. unfold note_pnl_observed, same_rows. run_monad.
  by destruct (pn_live_since_ns (h_pnl h)), now.
Qed.

Lemma publish_account_rows ev : preserves same_rows (publish_account env ev).
Proof.
  unfold publish_account. pose proof (note_observed_rows None) as Hn.
  assert (Hf : forall A (m : M (Host C) A), preserves pnl_frame m -> preserves same_rows m)
    by (intros; by apply frame_rows).
  repeat first [ exact Hn | apply Hf; solve [preserve] | preserve_step ].
Qed.

(** The row a PnL event carries. *)
Definition sent_row (ev : pydict) : option (string * pydict) :=
  if is_str (dget ev "type") "account_pnl" then None
  else if is_str (dget ev "type") "instrument_pnl" then
    match instrument_pnl_to_fields ev with
    | Ok fields => Some (py_str (dget fields "instrument_id"), fields)
    | Raise _ => None
    end
  else None.

Lemma observed_sent ev : observed_key ev = fst <$> sent_row ev.
Proof. unfold observed_key, sent_row. by repeat case_match. Qed.

Definition put_row (l : list (string * pydict)) (ev : pydict) : list (string * pydict) :=
  match sent_row ev with Some (k, f) => assoc_set k f l | None => l end.

Lemma dispatch_rows ev h :
  pn_positions (h_pnl (dispatch_pnl_event env ev h).2) = put_row (pn_positions (h_pnl h)) ev.
Proof.
  unfold dispatch_pnl_event, put_row, sent_row.
  destruct (is_str (dget ev "type") "account_pnl"); [apply publish_account_rows|].
  destruct (is_str (dget ev "type") "instrument_pnl"); [|done].
  unfold cache_position. destruct (instrument_pnl_to_fields ev) as [fields|]; [|done]. cbv zeta.
  set (key := py_str (dget fields "instrument_id")).
  set (symbol := py_str (dget fields "symbol")).
  change ((timestamp_ns env ≫= ?f) h) with (f (now_of h) (next_read h)). cbv beta zeta.
  change ((modify ?g ≫= ?f) (next_read h)) with (f tt (g (next_read h))). cbv beta.
  match goal with |- pn_positions (h_pnl (?m ?h0).2) = _ => set (rest := m); set (h2 := h0) end.
  assert (preserves same_rows rest) as Hr; [|exact (Hr h2)]. subst rest.
  apply preserves_bind; [apply _|apply frame_rows; destruct (field_text _ _); preserve|intros _].
  apply preserves_bind; [apply _|apply note_observed_rows|intros _].
  apply preserves_bind; [apply _|by intros ?|intros _].
  apply frame_rows. apply preserves_catch; [apply _|apply exposure_push_frame|intros _; preserve].
Qed.

Lemma dispatch_all_rows evs : forall h,
  pn_positions (h_pnl (dispatch_all evs h)) = fold_left put_row evs (pn_positions (h_pnl h)).
Proof.
  induction evs as [|ev evs IH]; intros h; [done|].
  change (dispatch_all (ev :: evs) h) with (dispatch_all evs (dispatch_pnl_event env ev h).2).
  by rewrite IH, dispatch_rows.
Qed.

(** The newest row sent for an instrument. *)
Definition resent (evs : list pydict) (key : string) : option pydict :=
  last (omap (fun ev => match sent_row ev with
                        | Some (k, f) => if bool_decide (k = key) then Some f else None
                        | None => None
                        end) evs).

Lemma assoc_set_elem k v (l : list (string * pydict)) k' v' :
  NoDup l.*1 ->
  (k', v') ∈ assoc_set k v l <-> if bool_decide (k' = k) then v' = v else (k', v') ∈ l.
Proof.
  induction l as [|[k0 v0] l IH]; intros Hnd; csimpl in *.
  { rewrite list_elem_of_singleton. case_bool_decide as E; [by subst; split; [intros [= <-]|intros ->]|].
    rewrite elem_of_nil. by split; [intros [= ? ?]|]. }
  apply NoDup_cons in Hnd as [Hn Hnd]. specialize (IH Hnd).
  destruct (bool_decide (k0 = k)) eqn:E.
  - apply bool_decide_eq_true in E as ->. case_bool_decide as Ek; rewrite !elem_of_cons.
    + subst k'. split; [intros [[= <-]|Hin]; [done|]|intros ->; auto].
      destruct Hn. by apply (list_elem_of_fmap_2' fst _ (k, v')).
    + by split; (intros [[= ? ?]|?]; [|right]).
  - apply bool_decide_eq_false in E. case_bool_decide; rewrite !elem_of_cons, IH; [|done].
    split; [intros [[= ? ?]|?]; congruence|auto].
Qed.

Lemma assoc_set_nodup k v (l : list (string * pydict)) : NoDup l.*1 -> NoDup (assoc_set k v l).*1.
Proof.
  induction l as [|[k0 v0] l IH]; intros Hnd; csimpl in *; [apply NoDup_singleton|].
  pose proof Hnd as [Hn Hnd']%NoDup_cons. case_bool_decide as E; csimpl; [by subst|].
  constructor; [|auto]. intros ((k', v') & -> & Hin)%list_elem_of_fmap. simpl in *.
  apply assoc_set_elem in Hin; [|done]. case_bool_decide; [congruence|].
  apply Hn. by apply (list_elem_of_fmap_2' fst _ (k', v')).
Qed.

(** After the events: the newest row sent, else the row that was there. *)
Lemma put_rows_elem evs l key row :
  NoDup l.*1 ->
  (key, row) ∈ fold_left put_row evs l
  <-> match resent evs key with Some f => row = f | None => (key, row) ∈ l end.
Proof.
  intros Hnd. assert (NoDup (fold_left put_row evs l).*1 /\ ((key, row) ∈ fold_left put_row evs l
    <-> match resent evs key with Some f => row = f | None => (key, row) ∈ l end)) as [_ ?]; [|done].
  induction evs as [|ev evs [IHn IH]] using rev_ind; [done|].
  rewrite fold_left_app. simpl. unfold put_row at 1 3. unfold resent. rewrite omap_app. csimpl.
  destruct (sent_row ev) as [[k f]|]; [|by rewrite app_nil_r].
  split; [by apply assoc_set_nodup|]. rewrite assoc_set_elem by done.
  destruct (decide (k = key)) as [->|Hk].
  - by rewrite !bool_decide_true, last_snoc.
  - rewrite !bool_decide_false by congruence. rewrite app_nil_r. exact IH.
Qed.

Lemma resent_observed evs key : is_Some (resent evs key) <-> key ∈ omap observed_key evs.
Proof.
  unfold resent. rewrite last_is_Some. rewrite list_elem_of_omap. split.
  - intros Hne. destruct (omap _ evs) as [|f l] eqn:E; [done|].
    assert (f ∈ f :: l) as Hin by constructor. rewrite <- E in Hin.
    apply list_elem_of_omap in Hin as (ev & Hev & Hf). exists ev. split; [done|].
    rewrite observed_sent. destruct (sent_row ev) as [[k g]|]; [|done].
    case_bool_decide; [by subst|done].
  - intros (ev & Hev & Hk) E. rewrite observed_sent in Hk.
    destruct (sent_row ev) as [[k f]|] eqn:Es; [|done]. simplify_eq/=.
    assert (f ∈ omap (fun ev => match sent_row ev with
      | Some (k, f) => if bool_decide (k = key) then Some f else None | None => None end) evs) as Hin.
    { apply list_elem_of_omap. exists ev. split; [done|]. by rewrite Es, bool_decide_true. }
    rewrite E in Hin. by apply not_elem_of_nil in Hin.
Qed.

(** The two ways the client gives up a PnL stream: the resync of a broken
    subscription keeps the rows as history, a forgotten stream keeps nothing. *)
Inductive pnl_break : Type := Resync | Forget.

Definition break_pnl (b : pnl_break) h : Host C :=
  match b with
  | Resync => on_pnl invalidate_pnl h
  | Forget => (forget_pnl_state h).2
  end.

Lemma break_current b h : stamps_past h -> current [] (break_pnl b h).
Proof.
  intros Hp. destruct b; (split; [|done]); [exact Hp|].
  intros k t Hk. change ((∅ : gmap string Z) !! k = Some t) in Hk. by rewrite lookup_empty in Hk.
Qed.

(** (C10) Exposure counts exactly the rows of the live stream.  After the PnL
    stream was given up, by the resync of a broken subscription or by
    forgetting it on a (re)connect, and once events arrive again, the rows a
    snapshot counts are, for each instrument, the newest row the venue sent
    since, and nothing else: a row from before the break never lingers as
    exposure, the first row of the new stream is never taken for flat, and a
    forgotten stream leaves no old row in the cache at all.  The host is one
    whose position dictionary has distinct keys and whose stamps are in the
    past; the clock is positive and each reading is later than the one
    before. *)
Theorem snapshot_counts_live_rows (b : pnl_break) h (evs : list pydict) (live : Z)
  (key : string) (row : pydict) :
  NoDup (pn_positions (h_pnl h)).*1 ->
  stamps_past h ->
  let h' := dispatch_all evs (break_pnl b h) in
  pn_live_since_ns (h_pnl h') = Some live ->
  ((key, row) ∈ rows_seen_since live (h_pnl h') <-> resent evs key = Some row) /\
  (b = Forget -> (key, row) ∈ pn_positions (h_pnl h') -> resent evs key = Some row).
Proof.
  intros Hnd Hp h' Hl.
  assert (Hc : current (omap observed_key evs) h')
    by (by apply (dispatch_all_current evs []), break_current).
  assert (Hrow : (key, row) ∈ pn_positions (h_pnl h') <->
    match resent evs key with Some f => row = f
    | None => (key, row) ∈ pn_positions (h_pnl (break_pnl b h)) end).
  { unfold h'. rewrite dispatch_all_rows. apply put_rows_elem. destruct b; [done|constructor]. }
  destruct Hc as [_ Hc]. rewrite Hl in Hc. destruct Hc as (H0' & _ & Ho & Hn). split.
  - unfold rows_seen_since. rewrite list_elem_of_In, List.filter_In, <- list_elem_of_In. simpl.
    rewrite Z.leb_le, Hrow. pose proof (resent_observed evs key) as Hre.
    destruct (resent evs key) as [f|].
    + destruct (Ho key) as (t & -> & Ht); [by apply Hre|]. simpl. naive_solver.
    + split; [|done]. intros [_ Hk].
      assert (key ∉ omap observed_key evs) as Hni by (intros Hin%Hre; by destruct Hin).
      destruct (pn_seen_ns (h_pnl h') !! key) as [t|] eqn:E; simpl in Hk; [|lia].
      specialize (Hn key t Hni E). lia.
  - intros -> Hin%Hrow. destruct (resent evs key); [by subst|].
    by apply not_elem_of_nil in Hin.
Qed.

End Current.

#[local] Existing Instance PlainTypes.

Definition pnl_event (symbol : string) (net : pyval) : pydict :=
  dict_of [("type", VStr "instrument_pnl"); ("symbol", VStr symbol); ("exchange", VStr "CME");
           ("account_id", VStr "ACC"); ("net_quantity", net)].

(** A client that holds two rows of the old stream. *)
Definition warm_host : Host MapCache :=
  dispatch_all Sample.env [pnl_event "MNQZ6" (VInt 2); pnl_event "ESZ6" (VInt 1)]
    (Sample.host [] Live).

Lemma sample_clock_mono m n : (m < n)%nat -> e_clock Sample.env m < e_clock Sample.env n.
Proof. simpl. lia. Qed.

Lemma sample_clock_pos : 0 < e_clock Sample.env 0.
Proof. reflexivity. Qed.

Lemma sample_stamps : stamps_past Sample.env warm_host.
Proof.
  apply (dispatch_all_current Sample.env sample_clock_pos sample_clock_mono _ []).
  split; [|done]. intros k t Hk.
  change ((∅ : gmap string Z) !! k = Some t) in Hk. by rewrite lookup_empty in Hk.
Qed.

Definition resumed_host : Host MapCache :=
  dispatch_all Sample.env [pnl_event "MNQZ6" (VInt 3)] (on_pnl invalidate_pnl warm_host).

Definition live_since (h : Host MapCache) : Z := default 0 (pn_live_since_ns (h_pnl h)).

Lemma resumed_live : pn_live_since_ns (h_pnl resumed_host) = Some (live_since resumed_host).
Proof. vm_compute. reflexivity. Qed.

Definition forgotten_host : Host MapCache :=
  dispatch_all Sample.env [pnl_event "MNQZ6" (VInt 3)] (forget_pnl_state warm_host).2.

Lemma forgotten_live : pn_live_since_ns (h_pnl forgotten_host) = Some (live_since forgotten_host).
Proof. vm_compute. reflexivity. Qed.

Lemma warm_keys : NoDup (pn_positions (h_pnl warm_host)).*1.
Proof. vm_compute. repeat constructor; set_solver. Qed.

Lemma snapshot_counts_live_rows_witness :
  (forall key row,
    ((key, row) ∈ rows_seen_since (live_since resumed_host) (h_pnl resumed_host) <->
     resent [pnl_event "MNQZ6" (VInt 3)] key = Some row)) /\
  (forall key row, (key, row) ∈ pn_positions (h_pnl forgotten_host) ->
     resent [pnl_event "MNQZ6" (VInt 3)] key = Some row) /\
  (rows_seen_since (live_since resumed_host) (h_pnl resumed_host)).*1 = ["MNQZ6-CME.RITHMIC"] /\
  (pn_positions (h_pnl resumed_host)).*1 = ["MNQZ6-CME.RITHMIC"; "ESZ6-CME.RITHMIC"].
Proof.
  split_and!; [| |vm_compute; reflexivity..]; intros key row.
  - exact (proj1 (snapshot_counts_live_rows Sample.env sample_clock_pos sample_clock_mono Resync
             warm_host [pnl_event "MNQZ6" (VInt 3)] (live_since resumed_host)
             key row warm_keys sample_stamps resumed_live)).
  - exact (proj2 (snapshot_counts_live_rows Sample.env sample_clock_pos sample_clock_mono Forget
             warm_host [pnl_event "MNQZ6" (VInt 3)] (live_since forgotten_host)
             key row warm_keys sample_stamps forgotten_live) eq_refl).
Defined.

(** ** A complete snapshot is proof *)


Definition exposure_world (rows : list pydict) : Env MapCache :=
  MkEnv (fun n => 4000000000 + Z.of_nat n) (fun _ _ => Ok (RRows rows)) (fun _ h => h) (fun _ => true)
    (fun _ => Ok tt) (fun _ => Ok tt).

Definition proves_flatness (r : res ExposureSnapshot * Host MapCache) : bool :=
  match r with (Ok s, _) => complete s | _ => false end.


(** ** Where the code and its comments part *)

(** [_publish_account] refuses a row without any balance, but the converter
    has already replaced the missing balances by zero, so such a row publishes
    a zero balance over the real one. *)
Definition balance_event (extra : list (string * pyval)) : pydict :=
  dict_of ([("type", VStr "account_pnl"); ("account_id", VStr "ACC")] ++ extra).

Definition account_states (l : list Out) : list (decimal) :=
  omap (fun o => match o with OAccountState _ _ d _ => Some d | _ => None end) l.

Lemma row_without_balance_publishes_zero :
  account_states (h_out (dispatch_all Sample.env
    [balance_event [("cash_on_hand", VStr "50000")]; balance_event []] (Sample.host [] Live)))
  = [Dec 0 0; Dec 50000 0; Dec 0 0].
Proof. vm_compute. reflexivity. Qed.
