(* ===== verification/MassStatus.v ===== *)
(** * The startup mass status

    [generate_mass_status] of [execution.py] with the helpers of [recon.py] it
    calls: the order, fill and position generators in turn, the history window
    declared on whatever the installed NautilusTrader offers, FLAT reports for
    the positions only the cache has open, and the warnings about positions the
    cache and the venue disagree on. *)

From Stdlib Require Import Ascii String.
From stdpp Require Import base gmap strings list.
From Stdlib Require Import ZArith Lia Floats.SpecFloat.
From S2P Require Import Prelude PyVal Plant Lru Ident Nautilus Orders OrderRows Commission Host Convert Drain Intake Exposure.
Import Text.
Open Scope string_scope.
Open Scope list_scope.
Open Scope Z_scope.

(** ** The mass-status object *)

(** An attribute of an object: absent, one that cannot be set, one that can. *)
Inductive Attr (A : Type) := Missing | ReadOnly (v : A) | Slot (v : A).
Arguments Missing {A}.
Arguments ReadOnly {A} _.
Arguments Slot {A} _.

(** [setattr] on an attribute [hasattr] finds; [None] where it raises. *)
Definition set_attr {A} (v : A) (a : Attr A) : option (Attr A) :=
  match a with Slot _ => Some (Slot v) | _ => None end.

(** An [ExecutionMassStatus]: which of the window's names it has depends on the
    installed NautilusTrader ([ms_window] holds the last call of the setter, for
    an object that has one). *)
Record MassStatus := MkMass {
  ms_ts_init : Z;
  ms_has_setter : bool;
  ms_window : option (Z * bool);
  ms_lookback_start : Attr Z;
  ms_reports_complete : Attr bool;
  ms_orders : list StatusReport;
  ms_fills : list FillReport;
  ms_positions : list PositionReport
}.

Definition apply_mass_status_report_window (m : MassStatus) (lookback_start_ns : Z)
  (reports_complete : bool) : bool * MassStatus :=
  if ms_has_setter m then
    (true, MkMass (ms_ts_init m) (ms_has_setter m) (Some (lookback_start_ns, reports_complete))
             (ms_lookback_start m) (ms_reports_complete m) (ms_orders m) (ms_fills m) (ms_positions m))
  else
    let l := set_attr lookback_start_ns (ms_lookback_start m) in
    let c := set_attr reports_complete (ms_reports_complete m) in
    (match l, c with None, None => false | _, _ => true end,
     MkMass (ms_ts_init m) (ms_has_setter m) (ms_window m) (default (ms_lookback_start m) l)
       (default (ms_reports_complete m) c) (ms_orders m) (ms_fills m) (ms_positions m)).

(** The three [add_*_reports] calls. *)
Definition add_reports (orders : list StatusReport) (fills : list FillReport)
  (positions : list PositionReport) (m : MassStatus) : MassStatus :=
  MkMass (ms_ts_init m) (ms_has_setter m) (ms_window m) (ms_lookback_start m) (ms_reports_complete m)
    (ms_orders m ++ orders) (ms_fills m ++ fills) (ms_positions m ++ positions).

(** ** Positions the cache has open *)

Definition signed_qty (r : PositionReport) : Z :=
  match prp_side r with LONG => prp_quantity r | SHORT => - prp_quantity r | FLAT => 0 end.

(** A warning: instrument, cached quantity, venue quantity. *)
Definition Disagreement : Type := string * Z * Z.

(** [int(since.timestamp() * 1_000_000_000)]; [timestamp] is the [Timestamp]
    method, a float of seconds. *)
Definition lookback_ns (timestamp : Z -> f64) (since : Z) : res Z :=
  Z_of_f64 (SFmul prec64 emax64 (timestamp since) (f64_of_decimal false 1000000000 0)).

(** The bound the generators get; [_recon_window_sec] truncates it to seconds
    (a [Timestamp] has a finite [timestamp()]). *)
Definition since_arg (timestamp : Z -> f64) (since : option Z) : TimeArg :=
  match since with
  | None => TNone
  | Some s => match Z_of_f64 (timestamp s) with Ok n => TStamp n | Raise _ => TOther end
  end.

(** The errors a generator may raise without aborting the mass status. *)
Definition soft (e : exn) : bool :=
  bool_decide (ex_class e = ExVenueQueryUnavailable) || bool_decide (ex_class e = ExReconUnavailable).

Section Mass.
Context {C : Type} `{CacheOps C} `{NautilusTypes}.
Variable env : Env C.

(** FLAT reports for cache-open instruments the venue set does not cover. *)
Definition augment_soft_mass_flat_for_cache_opens (venue_reports : list PositionReport)
  (ts_init : Z) (h : Host C) : list PositionReport :=
  match ac_account_id (h_account h) with
  | None => venue_reports
  | Some account =>
      let covered := prp_instrument_id <$> venue_reports in
      venue_reports ++
      omap (fun p =>
        if bool_decide (p_instrument_id p ∈ covered) then None
        else match cache_instrument (h_cache h) (p_instrument_id p) with
             | None => None
             | Some _ => Some (MkPosReport account (p_instrument_id p) FLAT 0 ts_init None)
             end) (cache_positions_open (h_cache h))
  end.

(** What the cache has open on an instrument (positions of the client's account). *)
Definition cached_qty (instrument : string) (h : Host C) : Z :=
  foldr (fun p n => p_signed_qty p + n) 0
    (List.filter (fun p => bool_decide (p_instrument_id p = instrument)) (cache_positions_open (h_cache h))).

Definition warn_soft_mass_cache_vs_venue (positions : list PositionReport) (h : Host C)
  : list Disagreement :=
  omap (fun r =>
    let cached := cached_qty (prp_instrument_id r) h in
    if bool_decide (cached = signed_qty r) then None
    else Some (prp_instrument_id r, cached, signed_qty r)) positions.

(** The client with its [reconciliation_active] flag. *)
Definition on_host {A} (m : M (Host C) A) : M (Host C * bool) A :=
  fun '(h, active) => let '(r, h') := m h in (r, (h', active)).
Definition set_active (b : bool) : M (Host C * bool) unit := fun '(h, _) => (Ok tt, (h, b)).

(** Orders and whether they are incomplete; [None] aborts. *)
Definition mass_orders (since : TimeArg) (now_sec : Z) : M (Host C) (option (list StatusReport * bool)) :=
  catchM any_exn
    (l ← generate_order_status_reports env since TNone now_sec None false; mret (Some (l, false)))
    (fun e => mret (if soft e then Some ([], true) else None)).

(** Whether the fills are incomplete; the fills themselves are dropped. *)
Definition mass_fills (since : TimeArg) (now_sec : Z) : M (Host C) (option bool) :=
  catchM any_exn
    (_ ← generate_fill_reports env since TNone now_sec None None; mret (Some false))
    (fun e => mret (if soft e then Some true else None)).

Definition mass_position_reports : M (Host C) (option (list PositionReport)) :=
  catchM any_exn
    (l ← generate_position_status_reports env None; mret (Some l)) (fun _ => mret None).

(** [fresh] is the constructor of the installed [ExecutionMassStatus], [utc_now]
    the clock in nanoseconds.  The result carries the warnings logged; [None] is
    an aborted mass status. *)
Definition generate_mass_status (fresh : Z -> MassStatus) (timestamp : Z -> f64) (utc_now now_sec : Z)
  (lookback_mins : option Z) : M (Host C * bool) (option (MassStatus * list Disagreement)) :=
  set_active true ;;
  ts_init ← on_host (timestamp_ns env);
  let since := (fun mins => utc_now - mins * 60 * 1000000000) <$> lookback_mins in
  _ ← on_host (timestamp_ns env);
  _ ← on_host (timestamp_ns env);
  _ ← on_host (timestamp_ns env);
  orders ← on_host (mass_orders (since_arg timestamp since) now_sec);
  match orders with
  | None => set_active false ;; mret None
  | Some (orders, orders_incomplete) =>
      fills_incomplete ← on_host (mass_fills (since_arg timestamp since) now_sec);
      match fills_incomplete with
      | None => set_active false ;; mret None
      | Some _ =>
          positions ← on_host mass_position_reports;
          match positions with
          | None => set_active false ;; mret None
          | Some positions =>
              let orders := if orders_incomplete : bool then [] else orders in
              lookback ← lift (match since with Some s => lookback_ns timestamp s | None => Ok ts_init end);
              let '(_, m) := apply_mass_status_report_window (fresh ts_init) lookback false in
              h ← on_host get;
              let positions' :=
                if positions_known (h_pnl h)
                then augment_soft_mass_flat_for_cache_opens positions ts_init h else positions in
              let warnings := warn_soft_mass_cache_vs_venue positions' h in
              set_active false ;;
              mret (Some (add_reports orders [] positions' m, warnings))
          end
      end
  end.

End Mass.

(** ** Facts *)

Lemma window_incomplete m l :
  let m' := (apply_mass_status_report_window m l false).2 in
  (ms_orders m', ms_fills m', ms_positions m') = (ms_orders m, ms_fills m, ms_positions m) /\
  (ms_has_setter m' = true -> ms_window m' = Some (l, false)) /\
  (ms_has_setter m' = false -> forall b, ms_reports_complete m' = Slot b -> b = false).
Proof.
  unfold apply_mass_status_report_window. destruct (ms_has_setter m) eqn:E; simpl; rewrite ?E.
  - done.
  - split; [done|]. split; [done|]. intros _ b. destruct (ms_reports_complete m); simpl; congruence.
Qed.

Section Facts.
Context {C : Type} `{CacheOps C} `{NautilusTypes}.
Variable env : Env C.
Implicit Types (h : Host C).

Lemma augment_in ps ts h p :
  p ∈ augment_soft_mass_flat_for_cache_opens ps ts h ->
  p ∈ ps \/
  (prp_side p = FLAT /\ prp_quantity p = 0 /\ (prp_instrument_id p ∉ prp_instrument_id <$> ps) /\
   is_Some (cache_instrument (h_cache h) (prp_instrument_id p)) /\
   prp_instrument_id p ∈ (p_instrument_id <$> cache_positions_open (h_cache h))).
Proof.
  unfold augment_soft_mass_flat_for_cache_opens. destruct (ac_account_id (h_account h)) as [a|]; [|by left].
  rewrite elem_of_app, list_elem_of_omap. intros [Hp|(q & Hin & Hq)]; [by left|right].
  case_bool_decide; [done|]. destruct (cache_instrument _ _) eqn:Ei; simplify_eq. simpl.
  split_and!; try done. by apply list_elem_of_fmap_2.
Qed.

Lemma augment_covers ps ts h q :
  is_Some (ac_account_id (h_account h)) -> q ∈ cache_positions_open (h_cache h) ->
  is_Some (cache_instrument (h_cache h) (p_instrument_id q)) ->
  p_instrument_id q ∈ prp_instrument_id <$> augment_soft_mass_flat_for_cache_opens ps ts h.
Proof.
  intros [a Ha] Hq [i Hi]. unfold augment_soft_mass_flat_for_cache_opens. rewrite Ha, fmap_app, elem_of_app.
  destruct (decide (p_instrument_id q ∈ prp_instrument_id <$> ps)) as [Hc|Hc]; [by left|right].
  apply list_elem_of_fmap. eexists. split; [|apply list_elem_of_omap; exists q; split; [done|]].
  2: { rewrite bool_decide_eq_false_2 by done. by rewrite Hi. }
  done.
Qed.

Lemma warn_covers ps h p :
  p ∈ ps -> cached_qty (prp_instrument_id p) h = signed_qty p \/
  (prp_instrument_id p, cached_qty (prp_instrument_id p) h, signed_qty p)
    ∈ warn_soft_mass_cache_vs_venue ps h.
Proof.
  intros Hp. destruct (decide (cached_qty (prp_instrument_id p) h = signed_qty p)) as [E|E]; [by left|right].
  apply list_elem_of_omap. exists p. split; [done|]. simpl. by rewrite bool_decide_eq_false_2.
Qed.

(** What the position loop leaves alone; an account, once known, stays. *)
Definition reading h h' : Prop :=
  h_cache h' = h_cache h /\ h_pnl h' = h_pnl h /\
  (is_Some (ac_account_id (h_account h)) -> is_Some (ac_account_id (h_account h'))).
#[local] Instance reading_preorder : PreOrder reading.
Proof.
  split; [by intros h|]. unfold reading. intros a b c (? & ? & ?) (? & ? & ?).
  split_and!; [congruence..|auto].
Qed.

Lemma set_account_reading id : preserves reading (set_account_id (C:=C) id).
Proof. intros h. split_and!; [done..|]. intros _. by eexists. Qed.
#[local] Hint Resolve set_account_reading : preserve.

Lemma row_report_reading f ts row : preserves reading (position_row_report (C:=C) f ts row).
Proof. unfold position_row_report, position_report_from_fields, account_id. preserve. Qed.

(** Why the loop may pass over a row of a loaded instrument: its contract also
    had a row that could not be read, or no account is known to report it for. *)
Definition passed_over h (row : pydict) : Prop :=
  strip (str_or_empty (dget row "symbol")) ∈ pn_unreadable (h_pnl h)
  \/ ac_account_id (h_account h) = None /\ field_text row "account_id" = None.

Lemma row_report_spec ts row h r h' i :
  position_row_report None ts row h = (Ok r, h') ->
  instrument_id_from_str (py_str (dget row "instrument_id")) = Ok i ->
  is_Some (cache_instrument (h_cache h) i) ->
  passed_over h row \/ exists p, r = Some p /\ prp_instrument_id p = i.
Proof.
  intros E Hi [x Hx]. unfold position_row_report in E. change ((get ≫= ?f) h) with (f h h) in E.
  cbv beta zeta in E.
  destruct (nonempty _ && bool_decide _) eqn:Hu.
  { apply andb_true_iff in Hu as [_ ?%bool_decide_eq_true]. by left; left. }
  unfold mbind at 1, M_bind at 1, lift at 1 in E. rewrite Hi in E. simpl in E. rewrite Hx in E.
  unfold position_report_from_fields in E. change ((get ≫= ?f) h) with (f h h) in E. cbv beta in E.
  destruct (ac_account_id (h_account h)) as [a|] eqn:Ha, (field_text row "account_id") as [b|] eqn:Hb;
    [| | |by left; right].
  all: right; revert E; run_monad; unfold set_account_id, account_id; run_monad; simpl.
  all: destruct (if is_none _ then _ else _) as [avg|]; [|done]; rewrite Hi.
  all: destruct (py_int (dget row "quantity")) as [n|]; [simpl|done].
  all: destruct (quantity_from_int n) as [q|]; [|done].
  all: intros [= <- _]; by eexists.
Qed.

Lemma position_reports_spec ts rows : forall h l h',
  position_reports rows None ts h = (Ok l, h') ->
  reading h h' /\
  forall row i, row ∈ rows -> instrument_id_from_str (py_str (dget row "instrument_id")) = Ok i ->
    is_Some (cache_instrument (h_cache h) i) -> passed_over h row \/ i ∈ prp_instrument_id <$> l.
Proof.
  induction rows as [|f rows IH]; intros h l h'; cbn [position_reports].
  { intros [= <- <-]. split; [done|]. by intros row i ?%not_elem_of_nil. }
  unfold mbind, M_bind. pose proof (row_report_reading None ts f h) as Hr.
  destruct (position_row_report None ts f h) as [[r|] h1] eqn:E1; [|done]. simpl in Hr.
  destruct (position_reports rows None ts h1) as [[rest|] h2] eqn:E2; [|done]. intros [= <- <-].
  destruct (IH _ _ _ E2) as [Hr2 Hrest]. split; [by etransitivity|].
  destruct Hr as (Hc & Hp & Ha).
  intros row i [->|Hin]%elem_of_cons Hi Hx.
  - destruct (row_report_spec _ _ _ _ _ _ E1 Hi Hx) as [?|(p & -> & <-)]; [by left|right].
    csimpl. constructor.
  - rewrite <- Hc in Hx. destruct (Hrest row i Hin Hi Hx) as [[Hu|[Hn Hf]]|Hl].
    + left; left. by rewrite <- Hp.
    + left; right. split; [|done]. destruct (ac_account_id (h_account h)); [|done].
      destruct Ha; [done|]. congruence.
    + right. destruct r; csimpl; [by constructor|done].
Qed.

(** Without a live stream no position is reported at all; on one, no row of a
    loaded instrument is passed over without a reason. *)
Lemma generate_positions_spec h l h' :
  generate_position_status_reports env None h = (Ok l, h') ->
  h_pnl h' = h_pnl h /\ h_cache h' = h_cache h /\
  (positions_known (h_pnl h) = false -> l = []) /\
  (positions_known (h_pnl h) = true -> forall live row i,
     pn_live_since_ns (h_pnl h) = Some live -> row ∈ (rows_seen_since live (h_pnl h)).*2 ->
     instrument_id_from_str (py_str (dget row "instrument_id")) = Ok i ->
     is_Some (cache_instrument (h_cache h) i) -> passed_over h row \/ i ∈ prp_instrument_id <$> l).
Proof.
  unfold generate_position_status_reports. run_monad. simpl.
  destruct (positions_known (h_pnl h)) eqn:Ek; simpl; [|by intros [= <- <-]].
  destruct (pn_live_since_ns (h_pnl h)) as [live|]; [|by intros [= <- <-]].
  intros E. destruct (position_reports_spec _ _ _ _ _ E) as [(Hc & Hp & _) Hall].
  split_and!; [done..|]. intros _ ? row i [= <-] Hrow Hi Hx. by apply (Hall row i).
Qed.

Lemma mass_orders_spec since now_sec h :
  match (mass_orders env since now_sec h).1 with
  | Ok (Some (l, incomplete)) =>
      match (generate_order_status_reports env since TNone now_sec None false h).1 with
      | Ok l' => l = l' /\ incomplete = false
      | Raise e => soft e = true /\ incomplete = true
      end
  | Ok None => True
  | Raise _ => False
  end.
Proof.
  unfold mass_orders, catchM. run_monad.
  destruct (generate_order_status_reports _ _ _ _ _ _ h) as [[l|e] h1]; simpl; [done|].
  by destruct (soft e).
Qed.

Lemma mass_positions_spec h :
  match mass_position_reports env h with
  | (Ok (Some l), h') => generate_position_status_reports env None h = (Ok l, h')
  | (Ok None, _) => True
  | (Raise _, _) => False
  end.
Proof.
  unfold mass_position_reports, catchM. run_monad.
  by destruct (generate_position_status_reports env None h) as [[l|e] h1].
Qed.

End Facts.

(** (C12) What the startup mass status claims.  Whatever the generators did, a
    run that returns leaves the client out of reconciliation; the status it
    returns, if any, holds no fills and never declares its history complete; its
    orders are exactly the drain's, or none when the drain was unavailable.
    Without a live PnL stream, or with an unreadable row that names no contract,
    it claims nothing about positions.  Otherwise every position report is the
    venue's, or a FLAT one for a loaded instrument the cache has open and the
    venue reports do not cover, and then no row of that instrument on the live
    stream was passed over except because a row of its contract was unreadable,
    or because no account was known; every loaded instrument the cache has open
    is covered; a quantity that differs from the cache's is warned about.  The
    unreadable exception is real and against the docstring of
    [_positions_known]: such a contract is reported FLAT
    ([unreadable_contract_reported_flat]). *)
Theorem mass_status_honest {C} `{CacheOps C} `{NautilusTypes} (env : Env C) fresh timestamp utc_now now_sec
  lookback_mins (h : Host C) (active : bool) r h' active' :
  (forall t, ms_orders (fresh t) = [] /\ ms_fills (fresh t) = [] /\ ms_positions (fresh t) = []) ->
  generate_mass_status env fresh timestamp utc_now now_sec lookback_mins (h, active) = (Ok r, (h', active')) ->
  active' = false /\
  forall m warnings, r = Some (m, warnings) ->
    ms_fills m = [] /\
    (ms_has_setter m = true -> exists l, ms_window m = Some (l, false)) /\
    (ms_has_setter m = false -> forall b, ms_reports_complete m = Slot b -> b = false) /\
    (let since := (fun mins => utc_now - mins * 60 * 1000000000) <$> lookback_mins in
     match (generate_order_status_reports env (since_arg timestamp since) TNone now_sec None false
              (Nat.iter 4 next_read h)).1 with
     | Ok l => ms_orders m = l
     | Raise e => soft e = true /\ ms_orders m = []
     end) /\
    (exists venue h0, generate_position_status_reports env None h0 = (Ok venue, h') /\
       forall p, p ∈ ms_positions m -> p ∈ venue \/
         (prp_side p = FLAT /\ prp_quantity p = 0 /\
          (prp_instrument_id p ∉ prp_instrument_id <$> venue) /\
          prp_instrument_id p ∈ (p_instrument_id <$> cache_positions_open (h_cache h')) /\
          forall live row, pn_live_since_ns (h_pnl h') = Some live ->
            row ∈ (rows_seen_since live (h_pnl h')).*2 ->
            instrument_id_from_str (py_str (dget row "instrument_id")) = Ok (prp_instrument_id p) ->
            passed_over h0 row)) /\
    (positions_known (h_pnl h') = false -> ms_positions m = []) /\
    (positions_known (h_pnl h') = true -> is_Some (ac_account_id (h_account h')) ->
       forall q, q ∈ cache_positions_open (h_cache h') ->
         is_Some (cache_instrument (h_cache h') (p_instrument_id q)) ->
         p_instrument_id q ∈ prp_instrument_id <$> ms_positions m) /\
    (forall p, p ∈ ms_positions m -> cached_qty (prp_instrument_id p) h' = signed_qty p \/
       (prp_instrument_id p, cached_qty (prp_instrument_id p) h', signed_qty p) ∈ warnings).
Proof.
  intros Hfresh. unfold generate_mass_status. set (since := (fun mins => _) <$> lookback_mins).
  run_monad. unfold set_active, on_host. simpl.
  change (next_read (next_read (next_read (next_read h)))) with (Nat.iter 4 next_read h).
  pose proof (mass_orders_spec env (since_arg timestamp since) now_sec (Nat.iter 4 next_read h)) as Ho.
  destruct (mass_orders env _ now_sec _) as [[[[orders inc]|]|] h1]; [| |done]; [|by intros [= <- _ <-]].
  destruct (mass_fills env _ now_sec h1) as [[[fi|]|] h2]; [| |done]; [|by intros [= <- _ <-]].
  pose proof (mass_positions_spec env h2) as Hp.
  destruct (mass_position_reports env h2) as [[[ps|]|] h3]; [| |done]; [|by intros [= <- _ <-]].
  destruct (generate_positions_spec env h2 ps h3 Hp) as (Hpnl & Hcache & Hnone & Hcov).
  destruct (match since with Some s => lookback_ns timestamp s | None => _ end) as [lb|]; [|done].
  destruct (apply_mass_status_report_window (fresh (e_clock env (h_reads h))) lb false) as [ok m0] eqn:Ew.
  pose proof (window_incomplete (fresh (e_clock env (h_reads h))) lb) as (Hw & Hset & Hslot).
  rewrite Ew in Hw, Hset, Hslot. simpl in Hw, Hset, Hslot.
  destruct (Hfresh (e_clock env (h_reads h))) as (Fo & Ff & Fp). rewrite Fo, Ff, Fp in Hw.
  injection Hw as Mo Mf Mp. intros [= <- <- <-]. split; [done|]. intros m warnings [= <- <-].
  unfold add_reports. simpl. rewrite Mo, Mf, Mp. simpl. split_and!; try done.
  - intros Hs. eauto.
  - destruct (generate_order_status_reports _ _ _ _ _ _ _) as [[l|e] h0]; simpl in Ho |- *.
    + by destruct Ho as [-> ->].
    + by destruct Ho as [? ->].
  - exists ps, h2. split; [done|]. intros p Hin. destruct (positions_known (h_pnl h3)) eqn:Hk; [|by left].
    apply augment_in in Hin as [?|(? & ? & Hni & Hi & ?)]; [by left|right].
    split_and!; try done. intros live row Hl Hrow Hid. rewrite Hpnl in Hk, Hl, Hrow.
    rewrite Hcache in Hi. by destruct (Hcov Hk live row _ Hl Hrow Hid Hi).
  - intros Hk. rewrite Hk. apply Hnone. congruence.
  - intros Hk Ha q Hq Hi. rewrite Hk. by apply augment_covers.
  - intros p Hin. by apply warn_covers.
Qed.

(** ** Samples *)

Module MassSample.
#[local] Existing Instance PlainTypes.
(** NautilusTrader 1.231: neither setter nor attributes. *)
Definition bare (t : Z) : MassStatus := MkMass t false None Missing Missing [] [] [].
Definition seconds (ns : Z) : f64 := f64_of_decimal false (Z.to_N ns) (-9).

Definition run (env : Env MapCache) (h : Host MapCache) :=
  generate_mass_status env bare seconds 7200000000000 7200 (Some 60) (h, false).

Definition ghost_host : Host MapCache :=
  let h := dispatch_all Sample.env [pnl_event "MNQZ6" (VInt 2); pnl_event "MNQZ6" (VStr "?")]
             (Sample.host [] Live) in
  let c := h_cache h in
  set_cache (MkMapCache (mc_orders c) (mc_by_venue c) (mc_by_client c) (mc_instruments c)
               [MkPosition "MNQZ6-CME.RITHMIC" 2]) h.

Definition mass_positions (r : res (option (MassStatus * list Disagreement)) * (Host MapCache * bool))
  : list (string * PositionSide) * list Disagreement :=
  match r with
  | (Ok (Some (m, ws)), _) => ((fun p => (prp_instrument_id p, prp_side p)) <$> ms_positions m, ws)
  | _ => ([], [])
  end.

(** The docstring of [_positions_known] says that no row on the stream was
    unreadable; only rows without a symbol are looked at.  The mass status then
    reports a contract FLAT although its latest venue row could not be read. *)
Lemma unreadable_contract_reported_flat :
  "MNQZ6" ∈ pn_unreadable (h_pnl ghost_host) /\
  mass_positions (run Sample.env ghost_host)
  = ([("MNQZ6-CME.RITHMIC", FLAT)], [("MNQZ6-CME.RITHMIC", 2, 0)]).
Proof. split; [evaluate|vm_compute; reflexivity]. Qed.

(** The startup mass status discards the fills it drains, but the drain marks
    their keys: the live stream's own delivery of such a fill is then taken for
    a replay and dropped. *)
Definition fill_world : Env MapCache :=
  MkEnv (fun n => 1000 + Z.of_nat n)
    (fun _ c => match c with
                | SLoadOrders _ _ => Ok (RRows [Sample.fill_event "F1" Sample.px])
                | _ => Ok RUnit
                end) (fun _ h => h) (fun _ => true) (fun _ => Ok tt) (fun _ => Ok tt).

Definition started_host : Host MapCache :=
  (run fill_world (Sample.host [Sample.order ACCEPTED false] Live)).2.1.

Lemma startup_drain_swallows_fill :
  emitted_fills started_host = [] /\
  emitted_fills (handle_order_notification fill_world (Sample.fill_fields "F1" Sample.px)
                   started_host).2 = [] /\
  length (emitted_fills (handle_order_notification fill_world
            (Sample.fill_fields "F1" Sample.px)
            (Sample.host [Sample.order ACCEPTED false] Live)).2) = 1%nat.
Proof. split_and!; vm_compute; reflexivity. Qed.

(** A client with two loaded contracts open in the cache: the live stream has
    a row for one of them, and every row on it could be read. *)
Definition es : Instrument :=
  MkInstrument "ESZ6-CME.RITHMIC" 2 (f64_of_decimal false 25 (-2))
    (dict_of [("rithmic_symbol", VStr "ESZ6"); ("rithmic_exchange", VStr "CME")]).

Definition steady_host : Host MapCache :=
  let h := dispatch_all Sample.env [pnl_event "MNQZ6" (VInt 2)] (Sample.host [] Live) in
  let c := h_cache h in
  set_cache (MkMapCache (mc_orders c) (mc_by_venue c) (mc_by_client c)
               (<["ESZ6-CME.RITHMIC" := es]> (mc_instruments c))
               [MkPosition "MNQZ6-CME.RITHMIC" 2; MkPosition "ESZ6-CME.RITHMIC" 1]) h.

Definition mass_status_of (r : res (option (MassStatus * list Disagreement)) * (Host MapCache * bool)) : bool :=
  match r with (Ok (Some _), _) => true | _ => false end.

Lemma mass_status_honest_witness :
  (exists m ws h', run fill_world steady_host = (Ok (Some (m, ws)), (h', false)) /\ ms_fills m = [] /\
    "ESZ6-CME.RITHMIC" ∈ prp_instrument_id <$> ms_positions m) /\
  mass_positions (run fill_world steady_host)
  = ([("MNQZ6-CME.RITHMIC", LONG); ("ESZ6-CME.RITHMIC", FLAT)], [("ESZ6-CME.RITHMIC", 1, 0)]) /\
  pn_unreadable (h_pnl steady_host) = ∅.
Proof.
  split_and!; [|vm_compute; reflexivity..].
  assert (Hs : mass_status_of (run fill_world steady_host) = true) by (vm_compute; reflexivity).
  destruct (run fill_world steady_host) as [[[[m ws]|]|] [h' a]] eqn:E; [|discriminate Hs|discriminate Hs].
  unfold run in E.
  destruct (mass_status_honest fill_world bare seconds 7200000000000 7200 (Some 60) steady_host false
    (Some (m, ws)) h' a (fun t => conj eq_refl (conj eq_refl eq_refl)) E) as [-> Hall].
  destruct (Hall m ws eq_refl) as (Hf & _ & _ & _ & _ & _ & Hc & _).
  exists m, ws, h'. split; [reflexivity|]. split; [exact Hf|].
  assert (Eh : h' = (run fill_world steady_host).2.1) by (unfold run; rewrite E; reflexivity).
  apply (Hc ltac:(rewrite Eh; vm_compute; reflexivity)
            ltac:(rewrite Eh; vm_compute; eexists; reflexivity)
            (MkPosition "ESZ6-CME.RITHMIC" 1)).
  - rewrite Eh. vm_compute. do 2 constructor.
  - rewrite Eh. vm_compute. eexists. reflexivity.
Defined.
End MassSample.
