(* ===== verification/Commands.v ===== *)
(** * Order commands

    The command handlers of [RithmicExecutionClient] ([execution.py]):
    [_command_refusal], [_submit_order], the bracket path of
    [_submit_order_list], [_modify_order], [_cancel_order],
    [_cancel_all_orders], [_batch_cancel_orders], and the classification of a
    failed command ([_failure_class], [_order_command_failed]). *)

From Stdlib Require Import Ascii String.
From stdpp Require Import base gmap strings list.
From Stdlib Require Import ZArith Lia.
From Corelib Require Import SpecFloat.
From S2P Require Import Prelude PyVal Plant Lru Ident Nautilus Orders OrderRows Commission Host.
Import Text.
Open Scope string_scope.
Open Scope list_scope.
Open Scope Z_scope.

(** ** Failure classes *)

Inductive FailureClass := FRejected | FNotSent | FUnknown.

#[export] Instance FailureClass_eq_dec : EqDecision FailureClass.
Proof. solve_decision. Defined.

Definition REJECTED_CODES : list string := ["venue_rejected"].
Definition NOT_SENT_CODES : list string :=
  ["not_sent"; "not_ready"; "trading_disabled"; "cancel_all_denied"].

Definition failure_class (e : exn) : FailureClass :=
  match ex_code e with
  | Some code =>
      if bool_decide (code ∈ REJECTED_CODES) then FRejected
      else if bool_decide (code ∈ NOT_SENT_CODES) then FNotSent
      else FUnknown
  | None => FUnknown
  end.

Definition failure_reason (kind : FailureClass) (e : exn) : string :=
  (match kind with FNotSent => "not sent: " | _ => "venue rejected: " end) +:+ ex_text e.

(** ** Refusal before anything is sent *)

Inductive CommandKind := KSubmit | KModify | KCancel.

Definition kind_name (k : CommandKind) : string :=
  match k with KSubmit => "submit" | KModify => "modify" | KCancel => "cancel" end.

Definition kind_allowed (k : CommandKind) (p : PlantState) : bool :=
  match k with
  | KSubmit => allow_submit p
  | KModify => allow_modify p
  | KCancel => allow_cancel p
  end.

Definition TRADING_DISABLED_REASON : string :=
  "Rithmic trading disabled (enable_trading=False)".

Definition command_refusal {C} (k : CommandKind) (h : Host C) : option string :=
  if negb (cfg_enable_trading (h_cfg h)) then Some TRADING_DISABLED_REASON
  else if negb (cfg_session_trading (h_cfg h)) then
    Some "Rithmic parent gateway trading disabled"
  else if negb (kind_allowed k (h_plant h)) then
    Some (reject_reason (kind_name k) (h_plant h))
  else None.

(** ** Commands *)

Record ModifyCmd := MkModify {
  mo_strategy_id : string;
  mo_instrument_id : string;
  mo_client_order_id : string;
  mo_venue_order_id : option string;
  mo_quantity : option Z;
  mo_price : option Price;
  mo_trigger_price : option Price
}.

Record CancelCmd := MkCancel {
  ca_strategy_id : string;
  ca_instrument_id : string;
  ca_client_order_id : string;
  ca_venue_order_id : option string
}.

Record CancelAllCmd := MkCancelAll {
  cl_instrument_id : string;
  cl_strategy_id : string;
  cl_order_side : option OrderSide
}.

Definition who_order (o : Order) : Who :=
  MkWho (o_strategy_id o) (o_instrument_id o) (o_client_order_id o).
Definition who_modify (c : ModifyCmd) : Who :=
  MkWho (mo_strategy_id c) (mo_instrument_id c) (mo_client_order_id c).
Definition who_cancel (c : CancelCmd) : Who :=
  MkWho (ca_strategy_id c) (ca_instrument_id c) (ca_client_order_id c).

(** [round(x)] of a float: half to even; an infinity or a NaN raises. *)
Definition py_round (f : f64) : res Z :=
  match f with
  | S754_zero _ => Ok 0
  | S754_infinity _ => Raise (Exn ExOverflow None "cannot convert float infinity to integer")
  | S754_nan => Raise value_error
  | S754_finite s m e =>
      let '(n, d) := f64_ratio m e in
      let q := n / d in
      let r := n mod d in
      let a := if (2 * r <? d) || ((2 * r =? d) && Z.even q) then q else q + 1 in
      Ok (if s then - a else a)
  end.

Definition f64_sub : f64 -> f64 -> f64 := SFsub prec64 emax64.
Definition f64_div : f64 -> f64 -> f64 := SFdiv prec64 emax64.

(** [x <= 0] is false of a NaN. *)
Definition f64_le0 (f : f64) : bool :=
  match f with
  | S754_nan => false
  | S754_zero _ => true
  | S754_infinity s | S754_finite s _ _ => s
  end.

Definition f64_is_zero (f : f64) : bool :=
  match f with S754_zero _ => true | _ => false end.

(** [a / b] on floats: division by zero raises. *)
Definition py_div (a b : f64) : res f64 :=
  if f64_is_zero b then Raise (Exn ExOther None "float division by zero")
  else Ok (f64_div a b).

(** [VenueOrderId(venue_id or "UNKNOWN")]. *)
Definition venue_or_unknown (v : option string) : string :=
  default "UNKNOWN" (filled_text v).

Section Handlers.
Context {C : Type} `{CacheOps C} `{NautilusTypes}.
Variable env : Env C.

Definition modify_rejected (c : ModifyCmd) (venue_id : option string) (reason : string)
  : M (Host C) unit :=
  ts ← timestamp_ns env;
  emit (OModifyRejected (who_modify c) (venue_or_unknown venue_id) reason ts).

Definition cancel_rejected (c : CancelCmd) (venue_id : option string) (reason : string)
  : M (Host C) unit :=
  ts ← timestamp_ns env;
  emit (OCancelRejected (who_cancel c) (venue_or_unknown venue_id) reason ts).

Definition reject_all (orders : list Order) (reason : string) : M (Host C) unit :=
  forM_ orders (fun o => ts ← timestamp_ns env; emit (ORejected (who_order o) reason ts)).

Definition deny_all (orders : list Order) (reason : string) : M (Host C) unit :=
  forM_ orders (fun o => ts ← timestamp_ns env; emit (ODenied (who_order o) reason ts)).

Definition announce_all (orders : list Order) : M (Host C) unit :=
  forM_ orders (fun o => ts ← timestamp_ns env; emit (OSubmitted (who_order o) ts)).

Definition mark_order_plant_failed : M (Host C) unit := latch_order_plant.

Definition order_command_failed (e : exn) (reject : string -> M (Host C) unit)
  : M (Host C) unit :=
  match failure_class e with
  | FUnknown => mark_order_plant_failed
  | kind => reject (failure_reason kind e)
  end.

(** [try: await asyncio.to_thread(...)], with its [except Exception] arm. *)
Definition send_command (c : SessionCall) (reject : string -> M (Host C) unit)
  : M (Host C) unit :=
  catchM any_exn (_ ← call env c; mret tt) (fun e => order_command_failed e reject).

Definition opt_float (p : option Price) : option f64 := price_float <$> p.

(** The wire terms of an order, or the mapping error. *)
Definition order_terms (o : Order) (c : C)
  : res (string * string * string * string * string * option Z) :=
  '(symbol, exchange) ← route (o_instrument_id o) c;
  side ← nautilus_side_to_rithmic (side_name (o_side o));
  price_type ← nautilus_order_type_to_rithmic (o_order_type o);
  duration ← nautilus_tif_to_rithmic (o_time_in_force o);
  trail ← trailing_ticks_from_order o;
  Ok (symbol, exchange, side, price_type, duration, trail).

Definition submit_order (o : Order) : M (Host C) unit :=
  h ← get;
  match command_refusal KSubmit h with
  | Some refused => deny_all [o] refused
  | None =>
      match order_terms o (h_cache h) with
      | Raise e => if is_value_error e then deny_all [o] (ex_text e) else throw e
      | Ok (symbol, exchange, side, price_type, duration, trail_by_ticks) =>
          let trail_by_price_id :=
            match trail_by_ticks with Some _ => Some DEFAULT_TRAIL_BY_PRICE_ID | None => None end in
          announce_all [o] ;;
          send_command
            (SPlaceOrder symbol exchange side price_type (o_quantity o) (o_client_order_id o)
               (opt_float (o_price o)) (opt_float (o_trigger_price o)) duration
               trail_by_ticks trail_by_price_id)
            (reject_all [o])
      end
  end.

(** *** Brackets *)

Definition is_bracket_order_list (orders : list Order) : bool :=
  if negb (Nat.eqb (length orders) 3) then false
  else
    let cids := o_client_order_id <$> orders in
    existsb (fun o =>
      match o_parent_order_id o with
      | Some p => bool_decide (p ∈ cids)
      | None => false
      end || existsb (fun l => bool_decide (l ∈ cids)) (o_linked_order_ids o)) orders.

(** Orders compare equal when their client order ids are. *)
Definition same_order_id (a b : Order) : bool :=
  bool_decide (o_client_order_id a = o_client_order_id b).

Definition is_stop_type (t : OrderType) : bool :=
  match t with STOP_MARKET | STOP_LIMIT => true | _ => false end.

(** With one order lacking a parent, [o is not entry] selects those that have
    one. *)
Definition bracket_legs (orders : list Order) : option (Order * Order * Order) :=
  match List.filter (fun o => bool_decide (o_parent_order_id o = None)) orders with
  | [entry] =>
      let exits := List.filter (fun o => negb (bool_decide (o_parent_order_id o = None))) orders in
      if existsb (fun o => negb (bool_decide
                    (o_parent_order_id o = Some (o_client_order_id entry)))) exits
      then None
      else
        let stops := List.filter (fun o => is_stop_type (o_order_type o)) exits in
        let targets := List.filter (fun o => negb (existsb (same_order_id o) stops)) exits in
        match stops, targets with
        | [stop], [target] => Some (entry, stop, target)
        | _, _ => None
        end
  | _ => None
  end.

(** [round(abs(a - b) / tick)], [None] unless positive. *)
Definition ticks_between (a b tick : f64) : res (option Z) :=
  d ← py_div (SFabs (f64_sub a b)) tick;
  n ← py_round d;
  Ok (if n <=? 0 then None else Some n).

Definition bracket_ticks (entry stop target : Order) (c : C) : option Z * option Z :=
  match
    (match cache_instrument c (o_instrument_id entry) with
     | None => Ok (None, None)
     | Some i =>
         let tick := i_price_increment i in
         if f64_le0 tick then Ok (None, None)
         else
           match o_price entry with
           | None => Ok (None, None)
           | Some ep =>
               let entry_price := price_float ep in
               st ← match o_trigger_price stop, o_price stop with
                    | Some sp, _ => ticks_between entry_price (price_float sp) tick
                    | None, Some sp => ticks_between entry_price (price_float sp) tick
                    | None, None => Ok None
                    end;
               tt ← match o_price target with
                    | Some tp => ticks_between (price_float tp) entry_price tick
                    | None => Ok None
                    end;
               Ok (st, tt)
           end
     end : res (option Z * option Z))
  with
  | Ok p => p
  | Raise _ => (None, None)
  end.

(** The entry's wire terms: the bracket has no trailing leg. *)
Definition bracket_terms (o : Order) (c : C)
  : res (string * string * string * string * string) :=
  '(symbol, exchange) ← route (o_instrument_id o) c;
  side ← nautilus_side_to_rithmic (side_name (o_side o));
  price_type ← nautilus_order_type_to_rithmic (o_order_type o);
  duration ← nautilus_tif_to_rithmic (o_time_in_force o);
  Ok (symbol, exchange, side, price_type, duration).

Definition submit_bracket (orders : list Order) : M (Host C) unit :=
  h ← get;
  if negb (cfg_brackets (h_cfg h)) then
    deny_all orders "Rithmic brackets not enabled (RITHMIC_BRACKETS=1 required)"
  else
    match bracket_legs orders with
    | None =>
        deny_all orders "bracket needs one entry and a stop and a target exit whose parent is the entry"
    | Some (entry, stop, target) =>
        match bracket_ticks entry stop target (h_cache h) with
        | (Some stop_ticks, Some target_ticks) =>
            match bracket_terms entry (h_cache h) with
            | Raise e => if is_value_error e then deny_all orders (ex_text e) else throw e
            | Ok (symbol, exchange, side, price_type, duration) =>
                match command_refusal KSubmit h with
                | Some refused => deny_all orders refused
                | None =>
                    announce_all orders ;;
                    send_command
                      (SPlaceBracket symbol exchange side price_type (o_quantity entry)
                         (o_client_order_id entry) (opt_float (o_price entry))
                         (opt_float (o_trigger_price entry)) duration stop_ticks target_ticks)
                      (reject_all orders)
                end
            end
        | _ =>
            deny_all orders "bracket not losslessly representable as stop_ticks/target_ticks (need entry limit price + stop/target absolute prices a whole number of ticks away)"
        end
    end.

Definition submit_order_list (orders : list Order) : M (Host C) unit :=
  enabled ← enable_trading;
  if negb enabled then deny_all orders TRADING_DISABLED_REASON
  else if is_bracket_order_list orders then submit_bracket orders
  else
    (* each [SubmitOrder] is stamped with a clock read *)
    forM_ orders (fun o => _ ← timestamp_ns env; submit_order o).

(** *** Modify and cancel *)

Definition modify_terms (c : ModifyCmd) (o : Order) (cache : C)
  : res (string * string * string * option Z) :=
  '(symbol, exchange) ← route (mo_instrument_id c) cache;
  price_type ← nautilus_order_type_to_rithmic (o_order_type o);
  trail ← trailing_ticks_from_order o;
  Ok (symbol, exchange, price_type, trail).

(** The command's value, else the order's. *)
Definition or_else {A} (a b : option A) : option A :=
  match a with Some x => Some x | None => b end.

Definition modify_order (c : ModifyCmd) : M (Host C) unit :=
  h ← get;
  let hint := mo_venue_order_id c in
  match command_refusal KModify h with
  | Some refused => modify_rejected c hint refused
  | None =>
      match cache_order (h_cache h) (mo_client_order_id c) with
      | None => modify_rejected c hint "order not in cache"
      | Some o =>
          match filled_text (venue_id_for_order o (h_cache h)) with
          | None => modify_rejected c hint "no venue basket_id for modify"
          | Some venue_id =>
              match modify_terms c o (h_cache h) with
              | Raise e =>
                  if is_value_error e then modify_rejected c (Some venue_id) (ex_text e)
                  else throw e
              | Ok (symbol, exchange, price_type, trail) =>
                  send_command
                    (SModifyOrder venue_id symbol exchange
                       (default (o_quantity o) (mo_quantity c)) price_type
                       (or_else (opt_float (mo_price c)) (opt_float (o_price o)))
                       (or_else (opt_float (mo_trigger_price c)) (opt_float (o_trigger_price o)))
                       trail)
                    (modify_rejected c (Some venue_id))
              end
          end
      end
  end.

Definition cancel_order (c : CancelCmd) : M (Host C) unit :=
  h ← get;
  let venue_id :=
    match filled_text (ca_venue_order_id c) with
    | Some v => Some v
    | None => or_else (cache_venue_order_id (h_cache h) (ca_client_order_id c))
                (ca_venue_order_id c)
    end in
  match command_refusal KCancel h with
  | Some refused => cancel_rejected c venue_id refused
  | None =>
      match filled_text venue_id with
      | None => cancel_rejected c None "no venue basket_id for cancel"
      | Some v => send_command (SCancelOrder v) (cancel_rejected c (Some v))
      end
  end.

(** [cache.orders_open(venue, instrument_id, strategy_id, side)]. *)
Definition of_venue (instrument : string) : bool :=
  match strip_suffix ("." +:+ VENUE) instrument with Some _ => true | None => false end.

Definition cancel_all_selects (c : CancelAllCmd) (o : Order) : bool :=
  of_venue (o_instrument_id o)
  && bool_decide (o_instrument_id o = cl_instrument_id c)
  && bool_decide (o_strategy_id o = cl_strategy_id c)
  && match cl_order_side c with Some s => bool_decide (o_side o = s) | None => true end.

Definition cancel_of (o : Order) : CancelCmd :=
  MkCancel (o_strategy_id o) (o_instrument_id o) (o_client_order_id o) (o_venue_order_id o).

Definition cancel_all_targets (c : CancelAllCmd) (cache : C) : list Order :=
  List.filter (cancel_all_selects c) (cache_orders_open cache (Some (cl_instrument_id c))).

Definition cancel_all_orders (c : CancelAllCmd) : M (Host C) unit :=
  h ← get;
  forM_ (cancel_all_targets c (h_cache h))
    (fun o => _ ← timestamp_ns env; cancel_order (cancel_of o)).

Definition batch_cancel_orders (cancels : list CancelCmd) : M (Host C) unit :=
  forM_ cancels cancel_order.

(** *** The command port *)

Inductive Command :=
  | CSubmit (o : Order)
  | CSubmitList (orders : list Order)
  | CModify (c : ModifyCmd)
  | CCancel (c : CancelCmd)
  | CCancelAll (c : CancelAllCmd)
  | CBatchCancel (cs : list CancelCmd).

Definition execute (c : Command) : M (Host C) unit :=
  match c with
  | CSubmit o => submit_order o
  | CSubmitList os => submit_order_list os
  | CModify c => modify_order c
  | CCancel c => cancel_order c
  | CCancelAll c => cancel_all_orders c
  | CBatchCancel cs => batch_cancel_orders cs
  end.

Definition command_kind (c : Command) : CommandKind :=
  match c with
  | CSubmit _ | CSubmitList _ => KSubmit
  | CModify _ => KModify
  | CCancel _ | CCancelAll _ | CBatchCancel _ => KCancel
  end.

(** The orders a command is about. *)
Definition command_targets (c : Command) (h : Host C) : list Who :=
  match c with
  | CSubmit o => [who_order o]
  | CSubmitList os => who_order <$> os
  | CModify c => [who_modify c]
  | CCancel c => [who_cancel c]
  | CCancelAll c => (fun o => who_cancel (cancel_of o)) <$> cancel_all_targets c (h_cache h)
  | CBatchCancel cs => who_cancel <$> cs
  end.

End Handlers.

Create HintDb soft.

(** ** Frames *)

Section Protocol.
Context {C : Type} `{CacheOps C} `{NautilusTypes}.
Variable env : Env C.

(** [h'] is [h] after events [evs], nothing sent, nothing else the commands
    depend on moved. *)
Record reports (evs : list Out) (h h' : Host C) : Prop := MkReports {
  rp_out : h_out h' = h_out h ++ evs;
  rp_calls : h_calls h' = h_calls h;
  rp_plant : h_plant h' = h_plant h;
  rp_cfg : h_cfg h' = h_cfg h;
  rp_cache : h_cache h' = h_cache h
}.

Lemma reports_nil h : reports [] h h.
Proof. split; [by rewrite app_nil_r|done..]. Qed.

Lemma reports_app e1 e2 h h1 h2 :
  reports e1 h h1 -> reports e2 h1 h2 -> reports (e1 ++ e2) h h2.
Proof.
  intros [Ho ? ? ? ?] [Ho' ? ? ? ?]. split; [|congruence..].
  by rewrite Ho', Ho, <- app_assoc.
Qed.

Lemma stamp_reports (mk : Z -> Out) h :
  exists ts h', (ts ← timestamp_ns env; emit (mk ts)) h = (Ok tt, h') /\ reports [mk ts] h h'.
Proof. eexists _, _. split; [reflexivity|]. by split. Qed.

(** One stamped event per element. *)
Lemma stamp_all_reports {A} (mk : A -> Z -> Out) (l : list A) h :
  exists evs h', forM_ l (fun a => ts ← timestamp_ns env; emit (mk a ts)) h = (Ok tt, h')
    /\ reports evs h h' /\ Forall2 (fun a e => exists ts, e = mk a ts) l evs.
Proof.
  revert h. induction l as [|a l IH]; intros h.
  - exists [], h. by split_and!; [|apply reports_nil|].
  - destruct (stamp_reports (mk a) h) as (ts & h1 & E1 & R1).
    destruct (IH h1) as (evs & h2 & E2 & R2 & F).
    exists (mk a ts :: evs), h2. split_and!.
    + simpl. unfold mbind at 1, M_bind at 1. by rewrite E1.
    + by apply (reports_app [_] _ _ h1).
    + constructor; eauto.
Qed.

(** The order an event refuses (denied, modify or cancel rejected). *)
Definition refusal_of (o : Out) : option Who :=
  match o with
  | ODenied w _ _ | OModifyRejected w _ _ _ | OCancelRejected w _ _ _ => Some w
  | _ => None
  end.

(** The order whose command the venue or the transport refused after the send. *)
Definition rejection_of (o : Out) : option Who :=
  match o with
  | ORejected w _ _ | OModifyRejected w _ _ _ | OCancelRejected w _ _ _ => Some w
  | _ => None
  end.

Definition submitted_of (o : Out) : option Who :=
  match o with OSubmitted w _ => Some w | _ => None end.

(** [m] reports one event of the given sort for each of [ws], in order. *)
Definition tells (sort : Out -> option Who) (ws : list Who) (h h' : Host C) : Prop :=
  exists evs, reports evs h h' /\ sort <$> evs = Some <$> ws.

Lemma tells_nil sort h : tells sort [] h h.
Proof. exists []. split; [apply reports_nil|done]. Qed.

Lemma tells_app sort ws1 ws2 h h1 h2 :
  tells sort ws1 h h1 -> tells sort ws2 h1 h2 -> tells sort (ws1 ++ ws2) h h2.
Proof.
  intros (e1 & R1 & E1) (e2 & R2 & E2). exists (e1 ++ e2).
  split; [by eapply reports_app|]. by rewrite !fmap_app, E1, E2.
Qed.

Lemma tells_all sort (mk : Order -> Z -> Out) orders h :
  (forall o ts, sort (mk o ts) = Some (who_order o)) ->
  exists h', forM_ orders (fun a => ts ← timestamp_ns env; emit (mk a ts)) h = (Ok tt, h')
    /\ tells sort (who_order <$> orders) h h'.
Proof.
  intros Hs. destruct (stamp_all_reports mk orders h) as (evs & h' & E & R & F).
  exists h'. split; [done|]. exists evs. split; [done|].
  clear -F Hs. induction F as [|a e l evs [ts ->] F IH]; [done|].
  rewrite !fmap_cons. by rewrite Hs, IH.
Qed.

Lemma deny_all_tells orders reason h :
  exists h', deny_all env orders reason h = (Ok tt, h')
    /\ tells refusal_of (who_order <$> orders) h h'.
Proof. by apply (tells_all _ (fun o ts => ODenied (who_order o) reason ts)). Qed.

Lemma reject_all_tells orders reason h :
  exists h', reject_all env orders reason h = (Ok tt, h')
    /\ tells rejection_of (who_order <$> orders) h h'.
Proof. by apply (tells_all _ (fun o ts => ORejected (who_order o) reason ts)). Qed.

Lemma announce_all_tells orders h :
  exists h', announce_all env orders h = (Ok tt, h')
    /\ tells submitted_of (who_order <$> orders) h h'.
Proof. by apply (tells_all _ (fun o ts => OSubmitted (who_order o) ts)). Qed.

Lemma modify_rejected_tells sort c v reason h :
  (forall x ts, sort (OModifyRejected (who_modify c) x reason ts) = Some (who_modify c)) ->
  exists h', modify_rejected env c v reason h = (Ok tt, h') /\ tells sort [who_modify c] h h'.
Proof.
  intros Hs. destruct (stamp_reports (OModifyRejected (who_modify c) (venue_or_unknown v) reason) h)
    as (ts & h' & E & R).
  exists h'. split; [done|]. eexists. split; [done|]. csimpl. by rewrite Hs.
Qed.

Lemma cancel_rejected_tells sort c v reason h :
  (forall x ts, sort (OCancelRejected (who_cancel c) x reason ts) = Some (who_cancel c)) ->
  exists h', cancel_rejected env c v reason h = (Ok tt, h') /\ tells sort [who_cancel c] h h'.
Proof.
  intros Hs. destruct (stamp_reports (OCancelRejected (who_cancel c) (venue_or_unknown v) reason) h)
    as (ts & h' & E & R).
  exists h'. split; [done|]. eexists. split; [done|]. csimpl. by rewrite Hs.
Qed.

(** *** Mapping errors are [ValueError]s *)

Definition fails_softly {A} (r : res A) : Prop :=
  forall e, r = Raise e -> is_value_error e = true.

Lemma soft_bind {A B} (r : res A) (f : A -> res B) :
  fails_softly r -> (forall a, fails_softly (f a)) -> fails_softly (r ≫= f).
Proof. intros Hr Hf e. destruct r; csimpl; [apply Hf|]. intros [= ->]. by apply Hr. Qed.

Lemma soft_ok {A} (a : A) : fails_softly (Ok a).
Proof. by intros e. Qed.

Lemma soft_route i (c : C) : fails_softly (route i c).
Proof.
  intros e. unfold route, rithmic_route_from_info. repeat case_match; by intros [= <-].
Qed.
Lemma soft_side s : fails_softly (nautilus_side_to_rithmic s).
Proof. intros e. unfold nautilus_side_to_rithmic. repeat case_match; by intros [= <-]. Qed.
Lemma soft_type t : fails_softly (nautilus_order_type_to_rithmic t).
Proof. intros e. unfold nautilus_order_type_to_rithmic. repeat case_match; by intros [= <-]. Qed.
Lemma soft_tif t : fails_softly (nautilus_tif_to_rithmic t).
Proof. intros e. unfold nautilus_tif_to_rithmic. repeat case_match; by intros [= <-]. Qed.
Lemma soft_trail o : fails_softly (trailing_ticks_from_order o).
Proof. intros e. unfold trailing_ticks_from_order. cbv zeta. repeat case_match; by intros [= <-]. Qed.

Hint Resolve soft_ok soft_route soft_side soft_type soft_tif soft_trail : soft.
Ltac soft := repeat (apply soft_bind; [auto with soft|intros ?]); repeat case_match; auto with soft.

Lemma soft_order_terms o (c : C) : fails_softly (order_terms o c).
Proof.
  unfold order_terms. apply soft_bind; [auto with soft|intros [s x]]. soft.
Qed.
Lemma soft_bracket_terms o (c : C) : fails_softly (bracket_terms o c).
Proof.
  unfold bracket_terms. apply soft_bind; [auto with soft|intros [s x]]. soft.
Qed.
Lemma soft_modify_terms m o (c : C) : fails_softly (modify_terms m o c).
Proof.
  unfold modify_terms. apply soft_bind; [auto with soft|intros [s x]]. soft.
Qed.

(** *** Refusal of each handler *)

Lemma get_bind {A} (f : Host C -> M (Host C) A) h : (get ≫= f) h = f h h.
Proof. done. Qed.

Lemma submit_refused o h reason :
  command_refusal KSubmit h = Some reason ->
  exists h', submit_order env o h = (Ok tt, h') /\ tells refusal_of [who_order o] h h'.
Proof.
  intros Hr. unfold submit_order. rewrite get_bind, Hr. apply (deny_all_tells [o]).
Qed.

Lemma modify_refused c h reason :
  command_refusal KModify h = Some reason ->
  exists h', modify_order env c h = (Ok tt, h') /\ tells refusal_of [who_modify c] h h'.
Proof.
  intros Hr. unfold modify_order. rewrite get_bind. cbv zeta. rewrite Hr.
  by apply modify_rejected_tells.
Qed.

Lemma cancel_refused c h reason :
  command_refusal KCancel h = Some reason ->
  exists h', cancel_order env c h = (Ok tt, h') /\ tells refusal_of [who_cancel c] h h'.
Proof.
  intros Hr. unfold cancel_order. rewrite get_bind. cbv zeta. rewrite Hr.
  by apply cancel_rejected_tells.
Qed.

Lemma bracket_refused orders h reason :
  command_refusal KSubmit h = Some reason ->
  exists h', submit_bracket env orders h = (Ok tt, h')
    /\ tells refusal_of (who_order <$> orders) h h'.
Proof.
  intros Hr. unfold submit_bracket. rewrite get_bind.
  destruct (cfg_brackets _); simpl; [|apply deny_all_tells].
  destruct (bracket_legs _) as [[[entry stop] target]|]; [|apply deny_all_tells].
  destruct (bracket_ticks _ _ _ _) as [[]  []]; try apply deny_all_tells.
  destruct (bracket_terms _ _) as [[[[[]]]]|e] eqn:E; [rewrite Hr; apply deny_all_tells|].
  rewrite (soft_bracket_terms _ _ _ E). apply deny_all_tells.
Qed.

(** A refusal carries over to the next command of a list. *)
Lemma refusal_stable k h h' sort ws :
  tells sort ws h h' -> command_refusal k h' = command_refusal k h.
Proof. intros (evs & [? ? Hp Hc ?] & _). unfold command_refusal. by rewrite Hc, Hp. Qed.

Lemma refuse_each {A} k (f : A -> M (Host C) unit) (who : A -> Who) reason l h :
  (forall a h, command_refusal k h = Some reason ->
     exists h', f a h = (Ok tt, h') /\ tells refusal_of [who a] h h') ->
  command_refusal k h = Some reason ->
  exists h', forM_ l f h = (Ok tt, h') /\ tells refusal_of (who <$> l) h h'.
Proof.
  intros Hf. revert h. induction l as [|a l IH]; intros h Hr.
  - exists h. split; [done|]. apply tells_nil.
  - destruct (Hf a h Hr) as (h1 & E1 & T1).
    destruct (IH h1) as (h2 & E2 & T2).
    { by rewrite (refusal_stable _ _ _ _ _ T1). }
    exists h2. split; [|by apply (tells_app _ [_] _ _ h1)].
    simpl. unfold mbind at 1, M_bind at 1. by rewrite E1.
Qed.

(** A leading clock read changes nothing observable. *)
Lemma after_read (f : M (Host C) unit) sort ws h :
  (exists h', f (next_read h) = (Ok tt, h') /\ tells sort ws (next_read h) h') ->
  exists h', (_ ← timestamp_ns env; f) h = (Ok tt, h') /\ tells sort ws h h'.
Proof.
  intros (h' & E & evs & [? ? ? ? ?] & Hs). exists h'. split; [done|].
  exists evs. split; [by split|done].
Qed.

End Protocol.

Section Claims.
Context {C : Type} `{CacheOps C} `{NautilusTypes}.
Variable env : Env C.

(** (C3) A refused command sends nothing: whenever trading is disabled here or
    at the parent gateway, or the order plant is not in a state that allows the
    command, every handler (submit, order list, bracket, modify, cancel,
    cancel-all, batch cancel) returns without a session call, leaves the plant
    as it was, and reports exactly one denial or rejection for each order the
    command is about, in order. *)
Theorem refused_command_sends_nothing (c : Command) (h : Host C) reason :
  command_refusal (command_kind c) h = Some reason ->
  exists h', execute env c h = (Ok tt, h')
    /\ tells refusal_of (command_targets c h) h h'.
Proof.
  intros Hr. destruct c as [o|os|m|c|c|cs]; simpl in *.
  - by eapply submit_refused.
  - unfold submit_order_list, enable_trading. unfold mbind at 1, M_bind at 1. simpl.
    destruct (cfg_enable_trading _); simpl; [|apply deny_all_tells].
    destruct (is_bracket_order_list os); [by eapply bracket_refused|].
    apply (refuse_each KSubmit _ who_order reason); [|done].
    intros a h0 Hr0. apply after_read. by eapply submit_refused.
  - by eapply modify_refused.
  - by eapply cancel_refused.
  - unfold cancel_all_orders. rewrite get_bind.
    apply (refuse_each KCancel _ (fun o => who_cancel (cancel_of o)) reason); [|done].
    intros a h0 Hr0. apply after_read. by eapply cancel_refused.
  - apply (refuse_each KCancel _ who_cancel reason); [|done].
    intros a h0 Hr0. by eapply cancel_refused.
Qed.

(** *** The protocol of a sent command *)

(** One session call carries the command. *)
Definition atomic (c : Command) : bool :=
  match c with
  | CSubmit _ | CModify _ | CCancel _ => true
  | CSubmitList os => is_bracket_order_list os
  | CCancelAll _ | CBatchCancel _ => false
  end.

(** The legs of a bracket: the three orders of the list, the exits naming the
    entry as parent. *)
Definition bracket_of (orders : list Order) (entry stop target : Order) : Prop :=
  Permutation orders [entry; stop; target]
  /\ o_parent_order_id entry = None
  /\ o_parent_order_id stop = Some (o_client_order_id entry)
  /\ o_parent_order_id target = Some (o_client_order_id entry)
  /\ is_stop_type (o_order_type stop) = true
  /\ is_stop_type (o_order_type target) = false
  /\ o_client_order_id target <> o_client_order_id stop.

(** *** What a session call must say, read off the command and the cache *)

(** The venue's own names of a cached instrument. *)
Definition contract_of (h : Host C) (instrument symbol exchange : string) : Prop :=
  exists i, cache_instrument (h_cache h) instrument = Some i
  /\ truthy (dget (i_info i) "rithmic_symbol") = true
  /\ truthy (dget (i_info i) "rithmic_exchange") = true
  /\ symbol = py_str (dget (i_info i) "rithmic_symbol")
  /\ exchange = py_str (dget (i_info i) "rithmic_exchange").

Definition wire_side (s : OrderSide) : string :=
  match s with BUY => "BUY" | SELL => "SELL" end.

(** A trailing stop goes out as the stop it trails. *)
Definition wire_type (t : OrderType) : option string :=
  match t with
  | MARKET => Some "MARKET"
  | LIMIT => Some "LIMIT"
  | STOP_MARKET | TRAILING_STOP_MARKET => Some "STOP_MARKET"
  | STOP_LIMIT | TRAILING_STOP_LIMIT => Some "STOP_LIMIT"
  | MARKET_IF_TOUCHED => Some "MARKET_IF_TOUCHED"
  | LIMIT_IF_TOUCHED => Some "LIMIT_IF_TOUCHED"
  | MARKET_TO_LIMIT => None
  end.

Definition wire_tif (t : TimeInForce) : option string :=
  match t with
  | DAY => Some "DAY" | GTC => Some "GTC" | IOC => Some "IOC" | FOK => Some "FOK"
  | GTD | AT_THE_OPEN | AT_THE_CLOSE => None
  end.

(** The trail of an order: none, or its offset as a whole positive number of
    ticks. *)
Definition trails_by (o : Order) (trail : option Z) : Prop :=
  match o_order_type o with
  | TRAILING_STOP_MARKET | TRAILING_STOP_LIMIT =>
      o_trailing_offset_type o = TICKS
      /\ exists d n, o_trailing_offset o = Some d /\ trail = Some n
         /\ n = dec_int d /\ 1 <= n /\ dec_float d = dec_float (Dec n 0)
  | _ => trail = None
  end.

(** [n] is the distance of two prices in ticks, rounded, and positive. *)
Definition ticks_apart (a b : Price) (tick : f64) (n : Z) : Prop :=
  f64_is_zero tick = false
  /\ py_round (f64_div (SFabs (f64_sub (price_float a) (price_float b))) tick) = Ok n
  /\ 0 < n.

(** The price a stop leg triggers at. *)
Definition stop_level (o : Order) (p : Price) : Prop :=
  o_trigger_price o = Some p \/ o_trigger_price o = None /\ o_price o = Some p.

(** The exits of a bracket, in the increments of the entry's instrument. *)
Definition exits_at (h : Host C) (entry stop target : Order) (stop_ticks target_ticks : Z)
  : Prop :=
  exists i ep sp tp, cache_instrument (h_cache h) (o_instrument_id entry) = Some i
  /\ f64_le0 (i_price_increment i) = false
  /\ o_price entry = Some ep /\ stop_level stop sp /\ o_price target = Some tp
  /\ ticks_apart ep sp (i_price_increment i) stop_ticks
  /\ ticks_apart tp ep (i_price_increment i) target_ticks.

(** The basket of an order: the one the cache has for its client id, else the
    order's own. *)
Definition basket_of (h : Host C) (o : Order) (v : string) : Prop :=
  v <> "" /\
  match cache_venue_order_id (h_cache h) (o_client_order_id o) with
  | Some b => v = b
  | None => o_venue_order_id o = Some v
  end.

(** The basket a cancel means: the one it names, else the cache's. *)
Definition cancel_basket (h : Host C) (c : CancelCmd) (v : string) : Prop :=
  v <> "" /\
  (ca_venue_order_id c = Some v
   \/ (ca_venue_order_id c = None \/ ca_venue_order_id c = Some "")
      /\ cache_venue_order_id (h_cache h) (ca_client_order_id c) = Some v).

(** A new value replaces the held one. *)
Definition replaces {A} (new held out : option A) : Prop :=
  match new with Some _ => out = new | None => out = held end.

(** The session call says what the command says, term for term. *)
Definition carries (h : Host C) (c : Command) (s : SessionCall) : Prop :=
  match c, s with
  | CSubmit o, SPlaceOrder sy ex side ty qty tag price trigger dur trail trail_by =>
      contract_of h (o_instrument_id o) sy ex
      /\ side = wire_side (o_side o) /\ wire_type (o_order_type o) = Some ty
      /\ wire_tif (o_time_in_force o) = Some dur
      /\ qty = o_quantity o /\ tag = o_client_order_id o
      /\ price = opt_float (o_price o) /\ trigger = opt_float (o_trigger_price o)
      /\ trails_by o trail /\ trail_by = (fun _ => 1) <$> trail
  | CSubmitList os, SPlaceBracket sy ex side ty qty tag price trigger dur stop_ticks target_ticks =>
      exists entry stop target, bracket_of os entry stop target
      /\ contract_of h (o_instrument_id entry) sy ex
      /\ side = wire_side (o_side entry) /\ wire_type (o_order_type entry) = Some ty
      /\ wire_tif (o_time_in_force entry) = Some dur
      /\ qty = o_quantity entry /\ tag = o_client_order_id entry
      /\ price = opt_float (o_price entry) /\ trigger = opt_float (o_trigger_price entry)
      /\ exits_at h entry stop target stop_ticks target_ticks
  | CModify m, SModifyOrder v sy ex qty ty price trigger trail =>
      exists o, cache_order (h_cache h) (mo_client_order_id m) = Some o
      /\ basket_of h o v
      /\ contract_of h (mo_instrument_id m) sy ex
      /\ wire_type (o_order_type o) = Some ty
      /\ replaces (mo_quantity m) (Some (o_quantity o)) (Some qty)
      /\ replaces (opt_float (mo_price m)) (opt_float (o_price o)) price
      /\ replaces (opt_float (mo_trigger_price m)) (opt_float (o_trigger_price o)) trigger
      /\ trails_by o trail
  | CCancel c, SCancelOrder v => cancel_basket h c v
  | _, _ => False
  end.

(** Why a command may be refused: the gates are closed, brackets are off, or no
    session call could carry it. *)
Definition refusable (h : Host C) (c : Command) : Prop :=
  is_Some (command_refusal (command_kind c) h)
  \/ (match c with CSubmitList _ => cfg_brackets (h_cfg h) = false | _ => False end)
  \/ forall s, ~ carries h c s.

(** Only the submit commands announce the order before the send. *)
Definition announced (c : Command) (h : Host C) : list Who :=
  match command_kind c with KSubmit => command_targets c h | _ => [] end.

(** What a handler does once it has decided to send [s]: announce, call, and
    treat the reply by its failure class. *)
Definition sent (c : Command) (s : SessionCall) (h h' : Host C) : Prop :=
  exists pre,
    tells submitted_of (announced c h) h pre
    /\ let h1 := e_interleave env (h_calls pre) (next_call (push_out (OSession s) pre)) in
       match e_session env (h_calls pre) s with
       | Ok _ => h' = h1
       | Raise e =>
           match failure_class e with
           | FUnknown => h' = on_plant latch h1
           | _ => tells rejection_of (command_targets c h) h1 h'
           end
       end.

(** The outcome of an atomic command. *)
Definition refused_or_sent (c : Command) (h h' : Host C) : Prop :=
  refusable h c /\ tells refusal_of (command_targets c h) h h'
  \/ command_refusal (command_kind c) h = None /\ exists s, carries h c s /\ sent c s h h'.

Lemma send_sent c s reject h pre :
  carries h c s ->
  command_refusal (command_kind c) h = None ->
  tells submitted_of (announced c h) h pre ->
  (forall reason h1, exists h2, reject reason h1 = (Ok tt, h2)
     /\ tells rejection_of (command_targets c h) h1 h2) ->
  exists h', send_command env s reject pre = (Ok tt, h') /\ refused_or_sent c h h'.
Proof.
  intros Hc Hr Ha Hrej. unfold send_command, catchM, mbind, M_bind, call, any_exn, sent.
  destruct (e_session env (h_calls pre) s) as [r|e] eqn:E.
  - eexists. split; [done|]. right. split; [done|]. exists s. split; [done|].
    exists pre. split; [done|]. cbv zeta. by rewrite E.
  - unfold order_command_failed. destruct (failure_class e) eqn:F.
    1, 2: destruct (Hrej (failure_reason (failure_class e) e)
            (e_interleave env (h_calls pre) (next_call (push_out (OSession s) pre))))
            as (h2 & E2 & T2); rewrite F in E2;
          exists h2; split; [done|]; right; split; [done|]; exists s; split; [done|];
          exists pre; split; [done|]; cbv zeta; by rewrite E, F.
    eexists. split; [done|]. right. split; [done|]. exists s. split; [done|].
    exists pre. split; [done|]. cbv zeta. by rewrite E, F.
Qed.

(** *** The code's terms are those of the command *)

Lemma bind_ok {A B} (m : res A) (f : A -> res B) b :
  (m ≫= f) = Ok b <-> exists a, m = Ok a /\ f a = Ok b.
Proof.
  destruct m as [a|e]; csimpl; split; [eauto|by intros (? & [= <-] & ?)|done|by intros (? & ? & ?)].
Qed.

Lemma route_spec h i sy ex : route i (h_cache h) = Ok (sy, ex) <-> contract_of h i sy ex.
Proof.
  unfold route, rithmic_route_from_info, contract_of.
  destruct (cache_instrument _ _) as [x|]; [|split; [done|by intros (? & ? & _)]]. cbv zeta.
  destruct (truthy (dget (i_info x) "rithmic_symbol")) eqn:E1,
    (truthy (dget (i_info x) "rithmic_exchange")) eqn:E2; simpl;
    (split; [intros [= <- <-]; by exists x|intros (? & [= <-] & ? & ? & -> & ->); congruence]).
Qed.

Lemma side_spec s : nautilus_side_to_rithmic (side_name s) = Ok (wire_side s).
Proof. by destruct s. Qed.

Lemma type_spec t w : nautilus_order_type_to_rithmic t = Ok w <-> wire_type t = Some w.
Proof. destruct t; vm_compute; naive_solver. Qed.

Lemma tif_spec t w : nautilus_tif_to_rithmic t = Ok w <-> wire_tif t = Some w.
Proof. destruct t; vm_compute; naive_solver. Qed.

Lemma trailing_type t :
  is_trailing_order_type t = match t with TRAILING_STOP_MARKET | TRAILING_STOP_LIMIT => true | _ => false end.
Proof. by destruct t. Qed.

Lemma ticks_type t :
  bool_decide (enum_name (trailing_offset_name t) "TRAILINGOFFSETTYPE." = "TICKS")
  = bool_decide (t = TICKS).
Proof. by destruct t. Qed.

Lemma trail_spec o tr : trailing_ticks_from_order o = Ok tr <-> trails_by o tr.
Proof.
  unfold trailing_ticks_from_order, trails_by. rewrite trailing_type. cbv zeta. rewrite ticks_type.
  destruct (o_order_type o); simpl; try naive_solver.
  all: case_bool_decide; simpl; [|naive_solver].
  all: destruct (o_trailing_offset o) as [d|]; [|naive_solver].
  all: destruct (dec_int d <? 1) eqn:E; [split; [done|intros (? & ? & ? & [= <-] & ? & ? & ? & ?); lia]|].
  all: case_bool_decide as Hf; simpl; [|naive_solver].
  all: split; [intros [= <-]|naive_solver].
  all: split; [done|]; exists d, (dec_int d); split_and!; try done; lia.
Qed.

Lemma order_terms_spec h o sy ex side ty du tr :
  order_terms o (h_cache h) = Ok (sy, ex, side, ty, du, tr)
  <-> contract_of h (o_instrument_id o) sy ex /\ side = wire_side (o_side o)
      /\ wire_type (o_order_type o) = Some ty /\ wire_tif (o_time_in_force o) = Some du
      /\ trails_by o tr.
Proof.
  unfold order_terms. rewrite bind_ok, <- route_spec, <- type_spec, <- tif_spec, <- trail_spec.
  split.
  - intros ([s x] & Hr & E). rewrite side_spec in E. csimpl in E.
    apply bind_ok in E as (? & ? & (? & ? & (? & ? & E)%bind_ok)%bind_ok). by simplify_eq.
  - intros (Hr & -> & Ht & Hd & Hl). exists (sy, ex). split; [done|].
    rewrite side_spec. csimpl. rewrite Ht. csimpl. rewrite Hd. csimpl. by rewrite Hl.
Qed.

Lemma bracket_terms_spec h o sy ex side ty du :
  bracket_terms o (h_cache h) = Ok (sy, ex, side, ty, du)
  <-> contract_of h (o_instrument_id o) sy ex /\ side = wire_side (o_side o)
      /\ wire_type (o_order_type o) = Some ty /\ wire_tif (o_time_in_force o) = Some du.
Proof.
  unfold bracket_terms. rewrite bind_ok, <- route_spec, <- type_spec, <- tif_spec.
  split.
  - intros ([s x] & Hr & E). rewrite side_spec in E. csimpl in E.
    apply bind_ok in E as (? & ? & (? & ? & E)%bind_ok). by simplify_eq.
  - intros (Hr & -> & Ht & Hd). exists (sy, ex). split; [done|].
    rewrite side_spec. csimpl. rewrite Ht. csimpl. by rewrite Hd.
Qed.

Lemma modify_terms_spec h m o sy ex ty tr :
  modify_terms m o (h_cache h) = Ok (sy, ex, ty, tr)
  <-> contract_of h (mo_instrument_id m) sy ex /\ wire_type (o_order_type o) = Some ty
      /\ trails_by o tr.
Proof.
  unfold modify_terms. rewrite bind_ok, <- route_spec, <- type_spec, <- trail_spec.
  split.
  - intros ([s x] & Hr & (? & ? & (? & ? & E)%bind_ok)%bind_ok). by simplify_eq.
  - intros (Hr & Ht & Hl). exists (sy, ex). split; [done|]. rewrite Ht. csimpl. by rewrite Hl.
Qed.

Lemma filled_text_spec o v : filled_text o = Some v <-> o = Some v /\ v <> "".
Proof. destruct o as [[]|]; simpl; naive_solver. Qed.

Lemma basket_spec h o v : filled_text (venue_id_for_order o (h_cache h)) = Some v <-> basket_of h o v.
Proof.
  rewrite filled_text_spec. unfold venue_id_for_order, basket_of.
  destruct (cache_venue_order_id _ _); naive_solver.
Qed.

Lemma cancel_basket_spec h c v :
  filled_text (match filled_text (ca_venue_order_id c) with
               | Some v => Some v
               | None => or_else (cache_venue_order_id (h_cache h) (ca_client_order_id c))
                           (ca_venue_order_id c)
               end) = Some v <-> cancel_basket h c v.
Proof.
  rewrite filled_text_spec. unfold cancel_basket.
  destruct (ca_venue_order_id c) as [[|a b]|]; simpl; [|naive_solver|].
  all: destruct (cache_venue_order_id _ _) as [[]|]; simpl; naive_solver.
Qed.

(** *** The single commands *)

(** A refusal with its cause. *)
Lemma refuse c h h' m :
  refusable h c -> m h = (Ok tt, h') -> tells refusal_of (command_targets c h) h h' ->
  exists h', m h = (Ok tt, h') /\ refused_or_sent c h h'.
Proof. intros ? E ?. exists h'. split; [done|]. by left. Qed.

Lemma submit_protocol o h :
  exists h', submit_order env o h = (Ok tt, h') /\ refused_or_sent (CSubmit o) h h'.
Proof.
  destruct (command_refusal KSubmit h) as [r|] eqn:Hr.
  { destruct (submit_refused env o h r Hr) as (h' & ? & ?).
    eapply refuse; [|done..]. left. simpl. by rewrite Hr. }
  unfold submit_order. rewrite get_bind, Hr.
  destruct (order_terms o (h_cache h)) as [[[[[[sy ex] side] pt] du] tr]|e] eqn:E.
  - destruct (announce_all_tells env [o] h) as (pre & Ea & Ta).
    unfold mbind at 1, M_bind at 1. rewrite Ea.
    apply send_sent; [|done|done|apply (reject_all_tells env [o])].
    apply order_terms_spec in E as (? & ? & ? & ? & ?). cbn. split_and!; try done.
  - rewrite (soft_order_terms _ _ _ E).
    destruct (deny_all_tells env [o] (ex_text e) h) as (h' & ? & ?).
    eapply refuse; [|done..]. right. right. intros [] Hc; try done. simpl in Hc.
    destruct Hc as (? & ? & ? & ? & _ & _ & _ & _ & ? & _).
    assert (order_terms o (h_cache h) = Ok _) by (by apply order_terms_spec). congruence.
Qed.

Lemma replaces_or_else {A} (a b : option A) : replaces a b (or_else a b).
Proof. by destruct a. Qed.

Lemma modify_protocol c h :
  exists h', modify_order env c h = (Ok tt, h') /\ refused_or_sent (CModify c) h h'.
Proof.
  destruct (command_refusal KModify h) as [r|] eqn:Hr.
  { destruct (modify_refused env c h r Hr) as (h' & ? & ?).
    eapply refuse; [|done..]. left. simpl. by rewrite Hr. }
  assert (forall v reason, (forall s, ~ carries h (CModify c) s) ->
            exists h', modify_rejected env c v reason h = (Ok tt, h')
            /\ refused_or_sent (CModify c) h h') as Hrej.
  { intros v reason Hno.
    destruct (modify_rejected_tells env refusal_of c v reason h) as (h' & ? & ?); [done|].
    eapply refuse; [|done..]. by right; right. }
  unfold modify_order. rewrite get_bind. cbv zeta. rewrite Hr.
  destruct (cache_order _ _) as [o|] eqn:Ho.
  2: { apply Hrej. intros [] Hc; try done. destruct Hc as (? & ? & _). congruence. }
  destruct (filled_text _) as [v|] eqn:Hv.
  2: { apply Hrej. intros [] Hc; try done. destruct Hc as (? & ? & Hb%basket_spec & _). congruence. }
  destruct (modify_terms c o (h_cache h)) as [[[[sy ex] pt] tr]|e] eqn:E.
  - apply send_sent; [|done|apply tells_nil|].
    + apply modify_terms_spec in E as (? & ? & ?). apply basket_spec in Hv.
      exists o. split_and!; try done; [by destruct (mo_quantity c)|apply replaces_or_else..].
    + intros reason h1. by apply modify_rejected_tells.
  - rewrite (soft_modify_terms _ _ _ _ E). apply Hrej. intros [] Hc; try done.
    destruct Hc as (o' & ? & _ & ? & ? & _ & _ & _ & ?). simplify_eq.
    assert (modify_terms c o (h_cache h) = Ok _) by (by apply modify_terms_spec; simplify_eq).
    congruence.
Qed.

Lemma cancel_protocol c h :
  exists h', cancel_order env c h = (Ok tt, h') /\ refused_or_sent (CCancel c) h h'.
Proof.
  destruct (command_refusal KCancel h) as [r|] eqn:Hr.
  { destruct (cancel_refused env c h r Hr) as (h' & ? & ?).
    eapply refuse; [|done..]. left. simpl. by rewrite Hr. }
  unfold cancel_order. rewrite get_bind. cbv zeta. rewrite Hr.
  destruct (filled_text (match _ with Some _ => _ | None => _ end)) as [v|] eqn:Hv.
  - apply send_sent; [|done|apply tells_nil|].
    + by apply cancel_basket_spec.
    + intros reason h1. by apply cancel_rejected_tells.
  - destruct (cancel_rejected_tells env refusal_of c None "no venue basket_id for cancel" h)
      as (h' & ? & ?); [done|].
    eapply refuse; [|done..]. right. right. intros [] Hc; try done.
    apply cancel_basket_spec in Hc. congruence.
Qed.

(** *** The bracket *)

Lemma filter_partition {A} (f : A -> bool) l :
  Permutation l (List.filter f l ++ List.filter (fun a => negb (f a)) l).
Proof.
  induction l as [|a l IH]; [done|]. simpl. destruct (f a); simpl.
  - by constructor.
  - by apply Permutation_cons_app.
Qed.

Lemma same_order_id_refl o : same_order_id o o = true.
Proof. by apply bool_decide_eq_true. Qed.

Lemma bracket_legs_shape orders entry stop target :
  length orders = 3%nat -> bracket_legs orders = Some (entry, stop, target) ->
  bracket_of orders entry stop target.
Proof.
  intros Hlen. unfold bracket_legs.
  pose proof (filter_partition (fun o => bool_decide (o_parent_order_id o = None)) orders) as Hp.
  destruct (List.filter (fun o => bool_decide (o_parent_order_id o = None)) orders)
    as [|en [|]] eqn:He; [done| |done].
  set (exits := List.filter (fun o => negb (bool_decide (o_parent_order_id o = None))) orders) in *.
  destruct (existsb _ exits) eqn:Hx; [done|].
  assert (length exits = 2%nat) as Hl2 by (apply Permutation_length in Hp; simpl in Hp; lia).
  assert (forall o, In o exits -> o_parent_order_id o = Some (o_client_order_id en)) as Hpar.
  { intros o Ho. destruct (decide (o_parent_order_id o = Some (o_client_order_id en))) as [|Hn];
      [done|].
    assert (existsb (fun o => negb (bool_decide
              (o_parent_order_id o = Some (o_client_order_id en)))) exits = true)
      as Ht by (apply List.existsb_exists; exists o; by rewrite bool_decide_false by done).
    congruence. }
  assert (o_parent_order_id en = None) as Hen.
  { assert (In en [en]) as Hin by (by left). rewrite <- He in Hin.
    apply List.filter_In in Hin as [_ Hb]. by apply bool_decide_eq_true in Hb. }
  destruct exits as [|x [|y [|]]]; try done.
  pose proof (Hpar x (or_introl eq_refl)). pose proof (Hpar y (or_intror (or_introl eq_refl))).
  simpl. unfold bracket_of.
  destruct (is_stop_type (o_order_type x)) eqn:Sx, (is_stop_type (o_order_type y)) eqn:Sy;
    simpl; rewrite ?orb_false_r, ?same_order_id_refl; repeat case_match; intros ?;
    simplify_eq; try done.
  all: assert (o_client_order_id target <> o_client_order_id stop)
    by (by apply (bool_decide_eq_false _), negb_true_iff).
  all: split_and!; try done. etrans; [exact Hp|]. simpl. do 2 constructor.
Qed.

(** [bracket_legs] finds the legs whenever there are any. *)
Lemma bracket_legs_complete orders entry stop target :
  bracket_of orders entry stop target -> bracket_legs orders = Some (entry, stop, target).
Proof.
  intros (Hp & He & Hs & Ht & Ss & St & Hd). unfold bracket_legs.
  assert (List.filter (fun o => bool_decide (o_parent_order_id o = None)) orders = [entry]) as ->.
  { apply Permutation_singleton_r. rewrite (filter_perm _ _ _ Hp). simpl. by rewrite He, Hs, Ht. }
  cbv zeta.
  assert (Permutation (List.filter (fun o => negb (bool_decide (o_parent_order_id o = None))) orders)
            [stop; target]) as Hx.
  { rewrite (filter_perm _ _ _ Hp). simpl. by rewrite He, Hs, Ht. }
  set (exits := List.filter _ orders) in *.
  assert (existsb (fun o => negb (bool_decide
            (o_parent_order_id o = Some (o_client_order_id entry)))) exits = false) as ->.
  { apply not_true_iff_false. intros (o & Ho & Hb)%List.existsb_exists.
    apply negb_true_iff, bool_decide_eq_false in Hb. apply Hb.
    apply (Permutation_in _ Hx) in Ho as [<-|[<-|[]]]; done. }
  assert (List.filter (fun o => is_stop_type (o_order_type o)) exits = [stop]) as ->.
  { apply Permutation_singleton_r. rewrite (filter_perm _ _ _ Hx). simpl. by rewrite Ss, St. }
  assert (List.filter (fun o => negb (existsb (same_order_id o) [stop])) exits = [target]) as ->; [|done].
  apply Permutation_singleton_r. rewrite (filter_perm _ _ _ Hx). simpl.
  rewrite same_order_id_refl. simpl. unfold same_order_id at 1. by rewrite bool_decide_false by done.
Qed.

Lemma ticks_between_spec a b tick n :
  ticks_between (price_float a) (price_float b) tick = Ok (Some n) <-> ticks_apart a b tick n.
Proof.
  unfold ticks_between, ticks_apart, py_div. destruct (f64_is_zero tick); [split; [done|by intros []]|].
  csimpl. destruct (py_round _) as [m|]; csimpl; [|split; [done|by intros (_ & ? & _)]].
  destruct (m <=? 0) eqn:E; (split; [try done|]).
  - intros (_ & [= <-] & ?). lia.
  - intros [= <-]. split_and!; try done. lia.
  - by intros (_ & [= <-] & ?).
Qed.

Lemma bracket_ticks_spec h entry stop target s t :
  bracket_ticks entry stop target (h_cache h) = (Some s, Some t)
  <-> exits_at h entry stop target s t.
Proof.
  unfold bracket_ticks, exits_at.
  destruct (cache_instrument _ _) as [i|]; [|split; [done|by intros (? & ? & ? & ? & ? & _)]].
  cbv zeta. destruct (f64_le0 _) eqn:Hz.
  { split; [done|]. by intros (? & ? & ? & ? & [= <-] & ? & _); rewrite Hz in *. }
  destruct (o_price entry) as [ep|]; [|split; [done|by intros (? & ? & ? & ? & ? & ? & ? & _)]].
  split.
  - intros Hk. destruct (match o_trigger_price stop with Some _ => _ | None => _ end)
      as [s'|] eqn:E1; [csimpl in Hk|done].
    destruct (match o_price target with Some _ => _ | None => _ end)
      as [t'|] eqn:E2; [csimpl in Hk|done].
    simplify_eq. destruct (o_price target) as [tp|]; [|done]. apply ticks_between_spec in E2.
    unfold stop_level. destruct (o_trigger_price stop) as [sp|]; [|destruct (o_price stop) as [sp|]; [|done]].
    all: apply ticks_between_spec in E1; exists i, ep, sp, tp; split_and!; try done; auto.
  - intros (? & ? & sp & tp & [= <-] & _ & [= <-] & Hsp & Htp & E1%ticks_between_spec
      & E2%ticks_between_spec).
    assert ((match o_trigger_price stop, o_price stop with
             | Some sp, _ => ticks_between (price_float ep) (price_float sp) (i_price_increment i)
             | None, Some sp => ticks_between (price_float ep) (price_float sp) (i_price_increment i)
             | None, None => Ok None end) = Ok (Some s)) as ->.
    { by destruct Hsp as [-> | [-> ->]]. }
    csimpl. by rewrite Htp, E2.
Qed.

(** A carried bracket is one the code accepts. *)
Lemma bracket_carries h orders sc :
  carries h (CSubmitList orders) sc ->
  exists entry stop target n m p, bracket_legs orders = Some (entry, stop, target)
  /\ bracket_ticks entry stop target (h_cache h) = (Some n, Some m)
  /\ bracket_terms entry (h_cache h) = Ok p.
Proof.
  destruct sc; try done.
  intros (en & st & tg & Hb & Hc & Hs & Ht & Hd & _ & _ & _ & _ & Hx).
  exists en, st, tg. do 3 eexists. split_and!.
  - by apply bracket_legs_complete.
  - by apply bracket_ticks_spec.
  - by apply bracket_terms_spec.
Qed.

Lemma bracket_protocol orders h :
  is_bracket_order_list orders = true ->
  cfg_enable_trading (h_cfg h) = true ->
  exists h', submit_bracket env orders h = (Ok tt, h') /\ refused_or_sent (CSubmitList orders) h h'.
Proof.
  intros Hb Hen.
  assert (length orders = 3%nat) as Hlen.
  { unfold is_bracket_order_list in Hb. destruct (Nat.eqb _ _) eqn:E; [|done].
    by apply Nat.eqb_eq. }
  assert (forall reason, refusable h (CSubmitList orders) ->
            exists h', deny_all env orders reason h = (Ok tt, h')
            /\ refused_or_sent (CSubmitList orders) h h') as Hd.
  { intros reason Hwhy. destruct (deny_all_tells env orders reason h) as (h' & ? & ?).
    by eapply refuse. }
  unfold submit_bracket. rewrite get_bind.
  destruct (cfg_brackets _) eqn:Hon; simpl; [|apply Hd; by right; left].
  destruct (bracket_legs _) as [[[entry stop] target]|] eqn:Hl.
  2: { apply Hd. right; right. intros s (? & ? & ? & ? & ? & ? & ? & _)%bracket_carries.
       congruence. }
  destruct (bracket_ticks entry stop target _) as [s t] eqn:Ht.
  assert (forall sc, carries h (CSubmitList orders) sc ->
            exists n m p, (s, t) = (Some n, Some m) /\ bracket_terms entry (h_cache h) = Ok p) as Hcov.
  { intros sc (en & st & tg & n & m & p & Hl' & Ht' & ?)%bracket_carries. simplify_eq.
    exists n, m, p. split; [congruence|done]. }
  destruct s as [s|], t as [t|].
  2-4: apply Hd; right; right; intros sc (? & ? & ? & ? & _)%Hcov; congruence.
  destruct (bracket_terms _ _) as [[[[[sy ex] side] pt] du]|e] eqn:E.
  2: { rewrite (soft_bracket_terms _ _ _ E). apply Hd. right; right.
       intros sc (? & ? & ? & _ & ?)%Hcov; congruence. }
  destruct (command_refusal KSubmit h) as [r|] eqn:Hr; [apply Hd; left; simpl; by rewrite Hr|].
  destruct (announce_all_tells env orders h) as (pre & Ea & Ta).
  unfold mbind at 1, M_bind at 1. rewrite Ea.
  apply send_sent; [|done|done|apply reject_all_tells].
  apply bracket_terms_spec in E as (? & ? & ? & ?). apply bracket_ticks_spec in Ht.
  exists entry, stop, target. split_and!; try done. by apply bracket_legs_shape.
Qed.

(** (C2) The protocol of an atomic command (a submit, a bracket list, a
    modify, a cancel), in full and for every world.  The handler never raises.
    Either it sends nothing and refuses every order it is about, and then with
    cause: the gates are closed, brackets are off, or no session call could
    carry the command.  Or the gates are open, it announces the orders (submits
    only) and makes exactly one session call that carries the command term for
    term: the contract's venue symbol and exchange, side, order type, duration,
    quantity, tag, prices and trail of the order; for a bracket the exits as
    the rounded tick distances of the stop and the target from the entry; for a
    modify that order's own basket and each new value in place of the held one;
    for a cancel the basket it names, else the cache's.  Then a reply leaves
    the state to the notifications; a venue reject or a request never sent
    rejects every order and leaves the plant trading; any other failure latches
    the plant and rejects nothing. *)
Theorem command_protocol (c : Command) (h : Host C) :
  atomic c = true ->
  exists h', execute env c h = (Ok tt, h') /\ refused_or_sent c h h'.
Proof.
  destruct c as [o|os|m|c|c|cs]; intros Ha; try done.
  - apply submit_protocol.
  - cbn [execute]. unfold submit_order_list, enable_trading. unfold mbind at 1, M_bind at 1.
    cbn [gets]. destruct (cfg_enable_trading _) eqn:Hen; simpl.
    + simpl in Ha. rewrite Ha. by apply bracket_protocol.
    + destruct (deny_all_tells env os TRADING_DISABLED_REASON h) as (h' & ? & ?).
      eapply refuse; [|done..]. left. unfold command_refusal. by rewrite Hen.
  - apply modify_protocol.
  - apply cancel_protocol.
Qed.

End Claims.

(** ** Witnesses *)

#[local] Existing Instance PlainTypes.

Module CommandSample.

Definition entry : Order := Sample.order INITIALIZED false.

Definition leg (cid : string) (t : OrderType) (px trig : option Price) : Order :=
  MkOrder cid None "S-1" "MNQZ6-CME.RITHMIC" SELL t GTC INITIALIZED false false false
    2 0 (Some 2) px trig NO_TRIGGER VNone NO_TRAILING_OFFSET None (Some "O-1") [] 0 0.

(** A limit entry at 21000.25, a stop ten points below, a target twenty above. *)
Definition bracket : list Order :=
  [entry; leg "O-2" STOP_MARKET None (Some (MkPrice 2099025 2));
   leg "O-3" LIMIT (Some (MkPrice 2102025 2)) None].

Definition host (plant : PlantState) : Host MapCache :=
  let h := Sample.host [entry] plant in
  MkHost (MkConfig true false (Some "ACC") false true true) (h_cache h) (h_plant h) (h_account h)
    (h_pnl h) (h_stores h) (h_commission h) (h_tasks h) (h_reads h) (h_calls h) (h_out h).

Definition bracket_ticks_sent : list (Z * Z) :=
  omap (fun o => match o with OSession (SPlaceBracket _ _ _ _ _ _ _ _ _ s t) => Some (s, t) | _ => None end)
    (h_out (execute Sample.env (CSubmitList bracket) (host Live)).2).

End CommandSample.

Lemma refused_command_sends_nothing_witness :
  exists h', execute Sample.env (CSubmit CommandSample.entry) (CommandSample.host Latched) = (Ok tt, h')
    /\ tells refusal_of (command_targets (CSubmit CommandSample.entry) (CommandSample.host Latched))
         (CommandSample.host Latched) h'.
Proof.
  apply (refused_command_sends_nothing Sample.env (CSubmit CommandSample.entry)
           (CommandSample.host Latched) (reject_reason "submit" Latched)).
  reflexivity.
Defined.

Lemma command_protocol_witness :
  (exists h', execute Sample.env (CSubmitList CommandSample.bracket) (CommandSample.host Live) = (Ok tt, h')
     /\ refused_or_sent Sample.env (CSubmitList CommandSample.bracket) (CommandSample.host Live) h')
  /\ CommandSample.bracket_ticks_sent = [(40, 80)].
Proof.
  split.
  - apply (command_protocol Sample.env (CSubmitList CommandSample.bracket)
             (CommandSample.host Live)). reflexivity.
  - evaluate.
Defined.
