(* ===== verification/Connect.v ===== *)
(** * Connecting, recovering and re-arming

    The lifecycle coroutines of [RithmicExecutionClient] ([execution.py]):
    [_connect_attempt] and its order-plant part, [_rearm_after_reconnect] (the
    re-arm barrier), [_restore_plants_after_transport_up],
    [_recover_order_gap], the two resyncs, [_disconnect].  Each [await] is a
    point where the other coroutines run ([e_interleave]); timeouts are the
    outcome of a [wait].  Deadlines measured on the monotonic clock become a
    number of polls. *)

From Stdlib Require Import Ascii String.
From stdpp Require Import base gmap strings list.
From Stdlib Require Import ZArith Lia.
From S2P Require Import Prelude PyVal Plant Lru Ident Nautilus Orders OrderRows Commission Host Convert Drain Exposure.
Import Text.
Open Scope string_scope.
Open Scope list_scope.
Open Scope Z_scope.

Section Connect.
Context {C : Type} `{CacheOps C} `{NautilusTypes}.
Variable env : Env C.
(* [cache.account] and [cache.account_for_venue] *)
Variable cache_account : C -> string -> bool.
Variable cache_account_for_venue : C -> option string.
Variable now_sec : Z.

Definition call_ (c : SessionCall) : M (Host C) unit := _ ← call env c; mret tt.

Definition plant_step (f : PlantState -> PlantState) : M (Host C) unit := modify (on_plant f).

Definition set_pnl_connected (b : bool) : M (Host C) unit :=
  modify (on_pnl (fun p => MkPnl b (pn_observed p) (pn_live_since_ns p) (pn_epoch p)
                             (pn_positions p) (pn_seen_ns p) (pn_unreadable p))).

(** [_make_poll_task]: a fresh task is alive. *)
Definition make_pnl_task : M (Host C) unit :=
  modify (fun h => set_tasks (MkTasks true (tk_order_alive (h_tasks h))) h).
Definition make_order_task : M (Host C) unit :=
  modify (fun h => set_tasks (MkTasks (tk_pnl_alive (h_tasks h)) true) h).

(** [_stop_background]: the order task, then the PnL task, is cancelled and
    awaited. *)
Definition stop_background : M (Host C) unit :=
  h ← get;
  whenM (tk_order_alive (h_tasks h)) (_ ← wait env; mret tt) ;;
  modify (fun h => set_tasks (MkTasks (tk_pnl_alive (h_tasks h)) false) h) ;;
  h ← get;
  whenM (tk_pnl_alive (h_tasks h)) (_ ← wait env; mret tt) ;;
  modify (fun h => set_tasks (MkTasks false (tk_order_alive (h_tasks h))) h).

(** A session call whose failure counts as no rows. *)
Definition rows_of (c : SessionCall) : M (Host C) (res (list pydict)) :=
  catchM any_exn
    (r ← call env c; mret (Ok (match r with RRows rows => rows | _ => [] end)))
    (fun e => mret (Raise e)).

Definition load_commission_rates : M (Host C) unit :=
  active ← gets (account_raw None);
  products ← rows_of SLoadProductRms;
  modify (fun h => set_commission (load_product_step products (h_commission h)) h) ;;
  accounts ← rows_of SLoadAccountRms;
  modify (fun h => set_commission (load_account_step accounts active (h_commission h)) h).

(** *** The re-arm barrier *)

Definition await_pnl_snapshot : M (Host C) unit :=
  h ← get;
  if pn_observed (h_pnl h) then mret tt
  else
    fired ← wait env;
    if (fired : bool) then mret tt else throw venue_query_unavailable.

Definition rearm_after_reconnect : M (Host C) unit :=
  let '(start_sec, end_sec) := recon_window_sec TNone TNone now_sec in
  events ← load_orders_events env start_sec end_sec;
  apply_drain_rows env events ;;
  h ← get;
  whenM (pn_connected (h_pnl h)) await_pnl_snapshot ;;
  resolve_and_seed_account env.

(** [self._order_plant.rearm(poll_alive=...)] and its answer. *)
Definition plant_rearm (poll_alive : bool) : M (Host C) bool :=
  fun h => (Ok (fst (rearm poll_alive (h_plant h))),
            on_plant (fun p => snd (rearm poll_alive p)) h).

Definition order_poll_alive : M (Host C) bool := gets (fun h => tk_order_alive (h_tasks h)).

Definition rearm_refused : exn := Exn ExRuntime None "re-arm refused".

Definition recover_order_gap : M (Host C) unit :=
  plant_step begin_connect ;;
  modify (on_pnl (fun p => MkPnl (pn_connected p) false (pn_live_since_ns p) (pn_epoch p + 1)
                             (pn_positions p) (pn_seen_ns p) (pn_unreadable p))) ;;
  rearm_after_reconnect ;;
  armed ← plant_rearm true;
  if (armed : bool) then mret tt else throw rearm_refused.

Definition restore_pnl_stream : M (Host C) unit :=
  h ← get;
  whenM (pn_connected (h_pnl h))
    (call_ SSubscribePnl ;;
     h2 ← get;
     whenM (negb (tk_pnl_alive (h_tasks h2))) make_pnl_task).

Definition restore_plants_after_transport_up : M (Host C) unit :=
  forget_pnl_state ;;
  trading ← enable_trading;
  if negb trading then restore_pnl_stream
  else
    plant_step begin_connect ;;
    restore_pnl_stream ;;
    call_ SSubscribeOrderUpdates ;;
    call_ SSubscribeBracketUpdates ;;
    alive ← order_poll_alive;
    whenM (negb alive) make_order_task ;;
    rearm_after_reconnect ;;
    poll_alive ← order_poll_alive;
    armed ← plant_rearm poll_alive;
    if (armed : bool) then mret tt else throw rearm_refused.

(** The [if self.enable_trading:] block of [_connect_attempt]. *)
Definition connect_order_plant : M (Host C) unit :=
  plant_step begin_connect ;;
  catchM any_exn
    (call_ SSubscribeOrderUpdates ;; call_ SSubscribeBracketUpdates)
    (fun e =>
       plant_step disconnect ;;
       catchM any_exn (call_ SDisconnectOrderPlant) (fun _ => mret tt) ;;
       throw e) ;;
  resolve_and_seed_account env ;;
  load_commission_rates ;;
  make_order_task ;;
  ready ← catchM any_exn (rearm_after_reconnect ;; mret true)
            (fun _ => latch_order_plant ;; mret false);
  if (ready : bool) then
    poll_alive ← order_poll_alive;
    _ ← plant_rearm poll_alive;
    mret tt
  else mret tt.

(** *** Connect *)

Fixpoint resolve_until (polls : nat) : M (Host C) unit :=
  match polls with
  | O => mret tt
  | S polls' =>
      acct ← account_id;
      match acct with
      | Some _ => mret tt
      | None =>
          resolve_and_seed_account env ;;
          acct' ← account_id;
          match acct' with
          | Some _ => mret tt
          | None => _ ← wait env; resolve_until polls'
          end
      end
  end.

Fixpoint wait_account_in_cache (polls : nat) (account : string) : M (Host C) unit :=
  h ← get;
  if cache_account (h_cache h) account
     || bool_decide (cache_account_for_venue (h_cache h) = Some account)
  then mret tt
  else
    match polls with
    | O => throw (Exn ExRuntime None "account not in cache")
    | S polls' => _ ← wait env; wait_account_in_cache polls' account
    end.

Definition await_account_registered (polls : nat) : M (Host C) unit :=
  resolve_until polls ;;
  acct ← account_id;
  match acct with
  | None =>
      trading ← enable_trading;
      if (trading : bool) then throw (Exn ExRuntime None "no Rithmic account id after connect")
      else mret tt
  | Some account => wait_account_in_cache polls account
  end.

Definition open_gates : M (Host C) unit :=
  h ← get;
  call_ (SOpenGates (cfg_enable_trading (h_cfg h)) (cfg_cancel_all_requested (h_cfg h))).

Definition connect_pnl : M (Host C) unit :=
  set_pnl_connected false ;;
  catchM any_exn
    (call_ SSubscribePnl ;;
     resolve_and_seed_account env ;;
     make_pnl_task ;;
     set_pnl_connected true)
    (fun e =>
       h ← get;
       if cfg_soft_fail_pnl (h_cfg h) then mret tt else throw e).

Definition connect_attempt (polls : nat) : M (Host C) unit :=
  forget_pnl_state ;;
  call_ SEnsureConnected ;;
  open_gates ;;
  connect_pnl ;;
  trading ← enable_trading;
  whenM trading connect_order_plant ;;
  await_account_registered polls.

Definition connect (polls : nat) : M (Host C) unit :=
  catchM any_exn (connect_attempt polls) (fun e => stop_background ;; throw e).

Definition disconnect_client : M (Host C) unit :=
  plant_step disconnect ;;
  stop_background ;;
  catchM any_exn (call_ SDisconnect) (fun _ => mret tt).

(** *** Resyncs and transport events *)

Definition resync_order_subscription : M (Host C) unit :=
  call_ SDisconnectOrderPlant ;;
  call_ SSubscribeOrderUpdates ;;
  call_ SSubscribeBracketUpdates ;;
  plant_step resync_complete.

Definition resync_pnl_subscription : M (Host C) unit :=
  modify (on_pnl invalidate_pnl) ;;
  call_ SDisconnectPnlPlant ;;
  call_ SSubscribePnl.

Definition on_transport_down : M (Host C) unit := latch_order_plant.
Definition on_transport_recovery_failed : M (Host C) unit := latch_order_plant.

End Connect.

(** ** Interference

    What the other coroutines do to the plant while this one is suspended, as
    lists of plant operations: [ops n] at this coroutine's [n]-th suspension. *)

Section Interference.
Context {C : Type} `{CacheOps C} `{NautilusTypes}.
Variable env : Env C.
Variable ops : nat -> list plant_op.

Record interferes : Prop := MkInterferes {
  int_plant n h : h_plant (e_interleave env n h) = run (h_plant h) (ops n);
  int_calls n h : h_calls (e_interleave env n h) = h_calls h
}.

(** The operations of suspensions [a, b). *)
Definition ops_between (a b : nat) : list plant_op := flat_map ops (seq a (b - a)).

Lemma ops_between_nil a : ops_between a a = [].
Proof. unfold ops_between. by rewrite Nat.sub_diag. Qed.

Lemma ops_between_one a : ops_between a (S a) = ops a.
Proof.
  unfold ops_between. replace (S a - a)%nat with 1%nat by lia. simpl. apply app_nil_r.
Qed.

Lemma ops_between_app a b c :
  (a <= b)%nat -> (b <= c)%nat -> ops_between a c = ops_between a b ++ ops_between b c.
Proof.
  intros. unfold ops_between. replace (c - a)%nat with ((b - a) + (c - b))%nat by lia.
  rewrite seq_app, flat_map_app. by replace (a + (b - a))%nat with b by lia.
Qed.

(** The plant moved exactly by the interference of the suspensions in between. *)
Definition trail (h h' : Host C) : Prop :=
  (h_calls h <= h_calls h')%nat
  /\ h_plant h' = run (h_plant h) (ops_between (h_calls h) (h_calls h')).

#[export] Instance trail_preorder : PreOrder trail.
Proof.
  split.
  - intros h. split; [done|]. by rewrite ops_between_nil.
  - intros a b c [Ha Ea] [Hb Eb]. split; [lia|].
    by rewrite (ops_between_app _ (h_calls b)), run_app, <- Ea, <- Eb by done.
Qed.

(** Steps that suspend nowhere and leave the plant alone. *)
Lemma still_trail h h' : h_calls h' = h_calls h -> h_plant h' = h_plant h -> trail h h'.
Proof. intros Hc Hp. split; [lia|]. by rewrite Hc, Hp, ops_between_nil. Qed.

Lemma modify_trail f :
  (forall h, h_calls (f h) = h_calls h /\ h_plant (f h) = h_plant h) ->
  preserves trail (modify f).
Proof. intros Hf h. destruct (Hf h). by apply still_trail. Qed.

Hypothesis Hint : interferes.

Lemma suspended_trail n h h0 :
  n = h_calls h -> h_calls h0 = S n -> h_plant h0 = h_plant h ->
  trail h (e_interleave env n h0).
Proof.
  intros -> Hc Hp. split; rewrite (int_calls Hint), Hc; [lia|].
  by rewrite (int_plant Hint), Hp, ops_between_one.
Qed.

Lemma call_trail c : preserves trail (call env c).
Proof. intros h. by apply suspended_trail. Qed.

Lemma wait_trail : preserves trail (wait env).
Proof. intros h. by apply suspended_trail. Qed.

Lemma emit_trail o : preserves trail (emit (C:=C) o).
Proof. by apply modify_trail. Qed.
Lemma timestamp_trail : preserves trail (timestamp_ns env).
Proof. intros h. by apply still_trail. Qed.
Lemma enable_trading_trail : preserves trail (enable_trading (C:=C)).
Proof. intros h. by apply still_trail. Qed.
Lemma account_id_trail : preserves trail (account_id (C:=C)).
Proof. intros h. by apply still_trail. Qed.
Lemma set_account_id_trail id : preserves trail (set_account_id (C:=C) id).
Proof. by apply modify_trail. Qed.

Hint Resolve call_trail wait_trail emit_trail timestamp_trail enable_trading_trail
  account_id_trail set_account_id_trail : preserve.
Hint Extern 3 (preserves trail (modify _)) => apply modify_trail; intros ?; split; reflexivity
  : preserve.

Lemma seed_trail hint : preserves trail (seed_account_if_needed env hint).
Proof. unfold seed_account_if_needed. preserve. Qed.
Hint Resolve seed_trail : preserve.

Lemma resolve_trail : preserves trail (resolve_and_seed_account env).
Proof. unfold resolve_and_seed_account, refresh_resolved_account. preserve. Qed.

Lemma send_status_trail r : preserves trail (send_status_report env r).
Proof. unfold send_status_report. preserve. Qed.
Hint Resolve resolve_trail send_status_trail : preserve.
Lemma publish_status_trail r : preserves trail (publish_order_status_report env r).
Proof. unfold publish_order_status_report. preserve. Qed.
Lemma bind_trail cid v : preserves trail (bind_venue_id cid v).
Proof. unfold bind_venue_id. preserve. Qed.
Lemma build_status_trail f ts b i a : preserves trail (build_status env f ts b i a).
Proof. unfold build_status. preserve. Qed.
Hint Resolve publish_status_trail bind_trail build_status_trail : preserve.
Lemma status_report_trail f ts : preserves trail (order_status_report_from_fields env f ts).
Proof. unfold order_status_report_from_fields. preserve. Qed.
Hint Resolve status_report_trail : preserve.
Lemma drain_row_trail f ts : preserves trail (drain_row_from_fields env f ts).
Proof. unfold drain_row_from_fields. preserve. Qed.
Hint Resolve drain_row_trail : preserve.

Lemma drain_loop_trail {A} events (body : DrainRow -> M (Host C) (list A)) :
  (forall row, preserves trail (body row)) -> preserves trail (drain_loop env events body).
Proof. intros Hb. induction events as [|raw events IH]; cbn [drain_loop]; preserve. Qed.

Lemma apply_rows_trail events : preserves trail (apply_drain_rows env events).
Proof.
  unfold apply_drain_rows, latest_drain_rows, iter_drain_rows.
  assert (preserves trail (drain_loop env events (fun row => mret [row])))
    by (apply drain_loop_trail; intros; preserve).
  unfold apply_drain_row. preserve.
Qed.

Lemma load_orders_trail a b : preserves trail (load_orders_events env a b).
Proof. unfold load_orders_events. preserve. Qed.
Hint Resolve apply_rows_trail load_orders_trail : preserve.

Lemma await_pnl_trail : preserves trail (await_pnl_snapshot env).
Proof. unfold await_pnl_snapshot. preserve. Qed.
Hint Resolve await_pnl_trail : preserve.

Lemma rearm_barrier_trail now : preserves trail (rearm_after_reconnect env now).
Proof. unfold rearm_after_reconnect. preserve. Qed.

Lemma call__trail c : preserves trail (call_ env c).
Proof. unfold call_. preserve. Qed.
Hint Resolve rearm_barrier_trail call__trail : preserve.

Lemma restore_pnl_trail : preserves trail (restore_pnl_stream env).
Proof. unfold restore_pnl_stream, make_pnl_task. preserve. Qed.

Lemma load_rates_trail : preserves trail (load_commission_rates env).
Proof. unfold load_commission_rates, rows_of. preserve. Qed.

Lemma make_order_trail : preserves trail (make_order_task (C:=C)).
Proof. unfold make_order_task. preserve. Qed.
Lemma order_alive_trail : preserves trail (order_poll_alive (C:=C)).
Proof. intros h. by apply still_trail. Qed.
Hint Resolve restore_pnl_trail load_rates_trail make_order_trail order_alive_trail : preserve.

(** *** The three barriers *)

(** No other coroutine runs a barrier of its own meanwhile. *)
Definition sole_barrier : Prop := forall n o, o ∈ ops n -> o <> BeginConnect /\ forall a, o <> Rearm a.

Hypothesis Hsole : sole_barrier.

Lemma sole_between a b o : o ∈ ops_between a b -> o <> BeginConnect /\ forall x, o <> Rearm x.
Proof.
  unfold ops_between. rewrite list_elem_of_In, in_flat_map.
  intros (n & _ & Ho). apply (Hsole n). by apply list_elem_of_In.
Qed.

Lemma closed_trail h h' :
  commands_open (h_plant h) = false -> trail h h' -> commands_open (h_plant h') = false.
Proof.
  intros Hc [_ Hp]. destruct (commands_open (h_plant h')) eqn:E; [|done]. rewrite Hp in E.
  destruct (unarmed_run _ _ Hc E) as (pre & post & Eo & _). exfalso.
  assert (Rearm true ∈ ops_between (h_calls h) (h_calls h')) as Hin
    by (rewrite Eo; set_solver).
  by apply sole_between in Hin as [_ Hn]; apply (Hn true).
Qed.

(** The suspensions from [h] to [h'] disturbed nothing. *)
Definition undisturbed (h h' : Host C) : Prop :=
  Forall (fun o => o = ResyncComplete) (ops_between (h_calls h) (h_calls h')).

Lemma rearm_final h0 h1 a :
  h_plant h0 = Connecting -> trail h0 h1 ->
  let h2 := on_plant (fun p => snd (rearm a p)) h1 in
  (commands_open (h_plant h2) = true <-> fst (rearm a (h_plant h1)) = true)
  /\ (fst (rearm a (h_plant h1)) = true ->
      h_plant h2 = Live /\ undisturbed h0 h2 /\ a = true).
Proof.
  intros Hb [_ Hp]. cbv zeta. cbn [h_plant on_plant]. split.
  - destruct (h_plant h1), a; done.
  - intros Ha. apply rearm_true in Ha as [Hc ->]. rewrite Hc. split_and!; [done| |done].
    unfold undisturbed. cbn [h_calls on_plant].
    rewrite Hp, Hb in Hc. apply barrier_run in Hc; [done|].
    intros Hin. by apply sole_between in Hin as [? _].
Qed.

Lemma bind_run {A B} (m : M (Host C) A) (f : A -> M (Host C) B) h r h' :
  (m ≫= f) h = (r, h') ->
  (exists e, m h = (Raise e, h') /\ r = Raise e)
  \/ exists a h1, m h = (Ok a, h1) /\ f a h1 = (r, h').
Proof.
  unfold mbind, M_bind. destruct (m h) as [[a|e] h1] eqn:E; intros Hr.
  - right. by exists a, h1.
  - left. exists e. by simplify_eq.
Qed.

Lemma catch_run {A} (m : M (Host C) A) hd h r h' :
  catchM any_exn m hd h = (r, h') ->
  (exists a, m h = (Ok a, h') /\ r = Ok a)
  \/ exists e h1, m h = (Raise e, h1) /\ hd e h1 = (r, h').
Proof.
  unfold catchM, any_exn. destruct (m h) as [[a|e] h1]; intros Hr; simplify_eq; eauto 10.
Qed.

Lemma trail_run {A} (m : M (Host C) A) h r h' :
  preserves trail m -> m h = (r, h') -> trail h h'.
Proof. intros Hm E. specialize (Hm h). by rewrite E in Hm. Qed.

(** The venue answered a working-orders query during the suspensions between
    [h] and [h']. *)
Definition venue_reread (h h' : Host C) : Prop :=
  exists n s e rows, (h_calls h <= n < h_calls h')%nat
    /\ e_session env n (SLoadOrders s e) = Ok rows.

Lemma rearm_barrier_reread now h h' :
  rearm_after_reconnect env now h = (Ok tt, h') -> venue_reread h h'.
Proof.
  unfold rearm_after_reconnect. destruct (recon_window_sec _ _ _) as [s e].
  intros Hr. apply bind_run in Hr as [(x & _ & ?)|(evs & h1 & Hl & Hr)]; [done|].
  assert (trail h1 h') as [Hle _].
  { eapply trail_run; [|exact Hr]. preserve. }
  unfold load_orders_events, catchM in Hl. unfold mbind, M_bind, call in Hl. unfold mret, M_ret in Hl.
  destruct (e_session env (h_calls h) (SLoadOrders s e)) as [rows|x] eqn:E.
  - exists (h_calls h), s, e, rows. split; [|done].
    cbn in Hl. simplify_eq. rewrite (int_calls Hint) in Hle. simpl in Hle. lia.
  - unfold any_exn in Hl. by destruct (is_recon_unavailable x).
Qed.

Lemma reread_widen h0 h h' h1 :
  trail h0 h -> (h_calls h' <= h_calls h1)%nat -> venue_reread h h' -> venue_reread h0 h1.
Proof.
  intros [Hle _] Hle' (n & s & e & rows & Hn & E). exists n, s, e, rows. split; [lia|done].
Qed.

Inductive Barrier := BConnect | BRestore | BGap.

Definition run_barrier (b : Barrier) (now : Z) : M (Host C) unit :=
  match b with
  | BConnect => connect_order_plant env now
  | BRestore => restore_plants_after_transport_up env now
  | BGap => recover_order_gap env now
  end.

(** What a barrier that leaves commands open has done since [h]. *)
Definition armed_clean (h h' : Host C) : Prop :=
  h_plant h' = Live /\ undisturbed h h' /\ venue_reread h h'.

(** A run that starts at the barrier and has not armed anything is closed. *)
Lemma unarmed_end h0 h1 h' (P : Prop) :
  h_plant h0 = Connecting -> trail h0 h1 -> h' = h1 ->
  commands_open (h_plant h') = true -> P.
Proof.
  intros Hb Ht -> Ho. exfalso. rewrite (closed_trail h0 h1) in Ho; [done| |done]. by rewrite Hb.
Qed.

(** The last lines of every barrier: the drain, then [rearm]. *)
Lemma barrier_tail now h0 h1 h2 a :
  h_plant h0 = Connecting -> trail h0 h1 ->
  rearm_after_reconnect env now h1 = (Ok tt, h2) ->
  let h' := on_plant (fun p => snd (rearm a p)) h2 in
  (commands_open (h_plant h') = true -> armed_clean h0 h')
  /\ (fst (rearm a (h_plant h2)) = true -> h_plant h' = Live).
Proof.
  intros Hb Ht E. cbv zeta.
  assert (trail h1 h2) as Ht2 by (eapply trail_run; [|exact E]; preserve).
  destruct (rearm_final h0 h2 a Hb) as [Hopen Harm]; [by etransitivity|].
  split; [|intros Ha; by apply Harm].
  intros Ho. apply Hopen in Ho. destruct (Harm Ho) as (? & ? & _). split_and!; [done|done|].
  eapply reread_widen; [exact Ht| |exact (rearm_barrier_reread _ _ _ E)]. simpl. lia.
Qed.

Lemma arm_or_throw a h1 r h' (P : Host C -> Prop) :
  let h2 := on_plant (fun p => snd (rearm a p)) h1 in
  (armed ← plant_rearm a; if (armed : bool) then mret tt else throw rearm_refused) h1 = (r, h') ->
  (commands_open (h_plant h2) = true -> P h2) ->
  (fst (rearm a (h_plant h1)) = true -> h_plant h2 = Live) ->
  (commands_open (h_plant h') = true -> r = Ok tt /\ P h') /\ (r = Ok tt -> h_plant h' = Live).
Proof.
  cbv zeta. unfold plant_rearm, mbind, M_bind, mret, M_ret, throw.
  destruct (fst (rearm a (h_plant h1))) eqn:Ha; intros [= <- <-] H1 H2; split; auto; [|done].
  simpl. destruct (h_plant h1), a; done.
Qed.

Lemma gap_barrier now h r h' :
  recover_order_gap env now h = (r, h') ->
  (commands_open (h_plant h') = true -> r = Ok tt /\ armed_clean h h')
  /\ (r = Ok tt -> h_plant h' = Live).
Proof.
  unfold recover_order_gap, plant_step.
  set (h0 := on_pnl (fun p => MkPnl (pn_connected p) false (pn_live_since_ns p) (pn_epoch p + 1)
               (pn_positions p) (pn_seen_ns p) (pn_unreadable p)) (on_plant begin_connect h)).
  intros Hr. change ((rearm_after_reconnect env now ;;
                      armed ← plant_rearm true;
                      if (armed : bool) then mret tt else throw rearm_refused) h0 = (r, h')) in Hr.
  assert (h_plant h0 = Connecting) as Hb by done.
  apply bind_run in Hr as [(e & E & ->)|([] & h1 & E & Hr)].
  - split; [|done]. apply (unarmed_end h0 h'); [done| |done].
    eapply trail_run; [|exact E]; preserve.
  - destruct (barrier_tail now h0 h0 h1 true Hb (reflexivity _) E) as [H1 H2].
    by eapply arm_or_throw.
Qed.

(** Past one more step of a barrier that keeps the trail [Ht]; if it raises,
    nothing was armed. *)
Ltac through Hr Ht :=
  let E := fresh "E" in
  apply bind_run in Hr as [(? & E & ->)|(? & ? & E & Hr)];
  apply trail_run in E; [|solve [preserve]| |solve [preserve]];
  [ lazymatch goal with |- _ /\ _ => split; [|done] | _ => idtac end; eapply unarmed_end; [eassumption| |reflexivity]; by etransitivity
  | apply (transitivity Ht) in E; clear Ht; rename E into Ht ].

Lemma restore_barrier now h r h' :
  cfg_enable_trading (h_cfg h) = true ->
  restore_plants_after_transport_up env now h = (r, h') ->
  (commands_open (h_plant h') = true -> r = Ok tt /\ armed_clean h h')
  /\ (r = Ok tt -> h_plant h' = Live).
Proof.
  intros Hen. unfold restore_plants_after_transport_up, plant_step, forget_pnl_state.
  unfold mbind at 1, M_bind at 1. cbn [modify].
  unfold mbind at 1, M_bind at 1. unfold enable_trading at 1. cbn [gets].
  change (h_cfg (on_pnl forget_pnl h)) with (h_cfg h). rewrite Hen. cbn [negb].
  unfold mbind at 1, M_bind at 1. cbn [modify].
  set (h0 := on_plant begin_connect (on_pnl forget_pnl h)).
  intros Hr.
  assert (h_plant h0 = Connecting) as Hb by done.
  assert (trail h0 h0) as Ht by done.
  do 4 through Hr Ht. through Hr Ht.
  apply bind_run in Hr as [(e & E & ->)|([] & h2 & E & Hr)].
  { split; [|done]. apply (unarmed_end h0 h'); [done| |done].
    etransitivity; [exact Ht|]. eapply trail_run; [|exact E]; preserve. }
  unfold order_poll_alive, gets in Hr. unfold mbind at 1, M_bind at 1 in Hr.
  destruct (barrier_tail now h0 _ h2 (tk_order_alive (h_tasks h2)) Hb Ht E) as [H1 H2].
  by eapply arm_or_throw.
Qed.

Lemma teardown_closed (e : exn) h r h' :
  (plant_step disconnect ;;
   catchM any_exn (call_ env SDisconnectOrderPlant) (fun _ => mret tt) ;;
   (throw e : M (Host C) unit)) h = (r, h') ->
  r = Raise e /\ commands_open (h_plant h') = false.
Proof.
  unfold plant_step. unfold mbind at 1, M_bind at 1. cbn [modify]. intros Hr.
  apply bind_run in Hr as [(x & E & _)|(u & h1 & E & Hr)].
  - unfold catchM, any_exn in E. destruct (call_ _ _ _) as [[]]; done.
  - cbv [throw] in Hr. simplify_eq. split; [done|].
    eapply closed_trail; [|eapply trail_run; [|exact E]; preserve]. done.
Qed.

Lemma connect_barrier now h r h' :
  connect_order_plant env now h = (r, h') ->
  commands_open (h_plant h') = true -> r = Ok tt /\ armed_clean h h'.
Proof.
  unfold connect_order_plant. unfold plant_step at 1. unfold mbind at 1, M_bind at 1. cbn [modify].
  set (h0 := on_plant begin_connect h). intros Hr.
  assert (h_plant h0 = Connecting) as Hb by done.
  apply bind_run in Hr as [(e & E & ->)|(u & h1 & E & Hr)].
  { apply catch_run in E as [(? & _ & ?)|(x & h1 & _ & E)]; [done|].
    apply teardown_closed in E as [_ Hc]. congruence. }
  assert (trail h0 h1) as Ht.
  { apply catch_run in E as [(? & E & _)|(x & h2 & _ & E)].
    - eapply trail_run; [|exact E]; preserve.
    - by apply teardown_closed in E as [? _]. }
  clear E.
  do 3 through Hr Ht.
  apply bind_run in Hr as [(e & E & ->)|(ready & h4 & E & Hr)].
  { by apply catch_run in E as [(? & _ & ?)|(y & h5 & _ & E)]. }
  apply catch_run in E as [(b & E & [= ->])|(y & h5 & _ & E)].
  - apply bind_run in E as [(z & _ & ?)|([] & h6 & E & E2)]; [done|].
    cbv [mret M_ret] in E2. simplify_eq. cbn iota in Hr.
    unfold order_poll_alive, gets, plant_rearm, mbind, M_bind, mret, M_ret in Hr. simplify_eq.
    intros Ho. split; [done|].
    by apply (barrier_tail now h0 _ h4 (tk_order_alive (h_tasks h4)) Hb Ht E).
  - cbv [latch_order_plant modify mbind M_bind mret M_ret] in E. simplify_eq.
    cbn iota in Hr. cbv [mret M_ret] in Hr. by simplify_eq.
Qed.

(** (C1) Commands reopen only behind a clean barrier.  Whichever coroutine runs
    it (connect, transport restore, gap recovery), and whatever the session
    answers: if commands are open when it ends, then the plant is [Live], the
    venue answered a working-orders query after the barrier began, and no other
    coroutine latched, disconnected, failed or resynced the plant at any of its
    suspension points; a restore or a gap recovery that returns normally did
    arm.  (No other barrier runs at the same time.) *)
Theorem barrier_arms_only_clean (b : Barrier) now h r h' :
  cfg_enable_trading (h_cfg h) = true ->
  run_barrier b now h = (r, h') ->
  (commands_open (h_plant h') = true -> r = Ok tt /\ armed_clean h h')
  /\ (b <> BConnect -> r = Ok tt -> h_plant h' = Live).
Proof.
  intros Hen Hr. destruct b; simpl in Hr.
  - split; [by eapply connect_barrier|done].
  - destruct (restore_barrier _ _ _ _ Hen Hr) as [H1 H2]. split; auto.
  - destruct (gap_barrier _ _ _ _ Hr) as [H1 H2]. split; auto.
Qed.

(** *** Latches survive resyncs *)

Definition stays_latched (h h' : Host C) : Prop := h_plant h = Latched -> h_plant h' = Latched.

#[export] Instance stays_latched_preorder : PreOrder stays_latched.
Proof. split; unfold stays_latched; [by intros ?|intros ? ? ?; auto]. Qed.

Section Latch.
Hypothesis Hdis : forall n, Disconnect ∉ ops n.

Lemma no_reset a b : (BeginConnect ∉ ops_between a b) /\ (Disconnect ∉ ops_between a b).
Proof.
  split; intros Hin; [by apply sole_between in Hin as [? _]|].
  unfold ops_between in Hin. rewrite list_elem_of_In, in_flat_map in Hin.
  destruct Hin as (n & _ & Hin). apply (Hdis n). by apply list_elem_of_In.
Qed.

Lemma latched_trail h h' : trail h h' -> stays_latched h h'.
Proof.
  intros [_ Hp] Hl. rewrite Hp, Hl. destruct (no_reset (h_calls h) (h_calls h')).
  by apply latched_stays.
Qed.

Lemma latched_during s a : Latch ∈ ops a -> run s (ops a) = Latched.
Proof.
  intros (pre & post & E)%list_elem_of_split.
  destruct (no_reset a (S a)) as [Hb Hd]. rewrite ops_between_one in Hb, Hd.
  rewrite E in *. rewrite run_app, run_cons. apply latched_stays; set_solver.
Qed.

Lemma call_stays_latched c : preserves stays_latched (call_ env c).
Proof. intros h. apply latched_trail. apply call__trail. Qed.

Lemma resync_complete_latched : preserves stays_latched (plant_step (C:=C) resync_complete).
Proof. intros h Hl. simpl. by rewrite Hl. Qed.

End Latch.

(** A resync never clears a latch.  A mid-session resubscribe of the order
    stream that finds the plant latched, or during which another coroutine
    latches it, leaves it latched, whether the session calls succeed or not
    (nobody disconnects or starts a barrier meanwhile). *)
Theorem resync_keeps_latch h :
  (forall n, Disconnect ∉ ops n) ->
  h_plant h = Latched \/ h_plant h = Resyncing /\ Latch ∈ ops (h_calls h) ->
  h_plant (resync_order_subscription env h).2 = Latched.
Proof.
  intros Hd Hl. pose proof (call_stays_latched Hd) as Hc. pose proof resync_complete_latched as Hr.
  unfold resync_order_subscription.
  assert (h_plant (call_ env SDisconnectOrderPlant h).2 = Latched) as H1.
  { destruct Hl as [Hl|[_ Hl]]; [by apply Hc|].
    unfold call_, mbind, M_bind, call.
    destruct (e_session _ _ _); cbn [snd mret M_ret]; rewrite (int_plant Hint); by apply latched_during. }
  unfold mbind at 1, M_bind at 1.
  destruct (call_ env SDisconnectOrderPlant h) as [[[]|e] h1]; [|done].
  assert (preserves stays_latched (call_ env SSubscribeOrderUpdates ;;
    call_ env SSubscribeBracketUpdates ;; plant_step resync_complete)) as Hp by preserve.
  by apply Hp.
Qed.

End Interference.

(** ** Witnesses *)

#[local] Existing Instance PlainTypes.

(** The sample world, with other coroutines applying [ops n] to the plant. *)
Definition contended (ops : nat -> list plant_op) : Env MapCache :=
  MkEnv (e_clock Sample.env) (e_session Sample.env)
    (fun n => on_plant (fun p => run p (ops n))) (fun _ => true)
    (fun _ => Ok tt) (fun _ => Ok tt).

Lemma contended_interferes ops : interferes (contended ops) ops.
Proof. by split. Qed.

Definition live_host : Host MapCache := Sample.host [Sample.order ACCEPTED false] Live.

Definition calm (n : nat) : list plant_op := if Nat.eqb n 0 then [ResyncComplete] else [].
Definition stormy (n : nat) : list plant_op := if Nat.eqb n 0 then [Latch] else [].

Lemma calm_sole : sole_barrier calm.
Proof. intros [|n] o Ho; inversion Ho; subst; [done|by apply not_elem_of_nil in H1]. Qed.

Lemma stormy_sole : sole_barrier stormy.
Proof. intros [|n] o Ho; inversion Ho; subst; [done|by apply not_elem_of_nil in H1]. Qed.

Lemma stormy_connected n : Disconnect ∉ stormy n.
Proof. destruct n; evaluate. Qed.

Definition gap_run (ops : nat -> list plant_op) : res unit * Host MapCache :=
  run_barrier (contended ops) BGap 1790000000 live_host.

Lemma barrier_arms_only_clean_witness :
  armed_clean (contended calm) calm live_host (gap_run calm).2
  /\ h_plant (gap_run stormy).2 = Latched.
Proof.
  split; [|evaluate].
  destruct (barrier_arms_only_clean (contended calm) calm (contended_interferes calm) calm_sole
              BGap 1790000000 live_host (gap_run calm).1 (gap_run calm).2 eq_refl
              (surjective_pairing _)) as [Ha _].
  apply Ha. evaluate.
Defined.

Lemma resync_keeps_latch_witness :
  h_plant (resync_order_subscription (contended stormy)
             (Sample.host [] Resyncing)).2 = Latched.
Proof.
  apply (resync_keeps_latch (contended stormy) stormy (contended_interferes stormy)).
  - exact stormy_sole.
  - exact stormy_connected.
  - right. split; evaluate.
Defined.
