(* ===== verification/Polling.v ===== *)
(** * Stream pollers

    [PlantPoller] of [polling.py], the error classification of [errors.py] and
    [_plant_poll_loop] of [execution.py], which builds the order and the PnL
    pollers from the client's handlers.

    The poller is written against its callbacks ([Poller]); sleeps are
    suspensions.  Back-off delays are kept in milliseconds (the source doubles
    0.05 s up to 2 s).  The two unbounded loops ([run], [_recover_gap]) take a
    number of turns: [None] is "still looping". *)

From Stdlib Require Import Ascii String.
From stdpp Require Import base gmap strings list.
From Stdlib Require Import ZArith Lia.
From S2P Require Import Prelude PyVal Plant Lru Ident Nautilus Orders OrderRows Commission Host Convert Drain Intake Exposure Connect.
Import Text.
Open Scope string_scope.
Open Scope list_scope.
Open Scope Z_scope.

(** ** [errors.py] *)

Definition is_channel_error (e : exn) : bool :=
  match ex_class e with
  | ExChannel | ExChannelLagged | ExChannelClosed | ExNotConnected => true
  | _ => false
  end.

Definition RECONNECTABLE_GATEWAY_CODES : list string :=
  ["not_connected"; "eof"; "shutting_down"; "transport_reset"; "frame_too_large"].

Definition is_reconnectable_poll_error (e : exn) : bool :=
  if is_channel_error e then true
  else if match ex_code e with
          | Some code => bool_decide (lower code ∈ RECONNECTABLE_GATEWAY_CODES)
          | None => false
          end then true
  else
    let text := lower (ex_text e) in
    contains "forced logout" text || contains "connection closed" text
    || contains "not connected" text || contains "not_connected" text
    || contains "channel closed" text || contains "channel lagged" text.

Definition is_terminal_poll_error (e : exn) : bool :=
  match ex_class e with
  | ExChannelClosed | ExNotConnected => true
  | ExChannelLagged => false
  | _ =>
      let text := lower (ex_text e) in
      contains "forced logout" text || contains "session closed" text
  end.

(** ** The poller *)

Record Poller (S : Type) := MkPoller {
  p_order : bool;                       (* [name == "order"] *)
  p_poll : M S (list pydict);           (* [batch_fn] or [poll_fn] *)
  p_batched : bool;                     (* [batch_fn is not None] *)
  p_on_event : pydict -> M S unit;
  p_on_resync : M S unit;
  p_on_gap : option (M S unit);
  p_max_transient : Z;
  p_on_latch : option (M S unit);
  p_on_resync_start : option (M S unit);
  p_on_resync_failed : option (M S unit);
  p_sleep : M S unit
}.
Arguments MkPoller {S} _ _ _ _ _ _ _ _ _ _ _.
Arguments p_order {S} _.
Arguments p_poll {S} _.
Arguments p_batched {S} _.
Arguments p_on_event {S} _ _.
Arguments p_on_resync {S} _.
Arguments p_on_gap {S} _.
Arguments p_max_transient {S} _.
Arguments p_on_latch {S} _.
Arguments p_on_resync_start {S} _.
Arguments p_on_resync_failed {S} _.
Arguments p_sleep {S} _.

Definition INITIAL_BACKOFF : Z := 50.
Definition double_backoff (b : Z) : Z := Z.min (b * 2) 2000.

Section Poller.
Context {S : Type}.
Variable p : Poller S.

Definition optional (m : option (M S unit)) : M S unit := default (mret tt) m.

Definition poll_session_events : M S (list pydict) :=
  catchM any_exn (p_poll p)
    (fun e =>
       if is_channel_error e then throw e
       else if is_terminal_poll_error e || is_reconnectable_poll_error e then throw e
       else throw (Exn ExPollTransient None (ex_text e))).

Definition poll_session_event : M S (option pydict) :=
  events ← poll_session_events;
  mret (head events).

Definition resync (backoff streak : Z) : M S (Z * Z) :=
  whenM (p_order p) (optional (p_on_resync_start p)) ;;
  next ← catchM any_exn
    (p_on_resync p ;; mret (INITIAL_BACKOFF, if p_order p then 0 else streak))
    (fun _ =>
       whenM (p_order p) (optional (p_on_resync_failed p)) ;;
       mret (double_backoff backoff, streak));
  p_sleep p ;;
  mret next.

(** [true] once [on_gap] succeeded. *)
Fixpoint recover_gap_loop (turns : nat) (on_gap : M S unit) : M S bool :=
  match turns with
  | O => mret false
  | Datatypes.S turns' =>
      ok ← catchM any_exn (on_gap ;; mret true)
             (fun _ => whenM (p_order p) (optional (p_on_resync_failed p)) ;; p_sleep p ;; mret false);
      if (ok : bool) then mret true else recover_gap_loop turns' on_gap
  end.

Definition recover_gap (turns : nat) : M S bool :=
  match p_on_gap p with
  | None => mret true
  | Some on_gap => recover_gap_loop turns on_gap
  end.

(** The events of a batch: the number lost, or [None] when the poller stops. *)
Fixpoint handle_events (events : list pydict) (lost : Z) : M S (option Z) :=
  match events with
  | [] => mret (Some lost)
  | event :: rest =>
      if is_str (dget event "type") "gap" then handle_events rest (lost + 1)
      else
        outcome ← catchM any_exn (p_on_event p event ;; mret None) (fun e => mret (Some e));
        match outcome with
        | None => handle_events rest lost
        | Some e =>
            if bool_decide (ex_class e = ExUnreadable) then handle_events rest (lost + 1)
            else if p_order p then optional (p_on_latch p) ;; mret None
            else handle_events rest lost
        end
  end.

Inductive Turn := Continue (backoff streak : Z) | Stopped | Looping.

Definition poll_iteration (turns : nat) (backoff streak : Z) : M S Turn :=
  polled ← catchM any_exn (events ← poll_session_events; mret (Ok events)) (fun e => mret (Raise e));
  match polled with
  | Raise e =>
      if bool_decide (ex_class e = ExPollTransient) then
        let streak' := if p_order p then streak + 1 else streak in
        if p_order p && (p_max_transient p <=? streak') then
          optional (p_on_latch p) ;; mret Stopped
        else p_sleep p ;; mret (Continue backoff streak')
      else if is_terminal_poll_error e then
        whenM (p_order p) (optional (p_on_resync_failed p)) ;; mret Stopped
      else if negb (is_channel_error e) then
        p_sleep p ;; mret (Continue (double_backoff backoff) streak)
      else
        '(b, s) ← resync backoff streak; mret (Continue b s)
  | Ok events =>
      if bool_decide (events = []) && negb (p_batched p) then
        p_sleep p ;; mret (Continue backoff streak)
      else
        lost ← handle_events events 0;
        match lost with
        | None => mret Stopped
        | Some n =>
            if 0 <? n then
              match p_on_gap p with
              | Some _ =>
                  done_ ← recover_gap turns;
                  mret (if (done_ : bool) then Continue backoff streak else Looping)
              | None => '(b, s) ← resync backoff streak; mret (Continue b s)
              end
            else mret (Continue backoff streak)
        end
  end.

Fixpoint run_loop (iterations turns : nat) (backoff streak : Z) : M S Turn :=
  match iterations with
  | O => mret (Continue backoff streak)
  | Datatypes.S n =>
      t ← poll_iteration turns backoff streak;
      match t with
      | Continue b s => run_loop n turns b s
      | Stopped => mret Stopped
      | Looping => mret Looping
      end
  end.

Definition run_poller (iterations turns : nat) : M S Turn :=
  run_loop iterations turns INITIAL_BACKOFF 0.

End Poller.

(** ** [_plant_poll_loop]: the pollers of the execution client

    [poll_epoch] is the loop's closure variable. *)

Record PollState (C : Type) := MkPollState { ps_epoch : Z; ps_host : Host C }.
Arguments MkPollState {C} _ _.
Arguments ps_epoch {C} _.
Arguments ps_host {C} _.

Section Pollers.
Context {C : Type} `{CacheOps C} `{NautilusTypes}.
Variable env : Env C.
Variable now_sec : Z.

(** A client step inside the poll loop. *)
Definition on_host {A} (m : M (Host C) A) : M (PollState C) A :=
  fun s => let '(r, h) := m (ps_host s) in (r, MkPollState (ps_epoch s) h).

Definition batch_fn (stream : string) : M (PollState C) (list pydict) :=
  modify (fun s => MkPollState (pn_epoch (h_pnl (ps_host s))) (ps_host s)) ;;
  r ← on_host (call env (SNextEvents stream));
  mret (match r with RRows rows => rows | _ => [] end).

(** Whether the batch was polled under the current epoch. *)
Definition dispatch_current (order : bool) (on_event : pydict -> M (Host C) unit) (event : pydict)
  : M (PollState C) unit :=
  s ← get;
  whenM (order || (ps_epoch s =? pn_epoch (h_pnl (ps_host s)))) (on_host (on_event event)).

Definition ORDER_POLL_MAX_TRANSIENT : Z := 5.

Definition sleep : M (PollState C) unit := _ ← on_host (wait env); mret tt.

Definition order_poller : Poller (PollState C) :=
  MkPoller true (batch_fn "order") true
    (dispatch_current true (dispatch_order_event env))
    (on_host (resync_order_subscription env))
    (Some (on_host (recover_order_gap env now_sec)))
    ORDER_POLL_MAX_TRANSIENT
    (Some (on_host latch_order_plant))
    (Some (on_host (plant_step resync_start)))
    (Some (on_host (plant_step resync_failed)))
    sleep.

Definition pnl_poller : Poller (PollState C) :=
  MkPoller false (batch_fn "pnl") true
    (dispatch_current false (dispatch_pnl_event env))
    (on_host (resync_pnl_subscription env))
    None
    ORDER_POLL_MAX_TRANSIENT
    (Some (on_host latch_order_plant))
    None None
    sleep.

End Pollers.

(** ** Stopping *)

(** [m] always returns, in a state satisfying [Q]. *)
Definition ends {S A} (m : M S A) (Q : A -> S -> Prop) : Prop :=
  forall s, exists a s', m s = (Ok a, s') /\ Q a s'.

Lemma ends_bind {S A B} (m : M S A) (f : A -> M S B) P Q :
  ends m P -> (forall a s, P a s -> exists b s', f a s = (Ok b, s') /\ Q b s') -> ends (m ≫= f) Q.
Proof.
  intros Hm Hf s. destruct (Hm s) as (a & s1 & E & HP).
  unfold mbind, M_bind. rewrite E. by apply Hf.
Qed.

Lemma ends_ret {S A} (a : A) (Q : A -> S -> Prop) : (forall s, Q a s) -> ends (mret a) Q.
Proof. intros HQ s. by exists a, s. Qed.

Lemma ends_weaken {S A} (m : M S A) P Q :
  ends m P -> (forall a s, P a s -> Q a s) -> ends m Q.
Proof. intros Hm HPQ s. destruct (Hm s) as (a & s' & E & HP). eauto. Qed.

Lemma ends_catch {S A} (m : M S A) hd Q :
  (forall s a s', m s = (Ok a, s') -> Q a s') -> (forall e, ends (hd e) Q) ->
  ends (catchM any_exn m hd) Q.
Proof.
  intros Hm Hh s. unfold catchM, any_exn. destruct (m s) as [[a|e] s'] eqn:E.
  - exists a, s'. split; [done|]. by eapply Hm.
  - apply Hh.
Qed.

Definition anyhow {A S} : A -> S -> Prop := fun _ _ => True.

Lemma ret_any {S A} (a : A) (s : S) : exists b s', (mret a : M S A) s = (Ok b, s') /\ anyhow b s'.
Proof. by exists a, s. Qed.

Section Stopping.
Context {S : Type}.
Variable p : Poller S.
Variable closed : S -> Prop.
Hypothesis Horder : p_order p = true.
Hypothesis Hlatch : ends (optional (p_on_latch p)) (fun _ => closed).
Hypothesis Hfailed : ends (optional (p_on_resync_failed p)) (fun _ => closed).
Hypothesis Hstart : ends (optional (p_on_resync_start p)) anyhow.
Hypothesis Hsleep : ends (p_sleep p) anyhow.

(** A poller that stops leaves a closed state. *)
Definition stops_closed (t : Turn) (s : S) : Prop := t = Stopped -> closed s.

Lemma stopped_after (m : M S unit) : ends m (fun _ => closed) -> ends (m ;; mret Stopped) stops_closed.
Proof.
  intros Hm. eapply ends_bind; [exact Hm|]. intros [] s Hc. exists Stopped, s. by split; [|intros _].
Qed.

Lemma continue_after {A} (m : M S A) (f : A -> M S Turn) :
  ends m anyhow -> (forall a, ends (f a) stops_closed) -> ends (m ≫= f) stops_closed.
Proof. intros Hm Hf. eapply ends_bind; [exact Hm|]. intros a s _. apply Hf. Qed.

Lemma continue_ends b k : ends (mret (Continue b k) : M S Turn) stops_closed.
Proof. by apply ends_ret. Qed.

Lemma resync_ends b k : ends (resync p b k) anyhow.
Proof.
  unfold resync. rewrite Horder. eapply ends_bind; [exact Hstart|]. intros [] s _.
  revert s. change (ends (next ← catchM any_exn (p_on_resync p ;; mret (INITIAL_BACKOFF, 0))
    (fun _ => whenM true (optional (p_on_resync_failed p)) ;; mret (double_backoff b, k));
    p_sleep p ;; mret next) anyhow).
  eapply (ends_bind _ _ anyhow).
  - apply ends_catch; [done|]. intros e. eapply ends_bind; [exact Hfailed|].
    intros [] s _. apply ret_any.
  - intros a s _. revert s. eapply ends_bind; [exact Hsleep|]. intros [] s _. apply ret_any.
Qed.

Lemma recover_gap_ends turns : ends (recover_gap p turns) anyhow.
Proof.
  unfold recover_gap. destruct (p_on_gap p) as [g|]; [|by apply ends_ret].
  induction turns as [|t IH]; cbn [recover_gap_loop]; [by apply ends_ret|].
  eapply (ends_bind _ _ anyhow).
  - apply ends_catch; [done|]. intros e. rewrite Horder.
    eapply ends_bind; [exact Hfailed|]. intros [] s _. revert s.
    eapply ends_bind; [exact Hsleep|]. intros [] s _. apply ret_any.
  - intros [] s _; [apply ret_any|]. apply IH.
Qed.

Lemma handle_events_ends events lost :
  ends (handle_events p events lost) (fun o s => o = None -> closed s).
Proof.
  revert lost. induction events as [|e events IH]; intros lost; cbn [handle_events].
  { by apply ends_ret. }
  case_match; [apply IH|].
  eapply (ends_bind _ _ anyhow).
  { apply ends_catch; [done|]. intros x. by apply ends_ret. }
  intros [x|] s _; [|apply IH]. case_match; [apply IH|]. rewrite Horder.
  revert s. eapply ends_bind; [exact Hlatch|]. intros [] s Hc. by exists None, s.
Qed.

Lemma poll_iteration_ends turns b k : ends (poll_iteration p turns b k) stops_closed.
Proof.
  unfold poll_iteration. apply continue_after.
  { apply ends_catch; [done|]. intros e. by apply ends_ret. }
  intros [events|e].
  - case_match; [apply continue_after; [exact Hsleep|intros _; apply continue_ends]|].
    eapply ends_bind; [apply handle_events_ends|].
    intros [n|] s Hc; [|exists Stopped, s; split; [done|intros _; by apply Hc]]. revert s Hc.
    assert (ends (if 0 <? n then
        match p_on_gap p with
        | Some _ => done_ ← recover_gap p turns;
            mret (if (done_ : bool) then Continue b k else Looping)
        | None => '(b, s) ← resync p b k; mret (Continue b s)
        end else mret (Continue b k)) stops_closed) as He; [|intros s _; apply He].
    case_match; [|apply continue_ends]. case_match.
    + apply continue_after; [apply recover_gap_ends|]. intros []; apply ends_ret; by intros s ?.
    + apply continue_after; [apply resync_ends|]. intros []. apply continue_ends.
  - case_match.
    + cbv zeta. rewrite Horder. case_match; [by apply stopped_after|].
      apply continue_after; [exact Hsleep|intros _; apply continue_ends].
    + case_match; [rewrite Horder; by apply stopped_after|].
      case_match; [apply continue_after; [exact Hsleep|intros _; apply continue_ends]|].
      apply continue_after; [apply resync_ends|]. intros []. apply continue_ends.
Qed.

Lemma run_loop_ends iterations turns b k :
  ends (run_loop p iterations turns b k) stops_closed.
Proof.
  revert b k. induction iterations as [|n IH]; intros b k; cbn [run_loop];
    [apply continue_ends|].
  eapply ends_bind; [apply poll_iteration_ends|]. intros [b' k'| |] s Hc.
  - apply IH.
  - by exists Stopped, s.
  - by exists Looping, s.
Qed.

End Stopping.

Section OrderPoller.
Context {C : Type} `{CacheOps C} `{NautilusTypes}.
Variable env : Env C.

(** (C7) A dead order stream closes the order path.  The order poller never
    raises, whatever the session, the handlers and the other coroutines do; and
    whenever it stops (five transient failures in a row, a terminal stream
    error, a handler failure) it leaves the plant in a state in which no
    command is allowed. *)
Theorem poller_stop_closes_commands now iterations turns (s : PollState C) :
  exists t s', run_poller (order_poller env now) iterations turns s = (Ok t, s')
    /\ (t = Stopped -> commands_open (h_plant (ps_host s')) = false).
Proof.
  apply (run_loop_ends (order_poller env now)
    (fun s => commands_open (h_plant (ps_host s)) = false)).
  - done.
  - intros [e h]. by eexists _, _.
  - intros [e h]. eexists _, _. split; [done|]. simpl. by destruct (h_plant h).
  - intros [e h]. by eexists _, _.
  - intros [e h]. by eexists _, _.
Qed.

End OrderPoller.

(** ** A batch, traced

    The poller with callbacks that record what it does: [outcome e] is what the
    handler of [e] does. *)

Inductive Log := LHandled (e : pydict) | LLatched | LRecovered.

Section Batch.
Variable order : bool.
Variable outcome : pydict -> res unit.

Definition note (l : Log) : M (list Log) unit := modify (fun t => t ++ [l]).

Definition traced_poller (batch : list pydict) : Poller (list Log) :=
  MkPoller order (mret batch) true
    (fun e => note (LHandled e) ;; lift (outcome e))
    (note LRecovered) (if order then Some (note LRecovered) else None) 5
    (Some (note LLatched)) None None (mret tt).

Definition is_gap (e : pydict) : bool := is_str (dget e "type") "gap".

(** The handler of [e] fails in a way the order poller must not ignore. *)
Definition fatal (e : pydict) : bool :=
  order && negb (is_gap e) &&
  match outcome e with Raise x => negb (bool_decide (ex_class x = ExUnreadable)) | Ok _ => false end.

(** An event of which nothing is left: dropped by the stream, or unreadable. *)
Definition is_lost (e : pydict) : bool :=
  is_gap e ||
  match outcome e with Raise x => bool_decide (ex_class x = ExUnreadable) | Ok _ => false end.

(** The events before the first fatal one, and that one. *)
Fixpoint until_fatal (events : list pydict) : list pydict * option pydict :=
  match events with
  | [] => ([], None)
  | e :: rest =>
      if fatal e then ([], Some e)
      else let '(l, f) := until_fatal rest in (e :: l, f)
  end.

Definition handled (events : list pydict) : list Log :=
  LHandled <$> List.filter (fun e => negb (is_gap e)) events.

Definition lost_count (events : list pydict) : Z := Z.of_nat (length (List.filter is_lost events)).

Lemma traced_event batch e t :
  p_on_event (traced_poller batch) e t = (outcome e, t ++ [LHandled e]).
Proof. done. Qed.
Lemma traced_order batch : p_order (traced_poller batch) = order.
Proof. done. Qed.

Lemma handle_events_traced batch events lost t :
  handle_events (traced_poller batch) events lost t =
  match until_fatal events with
  | (l, None) => (Ok (Some (lost + lost_count l)), t ++ handled l)
  | (l, Some f) => (Ok None, t ++ handled l ++ [LHandled f; LLatched])
  end.
Proof.
  revert lost t. induction events as [|e events IH]; intros lost t; cbn [handle_events until_fatal].
  { cbv [mret M_ret]. unfold lost_count, handled. simpl. by rewrite Z.add_0_r, app_nil_r. }
  change (is_str (dget e "type") "gap") with (is_gap e).
  unfold fatal, lost_count, handled, is_lost in *.
  destruct (is_gap e) eqn:Hg.
  - rewrite andb_false_r. cbn [andb]. rewrite IH.
    destruct (until_fatal events) as [l [f|]]; cbn [List.filter]; rewrite Hg; cbn [negb orb];
      [done|]. cbn [length]. do 3 f_equal. lia.
  - rewrite andb_true_r. unfold catchM at 1. unfold mbind at 1, M_bind at 1.
    unfold mbind at 1, M_bind at 1. rewrite traced_event, traced_order.
    change (optional (p_on_latch (traced_poller batch))) with (note LLatched).
    unfold mret at 1, M_ret at 1.
    destruct (outcome e) as [[]|x] eqn:Eo.
    + rewrite andb_false_r, IH.
      destruct (until_fatal events) as [l [f|]]; cbn [List.filter]; rewrite Hg, ?Eo; cbn [negb orb];
        csimpl; by rewrite <- ?app_assoc.
    + unfold any_exn. unfold mret at 1, M_ret at 1. cbv iota beta.
      destruct (bool_decide (ex_class x = ExUnreadable)) eqn:Hu.
      * rewrite andb_false_r, IH.
        destruct (until_fatal events) as [l [f|]]; cbn [List.filter]; rewrite Hg, ?Eo, ?Hu;
          cbn [negb orb]; csimpl; rewrite <- ?app_assoc; [done|]. cbn [length]. do 3 f_equal. lia.
      * rewrite andb_true_r. destruct order.
        -- unfold note. run_monad. csimpl. by rewrite <- app_assoc.
        -- rewrite IH. destruct (until_fatal events) as [l [f|]]; cbn [List.filter];
             rewrite Hg, ?Eo, ?Hu; cbn [negb orb]; csimpl; by rewrite <- ?app_assoc.
Qed.

(** One batch, one recovery.  Every event of a batch is offered to its
    handler exactly once and in order, gaps excepted; an unreadable event does
    not stop the ones behind it; when the order handler fails otherwise, the
    plant is latched, the poller stops and nothing further of the batch is
    handled; else venue state is re-read exactly once, after the whole batch,
    when anything was lost, and not at all when nothing was. *)
Theorem batch_protocol (batch : list pydict) (turns : nat) (b k : Z) (t : list Log) :
  let '(l, f) := until_fatal batch in
  let recovery := if 0 <? lost_count l then [LRecovered] else [] in
  (poll_iteration (traced_poller batch) (S turns) b k t).2 =
    match f with
    | Some f => t ++ handled l ++ [LHandled f; LLatched]
    | None => t ++ handled l ++ recovery
    end.
Proof.
  unfold poll_iteration. unfold mbind at 1, M_bind at 1.
  change (catchM any_exn (events ← poll_session_events (traced_poller batch); mret (Ok events))
            (fun e => mret (Raise e)) t) with (Ok (Ok batch) : res (res (list pydict)), t).
  cbv iota beta. change (p_batched (traced_poller batch)) with true. rewrite andb_false_r.
  pose proof (handle_events_traced batch batch 0 t) as Hh.
  destruct (until_fatal batch) as [l [f|]]; unfold mbind at 1, M_bind at 1; rewrite Hh; [done|].
  rewrite Z.add_0_l. destruct (0 <? lost_count l); [|by rewrite app_nil_r].
  clear Hh. unfold recover_gap, resync, traced_poller.
  destruct order; cbn; unfold note; run_monad; csimpl; by rewrite <- app_assoc.
Qed.

End Batch.

(** ** Batches polled before an invalidation *)

Section Stale.
Context {C : Type} `{CacheOps C} `{NautilusTypes}.
Variable env : Env C.

Lemma stale_events (events : list pydict) lost (s : PollState C) :
  ps_epoch s <> pn_epoch (h_pnl (ps_host s)) ->
  forallb (fun e => negb (is_gap e)) events = true ->
  handle_events (pnl_poller env) events lost s = (Ok (Some lost), s).
Proof.
  intros Hs. induction events as [|e events IH]; cbn [forallb handle_events]; [done|].
  intros [Hg Hr]%andb_true_iff. apply negb_true_iff in Hg. unfold is_gap in Hg. rewrite Hg.
  assert (catchM any_exn (p_on_event (pnl_poller env) e ;; mret None)
            (fun x => mret (Some x)) s = (Ok None, s)) as Hd.
  { unfold catchM, mbind, M_bind. cbn [p_on_event pnl_poller]. unfold dispatch_current.
    unfold mbind, M_bind, get. cbn [orb].
    destruct (Z.eqb_spec (ps_epoch s) (pn_epoch (h_pnl (ps_host s)))); [done|]. done. }
  unfold mbind at 1, M_bind at 1. rewrite Hd. by apply IH.
Qed.

(** The state in which the client resumes after polling a PnL batch. *)
Definition polled_host (h : Host C) : Host C :=
  e_interleave env (h_calls h) (next_call (push_out (OSession (SNextEvents "pnl")) h)).

(** Exposure never comes from a stream that was invalidated.  When the
    PnL epoch moved while a batch was being fetched (a resync, a reconnect or a
    gap recovery ran in between), the whole batch is dropped: the client is
    left exactly as the other coroutines left it. *)
Theorem stale_pnl_batch_ignored turns b k (s : PollState C) rows :
  let h := ps_host s in
  e_session env (h_calls h) (SNextEvents "pnl") = Ok (RRows rows) ->
  pn_epoch (h_pnl (polled_host h)) <> pn_epoch (h_pnl h) ->
  forallb (fun e => negb (is_gap e)) rows = true ->
  poll_iteration (pnl_poller env) turns b k s =
    (Ok (Continue b k), MkPollState (pn_epoch (h_pnl h)) (polled_host h)).
Proof.
  cbv zeta. intros Es Hep Hg. unfold poll_iteration, poll_session_events.
  assert (p_poll (pnl_poller env) s
          = (Ok rows, MkPollState (pn_epoch (h_pnl (ps_host s))) (polled_host (ps_host s)))) as Hp.
  { cbn [p_poll pnl_poller]. unfold batch_fn, on_host, mbind, M_bind, modify, call.
    cbn [ps_host ps_epoch]. by rewrite Es. }
  unfold mbind at 1, M_bind at 1. unfold catchM at 1. unfold mbind at 1, M_bind at 1.
  unfold catchM at 1. rewrite Hp. unfold mret at 1, M_ret at 1. cbv iota beta.
  change (p_batched (pnl_poller env)) with true. rewrite andb_false_r.
  unfold mbind at 1, M_bind at 1. rewrite stale_events; [done| |done]. simpl. congruence.
Qed.

End Stale.

#[local] Existing Instance PlainTypes.

(** Another coroutine resyncs the PnL stream while the batch is fetched. *)
Definition resyncing_world : Env MapCache :=
  MkEnv (e_clock Sample.env)
    (fun _ c => match c with SNextEvents _ => Ok (RRows [pnl_event "MNQZ6" (VInt 3)]) | _ => Ok RUnit end)
    (fun _ => on_pnl invalidate_pnl) (fun _ => true) (fun _ => Ok tt) (fun _ => Ok tt).

Lemma stale_pnl_batch_ignored_witness :
  let s := MkPollState 0 (Sample.host [] Live) in
  poll_iteration (pnl_poller resyncing_world) 1 50 0 s =
    (Ok (Continue 50 0), MkPollState 0 (polled_host resyncing_world (Sample.host [] Live))).
Proof.
  exact (stale_pnl_batch_ignored resyncing_world 1 50 0 (MkPollState 0 (Sample.host [] Live))
           [pnl_event "MNQZ6" (VInt 3)] eq_refl ltac:(evaluate) eq_refl).
Defined.
