(* ===== verification/Recovery.v ===== *)
(** * The transport recovery bridge

    [TransportRecoveryBridge] of [recovery_bridge.py], as the execution client
    wires it ([_build_recovery] of [execution.py]: every break and every failed
    attempt latches the order plant).  Session events arrive on the transport
    thread and hop to the client's loop, a FIFO of callbacks; the restore task
    makes attempts until one succeeds or [max_attempts] failed.

    A step of the machine is one event, one callback or the end of one attempt;
    every interleaving is a sequence of steps.  [rb_newest] and [rb_given_up] are
    ghosts: the newest generation whose callback ran since the last break, and
    the newest generation whose attempts were exhausted. *)

From stdpp Require Import base list relations.
From Stdlib Require Import ZArith Lia.
From S2P Require Import Prelude Plant.
Open Scope list_scope.
Open Scope Z_scope.

Inductive SessionEvent :=
  | Interrupted
  | Resumed (generation : Z)
  | RecoveryFailed.

Inductive Callback :=
  | StopRestore                 (* [_stop_restore(handler, event)] *)
  | Start (generation : Z).     (* [_start] of [schedule] *)

Record Bridge := MkBridge {
  rb_attached : bool;
  rb_loop : bool;               (* the client's loop exists *)
  rb_queue : list Callback;
  rb_pending : Z;
  rb_last : Z;
  rb_task : option (Z * nat);   (* generation, attempt under way *)
  rb_plant : PlantState;
  rb_newest : Z;
  rb_given_up : Z
}.

#[export] Instance Callback_eq_dec : EqDecision Callback.
Proof. solve_decision. Defined.

Section Bridge.
Variable max_attempts : nat.

Definition set_plant (p : PlantState) (b : Bridge) : Bridge :=
  MkBridge (rb_attached b) (rb_loop b) (rb_queue b) (rb_pending b) (rb_last b) (rb_task b) p
    (rb_newest b) (rb_given_up b).
Definition set_queue (q : list Callback) (b : Bridge) : Bridge :=
  MkBridge (rb_attached b) (rb_loop b) q (rb_pending b) (rb_last b) (rb_task b) (rb_plant b)
    (rb_newest b) (rb_given_up b).

Definition latch_now (b : Bridge) : Bridge := set_plant (latch (rb_plant b)) b.

Definition attach (b : Bridge) : Bridge :=
  MkBridge true (rb_loop b) (rb_queue b) (rb_pending b) (rb_last b) (rb_task b) (rb_plant b)
    (rb_newest b) (rb_given_up b).

Definition detach (b : Bridge) : Bridge :=
  MkBridge false (rb_loop b) (rb_queue b) 0 0 None (rb_plant b) 0 0.

(** [_stop_restore]: the handlers [on_down] and [on_failed] latch. *)
Definition stop_restore (b : Bridge) : Bridge :=
  MkBridge (rb_attached b) (rb_loop b) (rb_queue b) 0 (rb_last b) None (latch (rb_plant b))
    0 (rb_given_up b).

Definition latch_and_hop (b : Bridge) : Bridge :=
  let b1 := latch_now b in
  if rb_loop b1 then set_queue (rb_queue b1 ++ [StopRestore]) b1 else stop_restore b1.

Definition schedule (generation : Z) (b : Bridge) : Bridge :=
  if rb_loop b then set_queue (rb_queue b ++ [Start generation]) b else b.

(** Events reach the bridge only while its listener is attached. *)
Definition on_event (e : SessionEvent) (b : Bridge) : Bridge :=
  if negb (rb_attached b) then b
  else
    match e with
    | Interrupted | RecoveryFailed => latch_and_hop b
    | Resumed g => schedule g b
    end.

Definition start (generation : Z) (b : Bridge) : Bridge :=
  if generation <=? rb_last b then b
  else
    let newest := Z.max (rb_newest b) generation in
    match rb_task b with
    | Some t =>
        MkBridge (rb_attached b) (rb_loop b) (rb_queue b) (Z.max (rb_pending b) generation)
          (rb_last b) (Some t) (rb_plant b) newest (rb_given_up b)
    | None =>
        MkBridge (rb_attached b) (rb_loop b) (rb_queue b) (rb_pending b)
          (rb_last b) (Some (generation, 1%nat)) (rb_plant b) newest (rb_given_up b)
    end.

Definition run_callback (b : Bridge) : Bridge :=
  match rb_queue b with
  | [] => b
  | StopRestore :: q => stop_restore (set_queue q b)
  | Start g :: q => start g (set_queue q b)
  end.

(** The tail of the [while] loop of [_run], after the attempts of [generation]. *)
Definition next_generation (generation : Z) (b : Bridge) : Bridge :=
  let pending := rb_pending b in
  MkBridge (rb_attached b) (rb_loop b) (rb_queue b) 0 (rb_last b)
    (if pending <=? Z.max generation (rb_last b) then None else Some (pending, 1%nat))
    (rb_plant b) (rb_newest b) (rb_given_up b).

Definition set_last (g : Z) (b : Bridge) : Bridge :=
  MkBridge (rb_attached b) (rb_loop b) (rb_queue b) (rb_pending b) g (rb_task b) (rb_plant b)
    (rb_newest b) (rb_given_up b).
Definition set_task (t : option (Z * nat)) (b : Bridge) : Bridge :=
  MkBridge (rb_attached b) (rb_loop b) (rb_queue b) (rb_pending b) (rb_last b) t (rb_plant b)
    (rb_newest b) (rb_given_up b).
Definition give_up_on (g : Z) (b : Bridge) : Bridge :=
  MkBridge (rb_attached b) (rb_loop b) (rb_queue b) (rb_pending b) (rb_last b) (rb_task b)
    (rb_plant b) (rb_newest b) (Z.max (rb_given_up b) g).

(** The attempt under way ends: [true] when [restore] returned (it has then
    re-armed the plant), [false] when it raised. *)
Definition attempt_ends (ok : bool) (b : Bridge) : Bridge :=
  match rb_task b with
  | None => b
  | Some (g, n) =>
      if ok then next_generation g (set_last g (set_plant Live b))
      else
        let b1 := set_plant (latch (rb_plant b)) b in
        if (n <? max_attempts)%nat then set_task (Some (g, S n)) b1
        else next_generation g (give_up_on g b1)
  end.

(** ** Interleavings *)

Inductive BridgeStep :=
  | DoEvent (e : SessionEvent) | DoCallback | DoAttempt (ok : bool) | DoAttach | DoDetach.

Definition bridge_step (b : Bridge) (s : BridgeStep) : Bridge :=
  match s with
  | DoEvent e => on_event e b
  | DoCallback => run_callback b
  | DoAttempt ok => attempt_ends ok b
  | DoAttach => attach b
  | DoDetach => detach b
  end.

Inductive bstep : Bridge -> Bridge -> Prop :=
  | bstep_intro b s : bstep b (bridge_step b s).

Definition fresh_bridge : Bridge := MkBridge false true [] 0 0 None Disconnected 0 0.

(** ** The invariant *)

(** Every generation whose callback ran since the last break is restored, being
    restored, queued behind the running restore, or was given up on. *)
Record bridge_ok (b : Bridge) : Prop := MkBridgeOk {
  ok_covered :
    rb_newest b <= Z.max (rb_last b) (rb_given_up b)
    \/ exists g n, rb_task b = Some (g, n) /\ rb_newest b <= Z.max g (rb_pending b);
  ok_task : forall g n, rb_task b = Some (g, n) ->
    rb_last b < g /\ (1 <= n)%nat /\ ((1 <= max_attempts)%nat -> (n <= max_attempts)%nat);
  ok_pending : rb_task b = None -> rb_pending b = 0;
  ok_nonneg : 0 <= rb_last b /\ 0 <= rb_given_up b /\ 0 <= rb_pending b
}.

Lemma fresh_ok : bridge_ok fresh_bridge.
Proof. split; simpl; [lia|done|done|lia]. Qed.

Lemma stop_restore_ok b : bridge_ok b -> bridge_ok (stop_restore b).
Proof. intros [_ _ _ ?]. split; simpl; [lia|done|done|lia]. Qed.

Lemma queue_ok q b : bridge_ok b -> bridge_ok (set_queue q b).
Proof. by intros [? ? ? ?]; split. Qed.
Lemma plant_ok p b : bridge_ok b -> bridge_ok (set_plant p b).
Proof. by intros [? ? ? ?]; split. Qed.

Lemma start_ok g b : bridge_ok b -> bridge_ok (start g b).
Proof.
  intros [Hc Ht Hp Hn]. unfold start. destruct (Z.leb_spec g (rb_last b)); [by split|].
  destruct (rb_task b) as [[g' n]|] eqn:E.
  - split; simpl; [|done|done|lia].
    destruct Hc as [Hc|(? & ? & [= <- <-] & Hc)].
    + destruct (Z.le_ge_cases g (rb_newest b)); [left; lia|]. right. exists g', n. split; [done|lia].
    + right. exists g', n. split; [done|lia].
  - split; simpl; [|intros ? ? [= <- <-]; lia|done|lia].
    destruct Hc as [Hc|(? & ? & ? & _)]; [|done].
    destruct (Z.le_ge_cases g (rb_newest b)); [left; lia|]. right. exists g, 1%nat. split; [done|lia].
Qed.

(** After the attempts of [g] ended, with [g] restored or given up on. *)
Lemma next_generation_ok g b :
  0 <= rb_last b -> 0 <= rb_given_up b ->
  rb_newest b <= Z.max (Z.max (rb_last b) (rb_given_up b)) (rb_pending b) ->
  g <= Z.max (rb_last b) (rb_given_up b) -> bridge_ok (next_generation g b).
Proof.
  intros Hl Hg Hn Hle. unfold next_generation.
  destruct (Z.leb_spec (rb_pending b) (Z.max g (rb_last b))); split; simpl; try done; try lia.
  - destruct (Z.le_gt_cases (rb_newest b) (Z.max (rb_last b) (rb_given_up b))); [by left|].
    right. exists (rb_pending b), 1%nat. split; [done|lia].
  - intros ? ? [= <- <-]. lia.
Qed.

Lemma attempt_ok r b : bridge_ok b -> bridge_ok (attempt_ends r b).
Proof.
  intros Hb. pose proof Hb as [Hc Ht Hp Hn]. unfold attempt_ends.
  destruct (rb_task b) as [[g n]|] eqn:E; [|done].
  destruct (Ht g n eq_refl) as (Hlt & H1 & Hmax).
  assert (rb_newest b <= Z.max (Z.max g (rb_pending b)) (Z.max (rb_last b) (rb_given_up b))) as Hcov
    by (destruct Hc as [?|(? & ? & [= <- <-] & ?)]; lia).
  destruct r; [apply next_generation_ok; simpl; lia|].
  cbv zeta. destruct (Nat.ltb_spec n max_attempts).
  - split; simpl; [|intros ? ? [= <- <-]; lia|done|lia].
    destruct Hc as [?|(? & ? & [= <- <-] & ?)]; [by left|]. right. eauto.
  - apply next_generation_ok; simpl; lia.
Qed.

Lemma bridge_step_ok b s : bridge_ok b -> bridge_ok (bridge_step b s).
Proof.
  intros Hb. destruct s as [e| |r| |]; simpl.
  - unfold on_event. destruct (rb_attached b); simpl; [|done]. unfold latch_and_hop, latch_now, schedule.
    destruct e; case_match; auto using queue_ok, plant_ok, stop_restore_ok.
  - unfold run_callback. destruct (rb_queue b) as [|[|g] q];
      auto using stop_restore_ok, start_ok, queue_ok.
  - by apply attempt_ok.
  - by destruct Hb; split.
  - split; simpl; [lia|done|done|lia].
Qed.

(** *** Termination of a restore *)

(** Attempts left for the running generation and for one queued behind it. *)
Definition attempts_left (b : Bridge) : nat :=
  match rb_task b with
  | None => 0
  | Some (g, n) =>
      (max_attempts + 1 - n) + (if rb_pending b <=? Z.max g (rb_last b) then 0 else max_attempts)
  end.

Lemma attempt_progress r b :
  (1 <= max_attempts)%nat -> bridge_ok b -> rb_task b <> None ->
  (attempts_left (attempt_ends r b) < attempts_left b)%nat.
Proof.
  intros Hm [_ Ht _ Hn] Hs. unfold attempts_left, attempt_ends.
  destruct (rb_task b) as [[g n]|] eqn:E; [|done].
  destruct (Ht g n eq_refl) as (Hlt & H1 & Hmax). specialize (Hmax Hm).
  destruct r; [|cbv zeta; destruct (Nat.ltb_spec n max_attempts)]; simpl;
    repeat (match goal with |- context [Z.leb ?x ?y] => destruct (Z.leb_spec x y) end; simpl); lia.
Qed.

Definition attempts (outcomes : list bool) (b : Bridge) : Bridge :=
  fold_left (fun b r => attempt_ends r b) outcomes b.

Lemma attempts_finish outcomes b :
  (1 <= max_attempts)%nat -> bridge_ok b -> (attempts_left b <= length outcomes)%nat ->
  rb_task (attempts outcomes b) = None /\ bridge_ok (attempts outcomes b).
Proof.
  intros Hm. revert b. induction outcomes as [|r outcomes IH]; intros b Hb Hl; simpl.
  - split; [|done]. pose proof Hb as [_ Ht _ _]. unfold attempts_left in Hl. simpl in Hl.
    destruct (rb_task b) as [[g n]|] eqn:E; [|done].
    destruct (Ht g n eq_refl) as (_ & _ & Hmax). specialize (Hmax Hm). lia.
  - apply IH; [by apply attempt_ok|].
    destruct (rb_task b) as [t|] eqn:E.
    + pose proof (attempt_progress r b Hm Hb). simpl in Hl. rewrite E in *. 
      assert (Some t <> None) as Ht by done. specialize (H Ht). lia.
    + unfold attempt_ends. rewrite E. simpl in Hl. unfold attempts_left. rewrite E. lia.
Qed.

(** (C9) No recovery is lost and every restore ends.  In every state the
    bridge can reach, whatever the order of session events, loop callbacks,
    attempts, attaches and detaches: the newest generation announced since the
    last break is restored, given up on after [max_attempts] failures, or owned
    by the running restore (as its target or queued behind it), the target
    being always newer than the last one restored; and from there at most
    [2 * max_attempts] further attempts end the restore, whatever their
    outcomes, with that generation restored or given up on. *)
Theorem recovery_covers_newest b (outcomes : list bool) :
  (1 <= max_attempts)%nat -> rtc bstep fresh_bridge b ->
  bridge_ok b
  /\ ((2 * max_attempts <= length outcomes)%nat ->
      let b' := attempts outcomes b in
      rb_task b' = None /\ rb_newest b' <= Z.max (rb_last b') (rb_given_up b')).
Proof.
  intros Hm Hr.
  assert (bridge_ok b) as Hb.
  { eapply (rtc_ind_r (fun b => bridge_ok b)); [apply fresh_ok| |exact Hr].
    intros x y _ [b0 s] Hx. by apply bridge_step_ok. }
  split; [done|]. intros Hl. cbv zeta.
  destruct (attempts_finish outcomes b) as [Ht [Hc _ _ _]]; [done|done| |].
  - unfold attempts_left. destruct (rb_task b) as [[g n]|] eqn:E; [|lia].
    destruct (ok_task _ Hb g n E) as (_ & ? & _). case_match; lia.
  - split; [done|]. destruct Hc as [?|(? & ? & E & _)]; [done|]. congruence.
Qed.

End Bridge.

(** ** Witness: a newer generation arrives while an older restore is retrying *)

Definition busy_bridge : Bridge :=
  fold_left (bridge_step 5)
    [DoAttach; DoEvent Interrupted; DoCallback; DoEvent (Resumed 1); DoCallback;
     DoAttempt false; DoEvent (Resumed 2); DoCallback] fresh_bridge.

Lemma steps_reachable (max_attempts : nat) (steps : list BridgeStep) b :
  rtc (bstep max_attempts) b (fold_left (bridge_step max_attempts) steps b).
Proof.
  revert b. induction steps as [|s steps IH]; intros b; simpl; [done|].
  eapply rtc_l; [apply bstep_intro|apply IH].
Qed.

Lemma recovery_covers_newest_witness :
  rb_task busy_bridge = Some (1, 2%nat) /\ rb_pending busy_bridge = 2
  /\ let b' := attempts 5 (replicate 10 true) busy_bridge in
     rb_task b' = None /\ rb_newest b' <= Z.max (rb_last b') (rb_given_up b').
Proof.
  split; [reflexivity|]. split; [reflexivity|].
  apply (recovery_covers_newest 5 busy_bridge (replicate 10 true)).
  - lia.
  - apply steps_reachable.
  - vm_compute. lia.
Defined.

(** A [Resumed] whose callback is already queued when the client detaches still
    starts a restore: [detach] forgets the generations, so the callback passes
    the staleness check and spawns a task nobody will cancel. *)
Lemma queued_resume_survives_detach :
  let b := fold_left (bridge_step 5)
             [DoAttach; DoEvent (Resumed 1); DoDetach; DoCallback] fresh_bridge in
  rb_attached b = false /\ rb_task b = Some (1, 1%nat)
  /\ rb_plant (bridge_step 5 b (DoAttempt true)) = Live.
Proof. split_and!; reflexivity. Qed.
