(* ===== verification/Framing.v ===== *)
(** * Length-delimited frames over one socket

    [framing.py] and [FramedConnection] of [framed_conn.py]: a u32 big-endian
    length, then the payload.  Received bytes go through one buffer; a read
    that times out part-way keeps what it got.

    Bytes are integers in [0, 256).  The socket is what it will deliver
    ([Delivery]): a chunk, a timeout, or the end of the stream.  Protobuf
    parsing of a payload is outside the sources; a frame is its payload. *)

From stdpp Require Import base list strings.
From Stdlib Require Import ZArith Lia.
From S2P Require Import Prelude.
Open Scope list_scope.
Open Scope Z_scope.

Definition byte : Type := Z.

Definition MAX_FRAME_LEN : Z := 16 * 1024 * 1024.

(** [n.to_bytes(4, "big")] and [struct.unpack("!I", ...)]. *)
Definition to_bytes4 (n : Z) : list byte :=
  [n / 2 ^ 24 mod 256; n / 2 ^ 16 mod 256; n / 2 ^ 8 mod 256; n mod 256].

Definition unpack4 (b : list byte) : Z :=
  fold_left (fun acc x => acc * 256 + x) b 0.

Definition zlen {A} (l : list A) : Z := Z.of_nat (length l).

Definition frame_error : exn := Exn ExValue None "frame too large".

Definition encode_frame (payload : list byte) : res (list byte) :=
  if MAX_FRAME_LEN <? zlen payload then Raise frame_error
  else Ok (to_bytes4 (zlen payload) ++ payload).

(** ** The connection *)

Inductive Delivery := Data (chunk : list byte) | NoData | Closed.

Record Conn := MkConn {
  cn_open : bool;               (* [self._sock is not None] *)
  cn_rx : list byte;            (* [self._rx], empty when [None] *)
  cn_in : list Delivery;        (* what the socket will deliver *)
  cn_sent : list byte
}.

Definition gateway_error (code : string) : exn := Exn ExGateway (Some code) "".
Definition timeout_error : exn := Exn ExTimeout None "timed out".

Definition not_connected : exn := gateway_error "not_connected".

Definition close_sock (c : Conn) : Conn := MkConn false [] (cn_in c) (cn_sent c).

(** [_write_frame]: [writable] says whether [sendall] succeeds. *)
Definition write_frame (writable : bool) (payload : list byte) : M Conn unit :=
  c ← get;
  if negb (cn_open c) then throw not_connected
  else
    bytes ← lift (encode_frame payload);
    if writable then
      modify (fun c => MkConn (cn_open c) (cn_rx c) (cn_in c) (cn_sent c ++ bytes))
    else modify close_sock ;; throw (gateway_error "not_sent").

(** The [while len(rx) < n] loop of [_fill]. *)
Fixpoint fill_loop (n : Z) (rx : list byte) (ds : list Delivery)
  : res unit * (list byte * list Delivery) :=
  if n <=? zlen rx then (Ok tt, (rx, ds))
  else
    match ds with
    | [] => (Raise timeout_error, (rx, []))
    | NoData :: ds' => (Raise timeout_error, (rx, ds'))
    | Closed :: _ => (Raise (gateway_error "eof"), (rx, ds))
    | Data [] :: _ => (Raise (gateway_error "eof"), (rx, ds))
    | Data chunk :: ds' => fill_loop n (rx ++ chunk) ds'
    end.

Definition fill (n : Z) : M Conn (list byte) :=
  c ← get;
  if negb (cn_open c) then throw not_connected
  else
    let '(r, (rx, ds)) := fill_loop n (cn_rx c) (cn_in c) in
    modify (fun c => MkConn (cn_open c) rx ds (cn_sent c)) ;;
    _ ← lift r;
    mret rx.

Definition read_frame : M Conn (list byte) :=
  rx ← fill 4;
  let length := unpack4 (take 4 rx) in
  if MAX_FRAME_LEN <? length then throw (gateway_error "frame_too_large")
  else
    rx ← fill (4 + length);
    let n := Z.to_nat (4 + length) in
    modify (fun c => MkConn (cn_open c) (drop n (cn_rx c)) (cn_in c) (cn_sent c)) ;;
    mret (take (Z.to_nat length) (drop 4 rx)).

(** Read frames, trying again after a timeout, [calls] reads in all. *)
Fixpoint read_frames (calls : nat) : M Conn (list (list byte)) :=
  match calls with
  | O => mret []
  | S n =>
      here ← catchM (fun e => bool_decide (ex_class e = ExTimeout))
               (p ← read_frame; mret [p]) (fun _ => mret []);
      rest ← read_frames n;
      mret (here ++ rest)
  end.

(** ** Facts *)

Lemma unpack_to_bytes n : 0 <= n < 2 ^ 32 -> unpack4 (to_bytes4 n) = n.
Proof.
  intros Hn. unfold unpack4, to_bytes4. cbn [fold_left].
  change (2 ^ 24) with 16777216. change (2 ^ 16) with 65536. change (2 ^ 8) with 256.
  change (2 ^ 32) with 4294967296 in Hn.
  Z.to_euclidean_division_equations. lia.
Qed.

(** The bytes a connection has or will deliver. *)
Definition data_of (ds : list Delivery) : list byte :=
  concat ((fun d => match d with Data c => c | _ => [] end) <$> ds).

Definition stream (c : Conn) : list byte := cn_rx c ++ data_of (cn_in c).

(** The peer delivers its bytes in non-empty chunks and does not hang up. *)
Definition delivers (ds : list Delivery) : Prop :=
  Forall (fun d => match d with Data c => c <> [] | NoData => True | Closed => False end) ds.

Definition timeouts (ds : list Delivery) : nat :=
  length (List.filter (fun d => match d with NoData => true | _ => false end) ds).

(** [fill_loop] loses no byte; it returns when the bytes are there, and a
    timeout consumes the delivery that caused it. *)
Lemma fill_loop_spec n rx ds :
  delivers ds ->
  exists r rx' ds', fill_loop n rx ds = (r, (rx', ds'))
    /\ rx' ++ data_of ds' = rx ++ data_of ds /\ delivers ds'
    /\ match r with
       | Ok _ => n <= zlen rx' /\ timeouts ds' = timeouts ds
       | Raise e => e = timeout_error /\ zlen rx' < n
                    /\ (timeouts ds = S (timeouts ds') \/ ds' = [] /\ timeouts ds = timeouts ds')
       end.
Proof.
  revert rx. induction ds as [|d ds IH]; intros rx Hd; simpl.
  - destruct (Z.leb_spec n (zlen rx)); eexists _, _, _; split; try reflexivity; split_and!; auto.
  - destruct (Z.leb_spec n (zlen rx)).
    { eexists _, _, _. split; [reflexivity|]. by split_and!. }
    apply Forall_cons in Hd as [Hd Hds]. destruct d as [[|x c]| |]; try done.
    + destruct (IH (rx ++ x :: c) Hds) as (r & rx' & ds' & E & Hs & Hd' & Hr).
      exists r, rx', ds'. split; [done|]. split_and!; [|done|].
      * rewrite Hs. unfold data_of. csimpl. by rewrite <- app_assoc.
      * destruct r; [done|]. destruct Hr as (? & ? & Ht). done.
    + eexists _, _, _. split; [reflexivity|]. split_and!; try done. left. done.
Qed.

(** [fill] on an open connection. *)
Lemma fill_spec n c :
  cn_open c = true -> delivers (cn_in c) ->
  exists r c', fill n c = (r, c') /\ cn_open c' = true /\ delivers (cn_in c')
    /\ cn_sent c' = cn_sent c /\ stream c' = stream c
    /\ match r with
       | Ok rx => rx = cn_rx c' /\ n <= zlen rx /\ timeouts (cn_in c') = timeouts (cn_in c)
       | Raise e => e = timeout_error /\ zlen (cn_rx c') < n
                    /\ (timeouts (cn_in c) = S (timeouts (cn_in c'))
                        \/ cn_in c' = [] /\ timeouts (cn_in c) = timeouts (cn_in c'))
       end.
Proof.
  intros Ho Hd. unfold fill, mbind, M_bind, get. rewrite Ho. cbn [negb].
  destruct (fill_loop_spec n (cn_rx c) (cn_in c) Hd) as (r & rx & ds & E & Hs & Hd' & Hr).
  rewrite E. cbv [modify lift mret M_ret].
  destruct r as [[]|e]; eexists _, _; (split; [reflexivity|]); simpl; rewrite Ho;
    split_and!; naive_solver.
Qed.

Lemma zlen_app {A} (l l' : list A) : zlen (l ++ l') = zlen l + zlen l'.
Proof. unfold zlen. rewrite length_app. lia. Qed.

Lemma zlen_nonneg {A} (l : list A) : 0 <= zlen l.
Proof. unfold zlen. lia. Qed.

(** The header and payload of the frame at the head of a stream, once buffered. *)
Lemma frame_head (rx more p rest : list byte) :
  zlen p <= MAX_FRAME_LEN -> rx ++ more = to_bytes4 (zlen p) ++ p ++ rest -> 4 <= zlen rx ->
  unpack4 (take 4 rx) = zlen p.
Proof.
  intros Hp E Hl. pose proof (zlen_nonneg p).
  assert (take 4 rx = to_bytes4 (zlen p)) as ->.
  { apply (f_equal (take 4)) in E. rewrite take_app_le in E by (unfold zlen in Hl; lia).
    rewrite E. done. }
  apply unpack_to_bytes. unfold MAX_FRAME_LEN in Hp. lia.
Qed.

Lemma frame_body (rx more p rest : list byte) :
  rx ++ more = to_bytes4 (zlen p) ++ p ++ rest -> 4 + zlen p <= zlen rx ->
  let n := Z.to_nat (4 + zlen p) in
  take (Z.to_nat (zlen p)) (drop 4 rx) = p /\ drop n rx ++ more = rest.
Proof.
  intros E Hl. cbv zeta. unfold zlen in *.
  assert (drop 4 rx ++ more = p ++ rest) as E4.
  { apply (f_equal (drop 4)) in E. rewrite drop_app_le in E by lia. done. }
  replace (Z.to_nat (Z.of_nat (length p))) with (length p) by lia.
  replace (Z.to_nat (4 + Z.of_nat (length p))) with (4 + length p)%nat by lia.
  rewrite <- drop_drop. split.
  - apply (f_equal (take (length p))) in E4.
    rewrite take_app_le in E4 by (rewrite length_drop; lia). rewrite E4.
    by rewrite take_app_length.
  - apply (f_equal (drop (length p))) in E4.
    rewrite drop_app_le in E4 by (rewrite length_drop; lia). rewrite E4.
    by rewrite drop_app_length.
Qed.

(** A timeout never happens with the bytes it waits for delivered. *)
Lemma timeout_progress c c' n :
  stream c' = stream c -> n <= zlen (stream c) -> zlen (cn_rx c') < n ->
  (timeouts (cn_in c) = S (timeouts (cn_in c')) \/ cn_in c' = [] /\ timeouts (cn_in c) = timeouts (cn_in c')) ->
  timeouts (cn_in c) = S (timeouts (cn_in c')).
Proof.
  intros Hs Hn Hl [Ht|[Hi _]]; [done|]. exfalso.
  rewrite <- Hs in Hn. unfold stream in Hn. rewrite Hi in Hn. unfold data_of in Hn.
  csimpl in Hn. rewrite app_nil_r in Hn. lia.
Qed.

(** One read, with a whole frame on its way. *)
Lemma read_frame_step c p rest :
  cn_open c = true -> delivers (cn_in c) -> zlen p <= MAX_FRAME_LEN ->
  stream c = to_bytes4 (zlen p) ++ p ++ rest ->
  exists r c', read_frame c = (r, c') /\ cn_open c' = true /\ delivers (cn_in c')
    /\ ((r = Ok p /\ stream c' = rest /\ timeouts (cn_in c') = timeouts (cn_in c))
        \/ (r = Raise timeout_error /\ stream c' = stream c
            /\ timeouts (cn_in c) = S (timeouts (cn_in c')))).
Proof.
  intros Ho Hd Hp Hs. pose proof (zlen_nonneg p). pose proof (zlen_nonneg rest).
  assert (4 + zlen p <= zlen (stream c)) as Hlen.
  { rewrite Hs, !zlen_app. unfold zlen at 2. simpl. lia. }
  unfold read_frame. unfold mbind at 1, M_bind at 1.
  destruct (fill_spec 4 c Ho Hd) as (r1 & c1 & E1 & Ho1 & Hd1 & _ & Hs1 & Hr1). rewrite E1.
  destruct r1 as [rx1|e].
  2:{ destruct Hr1 as (-> & Hl & Ht). eexists _, c1. split_and!; [done..|]. right.
      split_and!; [done|done|]. eapply timeout_progress; [exact Hs1| |exact Hl|exact Ht]. lia. }
  destruct Hr1 as (-> & Hl1 & Ht1). rewrite Hs in Hs1.
  rewrite (frame_head _ _ _ _ Hp Hs1 Hl1).
  destruct (Z.ltb_spec MAX_FRAME_LEN (zlen p)); [lia|].
  unfold mbind at 1, M_bind at 1.
  destruct (fill_spec (4 + zlen p) c1 Ho1 Hd1) as (r2 & c2 & E2 & Ho2 & Hd2 & _ & Hs2 & Hr2).
  rewrite E2. destruct r2 as [rx2|e].
  2:{ destruct Hr2 as (-> & Hl & Ht). eexists _, c2. split_and!; [done..|]. right.
      split_and!; [done|congruence|]. rewrite <- Ht1.
      eapply timeout_progress; [exact Hs2| |exact Hl|exact Ht]. rewrite Hs1, <- Hs. lia. }
  destruct Hr2 as (-> & Hl2 & Ht2). rewrite Hs1 in Hs2.
  destruct (frame_body _ _ _ _ Hs2 Hl2) as [Hbody Hrest].
  eexists _, _. split; [reflexivity|]. simpl. split_and!; [done..|]. left.
  split_and!; [by rewrite Hbody|done|congruence].
Qed.

(** One read, with nothing on its way. *)
Lemma read_frame_idle c :
  cn_open c = true -> delivers (cn_in c) -> stream c = [] ->
  exists c', read_frame c = (Raise timeout_error, c') /\ cn_open c' = true
    /\ delivers (cn_in c') /\ stream c' = []
    /\ (timeouts (cn_in c') <= pred (timeouts (cn_in c)))%nat.
Proof.
  intros Ho Hd Hs. unfold read_frame. unfold mbind at 1, M_bind at 1.
  destruct (fill_spec 4 c Ho Hd) as (r1 & c1 & E1 & Ho1 & Hd1 & _ & Hs1 & Hr1). rewrite E1.
  destruct r1 as [rx1|e].
  - exfalso. destruct Hr1 as (-> & Hl & _). rewrite Hs in Hs1. unfold stream in Hs1.
    apply app_eq_nil in Hs1 as [Hx _]. rewrite Hx in Hl. unfold zlen in Hl. simpl in Hl. lia.
  - destruct Hr1 as (-> & _ & Ht). exists c1. split_and!; [done..|congruence|].
    destruct Ht as [Ht|[Hi Ht]]; [lia|]. rewrite Hi. unfold timeouts. simpl. lia.
Qed.

(** The bytes of a sequence of frames. *)
Definition encode_all (ps : list (list byte)) : list byte :=
  concat ((fun p => to_bytes4 (zlen p) ++ p) <$> ps).

(** (C13) Frames survive any chunking.  However the peer's bytes are split into
    reads, and wherever reads time out in between (inside a length prefix
    included), reading repeatedly yields exactly the payloads that were encoded,
    in order, each once; as many reads as there are frames and timeouts are
    enough, and no byte is left over or lost. *)
Theorem frames_survive_chunking (calls : nat) (ps : list (list byte)) (c : Conn) :
  cn_open c = true -> delivers (cn_in c) ->
  Forall (fun p => encode_frame p = Ok (to_bytes4 (zlen p) ++ p)) ps ->
  stream c = encode_all ps ->
  (length ps + timeouts (cn_in c) <= calls)%nat ->
  exists c', read_frames calls c = (Ok ps, c') /\ stream c' = [] /\ cn_open c' = true.
Proof.
  revert ps c. induction calls as [|n IH]; intros ps c Ho Hd Hf Hs Hn.
  { destruct ps; [|simpl in Hn; lia]. exists c. done. }
  cbn [read_frames]. unfold mbind at 1, M_bind at 1. unfold catchM. unfold mbind at 1, M_bind at 1.
  destruct ps as [|p ps].
  - destruct (read_frame_idle c Ho Hd Hs) as (c' & E & Ho' & Hd' & Hs' & Ht). rewrite E.
    cbn. rewrite bool_decide_eq_true_2 by done. unfold mret at 1, M_ret at 1.
    destruct (IH [] c' Ho' Hd' Hf Hs') as (c2 & E2 & ? & ?); [simpl in *; lia|].
    exists c2. unfold mbind, M_bind. by rewrite E2.
  - apply Forall_cons in Hf as [Hp Hf].
    assert (zlen p <= MAX_FRAME_LEN) as Hle.
    { unfold encode_frame in Hp. destruct (Z.ltb_spec MAX_FRAME_LEN (zlen p)); [done|lia]. }
    assert (stream c = to_bytes4 (zlen p) ++ p ++ encode_all ps) as Hs0
      by (rewrite Hs; unfold encode_all; csimpl; by rewrite <- ?app_assoc).
    destruct (read_frame_step c p (encode_all ps) Ho Hd Hle Hs0)
      as (r & c' & E & Ho' & Hd' & [(-> & Hs' & Ht)|(-> & Hs' & Ht)]); rewrite E; cbn;
      [|rewrite bool_decide_eq_true_2 by done]; unfold mret at 1, M_ret at 1.
    + destruct (IH ps c' Ho' Hd' Hf Hs') as (c2 & E2 & ? & ?); [simpl in Hn; lia|].
      exists c2. unfold mbind, M_bind. by rewrite E2.
    + destruct (IH (p :: ps) c' Ho' Hd') as (c2 & E2 & ? & ?); [by constructor|congruence|lia|].
      exists c2. unfold mbind, M_bind. by rewrite E2.
Qed.

(** Two frames, cut inside the first length prefix, with timeouts. *)
Definition choppy : Conn :=
  MkConn true [] [Data [0; 0]; NoData; Data [0; 2; 7]; Data [8; 0; 0; 0]; NoData; Data [1; 9]] [].

Lemma frames_survive_chunking_witness :
  exists c', read_frames 4 choppy = (Ok [[7; 8]; [9]], c') /\ stream c' = [] /\ cn_open c' = true.
Proof.
  apply (frames_survive_chunking 4 [[7; 8]; [9]] choppy).
  - reflexivity.
  - repeat constructor; done.
  - repeat constructor.
  - reflexivity.
  - vm_compute. lia.
Defined.
