(* ===== verification/HistoryWindow.v ===== *)
(** * Chunked history windows

    [history_window.py] and [load_time_bars_range] of the gateway client
    ([client.py]): a wide window is fetched as inclusive slices that share
    their boundary second, and the merged bars are deduplicated by marker.  The
    single-slice RPC is a parameter. *)

From Stdlib Require Import Ascii String.
From stdpp Require Import base gmap strings list sorting.
From Stdlib Require Import ZArith Lia.
From S2P Require Import Prelude PyVal.
Import Text.
Open Scope string_scope.
Open Scope list_scope.
Open Scope Z_scope.

Definition BAR_TYPE_SECOND : Z := 1.
Definition BAR_TYPE_MINUTE : Z := 2.
Definition BAR_TYPE_DAILY : Z := 3.
Definition BAR_TYPE_WEEKLY : Z := 4.

Definition DEFAULT_TICK_SLICE_SECS : Z := 2 * 60 * 60.
Definition DEFAULT_BAR_SLICE_SECS : Z := 40 * 24 * 60 * 60.

Definition bar_slice_secs (bar_type period : Z) : Z :=
  if (bar_type =? BAR_TYPE_DAILY) || (bar_type =? BAR_TYPE_WEEKLY) then (2 ^ 31 - 1) / 4
  else if bar_type =? BAR_TYPE_MINUTE then
    if 60 <=? period then 180 * 24 * 60 * 60
    else if 15 <=? period then 90 * 24 * 60 * 60
    else DEFAULT_BAR_SLICE_SECS
  else if bar_type =? BAR_TYPE_SECOND then DEFAULT_TICK_SLICE_SECS
  else DEFAULT_BAR_SLICE_SECS.

(** The [while cur <= end] loop; the fuel bounds the number of slices. *)
Fixpoint slices_loop (fuel : nat) (cur end_ step : Z) : list (Z * Z) :=
  match fuel with
  | O => []
  | S fuel' =>
      if end_ <? cur then []
      else
        let nxt := cur + step in
        let nxt := if (end_ <=? nxt) || (nxt <? cur) then end_ else nxt in
        (cur, nxt) :: (if end_ <=? nxt then [] else slices_loop fuel' nxt end_ step)
  end.

Definition window_slices (start end_ step_secs : Z) : list (Z * Z) :=
  if (end_ <? start) || (step_secs <? 1) then []
  else slices_loop (Z.to_nat ((end_ - start) / step_secs) + 1) start end_ step_secs.

(** [marker], or the pair with [ts_event_ns] when it is absent. *)
Definition bar_key (bar : pydict) : pyval + pyval :=
  match dget bar "marker" with
  | VNone => inr (dget bar "ts_event_ns")
  | m => inl m
  end.

Fixpoint dedupe_loop (seen : list (pyval + pyval)) (bars : list pydict) : list pydict :=
  match bars with
  | [] => []
  | bar :: rest =>
      let key := bar_key bar in
      if bool_decide (key ∈ seen) then dedupe_loop seen rest
      else bar :: dedupe_loop (key :: seen) rest
  end.

Definition dedupe_bars_by_marker (bars : list pydict) : list pydict := dedupe_loop [] bars.

(** [load_time_bars] of one slice; a failed slice fails the whole call. *)
Fixpoint load_slices (load : Z -> Z -> res (list pydict)) (slices : list (Z * Z))
  : res (list pydict) :=
  match slices with
  | [] => Ok []
  | (a, b) :: rest =>
      here ← load a b;
      more ← load_slices load rest;
      Ok (here ++ more)
  end.

Definition load_time_bars_range (load : Z -> Z -> res (list pydict)) (start end_ bar_type period : Z)
  : res (list pydict) :=
  merged ← load_slices load (window_slices start end_ (bar_slice_secs bar_type period));
  Ok (dedupe_bars_by_marker merged).

(** ** The slices *)

Lemma bar_slice_pos bar_type period : 1 <= bar_slice_secs bar_type period.
Proof. unfold bar_slice_secs. repeat case_match; vm_compute; done. Qed.

(** Consecutive slices share a boundary and span exactly [a, b]. *)
Inductive chain (step : Z) : Z -> Z -> list (Z * Z) -> Prop :=
  | chain_one a b : a <= b -> b - a <= step -> chain step a b [(a, b)]
  | chain_cons a c b l : a < c -> c - a <= step -> chain step c b l -> chain step a b ((a, c) :: l).

Lemma slices_loop_chain fuel cur end_ step :
  1 <= step -> cur <= end_ -> (end_ - cur) / step < Z.of_nat fuel ->
  chain step cur end_ (slices_loop fuel cur end_ step).
Proof.
  intros Hs. revert cur. induction fuel as [|n IH]; intros cur Hc Hf.
  { pose proof (Z.div_pos (end_ - cur) step). lia. }
  cbn [slices_loop]. destruct (Z.ltb_spec end_ cur); [lia|]. cbv zeta.
  destruct (Z.ltb_spec (cur + step) cur); [lia|]. rewrite orb_false_r.
  destruct (Z.leb_spec end_ (cur + step)).
  - rewrite Z.leb_refl. constructor; lia.
  - destruct (Z.leb_spec end_ (cur + step)); [lia|].
    constructor; [lia|lia|]. apply IH; [lia|].
    replace (end_ - (cur + step)) with (end_ - cur + (-1) * step) by lia.
    rewrite Z.div_add by lia. lia.
Qed.

Lemma window_slices_chain start end_ step :
  1 <= step -> start <= end_ -> chain step start end_ (window_slices start end_ step).
Proof.
  intros Hs He. unfold window_slices. destruct (Z.ltb_spec end_ start); [lia|].
  destruct (Z.ltb_spec step 1); [lia|]. cbn [orb]. apply slices_loop_chain; [done|done|].
  pose proof (Z.div_pos (end_ - start) step). lia.
Qed.

(** ** Deduplication keeps the first of each key *)

Lemma dedupe_loop_elem seen bars bar :
  bar ∈ dedupe_loop seen bars -> bar ∈ bars /\ bar_key bar ∉ seen.
Proof.
  revert seen. induction bars as [|b bars IH]; intros seen; cbn [dedupe_loop]; [set_solver|].
  cbv zeta. case_bool_decide as Hk.
  - intros Hb. apply IH in Hb. set_solver.
  - rewrite elem_of_cons. intros [->|Hb]; [set_solver|]. apply IH in Hb. set_solver.
Qed.

Lemma dedupe_loop_keys seen bars :
  NoDup (bar_key <$> dedupe_loop seen bars).
Proof.
  revert seen. induction bars as [|b bars IH]; intros seen; cbn [dedupe_loop]; [constructor|].
  cbv zeta. case_bool_decide; [done|]. csimpl. constructor; [|done].
  rewrite list_elem_of_fmap. intros (y & Hy & Hin). apply dedupe_loop_elem in Hin as [_ Hn].
  set_solver.
Qed.

Lemma dedupe_loop_covers seen bars bar :
  bar ∈ bars -> bar_key bar ∉ seen -> exists b, b ∈ dedupe_loop seen bars /\ bar_key b = bar_key bar.
Proof.
  revert seen. induction bars as [|b bars IH]; intros seen; cbn [dedupe_loop]; [set_solver|].
  cbv zeta. rewrite elem_of_cons. intros Hin Hn. case_bool_decide as Hk.
  - destruct Hin as [->|Hin]; [done|]. by apply IH.
  - destruct (decide (bar_key bar = bar_key b)) as [E|E]; [exists b; set_solver|].
    destruct Hin as [->|Hin]; [done|].
    destruct (IH (bar_key b :: seen) Hin) as (y & ? & ?); [set_solver|]. exists y. set_solver.
Qed.

Lemma dedupe_loop_sublist seen bars : sublist (dedupe_loop seen bars) bars.
Proof.
  revert seen. induction bars as [|b bars IH]; intros seen; cbn [dedupe_loop]; [constructor|].
  cbv zeta. case_bool_decide; by constructor.
Qed.

(** ** Chunking is invisible *)

Definition marker_of (bar : pydict) : Z :=
  match dget bar "marker" with VInt m => m | _ => 0 end.

Definition in_window (a b : Z) (bar : pydict) : bool :=
  (a <=? marker_of bar) && (marker_of bar <=? b).

Section Chunked.
Variable store : list pydict.
Hypothesis Hmark : Forall (fun bar => dget bar "marker" = VInt (marker_of bar)) store.
Hypothesis Hsorted : StronglySorted (fun a b => marker_of a < marker_of b) store.

(** The venue's answer to one slice. *)
Definition venue_load (a b : Z) : res (list pydict) := Ok (List.filter (in_window a b) store).

Definition not_after (x y : pydict) : Prop := marker_of x <= marker_of y.

Lemma filter_window a b x : x ∈ List.filter (in_window a b) store <->
  x ∈ store /\ a <= marker_of x <= b.
Proof. rewrite !list_elem_of_In, List.filter_In. unfold in_window. by rewrite andb_true_iff, !Z.leb_le. Qed.

Lemma filter_sorted_by (f : pydict -> bool) l :
  StronglySorted (fun a b => marker_of a < marker_of b) l -> StronglySorted not_after (List.filter f l).
Proof.
  induction l as [|x l IH]; simpl; [constructor|]. rewrite StronglySorted_cons. intros [Hx Hl].
  destruct (f x); [|by apply IH]. rewrite StronglySorted_cons. split; [|by apply IH].
  rewrite Forall_forall in *. intros y Hy. rewrite list_elem_of_In, List.filter_In in Hy.
  destruct Hy as [Hy _]. apply list_elem_of_In, Hx in Hy. unfold not_after. lia.
Qed.

Lemma chain_bounds step a b l : chain step a b l -> a <= b.
Proof. induction 1; lia. Qed.

Lemma merged_slices step a b l :
  chain step a b l ->
  exists merged, load_slices venue_load l = Ok merged
    /\ StronglySorted not_after merged
    /\ forall x, x ∈ merged <-> x ∈ store /\ a <= marker_of x <= b.
Proof.
  induction 1 as [a b Hab Hw|a c b l Hac Hw Hc (merged & E & Hs & Hm)].
  - exists (List.filter (in_window a b) store). csimpl. rewrite app_nil_r.
    split_and!; [done|by apply filter_sorted_by|]. intros x. apply filter_window.
  - exists (List.filter (in_window a c) store ++ merged). csimpl. rewrite E. csimpl.
    pose proof (chain_bounds _ _ _ _ Hc).
    split_and!; [done| |].
    + apply StronglySorted_app_2; [|by apply filter_sorted_by|done].
      intros x y Hx Hy. apply filter_window in Hx. apply Hm in Hy. unfold not_after. lia.
    + intros x. rewrite elem_of_app, filter_window, Hm.
      assert (marker_of x <= c \/ c <= marker_of x) by lia. intuition lia.
Qed.

Lemma sorted_inj l x y :
  StronglySorted (fun a b => marker_of a < marker_of b) l ->
  x ∈ l -> y ∈ l -> marker_of x = marker_of y -> x = y.
Proof.
  induction l as [|z l IH]; [set_solver|]. rewrite StronglySorted_cons, Forall_forall.
  intros [Hz Hl]. rewrite !elem_of_cons. intros [->|Hx] [->|Hy] E; try done.
  - apply Hz in Hy. lia.
  - apply Hz in Hx. lia.
  - by apply IH.
Qed.

Lemma store_key x : x ∈ store -> bar_key x = inl (VInt (marker_of x)).
Proof.
  intros Hx. rewrite Forall_forall in Hmark. unfold bar_key.
  by rewrite (Hmark x Hx).
Qed.

Lemma sorted_nodup l :
  StronglySorted (fun a b => marker_of a < marker_of b) l -> NoDup l.
Proof.
  induction l as [|z l IH]; [constructor|]. rewrite StronglySorted_cons, Forall_forall.
  intros [Hz Hl]. constructor; [|by apply IH]. intros Hin. apply Hz in Hin. lia.
Qed.

Lemma sublist_sorted l k : sublist l k -> StronglySorted not_after k -> StronglySorted not_after l.
Proof.
  induction 1 as [|x l k Hlk IH|x l k Hlk IH]; rewrite ?StronglySorted_cons; [done| |].
  - intros [Hx Hk]. split; [|auto]. rewrite Forall_forall in *. intros y Hy.
    apply Hx. eapply elem_of_submseteq; [exact Hy|by apply sublist_submseteq].
  - intros [_ Hk]. auto.
Qed.

(** (C14) Chunking is invisible.  When the venue answers each slice with its
    bars in order, a window fetched in slices and deduplicated by marker is
    exactly the bars of that window, each once and in order: no bar at a slice
    boundary is lost or repeated, for any window, bar type and period. *)
Theorem chunked_window_exact start end_ bar_type period :
  load_time_bars_range venue_load start end_ bar_type period
  = Ok (List.filter (in_window start end_) store).
Proof.
  unfold load_time_bars_range. destruct (Z.le_gt_cases start end_) as [Hle|Hgt].
  2:{ unfold window_slices. destruct (Z.ltb_spec end_ start); [|lia]. csimpl. f_equal.
      symmetry. apply elem_of_nil_inv. intros x Hx. apply filter_window in Hx. lia. }
  destruct (merged_slices _ _ _ _
    (window_slices_chain start end_ _ (bar_slice_pos bar_type period) Hle)) as (merged & E & Hs & Hm).
  rewrite E. csimpl. f_equal. unfold dedupe_bars_by_marker.
  assert (forall x, x ∈ dedupe_loop [] merged <-> x ∈ List.filter (in_window start end_) store)
    as Hsame.
  { intros x. rewrite filter_window, <- Hm. split; intros Hx.
    - by apply dedupe_loop_elem in Hx as [? _].
    - destruct (dedupe_loop_covers [] merged x Hx) as (y & Hy & Hk); [set_solver|].
      pose proof (dedupe_loop_elem _ _ _ Hy) as [Hy' _].
      apply Hm in Hx as [Hx _], Hy' as [Hy' _]. rewrite !store_key in Hk by done.
      replace x with y; [done|]. apply (sorted_inj store); [done..|]. by simplify_eq. }
  eapply (StronglySorted_unique_strong not_after).
  - intros x y Hx Hy H1 H2. rewrite Hsame, filter_window in Hx. rewrite filter_window in Hy.
    apply (sorted_inj store); [done|naive_solver..|]. unfold not_after in *. lia.
  - eapply sublist_sorted; [apply dedupe_loop_sublist|done].
  - by apply filter_sorted_by.
  - apply NoDup_Permutation; [| |exact Hsame].
    + eapply NoDup_fmap_1. apply dedupe_loop_keys.
    + apply filter_nodup. by apply sorted_nodup.
Qed.

End Chunked.

Definition sample_bar (m : Z) : pydict := dict_of [("marker", VInt m); ("close", VInt (m * 2))].

(** Second bars two hours apart: slices share the bars at their boundaries. *)
Definition sample_store : list pydict := sample_bar <$> [0; 3600; 7200; 10800; 14400; 20000].

Lemma chunked_window_exact_witness :
  load_time_bars_range (venue_load sample_store) 0 14400 1 1
  = Ok (List.filter (in_window 0 14400) sample_store)
  /\ length (window_slices 0 14400 (bar_slice_secs 1 1)) = 2%nat.
Proof.
  split; [|reflexivity]. apply chunked_window_exact.
  - repeat constructor.
  - apply (bool_decide_unpack _). vm_compute. exact I.
Defined.
