(* ===== verification/Gateway.v ===== *)
(** * The gateway client

    [GatewayClient] of [rithmic_gateway/client.py]: request/response over one
    framed connection that also carries events, the bounded queue of events
    read while waiting for something else, the filtered polls, the handshake
    and the attach sequence ([attach.py], [live_md.py]).

    Protobuf is outside the sources: a frame is its request id and its decoded
    body.  What the connection yields next is a list ([Incoming]); whether
    [sendall] of request [n] succeeds is [writable n].  Event dictionaries are
    [pydict]: the list-valued book fields play no part here. *)

From Stdlib Require Import Ascii String.
From stdpp Require Import base gmap strings list.
From Stdlib Require Import ZArith Lia.
From S2P Require Import Prelude PyVal Framing.
Import Text.
Open Scope string_scope.
Open Scope list_scope.
Open Scope Z_scope.

(** ** Event classes *)

Definition ORDER_EVENT_TYPES : list string := ["order_notification"; "bracket_update"].
Definition PNL_EVENT_TYPES : list string := ["account_pnl"; "instrument_pnl"].
Definition HISTORY_EVENT_TYPES : list string := ["time_bar"].
Definition NON_MD_EVENT_TYPES : list string :=
  ORDER_EVENT_TYPES ++ PNL_EVENT_TYPES ++ HISTORY_EVENT_TYPES.

Definition normalize_error_code (code : string) : string :=
  if bool_decide (code ∈ ["history_denied_live_md"]) then "capability_denied" else code.

Definition wire_error (code : string) : exn := gateway_error (normalize_error_code code).

Definition is_gap_event (evt : pydict) : bool := is_str (dget evt "type") "gap".

Definition gap_stream (evt : pydict) : option string :=
  if is_gap_event evt then Some (py_str (dget evt "stream")) else None.

Definition is_md_event (evt : pydict) : bool :=
  if is_gap_event evt then bool_decide (gap_stream evt = Some "ticker")
  else negb (is_str_in (dget evt "type") NON_MD_EVENT_TYPES).

Definition is_history_event (evt : pydict) : bool :=
  is_str_in (dget evt "type") HISTORY_EVENT_TYPES || bool_decide (gap_stream evt = Some "history").

Definition is_pnl_event (evt : pydict) : bool :=
  is_str_in (dget evt "type") PNL_EVENT_TYPES || bool_decide (gap_stream evt = Some "pnl").

Definition is_order_event (evt : pydict) : bool :=
  is_str_in (dget evt "type") ORDER_EVENT_TYPES || bool_decide (gap_stream evt = Some "order").

Definition stream_of (evt : pydict) : string :=
  if is_order_event evt then "order"
  else if is_pnl_event evt then "pnl"
  else if is_history_event evt then "history"
  else "ticker".

(** ** The pending queue *)

Definition MAX_PENDING_EVENTS : nat := Z.to_nat 100000.

(** The loss reports at the head, and the rest. *)
Fixpoint span_gaps (q : list pydict) : list pydict * list pydict :=
  match q with
  | [] => ([], [])
  | e :: q' =>
      if is_gap_event e then let '(g, r) := span_gaps q' in (e :: g, r) else ([], q)
  end.

(** One more event lost on [stream]: the first report of that stream counts it;
    [None] when there is none. *)
Fixpoint bump_gap (stream : string) (heads : list pydict) : res (option (list pydict)) :=
  match heads with
  | [] => Ok None
  | g :: heads' =>
      if is_str (dget g "stream") stream then
        n ← py_int (dget g "skipped");
        Ok (Some (<["skipped" := VInt (n + 1)]> g :: heads'))
      else
        r ← bump_gap stream heads';
        Ok (match r with Some l => Some (g :: l) | None => None end)
  end.

Definition gap_report (stream : string) : pydict :=
  dict_of [("type", VStr "gap"); ("stream", VStr stream); ("skipped", VInt 1)].

Section Queue.
Variable max_pending : nat.

(** The [while] loop of [_queue_event]; each turn drops a data event. *)
Fixpoint make_room (fuel : nat) (q : list pydict) : res (list pydict) :=
  if (length q <? max_pending)%nat then Ok q
  else
    match fuel with
    | O => Ok q
    | S fuel' =>
        match span_gaps q with
        | (_, []) => Ok q
        | (heads, dropped :: tail) =>
            let stream := stream_of dropped in
            bumped ← bump_gap stream heads;
            match bumped with
            | Some heads' => make_room fuel' (heads' ++ tail)
            | None => make_room fuel' (gap_report stream :: heads ++ tail)
            end
        end
    end.

Definition queue_event (evt : pydict) (q : list pydict) : res (list pydict) :=
  q' ← make_room (length q) q;
  Ok (q' ++ [evt]).

End Queue.

(** ** The client *)

Inductive Body :=
  | BEvent (evt : pydict)
  | BError (code : string)
  | BReady (scopes : list string) (trading cancel_all : bool) (instance_id generation : Z)
  | BResponse (which : string) (rows : list pydict).

Inductive Incoming :=
  | InFrame (request_id : Z) (body : Body)
  | InNothing          (* the read timed out *)
  | InEof
  | InTooLarge.

Record Client := MkClient {
  gc_sock : bool;
  gc_next_id : Z;
  gc_pending : list pydict;
  gc_in : list Incoming;
  gc_scopes : list string;
  gc_trading_enabled : bool;
  gc_cancel_all_enabled : bool;
  gc_gateway_instance_id : Z;
  gc_transport_generation : Z
}.

Definition set_sock (b : bool) (c : Client) : Client :=
  MkClient b (gc_next_id c) (gc_pending c) (gc_in c) (gc_scopes c) (gc_trading_enabled c)
    (gc_cancel_all_enabled c) (gc_gateway_instance_id c) (gc_transport_generation c).
Definition set_pending (q : list pydict) (c : Client) : Client :=
  MkClient (gc_sock c) (gc_next_id c) q (gc_in c) (gc_scopes c) (gc_trading_enabled c)
    (gc_cancel_all_enabled c) (gc_gateway_instance_id c) (gc_transport_generation c).
Definition set_in (l : list Incoming) (c : Client) : Client :=
  MkClient (gc_sock c) (gc_next_id c) (gc_pending c) l (gc_scopes c) (gc_trading_enabled c)
    (gc_cancel_all_enabled c) (gc_gateway_instance_id c) (gc_transport_generation c).
Definition bump_id (c : Client) : Client :=
  MkClient (gc_sock c) (gc_next_id c + 1) (gc_pending c) (gc_in c) (gc_scopes c)
    (gc_trading_enabled c) (gc_cancel_all_enabled c) (gc_gateway_instance_id c)
    (gc_transport_generation c).

Definition protocol_error : exn := gateway_error "protocol".
Definition rpc_timeout : exn := gateway_error "timeout".

(** The next frame, or how the read failed. *)
Definition next_frame : M Client (Z * Body) :=
  c ← get;
  match gc_in c with
  | InFrame rid body :: rest => modify (set_in rest) ;; mret (rid, body)
  | InNothing :: rest => modify (set_in rest) ;; throw timeout_error
  | [] => throw timeout_error
  | InEof :: _ => throw (gateway_error "eof")
  | InTooLarge :: _ => throw (gateway_error "frame_too_large")
  end.

(** The stream is unusable: the next call says [not_connected]. *)
Definition is_fatal_wire (e : exn) : bool :=
  bool_decide (ex_code e = Some "eof") || bool_decide (ex_code e = Some "frame_too_large").

Definition queue (evt : pydict) : M Client unit :=
  c ← get;
  q ← lift (queue_event MAX_PENDING_EVENTS evt (gc_pending c));
  modify (set_pending q).

(** The [while True] of [_rpc_unlocked]; every turn reads a frame. *)
Fixpoint await_reply (fuel : nat) (rid : Z) : M Client Body :=
  match fuel with
  | O => throw timeout_error
  | S fuel' =>
      '(id, body) ← next_frame;
      match body with
      | BEvent evt => queue evt ;; await_reply fuel' rid
      | BError code => if negb (id =? rid) then throw protocol_error else throw (wire_error code)
      | _ => if id =? rid then mret body else throw protocol_error
      end
  end.

Section Rpc.
Variable writable : Z -> bool.

Definition rpc : M Client Body :=
  c ← get;
  if negb (gc_sock c) then throw not_connected
  else
    let rid := gc_next_id c in
    modify bump_id ;;
    if negb (writable rid) then modify (set_sock false) ;; throw (gateway_error "not_sent")
    else
      catchM any_exn (await_reply (S (length (gc_in c))) rid)
        (fun e =>
           if bool_decide (ex_class e = ExTimeout) then
             modify (set_sock false) ;; throw rpc_timeout
           else if bool_decide (ex_class e = ExGateway) && is_fatal_wire e then
             modify (set_sock false) ;; throw e
           else throw e).

(** *** Requests and their typed replies *)

Definition unit_rpc : M Client unit := _ ← rpc; mret tt.

(** [which != expected] is a protocol error. *)
Definition typed_rpc (expected : string) : M Client (list pydict) :=
  body ← rpc;
  match body with
  | BResponse which rows => if bool_decide (which = expected) then mret rows else throw protocol_error
  | _ => throw protocol_error
  end.

Definition get_front_month : M Client pydict :=
  rows ← typed_rpc "front_month_response"; mret (default ∅ (head rows)).
Definition get_reference_data : M Client pydict :=
  rows ← typed_rpc "reference_data_response"; mret (default ∅ (head rows)).
Definition get_live_md_state : M Client pydict :=
  rows ← typed_rpc "get_live_md_state_response"; mret (default ∅ (head rows)).
Definition resolved_account : M Client (option pydict) :=
  rows ← typed_rpc "resolved_account_response";
  let d := default ∅ (head rows) in
  mret (if truthy (dget d "account_id") then Some d else None).
Definition load_orders : M Client (list pydict) := typed_rpc "load_orders_response".
Definition load_product_rms_info : M Client (list pydict) :=
  typed_rpc "load_product_rms_info_response".
Definition load_account_rms_info : M Client (list pydict) :=
  typed_rpc "load_account_rms_info_response".
Definition load_time_bars : M Client (list pydict) := typed_rpc "load_time_bars_response".
Definition probe_time_bars : M Client (list pydict) := typed_rpc "probe_time_bars_response".

(** [_normalize_*]: proto-JSON renders 64-bit integers as text. *)
Definition int_field (k : string) (d : pydict) : res pydict :=
  match d !! k with
  | None => Ok d
  | Some v => n ← py_int v; Ok (<[k := VInt n]> d)
  end.

Definition normalize_fill_history (d : pydict) : res pydict :=
  int_field "fill_size" (<["type" := VStr "fill_history"]> d).

Definition normalize_order_notification (d : pydict) : res pydict :=
  int_field "ts_event_ns" (<["type" := VStr "order_notification"]> d).

Definition setdefault (k : string) (v : pyval) (d : pydict) : pydict :=
  match d !! k with Some _ => d | None => <[k := v]> d end.

Definition normalize_history_tick (d : pydict) : res pydict :=
  let d1 :=
    match d !! "trade_price", d !! "close_price" with
    | None, Some v => <["trade_price" := v]> d
    | _, _ => d
    end in
  d2 ← match d1 !! "trade_size", d1 !! "num_trades" with
       | None, Some v =>
           catch is_type_or_value_error
             (n ← py_int v; Ok (<["trade_size" := VInt n]> d1))
             (fun _ => Ok (<["trade_size" := v]> d1))
       | _, _ => Ok d1
       end;
  Ok (setdefault "type" (VStr "history_tick") d2).

Fixpoint map_res {A B} (f : A -> res B) (l : list A) : res (list B) :=
  match l with
  | [] => Ok []
  | a :: l' => b ← f a; bs ← map_res f l'; Ok (b :: bs)
  end.

Definition load_fill_history : M Client (list pydict) :=
  rows ← typed_rpc "load_fill_history_response"; lift (map_res normalize_fill_history rows).
Definition load_order_history : M Client (list pydict) :=
  rows ← typed_rpc "load_order_history_response"; lift (map_res normalize_order_notification rows).
Definition load_ticks : M Client (list pydict) :=
  rows ← typed_rpc "load_ticks_response"; lift (map_res normalize_history_tick rows).

(** *** Handshake *)

Definition handshake : M Client unit :=
  c ← get;
  if negb (gc_sock c) then throw not_connected
  else if negb (writable 0) then modify (set_sock false) ;; throw (gateway_error "not_sent")
  else
    '(_, body) ← next_frame;
    match body with
    | BReady scopes trading cancel_all instance generation =>
        modify (fun c => MkClient (gc_sock c) (gc_next_id c) (gc_pending c) (gc_in c) scopes
                           trading cancel_all instance generation)
    | BError code => throw (wire_error code)
    | _ => throw protocol_error
    end.

(** [disconnect]: the request's failure is ignored. *)
Definition disconnect_client : M Client unit :=
  c ← get;
  if negb (gc_sock c) then mret tt
  else
    catchM any_exn (_ ← rpc; mret tt) (fun _ => mret tt) ;;
    modify (fun c => set_pending [] (set_sock false c)).

End Rpc.

(** *** Polls *)

(** The [for _ in range(len(pending))] rotation. *)
Fixpoint rotate_find (n : nat) (pred : pydict -> bool) (q : list pydict)
  : option pydict * list pydict :=
  match n, q with
  | S n', evt :: q' => if pred evt then (Some evt, q') else rotate_find n' pred (q' ++ [evt])
  | _, _ => (None, q)
  end.

(** The read loop; [timed] is a non-zero timeout. *)
Fixpoint poll_reads (fuel : nat) (timed : bool) (pred : pydict -> bool) : M Client (option pydict) :=
  match fuel with
  | O => mret None
  | S fuel' =>
      '(_, body) ← next_frame;
      match body with
      | BEvent evt =>
          if pred evt then mret (Some evt)
          else queue evt ;; if timed then poll_reads fuel' timed pred else mret None
      | BError code => throw (gateway_error code)
      | _ => if timed then poll_reads fuel' timed pred else mret None
      end
  end.

Definition poll_filtered (timeout_ms : Z) (pred : pydict -> bool) : M Client (option pydict) :=
  c ← get;
  if negb (gc_sock c) then throw not_connected
  else
    let '(found, q) := rotate_find (length (gc_pending c)) pred (gc_pending c) in
    modify (set_pending q) ;;
    match found with
    | Some evt => mret (Some evt)
    | None =>
        catchM any_exn (poll_reads (S (length (gc_in c))) (0 <? timeout_ms) pred)
          (fun e =>
             if bool_decide (ex_class e = ExTimeout) then mret None
             else if bool_decide (ex_class e = ExGateway) && is_fatal_wire e then
               modify (set_sock false) ;; throw e
             else throw e)
    end.

Definition poll_event (timeout_ms : Z) := poll_filtered timeout_ms is_md_event.
Definition poll_history_event (timeout_ms : Z) := poll_filtered timeout_ms is_history_event.
Definition poll_pnl_event (timeout_ms : Z) := poll_filtered timeout_ms is_pnl_event.
Definition poll_order_event (timeout_ms : Z) := poll_filtered timeout_ms is_order_event.

(** ** Facts: the pending queue *)

(** A loss report as the parent and the client write them. *)
Definition gap_ok (e : pydict) : Prop :=
  is_gap_event e = true -> exists s n, dget e "stream" = VStr s /\ py_int (dget e "skipped") = Ok n.

(** What an event accounts for on [stream]: itself, or the events it reports
    lost. *)
Definition weight (stream : string) (e : pydict) : Z :=
  if is_gap_event e then
    if is_str (dget e "stream") stream then
      match py_int (dget e "skipped") with Ok n => n | Raise _ => 0 end
    else 0
  else if bool_decide (stream_of e = stream) then 1 else 0.

Definition accounted (stream : string) (q : list pydict) : Z :=
  foldr (fun e acc => weight stream e + acc) 0 q.

Definition data_events (q : list pydict) : list pydict :=
  List.filter (fun e => negb (is_gap_event e)) q.

Lemma accounted_app s q q' : accounted s (q ++ q') = accounted s q + accounted s q'.
Proof. induction q as [|e q IH]; simpl; [done|]. rewrite IH. lia. Qed.

Lemma data_events_app q q' : data_events (q ++ q') = data_events q ++ data_events q'.
Proof. apply List.filter_app. Qed.

Lemma data_events_gaps q : forallb is_gap_event q = true -> data_events q = [].
Proof.
  induction q as [|e q IH]; simpl; [done|]. intros [He Hq]%andb_true_iff. rewrite He. by apply IH.
Qed.

Lemma span_gaps_spec q :
  let '(heads, tail) := span_gaps q in
  q = heads ++ tail /\ forallb is_gap_event heads = true
  /\ match tail with [] => True | d :: _ => is_gap_event d = false end.
Proof.
  induction q as [|e q IH]; simpl; [done|]. destruct (is_gap_event e) eqn:E; [|done].
  destruct (span_gaps q) as [heads tail]. destruct IH as (-> & Hh & Ht). simpl. by rewrite E.
Qed.


Lemma bump_event g n s :
  is_gap_event g = true -> py_int (dget g "skipped") = Ok n -> dget g "stream" = VStr s ->
  let g' := <["skipped" := VInt (n + 1)]> g in
  is_gap_event g' = true /\ gap_ok g'
  /\ forall t, weight t g' = weight t g + (if bool_decide (s = t) then 1 else 0).
Proof.
  intros Hg Hn Hs. cbv zeta.
  assert (is_gap_event (<["skipped" := VInt (n + 1)]> g) = true) as Hg'.
  { unfold is_gap_event. by rewrite dget_insert_ne. }
  split_and!; [done| |].
  - intros _. exists s, (n + 1). rewrite dget_insert_ne, dget_insert by done. done.
  - intros t. unfold weight. rewrite Hg', Hg, dget_insert_ne, dget_insert, Hs, Hn by done.
    simpl. case_bool_decide; lia.
Qed.

Lemma bump_gap_spec s heads :
  forallb is_gap_event heads = true -> Forall gap_ok heads ->
  exists r, bump_gap s heads = Ok r /\
    match r with
    | None => True
    | Some h' => forallb is_gap_event h' = true /\ Forall gap_ok h'
        /\ forall t, accounted t h' = accounted t heads + (if bool_decide (s = t) then 1 else 0)
    end.
Proof.
  induction heads as [|g heads IH]; simpl; [by exists None|].
  intros [Hg Hh]%andb_true_iff [Hok Hoks]%Forall_cons.
  destruct (Hok Hg) as (s' & n & Hs & Hn). rewrite Hs. simpl. case_bool_decide as E.
  - subst s'. rewrite Hn. csimpl. eexists. split; [done|]. simpl.
    destruct (bump_event g n s Hg Hn Hs) as (Hg' & Hok' & Hw). rewrite Hg', Hh.
    split_and!; [done|by constructor|]. intros t. rewrite Hw. lia.
  - destruct (IH Hh Hoks) as (r & -> & Hr). csimpl. destruct r as [h'|]; [|by exists None].
    destruct Hr as (Hh' & Hoks' & Hw). eexists. split; [done|]. simpl. rewrite Hg, Hh'.
    split_and!; [done|by constructor|]. intros t. rewrite Hw. lia.
Qed.

Lemma gap_report_ok s :
  is_gap_event (gap_report s) = true /\ gap_ok (gap_report s)
  /\ forall t, weight t (gap_report s) = if bool_decide (s = t) then 1 else 0.
Proof.
  split_and!; [done| |].
  - intros _. by exists s, 1.
  - intros t. unfold weight. change (is_gap_event (gap_report s)) with true.
    change (dget (gap_report s) "stream") with (VStr s).
    change (dget (gap_report s) "skipped") with (VInt 1). simpl. done.
Qed.

Section Room.
Variable max_pending : nat.

(** The queue after dropping, against the queue before. *)
Record room (q q' : list pydict) : Prop := MkRoom {
  rm_ok : Forall gap_ok q';
  rm_accounted : forall s, accounted s q' = accounted s q;
  rm_data : exists k, data_events q' = drop k (data_events q);
  rm_size : (length q' < max_pending)%nat \/ forallb is_gap_event q' = true
}.

Lemma make_room_spec fuel q :
  Forall gap_ok q -> (length (data_events q) <= fuel)%nat ->
  exists q', make_room max_pending fuel q = Ok q' /\ room q q'.
Proof.
  revert q. induction fuel as [|fuel IH]; intros q Hok Hf; cbn [make_room];
    destruct (Nat.ltb_spec (length q) max_pending) as [Hlt|Hge].
  1, 3: exists q; split; [done|]; split; [done|done|by exists 0%nat|by left].
  - exists q. split; [done|]. split; [done|done|by exists 0%nat|]. right.
    pose proof (span_gaps_spec q) as Hs. destruct (span_gaps q) as [heads [|d tail]].
    + destruct Hs as (-> & Hh & _). by rewrite app_nil_r.
    + destruct Hs as (-> & _ & Hd). exfalso. rewrite data_events_app in Hf. simpl in Hf.
      rewrite Hd in Hf. simpl in Hf. rewrite length_app in Hf. simpl in Hf. lia.
  - pose proof (span_gaps_spec q) as Hs. destruct (span_gaps q) as [heads [|d tail]].
    { destruct Hs as (-> & Hh & _). rewrite app_nil_r in *. exists heads. split; [done|].
      split; [done|done|by exists 0%nat|by right]. }
    destruct Hs as (-> & Hh & Hd). apply Forall_app in Hok as [Hoh [_ Hot]%Forall_cons].
    assert (data_events (heads ++ d :: tail) = d :: data_events tail) as Hdata.
    { rewrite data_events_app, (data_events_gaps heads) by done. simpl. by rewrite Hd. }
    rewrite Hdata in Hf. simpl in Hf.
    assert (forall s, weight s d = if bool_decide (stream_of d = s) then 1 else 0) as Hwd
      by (intros s; unfold weight; by rewrite Hd).
    destruct (bump_gap_spec (stream_of d) heads Hh Hoh) as (r & -> & Hr). csimpl.
    destruct r as [h'|].
    + destruct Hr as (Hh' & Hoh' & Hw).
      assert (data_events (h' ++ tail) = data_events tail) as Hd'
        by (by rewrite data_events_app, data_events_gaps).
      destruct (IH (h' ++ tail)) as (q' & E & [Ho Ha (k & Hk) Hz]);
        [by apply Forall_app|rewrite Hd'; lia|].
      exists q'. split; [done|]. split; [done| | |done].
      * intros s. rewrite Ha, !accounted_app, Hw. simpl. rewrite Hwd. lia.
      * exists (S k). by rewrite Hdata, Hk, Hd'.
    + destruct (gap_report_ok (stream_of d)) as (Hg & Hgo & Hw).
      set (q1 := gap_report (stream_of d) :: heads ++ tail).
      assert (data_events q1 = data_events tail) as Hd'.
      { unfold q1, data_events. cbn [List.filter]. rewrite Hg. cbn [negb].
        fold (data_events (heads ++ tail)). by rewrite data_events_app, data_events_gaps. }
      destruct (IH q1) as (q' & E & [Ho Ha (k & Hk) Hz]).
      * constructor; [done|]. by apply Forall_app.
      * rewrite Hd'. lia.
      * exists q'. split; [done|]. split; [done| | |done].
        -- intros s. rewrite Ha. unfold q1. cbn [accounted foldr].
           fold (accounted s (heads ++ tail)). rewrite Hw, !accounted_app. simpl. rewrite Hwd. lia.
        -- exists (S k). by rewrite Hdata, Hk, Hd'.
Qed.

(** (C15) No event is lost silently.  Queueing an event never fails; for every
    stream, the events still queued plus the losses reported on that stream
    grow by exactly what was queued; the surviving events are the most recent
    ones, in their order; and the queue stays within its bound unless it holds
    nothing but loss reports. *)
Theorem queue_accounts_for_losses (evt : pydict) (q : list pydict) :
  Forall gap_ok q -> gap_ok evt ->
  exists q0, queue_event max_pending evt q = Ok (q0 ++ [evt])
    /\ Forall gap_ok (q0 ++ [evt])
    /\ (forall s, accounted s (q0 ++ [evt]) = accounted s q + weight s evt)
    /\ (exists k, data_events (q0 ++ [evt]) = drop k (data_events q) ++ data_events [evt])
    /\ ((length (q0 ++ [evt]) <= max_pending)%nat \/ forallb is_gap_event q0 = true).
Proof.
  intros Hok He. unfold queue_event.
  destruct (make_room_spec (length q) q Hok) as (q0 & -> & [Ho Ha (k & Hk) Hz]).
  { unfold data_events. apply List.filter_length_le. }
  exists q0. csimpl. split_and!; [done| | | |].
  - apply Forall_app. split; [done|by repeat constructor].
  - intros s. rewrite accounted_app, Ha. simpl. lia.
  - exists k. by rewrite data_events_app, Hk.
  - rewrite length_app. simpl. destruct Hz; [left; lia|by right].
Qed.

End Room.

Definition tick (n : Z) : pydict := dict_of [("type", VStr "last_trade"); ("n", VInt n)].
Definition note_order (n : Z) : pydict := dict_of [("type", VStr "order_notification"); ("n", VInt n)].
Definition pnl_row (n : Z) : pydict := dict_of [("type", VStr "account_pnl"); ("n", VInt n)].

Lemma queue_accounts_for_losses_witness :
  let q := [note_order 1; tick 1; tick 2] in
  exists q0, queue_event 3 (tick 3) q = Ok (q0 ++ [tick 3])
    /\ Forall gap_ok (q0 ++ [tick 3])
    /\ (forall s, accounted s (q0 ++ [tick 3]) = accounted s q + weight s (tick 3))
    /\ (exists k, data_events (q0 ++ [tick 3]) = drop k (data_events q) ++ data_events [tick 3])
    /\ ((length (q0 ++ [tick 3]) <= 3)%nat \/ forallb is_gap_event q0 = true).
Proof.
  apply (queue_accounts_for_losses 3 (tick 3) [note_order 1; tick 1; tick 2]).
  - repeat (constructor; [discriminate|]). constructor.
  - discriminate.
Defined.

(** ** Facts: requests *)

Definition is_event_frame (i : Incoming) : Prop :=
  match i with InFrame _ (BEvent _) => True | _ => False end.

Definition events_of (l : list Incoming) : list pydict :=
  omap (fun i => match i with InFrame _ (BEvent e) => Some e | _ => None end) l.

(** The queue after a sequence of events. *)
Definition queue_all (evts : list pydict) (q : list pydict) : res (list pydict) :=
  fold_left (fun r e => q ← r; queue_event MAX_PENDING_EVENTS e q) evts (Ok q).

Lemma queue_all_raise evts x :
  fold_left (fun r e => q ← r; queue_event MAX_PENDING_EVENTS e q) evts (Raise x) = Raise x.
Proof. by induction evts. Qed.

(** A queueing failure is a bad [skipped] value: no gateway code. *)
Lemma py_int_code v x : py_int v = Raise x -> ex_code x = None.
Proof.
  destruct v as [|b|z|f|t]; simpl; [by intros [= <-]|done|done| |].
  - destruct f; simpl; by intros [= <-].
  - destruct (Z_of_str t); by intros [= <-].
Qed.

Lemma bump_gap_code s heads x : bump_gap s heads = Raise x -> ex_code x = None.
Proof.
  induction heads as [|g heads IH]; simpl; [done|]. case_match.
  - destruct (py_int _) eqn:E; csimpl; [done|]. intros [= <-]. by eapply py_int_code.
  - destruct (bump_gap s heads); csimpl; [done|]. intros [= <-]. by apply IH.
Qed.

Lemma make_room_code n fuel q x : make_room n fuel q = Raise x -> ex_code x = None.
Proof.
  revert q. induction fuel as [|fuel IH]; intros q; cbn [make_room]; case_match; try done.
  destruct (span_gaps q) as [heads [|d tail]]; [done|]. cbv zeta.
  destruct (bump_gap _ heads) as [[h'|]|y] eqn:E; csimpl; [apply IH|apply IH|].
  intros [= <-]. by eapply bump_gap_code.
Qed.

Lemma queue_all_code evts q x : queue_all evts q = Raise x -> ex_code x = None.
Proof.
  unfold queue_all. revert q. induction evts as [|e evts IH]; intros q; csimpl; [done|].
  unfold queue_event at 2. destruct (make_room _ _ q) eqn:E; csimpl; [apply IH|].
  rewrite queue_all_raise. intros [= <-]. by eapply make_room_code.
Qed.

(** What [await_reply] leaves: the frames it read, in order. *)
Lemma await_reply_spec fuel rid c r c' :
  await_reply fuel rid c = (r, c') ->
  exists pre, Forall is_event_frame pre
    /\ gc_sock c' = gc_sock c /\ gc_next_id c' = gc_next_id c
    /\ match r with
       | Ok body =>
           gc_in c = pre ++ InFrame rid body :: gc_in c'
           /\ queue_all (events_of pre) (gc_pending c) = Ok (gc_pending c')
       | Raise e =>
           e = timeout_error \/ e = gateway_error "eof" \/ e = gateway_error "frame_too_large"
           \/ e = protocol_error
           \/ (exists code rest, gc_in c = pre ++ InFrame rid (BError code) :: rest
                 /\ e = wire_error code)
           \/ exists q, queue_all q (gc_pending c) = Raise e
       end.
Proof.
  revert c. induction fuel as [|fuel IH]; intros c; cbn [await_reply].
  { intros [= <- <-]. exists []. split_and!; auto. }
  unfold mbind at 1, M_bind at 1. unfold next_frame. unfold mbind at 1, M_bind at 1. cbv [get].
  destruct (gc_in c) as [|[id body| | |] rest] eqn:Ein.
  1, 3, 4, 5: intros [= <- <-]; exists []; split_and!; auto 10.
  cbv [modify mbind M_bind mret M_ret]. cbv iota beta.
  assert (gc_sock (set_in rest c) = gc_sock c /\ gc_next_id (set_in rest c) = gc_next_id c
          /\ gc_pending (set_in rest c) = gc_pending c) as (Hs & Hn & Hp) by done.
  destruct body as [evt|code|sc tr ca ii ge|which rows].
  - unfold queue. cbv [mbind M_bind get lift modify]. cbn [gc_pending set_in]. destruct (queue_event MAX_PENDING_EVENTS evt (gc_pending c)) as [q|x] eqn:Eq.
    + cbn. intros Hr. apply IH in Hr as (pre & Hpre & Hs' & Hn' & Hr). cbn in *.
      exists (InFrame id (BEvent evt) :: pre). split_and!; [by constructor|done|done|].
      destruct r as [body|e].
      * destruct Hr as [Hin Hq]. split; [by rewrite Hin|].
        unfold queue_all. csimpl. rewrite Eq. exact Hq.
      * destruct Hr as [?|[?|[?|[?|[(code & rest' & Hin & ?)|(q' & Hq')]]]]]; auto 10.
        -- do 4 right. left. exists code, rest'. by rewrite Hin.
        -- do 5 right. exists (evt :: q'). unfold queue_all. csimpl. rewrite Eq. exact Hq'.
    + intros [= <- <-]. exists []. split_and!; auto. do 5 right. exists [evt].
      unfold queue_all. csimpl. exact Eq.
  - destruct (Z.eqb_spec id rid) as [->|]; cbn; intros [= <- <-]; exists []; split_and!; auto 10.
    do 4 right. left. exists code, rest. done.
  - destruct (Z.eqb_spec id rid) as [->|]; cbn; intros [= <- <-]; exists []; split_and!; auto 10.
  - destruct (Z.eqb_spec id rid) as [->|]; cbn; intros [= <- <-]; exists []; split_and!; auto 10.
Qed.

Section RpcFacts.
Variable writable : Z -> bool.

Lemma rpc_run c r c' :
  rpc writable c = (r, c') ->
  (gc_sock c = false /\ r = Raise not_connected /\ c' = c)
  \/ (gc_sock c = true /\ writable (gc_next_id c) = false
      /\ r = Raise (gateway_error "not_sent") /\ gc_sock c' = false)
  \/ (gc_sock c = true /\ writable (gc_next_id c) = true
      /\ exists r1 c1, await_reply (S (length (gc_in c))) (gc_next_id c) (bump_id c) = (r1, c1)
         /\ match r1 with
            | Ok body => r = Ok body /\ c' = c1
            | Raise e =>
                if bool_decide (ex_class e = ExTimeout) then
                  r = Raise rpc_timeout /\ c' = set_sock false c1
                else if bool_decide (ex_class e = ExGateway) && is_fatal_wire e then
                  r = Raise e /\ c' = set_sock false c1
                else r = Raise e /\ c' = c1
            end).
Proof.
  unfold rpc. unfold mbind at 1, M_bind at 1. cbv [get].
  destruct (gc_sock c) eqn:Hs; cbn [negb]; [|intros [= <- <-]; auto].
  unfold mbind at 1, M_bind at 1. cbn [modify].
  destruct (writable (gc_next_id c)) eqn:Hw; cbn [negb].
  2:{ intros [= <- <-]. right. left. done. }
  intros Hr. right. right. split_and!; [done|done|].
  unfold catchM in Hr.
  destruct (await_reply (S (length (gc_in c))) (gc_next_id c) (bump_id c)) as [r1 c1].
  exists r1, c1. split; [done|]. destruct r1 as [body|e]; [by simplify_eq|].
  unfold any_exn in Hr. repeat case_match; cbv [modify throw mbind M_bind] in Hr; by simplify_eq.
Qed.

(** (C16) A reply answers its request, and "not sent" means not sent.  When a
    request returns, the frame returned carries the request's own id and only
    event frames were read before it, all of them queued in arrival order.  When
    it fails with code [not_sent], either [sendall] failed (and the connection
    is closed) or the parent answered this very request with that code: a
    timeout, an end of stream, an oversized or uncorrelated frame after the
    request was written never reads as a request that never left. *)
Theorem rpc_correlates c r c' :
  rpc writable c = (r, c') ->
  match r with
  | Ok body =>
      gc_next_id c' = gc_next_id c + 1
      /\ exists pre, Forall is_event_frame pre
         /\ gc_in c = pre ++ InFrame (gc_next_id c) body :: gc_in c'
         /\ queue_all (events_of pre) (gc_pending c) = Ok (gc_pending c')
  | Raise e =>
      ex_code e = Some "not_sent" ->
      (writable (gc_next_id c) = false /\ gc_sock c' = false)
      \/ InFrame (gc_next_id c) (BError "not_sent") ∈ gc_in c
  end.
Proof.
  intros Hr. apply rpc_run in Hr
    as [(_ & -> & _)|[(_ & Hw & -> & Hc)|(Hs & Hw & r1 & c1 & E & Hr)]].
  - done.
  - by left.
  - apply await_reply_spec in E as (pre & Hpre & Hs1 & Hn1 & H1).
    destruct r1 as [body|e].
    + destruct Hr as [-> ->]. destruct H1 as [Hin Hq]. split; [done|]. exists pre. done.
    + assert (r = Raise e \/ r = Raise rpc_timeout) as [->| ->]
        by (repeat case_match; naive_solver); [|done].
      intros Hcode. right. clear Hr.
      destruct H1 as [->|[->|[->|[->|[(code & rest & Hin & ->)|(q & Hq)]]]]]; try done.
      * replace code with "not_sent" in Hin; [cbn in Hin; rewrite Hin; set_solver|].
        simpl in Hcode. unfold normalize_error_code in Hcode.
        case_bool_decide; simplify_eq; done.
      * by rewrite (queue_all_code _ _ _ Hq) in Hcode.
Qed.

End RpcFacts.

(** A parent that pushes an event before its answer. *)
Definition chatty : Client :=
  MkClient true 7 [] [InFrame 0 (BEvent (tick 1)); InFrame 7 (BResponse "ack" []); InEof]
    [] false false 0 0.

Definition chatty_reply : res Body * Client := rpc (fun _ => true) chatty.

Definition reply_checked : bool :=
  match chatty_reply.1 with Ok (BResponse w _) => bool_decide (w = "ack") | _ => false end.

Lemma rpc_correlates_witness :
  reply_checked = true /\
  match chatty_reply.1 with
  | Ok body =>
      gc_next_id chatty_reply.2 = 8
      /\ exists pre, Forall is_event_frame pre
         /\ gc_in chatty = pre ++ InFrame 7 body :: gc_in chatty_reply.2
         /\ queue_all (events_of pre) (gc_pending chatty) = Ok (gc_pending chatty_reply.2)
  | Raise e =>
      ex_code e = Some "not_sent" ->
      (true = false /\ gc_sock chatty_reply.2 = false)
      \/ InFrame 7 (BError "not_sent") ∈ gc_in chatty
  end.
Proof.
  split; [vm_compute; reflexivity|].
  exact (rpc_correlates (fun _ => true) chatty chatty_reply.1 chatty_reply.2
           (surjective_pairing _)).
Defined.

(** ** Facts: polls *)

(** A poll returns the first event of its stream, and leaves the queue rotated
    at that point. *)
Lemma rotate_find_spec n pred pre e post :
  forallb (fun x => negb (pred x)) pre = true -> pred e = true -> (length pre < n)%nat ->
  rotate_find n pred (pre ++ e :: post) = (Some e, post ++ pre).
Proof.
  revert n post. induction pre as [|x pre IH]; intros n post; cbn [app forallb length];
    (destruct n as [|n]; [lia|]); cbn [rotate_find].
  - intros _ He _. by rewrite He, app_nil_r.
  - intros [Hx Hp]%andb_true_iff He Hn. apply negb_true_iff in Hx. rewrite Hx.
    rewrite <- app_assoc. cbn [app]. rewrite IH by (done || lia). by rewrite <- app_assoc.
Qed.

(** A poll of one stream reorders the others: with two order notifications
    queued around a PnL event, polling PnL puts the later notification first. *)
Definition mixed : Client :=
  MkClient true 1 [note_order 1; pnl_row 1; note_order 2] [] [] false false 0 0.

Lemma poll_reorders_other_streams :
  let '(p, c1) := poll_pnl_event 0 mixed in
  let '(o, _) := poll_order_event 0 c1 in
  p = Ok (Some (pnl_row 1)) /\ o = Ok (Some (note_order 2)).
Proof. vm_compute. split; reflexivity. Qed.

(** ** Attaching ([attach.py], [_dial_with_attach], [_handshake_until_ready]) *)

Definition attach_error (code : string) : exn := Exn ExAttach (Some code) "".

(** [TimeoutError] and [BlockingIOError] are [OSError]s. *)
Definition is_os_error (e : exn) : bool :=
  match ex_class e with ExOs | ExTimeout => true | _ => false end.

(** [RuntimeError]: [GatewayError] and [AttachError] are subclasses. *)
Definition is_runtime_error (e : exn) : bool :=
  match ex_class e with
  | ExRuntime | ExGateway | ExAttach | ExVenueQueryUnavailable | ExReconUnavailable
  | ExChannel | ExChannelLagged | ExChannelClosed | ExNotConnected => true
  | _ => false
  end.

(** What each poll of the wait loop sees: is the flock held, does the socket
    accept.  The deadline allows [polls] of them. *)
Fixpoint wait_for_parent_socket (polls : list (bool * bool)) : res unit :=
  match polls with
  | [] => Raise (attach_error "listen_path_mismatch")
  | (held, listening) :: polls' =>
      if negb held then Raise (attach_error "parent_flock_held_no_socket")
      else if (listening : bool) then Ok tt
      else wait_for_parent_socket polls'
  end.

Definition resolve_dial_failure (flock_held : bool) (polls : list (bool * bool)) : res unit :=
  if flock_held then wait_for_parent_socket polls
  else Raise (attach_error "parent_not_running").

(** [first] and [again] are the outcomes of the two dials. *)
Definition dial_with_attach (first again : res unit) (flock_held : bool)
  (polls : list (bool * bool)) : res unit :=
  match first with
  | Ok _ => Ok tt
  | Raise e =>
      if negb (is_os_error e) then Raise e
      else
        match resolve_dial_failure flock_held polls with
        | Raise attach_exc =>
            match again with
            | Ok _ => Ok tt
            | Raise x =>
                if is_os_error x || is_runtime_error x || is_value_error x then Raise attach_exc
                else Raise x
            end
        | Ok _ =>
            match again with
            | Ok _ => Ok tt
            | Raise x =>
                if is_os_error x then Raise (attach_error "listen_path_mismatch") else Raise x
            end
        end
  end.

(** One turn of [_handshake_until_ready]: the handshake's outcome, whether the
    deadline has passed, and the outcomes of the re-dial and the flock check.
    [None] means the turns ran out with the loop still going. *)
Record HandshakeTurn := MkTurn {
  ht_handshake : res unit;
  ht_expired : bool;
  ht_dial : res unit;
  ht_flock : res unit
}.

Fixpoint handshake_until_ready (turns : list HandshakeTurn) : option (res unit) :=
  match turns with
  | [] => None
  | t :: turns' =>
      let again :=
        match ht_dial t with
        | Raise x => Some (Raise x)
        | Ok _ =>
            match ht_flock t with
            | Raise x => Some (Raise x)
            | Ok _ => handshake_until_ready turns'
            end
        end in
      match ht_handshake t with
      | Ok _ => Some (Ok tt)
      | Raise e =>
          if bool_decide (ex_class e = ExGateway) then
            if negb (bool_decide (ex_code e = Some "not_ready")) || ht_expired t
            then Some (Raise e) else again
          else if bool_decide (ex_class e = ExTimeout) then
            if ht_expired t then Some (Raise e) else again
          else Some (Raise e)
      end
  end.

(** [wait_until_live_md_clear] ([live_md.py]): each poll's state and whether the
    deadline has passed after it. *)
Fixpoint wait_until_live_md_clear (polls : list (pydict * bool)) : option (res pydict) :=
  match polls with
  | [] => None
  | (state, expired) :: polls' =>
      if negb (truthy (dget state "live_md")) then Some (Ok state)
      else if (expired : bool) then Some (Raise timeout_error)
      else wait_until_live_md_clear polls'
  end.

(** ** Facts: attaching *)

Definition returned (r : res unit) : bool := match r with Ok _ => true | Raise _ => false end.

(** An attach gives up only for a reason: with dials that fail as sockets do, it
    succeeds exactly when one of them does, and reports that no parent runs
    exactly when neither got through and the credential flock is free. *)
Lemma attach_outcome (again : res unit) (flock_held : bool) (polls : list (bool * bool)) e :
  is_os_error e = true -> (forall x, again = Raise x -> is_os_error x = true) ->
  let r := dial_with_attach (Raise e) again flock_held polls in
  (r = Ok tt <-> returned again = true)
  /\ (r = Raise (attach_error "parent_not_running") <-> returned again = false /\ flock_held = false).
Proof.
  intros He Hx. cbv zeta. unfold dial_with_attach. rewrite He. cbn [negb].
  unfold resolve_dial_failure.
  assert (wait_for_parent_socket polls = Ok tt
          \/ exists code, wait_for_parent_socket polls = Raise (attach_error code)
             /\ code <> "parent_not_running") as Hw.
  { induction polls as [|[held listening] polls IH]; simpl; [right; by eexists|].
    destruct held; simpl; [|right; by eexists]. destruct listening; auto. }
  destruct again as [[]|x]; simpl.
  - destruct flock_held; repeat case_match; naive_solver.
  - rewrite (Hx x eq_refl). simpl.
    destruct flock_held; [|naive_solver].
    destruct Hw as [->|(code & -> & Hc)]; simpl; split; split; intros; simplify_eq; naive_solver.
Qed.
