(* ===== verification/Book.v ===== *)
(** * Order-book assembly

    [fields_to_order_book_deltas], [_changed_levels], [_closed_batch] and
    [BookAssembler] of [data.py]: a snapshot replaces the book, a clear empties
    it, and the begin / middle / end parts of an update are collected per
    instrument and emitted as one batch.

    The flag bits are NautilusTrader's; the sources use only that they are
    distinct bits, which is the section's hypothesis. *)

From Stdlib Require Import Ascii String.
From stdpp Require Import base gmap strings list.
From Stdlib Require Import ZArith Lia.
From S2P Require Import Prelude PyVal Plant Lru Ident Nautilus Orders OrderRows Commission Host Convert.
Import Text.
Open Scope string_scope.
Open Scope list_scope.
Open Scope Z_scope.

Inductive BookAction := ACLEAR | AADD | AUPDATE | ADELETE.

Record BookOrder := MkBookOrder {
  bo_side : OrderSide; bo_price : Price; bo_size : Z; bo_order_id : Z
}.

Record Delta := MkDelta {
  dl_instrument : string;
  dl_action : BookAction;
  dl_order : option BookOrder;
  dl_flags : Z;
  dl_ts_event : Z;
  dl_ts_init : Z
}.

Record Batch := MkBatch { ba_instrument : string; ba_deltas : list Delta }.

#[export] Instance BookAction_eq_dec : EqDecision BookAction.
Proof. solve_decision. Defined.
#[export] Instance BookOrder_eq_dec : EqDecision BookOrder.
Proof. solve_decision. Defined.
#[export] Instance Delta_eq_dec : EqDecision Delta.
Proof. solve_decision. Defined.
#[export] Instance Batch_eq_dec : EqDecision Batch.
Proof. solve_decision. Defined.

(** [self._pending]: the deltas of half-received updates. *)
Abbreviation Pending := (gmap string (list Delta)).

Section Book.
Context `{NautilusTypes}.
Variables F_SNAPSHOT F_LAST : Z.

Definition F_SNAPSHOT_LAST : Z := Z.lor F_SNAPSHOT F_LAST.

Definition level_side (l : Level) : OrderSide := if lv_buy l then BUY else SELL.

Definition level_order (l : Level) (size : Z) (precision : option Z) : res BookOrder :=
  price ← price_from_wire (VFloat (lv_price l)) precision;
  qty ← quantity_from_int size;
  Ok (MkBookOrder (level_side l) price qty (lv_order_id l)).

(** The levels of a snapshot that are in the book. *)
Fixpoint snapshot_orders (levels : list Level) (precision : option Z) : res (list BookOrder) :=
  match levels with
  | [] => Ok []
  | l :: levels' =>
      size ← Z_of_f64 (lv_size l);
      if size <? 0 then Raise convert_error
      else if size =? 0 then snapshot_orders levels' precision
      else
        o ← level_order l size precision;
        rest ← snapshot_orders levels' precision;
        Ok (o :: rest)
  end.

(** [ADD] deltas, the last one closing the batch. *)
Fixpoint add_deltas (instrument : string) (ts_event ts_init : Z) (orders : list BookOrder)
  : list Delta :=
  match orders with
  | [] => []
  | [o] => [MkDelta instrument AADD (Some o) F_SNAPSHOT_LAST ts_event ts_init]
  | o :: rest =>
      MkDelta instrument AADD (Some o) F_SNAPSHOT ts_event ts_init
      :: add_deltas instrument ts_event ts_init rest
  end.

Definition fields_to_order_book_deltas (f : BookFields) (ts_init : Z) (precision : option Z)
  : res Batch :=
  instrument ← instrument_id_from_str (bf_instrument_id f);
  adds ← snapshot_orders (bf_levels f) precision;
  let clear flags := MkDelta instrument ACLEAR None flags (bf_ts_event f) ts_init in
  Ok (MkBatch instrument
        (match adds with
         | [] => [clear F_SNAPSHOT_LAST]
         | _ => clear F_SNAPSHOT :: add_deltas instrument (bf_ts_event f) ts_init adds
         end)).

Fixpoint changed_deltas (instrument : string) (ts_event ts_init : Z) (precision : option Z)
  (levels : list Level) : res (list Delta) :=
  match levels with
  | [] => Ok []
  | l :: levels' =>
      size ← Z_of_f64 (lv_size l);
      if size <? 0 then Raise convert_error
      else
        o ← level_order l size precision;
        rest ← changed_deltas instrument ts_event ts_init precision levels';
        Ok (MkDelta instrument (if size =? 0 then ADELETE else AUPDATE) (Some o) 0 ts_event ts_init
            :: rest)
  end.

Definition changed_levels (f : BookFields) (ts_init : Z) (precision : option Z)
  : res (list Delta) :=
  instrument ← instrument_id_from_str (bf_instrument_id f);
  changed_deltas instrument (bf_ts_event f) ts_init precision (bf_levels f).

Definition with_last (d : Delta) : Delta :=
  MkDelta (dl_instrument d) (dl_action d) (dl_order d) (Z.lor (dl_flags d) F_LAST)
    (dl_ts_event d) (dl_ts_init d).

Definition closed_batch (instrument : string) (deltas : list Delta) : Batch :=
  MkBatch instrument
    (match last deltas with
     | Some d => removelast deltas ++ [with_last d]
     | None => []
     end).

(** [BookAssembler.feed]. *)
Definition feed_book (f : BookFields) (ts_init : Z) (precision : option Z)
  : M Pending (option Batch) :=
  let key := bf_instrument_id f in
  instrument ← lift (instrument_id_from_str key);
  match bf_update_kind f with
  | BSnapshot =>
      modify (delete key) ;;
      b ← lift (fields_to_order_book_deltas f ts_init precision);
      mret (Some b)
  | BClear | BNoBook =>
      modify (delete key) ;;
      mret (Some (MkBatch instrument
        [MkDelta instrument ACLEAR None F_SNAPSHOT_LAST (bf_ts_event f) ts_init]))
  | kind =>
      changed ← lift (changed_levels f ts_init precision);
      pending ← get;
      match kind with
      | BBegin => modify (<[key := changed]>) ;; mret None
      | BMiddle => modify (<[key := default [] (pending !! key) ++ changed]>) ;; mret None
      | _ =>
          whenM (bool_decide (kind = BEnd)) (modify (delete key)) ;;
          let all := if bool_decide (kind = BEnd)
                     then default [] (pending !! key) ++ changed else changed in
          mret (match all with [] => None | _ => Some (closed_batch instrument all) end)
      end
  end.

(** The dispatch loop: a message that raises is skipped. *)
Fixpoint feed_all (msgs : list (BookFields * Z)) (precision : option Z)
  : M Pending (list Batch) :=
  match msgs with
  | [] => mret []
  | (f, ts_init) :: msgs' =>
      out ← catchM any_exn (feed_book f ts_init precision) (fun _ => mret None);
      rest ← feed_all msgs' precision;
      mret (match out with Some b => b :: rest | None => rest end)
  end.

(** ** Facts *)

Definition is_last (d : Delta) : bool := Z.land (dl_flags d) F_LAST =? F_LAST.

(** A batch a consumer may apply: not empty, closed by its last delta and by no
    other. *)
Definition well_closed (b : Batch) : Prop :=
  exists init d, ba_deltas b = init ++ [d] /\ is_last d = true
    /\ forallb (fun d => negb (is_last d)) init = true.

Definition open_deltas (l : list Delta) : Prop := Forall (fun d => dl_flags d = 0) l.

Definition pending_open (p : Pending) : Prop := map_Forall (fun _ l => open_deltas l) p.

Hypothesis Hlast : F_LAST <> 0.
Hypothesis Hdistinct : Z.land F_SNAPSHOT F_LAST = 0.

Lemma lor_last f : Z.land (Z.lor f F_LAST) F_LAST = F_LAST.
Proof. apply Z.bits_inj'. intros n _. rewrite Z.land_spec, Z.lor_spec. by destruct (Z.testbit f n), (Z.testbit F_LAST n). Qed.

Lemma snapshot_open d : dl_flags d = F_SNAPSHOT -> is_last d = false.
Proof. intros Hd. unfold is_last. rewrite Hd, Hdistinct. lia. Qed.

Lemma zero_open d : dl_flags d = 0 -> is_last d = false.
Proof. intros Hd. unfold is_last. rewrite Hd, Z.land_0_l. lia. Qed.

Lemma closed_batch_closed i l : l <> [] -> open_deltas l -> well_closed (closed_batch i l).
Proof.
  intros Hn Ho. unfold closed_batch.
  destruct l as [|d l] using rev_ind; [done|]. clear IHl.
  rewrite last_snoc, removelast_last. exists l, (with_last d). split_and!; [done| |].
  - unfold is_last. simpl. by rewrite lor_last, Z.eqb_refl.
  - apply Forall_app in Ho as [Ho _]. apply forallb_forall. intros x Hx.
    rewrite Forall_forall in Ho. rewrite zero_open; [done|]. apply Ho. by apply list_elem_of_In.
Qed.

Lemma add_deltas_closed i e t orders :
  orders <> [] -> exists init d, add_deltas i e t orders = init ++ [d] /\ is_last d = true
    /\ forallb (fun d => negb (is_last d)) init = true.
Proof.
  induction orders as [|o orders IH]; [done|]. intros _. destruct orders as [|o' orders].
  - eexists [], _. split_and!; [done| |done]. unfold is_last. simpl. unfold F_SNAPSHOT_LAST.
    by rewrite lor_last, Z.eqb_refl.
  - destruct IH as (init & d & E & Hd & Hi); [done|].
    exists (MkDelta i AADD (Some o) F_SNAPSHOT e t :: init), d.
    cbn [add_deltas] in *. rewrite E. split_and!; [done|done|]. cbn [forallb].
    rewrite snapshot_open by done. done.
Qed.

Lemma snapshot_closed f t prec b : fields_to_order_book_deltas f t prec = Ok b -> well_closed b.
Proof.
  unfold fields_to_order_book_deltas. destruct (instrument_id_from_str _); [csimpl|done].
  destruct (snapshot_orders _ _) as [adds|]; [csimpl|done]. intros [= <-]. unfold well_closed. simpl.
  destruct adds as [|o adds].
  - eexists [], _. split_and!; [done| |done]. unfold is_last, F_SNAPSHOT_LAST. simpl.
    by rewrite lor_last, Z.eqb_refl.
  - destruct (add_deltas_closed a (bf_ts_event f) t (o :: adds)) as (init & d & E & Hd & Hi); [done|].
    eexists (_ :: init), d. rewrite E. split_and!; [done|done|]. cbn [forallb].
    by rewrite snapshot_open.
Qed.

Lemma changed_open f t prec l : changed_levels f t prec = Ok l -> open_deltas l.
Proof.
  unfold changed_levels. destruct (instrument_id_from_str _) as [i|]; [csimpl|done].
  revert l. induction (bf_levels f) as [|lv levels IH]; intros l; cbn [changed_deltas];
    [intros [= <-]; constructor|].
  destruct (Z_of_f64 _); [csimpl|done]. case_match; [done|].
  destruct (level_order _ _ _); [csimpl|done].
  destruct (changed_deltas _ _ _ _ levels); [csimpl|done]. intros [= <-].
  constructor; [done|]. by apply IH.
Qed.

Lemma pending_part p k : pending_open p -> open_deltas (default [] (p !! k)).
Proof. intros Hp. destruct (p !! k) eqn:E; simpl; [by eapply Hp|constructor]. Qed.

Lemma feed_closed f t prec p r p' :
  pending_open p -> feed_book f t prec p = (r, p') ->
  pending_open p' /\ forall b, r = Ok (Some b) -> well_closed b.
Proof.
  intros Hp. unfold feed_book. cbv zeta. unfold mbind at 1, M_bind at 1, lift at 1.
  destruct (instrument_id_from_str _) as [i|x]; [|by intros [= <- <-]].
  assert (forall k, pending_open (delete k p)) as Hdel
    by (intros k; by apply map_Forall_delete).
  assert (forall l : list Delta, l <> [] -> open_deltas l -> well_closed (closed_batch i l))
    as Hcl by (intros; by apply closed_batch_closed).
  destruct (bf_update_kind f); run_monad.
  1, 2: intros [= <- <-]; split; [done|]; intros b [= <-]; eexists [], _;
        split_and!; [done| |done]; unfold is_last, F_SNAPSHOT_LAST; simpl;
        by rewrite lor_last, Z.eqb_refl.
  { destruct (fields_to_order_book_deltas f t prec) as [b|x] eqn:E; intros [= <- <-];
      (split; [done|]); intros b' [= <-]. by eapply snapshot_closed. }
  all: destruct (changed_levels f t prec) as [l|x] eqn:E; [|by intros [= <- <-]].
  all: pose proof (changed_open _ _ _ _ E) as Hl;
       pose proof (pending_part p (bf_instrument_id f) Hp) as Hq.
  - intros [= <- <-]. split; [by apply map_Forall_insert_2|done].
  - intros [= <- <-]. split; [|done]. apply map_Forall_insert_2; [by apply Forall_app|done].
  - rewrite bool_decide_eq_true_2 by done. intros [= <- <-]. split; [done|].
    intros b. case_match eqn:El; [done|]. intros [= <-]. rewrite <- El.
    apply Hcl; [by rewrite El|by apply Forall_app].
  - rewrite bool_decide_eq_false_2 by done. intros [= <- <-]. split; [done|].
    intros b. destruct l; [done|]. intros [= <-]. by apply Hcl.
Qed.

Lemma catch_feed f t prec p :
  pending_open p ->
  exists o p1, catchM any_exn (feed_book f t prec) (fun _ => mret None) p = (Ok o, p1)
    /\ pending_open p1 /\ forall b, o = Some b -> well_closed b.
Proof.
  intros Hp. unfold catchM, any_exn. destruct (feed_book f t prec p) as [r p1] eqn:E.
  destruct (feed_closed _ _ _ _ _ _ Hp E) as [Hp1 Hb].
  destruct r as [o|e]; [exists o|exists None]; exists p1; (split; [done|]); [|done].
  split; [done|]. intros b ->. by apply Hb.
Qed.

Lemma feed_all_cons f t msgs prec p o p1 :
  catchM any_exn (feed_book f t prec) (fun _ => mret None) p = (Ok o, p1) ->
  forall bs p2, feed_all msgs prec p1 = (Ok bs, p2) ->
  feed_all ((f, t) :: msgs) prec p = (Ok (match o with Some b => b :: bs | None => bs end), p2).
Proof.
  intros E bs p2 E2. cbn [feed_all]. unfold mbind at 1, M_bind at 1. rewrite E.
  unfold mbind, M_bind. by rewrite E2.
Qed.

(** *** Multi-part updates *)

(** The deltas a part contributes; a part that cannot be read contributes
    none. *)
Definition part_deltas (k : string) (prec : option Z) (m : BookFields * Z) : list Delta :=
  if bool_decide (bf_instrument_id m.1 = k) then
    match changed_levels m.1 m.2 prec with Ok l => l | Raise _ => [] end
  else [].

(** Only parts of [k]'s update, or messages of other instruments. *)
Definition only_middles (k : string) (m : BookFields * Z) : Prop :=
  bf_instrument_id m.1 = k -> bf_update_kind m.1 = BMiddle.

(** A message leaves the half-received update of [k] alone, or extends it. *)
Lemma feed_middle k f t prec p acc :
  pending_open p -> p !! k = Some acc -> only_middles k (f, t) ->
  exists o p1, catchM any_exn (feed_book f t prec) (fun _ => mret None) p = (Ok o, p1)
    /\ pending_open p1 /\ (forall b, o = Some b -> well_closed b)
    /\ ((exists i, instrument_id_from_str k = Ok i) ->
        p1 !! k = Some (acc ++ part_deltas k prec (f, t))).
Proof.
  intros Hp Hk Hm. destruct (catch_feed f t prec p Hp) as (o & p1 & E & Hp1 & Ho).
  exists o, p1. split_and!; [done..|]. intros [i Hi]. revert E.
  unfold part_deltas, only_middles in *. simpl in *. unfold catchM, any_exn, feed_book. cbv zeta.
  destruct (decide (bf_instrument_id f = k)) as [Ek|Hne].
  - rewrite bool_decide_eq_true_2 by done. rewrite (Hm Ek), Ek. unfold changed_levels. rewrite Ek, Hi. run_monad. cbv [res_bind].
    destruct (changed_deltas i (bf_ts_event f) t prec (bf_levels f)) as [l|x]; intros [= _ <-].
    + rewrite Hk. simpl. by rewrite lookup_insert_eq, bool_decide_eq_true_2.
    + by rewrite bool_decide_eq_true_2, app_nil_r.
  - rewrite (bool_decide_eq_false_2 (bf_instrument_id f = k)), app_nil_r by done.
    assert (forall l : list Delta, (<[bf_instrument_id f := l]> p : Pending) !! k = Some acc) as Hins
      by (intros l; by rewrite lookup_insert_ne).
    assert ((delete (bf_instrument_id f) p : Pending) !! k = Some acc) as Hdel
      by (by rewrite lookup_delete_ne).
    run_monad. destruct (instrument_id_from_str (bf_instrument_id f)); [|intros ?; by simplify_eq/=].
    destruct (bf_update_kind f); [..|].
    1, 2: intros ?; by simplify_eq/=.
    { destruct (fields_to_order_book_deltas _ _ _); intros ?; by simplify_eq/=. }
    all: destruct (changed_levels _ _ _); [|intros ?; by simplify_eq/=].
    all: rewrite ?bool_decide_eq_true_2, ?bool_decide_eq_false_2 by done; intros ?; by simplify_eq/=.
Qed.

Lemma feed_middles k i prec msgs : forall p acc,
  pending_open p -> p !! k = Some acc -> Forall (only_middles k) msgs ->
  instrument_id_from_str k = Ok i ->
  exists bs p1, feed_all msgs prec p = (Ok bs, p1) /\ Forall well_closed bs /\ pending_open p1
    /\ p1 !! k = Some (acc ++ concat (part_deltas k prec <$> msgs)).
Proof.
  induction msgs as [|[f t] msgs IH]; intros p acc Hp Hk Hm Hi.
  { exists [], p. csimpl. rewrite app_nil_r. split_and!; try done. }
  apply Forall_cons in Hm as [Hm Hms].
  destruct (feed_middle k f t prec p acc Hp Hk Hm) as (o & p1 & E & Hp1 & Ho & Hk1).
  destruct (IH p1 _ Hp1 (Hk1 (ex_intro _ i Hi)) Hms Hi) as (bs & p2 & E2 & Hbs & Hp2 & Hk2).
  exists (match o with Some b => b :: bs | None => bs end), p2.
  split; [by eapply feed_all_cons|]. split_and!; [|done|].
  - destruct o; [constructor; auto|done].
  - rewrite Hk2. csimpl. by rewrite <- app_assoc.
Qed.

(** (C38) A multi-part book update is one batch.  After the begin of an
    instrument's update, any number of middle parts of it, interleaved with any
    messages of other instruments, and its end: the end emits, as one batch,
    exactly the changed levels of the begin, of the readable middles and of the
    end, in order; and every batch the assembler emits is non-empty and closed
    by its last delta and by no other. *)
Theorem multi_part_update_is_one_batch k i b tb mids e te prec p lb le :
  pending_open p -> instrument_id_from_str k = Ok i ->
  bf_instrument_id b = k -> bf_update_kind b = BBegin -> changed_levels b tb prec = Ok lb ->
  bf_instrument_id e = k -> bf_update_kind e = BEnd -> changed_levels e te prec = Ok le ->
  Forall (only_middles k) mids ->
  let all := lb ++ concat (part_deltas k prec <$> mids) ++ le in
  exists bs p1, feed_all ((b, tb) :: mids) prec p = (Ok bs, p1) /\ Forall well_closed bs
    /\ feed_book e te prec p1 =
         (Ok (match all with [] => None | _ => Some (closed_batch i all) end), delete k p1)
    /\ (all <> [] -> well_closed (closed_batch i all)).
Proof.
  intros Hp Hi Hb Kb Eb He Ke Ee Hm. cbv zeta.
  assert (catchM any_exn (feed_book b tb prec) (fun _ => mret None) p
          = (Ok None, <[k := lb]> p)) as E1.
  { unfold catchM, feed_book. cbv zeta. run_monad. by rewrite Hb, Hi, Kb, Eb. }
  assert (pending_open (<[k := lb]> p)) as Hp1.
  { apply map_Forall_insert_2; [by eapply changed_open|done]. }
  destruct (feed_middles k i prec mids (<[k := lb]> p) lb Hp1) as (bs & p1 & E2 & Hbs & Hp2 & Hk);
    [by rewrite lookup_insert_eq|done|done|].
  exists bs, p1. split_and!; [exact (feed_all_cons _ _ _ _ _ None _ E1 _ _ E2)|done| |].
  - unfold feed_book. cbv zeta. run_monad. rewrite He, Hi, Ke, Ee, Hk. simpl.
    by rewrite <- app_assoc.
  - intros Hn. apply closed_batch_closed; [done|].
    apply Forall_app. split; [by eapply changed_open|].
    apply Forall_app. split; [|by eapply changed_open].
    pose proof (Hp2 k _ Hk) as Ho. by apply Forall_app in Ho as [_ Ho].
Qed.

End Book.

#[local] Existing Instance PlainTypes.

Module BookSample.
Definition level (size : N) : Level := MkLevel true (f64_of_decimal false 2100025 (-2)) (f64_of_decimal false size 0) 1.
Definition part (id : string) (kind : BookUpdate) (sizes : list N) : BookFields :=
  MkBookFields id "MNQZ6" (VStr "CME") kind (level <$> sizes) 5.
Definition key : string := "MNQZ6-CME.RITHMIC".
Definition mids : list (BookFields * Z) :=
  [(part "NQZ6-CME.RITHMIC" BSnapshot [2%N], 1); (part key BMiddle [0%N], 2)].
Definition deltas (kind : BookUpdate) (sizes : list N) (t : Z) : list Delta :=
  match changed_levels (part key kind sizes) t (Some 2) with Ok l => l | Raise _ => [] end.
Definition reads (kind : BookUpdate) (sizes : list N) (t : Z) : bool :=
  match changed_levels (part key kind sizes) t (Some 2) with Ok _ => true | Raise _ => false end.
Lemma reads_ok kind sizes t : reads kind sizes t = true ->
  changed_levels (part key kind sizes) t (Some 2) = Ok (deltas kind sizes t).
Proof. unfold reads, deltas. by destruct (changed_levels _ _ _). Qed.
End BookSample.

Lemma multi_part_update_is_one_batch_witness :
  let all := BookSample.deltas BBegin [3%N] 0
             ++ concat (part_deltas BookSample.key (Some 2) <$> BookSample.mids)
             ++ BookSample.deltas BEnd [4%N] 3 in
  length all = 3%nat
  /\ exists bs p1,
       feed_all 32 128 ((BookSample.part BookSample.key BBegin [3%N], 0) :: BookSample.mids)
         (Some 2) ∅ = (Ok bs, p1)
       /\ Forall (well_closed 128) bs
       /\ feed_book 32 128 (BookSample.part BookSample.key BEnd [4%N]) 3 (Some 2) p1 =
            (Ok (match all with [] => None | _ => Some (closed_batch 128 BookSample.key all) end),
             delete BookSample.key p1)
       /\ (all <> [] -> well_closed 128 (closed_batch 128 BookSample.key all)).
Proof.
  split; [vm_compute; reflexivity|].
  apply (multi_part_update_is_one_batch 32 128 ltac:(done) eq_refl BookSample.key BookSample.key).
  - apply map_Forall_empty.
  - reflexivity.
  - reflexivity.
  - reflexivity.
  - apply BookSample.reads_ok. vm_compute. reflexivity.
  - reflexivity.
  - reflexivity.
  - apply BookSample.reads_ok. vm_compute. reflexivity.
  - repeat constructor; intros ?; done.
Defined.
