(* ===== verification/Bars.v ===== *)
(** * Bars: conversion, history requests and the live sequence

    The bar half of [data.py]: the mapping of a Nautilus [BarType] to the wire
    and back ([bar_type_to_rithmic], [bar_wire_period_keys],
    [bar_types_for_event], [bar_resync_subscriptions]), the conversion of venue
    rows ([_validate_history_identity], [fields_to_bar], [payloads_to_bars]),
    [closed_bars], [BarSequenceGuard], and [_request_bars] with its failure
    tags. *)

From Stdlib Require Import Ascii String.
From stdpp Require Import base gmap strings list sorting.
From Stdlib Require Import ZArith Lia.
From S2P Require Import Prelude PyVal Plant Lru Ident Nautilus Orders OrderRows Commission Host Convert.
Import Text.
Open Scope string_scope.
Open Scope list_scope.
Open Scope Z_scope.

(** ** Bar types *)

Inductive BarAggregation := ASecond | AMinute | AHour | ADay | AWeek | AOther.

#[export] Instance BarAggregation_eq_dec : EqDecision BarAggregation.
Proof. solve_decision. Defined.

Record BarType := MkBarType {
  bt_instrument_id : string;
  bt_aggregation : BarAggregation;
  bt_step : Z;
  bt_external : bool
}.

#[export] Instance BarType_eq_dec : EqDecision BarType.
Proof. solve_decision. Defined.

Definition RITHMIC_SECOND : Z := 1.
Definition RITHMIC_MINUTE : Z := 2.
Definition RITHMIC_DAILY : Z := 3.
Definition RITHMIC_WEEKLY : Z := 4.

Definition SEC_NS : Z := 1000000000.

Definition bar_type_duration_ns (bt : BarType) : Z :=
  match bt_aggregation bt with
  | ASecond => bt_step bt * SEC_NS
  | AMinute => bt_step bt * 60 * SEC_NS
  | AHour => bt_step bt * 60 * 60 * SEC_NS
  | _ => 0
  end.

Definition external_bar_advertised (bt : BarType) : bool :=
  match bt_aggregation bt with
  | AMinute => (bt_step bt =? 1) || (bt_step bt =? 15) || (bt_step bt =? 60)
  | AHour | ADay => bt_step bt =? 1
  | _ => false
  end.

Definition bar_type_to_rithmic (bt : BarType) : res (Z * Z) :=
  let step := bt_step bt in
  if step <? 1 then Raise (Exn ExValue None "bar step must be >= 1")
  else
    match bt_aggregation bt with
    | ASecond => Ok (RITHMIC_SECOND, step)
    | AMinute => Ok (RITHMIC_MINUTE, step)
    | AHour => Ok (RITHMIC_MINUTE, step * 60)
    | ADay => Ok (RITHMIC_DAILY, step)
    | AWeek => Ok (RITHMIC_WEEKLY, step)
    | AOther => Raise (Exn ExValue None "unsupported bar aggregation")
    end.

Definition bar_wire_period_keys (bt : BarType) : res (list Z) :=
  let step := bt_step bt in
  '(_, period) ← bar_type_to_rithmic bt;
  let seconds :=
    match bt_aggregation bt with
    | ASecond => step
    | AMinute => step * 60
    | AHour => step * 3600
    | ADay => step * 86400
    | AWeek => step * 604800
    | AOther => 0
    end in
  Ok (period :: (if negb (seconds =? 0) && negb (seconds =? period) then [seconds] else [])).

(** Registered bar types per wire key [(symbol, exchange, rtype, period)]. *)
Definition WireKey : Type := (string * string * Z * Z)%type.
Abbreviation BarTypes := (gmap WireKey (list BarType)).

Definition bar_types_for_event (bar_types : BarTypes) (event : pydict) : res (list BarType) :=
  let symbol := str_or_empty (dget event "symbol") in
  let exchange := str_or_empty (dget event "exchange") in
  rtype ← int_or_zero (dget event "bar_type");
  let raw := dget event "period" in
  period ← (if is_none raw || is_str raw "" then Ok 1
            else catch is_type_or_value_error (py_int raw) (fun _ => Ok 1));
  Ok (default [] (bar_types !! (symbol, exchange, rtype, period))).

Definition bar_resync_subscriptions (bar_types : BarTypes) : res (list WireKey) :=
  foldr (fun kv acc =>
    let '((symbol, exchange, _, _), mapped) := kv in
    foldr (fun bt acc =>
      acc' ← acc;
      '(rtype, period) ← bar_type_to_rithmic bt;
      let key := (symbol, exchange, rtype, period) in
      Ok (if bool_decide (key ∈ acc') then acc' else key :: acc')) acc mapped)
    (Ok []) (map_to_list bar_types).

(** ** Conversion *)

Record Bar := MkBar {
  b_type : BarType;
  b_open : Price; b_high : Price; b_low : Price; b_close : Price;
  b_volume : Z;
  b_ts_event : Z;
  b_ts_init : Z
}.

(** An exact integer, or -1. *)
Definition exact_rtype (v : pyval) : Z :=
  match v with
  | VInt n => n
  | VStr s => match Z_of_str s with Some n => n | None => -1 end
  | _ => -1
  end.

Definition validate_history_identity (payload : pydict) (symbol exchange : string)
  (expected_rtype : option Z) : res unit :=
  let mismatch k want := negb (is_none (dget payload k)) && negb (bool_decide (py_str (dget payload k) = want)) in
  if mismatch "symbol" symbol then Raise convert_error
  else if mismatch "exchange" exchange then Raise convert_error
  else
    match expected_rtype with
    | Some want =>
        let raw := dget payload "bar_type" in
        if negb (is_none raw) && negb (exact_rtype raw =? want) then Raise convert_error
        else Ok tt
    | None => Ok tt
    end.

Definition is_convert_error (e : exn) : bool := bool_decide (ex_class e = ExConvert).

Section Convert.
Context `{NautilusTypes}.

Definition fields_to_bar (fields : pydict) (bt : BarType) (ts_init : Z) (precision : option Z)
  (timestamp_on_close : bool) : res Bar :=
  volume ← py_int (dget fields "volume");
  if volume <? 0 then Raise convert_error
  else
    ts ← py_int (dget fields "ts_event");
    let ts_event := if timestamp_on_close then ts else ts - bar_type_duration_ns bt in
    o ← price_from_wire (dget fields "open") precision;
    h ← price_from_wire (dget fields "high") precision;
    l ← price_from_wire (dget fields "low") precision;
    c ← price_from_wire (dget fields "close") precision;
    v ← quantity_from_int volume;
    Ok (MkBar bt o h l c v ts_event ts_init).

(** [payload["k"] = v] when it is missing or [None]. *)
Definition fill_missing (k v : string) (d : pydict) : pydict :=
  if is_none (dget d k) then <[k := VStr v]> d else d.

(** The rows in order; an unreadable row is skipped, a foreign one fails the
    reply. *)
Fixpoint convert_bars (rows : list pydict) (symbol exchange : string) (bt : BarType) (rtype : Z)
  (precision : option Z) (ts_init : Z) (on_close : bool) : res (list Bar) :=
  match rows with
  | [] => Ok []
  | raw :: rows' =>
      _ ← validate_history_identity raw symbol exchange (Some rtype);
      let payload := fill_missing "exchange" exchange (fill_missing "symbol" symbol raw) in
      here ← catch is_convert_error
        (fields ← time_bar_to_fields payload;
         b ← fields_to_bar fields bt ts_init precision on_close;
         Ok [b])
        (fun _ => Ok []);
      rest ← convert_bars rows' symbol exchange bt rtype precision ts_init on_close;
      Ok (here ++ rest)
  end.

End Convert.

(** [list.sort(key=ts_event)]: stable. *)
Fixpoint insert_bar (b : Bar) (l : list Bar) : list Bar :=
  match l with
  | [] => [b]
  | x :: l' => if b_ts_event b <=? b_ts_event x then b :: l else x :: insert_bar b l'
  end.
Definition sort_bars (l : list Bar) : list Bar := foldr insert_bar [] l.

Definition payloads_to_bars `{NautilusTypes} (rows : list pydict) (symbol exchange : string)
  (bt : BarType) (precision : option Z) (ts_init : Z) (on_close : bool) : res (list Bar) :=
  '(rtype, _) ← bar_type_to_rithmic bt;
  bars ← convert_bars rows symbol exchange bt rtype precision ts_init on_close;
  Ok (sort_bars bars).

Definition DAY_NS : Z := 86400 * SEC_NS.

Definition closed_bars (bars : list Bar) (bt : BarType) (end_ns : Z) (on_close : bool) : list Bar :=
  let dur := bar_type_duration_ns bt in
  if negb (dur =? 0) && on_close then List.filter (fun b => b_ts_event b <=? end_ns) bars
  else
    let dur' :=
      if dur =? 0 then
        (if bool_decide (bt_aggregation bt = AWeek) then 7 else 1) * Z.max 1 (bt_step bt) * DAY_NS
      else dur in
    List.filter (fun b => b_ts_event b + dur' <=? end_ns) bars.

(** ** The sequence guard *)

Definition Guard : Type := list (BarType * Z).

Definition guard_get (g : Guard) (bt : BarType) : option Z :=
  snd <$> List.find (fun p => bool_decide (p.1 = bt)) g.

Definition guard_set (bt : BarType) (t : Z) (g : Guard) : Guard :=
  (bt, t) :: List.filter (fun p => negb (bool_decide (p.1 = bt))) g.

Definition guard_note (b : Bar) (g : Guard) : Guard :=
  guard_set (b_type b) (Z.max (default 0 (guard_get g (b_type b))) (b_ts_event b)) g.

Definition guard_admit (b : Bar) (g : Guard) : bool * Guard :=
  if b_ts_event b <=? default (-1) (guard_get g (b_type b)) then (false, g)
  else (true, guard_set (b_type b) (b_ts_event b) g).

(** ** [_request_bars] *)

(** [_REQUEST_BARS_ERRORS]: insertion-ordered, bounded. *)
Definition ErrorTags : Type := list (string * string).
Definition MAX_REQUEST_BARS_ERRORS : nat := 256.

Definition assoc_put (k v : string) (l : ErrorTags) : ErrorTags :=
  if existsb (fun p => bool_decide (p.1 = k)) l
  then (fun p => if bool_decide (p.1 = k) then (k, v) else p) <$> l
  else l ++ [(k, v)].

Definition note_request_bars_error (id tag : string) (l : ErrorTags) : ErrorTags :=
  let l' := assoc_put id tag l in
  drop (length l' - MAX_REQUEST_BARS_ERRORS) l'.

Definition request_bars_error (id : string) (l : ErrorTags) : option string * ErrorTags :=
  (snd <$> List.find (fun p => bool_decide (p.1 = id)) l,
   List.filter (fun p => negb (bool_decide (p.1 = id))) l).

Definition is_live_md_history_denied (e : exn) : bool :=
  bool_decide (ex_code e = Some "capability_denied")
  || contains "history_denied_live_md" (ex_text e)
  || contains "capability_denied" (ex_text e).

(** The replies of the retry loop in turn, each with whether the deadline has
    passed; [None] while it still retries. *)
Fixpoint load_with_retry (replies : list (res (list pydict) * bool)) : option (res (list pydict)) :=
  match replies with
  | [] => None
  | (Ok rows, _) :: _ => Some (Ok rows)
  | (Raise e, expired) :: replies' =>
      if is_live_md_history_denied e && negb expired then load_with_retry replies'
      else Some (Raise e)
  end.

(** [bars[-limit:]] when there is a limit. *)
Definition last_n {A} (limit : Z) (l : list A) : list A :=
  if limit =? 0 then l
  else if 0 <? limit then drop (length l - Z.to_nat limit) l
  else drop (Z.to_nat (- limit)) l.

Record DataState := MkData { ds_guard : Guard; ds_errors : ErrorTags }.

(** What reaches [_handle_bars] once the loop ended with [reply].
    [precision] is [None] when the instrument is not cached. *)
Definition answer_bars `{NautilusTypes} (bt : BarType) (id symbol exchange : string)
  (reply : res (list pydict)) (precision : option Z) (ts_init end_ns limit : Z) (on_close : bool)
  : M DataState (list Bar) :=
  match reply with
  | Raise e =>
      let tag := if is_live_md_history_denied e then "hydrate_blocked_live_md" else "history_error" in
      modify (fun s => MkData (ds_guard s) (note_request_bars_error id tag (ds_errors s))) ;;
      mret []
  | Ok rows =>
      let converted :=
        match precision with
        | None => Raise convert_error
        | Some p => payloads_to_bars rows symbol exchange bt (Some p) ts_init on_close
        end in
      match converted with
      | Raise e => if is_value_error e then mret [] else throw e
      | Ok bars =>
          let bars := last_n limit (closed_bars bars bt end_ns on_close) in
          modify (fun s => MkData (fold_left (fun g b => guard_note b g) bars (ds_guard s))
                             (ds_errors s)) ;;
          mret bars
      end
  end.

(** [_request_bars]: a request that cannot be routed or mapped, or has no
    window ([end_ns] is [None] when [start] or [end] is missing), is answered
    empty; otherwise the rows come from the retry loop.  [None] while that loop
    still retries. *)
Definition request_bars `{NautilusTypes} (bt : BarType) (id : string) (routed : res (string * string))
  (end_ns : option Z) (replies : list (res (list pydict) * bool)) (precision : option Z)
  (ts_init limit : Z) (on_close : bool) : M DataState (option (list Bar)) :=
  match (p ← routed; _ ← bar_type_to_rithmic bt; Ok p), end_ns with
  | Raise e, _ => if is_value_error e then mret (Some []) else throw e
  | Ok _, None => mret (Some [])
  | Ok (symbol, exchange), Some end_ns =>
      match load_with_retry replies with
      | None => mret None
      | Some reply =>
          bars ← answer_bars bt id symbol exchange reply precision ts_init end_ns limit on_close;
          mret (Some bars)
      end
  end.

(** ** Facts: the sequence guard *)

Lemma guard_get_set bt t g bt' :
  guard_get (guard_set bt t g) bt' = if bool_decide (bt = bt') then Some t else guard_get g bt'.
Proof.
  unfold guard_get, guard_set. simpl. case_bool_decide as E; [done|].
  induction g as [|[bt0 t0] g IH]; [done|]. simpl.
  case_bool_decide as E0; simpl; [|by case_bool_decide].
  subst bt0. by rewrite (bool_decide_eq_false_2 (bt = bt')).
Qed.

(** What reaches the engine: history answers and live bars, in order. *)
Inductive BarOp := History (bars : list Bar) | LiveBar (b : Bar).

(** Each delivery with whether it is a live bar. *)
Fixpoint deliver (ops : list BarOp) (g : Guard) : list (bool * Bar) :=
  match ops with
  | [] => []
  | History bars :: ops' =>
      ((fun b => (false, b)) <$> bars) ++ deliver ops' (fold_left (fun g b => guard_note b g) bars g)
  | LiveBar b :: ops' =>
      let '(ok, g') := guard_admit b g in
      if (ok : bool) then (true, b) :: deliver ops' g' else deliver ops' g'
  end.

(** [b] is at or behind the mark of its type. *)
Definition marked (g : Guard) (b : Bar) : Prop :=
  exists m, guard_get g (b_type b) = Some m /\ b_ts_event b <= m.

Lemma note_marks g b b' : marked g b' \/ b' = b -> marked (guard_note b g) b'.
Proof.
  intros Hm. unfold marked, guard_note. rewrite guard_get_set. case_bool_decide as E.
  - eexists. split; [done|]. destruct Hm as [(m & Hg & Hle)| ->]; [|lia].
    rewrite E, Hg. simpl. lia.
  - destruct Hm as [Hm| ->]; [done|done].
Qed.

Lemma notes_mark bars g b : marked g b \/ b ∈ bars -> marked (fold_left (fun g b => guard_note b g) bars g) b.
Proof.
  revert g. induction bars as [|x bars IH]; intros g Hm; simpl.
  - destruct Hm as [?|?%elem_of_nil]; done.
  - apply IH. destruct Hm as [?|Hm]; [left; apply note_marks; auto|].
    apply elem_of_cons in Hm as [->|?]; [left; apply note_marks; auto|auto].
Qed.

Lemma admit_marks g b b' : fst (guard_admit b g) = true -> marked g b' \/ b' = b ->
  marked (snd (guard_admit b g)) b'.
Proof.
  unfold guard_admit. destruct (Z.leb_spec (b_ts_event b) (default (-1) (guard_get g (b_type b))));
    [done|]. intros _ Hm. unfold marked. simpl. rewrite guard_get_set. case_bool_decide as E.
  - eexists. split; [done|]. destruct Hm as [(m & Hg & Hle)| ->]; [|lia].
    rewrite E, Hg in *. simpl in *. lia.
  - destruct Hm as [Hm| ->]; done.
Qed.

(** A delivered live bar is newer than everything behind the mark. *)
Lemma deliver_newer ops : forall g b b',
  marked g b -> (true, b') ∈ deliver ops g -> b_type b' = b_type b -> b_ts_event b < b_ts_event b'.
Proof.
  induction ops as [|[bars|x] ops IH]; intros g b b' Hm Hin Ht; cbn [deliver] in Hin.
  - by apply elem_of_nil in Hin.
  - apply elem_of_app in Hin as [Hin|Hin].
    + apply list_elem_of_fmap in Hin as (? & ? & _). done.
    + eapply IH; [|exact Hin|done]. apply notes_mark. by left.
  - pose proof (admit_marks g x) as Ha.
    destruct (guard_admit x g) as [[] g'] eqn:E; simpl in Ha.
    + apply elem_of_cons in Hin as [[= <-]|Hin]; [|by eapply IH; [apply Ha; auto|..]].
      destruct Hm as (m & Hg & Hle). unfold guard_admit in E. rewrite Ht, Hg in E. simpl in E.
      destruct (Z.leb_spec (b_ts_event b') m); [done|lia].
    + unfold guard_admit in E. case_match; simplify_eq. by eapply IH.
Qed.

(** No bar is delivered twice or backwards.  Over any sequence of history
    answers and live bars, every live bar that is delivered is strictly newer
    than every bar of its type delivered before it, from history or live. *)
Theorem live_bars_advance (ops : list BarOp) (g : Guard) (pre post : list (bool * Bar)) live b b' :
  deliver ops g = pre ++ (live, b) :: post ->
  (true, b') ∈ post -> b_type b' = b_type b -> b_ts_event b < b_ts_event b'.
Proof.
  revert g pre. induction ops as [|[bars|x] ops IH]; intros g pre E Hin Ht; cbn [deliver] in E.
  - by destruct pre.
  - apply app_eq_inv in E as [(k & E1 & E2)|(k & E1 & E2)].
    + destruct k as [|d k].
      * simpl in E2. symmetry in E2.
        eapply (IH _ []); [exact E2|done|done].
      * simplify_eq/=. assert ((live, b) ∈ (fun b => (false, b)) <$> bars) as Hb
          by (rewrite E1; set_solver).
        apply list_elem_of_fmap in Hb as (y & [= -> ->] & Hy).
        apply elem_of_app in Hin as [Hin|Hin].
        -- assert ((true, b') ∈ (fun b => (false, b)) <$> bars) as Hb
             by (rewrite E1; set_solver).
           apply list_elem_of_fmap in Hb as (? & ? & _). done.
        -- eapply deliver_newer; [|exact Hin|done]. apply notes_mark. by right.
    + eapply IH; [exact E2|done|done].
  - pose proof (admit_marks g x) as Ha. destruct (guard_admit x g) as [[] g']; simpl in Ha.
    + destruct pre as [|d pre]; simplify_eq/=.
      * eapply deliver_newer; [|exact Hin|done]. apply Ha; auto.
      * by eapply IH.
    + by eapply IH.
Qed.

(** ** Facts: history answers *)

(** When the venue considers the bar closed. *)
Definition bar_close_ns (bt : BarType) (on_close : bool) (b : Bar) : Z :=
  b_ts_event b +
  (if bar_type_duration_ns bt =? 0 then
     (if bool_decide (bt_aggregation bt = AWeek) then 7 else 1) * Z.max 1 (bt_step bt) * DAY_NS
   else if on_close then 0 else bar_type_duration_ns bt).

Lemma closed_bars_spec bars bt end_ns on_close :
  closed_bars bars bt end_ns on_close
  = List.filter (fun b => bar_close_ns bt on_close b <=? end_ns) bars.
Proof.
  unfold closed_bars, bar_close_ns. cbv zeta.
  destruct (bar_type_duration_ns bt =? 0); [done|]. simpl.
  destruct on_close; [|done]. apply List.filter_ext. intros b. by rewrite Z.add_0_r.
Qed.

Definition by_time (a b : Bar) : Prop := b_ts_event a <= b_ts_event b.

Lemma insert_bar_perm b l : insert_bar b l ≡ₚ b :: l.
Proof.
  induction l as [|x l IH]; simpl; [done|]. case_match; [done|]. rewrite IH. by constructor.
Qed.

Lemma insert_bar_sorted b l : StronglySorted by_time l -> StronglySorted by_time (insert_bar b l).
Proof.
  induction l as [|x l IH]; simpl; [repeat constructor|]. intros Hs.
  pose proof Hs as [Hx Hl]%StronglySorted_cons.
  destruct (Z.leb_spec (b_ts_event b) (b_ts_event x)).
  - apply StronglySorted_cons. split; [|done]. constructor; [done|].
    eapply Forall_impl; [exact Hx|]. unfold by_time. intros; lia.
  - apply StronglySorted_cons. split; [|by apply IH].
    rewrite insert_bar_perm. constructor; [unfold by_time; lia|done].
Qed.

Lemma sort_bars_sorted l : StronglySorted by_time (sort_bars l) /\ sort_bars l ≡ₚ l.
Proof.
  induction l as [|b l [IHs IHp]]; simpl; [by split; [constructor|]|].
  split; [by apply insert_bar_sorted|]. by rewrite insert_bar_perm, IHp.
Qed.

Lemma filter_sorted_time f l : StronglySorted by_time l -> StronglySorted by_time (List.filter f l).
Proof.
  induction l as [|x l IH]; simpl; [done|]. intros [Hx Hl]%StronglySorted_cons.
  case_match; [|by apply IH]. apply StronglySorted_cons. split; [|by apply IH].
  rewrite Forall_forall in *. intros y Hy%list_elem_of_In%List.filter_In.
  apply Hx, list_elem_of_In. naive_solver.
Qed.

Lemma drop_sorted_time n l : StronglySorted by_time l -> StronglySorted by_time (drop n l).
Proof. intros Hs. rewrite <- (take_drop n l) in Hs. by eapply StronglySorted_app_1_r. Qed.

(** [bars] are, in time order, the newest [limit] of [all] (all of them with no
    limit). *)
Definition newest (limit : Z) (all bars : list Bar) : Prop :=
  StronglySorted by_time bars /\
  exists old, all ≡ₚ old ++ bars /\
    (forall o b, o ∈ old -> b ∈ bars -> by_time o b) /\
    (limit = 0 -> old = []) /\
    (0 < limit -> Z.of_nat (length bars) = Z.min limit (Z.of_nat (length all))).

Lemma last_n_newest limit all l : StronglySorted by_time l -> l ≡ₚ all -> newest limit all (last_n limit l).
Proof.
  intros Hs Hp. unfold last_n.
  assert (forall n, StronglySorted by_time (drop n l) /\ all ≡ₚ take n l ++ drop n l /\
    forall o b, o ∈ take n l -> b ∈ drop n l -> by_time o b) as Hcut.
  { intros n. split_and!; [by apply drop_sorted_time|by rewrite take_drop|].
    rewrite <- (take_drop n l) in Hs. apply StronglySorted_app in Hs as (Ho & _ & _).
    intros o b Hin Hb. by apply Ho. }
  destruct (Z.eqb_spec limit 0) as [->|Hne].
  { split; [done|]. exists []. split_and!; [done|by intros ? ? ?%not_elem_of_nil|done|lia]. }
  destruct (Z.ltb_spec 0 limit);
    [destruct (Hcut (length l - Z.to_nat limit)%nat) as (H1 & H2 & H3)
    |destruct (Hcut (Z.to_nat (- limit))) as (H1 & H2 & H3)];
    (split; [done|]); eexists; (split_and!; [exact H2|done|lia|]); [|lia].
  intros _. rewrite length_drop, <- (Permutation_length Hp). lia.
Qed.

(** No live bar that comes later repeats one of [bars] or goes behind it. *)
Definition not_repeated (g : Guard) (bars : list Bar) : Prop :=
  forall ops b b', b ∈ bars -> (true, b') ∈ deliver ops g -> b_type b' = b_type b ->
    b_ts_event b < b_ts_event b'.

Lemma notes_not_repeated bars g :
  not_repeated (fold_left (fun g b => guard_note b g) bars g) bars.
Proof.
  intros ops b b' Hb Hin Ht. eapply deliver_newer; [|exact Hin|done]. apply notes_mark. by right.
Qed.

(** The venue's answers up to the deciding one: all were refusals for live
    market data, with time left. *)
Definition retried (x : res (list pydict) * bool) : Prop :=
  exists e, x = (Raise e, false) /\ is_live_md_history_denied e = true.

(** The venue gave [rows]. *)
Definition venue_rows (replies : list (res (list pydict) * bool)) (rows : list pydict) : Prop :=
  exists pre x post, replies = pre ++ (Ok rows, x) :: post /\ Forall retried pre.

(** The venue refused for good: for another reason, or past the deadline. *)
Definition venue_refused (replies : list (res (list pydict) * bool)) : Prop :=
  exists pre e x post, replies = pre ++ (Raise e, x) :: post /\ Forall retried pre /\
    (is_live_md_history_denied e = false \/ x = true).

Lemma load_with_retry_spec replies :
  match load_with_retry replies with
  | None => Forall retried replies
  | Some (Ok rows) => venue_rows replies rows
  | Some (Raise _) => venue_refused replies
  end.
Proof.
  induction replies as [|[[rows|e] x] l IH]; simpl; [constructor|by exists [], x, l|].
  destruct (is_live_md_history_denied e) eqn:Ed, x; simpl;
    try by (exists [], e; eexists _, l; split_and!; [done|constructor|auto]).
  assert (retried (Raise e, false)) as Hr by (by exists e).
  destruct (load_with_retry l) as [[rows|e']|]; [| |by constructor].
  - destruct IH as (pre & x & post & -> & Hp). exists ((Raise e, false) :: pre), x, post.
    split; [done|by constructor].
  - destruct IH as (pre & e0 & x & post & -> & Hp & Hx). exists ((Raise e, false) :: pre), e0, x, post.
    split_and!; [done|by constructor|done].
Qed.

(** A request is answered once the venue gave rows, refused for another reason
    than live market data, or the deadline passed. *)
Lemma load_with_retry_ends replies r expired replies' :
  (forall e, r = Raise e -> is_live_md_history_denied e && negb expired = false) ->
  exists reply, load_with_retry (replies ++ (r, expired) :: replies') = Some reply.
Proof.
  intros Hr. induction replies as [|[[rows|e] x] l IH]; simpl; [|eauto|].
  - destruct r as [rows|e]; [eauto|]. rewrite (Hr e eq_refl). eauto.
  - destruct (is_live_md_history_denied e && negb x); eauto.
Qed.

Section Answers.
Context `{NautilusTypes}.
Context (bt : BarType) (precision : option Z) (ts_init : Z) (on_close : bool).

(** What one row of the reply for [symbol] on [exchange] reads as. *)
Definition read_row (symbol exchange : string) (p : option Z) (raw : pydict) : res Bar :=
  fields ← time_bar_to_fields (fill_missing "exchange" exchange (fill_missing "symbol" symbol raw));
  fields_to_bar fields bt ts_init p on_close.

(** The row fails the whole reply: it is of another instrument or bar type, or
    its reading raises something else than a conversion error. *)
Definition row_fails (symbol exchange : string) (rtype : Z) (p : option Z) (raw : pydict) (e : exn) : Prop :=
  validate_history_identity raw symbol exchange (Some rtype) = Raise e \/
  (read_row symbol exchange p raw = Raise e /\ is_convert_error e = false).

(** The readable rows of a reply. *)
Definition readable (symbol exchange : string) (p : option Z) (rows : list pydict) : list Bar :=
  omap (fun raw => match read_row symbol exchange p raw with Ok b => Some b | Raise _ => None end) rows.

Lemma convert_bars_spec symbol exchange rtype p rows :
  match convert_bars rows symbol exchange bt rtype p ts_init on_close with
  | Ok bars => (forall raw e, raw ∈ rows -> ~ row_fails symbol exchange rtype p raw e) /\
      bars = readable symbol exchange p rows
  | Raise e => exists raw, raw ∈ rows /\ row_fails symbol exchange rtype p raw e
  end.
Proof.
  induction rows as [|raw rows IH].
  { split; [by intros ? ? ?%not_elem_of_nil|done]. }
  cbn [convert_bars]. destruct (validate_history_identity _ _ _ _) as [[]|e] eqn:Ev; csimpl.
  2:{ exists raw. split; [constructor|by left]. }
  cbv zeta. set (m := fields ← _; b ← _; Ok [b]).
  assert (m = (b ← read_row symbol exchange p raw; Ok [b])) as ->.
  { unfold m, read_row. by destruct (time_bar_to_fields _). }
  unfold readable in *. cbn [omap list_omap]. destruct (read_row symbol exchange p raw) as [b|e] eqn:Er; csimpl.
  - destruct (convert_bars rows _ _ _ _ _ _ _) as [l|e]; csimpl.
    + destruct IH as [IH ->]. split; [|done].
      intros raw' e [->|Hin]%elem_of_cons [Hf|[Hf Hc]]; try congruence; destruct (IH raw' e Hin); [by left|by right].
    + destruct IH as (r & Hr & Hf). exists r. split; [by constructor|done].
  - unfold catch. destruct (is_convert_error e) eqn:Ee; csimpl; [|exists raw; split; [constructor|by right]].
    destruct (convert_bars rows _ _ _ _ _ _ _) as [l|e']; csimpl.
    + destruct IH as [IH ->]. split; [|done].
      intros raw' e' [->|Hin]%elem_of_cons [Hf|[Hf Hc]]; try congruence; destruct (IH raw' e' Hin); [by left|by right].
    + destruct IH as (r & Hr & Hf). exists r. split; [by constructor|done].
Qed.

Context (routed : res (string * string)) (end_ns : option Z).
Context (replies : list (res (list pydict) * bool)).

(** The request names an instrument and a bar type the venue has. *)
Definition mapped (symbol exchange : string) (rtype : Z) : Prop :=
  routed = Ok (symbol, exchange) /\ exists period, bar_type_to_rithmic bt = Ok (rtype, period).

(** The venue's rows for it, none of which fails the reply. *)
Definition served (symbol exchange : string) (e : Z) (rows : list pydict) : Prop :=
  exists rtype, mapped symbol exchange rtype /\ end_ns = Some e /\ is_Some precision /\
    venue_rows replies rows /\
    forall raw x, raw ∈ rows -> ~ row_fails symbol exchange rtype precision raw x.

(** A row of the reply that fails it with [x]. *)
Definition spoilt (x : exn) : Prop :=
  exists symbol exchange rtype rows raw, mapped symbol exchange rtype /\ venue_rows replies rows /\
    raw ∈ rows /\ row_fails symbol exchange rtype precision raw x.

Inductive unservable : Prop :=
  | NoRoute x : routed = Raise x -> is_value_error x = true -> unservable
  | NoType p x : routed = Ok p -> bar_type_to_rithmic bt = Raise x -> unservable
  | NoWindow p : routed = Ok p -> end_ns = None -> unservable
  | Refused : venue_refused replies -> unservable
  | NotCached : precision = None -> unservable
  | Spoilt x : spoilt x -> is_value_error x = true -> unservable.

Lemma bar_type_raises_value x : bar_type_to_rithmic bt = Raise x -> is_value_error x = true.
Proof.
  unfold bar_type_to_rithmic. cbv zeta. destruct (_ <? _); [by intros [= <-]|].
  by destruct (bt_aggregation bt); intros [= <-].
Qed.

(** (C40) A history request ends in one of four ways, whatever the venue sends.
    (1) Served: the venue's rows for the routed instrument, after any number of
    refusals for live market data within the deadline, none of another
    instrument: the answer is, in time order, exactly the newest [limit] (all
    when there is no limit) of the readable rows that are closed at the
    requested end, and no live bar delivered later, over any sequence of history
    answers and live bars, repeats one of them or goes behind it.  (2) Answered
    with the empty list, the sequence guard untouched: only when the instrument
    has no route or is not cached, its bar type is not mapped, [start] or [end]
    is missing, the venue refused for good, or a row spoils the reply.  (3) Still
    retrying.  (4) Raises, and then not a [ValueError], out of the route or of a
    row. *)
Theorem history_answer_closed id limit s :
  match request_bars bt id routed end_ns replies precision ts_init limit on_close s with
  | (Ok (Some bars), s') =>
      (exists symbol exchange e rows, served symbol exchange e rows /\
        newest limit (List.filter (fun b => bar_close_ns bt on_close b <=? e)
                        (readable symbol exchange precision rows)) bars /\
        not_repeated (ds_guard s') bars)
      \/ (bars = [] /\ ds_guard s' = ds_guard s /\ unservable)
  | (Ok None, s') => s' = s /\ is_Some end_ns /\ Forall retried replies /\
      exists symbol exchange rtype, mapped symbol exchange rtype
  | (Raise x, s') => s' = s /\ is_value_error x = false /\ (routed = Raise x \/ spoilt x)
  end.
Proof.
  unfold request_bars. destruct routed as [[symbol exchange]|x] eqn:Er; csimpl.
  2:{ destruct (is_value_error x) eqn:Ex; simpl; [|by auto].
      right. split_and!; [done..|by eapply NoRoute]. }
  destruct (bar_type_to_rithmic bt) as [[rtype period]|x] eqn:Et; csimpl.
  2:{ rewrite (bar_type_raises_value x Et). right. split_and!; [done..|]. by eapply NoType. }
  assert (mapped symbol exchange rtype) as Hm by (split; [done|by exists period]).
  destruct end_ns as [e|] eqn:Ee; [|right; split_and!; [done..|by eapply NoWindow]].
  pose proof (load_with_retry_spec replies) as Hl.
  destruct (load_with_retry replies) as [[rows|x]|]; [| |split_and!; [done|by eexists|done|by do 3 eexists]].
  2:{ right. split_and!; [done..|by apply Refused]. }
  unfold answer_bars. cbv zeta. destruct precision as [p|] eqn:Ep; [|right; split_and!; [done..|by apply NotCached]].
  unfold payloads_to_bars. rewrite Et. csimpl. rewrite <- Ep.
  pose proof (convert_bars_spec symbol exchange rtype precision rows) as Hc.
  destruct (convert_bars _ _ _ _ _ _ _ _) as [bars|x]; csimpl.
  - run_monad. left. destruct Hc as [Hno ->]. exists symbol, exchange, e, rows. split_and!.
    + exists rtype. split_and!; [done|done|by rewrite Ep|done|done].
    + apply last_n_newest; [rewrite closed_bars_spec; apply filter_sorted_time, sort_bars_sorted|].
      rewrite closed_bars_spec. apply filter_perm, sort_bars_sorted.
    + apply notes_not_repeated.
  - destruct Hc as (raw & Hin & Hf). assert (spoilt x) as Hx by (by exists symbol, exchange, rtype, rows, raw).
    run_monad. destruct (is_value_error x) eqn:Ex; [|by auto].
    right. split_and!; [done..|by eapply Spoilt].
Qed.

End Answers.

(** ** Witnesses *)

#[local] Existing Instance PlainTypes.

Definition minute_bars : BarType := MkBarType "MNQZ6-CME.RITHMIC" AMinute 1 true.

Definition bar_at (t : Z) : Bar :=
  let p := MkPrice 2100000 2 in MkBar minute_bars p p p p 1 t 0.

(** Two history bars, the last one repeated live, then a new one. *)
Definition sample_ops : list BarOp :=
  [History [bar_at 60; bar_at 120]; LiveBar (bar_at 120); LiveBar (bar_at 180)].

Lemma live_bars_advance_witness :
  deliver sample_ops [] = [(false, bar_at 60)] ++ (false, bar_at 120) :: [(true, bar_at 180)]
  /\ b_ts_event (bar_at 120) < b_ts_event (bar_at 180).
Proof.
  split; [reflexivity|].
  apply (live_bars_advance sample_ops [] [(false, bar_at 60)] [(true, bar_at 180)] false).
  - reflexivity.
  - constructor.
  - reflexivity.
Defined.

(** One refusal while live data is on, then three bars served newest first, the
    last still forming at the request's end. *)
Definition bar_row (secs : Z) : pydict :=
  dict_of [("symbol", VStr "MNQZ6"); ("exchange", VStr "CME"); ("bar_type", VInt 2);
           ("open_price", VInt 1); ("high_price", VInt 3); ("low_price", VInt 1);
           ("close_price", VInt 2); ("volume", VInt 5); ("marker", VInt secs)].

Definition sample_replies : list (res (list pydict) * bool) :=
  [(Raise (Exn ExGateway (Some "capability_denied") "history while live data is on"), false);
   (Ok (bar_row <$> [180; 120; 60]), false)].

Definition sample_answer : res (option (list Bar)) * DataState :=
  request_bars minute_bars "R-1" (Ok ("MNQZ6", "CME")) (Some (150 * SEC_NS)) sample_replies (Some 2)
    7 1 true (MkData [] []).

Definition answered (r : res (option (list Bar)) * DataState) : list Bar :=
  match r.1 with Ok (Some l) => l | _ => [] end.

Lemma answered_ok r : (match r.1 with Ok (Some _) => true | _ => false end) = true ->
  r = (Ok (Some (answered r)), r.2).
Proof. destruct r as [[[l|]|e] s]; [done|discriminate|discriminate]. Qed.

Lemma history_answer_closed_witness :
  b_ts_event <$> answered sample_answer = [120 * SEC_NS] /\
  exists symbol exchange e rows,
    served minute_bars (Some 2) 7 true (Ok ("MNQZ6", "CME")) (Some (150 * SEC_NS)) sample_replies
      symbol exchange e rows /\
    newest 1 (List.filter (fun b => bar_close_ns minute_bars true b <=? e)
               (readable minute_bars 7 true symbol exchange (Some 2) rows)) (answered sample_answer) /\
    not_repeated (ds_guard sample_answer.2) (answered sample_answer).
Proof.
  assert (b_ts_event <$> answered sample_answer = [120 * SEC_NS]) as Ht by (vm_compute; reflexivity).
  split; [exact Ht|].
  pose proof (history_answer_closed minute_bars (Some 2) 7 true (Ok ("MNQZ6", "CME"))
    (Some (150 * SEC_NS)) sample_replies "R-1" 1 (MkData [] [])) as Hr.
  fold sample_answer in Hr. rewrite (answered_ok sample_answer) in Hr by (vm_compute; reflexivity).
  destruct Hr as [Hr|(E & _)]; [exact Hr|]. rewrite E in Ht. discriminate Ht.
Defined.

(** The same request without its end, and one refused past the deadline: the empty list. *)
Lemma unservable_answered_empty :
  (request_bars minute_bars "R-2" (Ok ("MNQZ6", "CME")) None sample_replies (Some 2) 7 1 true (MkData [] [])).1
    = Ok (Some []) /\
  (request_bars minute_bars "R-3" (Ok ("MNQZ6", "CME")) (Some 0)
     [(Raise (Exn ExGateway (Some "capability_denied") ""), true)] (Some 2) 7 1 true (MkData [] [])).1
    = Ok (Some []).
Proof. split; vm_compute; reflexivity. Qed.
