(* ===== verification/Subscriptions.v ===== *)
(** * Market-data subscriptions

    The subscription state of [RithmicDataClient] ([data.py]): reference-counted
    ticker intents ([_add_ticker_intent], [_remove_ticker_intent]), order-book
    and bar subscriptions, the venue replies they depend on, and the replay of
    the remembered intent after a reconnect or a gap
    ([replay_subscription_intent]).

    A ticker command is a coroutine with one [await], the venue call: it is
    split there, into what it does up to the call and what it does with the
    reply, and other commands run in between.  The sets of kinds are objects: a
    suspended subscribe keeps the one it added to, whatever [_ticker_intents]
    has under the key when it resumes.  Book and bar commands touch their own
    state after (or, for a bar release, around) their call; each is one run here,
    with the reply as an argument.  [su_wire] is a ghost: the ticker feeds the
    venue has on. *)

From Stdlib Require Import Ascii String.
From stdpp Require Import base gmap strings list.
From Stdlib Require Import ZArith Lia.
From S2P Require Import Prelude PyVal Plant Lru Ident Nautilus Orders OrderRows Commission Host Convert Bars.
Import Text.
Open Scope string_scope.
Open Scope list_scope.
Open Scope Z_scope.

(** [(symbol, exchange)]. *)
Definition Key : Type := (string * string)%type.

Record Subs := MkSubs {
  su_routes : gmap string Key;
  su_subs : gset Key;
  su_intents : gmap Key nat;             (* [_ticker_intents]: the set objects *)
  su_sets : gmap nat (gset string);      (* what they hold *)
  su_next : nat;
  su_books : gset Key;
  su_bars : BarTypes;
  su_bbo : gset string;          (* instruments with one-sided quote state *)
  su_history_poll : bool;
  su_wire : gset Key
}.

Definition on_ticker (f : gset Key -> gset Key) (g : gmap Key nat -> gmap Key nat)
  (h : gmap nat (gset string) -> gmap nat (gset string)) (n : nat -> nat)
  (w : gset Key -> gset Key) (s : Subs) : Subs :=
  MkSubs (su_routes s) (f (su_subs s)) (g (su_intents s)) (h (su_sets s)) (n (su_next s))
    (su_books s) (su_bars s) (su_bbo s) (su_history_poll s) (w (su_wire s)).
Definition set_books (b : gset Key) (s : Subs) : Subs :=
  MkSubs (su_routes s) (su_subs s) (su_intents s) (su_sets s) (su_next s) b (su_bars s) (su_bbo s)
    (su_history_poll s) (su_wire s).
Definition set_bars (b : BarTypes) (s : Subs) : Subs :=
  MkSubs (su_routes s) (su_subs s) (su_intents s) (su_sets s) (su_next s) (su_books s) b (su_bbo s)
    (su_history_poll s) (su_wire s).
Definition set_bbo (b : gset string) (s : Subs) : Subs :=
  MkSubs (su_routes s) (su_subs s) (su_intents s) (su_sets s) (su_next s) (su_books s) (su_bars s) b
    (su_history_poll s) (su_wire s).
Definition start_history_poll (s : Subs) : Subs :=
  MkSubs (su_routes s) (su_subs s) (su_intents s) (su_sets s) (su_next s) (su_books s) (su_bars s)
    (su_bbo s) true (su_wire s).

Definition data_route (instrument : string) : M Subs Key :=
  s ← get;
  match su_routes s !! instrument with
  | Some k => mret k
  | None => throw (Exn ExValue None "no Rithmic route")
  end.

(** The contents of a set object; the kinds that hold a key. *)
Definition set_of (o : nat) (s : Subs) : gset string := default ∅ (su_sets s !! o).
Definition kinds_of (k : Key) (s : Subs) : gset string :=
  match su_intents s !! k with Some o => set_of o s | None => ∅ end.

Definition put_set (o : nat) (x : gset string) : Subs -> Subs := on_ticker id id (<[o := x]>) id id.
Definition put_intent (k : Key) (o : nat) : Subs -> Subs := on_ticker id (<[k := o]>) id id id.
Definition del_intent (k : Key) : Subs -> Subs := on_ticker id (delete k) id id id.
Definition new_set (x : gset string) : M Subs nat := fun s =>
  (Ok (su_next s), on_ticker id id (<[su_next s := x]>) S id s).

(** What a suspended command waits for: a subscribe that added a kind to a set
    object, an unsubscribe that took the last kind away (or, with no kind, found
    the key subscribed without it). *)
Inductive Waiting :=
  | WSubscribe (k : Key) (kind : string) (o : nat)
  | WUnsubscribe (k : Key) (kind : option string).

Definition wait_key (w : Waiting) : Key :=
  match w with WSubscribe k _ _ | WUnsubscribe k _ => k end.

(** [_add_ticker_intent] up to its [await]. *)
Definition add_begin (instrument kind : string) : M Subs (option Waiting) :=
  k ← data_route instrument;
  s ← get;
  o ← (match su_intents s !! k with
       | Some o => mret o
       | None => o ← new_set ∅; modify (put_intent k o) ;; mret o
       end);
  s1 ← get;
  if bool_decide (kind ∈ set_of o s1) then mret None
  else
    let needs_subscribe := negb (bool_decide (k ∈ su_subs s1)) in
    modify (put_set o ({[kind]} ∪ set_of o s1)) ;;
    mret (if needs_subscribe then Some (WSubscribe k kind o) else None).

(** [_remove_ticker_intent] up to its [await]. *)
Definition remove_begin (instrument kind : string) (clear_bbo : bool) : M Subs (option Waiting) :=
  k ← data_route instrument;
  whenM clear_bbo (modify (fun s => set_bbo (su_bbo s ∖ {[k.1 +:+ ":" +:+ k.2]}) s)) ;;
  s ← get;
  let subscribed := bool_decide (k ∈ su_subs s) in
  match su_intents s !! k with
  | Some o =>
      if bool_decide (kind ∈ set_of o s) then
        let left := set_of o s ∖ {[kind]} in
        modify (put_set o left) ;;
        if bool_decide (left = ∅) then
          modify (del_intent k) ;;
          mret (if subscribed then Some (WUnsubscribe k (Some kind)) else None)
        else mret None
      else mret (if subscribed then Some (WUnsubscribe k None) else None)
  | None => mret (if subscribed then Some (WUnsubscribe k None) else None)
  end.

(** The call as the venue carries it out. *)
Definition wire_effect (w : Waiting) (reply : res unit) : Subs -> Subs :=
  match reply with
  | Raise _ => id
  | Ok _ => on_ticker id id id id
              (match w with
               | WSubscribe k _ _ => fun x => {[k]} ∪ x
               | WUnsubscribe k _ => fun x => x ∖ {[k]}
               end)
  end.

(** What a command does with the reply.  The rollback of a subscribe works on the
    set object it added to; deleting a key that is gone raises. *)
Definition wait_end (w : Waiting) (reply : res unit) : M Subs unit :=
  match w, reply with
  | WSubscribe k _ _, Ok _ => modify (on_ticker (fun x => {[k]} ∪ x) id id id id)
  | WSubscribe k kind o, Raise e =>
      s ← get;
      let left := set_of o s ∖ {[kind]} in
      modify (put_set o left) ;;
      (if bool_decide (left = ∅) then
         if bool_decide (is_Some (su_intents s !! k)) then modify (del_intent k)
         else throw (Exn ExKey None "")
       else mret tt) ;;
      throw e
  | WUnsubscribe k _, Ok _ => modify (on_ticker (fun x => x ∖ {[k]}) id id id id)
  | WUnsubscribe k (Some kind), Raise e =>
      o ← new_set {[kind]}; modify (put_intent k o) ;; throw e
  | WUnsubscribe _ None, Raise e => throw e
  end.

(** The coroutines, run without interruption. *)
Definition await_venue (reply : res unit) (w : option Waiting) : M Subs unit :=
  match w with
  | None => mret tt
  | Some w => modify (wire_effect w reply) ;; wait_end w reply
  end.

Definition add_ticker_intent (reply : res unit) (instrument kind : string) : M Subs unit :=
  w ← add_begin instrument kind; await_venue reply w.

Definition remove_ticker_intent (reply : res unit) (instrument kind : string) (clear_bbo : bool)
  : M Subs unit :=
  w ← remove_begin instrument kind clear_bbo; await_venue reply w.

Definition subscribe_trade_ticks (reply : res unit) (i : string) := add_ticker_intent reply i "trade".
Definition subscribe_quote_ticks (reply : res unit) (i : string) := add_ticker_intent reply i "quote".
Definition unsubscribe_trade_ticks (reply : res unit) (i : string) :=
  remove_ticker_intent reply i "trade" false.
Definition unsubscribe_quote_ticks (reply : res unit) (i : string) :=
  remove_ticker_intent reply i "quote" true.

Definition subscribe_order_book (reply : res unit) (instrument : string) : M Subs unit :=
  k ← data_route instrument;
  _ ← lift reply;
  modify (fun s => set_books ({[k]} ∪ su_books s) s).

Definition unsubscribe_order_book (reply : res unit) (instrument : string) : M Subs unit :=
  k ← data_route instrument;
  _ ← lift reply;
  modify (fun s => set_books (su_books s ∖ {[k]}) s).

(** ** Bars *)

Definition register (bt : BarType) (key : WireKey) (m : BarTypes) : BarTypes :=
  let l := default [] (m !! key) in
  <[key := if bool_decide (bt ∈ l) then l else l ++ [bt]]> m.

Definition unregister (bt : BarType) (key : WireKey) (m : BarTypes) : BarTypes :=
  match m !! key with
  | None => m
  | Some l =>
      match List.filter (fun x => negb (bool_decide (x = bt))) l with
      | [] => delete key m
      | l' => <[key := l']> m
      end
  end.

Definition bar_keys (k : Key) (bt : BarType) : res (list WireKey) :=
  '(rtype, _) ← bar_type_to_rithmic bt;
  periods ← bar_wire_period_keys bt;
  Ok (List.map (fun p : Z => (k.1, k.2, rtype, p)) periods).

Definition subscribe_bars (reply : res unit) (bt : BarType) : M Subs unit :=
  if negb (bt_external bt) then mret tt
  else if negb (external_bar_advertised bt) then throw (Exn ExValue None "not advertised")
  else
    k ← data_route (bt_instrument_id bt);
    keys ← lift (bar_keys k bt);
    _ ← lift reply;
    modify (fun s => start_history_poll (set_bars (fold_left (fun m x => register bt x m) keys (su_bars s)) s)).

(** [true] when the venue unsubscribe was sent. *)
Definition unsubscribe_bars (reply : res unit) (bt : BarType) : M Subs bool :=
  if negb (bt_external bt) then mret false
  else if negb (external_bar_advertised bt) then mret false
  else
    k ← data_route (bt_instrument_id bt);
    keys ← lift (bar_keys k bt);
    s ← get;
    let saved := su_bars s in
    let dropped := fold_left (fun m x => unregister bt x m) keys saved in
    modify (set_bars dropped) ;;
    if existsb (fun x => bool_decide (is_Some (dropped !! x))) keys then mret false
    else
      catchM any_exn (_ ← lift reply; mret true)
        (fun e =>
           modify (fun s => set_bars (fold_left (fun m x =>
             match saved !! x with
             | Some l => <[x := l]> m
             | None => delete x m
             end) keys (su_bars s)) s) ;;
           throw e).

(** ** Replay *)

Definition is_duplicate_subscribe_error (e : exn) : bool :=
  contains "[8]" (lower (ex_text e)) && contains "already exists" (lower (ex_text e)).

Inductive Intent := ITicker (k : Key) | IBook (k : Key) | IBar (w : WireKey).

(** [_subscribe_replay] of each intent in turn: the calls made, and the error
    that stopped the replay, if any. *)
Fixpoint replay (reply : Intent -> res unit) (l : list Intent) : list Intent * option exn :=
  match l with
  | [] => ([], None)
  | i :: l' =>
      match reply i with
      | Raise e =>
          if is_duplicate_subscribe_error e then let '(made, x) := replay reply l' in (i :: made, x)
          else ([i], Some e)
      | Ok _ => let '(made, x) := replay reply l' in (i :: made, x)
      end
  end.

Definition ticker_keys (s : Subs) : list Key :=
  let held := elements (dom (su_intents s)) in
  if bool_decide (held = []) then elements (su_subs s) else held.

Definition replay_subscription_intent (reply : Intent -> res unit) (s : Subs)
  : res (list Intent * option exn) :=
  bars ← bar_resync_subscriptions (su_bars s);
  Ok (replay reply ((ITicker <$> ticker_keys s) ++ (IBook <$> elements (su_books s))
                    ++ (IBar <$> bars))).

(** ** Facts *)

(** *** Commands in flight *)

(** A suspended command, with the venue's reply once its call was carried out. *)
Record Flight := MkFlight { fl_wait : Waiting; fl_reply : option (res unit) }.
Definition flight_key (f : Flight) : Key := wait_key (fl_wait f).

Record Tickers := MkTickers { tw_subs : Subs; tw_flights : list Flight }.

(** Nothing is in flight on a key. *)
Definition free (k : Key) (fl : list Flight) : Prop := forall f, f ∈ fl -> flight_key f <> k.

Definition launch (w : option Waiting) : list Flight :=
  match w with Some w => [MkFlight w None] | None => [] end.

(** A release names a kind that is held, or a key that is not subscribed. *)
Definition releases_held (i kind : string) (s : Subs) : Prop :=
  forall k, su_routes s !! i = Some k -> kind ∈ kinds_of k s \/ k ∉ su_subs s.

(** A command starts, the venue carries out a call, a command resumes with its
    reply.  [allow] restricts when a command may start on a key. *)
Inductive tstep (allow : Key -> list Flight -> Prop) : Tickers -> Tickers -> Prop :=
  | TSubscribe i kind s fl w s' :
      add_begin i kind s = (Ok w, s') ->
      (forall k, su_routes s !! i = Some k -> allow k fl) ->
      tstep allow (MkTickers s fl) (MkTickers s' (fl ++ launch w))
  | TUnsubscribe i kind clear_bbo s fl w s' :
      remove_begin i kind clear_bbo s = (Ok w, s') ->
      (forall k, su_routes s !! i = Some k -> allow k fl) -> releases_held i kind s ->
      tstep allow (MkTickers s fl) (MkTickers s' (fl ++ launch w))
  | TVenue s pre w reply post :
      tstep allow (MkTickers s (pre ++ MkFlight w None :: post))
        (MkTickers (wire_effect w reply s) (pre ++ MkFlight w (Some reply) :: post))
  | TResume s pre w reply post :
      tstep allow (MkTickers s (pre ++ MkFlight w (Some reply) :: post))
        (MkTickers (wait_end w reply s).2 (pre ++ post)).

(** The state of a key: at rest, or with one command in flight. *)
Definition at_rest (s : Subs) (k : Key) : Prop :=
  (k ∈ su_wire s <-> k ∈ su_subs s) /\ (k ∈ su_subs s <-> is_Some (su_intents s !! k)) /\
  (forall o, su_intents s !! k = Some o -> set_of o s <> ∅).

Definition in_flight (s : Subs) (f : Flight) : Prop :=
  match fl_wait f with
  | WSubscribe k kind o =>
      (k ∉ su_subs s) /\ su_intents s !! k = Some o /\ set_of o s = {[kind]} /\
      (k ∈ su_wire s <-> fl_reply f = Some (Ok tt))
  | WUnsubscribe k kind =>
      k ∈ su_subs s /\ su_intents s !! k = None /\ is_Some kind /\
      (k ∈ su_wire s <-> fl_reply f <> Some (Ok tt))
  end.

Record tickers_ok (t : Tickers) : Prop := MkTickersOk {
  to_rest : forall k, free k (tw_flights t) -> at_rest (tw_subs t) k;
  to_flight : Forall (in_flight (tw_subs t)) (tw_flights t);
  to_single : NoDup (flight_key <$> tw_flights t);
  to_inj : forall k k' o, su_intents (tw_subs t) !! k = Some o ->
             su_intents (tw_subs t) !! k' = Some o -> k = k';
  to_fresh : forall k o, su_intents (tw_subs t) !! k = Some o -> (o < su_next (tw_subs t))%nat
}.

Lemma data_route_run i s :
  data_route i s = match su_routes s !! i with
                   | Some k => (Ok k, s)
                   | None => (Raise (Exn ExValue None "no Rithmic route"), s)
                   end.
Proof. unfold data_route. run_monad. by destruct (su_routes s !! i). Qed.

(** *** One key at a time *)

(** [s'] is [s] with only key [k], the set object it had and fresh ones touched. *)
Record only_key (k : Key) (s s' : Subs) : Prop := MkOnly {
  ok_subs : forall j, j <> k -> j ∈ su_subs s' <-> j ∈ su_subs s;
  ok_wire : forall j, j <> k -> j ∈ su_wire s' <-> j ∈ su_wire s;
  ok_intents : forall j, j <> k -> su_intents s' !! j = su_intents s !! j;
  ok_sets : forall o, su_intents s !! k <> Some o -> (o < su_next s)%nat -> set_of o s' = set_of o s;
  ok_next : (su_next s <= su_next s')%nat
}.

(** What [k] has in [s']: its old object or a fresh one. *)
Definition same_or_fresh (k : Key) (s s' : Subs) : Prop :=
  forall o, su_intents s' !! k = Some o ->
    su_intents s !! k = Some o \/ (su_next s <= o < su_next s')%nat.

Section Frame.
Context (k : Key) (s s' : Subs) (fl fl' : list Flight).
Hypothesis Hok : tickers_ok (MkTickers s fl).
Hypothesis Honly : only_key k s s'.
Hypothesis Hobj : same_or_fresh k s s'.

Lemma other_object j o : j <> k -> su_intents s !! j = Some o -> set_of o s' = set_of o s.
Proof.
  intros Hj Ho. apply (ok_sets _ _ _ Honly); [|by apply (to_fresh _ Hok j)].
  intros Hk. apply Hj. by apply (to_inj _ Hok j k o).
Qed.

Lemma rest_frame j : j <> k -> at_rest s j -> at_rest s' j.
Proof.
  intros Hj (H1 & H2 & H3). unfold at_rest.
  rewrite (ok_subs _ _ _ Honly j Hj), (ok_wire _ _ _ Honly j Hj), (ok_intents _ _ _ Honly j Hj).
  split_and!; [done..|]. intros o Ho. rewrite (other_object j o Hj Ho). auto.
Qed.

Lemma flight_frame f : flight_key f <> k -> in_flight s f -> in_flight s' f.
Proof.
  unfold flight_key, in_flight. destruct (fl_wait f) as [j kind o|j kind]; simpl; intros Hj.
  - intros (H1 & H2 & H3 & H4).
    rewrite (ok_subs _ _ _ Honly j Hj), (ok_wire _ _ _ Honly j Hj), (ok_intents _ _ _ Honly j Hj).
    by rewrite (other_object j o Hj H2).
  - by rewrite (ok_subs _ _ _ Honly j Hj), (ok_wire _ _ _ Honly j Hj), (ok_intents _ _ _ Honly j Hj).
Qed.

(** A step on [k], given what it leaves there. *)
Lemma tickers_frame :
  (forall f, f ∈ fl' -> flight_key f <> k -> f ∈ fl) ->
  (forall f, f ∈ fl -> flight_key f <> k -> f ∈ fl') ->
  NoDup (flight_key <$> fl') ->
  (free k fl' -> at_rest s' k) ->
  (forall f, f ∈ fl' -> flight_key f = k -> in_flight s' f) ->
  tickers_ok (MkTickers s' fl').
Proof.
  intros Hsub Hsup Hnd Hrest Hfl. split; simpl; [| |done| |].
  - intros j Hj. destruct (decide (j = k)) as [->|Hne]; [auto|]. apply rest_frame; [done|].
    apply (to_rest _ Hok). intros f Hf E. apply (Hj f); [|done]. apply Hsup; [done|]. congruence.
  - apply Forall_forall. intros f Hf. destruct (decide (flight_key f = k)) as [E|Hne]; [auto|].
    apply flight_frame; [done|]. pose proof (to_flight _ Hok) as Hall. rewrite Forall_forall in Hall. auto.
  - intros j j' o Hj Hj'. destruct (decide (j = k)) as [->|Hn], (decide (j' = k)) as [->|Hn']; [done|..].
    + rewrite (ok_intents _ _ _ Honly j' Hn') in Hj'. destruct (Hobj o Hj) as [Ho|Ho].
      * by apply (to_inj _ Hok k j' o).
      * pose proof (to_fresh _ Hok j' o Hj'). simpl in *. lia.
    + rewrite (ok_intents _ _ _ Honly j Hn) in Hj. destruct (Hobj o Hj') as [Ho|Ho].
      * by apply (to_inj _ Hok j k o).
      * pose proof (to_fresh _ Hok j o Hj). simpl in *. lia.
    + rewrite (ok_intents _ _ _ Honly j Hn) in Hj. rewrite (ok_intents _ _ _ Honly j' Hn') in Hj'.
      by apply (to_inj _ Hok j j' o).
  - intros j o Hj. pose proof (ok_next _ _ _ Honly). destruct (decide (j = k)) as [->|Hn].
    + destruct (Hobj o Hj) as [Ho|Ho]; [|lia]. pose proof (to_fresh _ Hok k o Ho). simpl in *. lia.
    + rewrite (ok_intents _ _ _ Honly j Hn) in Hj. pose proof (to_fresh _ Hok j o Hj). simpl in *. lia.
Qed.
End Frame.

(** Lists of flights that change on one key. *)
Lemma flights_app k fl w :
  free k fl -> wait_key w = k -> NoDup (flight_key <$> fl) ->
  NoDup (flight_key <$> (fl ++ [MkFlight w None])).
Proof.
  intros Hf Hw Hnd. rewrite fmap_app. apply NoDup_app. split_and!; [done| |apply NoDup_singleton].
  intros x Hx ->%list_elem_of_singleton. apply list_elem_of_fmap in Hx as (f & E & Hin).
  apply (Hf f Hin). rewrite <- E. exact Hw.
Qed.

Lemma flights_middle (pre post : list Flight) f :
  NoDup (flight_key <$> (pre ++ f :: post)) -> free (flight_key f) (pre ++ post).
Proof.
  rewrite fmap_app. simpl. intros (_ & Hd & [Hn _]%NoDup_cons)%NoDup_app g Hg E.
  apply elem_of_app in Hg as [Hg|Hg].
  - apply (Hd (flight_key g)); [by apply list_elem_of_fmap_2|]. rewrite E. constructor.
  - apply Hn. rewrite <- E. by apply list_elem_of_fmap_2.
Qed.

(** *** Starting a command on a key at rest *)

Ltac key_sets := rewrite ?lookup_insert_eq, ?lookup_delete_eq; set_solver.

Lemma add_begin_ok i kind s fl w s' :
  tickers_ok (MkTickers s fl) -> (forall k, su_routes s !! i = Some k -> free k fl) ->
  add_begin i kind s = (Ok w, s') -> tickers_ok (MkTickers s' (fl ++ launch w)).
Proof.
  intros Hok Hfree. unfold add_begin. unfold mbind at 1, M_bind at 1. rewrite data_route_run.
  destruct (su_routes s !! i) as [k|]; [|done]. specialize (Hfree k eq_refl).
  destruct (to_rest _ Hok k Hfree) as (R1 & R2 & R3). simpl in R1, R2, R3.
  unfold mbind at 1, M_bind at 1. cbv [get].
  destruct (su_intents s !! k) as [o|] eqn:Eo.
  - assert (k ∈ su_subs s) as Hin by (by apply R2).
    run_monad. destruct (bool_decide (kind ∈ set_of o s)).
    { intros [= <- <-]. by rewrite app_nil_r. }
    rewrite bool_decide_eq_true_2 by done. intros [= <- <-]. rewrite app_nil_r.
    apply (tickers_frame k s _ fl); try done.
    + split; try done. intros o' Hne _. unfold set_of. simpl. rewrite lookup_insert_ne; [done|congruence].
    + intros o'. simpl. by left.
    + apply (to_single _ Hok).
    + intros _. split_and!; simpl; try done.
      intros o' [= <-]%(eq_trans (eq_sym Eo)). unfold set_of. simpl. rewrite lookup_insert_eq. simpl. set_solver.
    + intros f Hf E. by destruct (Hfree f Hf).
  - assert (k ∉ su_subs s) as Hnin by (intros Hin%R2; by destruct Hin).
    unfold new_set. run_monad. set (s1 := put_intent k _ _).
    assert (set_of (su_next s) s1 = ∅) as -> by (unfold set_of; simpl; by rewrite lookup_insert_eq).
    change (su_subs s1) with (su_subs s). unfold s1; clear s1.
    rewrite bool_decide_eq_false_2 by set_solver. rewrite bool_decide_eq_false_2 by done. simpl.
    intros [= <- <-].
    apply (tickers_frame k s _ fl); try done.
    + split; try done; [intros j Hj; simpl; by rewrite lookup_insert_ne| |simpl; lia].
      intros o' _ Hlt. unfold set_of. simpl. rewrite !lookup_insert_ne by lia. done.
    + intros o'. simpl. rewrite lookup_insert_eq. intros [= <-]. right. lia.
    + intros f [Hf| ->%list_elem_of_singleton]%elem_of_app Hk; [done|]. by destruct Hk.
    + intros f Hf _. apply elem_of_app. by left.
    + by apply (flights_app k); [|done|apply (to_single _ Hok)].
    + intros Hfr. destruct (Hfr (MkFlight (WSubscribe k kind (su_next s)) None)); [|done].
      apply elem_of_app. right. constructor.
    + intros f [Hf| ->%list_elem_of_singleton]%elem_of_app E; [by destruct (Hfree f Hf)|].
      split_and!; simpl; [done|by rewrite lookup_insert_eq| |].
      * unfold set_of. simpl. rewrite lookup_insert_eq. simpl. set_solver.
      * rewrite R1. split; done.
Qed.

Lemma remove_begin_ok i kind c s fl w s' :
  tickers_ok (MkTickers s fl) -> (forall k, su_routes s !! i = Some k -> free k fl) ->
  releases_held i kind s ->
  remove_begin i kind c s = (Ok w, s') -> tickers_ok (MkTickers s' (fl ++ launch w)).
Proof.
  intros Hok Hfree Hrel. unfold remove_begin. unfold mbind at 1, M_bind at 1. rewrite data_route_run.
  destruct (su_routes s !! i) as [k|] eqn:Er; [|done]. specialize (Hfree k eq_refl).
  specialize (Hrel k Er).
  set (s1 := if c then set_bbo (su_bbo s ∖ {[k.1 +:+ ":" +:+ k.2]}) s else s).
  assert (tickers_ok (MkTickers s1 fl) /\ su_subs s1 = su_subs s /\ kinds_of k s1 = kinds_of k s) as (Hok1 & Es & Ek).
  { unfold s1. destruct c; [|done]. split_and!; try done. destruct Hok as [? Hf ? ? ?].
    by split. }
  unfold mbind at 1, M_bind at 1.
  assert (whenM c (modify (fun s => set_bbo (su_bbo s ∖ {[k.1 +:+ ":" +:+ k.2]}) s)) s = (Ok tt, s1))
    as -> by (unfold s1; by destruct c).
  rewrite <- Es, <- Ek in Hrel. clearbody s1. clear Hok Es Ek Er s. rename s1 into s, Hok1 into Hok.
  destruct (to_rest _ Hok k Hfree) as (R1 & R2 & R3). simpl in R1, R2, R3.
  unfold mbind at 1, M_bind at 1. cbv [get]. cbv zeta. unfold kinds_of in Hrel.
  destruct (su_intents s !! k) as [o|] eqn:Eo.
  2: { assert (k ∉ su_subs s) as Hn by (intros Hin%R2; by destruct Hin).
       rewrite bool_decide_eq_false_2 by done. intros [= <- <-]. by rewrite app_nil_r. }
  assert (k ∈ su_subs s) as Hin by (by apply R2).
  destruct Hrel as [Hkind|?]; [|done]. rewrite bool_decide_eq_true_2 by done.
  rewrite (bool_decide_eq_true_2 (k ∈ su_subs s)) by done.
  assert (Hsets : forall s2, (forall o', o' <> o -> set_of o' s2 = set_of o' s) ->
    forall o', Some o <> Some o' -> (o' < su_next s)%nat -> set_of o' s2 = set_of o' s)
    by (intros s2 Hs2 o' Hne _; apply Hs2; congruence).
  run_monad. destruct (bool_decide (set_of o s ∖ {[kind]} = ∅)) eqn:El.
  - intros [= <- <-]. apply (tickers_frame k s _ fl); try done.
    + split; try done; [intros j Hj; simpl; by rewrite lookup_delete_ne|].
      rewrite Eo. apply Hsets. intros o' Hne. unfold set_of. simpl. by rewrite lookup_insert_ne.
    + intros o'. simpl. by rewrite lookup_delete_eq.
    + intros f [Hf| ->%list_elem_of_singleton]%elem_of_app Hk; [done|]. by destruct Hk.
    + intros f Hf _. apply elem_of_app. by left.
    + by apply (flights_app k); [|done|apply (to_single _ Hok)].
    + intros Hfr. destruct (Hfr (MkFlight (WUnsubscribe k (Some kind)) None)); [|done].
      apply elem_of_app. right. constructor.
    + intros f [Hf| ->%list_elem_of_singleton]%elem_of_app E; [by destruct (Hfree f Hf)|].
      split_and!; simpl; [done|by rewrite lookup_delete_eq|by eexists|]. by rewrite R1.
  - apply bool_decide_eq_false in El. intros [= <- <-]. rewrite app_nil_r.
    apply (tickers_frame k s _ fl); try done.
    + split; try done. rewrite Eo. apply Hsets. intros o' Hne. unfold set_of. simpl. by rewrite lookup_insert_ne.
    + intros o'. simpl. by left.
    + apply (to_single _ Hok).
    + intros _. split_and!; simpl; try done.
      intros o' [= <-]%(eq_trans (eq_sym Eo)). unfold set_of at 1. simpl. by rewrite lookup_insert_eq.
    + intros f Hf E. by destruct (Hfree f Hf).
Qed.

(** *** The venue and the resumption *)

Lemma venue_ok s pre w reply post :
  tickers_ok (MkTickers s (pre ++ MkFlight w None :: post)) ->
  tickers_ok (MkTickers (wire_effect w reply s) (pre ++ MkFlight w (Some reply) :: post)).
Proof.
  intros Hok. pose proof (to_single _ Hok) as Hnd. simpl in Hnd.
  pose proof (flights_middle _ _ _ Hnd) as Hfr. unfold flight_key in Hfr. simpl in Hfr.
  assert (in_flight s (MkFlight w None)) as Hin.
  { pose proof (to_flight _ Hok) as Hall. rewrite Forall_forall in Hall. apply Hall. set_solver. }
  assert (Hoth : forall f r, f ∈ pre ++ MkFlight w r :: post -> flight_key f = wait_key w -> f = MkFlight w r).
  { intros f r Hf E. rewrite elem_of_app, elem_of_cons in Hf. destruct Hf as [Hf|[->|Hf]]; [|done|].
    all: destruct (Hfr f); [set_solver|done]. }
  apply (tickers_frame (wait_key w) s _ (pre ++ MkFlight w None :: post)); try done.
  - split; try by destruct reply. intros j Hj. destruct reply; [|done].
    destruct w; simpl in *; set_solver.
  - intros o. destruct reply; by left.
  - intros f. rewrite !elem_of_app, !elem_of_cons. intros [?|[->|?]] Hk; auto. by destruct Hk.
  - intros f. rewrite !elem_of_app, !elem_of_cons. intros [?|[->|?]] Hk; auto. by destruct Hk.
  - rewrite fmap_app in *. exact Hnd.
  - intros Hf. destruct (Hf (MkFlight w (Some reply))); [set_solver|done].
  - intros f Hf E. rewrite (Hoth f (Some reply) Hf E). unfold in_flight in *. simpl in *.
    destruct w as [k kind o|k kind], reply as [[]|e]; simpl;
      destruct Hin as (H1 & H2 & H3 & H4); split_and!; try done.
    + set_solver.
    + rewrite H4. split; [done|congruence].
    + split; [set_solver|done].
    + rewrite H4. split; [congruence|done].
Qed.

Lemma rollback_alone k kind o e s :
  su_intents s !! k = Some o -> set_of o s = {[kind]} ->
  (wait_end (WSubscribe k kind o) (Raise e) s).2 = del_intent k (put_set o ∅ s).
Proof.
  intros Hk Ho. simpl. run_monad. rewrite Ho. replace ({[kind]} ∖ {[kind]} : gset string) with (∅ : gset string) by set_solver.
  rewrite bool_decide_eq_true_2 by done. by rewrite Hk, bool_decide_eq_true_2 by eauto.
Qed.

Lemma resume_ok s pre w reply post :
  tickers_ok (MkTickers s (pre ++ MkFlight w (Some reply) :: post)) ->
  tickers_ok (MkTickers (wait_end w reply s).2 (pre ++ post)).
Proof.
  intros Hok. pose proof (to_single _ Hok) as Hnd. simpl in Hnd.
  pose proof (flights_middle _ _ _ Hnd) as Hfr. unfold flight_key in Hfr. simpl in Hfr.
  assert (in_flight s (MkFlight w (Some reply))) as Hin.
  { pose proof (to_flight _ Hok) as Hall. rewrite Forall_forall in Hall. apply Hall. set_solver. }
  assert (Hstep : forall s', only_key (wait_key w) s s' -> same_or_fresh (wait_key w) s s' ->
    at_rest s' (wait_key w) -> tickers_ok (MkTickers s' (pre ++ post))).
  { intros s' Ho Hs Hr. apply (tickers_frame (wait_key w) s s' (pre ++ MkFlight w (Some reply) :: post)); try done.
    - set_solver.
    - intros f. rewrite !elem_of_app, elem_of_cons. intros [?|[->|?]] Hk; auto. by destruct Hk.
    - rewrite fmap_app in *. simpl in Hnd. apply NoDup_app in Hnd as (H1 & H2 & [_ H3]%NoDup_cons).
      apply NoDup_app. split_and!; [done| |done]. intros x Hx Hx'. apply (H2 x Hx). by constructor.
    - intros f Hf E. by destruct (Hfr f Hf). }
  unfold in_flight in Hin. simpl in Hin.
  destruct w as [k kind o|k who], reply as [[]|e]; destruct Hin as (H1 & H2 & H3 & H4); apply Hstep.
  - split; try done. simpl. set_solver.
  - intros o'. simpl. by left.
  - split_and!; simpl; [set_solver|rewrite H2; set_solver|].
    intros o' [= <-]%(eq_trans (eq_sym H2)). change (set_of o s <> ∅). rewrite H3. set_solver.
  - rewrite (rollback_alone _ _ _ _ _ H2 H3).
    split; try done; [intros j Hj; simpl; by rewrite lookup_delete_ne|].
    simpl. rewrite H2. intros o' Hne _. unfold set_of. simpl. rewrite lookup_insert_ne; [done|congruence].
  - rewrite (rollback_alone _ _ _ _ _ H2 H3).
    intros o'. simpl. by rewrite lookup_delete_eq.
  - rewrite (rollback_alone _ _ _ _ _ H2 H3).
    split_and!; simpl; rewrite ?lookup_delete_eq; [|split; [done|by intros []]|done].
    split; [intros ?%H4; congruence|done].
  - destruct H3 as [? ->]. split; try done. intros j Hj. simpl in *. clear -Hj. set_solver.
  - destruct H3 as [? ->]. intros o'. simpl. by left.
  - destruct H3 as [? ->]. assert (k ∉ su_wire s) as Hoff by (intros ?%H4; congruence). clear Hok Hstep Hfr Hnd H4.
    split_and!; simpl; [set_solver|rewrite H2; split; [set_solver|by intros []]|congruence].
  - destruct H3 as [kind ->].
    split; try done; [intros j Hj; simpl; by rewrite lookup_insert_ne| |simpl; lia].
    intros o' _ Hlt. unfold set_of. simpl. rewrite lookup_insert_ne by lia. done.
  - destruct H3 as [kind ->].
    intros o'. simpl. rewrite lookup_insert_eq. intros [= <-]. right. lia.
  - destruct H3 as [kind ->].
    split_and!; simpl; rewrite ?lookup_insert_eq; [|split; [by eexists|done]|].
    + split; [done|]. intros _. apply H4. done.
    + intros o' [= <-]. unfold set_of. simpl. rewrite lookup_insert_eq. simpl. set_solver.
Qed.

Lemma tstep_ok t t' : tstep free t t' -> tickers_ok t -> tickers_ok t'.
Proof.
  intros [i kind s fl w s' E Hf|i kind c s fl w s' E Hf Hr|s pre w reply post|s pre w reply post] Hok.
  - by eapply add_begin_ok.
  - by eapply remove_begin_ok.
  - by apply venue_ok.
  - by apply resume_ok.
Qed.

Lemma rest_held s k : at_rest s k -> (k ∈ su_wire s <-> kinds_of k s <> ∅).
Proof.
  intros (H1 & H2 & H3). rewrite H1, H2. unfold kinds_of. split.
  - intros [o Ho]. rewrite Ho. auto.
  - intros Hne. destruct (su_intents s !! k); [by eexists|done].
Qed.

(** (C39) A ticker feed is on exactly while somebody holds it, as long as the
    commands of one symbol do not overlap.  Subscribes and unsubscribes of trades
    and quotes are coroutines that suspend on their venue call; those of different
    symbols interleave in any way, a command starts on a symbol only when none is
    in flight on it, and unsubscribes are of kinds that are held.  Whatever the
    venue answers to each, in every reachable state and for every symbol without
    a command in flight: the venue has its feed on exactly when the client
    believes so, and exactly when at least one kind of data holds it; a failed
    subscribe leaves no holder behind, a failed unsubscribe keeps its holder.
    Commands of one symbol that overlap break this
    ([overlapping_release_stops_held_feed]). *)
Theorem feed_follows_holders (t t' : Tickers) (k : Key) :
  tickers_ok t -> rtc (tstep free) t t' -> free k (tw_flights t') ->
  (k ∈ su_wire (tw_subs t') <-> k ∈ su_subs (tw_subs t')) /\
  (k ∈ su_wire (tw_subs t') <-> kinds_of k (tw_subs t') <> ∅).
Proof.
  intros Hok Hrun Hf.
  assert (tickers_ok t') as Hok'.
  { clear Hf. induction Hrun as [|t t1 t' Hs _ IH]; [done|]. by eapply IH, tstep_ok. }
  pose proof (to_rest _ Hok' k Hf) as Hr. split; [apply Hr|by apply rest_held].
Qed.

(** ** Witness and findings *)

Definition fresh_subs : Subs :=
  MkSubs {["MNQZ6-CME.RITHMIC" := ("MNQZ6", "CME")]} ∅ ∅ ∅ 0 ∅ ∅ ∅ false ∅.

Definition idle (s : Subs) : Tickers := MkTickers s [].

Lemma no_tickers_ok s :
  su_subs s = ∅ -> su_intents s = ∅ -> su_wire s = ∅ -> tickers_ok (idle s).
Proof.
  intros H1 H2 H3. split; simpl; try rewrite H2; try done.
  - intros k _. unfold at_rest. rewrite H1, H2, H3, lookup_empty.
    split_and!; [done|split; [set_solver|by intros []]|done].
  - constructor.
Qed.

Lemma fresh_subs_ok : tickers_ok (idle fresh_subs).
Proof. by apply no_tickers_ok. Qed.

Definition mnq_id : string := "MNQZ6-CME.RITHMIC".
Definition mnq_key : Key := ("MNQZ6", "CME").

(** A command run to its end. *)
Definition sub (kind : string) (s : Subs) : Subs := (add_ticker_intent (Ok tt) mnq_id kind s).2.

Definition waits (m : M Subs (option Waiting)) (s : Subs) : list Flight :=
  match (m s).1 with Ok w => launch w | Raise _ => [] end.

(** Trades are subscribed, quotes join, trades leave. *)
Definition trade_asked : Subs := (add_begin mnq_id "trade" fresh_subs).2.
Definition trade_on : Subs := sub "trade" fresh_subs.
Definition both_on : Subs := (add_begin mnq_id "quote" trade_on).2.
Definition quotes_only : Subs := (remove_begin mnq_id "trade" false both_on).2.

Lemma sample_run : rtc (tstep free) (idle fresh_subs) (idle quotes_only).
Proof.
  eapply rtc_l; [apply (TSubscribe _ mnq_id "trade" _ [] (Some (WSubscribe mnq_key "trade" 0)) trade_asked);
    [vm_compute; reflexivity|by intros k _ f ?%not_elem_of_nil]|].
  eapply rtc_l; [apply (TVenue _ _ [] _ (Ok tt) [])|].
  eapply rtc_l; [apply (TResume _ _ [] _ (Ok tt) [])|].
  change (MkTickers _ _) with (idle trade_on).
  eapply rtc_l; [apply (TSubscribe _ mnq_id "quote" _ [] None both_on);
    [vm_compute; reflexivity|by intros k _ f ?%not_elem_of_nil]|].
  eapply rtc_l; [|apply rtc_refl].
  apply (TUnsubscribe _ mnq_id "trade" false _ [] None quotes_only);
    [vm_compute; reflexivity|by intros k _ f ?%not_elem_of_nil|].
  intros k Hk. left. vm_compute in Hk. injection Hk as <-. evaluate.
Qed.

Lemma feed_follows_holders_witness :
  (mnq_key ∈ su_wire quotes_only <-> mnq_key ∈ su_subs quotes_only) /\
  (mnq_key ∈ su_wire quotes_only <-> kinds_of mnq_key quotes_only <> ∅) /\
  kinds_of mnq_key quotes_only = {["quote"]} /\ mnq_key ∈ su_wire quotes_only.
Proof.
  pose proof (feed_follows_holders (idle fresh_subs) (idle quotes_only) mnq_key fresh_subs_ok
    sample_run ltac:(by intros f ?%not_elem_of_nil)) as [H1 H2].
  split; [exact H1|]. split; [exact H2|]. split; evaluate.
Defined.

(** Releasing a kind that is not held turns off a feed another kind holds. *)
Lemma stray_release_stops_held_feed :
  let s' := (remove_ticker_intent (Ok tt) mnq_id "quote" true trade_on).2 in
  kinds_of mnq_key s' = {["trade"]} /\ su_wire s' = ∅.
Proof. split; evaluate. Qed.

(** While an unsubscribe of trades waits for the venue, a subscribe of quotes finds
    the key still subscribed and makes no call; when the unsubscribe resumes, the
    feed is off and quotes hold it. *)
Definition releasing : Subs := (remove_begin mnq_id "trade" false trade_on).2.
Definition joined_late : Subs := (add_begin mnq_id "quote" releasing).2.
Definition after_race : Subs :=
  (wait_end (WUnsubscribe mnq_key (Some "trade")) (Ok tt)
     (wire_effect (WUnsubscribe mnq_key (Some "trade")) (Ok tt) joined_late)).2.

Lemma overlapping_release_stops_held_feed :
  rtc (tstep (fun _ _ => True)) (idle trade_on) (idle after_race) /\
  kinds_of mnq_key after_race = {["quote"]} /\ su_wire after_race = ∅ /\ su_subs after_race = ∅.
Proof.
  split; [|split_and!; evaluate].
  eapply rtc_l; [apply (TUnsubscribe _ mnq_id "trade" false _ []
    (Some (WUnsubscribe mnq_key (Some "trade"))) releasing); [vm_compute; reflexivity|done|]|].
  { intros k Hk. left. vm_compute in Hk. injection Hk as <-. evaluate. }
  eapply rtc_l; [apply (TSubscribe _ mnq_id "quote" _ _ None joined_late); [vm_compute; reflexivity|done]|].
  eapply rtc_l; [apply (TVenue _ _ [] _ (Ok tt) [])|].
  eapply rtc_l; [|apply rtc_refl]. apply (TResume _ _ [] _ (Ok tt) []).
Qed.

(** A failed subscribe rolls back on the set it added to: when a release has
    deleted it meanwhile, the rollback deletes a key that is gone and raises
    [KeyError] in place of the venue's error. *)
Definition half_asked : Subs := (remove_begin mnq_id "trade" false trade_asked).2.

Lemma overlapping_rollback_raises_key_error :
  (wait_end (WSubscribe mnq_key "trade" 0) (Raise (Exn ExRuntime None "rejected")) half_asked).1
  = Raise (Exn ExKey None "").
Proof. vm_compute. reflexivity. Qed.

(** One-minute and sixty-minute bars share a wire key: an event of the minute
    feed, which the venue stamps with its period in seconds, is dispatched to
    both bar types, and unsubscribing the minute bars leaves their feed on. *)
Definition hour_bars : BarType := MkBarType mnq_id AMinute 60 true.
Definition one_minute : BarType := MkBarType mnq_id AMinute 1 true.

Definition both_bars : Subs :=
  (subscribe_bars (Ok tt) hour_bars (subscribe_bars (Ok tt) one_minute fresh_subs).2).2.

Definition minute_event : pydict :=
  dict_of [("symbol", VStr "MNQZ6"); ("exchange", VStr "CME"); ("bar_type", VInt 2); ("period", VStr "60")].

Lemma minute_event_reaches_hour_bars :
  bar_types_for_event (su_bars both_bars) minute_event = Ok [one_minute; hour_bars]
  /\ (unsubscribe_bars (Ok tt) one_minute both_bars).1 = Ok false.
Proof. split; vm_compute; reflexivity. Qed.
