(* ===== verification/Redact.v ===== *)
(** * Redaction of credentials (_redact.py)

    A credential reaches a log line raw, or escaped by [repr], by [json.dumps]
    or by the [repr] of its bytes.  [redact_text] scrubs all four forms in one
    left-to-right pass over the text, the longest form first.  The functions
    are the source's; the theorems give the segmentation of the text the pass
    computes: what is shown contains no form of a secret. *)

From Stdlib Require Import Ascii String.
From stdpp Require Import base gmap strings list sorting.
From Stdlib Require Import ZArith Lia.
From S2P Require Import Prelude PyVal.
Import Text.
Open Scope string_scope.
Open Scope list_scope.
Open Scope Z_scope.

(** ** Escaped forms of a string *)

Definition hex_digit (n : Z) : ascii :=
  ascii_of_N (Z.to_N (if n <? 10 then 48 + n else 87 + n)).

Definition hex2 (n : Z) : string :=
  String (hex_digit (n / 16)) (String (hex_digit (n mod 16)) EmptyString).

Definition BACKSLASH : ascii := ascii_of_N 92.
Definition QUOTE : ascii := ascii_of_N 39.
Definition DQUOTE : ascii := ascii_of_N 34.

Definition esc (a : ascii) : string := String BACKSLASH (String a EmptyString).

Definition one (a : ascii) : string := String a EmptyString.

(** One character of [repr(s)] inside the quote character [q]; a byte of
    [repr(b)] is written the same way. *)
Definition repr_char (q a : ascii) : string :=
  let c := chr a in
  if bool_decide (a = BACKSLASH) || bool_decide (a = q) then esc a
  else if c =? 9 then esc "t"
  else if c =? 10 then esc "n"
  else if c =? 13 then esc "r"
  else if (c <? 32) || (127 <=? c) then esc "x" +:+ hex2 c
  else one a.

Fixpoint sconcat_map (f : ascii -> string) (s : string) : string :=
  match s with
  | EmptyString => EmptyString
  | String a s' => f a +:+ sconcat_map f s'
  end.

(** The quote [repr] chooses: the double one only when it avoids escaping. *)
Definition repr_quote (s : string) : ascii :=
  if has_char QUOTE s && negb (has_char DQUOTE s) then DQUOTE else QUOTE.

(** [repr(s)[1:-1]] and [repr(s.encode())[2:-1]] for ASCII text. *)
Definition repr_body (s : string) : string := sconcat_map (repr_char (repr_quote s)) s.

Definition py_repr (s : string) : string :=
  one (repr_quote s) +:+ repr_body s +:+ one (repr_quote s).

Definition json_char (a : ascii) : string :=
  let c := chr a in
  if bool_decide (a = BACKSLASH) || bool_decide (a = DQUOTE) then esc a
  else if c =? 8 then esc "b"
  else if c =? 9 then esc "t"
  else if c =? 10 then esc "n"
  else if c =? 12 then esc "f"
  else if c =? 13 then esc "r"
  else if (c <? 32) || (127 <=? c) then esc "u" +:+ "00" +:+ hex2 c
  else one a.

(** [json.dumps(s)[1:-1]]. *)
Definition json_body (s : string) : string := sconcat_map json_char s.

(** ** [secret_key], [SecretStr], [RedactedEnv] *)

(** [s.endswith(p)]. *)
Definition endswith (p s : string) : bool :=
  match strip_suffix p s with Some _ => true | None => false end.

Definition secret_key (key : string) : bool :=
  let up := upper key in
  existsb (fun marker => contains marker up) ["PASSWORD"; "TOKEN"; "SECRET"]
  || (bool_decide (up = "PW") || endswith "_PW" up).

(** A plain string, or a [SecretStr]: equal as text, apart in [repr]. *)
Inductive envstr := Plain (s : string) | SecretStr (s : string).

Definition raw (v : envstr) : string := match v with Plain s | SecretStr s => s end.

Definition repr_envstr (v : envstr) : string :=
  match v with Plain s => py_repr s | SecretStr _ => "'***'" end.

(** [RedactedEnv(values)], items in insertion order. *)
Definition redacted_env (values : list (string * string)) : list (string * envstr) :=
  (fun '(k, v) => (k, if secret_key k then SecretStr v else Plain v)) <$> values.

Definition comma_sep (l : list string) : string := String.concat ", " l.

(** [repr] and [str] of a [RedactedEnv]. *)
Definition repr_redacted_env (env : list (string * envstr)) : string :=
  "RedactedEnv({" +:+
  comma_sep ((fun '(k, v) =>
    py_repr k +:+ ": " +:+
    (if secret_key k then py_repr "***" else repr_envstr v)) <$> env)
  +:+ "})".

(** ** [redact_text] *)

Definition variants_of (value : string) : list string :=
  if nonempty value then [value; repr_body value; json_body value; repr_body value] else [].

(** The set of forms, and the order [sorted(..., key=len, reverse=True)]. *)
Definition longer (a b : string) : Prop := (String.length b <= String.length a)%nat.

#[export] Instance longer_dec a b : Decision (longer a b).
Proof. unfold longer. apply _. Defined.

Definition alternatives (secrets : list string) : list string :=
  merge_sort longer (remove_dups (secrets ≫= variants_of)).

(** The first alternative that matches at the head of the text. *)
Definition match_here (alts : list string) (s : string) : option string :=
  List.find (fun v => String.prefix v s) alts.

(** [re.sub(pattern, "***", text)]: leftmost, non-overlapping; [skip] is how
    many characters of the current match are still to be passed over. *)
Fixpoint sub_scan (alts : list string) (skip : nat) (s : string) : string :=
  match s with
  | EmptyString => EmptyString
  | String a s' =>
      match skip with
      | S k => sub_scan alts k s'
      | O =>
          match match_here alts s with
          | Some v => "***" +:+ sub_scan alts (pred (String.length v)) s'
          | None => String a (sub_scan alts O s')
          end
      end
  end.

Definition redact_text (text : string) (secrets : list string) : string :=
  let variants := alternatives secrets in
  match variants with
  | [] => text
  | _ => sub_scan variants O text
  end.

(** ** Facts *)

(** A run of shown characters, or a scrubbed form. *)
Inductive segment := Shown (s : string) | Scrubbed (v : string).

Definition seg_src (g : segment) : string :=
  match g with Shown s => s | Scrubbed v => v end.
Definition seg_out (g : segment) : string :=
  match g with Shown s => s | Scrubbed _ => "***" end.

Definition join (l : list string) : string := foldr String.app EmptyString l.

Lemma join_cons s l : join (s :: l) = s +:+ join l.
Proof. done. Qed.

Lemma prefix_app v s t : String.prefix v s = true -> String.prefix v (s +:+ t) = true.
Proof.
  revert s. induction v as [|a v IH]; intros s H; [by destruct (s +:+ t)|].
  destruct s as [|b s]; [done|]. rewrite string_app_cons. simpl in *.
  destruct (ascii_dec a b); [auto|done].
Qed.

Lemma prefix_split v s : String.prefix v s = true -> exists t, s = v +:+ t.
Proof.
  revert s. induction v as [|a v IH]; intros s H; [by exists s|].
  destruct s as [|b s]; [done|]. simpl in H.
  destruct (ascii_dec a b) as [->|]; [|done].
  destruct (IH _ H) as [t ->]. by exists t.
Qed.

Lemma prefix_app_self v t : String.prefix v (v +:+ t) = true.
Proof.
  induction v as [|a v IH]; [by destruct t|]. rewrite string_app_cons. simpl.
  destruct (ascii_dec a a); congruence.
Qed.

(** Sorting keeps the elements, so the alternation is exactly the forms. *)
Lemma elem_of_alternatives v secrets :
  v ∈ alternatives secrets <-> exists value, value ∈ secrets /\ v ∈ variants_of value.
Proof.
  unfold alternatives. rewrite (merge_sort_Permutation longer), elem_of_remove_dups,
    list_elem_of_bind. naive_solver.
Qed.

Lemma variants_of_raw value : value <> "" -> value ∈ variants_of value.
Proof. intros H. destruct value; [done|]. simpl. left. Qed.

Lemma sconcat_map_nonempty f s :
  (forall a, f a <> "") -> s <> "" -> sconcat_map f s <> "".
Proof.
  intros Hf. destruct s as [|a s]; [done|]. intros _ E. specialize (Hf a).
  simpl in E. by destruct (f a).
Qed.

Lemma repr_char_nonempty q a : repr_char q a <> "".
Proof. unfold repr_char. repeat case_scrut; done. Qed.

Lemma json_char_nonempty a : json_char a <> "".
Proof. unfold json_char. repeat case_scrut; done. Qed.

Lemma variants_of_nonempty value v : v ∈ variants_of value -> v <> "".
Proof.
  unfold variants_of. destruct value as [|a s] eqn:E; simpl nonempty; cbv iota.
  { by intros ?%elem_of_nil. }
  rewrite <- E. rewrite !elem_of_cons, elem_of_nil.
  intros [->|[->|[->|[->|[]]]]]; [by rewrite E|..];
    (apply sconcat_map_nonempty;
      [apply repr_char_nonempty || apply json_char_nonempty | by rewrite E]).
Qed.

Lemma alternatives_nonempty secrets v : v ∈ alternatives secrets -> v <> "".
Proof. rewrite elem_of_alternatives. intros (? & _ & ?). eauto using variants_of_nonempty. Qed.

#[export] Instance longer_total : Total longer.
Proof. intros a b. unfold longer. lia. Qed.
#[export] Instance longer_trans : Transitive longer.
Proof. intros a b c. unfold longer. lia. Qed.

(** The match taken is a longest one. *)
Lemma match_here_longest alts s v w :
  StronglySorted longer alts -> match_here alts s = Some v ->
  w ∈ alts -> String.prefix w s = true -> longer v w.
Proof.
  intros Hs. unfold match_here. induction Hs as [|a l Hs IH Ha]; simpl; [done|].
  destruct (String.prefix a s) eqn:E.
  - intros [= ->] [->|Hw]%elem_of_cons Hp; [unfold longer; lia|].
    rewrite Forall_forall in Ha. by apply Ha.
  - intros Hm [->|Hw]%elem_of_cons Hp; [congruence|eauto].
Qed.

Lemma match_here_some alts s v :
  match_here alts s = Some v -> v ∈ alts /\ String.prefix v s = true.
Proof.
  unfold match_here. intros [Hin Hp]%List.find_some. split; [|done].
  by apply list_elem_of_In.
Qed.

Lemma match_here_none alts s v :
  match_here alts s = None -> v ∈ alts -> String.prefix v s = false.
Proof.
  unfold match_here. intros H Hv. apply (List.find_none _ _ H). by apply list_elem_of_In.
Qed.

Lemma sub_scan_skip alts v s :
  sub_scan alts (String.length v) (v +:+ s) = sub_scan alts O s.
Proof. induction v as [|a v IH]; [done|]. rewrite string_app_cons. exact IH. Qed.

Lemma sub_scan_match alts v s :
  v <> "" -> match_here alts (v +:+ s) = Some v ->
  sub_scan alts O (v +:+ s) = "***" +:+ sub_scan alts O s.
Proof.
  intros Hv Hm. destruct v as [|a v]; [done|].
  rewrite string_app_cons in *. cbn [sub_scan]. rewrite Hm. f_equal.
  apply sub_scan_skip.
Qed.

(** What the pass promises of a segmentation, at each segment, with the text
    after it: a shown run holds no form, not even one it would share with the
    text that follows; a scrubbed form is a longest one there. *)
Fixpoint scrubbed_ok (alts : list string) (l : list segment) : Prop :=
  match l with
  | [] => True
  | Shown s :: l' =>
      (forall pre post v, s = pre +:+ post -> post <> "" -> v ∈ alts ->
         String.prefix v (post +:+ join (seg_src <$> l')) = false) /\
      scrubbed_ok alts l'
  | Scrubbed v :: l' =>
      v ∈ alts /\
      (forall w, w ∈ alts -> String.prefix w (v +:+ join (seg_src <$> l')) = true ->
         longer v w) /\
      scrubbed_ok alts l'
  end.

Lemma sub_scan_segments alts : forall n s,
  (forall v, v ∈ alts -> v <> "") -> StronglySorted longer alts ->
  (String.length s <= n)%nat ->
  exists segs,
    s = join (seg_src <$> segs) /\
    sub_scan alts O s = join (seg_out <$> segs) /\
    scrubbed_ok alts segs.
Proof.
  induction n as [|n IH]; intros s Hne Hs Hn.
  { destruct s; [|simpl in Hn; lia]. by exists []. }
  destruct s as [|a s]; [by exists []|].
  destruct (match_here alts (String a s)) as [v|] eqn:E.
  - destruct (match_here_some _ _ _ E) as [Hv Hp].
    destruct (prefix_split _ _ Hp) as [t Ht]. pose proof (Hne _ Hv) as Hv0.
    destruct (IH t Hne Hs) as (segs & H1 & H2 & H3).
    { apply (f_equal String.length) in Ht. rewrite string_length_app in Ht.
      destruct v; simpl in *; [done|lia]. }
    exists (Scrubbed v :: segs). rewrite Ht in *. rewrite !fmap_cons, !join_cons.
    cbn [seg_src seg_out scrubbed_ok]. rewrite <- H1, <- H2.
    split_and!; auto using sub_scan_match.
    intros w Hw Hpw. eauto using match_here_longest.
  - destruct (IH s Hne Hs) as (segs & H1 & H2 & H3); [simpl in Hn; lia|].
    exists (Shown (one a) :: segs). rewrite !fmap_cons, !join_cons.
    cbn [seg_src seg_out scrubbed_ok]. rewrite <- H1, <- H2. cbn [sub_scan]. rewrite E.
    split_and!; [done..| |done].
    intros pre post v Eq Hpost Hv.
    assert (post = one a) as ->.
    { destruct pre as [|b pre]; [done|]. rewrite string_app_cons in Eq.
      unfold one in Eq. injection Eq as _ E2. by destruct pre, post. }
    by apply (match_here_none alts).
Qed.

Lemma alternatives_sorted secrets : StronglySorted longer (alternatives secrets).
Proof. apply StronglySorted_merge_sort; apply _. Qed.

(** The text is cut into shown runs and scrubbed forms; the output shows the
    former and replaces the latter.  No form of a secret starts inside what is
    shown, and each scrubbed form is a longest one at its place. *)
Theorem redact_text_segments text secrets :
  exists segs,
    text = join (seg_src <$> segs) /\
    redact_text text secrets = join (seg_out <$> segs) /\
    scrubbed_ok (alternatives secrets) segs.
Proof.
  unfold redact_text. destruct (alternatives secrets) as [|v l] eqn:E.
  - exists [Shown text]. cbn.
    assert (R : forall s, s +:+ "" = s).
    { induction s as [|a s IH]; [done|]. rewrite string_app_cons. by rewrite IH. }
    rewrite R. split_and!; try done. intros ? ? ? ? ? Hv. by apply elem_of_nil in Hv.
  - rewrite <- E. apply (sub_scan_segments _ (String.length text)); [|
      apply alternatives_sorted|done]. intros w. apply alternatives_nonempty.
Qed.

(** A text with no form of any secret is left alone. *)
Lemma sub_scan_clean alts s :
  (forall v, v ∈ alts -> contains v s = false) -> sub_scan alts O s = s.
Proof.
  induction s as [|a s IH]; intros H; [done|]. cbn [sub_scan].
  destruct (match_here alts (String a s)) as [v|] eqn:E.
  - destruct (match_here_some _ _ _ E) as [Hv Hp]. specialize (H _ Hv).
    cbn [contains] in H. by rewrite Hp in H.
  - f_equal. apply IH. intros v Hv. specialize (H _ Hv). cbn [contains] in H.
    by destruct (String.prefix v (String a s)).
Qed.

(** [repr] of the environment does not depend on the value of a secret key. *)
Theorem redacted_env_hides values values' :
  Forall2 (fun p q => p.1 = q.1 /\ (secret_key p.1 = false -> p.2 = q.2)) values values' ->
  repr_redacted_env (redacted_env values) = repr_redacted_env (redacted_env values').
Proof.
  intros H. unfold repr_redacted_env, redacted_env.
  rewrite <- !list_fmap_compose.
  match goal with |- _ +:+ comma_sep ?l +:+ _ = _ +:+ comma_sep ?l' +:+ _ =>
    enough (l = l') as -> by done end.
  induction H as [|[k v] [k' v'] l l' [Hk Hv] _ IH]; [done|]. simpl in Hk, Hv. subst k'.
  rewrite !fmap_cons. f_equal; [|exact IH]. simpl.
  destruct (secret_key k) eqn:E; [done|]. by rewrite (Hv eq_refl).
Qed.

(** Longest-first hides a secret that contains another; two secrets that
    overlap without nesting still show the tail of the second. *)
Example redact_nested :
  redact_text "pw=hunter22;" ["hunter2"; "hunter22"] = "pw=***;".
Proof. vm_compute. reflexivity. Qed.

Theorem redact_overlap_shows_suffix :
  redact_text "abcdef" ["abcd"; "cdef"] = "***ef".
Proof. vm_compute. reflexivity. Qed.
