(* ===== verification/Config.v ===== *)
(** * Session and client configuration (config.py)

    Environment variables and dotenv files to a [SessionConfig].  The process
    environment is a map from names to text; the file system and the home
    directories are the parameter [Host].  A [ConfigError] is an exception
    value.  A constructed configuration is a record of its own
    ([SessionConfig]) beside the constructor's arguments ([SessionArgs]):
    [post_init] is the only way from one to the other. *)

From Stdlib Require Import Ascii String.
From stdpp Require Import base gmap strings list.
From Stdlib Require Import ZArith Lia.
From S2P Require Import Prelude PyVal Redact Ident.
Import Text.
Open Scope string_scope.
Open Scope list_scope.
Open Scope Z_scope.

Abbreviation environ := (gmap string string).

Definition config_error (msg : string) : exn := Exn ExConfig None msg.

Definition DEFAULT_SYSTEM_NAME : string := "LucidTrading".
Definition DEFAULT_GATEWAY_URL : string := "wss://rprotocol.rithmic.com:443".
Definition DEFAULT_APP_NAME : string := "rithmic-nt-connect".
Definition DEFAULT_APP_VERSION : string := "0.1.0".

(** ** Helpers *)

Inductive ConnectMode := DIRECT | GATEWAY.

#[export] Instance ConnectMode_eq_dec : EqDecision ConnectMode.
Proof. solve_decision. Defined.

Definition mode_value (m : ConnectMode) : string :=
  match m with DIRECT => "direct" | GATEWAY => "gateway" end.

(** [ConnectMode | str]. *)
Inductive mode_arg := IsMode (m : ConnectMode) | IsText (s : string).

Definition parse_connect_mode (value : mode_arg) : res ConnectMode :=
  match value with
  | IsMode m => Ok m
  | IsText s =>
      let raw := lower (strip s) in
      if bool_decide (raw = "direct") then Ok DIRECT
      else if bool_decide (raw = "gateway") then Ok GATEWAY
      else Raise (config_error ("invalid connect_mode " +:+ py_repr s +:+
                                "; expected 'direct' or 'gateway'"))
  end.

Definition _require_nonempty (name : string) (value : option string) : res string :=
  let missing := Raise (config_error ("missing or empty required config field: " +:+ name)) in
  match value with
  | None => missing
  | Some v => if nonempty (strip v) then Ok (strip v) else missing
  end.

Fixpoint _env_first (mapping : environ) (keys : list string) : option string :=
  match keys with
  | [] => None
  | key :: keys' =>
      match mapping !! key with
      | Some raw => if nonempty (strip raw) then Some (strip raw) else _env_first mapping keys'
      | None => _env_first mapping keys'
      end
  end.

Definition _ENV_TRUTHY : list string := ["1"; "true"; "yes"; "on"].

Definition env_truthy (value : option string) (dflt : bool) : bool :=
  match value with
  | None => dflt
  | Some v => bool_decide (lower (strip v) ∈ _ENV_TRUTHY)
  end.

(** ** Retired variables *)

Definition _SPAWN_REMOVED (name : string) : string :=
  name +:+ " was removed: the gateway client no longer spawns the parent; start the " +:+
  "parent explicitly with `python -m rithmic_gateway` (or a service manager) and " +:+
  "unset " +:+ name.
Definition _TOPOLOGY_REMOVED (name : string) : string :=
  name +:+ " was removed: the gateway client has one topology (one shared socket per " +:+
  "process); unset " +:+ name.

Definition _RETIRED_KNOBS : list (string * (string -> string)) :=
  [("RITHMIC_GATEWAY_CLIENT_MODE", _TOPOLOGY_REMOVED);
   ("RITHMIC_GATEWAY_SPAWN_POLICY", _SPAWN_REMOVED);
   ("RITHMIC_GATEWAY_AUTO_SPAWN", _SPAWN_REMOVED)].

Fixpoint reject_knobs (env : environ) (knobs : list (string * (string -> string))) : res unit :=
  match knobs with
  | [] => Ok tt
  | (name, why) :: knobs' =>
      match _env_first env [name] with
      | Some raw => Raise (config_error (name +:+ "=" +:+ raw +:+ ": " +:+ why name))
      | None => reject_knobs env knobs'
      end
  end.

Definition _reject_retired_client_knobs (env : environ) : res unit :=
  reject_knobs env _RETIRED_KNOBS.

Record ModeFields := MkModeFields {
  mf_connect_mode : ConnectMode;
  mf_gateway_listen : option string;
  mf_gateway_auth_token : string
}.

Definition _connect_mode_fields (env : environ) : res ModeFields :=
  match _env_first env ["RITHMIC_CONNECT_MODE"] with
  | None => Raise (config_error ("missing RITHMIC_CONNECT_MODE; set to 'direct' " +:+
              "(in-process plants) or 'gateway' (shared rithmic-gateway)"))
  | Some raw =>
      _ ← _reject_retired_client_knobs env;
      mode ← catch (fun e => bool_decide (ex_class e = ExConfig))
               (parse_connect_mode (IsText raw))
               (fun _ => Raise (config_error ("invalid RITHMIC_CONNECT_MODE " +:+ py_repr raw
                                              +:+ "; expected direct or gateway")));
      Ok (MkModeFields mode (_env_first env ["RITHMIC_GATEWAY_LISTEN"])
            (default "" (_env_first env ["RITHMIC_GATEWAY_AUTH_TOKEN"])))
  end.

(** ** Dotenv files *)

(** Line boundaries of [str.splitlines] (ASCII part). *)
Definition line_break (a : ascii) : bool :=
  let c := chr a in ((10 <=? c) && (c <=? 13)) || ((28 <=? c) && (c <=? 30)).

Definition CR : ascii := ascii_of_N 13.
Definition LF : ascii := ascii_of_N 10.

Fixpoint splitlines (s : string) : list string :=
  match s with
  | EmptyString => []
  | String a s' =>
      if line_break a then
        EmptyString ::
        match s' with
        | String b s'' =>
            if bool_decide (a = CR) && bool_decide (b = LF) then splitlines s''
            else splitlines s'
        | EmptyString => []
        end
      else match splitlines s' with
           | [] => [String a EmptyString]
           | l :: ls => String a l :: ls
           end
  end.

Definition is_char (c a : ascii) : bool := bool_decide (a = c).

(** One line of the file: [None] when it is skipped. *)
Definition dotenv_line (raw : string) : option (string * string) :=
  let line := strip raw in
  if negb (nonempty line) || String.prefix "#" line then None
  else match split_once "=" line with
       | None => None
       | Some (key, value) =>
           Some (strip key, strip_by (is_char DQUOTE) (strip_by (is_char QUOTE) (strip value)))
       end.

Definition parse_lines (text : string) : environ :=
  foldl (fun values raw =>
           match dotenv_line raw with
           | Some (k, v) => <[k := v]> values
           | None => values
           end) ∅ (splitlines text).

(** [s.split(c)]. *)
Fixpoint split_on (c : ascii) (s : string) : list string :=
  match s with
  | EmptyString => [EmptyString]
  | String a s' =>
      if bool_decide (a = c) then EmptyString :: split_on c s'
      else match split_on c s' with
           | [] => [String a EmptyString]
           | l :: ls => String a l :: ls
           end
  end.

(** [str(Path(p))] on POSIX: empty and [.] components go, a root stays. *)
Definition path_str (p : string) : string :=
  let parts := List.filter (fun c => nonempty c && negb (bool_decide (c = "."))) (split_on "/" p) in
  let body := String.concat "/" parts in
  if String.prefix "//" p && negb (String.prefix "///" p) then "//" +:+ body
  else if String.prefix "/" p then "/" +:+ body
  else if nonempty body then body else ".".

(** The operating system: the text of a regular file ([None] when the path is
    not one), and the home directory named by a leading [~] component. *)
Class Host := {
  file_text : string -> option string;
  home_dir : string -> option string
}.

Section Files.
Context `{Host}.

(** [Path(p).expanduser()]: a leading [~] component becomes the home directory
    it names. *)
Definition expanduser (path : string) : res string :=
  let p := path_str path in
  match p with
  | String "~" _ =>
      let '(user, rest) := default (p, "") (split_once "/" p) in
      match home_dir user with
      | Some home => Ok (path_str (home +:+ "/" +:+ rest))
      | None => Raise (Exn ExRuntime None "Could not determine home directory.")
      end
  | _ => Ok p
  end.

Definition _parse_dotenv (path : string) : environ :=
  match file_text (path_str path) with
  | None => ∅
  | Some text => parse_lines text
  end.

(** [os.environ.setdefault] for every item of the file: the process keeps what
    it has. *)
Definition load_dotenv (path : string) : M environ bool :=
  match file_text (path_str path) with
  | None => mret false
  | Some _ => modify (fun env => env ∪ _parse_dotenv path) ;; mret true
  end.

Definition load_dotenv_files (paths : list string) (extra_env_var : string) : M environ unit :=
  forM_ paths (fun path => load_dotenv path ;; mret tt) ;;
  env ← get;
  forM_ (split_on ":" (default "" (env !! extra_env_var))) (fun part =>
    let part := strip part in
    whenM (nonempty part) (load_dotenv part ;; mret tt)).

Definition _dotenv_values (path : string) : res environ :=
  file_path ← expanduser path;
  match file_text file_path with
  | None => Raise (config_error ("explicit test env file does not exist: " +:+ file_path))
  | Some _ => Ok (_parse_dotenv file_path)
  end.

(** ** System classification and the explicit test environment *)

Inductive SystemKind := Production | TestKind | UnknownKind.

#[export] Instance SystemKind_eq_dec : EqDecision SystemKind.
Proof. solve_decision. Defined.

Definition TEST_SYSTEM_MARKERS : list string := ["TEST"; "DEMO"; "SANDBOX"; "SIM"; "PAPER"].
Definition PRODUCTION_SYSTEM_MARKERS : list string :=
  ["LUCID"; "PRODUCTION"; "RITHMIC 01"; "RITHMIC 02"].

Definition system_kind (system_name : string) : SystemKind :=
  let up := upper system_name in
  if existsb (fun marker => contains marker up) PRODUCTION_SYSTEM_MARKERS then Production
  else if existsb (fun marker => contains marker up) TEST_SYSTEM_MARKERS then TestKind
  else UnknownKind.

Fixpoint require_keys_of (values : environ) (keys : list string) : res unit :=
  match keys with
  | [] => Ok tt
  | key :: keys' =>
      match _env_first values [key] with
      | None => Raise (config_error ("explicit test env file is missing " +:+ key))
      | Some _ => require_keys_of values keys'
      end
  end.

Definition TEST_ENV_KEYS : list string :=
  ["RITHMIC_USER"; "RITHMIC_PASSWORD"; "RITHMIC_SYSTEM_NAME"; "RITHMIC_CONNECT_MODE"].

Definition explicit_test_env (source_env : environ) : res environ :=
  match _env_first source_env ["RITHMIC_TEST_DOTENV"] with
  | None =>
      Raise (config_error ("missing RITHMIC_TEST_DOTENV; live tests require an explicit " +:+
                           "test env file"))
  | Some source =>
      values ← _dotenv_values source;
      _ ← require_keys_of values TEST_ENV_KEYS;
      mode ← parse_connect_mode (IsText (default "" (values !! "RITHMIC_CONNECT_MODE")));
      _ ← (if bool_decide (mode = GATEWAY)
              && bool_decide (_env_first values ["RITHMIC_GATEWAY"] = None)
           then Raise (config_error "explicit test env file is missing RITHMIC_GATEWAY")
           else Ok tt);
      let kind := system_kind (default "" (values !! "RITHMIC_SYSTEM_NAME")) in
      let allow_production := bool_decide (kind = Production)
        && env_truthy (_env_first source_env ["RITHMIC_ALLOW_LUCID_E2E"]) false in
      _ ← (if allow_production then Ok tt
           else if bool_decide (kind = Production) then
             Raise (config_error "explicit test env resolves to a production Rithmic system")
           else if negb (bool_decide (kind = TestKind)) then
             Raise (config_error "explicit test env system is not recognized as test/demo")
           else Ok tt);
      let values := match _env_first source_env ["RITHMIC_ENABLE_TRADING"] with
                    | Some trading => <["RITHMIC_ENABLE_TRADING" := trading]> values
                    | None => values
                    end in
      path ← expanduser source;
      Ok (<["RITHMIC_TEST_DOTENV" := path]> values)
  end.

End Files.

(** ** [SessionConfig] *)

(** The constructor's arguments. *)
Record SessionArgs := MkSessionArgs {
  sa_user : string;
  sa_connect_mode : mode_arg;
  sa_password : option string;
  sa_system_name : string;
  sa_url : string;
  sa_app_name : string;
  sa_app_version : string;
  sa_env : string;
  sa_beta_url : option string;
  sa_account_id : option string;
  sa_fcm_id : option string;
  sa_ib_id : option string;
  sa_symbol : option string;
  sa_exchange : option string;
  sa_gateway_listen : option string;
  sa_gateway_auth_token : string
}.

(** The object after [__post_init__]. *)
Record SessionConfig := MkSessionConfig {
  sc_user : string;
  sc_connect_mode : ConnectMode;
  sc_password : option string;
  sc_system_name : string;
  sc_url : string;
  sc_app_name : string;
  sc_app_version : string;
  sc_env : string;
  sc_beta_url : string;
  sc_account_id : option string;
  sc_fcm_id : option string;
  sc_ib_id : option string;
  sc_symbol : option string;
  sc_exchange : option string;
  sc_gateway_listen : option string;
  sc_gateway_auth_token : string
}.

Definition post_init (a : SessionArgs) : res SessionConfig :=
  user ← _require_nonempty "user" (Some (sa_user a));
  mode ← parse_connect_mode (sa_connect_mode a);
  password ← (if bool_decide (mode = DIRECT)
              then p ← _require_nonempty "password" (sa_password a); Ok (Some p)
              else Ok None);
  system_name ← _require_nonempty "system_name" (Some (sa_system_name a));
  url ← _require_nonempty "url" (Some (sa_url a));
  app_name ← _require_nonempty "app_name" (Some (sa_app_name a));
  app_version ← _require_nonempty "app_version" (Some (sa_app_version a));
  env ← _require_nonempty "env" (Some (sa_env a));
  if negb (bool_decide (env ∈ ["Live"; "Demo"; "Test"])) then
    Raise (config_error ("invalid env " +:+ py_repr env +:+ "; expected Live, Demo, or Test"))
  else
    let beta := match sa_beta_url a with
                | Some b => if nonempty (strip b) then b else url
                | None => url
                end in
    Ok (MkSessionConfig user mode password system_name url app_name app_version env beta
          (sa_account_id a) (sa_fcm_id a) (sa_ib_id a) (sa_symbol a) (sa_exchange a)
          (sa_gateway_listen a) (sa_gateway_auth_token a)).

Definition repr_opt (o : option string) : string :=
  match o with Some s => py_repr s | None => "None" end.

Definition repr_config (c : SessionConfig) : string :=
  let password := match sc_password c with None => "" | Some _ => "password='***', " end in
  "SessionConfig(" +:+
  "user=" +:+ py_repr (sc_user c) +:+ ", " +:+ password +:+
  "system_name=" +:+ py_repr (sc_system_name c) +:+ ", " +:+
  "url=" +:+ py_repr (sc_url c) +:+ ", env=" +:+ py_repr (sc_env c) +:+ ", " +:+
  "connect_mode=" +:+ py_repr (mode_value (sc_connect_mode c)) +:+ ", " +:+
  "app_name=" +:+ py_repr (sc_app_name c) +:+ ", app_version=" +:+ py_repr (sc_app_version c)
  +:+ ", account_id=" +:+ repr_opt (sc_account_id c) +:+ ")".

Definition opt_truthy (o : option string) : bool :=
  match o with Some s => nonempty s | None => false end.

Definition has_account (c : SessionConfig) : bool :=
  opt_truthy (sc_account_id c) && opt_truthy (sc_fcm_id c) && opt_truthy (sc_ib_id c).

Definition opt_str (o : option string) : pyval :=
  match o with Some s => VStr s | None => VNone end.

Definition _redact_secrets (data : pydict) : pydict :=
  if bool_decide (is_Some (data !! "password")) && negb (is_none (dget data "password"))
  then <["password" := VStr "***"]> data else data.

Definition to_dict (c : SessionConfig) (redact : bool) : pydict :=
  let data := dict_of
    [("user", VStr (sc_user c)); ("password", opt_str (sc_password c));
     ("system_name", VStr (sc_system_name c)); ("url", VStr (sc_url c));
     ("beta_url", VStr (sc_beta_url c)); ("app_name", VStr (sc_app_name c));
     ("app_version", VStr (sc_app_version c)); ("env", VStr (sc_env c));
     ("account_id", opt_str (sc_account_id c)); ("fcm_id", opt_str (sc_fcm_id c));
     ("ib_id", opt_str (sc_ib_id c)); ("symbol", opt_str (sc_symbol c));
     ("exchange", opt_str (sc_exchange c));
     ("connect_mode", VStr (mode_value (sc_connect_mode c)));
     ("gateway_listen", opt_str (sc_gateway_listen c))] in
  if redact then _redact_secrets data else data.

(** ** Credential sources and [from_env] *)

Record EnvSource := MkEnvSource {
  es_env : string;
  es_user_keys : list string;
  es_password_keys : list string;
  es_system_keys : list string;
  es_url_keys : list string;
  es_account_keys : list string;
  es_fcm_keys : list string;
  es_ib_keys : list string;
  es_symbol_keys : list string;
  es_exchange_keys : list string;
  es_system_default : string;
  es_url_default : option string;
  es_alt_url_keys : list string;
  es_legacy_url_keys : list string;
  es_lucid_defaults : bool
}.

Definition SOURCE_MY046 : EnvSource := {|
  es_env := "Live";
  es_user_keys := ["RITHMIC_USER"; "RHITMIC_USERNAME"; "RITHMIC_USERNAME"];
  es_password_keys := ["RITHMIC_PASSWORD"; "RHITMIC_PASSWORD"];
  es_system_keys := ["RITHMIC_SYSTEM"; "RITHMIC_SYSTEM_NAME"; "RITHMIC_LIVE_SYSTEM_NAME"];
  es_url_keys := ["RITHMIC_GATEWAY"; "RITHMIC_LIVE_URL"];
  es_account_keys := ["RITHMIC_ACCOUNT_ID"; "ACCOUNT_ID"; "RITHMIC_LIVE_ACCOUNT_ID";
                      "RHITMIC_ACCOUNT_ID"];
  es_fcm_keys := ["RITHMIC_FCM_ID"; "FCM_ID"; "RITHMIC_LIVE_FCM_ID"];
  es_ib_keys := ["RITHMIC_IB_ID"; "IB_ID"; "RITHMIC_LIVE_IB_ID"];
  es_symbol_keys := ["RITHMIC_SYMBOL"; "SYMBOL"; "TEST_SYMBOL"];
  es_exchange_keys := ["RITHMIC_EXCHANGE"; "EXCHANGE"; "TEST_EXCHANGE"];
  es_system_default := "Rithmic 01";
  es_url_default := None;
  es_alt_url_keys := ["RITHMIC_LIVE_ALT_URL"];
  es_legacy_url_keys := ["RITHMIC_URL"; "RHITMIC_URL"];
  es_lucid_defaults := true
|}.

Definition SOURCE_LIVE : EnvSource := {|
  es_env := "Live";
  es_user_keys := ["RITHMIC_LIVE_USER"];
  es_password_keys := ["RITHMIC_LIVE_PW"];
  es_system_keys := ["RITHMIC_LIVE_SYSTEM_NAME"; "RITHMIC_SYSTEM"];
  es_url_keys := ["RITHMIC_LIVE_URL"; "RITHMIC_GATEWAY"];
  es_account_keys := ["RITHMIC_LIVE_ACCOUNT_ID"; "RITHMIC_ACCOUNT_ID"];
  es_fcm_keys := ["RITHMIC_LIVE_FCM_ID"; "RITHMIC_FCM_ID"];
  es_ib_keys := ["RITHMIC_LIVE_IB_ID"; "RITHMIC_IB_ID"];
  es_symbol_keys := ["RITHMIC_SYMBOL"; "SYMBOL"];
  es_exchange_keys := ["RITHMIC_EXCHANGE"; "EXCHANGE"];
  es_system_default := DEFAULT_SYSTEM_NAME;
  es_url_default := Some DEFAULT_GATEWAY_URL;
  es_alt_url_keys := ["RITHMIC_LIVE_ALT_URL"];
  es_legacy_url_keys := [];
  es_lucid_defaults := false
|}.

Definition SOURCE_TEST : EnvSource := {|
  es_env := "Test";
  es_user_keys := ["RITHMIC_TEST_USER"];
  es_password_keys := ["RITHMIC_TEST_PW"; "RITHMIC_TEST_PASSWORD"];
  es_system_keys := ["RITHMIC_TEST_SYSTEM_NAME"; "RITHMIC_SYSTEM_NAME"; "RITHMIC_SYSTEM"];
  es_url_keys := ["RITHMIC_TEST_URL"; "RITHMIC_GATEWAY"];
  es_account_keys := ["RITHMIC_TEST_ACCOUNT_ID"; "RITHMIC_ACCOUNT_ID"];
  es_fcm_keys := ["RITHMIC_TEST_FCM_ID"; "RITHMIC_FCM_ID"];
  es_ib_keys := ["RITHMIC_TEST_IB_ID"; "RITHMIC_IB_ID"];
  es_symbol_keys := ["RITHMIC_SYMBOL"; "SYMBOL"];
  es_exchange_keys := ["RITHMIC_EXCHANGE"; "EXCHANGE"];
  es_system_default := "Rithmic Test";
  es_url_default := None;
  es_alt_url_keys := ["RITHMIC_TEST_ALT_URL"];
  es_legacy_url_keys := [];
  es_lucid_defaults := false
|}.

Definition SOURCE_DEMO : EnvSource := {|
  es_env := "Demo";
  es_user_keys := ["RITHMIC_DEMO_USER"];
  es_password_keys := ["RITHMIC_DEMO_PW"];
  es_system_keys := ["RITHMIC_DEMO_SYSTEM_NAME"; "RITHMIC_SYSTEM"];
  es_url_keys := ["RITHMIC_DEMO_URL"];
  es_account_keys := ["RITHMIC_DEMO_ACCOUNT_ID"; "RITHMIC_ACCOUNT_ID"];
  es_fcm_keys := ["RITHMIC_DEMO_FCM_ID"; "RITHMIC_FCM_ID"];
  es_ib_keys := ["RITHMIC_DEMO_IB_ID"; "RITHMIC_IB_ID"];
  es_symbol_keys := ["RITHMIC_SYMBOL"; "SYMBOL"];
  es_exchange_keys := ["RITHMIC_EXCHANGE"; "EXCHANGE"];
  es_system_default := "Rithmic Paper Trading";
  es_url_default := None;
  es_alt_url_keys := ["RITHMIC_DEMO_ALT_URL"];
  es_legacy_url_keys := [];
  es_lucid_defaults := false
|}.

Definition _ENV_SOURCES : list EnvSource :=
  [SOURCE_MY046; SOURCE_LIVE; SOURCE_TEST; SOURCE_DEMO].

Definition missing_url (s : EnvSource) (tail : string) : exn :=
  config_error ("missing " +:+ String.concat " / " (es_url_keys s) +:+ tail).

(** System name and URL before the Test/Demo guard. *)
Definition resolve_system_url (env : environ) (lucid : bool) (s : EnvSource)
  : res (string * string) :=
  let system_name :=
    default (if lucid then DEFAULT_SYSTEM_NAME else es_system_default s)
            (_env_first env (es_system_keys s)) in
  let '(system_name, url) :=
    match _env_first env (es_url_keys s), es_legacy_url_keys s with
    | Some u, _ => (system_name, Some u)
    | None, [] => (system_name, None)
    | None, keys =>
        match _env_first env keys with
        | Some legacy =>
            if lucid && contains "rituz00100" legacy
            then (DEFAULT_SYSTEM_NAME, Some DEFAULT_GATEWAY_URL)
            else (system_name, Some legacy)
        | None => (system_name, None)
        end
    end in
  let url := match url with
             | Some u => Some u
             | None => if lucid then Some DEFAULT_GATEWAY_URL else es_url_default s
             end in
  match url with
  | None => Raise (missing_url s "")
  | Some u => Ok (system_name, u)
  end.

Definition has_explicit_url (env : environ) (s : EnvSource) : bool :=
  existsb (fun k => bool_decide (is_Some (_env_first env [k])))
          (es_url_keys s ++ es_legacy_url_keys s).

(** The Test/Demo guard of the MY046 path: environment and URL. *)
Definition classify_env (env : environ) (lucid : bool) (s : EnvSource) (system_name url : string)
  : res (string * string) :=
  if lucid && es_lucid_defaults s then
    match system_kind system_name with
    | TestKind =>
        let up := upper system_name in
        let env_value := if contains "DEMO" up || contains "PAPER" up then "Demo" else "Test" in
        if negb (has_explicit_url env s) && bool_decide (url = DEFAULT_GATEWAY_URL) then
          match es_url_default s with
          | None => Raise (missing_url s " for Test/Demo environment; set RITHMIC_GATEWAY")
          | Some u => Ok (env_value, u)
          end
        else Ok (env_value, url)
    | Production => Ok ("Live", url)
    | UnknownKind => Ok (es_env s, url)
    end
  else Ok (es_env s, url).

(** The body of the loop once the source's user is set. *)
Definition from_source (env : environ) (prefer_lucid : bool) (s : EnvSource) (user : string)
  : res SessionConfig :=
  let app_name := default DEFAULT_APP_NAME (_env_first env ["RITHMIC_APP_NAME"]) in
  let app_version := default DEFAULT_APP_VERSION (_env_first env ["RITHMIC_APP_VERSION"]) in
  let lucid := prefer_lucid && es_lucid_defaults s in
  user ← _require_nonempty (default "" (head (es_user_keys s))) (Some user);
  mode_fields ← _connect_mode_fields env;
  password ← (if bool_decide (mf_connect_mode mode_fields = DIRECT)
              then p ← _require_nonempty (default "" (head (es_password_keys s)))
                         (_env_first env (es_password_keys s)); Ok (Some p)
              else Ok None);
  '(system_name, url) ← resolve_system_url env lucid s;
  '(env_value, url) ← classify_env env lucid s system_name url;
  post_init {|
    sa_user := user;
    sa_connect_mode := IsMode (mf_connect_mode mode_fields);
    sa_password := password;
    sa_system_name := system_name;
    sa_url := url;
    sa_app_name := app_name;
    sa_app_version := app_version;
    sa_env := env_value;
    sa_beta_url := Some (default url (_env_first env (es_alt_url_keys s)));
    sa_account_id := _env_first env (es_account_keys s);
    sa_fcm_id := _env_first env (es_fcm_keys s);
    sa_ib_id := _env_first env (es_ib_keys s);
    sa_symbol := _env_first env (es_symbol_keys s);
    sa_exchange := _env_first env (es_exchange_keys s);
    sa_gateway_listen := mf_gateway_listen mode_fields;
    sa_gateway_auth_token := mf_gateway_auth_token mode_fields
  |}.

Fixpoint from_sources (env : environ) (prefer_lucid : bool) (sources : list EnvSource)
  : res SessionConfig :=
  match sources with
  | [] =>
      Raise (config_error ("missing credentials: set RITHMIC_USER/RITHMIC_PASSWORD " +:+
        "or RITHMIC_LIVE_USER/RITHMIC_LIVE_PW or RITHMIC_DEMO_USER/RITHMIC_DEMO_PW"))
  | s :: sources' =>
      match _env_first env (es_user_keys s) with
      | None => from_sources env prefer_lucid sources'
      | Some user => from_source env prefer_lucid s user
      end
  end.

Definition from_env (env : environ) (prefer_lucid : bool) : res SessionConfig :=
  from_sources env prefer_lucid _ENV_SOURCES.

Definition session_config_from_explicit_test_env `{Host} (env : environ) : res SessionConfig :=
  values ← explicit_test_env env; from_env values false.

(** ** Client configurations *)

Record DataClientConfig := MkDataClientConfig {
  dc_session : SessionConfig;
  dc_instrument_ids : list string;
  dc_venue : string;
  dc_bars_timestamp_on_close : bool
}.

Definition data_config_from_env (env : environ) : res DataClientConfig :=
  session ← from_env env true;
  instrument_ids ←
    (if opt_truthy (sc_symbol session) && opt_truthy (sc_exchange session) then
       id ← instrument_id_from_symbol (default "" (sc_symbol session)) (sc_exchange session);
       Ok [id]
     else if opt_truthy (sc_symbol session) then
       Ok [default "" (sc_symbol session) +:+ "." +:+ VENUE]
     else Ok []);
  Ok (MkDataClientConfig session instrument_ids VENUE true).

Record ExecClientConfig := MkExecClientConfig {
  xc_session : SessionConfig;
  xc_venue : string;
  xc_soft_fail_pnl : bool;
  xc_enable_trading : bool
}.

Definition exec_config_from_env (env : environ) : res ExecClientConfig :=
  let enable := env_truthy (_env_first env ["RITHMIC_ENABLE_TRADING"; "ENABLE_TRADING"]) false in
  session ← from_env env true;
  Ok (MkExecClientConfig session VENUE true enable).

#[local] Arguments _require_nonempty : simpl never.
#[local] Arguments _env_first : simpl never.

(** ** Facts: trimming and lookup *)

(** A non-empty text without blanks at either end. *)
Definition trimmed (s : string) : Prop := s <> "" /\ strip s = s.

Lemma strip_trimmed s : nonempty (strip s) = true -> trimmed (strip s).
Proof.
  intros H. split; [by destruct (strip s)|]. apply strip_by_idem.
Qed.

Lemma trimmed_nonempty s : trimmed s -> nonempty (strip s) = true.
Proof. intros [H ->]. by destruct s. Qed.

Lemma require_nonempty_ok name v r :
  _require_nonempty name v = Ok r <-> exists x, v = Some x /\ r = strip x /\ trimmed r.
Proof.
  unfold _require_nonempty. destruct v as [x|]; [|naive_solver].
  destruct (nonempty (strip x)) eqn:E; split.
  - intros [= <-]. eauto using strip_trimmed.
  - naive_solver.
  - done.
  - intros (? & [= <-] & -> & [Hne _]). by destruct (strip x).
Qed.

Lemma require_nonempty_trimmed name x : trimmed x -> _require_nonempty name (Some x) = Ok x.
Proof. intros H. apply require_nonempty_ok. exists x. destruct H as [? E]. by rewrite E. Qed.

Lemma require_nonempty_raise name v e :
  _require_nonempty name v = Raise e -> ex_class e = ExConfig.
Proof. unfold _require_nonempty. repeat case_match; intros; by simplify_eq. Qed.

Lemma env_first_cons env k ks :
  _env_first env (k :: ks) =
  match _env_first env [k] with Some v => Some v | None => _env_first env ks end.
Proof. unfold _env_first. by repeat case_match. Qed.

Lemma env_first_some env ks v :
  _env_first env ks = Some v ->
  trimmed v /\ exists k, k ∈ ks /\ _env_first env [k] = Some v.
Proof.
  induction ks as [|k ks IH]; [done|]. rewrite env_first_cons.
  destruct (_env_first env [k]) as [w|] eqn:E.
  - intros [= ->]. split.
    + unfold _env_first in E. repeat case_match; simplify_eq. by apply strip_trimmed.
    + exists k. split; [left|done].
  - intros (Ht & k' & Hk & Hv)%IH. split; [done|]. exists k'. split; [by right|done].
Qed.

Lemma parse_connect_mode_raise v e : parse_connect_mode v = Raise e -> ex_class e = ExConfig.
Proof. unfold parse_connect_mode. repeat case_match; intros; by simplify_eq. Qed.

(** Expose the steps of a successful or failing [res] computation. *)
Ltac run_res H :=
  repeat (first
    [ progress (unfold mbind, res_bind in H)
    | match type of H with
      | match ?m with Ok _ => _ | Raise _ => _ end = _ =>
          let E := fresh "E" in destruct m as [?|?] eqn:E; [|]
      end ]; cbv beta iota zeta in H); simplify_eq.

(** ** Well-formed configurations *)

Record wf_config (c : SessionConfig) : Prop := {
  wf_user : trimmed (sc_user c);
  wf_system : trimmed (sc_system_name c);
  wf_url : trimmed (sc_url c);
  wf_app_name : trimmed (sc_app_name c);
  wf_app_version : trimmed (sc_app_version c);
  wf_env : sc_env c ∈ ["Live"; "Demo"; "Test"];
  wf_beta : nonempty (strip (sc_beta_url c)) = true;
  wf_password :
    match sc_connect_mode c with
    | DIRECT => exists p, sc_password c = Some p /\ trimmed p
    | GATEWAY => sc_password c = None
    end
}.

Lemma post_init_inv a c :
  post_init a = Ok c ->
  wf_config c /\ sc_url c = strip (sa_url a) /\ sc_env c = strip (sa_env a) /\
  sc_system_name c = strip (sa_system_name a).
Proof.
  unfold post_init. intros H. run_res H.
  repeat match goal with
  | E : _require_nonempty _ (Some _) = Ok _ |- _ =>
      apply require_nonempty_ok in E as (? & [= <-] & -> & ?)
  end.
  destruct (negb _) eqn:Eenv in H; [done|]. simplify_eq.
  apply negb_false_iff, bool_decide_eq_true in Eenv.
  split; [|done]. split; simpl; try done.
  - destruct (sa_beta_url a) as [b|]; [|by apply trimmed_nonempty].
    destruct (nonempty (strip b)) eqn:Eb; [done|by apply trimmed_nonempty].
  - destruct a1; simpl in *; unfold mbind, res_bind in *.
    + destruct (_require_nonempty "password" (sa_password a)) eqn:Ep; simplify_eq.
      apply require_nonempty_ok in Ep as (? & _ & _ & ?). eauto.
    + by simplify_eq.
Qed.

Lemma from_env_source env b c :
  from_env env b = Ok c ->
  exists s user, s ∈ _ENV_SOURCES /\ _env_first env (es_user_keys s) = Some user /\
    from_source env b s user = Ok c.
Proof.
  unfold from_env. generalize _ENV_SOURCES as l.
  induction l as [|s l IH]; simpl; [done|].
  destruct (_env_first env (es_user_keys s)) as [user|] eqn:E.
  - intros H. exists s, user. split_and!; [left|done..].
  - intros (s' & u & ? & ?)%IH. exists s', u. split; [by right|done].
Qed.

Lemma from_source_inv env b s user c :
  from_source env b s user = Ok c ->
  exists system url url' env_value,
    resolve_system_url env (b && es_lucid_defaults s) s = Ok (system, url) /\
    classify_env env (b && es_lucid_defaults s) s system url = Ok (env_value, url') /\
    wf_config c /\ sc_url c = strip url' /\ sc_env c = strip env_value /\
    sc_system_name c = strip system.
Proof.
  unfold from_source. intros H. run_res H.
  destruct a2 as [system url]. run_res H. destruct a2 as [env_value url'].
  apply post_init_inv in H. simpl in H. naive_solver.
Qed.

Lemma from_env_ok env prefer_lucid c : from_env env prefer_lucid = Ok c -> wf_config c.
Proof.
  intros (s & user & _ & _ & H)%from_env_source.
  apply from_source_inv in H. naive_solver.
Qed.

(** (C25) A configuration that [SessionConfig.from_env] returns is well formed:
    user, system, URL and application fields are stripped and not empty, the
    environment is one of Live, Demo and Test, the beta URL is set, and there is
    a stripped password exactly in direct mode. *)
Theorem from_env_wf env prefer_lucid c :
  from_env env prefer_lucid = Ok c -> wf_config c.
Proof. apply from_env_ok. Qed.

(** ** The production URL is never silent for a Test or Demo system *)

Lemma explicit_url_key env ks v :
  _env_first env ks = Some v ->
  exists k, k ∈ ks /\ _env_first env [k] = Some v /\ strip v = v.
Proof. intros [[_ ?] (k & ? & ?)]%env_first_some. eauto. Qed.

(** The URL that leaves [resolve_system_url]: taken from a variable, or a
    default, or the rewrite of a legacy URL together with the system. *)
Lemma resolve_system_url_inv env lucid s system url :
  resolve_system_url env lucid s = Ok (system, url) ->
  (exists k, k ∈ es_url_keys s ++ es_legacy_url_keys s /\
     _env_first env [k] = Some url /\ strip url = url) \/
  (lucid = true /\ system = DEFAULT_SYSTEM_NAME /\ url = DEFAULT_GATEWAY_URL) \/
  (lucid = true /\ url = DEFAULT_GATEWAY_URL /\ has_explicit_url env s = false) \/
  (lucid = false /\ es_url_default s = Some url).
Proof.
  unfold resolve_system_url.
  destruct (_env_first env (es_url_keys s)) as [u|] eqn:Eu.
  { intros [= _ ->]. left. apply explicit_url_key in Eu as (k & ? & ?).
    exists k. rewrite elem_of_app. auto. }
  assert (Hnone : forall ks, _env_first env ks = None ->
    existsb (fun k => bool_decide (is_Some (_env_first env [k]))) ks = false).
  { induction ks as [|k ks IH]; [done|]. rewrite env_first_cons. simpl existsb.
    destruct (_env_first env [k]) eqn:Ek; [done|]. intros Hks.
    rewrite (IH Hks), orb_false_r. apply bool_decide_eq_false. by intros [? ?]. }
  pose proof (Hnone _ Eu) as Hu.
  destruct (es_legacy_url_keys s) as [|k0 ks0] eqn:El.
  { destruct lucid; simpl.
    - intros [= _ <-]. right; right; left. unfold has_explicit_url.
      rewrite El, app_nil_r, Hu. done.
    - destruct (es_url_default s) eqn:Ed; [|done]. intros [= _ <-]. auto. }
  rewrite <- El.
  destruct (_env_first env (es_legacy_url_keys s)) as [legacy|] eqn:Eleg; simpl.
  - destruct (lucid && contains "rituz00100" legacy) eqn:Er; simpl.
    + apply andb_true_iff in Er as [-> _]. intros [= <- <-]. auto.
    + intros [= _ <-]. left. apply explicit_url_key in Eleg as (k & ? & ?).
      exists k. rewrite elem_of_app. auto.
  - destruct lucid; simpl.
    + intros [= _ <-]. right; right; left. split_and!; try done.
      unfold has_explicit_url. rewrite existsb_app, Hu. by rewrite (Hnone _ Eleg).
    + destruct (es_url_default s) eqn:Ed; [|done]. intros [= _ <-]. auto.
Qed.

(** Facts of the table of sources. *)
Lemma sources_table s :
  s ∈ _ENV_SOURCES ->
  (es_url_default s = None \/ es_env s = "Live") /\
  (es_lucid_defaults s = true -> es_url_default s = None /\ es_env s = "Live") /\
  strip (es_env s) = es_env s /\ strip (es_system_default s) = es_system_default s.
Proof.
  unfold _ENV_SOURCES. rewrite !elem_of_cons, elem_of_nil.
  intros [->|[->|[->|[->|[]]]]]; cbn; naive_solver.
Qed.

Lemma resolve_system_trimmed env lucid s system url :
  s ∈ _ENV_SOURCES -> resolve_system_url env lucid s = Ok (system, url) ->
  strip system = system.
Proof.
  intros (_ & _ & _ & Hd)%sources_table. unfold resolve_system_url.
  assert (Hs : strip (default (if lucid then DEFAULT_SYSTEM_NAME else es_system_default s)
                        (_env_first env (es_system_keys s)))
               = default (if lucid then DEFAULT_SYSTEM_NAME else es_system_default s)
                        (_env_first env (es_system_keys s))).
  { destruct (_env_first env (es_system_keys s)) as [v|] eqn:E; simpl.
    - apply explicit_url_key in E as (? & ? & ? & ?). done.
    - by destruct lucid. }
  intros H. repeat case_match; simplify_eq; done.
Qed.

Lemma classify_env_inv env lucid s system url ev url' :
  s ∈ _ENV_SOURCES -> (lucid = true -> es_lucid_defaults s = true) ->
  classify_env env lucid s system url = Ok (ev, url') ->
  url' = url /\ strip ev = ev /\
  (if lucid then
     match system_kind system with
     | TestKind => ev <> "Live" /\ (has_explicit_url env s = false -> url <> DEFAULT_GATEWAY_URL)
     | _ => ev = "Live"
     end
   else ev = es_env s).
Proof.
  intros (_ & Hl & He & _)%sources_table Hluc. unfold classify_env.
  destruct lucid; simpl; [|by intros [= <- <-]].
  destruct (Hl (Hluc eq_refl)) as [Hu HL]. rewrite Hluc by done.
  destruct (system_kind system); [by intros [= <- <-]| |by intros [= <- <-]; rewrite HL].
  rewrite Hu. set (b := contains "DEMO" _ || _).
  destruct (has_explicit_url env s); simpl.
  - intros [= <- <-]. by destruct b.
  - case_bool_decide; [done|]. intros [= <- <-]. by destruct b.
Qed.

(** The URL was set by a variable of some source. *)
Definition url_given (env : environ) (url : string) : Prop :=
  exists s k, s ∈ _ENV_SOURCES /\ k ∈ es_url_keys s ++ es_legacy_url_keys s /\
    _env_first env [k] = Some url.

Lemma from_source_url env b s user c :
  s ∈ _ENV_SOURCES -> from_source env b s user = Ok c ->
  sc_env c <> "Live" \/ b && es_lucid_defaults s = true /\
                        system_kind (sc_system_name c) = TestKind ->
  sc_env c <> "Live" /\ url_given env (sc_url c).
Proof.
  intros Hs (system & url & url' & ev & Hr & Hc & _ & Hurl & Henv & Hsys)%from_source_inv Hwhy.
  pose proof (resolve_system_trimmed _ _ _ _ _ Hs Hr) as Hst.
  apply classify_env_inv in Hc as (-> & Hev & Hcase); [|done|by intros []%andb_true_iff].
  rewrite Hst in Hsys. rewrite Hev in Henv. subst ev system.
  destruct (sources_table s Hs) as (Hd & _).
  set (lucid := b && es_lucid_defaults s) in *.
  assert (Hne : sc_env c <> "Live").
  { destruct Hwhy as [?|[Hl Hk]]; [done|]. rewrite Hl, Hk in Hcase. naive_solver. }
  split; [done|].
  destruct (resolve_system_url_inv _ _ _ _ _ Hr)
    as [(k & Hk & Hget & Hstrip)|[(Hl & Hsn & ->)|[(Hl & -> & Hx)|(Hl & Hdef)]]].
  - rewrite Hstrip in Hurl. subst url. exists s, k. auto.
  - rewrite Hl, Hsn in Hcase. vm_compute in Hcase. done.
  - rewrite Hl in Hcase. destruct (system_kind (sc_system_name c)); [done| |done].
    by destruct (proj2 Hcase Hx).
  - rewrite Hl in Hcase. destruct Hd; congruence.
Qed.

(** (C26) On the default MY046 path, a session whose system name is Test-like is
    never Live, and its URL was set by a variable: the production default URL
    is never used silently.  On every path, a session that is not Live has a
    URL set by a variable. *)
Theorem test_system_url_explicit env c :
  from_env env true = Ok c ->
  (is_Some (_env_first env (es_user_keys SOURCE_MY046)) /\
   system_kind (sc_system_name c) = TestKind) \/ sc_env c <> "Live" ->
  sc_env c <> "Live" /\ url_given env (sc_url c).
Proof.
  intros H Hwhy. pose proof H as (s & user & Hs & Hu & Hsrc)%from_env_source.
  destruct Hwhy as [[[u Hu'] Hk]|Hne]; [|by eauto using from_source_url].
  cbn [from_env from_sources _ENV_SOURCES] in H. unfold from_env, _ENV_SOURCES in H.
  cbn [from_sources] in H. rewrite Hu' in H.
  eapply (from_source_url env true SOURCE_MY046); [left|exact H|by right].
Qed.

(** ** Errors *)

Lemma reject_knobs_raise env knobs e : reject_knobs env knobs = Raise e -> ex_class e = ExConfig.
Proof.
  induction knobs as [|[n w] l IH]; simpl; [done|]. case_match; [|done]. by intros [= <-].
Qed.

Lemma reject_knobs_some env knobs name w :
  (name, w) ∈ knobs -> is_Some (_env_first env [name]) ->
  exists e, reject_knobs env knobs = Raise e /\ ex_class e = ExConfig.
Proof.
  intros Hin [v Hv]. induction knobs as [|[n w'] l IH]; simpl; [by apply elem_of_nil in Hin|].
  apply elem_of_cons in Hin as [[= <- <-]|Hin]; [rewrite Hv; eauto|].
  case_match; eauto.
Qed.

Lemma connect_mode_fields_raise env e :
  _connect_mode_fields env = Raise e -> ex_class e = ExConfig.
Proof.
  unfold _connect_mode_fields. destruct (_env_first env _) as [raw|]; [|by intros [= <-]].
  intros H. run_res H; [|by eapply reject_knobs_raise].
  unfold catch in E0. destruct (parse_connect_mode (IsText raw)) eqn:Ep; [done|].
  apply parse_connect_mode_raise in Ep. case_bool_decide; simplify_eq; done.
Qed.

Lemma post_init_raise a e : post_init a = Raise e -> ex_class e = ExConfig.
Proof.
  unfold post_init. intros H. run_res H;
    eauto using require_nonempty_raise, parse_connect_mode_raise.
  - destruct (negb _); by simplify_eq.
  - destruct (bool_decide _); [|done]. unfold mbind, res_bind in *.
    destruct (_require_nonempty "password" _) eqn:Ep; simplify_eq.
    eauto using require_nonempty_raise.
Qed.

Lemma from_source_raise env b s user e :
  from_source env b s user = Raise e -> ex_class e = ExConfig.
Proof.
  unfold from_source. intros H. run_res H;
    eauto using require_nonempty_raise, connect_mode_fields_raise.
  - destruct a2. run_res H; [destruct a2; eauto using post_init_raise|].
    unfold classify_env in *. repeat case_match; by simplify_eq.
  - unfold resolve_system_url in *. repeat case_match; by simplify_eq.
  - destruct (bool_decide _); [|done]. unfold mbind, res_bind in *.
    destruct (_require_nonempty _ (_env_first _ _)) eqn:Ep; simplify_eq.
    eauto using require_nonempty_raise.
Qed.

(** (C27) [from_env] raises nothing but [ConfigError], and a non-blank retired
    variable makes it raise whatever else is set. *)
Theorem from_env_errors env prefer_lucid :
  (forall e, from_env env prefer_lucid = Raise e -> ex_class e = ExConfig) /\
  (forall name, name ∈ _RETIRED_KNOBS.*1 -> is_Some (_env_first env [name]) ->
     exists e, from_env env prefer_lucid = Raise e).
Proof.
  unfold from_env. split.
  - generalize _ENV_SOURCES as l. induction l as [|s l IH]; simpl; [by intros e [= <-]|].
    case_match; eauto using from_source_raise.
  - intros name ([? w] & -> & Hin)%list_elem_of_fmap Hsome.
    destruct (reject_knobs_some env _ _ w Hin Hsome) as (e & He & _).
    clear Hin Hsome. generalize _ENV_SOURCES as l.
    induction l as [|src l IH]; simpl; [eauto|].
    case_match; [|done]. unfold from_source, mbind, res_bind.
    destruct (_require_nonempty _ _); [|eauto].
    unfold _connect_mode_fields. destruct (_env_first env ["RITHMIC_CONNECT_MODE"]); [|eauto].
    unfold _reject_retired_client_knobs, mbind, res_bind. rewrite He. eauto.
Qed.

(** ** Passwords stay out of diagnostics *)

Definition PASSWORD_KEYS : list string := _ENV_SOURCES ≫= es_password_keys.

(** Two environments that differ only in the text of the passwords they set. *)
Definition same_but_passwords (env env' : environ) : Prop :=
  (forall k, k ∉ PASSWORD_KEYS -> env !! k = env' !! k) /\
  (forall k, k ∈ PASSWORD_KEYS ->
     is_Some (_env_first env [k]) <-> is_Some (_env_first env' [k])).

(** What a log can show of the outcome: the error, or the configuration's
    [repr] and its redacted dictionary. *)
Definition diagnostics (r : res SessionConfig) : exn + string * pydict :=
  match r with
  | Raise e => inl e
  | Ok c => inr (repr_config c, to_dict c true)
  end.

Definition public (ks : list string) : bool :=
  forallb (fun k => negb (bool_decide (k ∈ PASSWORD_KEYS))) ks.

Section Hides.
Context (env env' : environ) (Hsame : same_but_passwords env env').

Lemma env_first_public ks : public ks = true -> _env_first env ks = _env_first env' ks.
Proof.
  unfold public. induction ks as [|k ks IH]; simpl; [done|].
  intros [Hk Hks]%andb_true_iff. apply negb_true_iff, bool_decide_eq_false in Hk.
  unfold _env_first. fold _env_first. rewrite (proj1 Hsame k Hk), IH; [|done]. done.
Qed.

Lemma env_first_password ks :
  forallb (fun k => bool_decide (k ∈ PASSWORD_KEYS)) ks = true ->
  is_Some (_env_first env ks) <-> is_Some (_env_first env' ks).
Proof.
  induction ks as [|k ks IH]; simpl; [done|].
  intros [Hk%bool_decide_eq_true Hks]%andb_true_iff.
  rewrite (env_first_cons env), (env_first_cons env'). specialize (IH Hks).
  destruct (proj2 Hsame k Hk) as [H1 H2].
  destruct (_env_first env [k]), (_env_first env' [k]); naive_solver.
Qed.

Lemma reject_knobs_public knobs :
  public knobs.*1 = true -> reject_knobs env knobs = reject_knobs env' knobs.
Proof.
  induction knobs as [|[n w] l IH]; simpl; [done|].
  intros [Hn Hl]%andb_true_iff. rewrite (env_first_public [n]), IH; [done..|].
  unfold public. simpl. by rewrite Hn.
Qed.

Lemma connect_mode_fields_public : _connect_mode_fields env = _connect_mode_fields env'.
Proof.
  unfold _connect_mode_fields, _reject_retired_client_knobs.
  rewrite !env_first_public by reflexivity.
  rewrite reject_knobs_public by reflexivity. done.
Qed.

End Hides.

(** Two constructor calls that differ in a non-blank password only. *)
Lemma post_init_hides a p p' :
  trimmed p -> trimmed p' ->
  diagnostics (post_init (MkSessionArgs (sa_user a) (sa_connect_mode a) (Some p)
    (sa_system_name a) (sa_url a) (sa_app_name a) (sa_app_version a) (sa_env a) (sa_beta_url a)
    (sa_account_id a) (sa_fcm_id a) (sa_ib_id a) (sa_symbol a) (sa_exchange a)
    (sa_gateway_listen a) (sa_gateway_auth_token a))) =
  diagnostics (post_init (MkSessionArgs (sa_user a) (sa_connect_mode a) (Some p')
    (sa_system_name a) (sa_url a) (sa_app_name a) (sa_app_version a) (sa_env a) (sa_beta_url a)
    (sa_account_id a) (sa_fcm_id a) (sa_ib_id a) (sa_symbol a) (sa_exchange a)
    (sa_gateway_listen a) (sa_gateway_auth_token a))).
Proof.
  intros Hp Hp'. unfold post_init. cbn [sa_user sa_connect_mode sa_password sa_system_name
    sa_url sa_app_name sa_app_version sa_env sa_beta_url sa_account_id sa_fcm_id sa_ib_id
    sa_symbol sa_exchange sa_gateway_listen sa_gateway_auth_token].
  rewrite (require_nonempty_trimmed "password" p), (require_nonempty_trimmed "password" p') by done.
  unfold mbind, res_bind.
  destruct (_require_nonempty "user" _); [|done].
  destruct (parse_connect_mode _) as [m|]; [|done].
  destruct m; [change (bool_decide (DIRECT = DIRECT)) with true
              |change (bool_decide (GATEWAY = DIRECT)) with false]; cbv iota; [|done].
  repeat (match goal with |- context [match ?m with Ok _ => _ | Raise _ => _ end] =>
    destruct m; [|done] end).
  case_match; [done|]. reflexivity.
Qed.

(** Every variable a source reads beside its passwords. *)
Definition public_source (s : EnvSource) : bool :=
  public (es_user_keys s) && public (es_system_keys s) && public (es_url_keys s)
  && public (es_account_keys s) && public (es_fcm_keys s) && public (es_ib_keys s)
  && public (es_symbol_keys s) && public (es_exchange_keys s) && public (es_alt_url_keys s)
  && public (es_legacy_url_keys s)
  && forallb (fun k => bool_decide (k ∈ PASSWORD_KEYS)) (es_password_keys s).

Section HidesSource.
Context (env env' : environ) (Hsame : same_but_passwords env env').
Context (s : EnvSource) (Hpub : public_source s = true).

Lemma public_keys :
  (public (es_user_keys s) = true /\ public (es_system_keys s) = true /\
   public (es_url_keys s) = true /\ public (es_account_keys s) = true /\
   public (es_fcm_keys s) = true /\ public (es_ib_keys s) = true) /\
  (public (es_symbol_keys s) = true /\ public (es_exchange_keys s) = true /\
   public (es_alt_url_keys s) = true /\ public (es_legacy_url_keys s) = true /\
   forallb (fun k => bool_decide (k ∈ PASSWORD_KEYS)) (es_password_keys s) = true).
Proof.
  unfold public_source in Hpub. rewrite !andb_true_iff in Hpub. naive_solver.
Qed.

Lemma resolve_system_url_public lucid :
  resolve_system_url env lucid s = resolve_system_url env' lucid s.
Proof.
  destruct public_keys as [(_ & Hsys & Hurl & _) (_ & _ & _ & Hleg & _)].
  unfold resolve_system_url.
  rewrite (env_first_public env env' Hsame (es_system_keys s)) by done.
  rewrite (env_first_public env env' Hsame (es_url_keys s)) by done.
  destruct (_env_first env' (es_url_keys s)); [done|].
  destruct (es_legacy_url_keys s) as [|k ks] eqn:E; [done|].
  by rewrite (env_first_public env env' Hsame (k :: ks)).
Qed.

Lemma has_explicit_url_public : has_explicit_url env s = has_explicit_url env' s.
Proof.
  destruct public_keys as [(_ & _ & Hurl & _) (_ & _ & _ & Hleg & _)].
  unfold has_explicit_url. unfold public in *.
  assert (H : forallb (fun k => negb (bool_decide (k ∈ PASSWORD_KEYS)))
                (es_url_keys s ++ es_legacy_url_keys s) = true)
    by (by rewrite forallb_app, Hurl, Hleg).
  induction (es_url_keys s ++ es_legacy_url_keys s) as [|k ks IH]; [done|]. simpl in *.
  apply andb_true_iff in H as [Hk Hks]. rewrite (IH Hks).
  rewrite (env_first_public env env' Hsame [k]); [done|]. unfold public. simpl. by rewrite Hk.
Qed.

Lemma from_source_hides b user :
  diagnostics (from_source env b s user) = diagnostics (from_source env' b s user).
Proof.
  destruct public_keys as [(Hu & Hsy & Hur & Hac & Hfc & Hib) (Hsym & Hex & Halt & Hleg & Hpw)].
  unfold from_source. rewrite (connect_mode_fields_public env env' Hsame).
  rewrite resolve_system_url_public. unfold classify_env. rewrite has_explicit_url_public.
  rewrite !(env_first_public env env' Hsame) by (done || reflexivity).
  unfold mbind, res_bind.
  destruct (_require_nonempty _ (Some user)) as [u|]; [|done].
  destruct (_connect_mode_fields env') as [mf|]; [|done].
  pose proof (env_first_password env env' Hsame _ Hpw) as [H1 H2].
  destruct (mf_connect_mode mf) eqn:Em.
  - change (bool_decide (DIRECT = DIRECT)) with true. cbv iota.
    destruct (_env_first env (es_password_keys s)) as [p|] eqn:Ep,
             (_env_first env' (es_password_keys s)) as [p'|] eqn:Ep'.
    + apply env_first_some in Ep as [Hp _]. apply env_first_some in Ep' as [Hp' _].
      rewrite !require_nonempty_trimmed by done.
      destruct (resolve_system_url _ _ _) as [[sys url]|]; [|done].
      match goal with |- context [match ?m with Ok _ => _ | Raise _ => _ end] =>
        destruct m as [[ev url']|]; [|done] end.
      apply (post_init_hides (MkSessionArgs _ _ None _ _ _ _ _ _ _ _ _ _ _ _ _) p p' Hp Hp').
    + destruct (H1 ltac:(eauto)); done.
    + destruct (H2 ltac:(eauto)); done.
    + done.
  - done.
Qed.
End HidesSource.

(** (C28) Environments that differ only in the text of a password give the same
    error, or configurations whose [repr] and redacted dictionary are the same:
    a password never reaches either. *)
Theorem from_env_hides_password env env' prefer_lucid :
  same_but_passwords env env' ->
  diagnostics (from_env env prefer_lucid) = diagnostics (from_env env' prefer_lucid).
Proof.
  intros Hsame. unfold from_env.
  assert (Hpub : forallb public_source _ENV_SOURCES = true) by (vm_compute; reflexivity).
  revert Hpub. generalize _ENV_SOURCES as l. induction l as [|s l IH]; simpl; [done|].
  intros [Hs Hl]%andb_true_iff.
  rewrite (env_first_public env env' Hsame (es_user_keys s)) by apply (public_keys s Hs).
  case_match; [by apply from_source_hides|auto].
Qed.

(** ** The explicit test environment *)

Section TestEnv.
Context `{Host}.

(** The system the file names is a test one, or production was allowed by the
    process environment. *)
Lemma explicit_test_env_kind env values :
  explicit_test_env env = Ok values ->
  exists system, values !! "RITHMIC_SYSTEM_NAME" = Some system /\
    (system_kind system = TestKind \/
     (system_kind system = Production /\
      env_truthy (_env_first env ["RITHMIC_ALLOW_LUCID_E2E"]) false = true)).
Proof.
  unfold explicit_test_env. destruct (_env_first env ["RITHMIC_TEST_DOTENV"]) as [src|]; [|done].
  intros Hok. run_res Hok.
  assert (Hsys : exists system, a !! "RITHMIC_SYSTEM_NAME" = Some system).
  { match goal with E : require_keys_of _ _ = Ok _ |- _ => clear -E; revert E end.
    unfold TEST_ENV_KEYS. simpl.
    destruct (_env_first a ["RITHMIC_USER"]), (_env_first a ["RITHMIC_PASSWORD"]),
      (_env_first a ["RITHMIC_SYSTEM_NAME"]) eqn:Es; try done. intros _.
    unfold _env_first in Es. repeat case_match; naive_solver. }
  destruct Hsys as [system Hsys]. exists system. rewrite Hsys in *. simpl in *.
  split.
  - rewrite lookup_insert_ne by done.
    destruct (_env_first env ["RITHMIC_ENABLE_TRADING"]); [|done].
    by rewrite lookup_insert_ne.
  - destruct (system_kind system); [right|left; done|done].
    split; [done|]. by destruct (env_truthy _ _).
Qed.

End TestEnv.

(** A dotenv file never overrides a variable the process has, and sets each
    variable it does not have to the file's last value for it. *)
Lemma load_dotenv_setdefault `{Host} path env k :
  (load_dotenv path env).2 !! k =
  match env !! k with Some v => Some v | None => _parse_dotenv path !! k end.
Proof.
  unfold load_dotenv, _parse_dotenv. destruct (file_text (path_str path)); run_monad; simpl.
  - rewrite lookup_union. destruct (env !! k), (parse_lines s !! k); done.
  - rewrite lookup_empty. by destruct (env !! k).
Qed.

(** ** Concrete environments *)

Definition NL : string := String LF EmptyString.

Definition lines (l : list string) : string := String.concat NL l.

(** One regular file, no home directories. *)
Definition one_file (path text : string) : Host := {|
  file_text := fun p => if bool_decide (p = path) then Some text else None;
  home_dir := fun _ => None
|}.

Definition direct_env : environ := list_to_map
  [("RITHMIC_USER", "alice"); ("RITHMIC_PASSWORD", "hunter2");
   ("RITHMIC_CONNECT_MODE", "Direct "); ("RITHMIC_SYSTEM", "Rithmic Test");
   ("RITHMIC_GATEWAY", "wss://uat.example:443")].

Definition session_of (r : res SessionConfig) : SessionConfig :=
  match r with
  | Ok c => c
  | Raise _ => MkSessionConfig "" GATEWAY None "" "" "" "" "" "" None None None None None None ""
  end.

Lemma from_env_wf_witness : wf_config (session_of (from_env direct_env true)).
Proof. apply (from_env_wf direct_env true). vm_compute. reflexivity. Defined.

Lemma test_system_url_explicit_witness :
  sc_env (session_of (from_env direct_env true)) <> "Live" /\
  url_given direct_env (sc_url (session_of (from_env direct_env true))).
Proof.
  apply (test_system_url_explicit direct_env).
  - vm_compute. reflexivity.
  - left. split; [eexists; vm_compute; reflexivity|vm_compute; reflexivity].
Defined.

Lemma from_env_hides_password_witness :
  diagnostics (from_env direct_env true) =
  diagnostics (from_env (<["RITHMIC_PASSWORD" := "letmein"]> direct_env) true).
Proof.
  apply (from_env_hides_password direct_env
           (<["RITHMIC_PASSWORD" := "letmein"]> direct_env) true).
  split.
  - intros k Hk. rewrite lookup_insert_ne; [done|]. intros <-. apply Hk. evaluate.
  - intros k Hk. unfold PASSWORD_KEYS in Hk. cbn in Hk.
    rewrite !elem_of_cons, elem_of_nil in Hk.
    destruct Hk as [->|[->|[->|[->|[->|[->|[]]]]]]]; vm_compute; split; intros [? ?];
      done || (eexists; reflexivity).
Defined.

(** A test env file whose [RITHMIC_SYSTEM_NAME] is a test system and whose
    [RITHMIC_SYSTEM] is the production one. *)
Definition mixed_file : string := lines
  ["RITHMIC_USER=alice"; "RITHMIC_PASSWORD='pw'"; "# systems"; "RITHMIC_SYSTEM=LucidTrading";
   "RITHMIC_SYSTEM_NAME=Rithmic Test"; "RITHMIC_CONNECT_MODE=direct";
   "RITHMIC_GATEWAY=wss://rprotocol.rithmic.com:443"].

Definition test_process_env : environ := {[ "RITHMIC_TEST_DOTENV" := "/etc/rithmic.env" ]}.

(** The production guard of the explicit test environment reads
    [RITHMIC_SYSTEM_NAME], the session it guards reads [RITHMIC_SYSTEM] first:
    with no opt-in, a file that sets both is accepted as a test environment and
    gives a session on the production system. *)
Theorem explicit_test_env_guard_gap :
  exists (h : Host) (env : environ) (c : SessionConfig),
    _env_first env ["RITHMIC_ALLOW_LUCID_E2E"] = None /\
    session_config_from_explicit_test_env env = Ok c /\
    system_kind (sc_system_name c) = Production /\ sc_env c = "Live" /\
    sc_url c = DEFAULT_GATEWAY_URL.
Proof.
  exists (one_file "/etc/rithmic.env" mixed_file), test_process_env,
    (session_of (@session_config_from_explicit_test_env
                   (one_file "/etc/rithmic.env" mixed_file) test_process_env)).
  vm_compute. auto.
Qed.

(** A legacy test URL replaces a Test system by the production one. *)
Definition legacy_test_env : environ := list_to_map
  [("RITHMIC_USER", "alice"); ("RITHMIC_PASSWORD", "pw"); ("RITHMIC_CONNECT_MODE", "direct");
   ("RITHMIC_SYSTEM", "Rithmic Test"); ("RITHMIC_URL", "wss://rituz00100.rithmic.com:443")].

Theorem legacy_test_url_goes_live :
  (fun c => (sc_system_name c, sc_url c, sc_env c)) (session_of (from_env legacy_test_env true))
  = (DEFAULT_SYSTEM_NAME, DEFAULT_GATEWAY_URL, "Live").
Proof. vm_compute. reflexivity. Qed.
