(* ===== verification/Ticks.v ===== *)
(** * Trade and quote ticks (data.py)

    [_aggressor], [_trade_id], [fields_to_trade_tick], [fields_to_quote_tick]
    and [payloads_to_trade_ticks].  The process-wide counter behind the trade
    ids ([_TRADE_ID_SEQ]) is the state of an [M Z] computation: it advances
    when an id is made, so a row that fails before that leaves it alone and a
    row that fails after it wastes a number. *)

From Stdlib Require Import Ascii String.
From stdpp Require Import base gmap strings list sorting.
From Stdlib Require Import ZArith Lia DecimalString.
From S2P Require Import Prelude PyVal Plant Lru Ident Nautilus Orders OrderRows Commission Host Convert Bars.
Import Text.
Open Scope string_scope.
Open Scope list_scope.
Open Scope Z_scope.

Inductive AggressorSide := BUYER | SELLER | NO_AGGRESSOR.

#[export] Instance AggressorSide_eq_dec : EqDecision AggressorSide.
Proof. solve_decision. Defined.

(** [value in (n, "...", ...)]: [==] with an integer holds for an equal [bool]
    or [float] too. *)
Definition equals_int (v : pyval) (n : Z) : bool :=
  match v with
  | VInt z => z =? n
  | VBool b => (if b then 1 else 0) =? n
  | VFloat f => f64_eq_Z f n
  | _ => false
  end.

Definition aggressor (value : pyval) : res AggressorSide :=
  if equals_int value 1 || is_str_in value ["1"; "BUY"; "BUYER"; "bid"] then Ok BUYER
  else if equals_int value 2 || is_str_in value ["2"; "SELL"; "SELLER"; "ask"] then Ok SELLER
  else if is_none value then Ok NO_AGGRESSOR
  else Raise (Exn ExValue None "unknown aggressor value").

Record TradeTick := MkTradeTick {
  tt_instrument : string;
  tt_price : Price;
  tt_size : Z;
  tt_aggressor : AggressorSide;
  tt_id : string;
  tt_ts_event : Z;
  tt_ts_init : Z
}.

Record QuoteTick := MkQuoteTick {
  qt_instrument : string;
  qt_bid : Price;
  qt_ask : Price;
  qt_bid_size : Z;
  qt_ask_size : Z;
  qt_ts_event : Z;
  qt_ts_init : Z
}.

(** [TradeId(f"{ts}-{next(seq)}")]; the state is the counter's next value. *)
Definition trade_id_text (ts seq : Z) : string := str_of_Z ts +:+ "-" +:+ str_of_Z seq.

Definition trade_id (fields : pydict) : M Z string :=
  ts ← lift (py_int (dget fields "ts_event"));
  seq ← get;
  put (seq + 1) ;;
  mret (trade_id_text ts seq).

Section Ticks.
Context `{NautilusTypes}.

Definition fields_to_trade_tick (fields : pydict) (ts_init : Z) (precision : option Z)
  : M Z TradeTick :=
  size ← lift (py_int (dget fields "size"));
  if size <? 1 then throw convert_error
  else
    instrument ← lift (instrument_id_from_str (py_str (dget fields "instrument_id")));
    price ← lift (price_from_wire (dget fields "price") precision);
    qty ← lift (quantity_from_int size);
    side ← lift (aggressor (dget fields "aggressor"));
    id ← trade_id fields;
    ts_event ← lift (py_int (dget fields "ts_event"));
    mret (MkTradeTick instrument price qty side id ts_event ts_init).

Definition fields_to_quote_tick (fields : pydict) (ts_init : Z) (precision : option Z)
  : res QuoteTick :=
  bid_size ← py_int (dget fields "bid_size");
  ask_size ← py_int (dget fields "ask_size");
  if (bid_size <? 1) || (ask_size <? 1) then Raise convert_error
  else
    instrument ← instrument_id_from_str (py_str (dget fields "instrument_id"));
    bid ← price_from_wire (dget fields "bid_price") precision;
    ask ← price_from_wire (dget fields "ask_price") precision;
    bq ← quantity_from_int bid_size;
    aq ← quantity_from_int ask_size;
    ts_event ← py_int (dget fields "ts_event");
    Ok (MkQuoteTick instrument bid ask bq aq ts_event ts_init).

(** [payloads_to_trade_ticks] runs inside a larger object graph [S] that holds
    the counter; [on_invalid] is the caller's [on_invalid_row]. *)
Section Rows.
Context {S : Type} (next : S -> Z) (set_next : Z -> S -> S).

Definition on_seq {A} (m : M Z A) : M S A := fun s =>
  let '(r, n) := m (next s) in (r, set_next n s).

Fixpoint convert_ticks (rows : list pydict) (symbol exchange : string) (precision : option Z)
  (ts_init : Z) (on_invalid : option (exn -> M S unit)) : M S (list TradeTick) :=
  match rows with
  | [] => mret []
  | raw :: rows' =>
      _ ← lift (validate_history_identity raw symbol exchange None);
      let payload := fill_missing "exchange" exchange (fill_missing "symbol" symbol raw) in
      here ← catchM is_convert_error
        (fields ← lift (last_trade_to_fields payload);
         t ← on_seq (fields_to_trade_tick fields ts_init precision);
         mret [t])
        (fun e => match on_invalid with
                  | None => throw e
                  | Some h => h e ;; mret []
                  end);
      rest ← convert_ticks rows' symbol exchange precision ts_init on_invalid;
      mret (here ++ rest)
  end.

End Rows.
End Ticks.

(** [ticks.sort(key=ts_event)]: stable. *)
Fixpoint insert_tick (t : TradeTick) (l : list TradeTick) : list TradeTick :=
  match l with
  | [] => [t]
  | x :: l' => if tt_ts_event t <=? tt_ts_event x then t :: l else x :: insert_tick t l'
  end.
Definition sort_ticks (l : list TradeTick) : list TradeTick := foldr insert_tick [] l.

Definition payloads_to_trade_ticks `{NautilusTypes} {S} (next : S -> Z) (set_next : Z -> S -> S)
  (rows : list pydict) (symbol exchange : string) (precision : option Z) (ts_init : Z)
  (on_invalid : option (exn -> M S unit)) : M S (list TradeTick) :=
  ticks ← convert_ticks next set_next rows symbol exchange precision ts_init on_invalid;
  mret (sort_ticks ticks).

(** ** Facts: trade ids *)

(** The part of an id after its last hyphen is the counter. *)
Lemma str_of_Z_no_hyphen n : 0 <= n -> has_char "-" (str_of_Z n) = false.
Proof.
  intros Hn. unfold str_of_Z, NilZero.string_of_int.
  assert (Hd : forall d, has_char "-" (NilEmpty.string_of_uint d) = false)
    by (induction d; simpl; auto).
  assert (Hz : forall d, has_char "-" (NilZero.string_of_uint d) = false)
    by (intros d; destruct d; apply Hd || reflexivity).
  destruct n as [|p|p]; [done| |lia]. apply Hz.
Qed.

Lemma hyphen_tail_inj s t u v :
  has_char "-" u = false -> has_char "-" v = false ->
  s +:+ "-" +:+ u = t +:+ "-" +:+ v -> u = v.
Proof.
  intros Hu Hv. revert t. induction s as [|a s IH]; intros t E.
  - destruct t as [|b t]; rewrite ?string_app_cons, ?string_app_nil in E.
    + by injection E.
    + injection E as <- E. subst u. rewrite !has_char_app in Hu. simpl in Hu.
      by rewrite orb_true_r in Hu.
  - destruct t as [|b t]; rewrite ?string_app_cons, ?string_app_nil in E.
    + injection E as -> E. subst v. rewrite !has_char_app in Hv. simpl in Hv.
      by rewrite orb_true_r in Hv.
    + injection E as -> E. by apply (IH t).
Qed.

Lemma trade_id_text_inj ts ts' n n' :
  0 <= n -> 0 <= n' -> trade_id_text ts n = trade_id_text ts' n' -> n = n'.
Proof.
  intros Hn Hn' E. unfold trade_id_text in E. apply hyphen_tail_inj in E;
    [by apply str_of_Z_inj|by apply str_of_Z_no_hyphen..].
Qed.

(** An id made while the counter moved from [lo] to [hi]. *)
Definition issued (lo hi : Z) (id : string) : Prop :=
  exists ts n, lo <= n < hi /\ id = trade_id_text ts n.

Lemma issued_disjoint lo hi lo' hi' id id' :
  0 <= lo -> hi <= lo' -> issued lo hi id -> issued lo' hi' id' -> id <> id'.
Proof.
  intros Hlo Hle (ts & n & Hn & ->) (ts' & n' & Hn' & ->) E.
  apply trade_id_text_inj in E; lia.
Qed.

Lemma issued_mono lo hi lo' hi' id : lo' <= lo -> hi <= hi' -> issued lo hi id -> issued lo' hi' id.
Proof. intros ?? (ts & n & ? & ->). exists ts, n. split; [lia|done]. Qed.

(** [m] only moves the counter forward, and the ids of what it returns were
    made on the way, each once. *)
Section Issues.
Context {S : Type} (next : S -> Z).

Definition issues {A} (ids : A -> list string) (m : M S A) : Prop :=
  forall s, 0 <= next s ->
    next s <= next (m s).2 /\
    (forall a, (m s).1 = Ok a ->
       NoDup (ids a) /\ Forall (issued (next s) (next (m s).2)) (ids a)).

Lemma issues_lift {A} ids (r : res A) : (forall a, ids a = []) -> issues ids (lift r).
Proof. intros Hi s _. simpl. split; [lia|]. intros a _. rewrite Hi. split; constructor. Qed.

Lemma issues_ret {A} ids (a : A) : ids a = [] -> issues ids (mret a).
Proof. intros Hi s _. simpl. split; [lia|]. intros ? [= <-]. rewrite Hi. split; constructor. Qed.

Lemma issues_throw {A} (ids : A -> list string) e : issues ids (throw e).
Proof. intros s _. simpl. split; [lia|done]. Qed.

Lemma issues_then {A B} (ids : B -> list string) (m : M S A) (f : A -> M S B) :
  issues (fun _ => []) m -> (forall a, issues ids (f a)) -> issues ids (m ≫= f).
Proof.
  intros Hm Hf s Hs. unfold mbind, M_bind. destruct (Hm s Hs) as [Hle _].
  destruct (m s) as [[a|e] s1]; simpl in *; [|split; [lia|done]].
  destruct (Hf a s1 ltac:(lia)) as [Hle' Hok]. split; [lia|].
  intros b Hb. destruct (Hok b Hb) as [Hn Hi]. split; [done|].
  eapply Forall_impl; [done|]. intros id. apply issued_mono; lia.
Qed.

Lemma issues_catch {A} ids p (m : M S A) h :
  issues ids m -> (forall e, issues ids (h e)) -> issues ids (catchM p m h).
Proof.
  intros Hm Hh s Hs. unfold catchM. destruct (Hm s Hs) as [Hle Hok].
  destruct (m s) as [[a|e] s1]; simpl in *; [by split|].
  destruct (p e); [|split; [simpl; lia|done]].
  destruct (Hh e s1 ltac:(lia)) as [Hle' Hok']. split; [lia|].
  intros b Hb. destruct (Hok' b Hb) as [Hn Hi]. split; [done|].
  eapply Forall_impl; [done|]. intros id. apply issued_mono; lia.
Qed.

(** Two stages whose ids are collected: the second's are made later. *)
Lemma issues_collect {A B D} (ia : A -> list string) (ib : B -> list string)
    (id : D -> list string) (m : M S A) (f : M S B) (g : A -> B -> D) :
  issues ia m -> issues ib f -> (forall a b, id (g a b) = ia a ++ ib b) ->
  issues id (a ← m; b ← f; mret (g a b)).
Proof.
  intros Hm Hf Hg s Hs. unfold mbind, M_bind. destruct (Hm s Hs) as [Hle Hok].
  destruct (m s) as [[a|e] s1]; simpl in *; [|split; [lia|done]].
  destruct (Hf s1 ltac:(lia)) as [Hle' Hok'].
  destruct (f s1) as [[b|e] s2]; simpl in *; [|split; [lia|done]].
  split; [lia|]. intros d [= <-]. rewrite Hg.
  destruct (Hok a eq_refl) as [Na Ia]. destruct (Hok' b eq_refl) as [Nb Ib].
  split.
  - apply NoDup_app. split_and!; [done| |done]. intros x Hx Hx'.
    rewrite Forall_forall in Ia, Ib.
    exact (issued_disjoint (next s) (next s1) (next s1) (next s2) x x Hs ltac:(lia) (Ia x Hx) (Ib x Hx') eq_refl).
  - apply Forall_app. split; (eapply Forall_impl; [eassumption|]);
      intros x; apply issued_mono; lia.
Qed.

End Issues.

Section Facts.
Context `{NautilusTypes}.

Definition tick_ids (l : list TradeTick) : list string := tt_id <$> l.

Lemma fields_to_trade_tick_issues fields ts_init prec :
  issues id (fun t => [tt_id t]) (fields_to_trade_tick fields ts_init prec).
Proof.
  unfold fields_to_trade_tick.
  repeat match goal with
  | |- issues _ _ (mbind _ (lift _)) =>
      apply issues_then; [by apply issues_lift|intros ?]
  | |- issues _ _ (if ?b then _ else _) => destruct b; [apply issues_throw|]
  end.
  intros seq Hs. unfold trade_id. run_monad.
  destruct (py_int (dget fields "ts_event")) as [ts|]; simpl; [|split; [lia|done]].
  split; [lia|]. intros t [= <-]. simpl. split; [apply NoDup_singleton|].
  constructor; [|constructor]. exists ts, seq. split; [lia|done].
Qed.

Section Rows.
Context {S : Type} (next : S -> Z) (set_next : Z -> S -> S).
Context (Hset : forall n s, next (set_next n s) = n).

Lemma on_seq_issues {A} (ids : A -> list string) (m : M Z A) :
  issues id ids m -> issues next ids (on_seq next set_next m).
Proof.
  intros Hm s Hs. unfold on_seq. destruct (Hm (next s) Hs) as [Hle Hok]. unfold id in *.
  destruct (m (next s)) as [r n]. simpl in *. by rewrite Hset.
Qed.

Lemma convert_ticks_issues rows symbol exchange prec ts_init on_invalid :
  (forall h e, on_invalid = Some h -> issues next (fun _ => []) (h e)) ->
  issues next tick_ids (convert_ticks next set_next rows symbol exchange prec ts_init on_invalid).
Proof.
  intros Hinv. induction rows as [|raw rows IH]; simpl; [by apply issues_ret|].
  apply issues_then; [by apply issues_lift|intros _].
  apply (issues_collect next tick_ids tick_ids); [|done|intros a b; apply fmap_app].
  apply issues_catch.
  - apply issues_then; [by apply issues_lift|intros fields].
    intros s Hs.
    destruct (on_seq_issues _ _ (fields_to_trade_tick_issues fields ts_init prec) s Hs) as [Hle Hok].
    run_monad. destruct (on_seq next set_next _ s) as [[t|e] s1];
      simpl in *; [|split; [lia|done]]. split; [lia|]. intros ? [= <-]. by apply Hok.
  - intros e. destruct on_invalid as [h|]; [|apply issues_throw].
    apply issues_then; [by apply Hinv|intros _]. by apply issues_ret.
Qed.
End Rows.

Lemma insert_tick_perm t l : insert_tick t l ≡ₚ t :: l.
Proof.
  induction l as [|x l IH]; simpl; [done|]. case_match; [done|].
  rewrite IH. apply Permutation_swap.
Qed.

Lemma sort_ticks_perm l : sort_ticks l ≡ₚ l.
Proof. induction l as [|t l IH]; simpl; [done|]. by rewrite insert_tick_perm, IH. Qed.

Definition tick_before (a b : TradeTick) : Prop := tt_ts_event a <= tt_ts_event b.

Lemma insert_tick_sorted t l :
  StronglySorted tick_before l -> StronglySorted tick_before (insert_tick t l).
Proof.
  induction 1 as [|x l Hs IH Hx]; simpl; [by repeat constructor|].
  destruct (Z.leb_spec (tt_ts_event t) (tt_ts_event x)).
  - constructor; [by constructor|]. constructor; [done|].
    eapply Forall_impl; [done|]. unfold tick_before in *. simpl. lia.
  - constructor; [done|]. rewrite insert_tick_perm. constructor; [|done].
    unfold tick_before. lia.
Qed.

Lemma sort_ticks_sorted l : StronglySorted tick_before (sort_ticks l).
Proof. induction l as [|t l IH]; simpl; [constructor|]. by apply insert_tick_sorted. Qed.

Lemma payloads_issues {S} (next : S -> Z) set_next rows symbol exchange prec ts_init on_invalid :
  (forall n s, next (set_next n s) = n) ->
  (forall h e, on_invalid = Some h -> issues next (fun _ => []) (h e)) ->
  issues next tick_ids
    (payloads_to_trade_ticks next set_next rows symbol exchange prec ts_init on_invalid).
Proof.
  intros Hset Hinv s Hs.
  destruct (convert_ticks_issues next set_next Hset rows symbol exchange prec ts_init on_invalid
              Hinv s Hs) as [Hle Hok]. unfold payloads_to_trade_ticks. run_monad.
  destruct (convert_ticks _ _ _ _ _ _ _ _ s) as [[r|e] s1]; simpl in *; [|split; [lia|done]].
  split; [lia|]. intros ? [= <-]. destruct (Hok r eq_refl) as [Hn Hi].
  unfold tick_ids. rewrite sort_ticks_perm. done.
Qed.

(** A converted row is a trade of at least one lot, at the row's own time. *)
Lemma fields_to_trade_tick_ok fields ts_init prec seq t seq' :
  fields_to_trade_tick fields ts_init prec seq = (Ok t, seq') ->
  exists size, py_int (dget fields "size") = Ok size /\ 1 <= size /\
    quantity_from_int size = Ok (tt_size t) /\
    price_from_wire (dget fields "price") prec = Ok (tt_price t) /\
    aggressor (dget fields "aggressor") = Ok (tt_aggressor t) /\
    py_int (dget fields "ts_event") = Ok (tt_ts_event t) /\ tt_ts_init t = ts_init.
Proof.
  unfold fields_to_trade_tick, trade_id. run_monad.
  destruct (py_int (dget fields "size")) as [size|] eqn:E1; [|done].
  destruct (Z.ltb_spec size 1); [done|].
  repeat (case_scrut; try done). intros [= <- <-]. simpl. eexists. split_and!; eauto; lia.
Qed.

End Facts.

(** A row whose aggressor is not one the table knows raises [ValueError], which
    is not the [ConvertError] the caller's [on_invalid_row] is for: the row is
    not skipped, the whole reply fails. *)
Definition odd_row : pydict :=
  dict_of [("symbol", VStr "MNQZ6"); ("exchange", VStr "CME"); ("ssboe", VInt 7);
           ("trade_price", VInt 100); ("trade_size", VInt 1); ("aggressor", VStr "X")].

Theorem odd_aggressor_fails_reply :
  (@payloads_to_trade_ticks PlainTypes Z id (fun n _ => n) [odd_row] "MNQZ6" "CME" (Some 2) 0
     (Some (fun _ => mret tt)) 1).1
  = Raise (Exn ExValue None "unknown aggressor value").
Proof. vm_compute. reflexivity. Qed.
