(* ===== verification/Feed.v ===== *)
(** * The data client: dispatch, polling, resynchronisation, connect

    [RithmicDataClient] of data.py around the converters of [Convert], [Ticks],
    [Book] and [Bars] and the subscription state of [Subscriptions]: one record
    [Feed] for the object, one [M Feed] computation per method.

    The outside world is [FeedEnv]: the clocks, the session's answers, the
    instrument provider and the cache, each asked by the number of the call,
    and [fe_interleave], what the other coroutines did to the object while this
    one was suspended.  [fd_log] records, in order, the venue events handled,
    the intents replayed and everything given to the engine; the events are no
    effect, they are there for the statements.  Log lines are not modelled. *)

From Stdlib Require Import Ascii String.
From stdpp Require Import base gmap strings list.
From Stdlib Require Import ZArith Lia.
From Corelib Require Import SpecFloat.
From S2P Require Import Prelude PyVal Plant Lru Ident Nautilus Orders OrderRows Commission Host Convert Drain Intake Exposure Connect Polling Book Bars Subscriptions Ticks.
Import Text.
Open Scope string_scope.
Open Scope list_scope.
Open Scope Z_scope.

(** ** State *)

(** What reaches the engine. *)
Inductive Data :=
  | DInstrument (id : string)
  | DTrade (t : TradeTick)
  | DQuote (q : QuoteTick)
  | DBook (b : Batch)
  | DBar (b : Bar)
  | DHistory (instrument : string) (ticks : list TradeTick).

Inductive Entry :=
  | LEvent (e : BookEvent)
  | LReplay (i : Intent)
  | LData (d : Data).

Record Feed := MkFeed {
  fd_subs : Subs;                         (* routes, intents, books, bars *)
  fd_bbo : gmap string pydict;            (* [_bbo_state] *)
  fd_books : Pending;                     (* [_books] *)
  fd_guard : Guard;                       (* [_bar_seq] *)
  fd_skips : gmap string Z;               (* [_skip_counts] *)
  fd_flush : f64;                         (* [_skip_last_flush] *)
  fd_seq : Z;                             (* [_TRADE_ID_SEQ] *)
  fd_generation : Z;                      (* [_resync_generation] *)
  fd_poll_task : bool;
  fd_poll_closing : bool;
  fd_calls : nat;
  fd_log : list Entry
}.

Definition set_subs (x : Subs) (f : Feed) : Feed :=
  MkFeed x (fd_bbo f) (fd_books f) (fd_guard f) (fd_skips f) (fd_flush f) (fd_seq f)
    (fd_generation f) (fd_poll_task f) (fd_poll_closing f) (fd_calls f) (fd_log f).
Definition put_bbo (x : gmap string pydict) (f : Feed) : Feed :=
  MkFeed (fd_subs f) x (fd_books f) (fd_guard f) (fd_skips f) (fd_flush f) (fd_seq f)
    (fd_generation f) (fd_poll_task f) (fd_poll_closing f) (fd_calls f) (fd_log f).
Definition put_pending (x : Pending) (f : Feed) : Feed :=
  MkFeed (fd_subs f) (fd_bbo f) x (fd_guard f) (fd_skips f) (fd_flush f) (fd_seq f)
    (fd_generation f) (fd_poll_task f) (fd_poll_closing f) (fd_calls f) (fd_log f).
Definition set_guard (x : Guard) (f : Feed) : Feed :=
  MkFeed (fd_subs f) (fd_bbo f) (fd_books f) x (fd_skips f) (fd_flush f) (fd_seq f)
    (fd_generation f) (fd_poll_task f) (fd_poll_closing f) (fd_calls f) (fd_log f).
Definition set_skips (x : gmap string Z) (t : f64) (f : Feed) : Feed :=
  MkFeed (fd_subs f) (fd_bbo f) (fd_books f) (fd_guard f) x t (fd_seq f)
    (fd_generation f) (fd_poll_task f) (fd_poll_closing f) (fd_calls f) (fd_log f).
Definition set_seq (x : Z) (f : Feed) : Feed :=
  MkFeed (fd_subs f) (fd_bbo f) (fd_books f) (fd_guard f) (fd_skips f) (fd_flush f) x
    (fd_generation f) (fd_poll_task f) (fd_poll_closing f) (fd_calls f) (fd_log f).
Definition set_generation (x : Z) (f : Feed) : Feed :=
  MkFeed (fd_subs f) (fd_bbo f) (fd_books f) (fd_guard f) (fd_skips f) (fd_flush f) (fd_seq f)
    x (fd_poll_task f) (fd_poll_closing f) (fd_calls f) (fd_log f).
Definition set_tasks (task closing : bool) (f : Feed) : Feed :=
  MkFeed (fd_subs f) (fd_bbo f) (fd_books f) (fd_guard f) (fd_skips f) (fd_flush f) (fd_seq f)
    (fd_generation f) task closing (fd_calls f) (fd_log f).
Definition next_feed_call (f : Feed) : Feed :=
  MkFeed (fd_subs f) (fd_bbo f) (fd_books f) (fd_guard f) (fd_skips f) (fd_flush f) (fd_seq f)
    (fd_generation f) (fd_poll_task f) (fd_poll_closing f) (S (fd_calls f)) (fd_log f).
Definition log_entry (x : Entry) (f : Feed) : Feed :=
  MkFeed (fd_subs f) (fd_bbo f) (fd_books f) (fd_guard f) (fd_skips f) (fd_flush f) (fd_seq f)
    (fd_generation f) (fd_poll_task f) (fd_poll_closing f) (fd_calls f) (fd_log f ++ [x]).

(** The world of one client. *)
Record FeedEnv (C : Type) := MkFeedEnv {
  fe_clock : nat -> Z;                                  (* [clock.timestamp_ns] *)
  fe_monotonic : nat -> f64;                            (* [time.monotonic] *)
  fe_cache : nat -> C;
  fe_connect : nat -> res unit;                         (* [ensure_connected] *)
  fe_instruments : nat -> res (list Instrument);        (* [initialize]; [list_all] *)
  fe_subscribe : nat -> Intent -> res unit;
  fe_next_events : nat -> string -> res (list BookEvent);
  fe_load_ticks : nat -> string -> string -> Z -> Z -> res (list pydict);
  fe_disconnect : nat -> res unit;
  fe_interleave : nat -> Feed -> Feed
}.
Arguments fe_clock {C} _ _.
Arguments fe_monotonic {C} _ _.
Arguments fe_cache {C} _ _.
Arguments fe_connect {C} _ _.
Arguments fe_instruments {C} _ _.
Arguments fe_subscribe {C} _ _ _.
Arguments fe_next_events {C} _ _ _.
Arguments fe_load_ticks {C} _ _ _ _ _ _.
Arguments fe_disconnect {C} _ _.
Arguments fe_interleave {C} _ _ _.

Section Feed.
Context {C : Type} `{CacheOps C} `{NautilusTypes}.
Variables F_SNAPSHOT F_LAST : Z.
Variable on_close : bool.                               (* [_bars_timestamp_on_close] *)
Variable env : FeedEnv C.

(** A synchronous question to the world. *)
Definition ask {A} (f : nat -> A) : M Feed A := fun s => (Ok (f (fd_calls s)), next_feed_call s).

(** An [await]: the other coroutines run. *)
Definition suspend : M Feed unit := fun s =>
  (Ok tt, fe_interleave env (fd_calls s) (next_feed_call s)).

(** [await asyncio.to_thread(call)]. *)
Definition call {A} (f : nat -> res A) : M Feed A :=
  suspend ;; r ← ask f; lift r.

(** Run a computation on one component of the object. *)
Definition on_books {A} (m : M Pending A) : M Feed A := fun s =>
  let '(r, x) := m (fd_books s) in (r, put_pending x s).
(** [self._bbo_state.setdefault(key, {})], updated in place. *)
Definition on_bbo {A} (key : string) (m : M pydict A) : M Feed A := fun s =>
  let '(r, x) := m (default ∅ (fd_bbo s !! key)) in (r, put_bbo (<[key := x]> (fd_bbo s)) s).
(** A subscription command; [su_bbo] is the domain of the quote state. *)
Definition on_subs {A} (m : M Subs A) : M Feed A := fun s =>
  let '(r, x) := m (set_bbo (dom (fd_bbo s)) (fd_subs s)) in
  (r, put_bbo (filter (fun p => p.1 ∈ su_bbo x) (fd_bbo s)) (set_subs x s)).

Definition handle_data (d : Data) : M Feed unit := modify (log_entry (LData d)).

(** ** [_count_skip], [_price_precision] *)

Definition SKIP_LOG_INTERVAL_SECS : f64 := f64_of_decimal false 60 0.

Definition count_skip (reason : string) : M Feed unit :=
  modify (fun s => set_skips (<[reason := default 0 (fd_skips s !! reason) + 1]> (fd_skips s))
                     (fd_flush s) s) ;;
  now ← ask (fe_monotonic env);
  s ← get;
  if SFltb (SFsub prec64 emax64 now (fd_flush s)) SKIP_LOG_INTERVAL_SECS then mret tt
  else modify (set_skips ∅ now).

Definition price_precision (instrument : string) : M Feed Z :=
  cache ← ask (fe_cache env);
  match cache_instrument cache instrument with
  | None => throw (Exn ExConvert None ("instrument not in cache: " +:+ instrument))
  | Some i => mret (i_price_precision i)
  end.

(** ** [_dispatch_event] *)

Definition dispatch_trade (d : pydict) (ts_init : Z) : M Feed unit :=
  if is_none (dget d "trade_price") then count_skip "last_trade_summary"
  else
    fields ← lift (last_trade_to_fields d);
    id ← lift (instrument_id_from_str (py_str (dget fields "instrument_id")));
    prec ← price_precision id;
    t ← on_seq fd_seq set_seq (fields_to_trade_tick fields ts_init (Some prec));
    handle_data (DTrade t).

Definition bbo_key (d : pydict) : string :=
  str_or_empty (dget d "symbol") +:+ ":" +:+ str_or_empty (dget d "exchange").

Definition dispatch_bbo (d : pydict) (ts_init : Z) : M Feed unit :=
  if negb (nonempty (str_or_empty (dget d "symbol"))) then throw convert_error
  else
    quote ← on_bbo (bbo_key d) (bbo_to_fields d);
    match quote with
    | None => count_skip "bbo_one_sided"
    | Some fields =>
        id ← lift (instrument_id_from_str (py_str (dget fields "instrument_id")));
        prec ← price_precision id;
        q ← lift (fields_to_quote_tick fields ts_init (Some prec));
        handle_data (DQuote q)
    end.

Definition dispatch_book (e : BookEvent) (ts_init : Z) : M Feed unit :=
  fields ← lift (order_book_to_fields e (Some ts_init));
  id ← lift (instrument_id_from_str (bf_instrument_id fields));
  prec ← price_precision id;
  batch ← on_books (feed_book F_SNAPSHOT F_LAST fields ts_init (Some prec));
  match batch with
  | Some b => handle_data (DBook b)
  | None => mret tt
  end.

Definition dispatch_one_bar (fields : pydict) (ts_init : Z) (bt : BarType) : M Feed unit :=
  prec ← price_precision (bt_instrument_id bt);
  b ← lift (fields_to_bar fields bt ts_init (Some prec) on_close);
  s ← get;
  let '(admitted, guard) := guard_admit b (fd_guard s) in
  modify (set_guard guard) ;;
  if (admitted : bool) then handle_data (DBar b) else count_skip "time_bar_repeat".

Definition dispatch_time_bar (d : pydict) (ts_init : Z) : M Feed unit :=
  s ← get;
  bar_types ← lift (bar_types_for_event (su_bars (fd_subs s)) d);
  match bar_types with
  | [] => count_skip "time_bar_unsubscribed"
  | _ =>
      fields ← lift (time_bar_to_fields d);
      forM_ bar_types (dispatch_one_bar fields ts_init)
  end.

Definition dispatch_body (e : BookEvent) (ts_init : Z) : M Feed unit :=
  let d := be_scalars e in
  let etype := dget d "type" in
  if is_str etype "last_trade" then dispatch_trade d ts_init
  else if is_str etype "bbo" then dispatch_bbo d ts_init
  else if is_str etype "order_book" then dispatch_book e ts_init
  else if is_str etype "time_bar" then dispatch_time_bar d ts_init
  else mret tt.

Definition dispatch_event (e : BookEvent) : M Feed unit :=
  modify (log_entry (LEvent e)) ;;
  ts_init ← ask (fe_clock env);
  catchM any_exn (dispatch_body e ts_init)
    (fun exc =>
       if is_convert_error exc
       then count_skip (py_str (dget (be_scalars e) "type") +:+ ": " +:+ ex_text exc)
       else mret tt).

(** ** Resynchronisation *)

(** [self._bbo_state.clear(); self._books.reset()]. *)
Definition reset_md : M Feed unit :=
  modify (fun s => put_pending ∅ (put_bbo ∅ s)).

(** [replay_subscription_intent] on the intents held when it is called. *)
Definition replay_intents (s : Subs) : M Feed unit :=
  bars ← lift (bar_resync_subscriptions (su_bars s));
  forM_ ((ITicker <$> ticker_keys s) ++ (IBook <$> elements (su_books s)) ++ (IBar <$> bars))
    (fun i =>
       modify (log_entry (LReplay i)) ;;
       catchM is_duplicate_subscribe_error (call (fun n => fe_subscribe env n i))
         (fun _ => mret tt)).

(** [_resync_ticker_subscription]; taking the lock may suspend. *)
Definition resync_ticker_subscription : M Feed unit :=
  start_gen ← gets fd_generation;
  suspend ;;
  s ← get;
  if negb (fd_generation s =? start_gen) then mret tt
  else
    reset_md ;;
    s ← get;
    replay_intents (fd_subs s) ;;
    modify (fun s => set_generation (fd_generation s + 1) s).

Definition resync_channel (backoff : Z) : M Feed Z :=
  next_backoff ← catchM any_exn (resync_ticker_subscription ;; mret INITIAL_BACKOFF)
                   (fun _ => mret (double_backoff backoff));
  suspend ;;
  mret next_backoff.

(** ** The poll loops *)

Fixpoint handle_batch (events : list BookEvent) (backoff : Z) : M Feed Z :=
  match events with
  | [] => mret backoff
  | e :: rest =>
      if is_str (dget (be_scalars e) "type") "gap" then
        backoff ← resync_channel backoff; handle_batch rest backoff
      else dispatch_event e ;; handle_batch rest backoff
  end.

(** One turn of the loop: the next back-off, or [None] when it returns. *)
Definition poll_turn (stream : string) (should_poll : option (Feed -> bool)) (backoff : Z)
  : M Feed (option Z) :=
  s ← get;
  if match should_poll with Some p => negb (p s) | None => false end then
    suspend ;; mret (Some backoff)
  else
    polled ← catchM any_exn
      (events ← call (fun n => fe_next_events env n stream); mret (Ok events))
      (fun e => mret (Raise e));
    match polled with
    | Raise e =>
        if is_terminal_poll_error e then mret None
        else suspend ;; mret (Some (double_backoff backoff))
    | Ok events => b ← handle_batch events INITIAL_BACKOFF; mret (Some b)
    end.

Fixpoint poll_channel_loop (turns : nat) (stream : string) (should_poll : option (Feed -> bool))
  (backoff : Z) : M Feed (option Z) :=
  match turns with
  | O => mret (Some backoff)
  | S turns' =>
      next ← poll_turn stream should_poll backoff;
      match next with
      | None => mret None
      | Some b => poll_channel_loop turns' stream should_poll b
      end
  end.

Definition has_bars (s : Feed) : bool := negb (bool_decide (su_bars (fd_subs s) = ∅)).

Definition poll_loop (turns : nat) : M Feed (option Z) :=
  poll_channel_loop turns "ticker" None INITIAL_BACKOFF.
Definition history_poll_loop (turns : nat) : M Feed (option Z) :=
  poll_channel_loop turns "history" (Some has_bars) INITIAL_BACKOFF.

(** ** Connect, recovery, disconnect *)

Definition ensure_history_poll_task : M Feed unit :=
  modify (fun s => set_subs (start_history_poll (fd_subs s)) s).

(** The route of a loaded instrument. *)
Definition instrument_route (i : Instrument) : res Key :=
  match i_info i !! "rithmic_exchange", i_info i !! "rithmic_symbol" with
  | Some exchange, Some symbol => Ok (py_str symbol, py_str exchange)
  | _, _ => Raise (Exn ExValue None "missing rithmic route fields in info")
  end.

Definition add_route (id : string) (k : Key) (s : Subs) : Subs :=
  MkSubs (<[id := k]> (su_routes s)) (su_subs s) (su_intents s) (su_sets s) (su_next s) (su_books s)
    (su_bars s) (su_bbo s) (su_history_poll s) (su_wire s).

Definition load_instrument (i : Instrument) : M Feed unit :=
  handle_data (DInstrument (i_id i)) ;;
  k ← lift (instrument_route i);
  modify (fun s => set_subs (add_route (i_id i) k (fd_subs s)) s).

Definition feed_connect : M Feed unit :=
  call (fe_connect env) ;;
  instruments ← call (fe_instruments env);
  forM_ instruments load_instrument ;;
  s ← get;
  replay_intents (fd_subs s) ;;
  reset_md ;;
  s ← get;
  whenM (has_bars s) ensure_history_poll_task ;;
  modify (set_tasks true false).

(** [_reconcile_md_after_resumed]. *)
Definition reconcile_md_after_resumed : M Feed unit :=
  reset_md ;;
  s ← get;
  whenM (has_bars s) ensure_history_poll_task.

Definition stop_history_poll (s : Subs) : Subs :=
  MkSubs (su_routes s) (su_subs s) (su_intents s) (su_sets s) (su_next s) (su_books s) (su_bars s)
    (su_bbo s) false (su_wire s).

(** [_disconnect]: detaching the recovery bridge and cancelling each task
    suspend. *)
Definition feed_disconnect : M Feed unit :=
  modify (fun s => set_tasks (fd_poll_task s) true s) ;;
  suspend ;;
  s ← get;
  whenM (fd_poll_task s) suspend ;;
  modify (fun s => set_tasks false (fd_poll_closing s) s) ;;
  s ← get;
  whenM (su_history_poll (fd_subs s)) suspend ;;
  modify (fun s => set_subs (stop_history_poll (fd_subs s)) s) ;;
  call (fe_disconnect env).

(** ** [_request_trade_ticks] *)

Record TickRequest := MkTickRequest {
  tr_instrument : string;
  tr_window : option (Z * Z);            (* [None] when start or end is missing *)
  tr_limit : Z                           (* 0 when there is none *)
}.

Definition answer_ticks (r : TickRequest) (ticks : list TradeTick) : M Feed unit :=
  handle_data (DHistory (tr_instrument r) ticks).

Definition converted_ticks (r : TickRequest) (rows : list pydict) (symbol exchange : string)
  : M Feed (list TradeTick) :=
  ts_init ← ask (fe_clock env);
  prec ← price_precision (tr_instrument r);
  payloads_to_trade_ticks fd_seq set_seq rows symbol exchange (Some prec) ts_init
    (Some (fun _ => count_skip "history_tick_invalid")).

(** From the venue's rows to the answer, without a suspension. *)
Definition convert_and_answer (r : TickRequest) (rows : list pydict) (symbol exchange : string)
  : M Feed unit :=
  converted ← catchM is_value_error
    (ticks ← converted_ticks r rows symbol exchange; mret (Some ticks))
    (fun _ => mret None);
  match converted with
  | None => answer_ticks r []
  | Some ticks => answer_ticks r (last_n (tr_limit r) ticks)
  end.

Definition request_trade_ticks (r : TickRequest) : M Feed unit :=
  s ← get;
  match su_routes (fd_subs s) !! tr_instrument r with
  | None => answer_ticks r []
  | Some (symbol, exchange) =>
      match tr_window r with
      | None => answer_ticks r []
      | Some (start, end_) =>
          loaded ← catchM any_exn
            (rows ← call (fun n => fe_load_ticks env n symbol exchange start end_); mret (Some rows))
            (fun _ => mret None);
          match loaded with
          | None => answer_ticks r []
          | Some rows => convert_and_answer r rows symbol exchange
          end
      end
  end.

(** ** The client as a step system

    An atomic step is what one of the client's coroutines does between two
    suspensions.  Every method is a sequence of such steps whenever what runs
    during its suspensions is. *)

Inductive cstep : Feed -> Feed -> Prop :=
  | CAsk f : cstep f (next_feed_call f)
  | CDispatch e f : cstep f (dispatch_event e f).2
  | CReset f : cstep f (reset_md f).2
  | CSubs (A : Type) (m : M Subs A) f : cstep f (on_subs m f).2
  | CState g gen task closing f :
      cstep f (set_guard g (set_generation gen (set_tasks task closing f)))
  | CSet (g : Subs -> Subs) f : cstep f (set_subs (g (fd_subs f)) f)
  | CLoad i f : cstep f (load_instrument i f).2
  | CReplay i f : cstep f (log_entry (LReplay i) f)
  | CAnswer r rows symbol exchange f : cstep f (convert_and_answer r rows symbol exchange f).2
  | CEmpty r f : cstep f (answer_ticks r [] f).2.

Definition csteps : Feed -> Feed -> Prop := rtc cstep.

#[local] Instance csteps_preorder : PreOrder csteps.
Proof. unfold csteps. split; apply _. Qed.

Lemma csteps_one f f' : cstep f f' -> csteps f f'.
Proof. apply rtc_once. Qed.

Section Methods.
Hypothesis Hother : forall n f, csteps f (fe_interleave env n f).

#[local] Abbreviation runs := (preserves csteps).

Lemma runs_step {A} (m : M Feed A) : (forall f, cstep f (m f).2) -> runs m.
Proof. intros Hm f. by apply csteps_one. Qed.

Lemma runs_ask {A} (q : nat -> A) : runs (ask q).
Proof. apply runs_step. intros f. apply CAsk. Qed.

Lemma runs_suspend : runs suspend.
Proof. intros f. eapply rtc_l; [apply CAsk|]. apply Hother. Qed.

Lemma runs_call {A} (q : nat -> res A) : runs (call q).
Proof.
  unfold call. apply preserves_bind; [apply _|apply runs_suspend|intros _].
  apply preserves_bind; [apply _|apply runs_ask|intros r]. auto with preserve typeclass_instances.
Qed.

Lemma runs_dispatch e : runs (dispatch_event e).
Proof. apply runs_step, CDispatch. Qed.

Lemma runs_reset : runs reset_md.
Proof. apply runs_step, CReset. Qed.

Lemma runs_log_replay i : runs (modify (log_entry (LReplay i))).
Proof. apply runs_step. intros f. apply CReplay. Qed.

Lemma cstate_id f : f = set_guard (fd_guard f) (set_generation (fd_generation f)
                          (set_tasks (fd_poll_task f) (fd_poll_closing f) f)).
Proof. by destruct f. Qed.

Lemma runs_generation (g : Feed -> Z) : runs (modify (fun s => set_generation (g s) s)).
Proof.
  apply runs_step. intros f. simpl.
  pose proof (CState (fd_guard f) (g f) (fd_poll_task f) (fd_poll_closing f) f) as Hc.
  by destruct f.
Qed.

Lemma runs_tasks (t c : Feed -> bool) : runs (modify (fun s => set_tasks (t s) (c s) s)).
Proof.
  apply runs_step. intros f. simpl.
  pose proof (CState (fd_guard f) (fd_generation f) (t f) (c f) f) as Hc. by destruct f.
Qed.

Lemma runs_subs (g : Subs -> Subs) : runs (modify (fun s => set_subs (g (fd_subs s)) s)).
Proof. apply runs_step. intros f. apply CSet. Qed.

#[local] Hint Resolve runs_ask runs_suspend runs_call runs_dispatch runs_reset runs_log_replay
  runs_generation runs_tasks runs_subs : preserve.

Lemma runs_replay s : runs (replay_intents s).
Proof. unfold replay_intents. preserve. Qed.
#[local] Hint Resolve runs_replay : preserve.

Lemma runs_resync : runs resync_ticker_subscription.
Proof. unfold resync_ticker_subscription. preserve. Qed.

Lemma runs_resync_channel b : runs (resync_channel b).
Proof. unfold resync_channel. pose proof runs_resync. preserve. Qed.
#[local] Hint Resolve runs_resync_channel : preserve.

Lemma runs_batch events : forall b, runs (handle_batch events b).
Proof.
  induction events as [|e events IH]; intros b; simpl; [auto with preserve typeclass_instances|].
  preserve.
Qed.
#[local] Hint Resolve runs_batch : preserve.

Lemma runs_turn stream sp b : runs (poll_turn stream sp b).
Proof. unfold poll_turn. preserve. Qed.
#[local] Hint Resolve runs_turn : preserve.

Lemma runs_poll turns stream sp : forall b, runs (poll_channel_loop turns stream sp b).
Proof.
  induction turns as [|turns IH]; intros b; simpl; [auto with preserve typeclass_instances|].
  preserve.
Qed.

Lemma runs_load i : runs (load_instrument i).
Proof. apply runs_step, CLoad. Qed.
#[local] Hint Resolve runs_load : preserve.

Lemma runs_connect : runs feed_connect.
Proof.
  unfold feed_connect, ensure_history_poll_task. preserve.
Qed.

Lemma runs_disconnect : runs feed_disconnect.
Proof. unfold feed_disconnect. preserve. Qed.

Lemma runs_empty r : runs (answer_ticks r []).
Proof. apply runs_step, CEmpty. Qed.

Lemma runs_request r : runs (request_trade_ticks r).
Proof.
  unfold request_trade_ticks. pose proof (runs_empty r).
  assert (forall rows s x, runs (convert_and_answer r rows s x))
    by (intros; apply runs_step, CAnswer).
  preserve.
Qed.
End Methods.

(** ** Trade ids *)

Definition entry_ids (x : Entry) : list string :=
  match x with
  | LData (DTrade t) => [tt_id t]
  | LData (DHistory _ ticks) => tick_ids ticks
  | _ => []
  end.

Definition logged_ids (l : list Entry) : list string := l ≫= entry_ids.

Record ids_ok (f : Feed) : Prop := MkIdsOk {
  io_seq : 0 <= fd_seq f;
  io_nodup : NoDup (logged_ids (fd_log f));
  io_issued : Forall (issued 0 (fd_seq f)) (logged_ids (fd_log f))
}.

Definition keeping (P : Feed -> Prop) (f f' : Feed) : Prop := P f -> P f'.

#[local] Instance keeping_preorder P : PreOrder (keeping P).
Proof. unfold keeping. split; [intros f; tauto|intros f g h; tauto]. Qed.

Lemma logged_ids_snoc l x : logged_ids (l ++ [x]) = logged_ids l ++ entry_ids x.
Proof. unfold logged_ids. rewrite bind_app. simpl. by rewrite app_nil_r. Qed.

Lemma ids_ok_same f f' :
  fd_seq f' = fd_seq f -> logged_ids (fd_log f') = logged_ids (fd_log f) ->
  ids_ok f -> ids_ok f'.
Proof. intros Hs Hl [H1 H2 H3]. split; rewrite ?Hs, ?Hl; done. Qed.

(** New ids, made after those already given out. *)
Lemma ids_ok_deliver f f1 d :
  ids_ok f -> fd_log f1 = fd_log f -> fd_seq f <= fd_seq f1 ->
  NoDup (entry_ids (LData d)) -> Forall (issued (fd_seq f) (fd_seq f1)) (entry_ids (LData d)) ->
  ids_ok (log_entry (LData d) f1).
Proof.
  intros [H1 H2 H3] Hlog Hle Hn Hi. split; cbn [fd_seq fd_log log_entry]; [lia|..];
    rewrite logged_ids_snoc, Hlog.
  - apply NoDup_app. split_and!; [done| |done]. intros x Hx Hx'.
    rewrite Forall_forall in H3, Hi.
    exact (issued_disjoint 0 (fd_seq f) (fd_seq f) (fd_seq f1) x x ltac:(lia) ltac:(lia)
             (H3 x Hx) (Hi x Hx') eq_refl).
  - apply Forall_app. split; (eapply Forall_impl; [eassumption|]); intros x; apply issued_mono; lia.
Qed.

#[local] Abbreviation keeps_ids := (preserves (keeping ids_ok)).

Lemma ids_modify g :
  (forall s, fd_seq (g s) = fd_seq s) ->
  (forall s, logged_ids (fd_log (g s)) = logged_ids (fd_log s)) -> keeps_ids (modify g).
Proof. intros Hs Hl f. unfold keeping. simpl. apply ids_ok_same; auto. Qed.

Lemma ids_ask {A} (q : nat -> A) : keeps_ids (ask q).
Proof. intros f. unfold keeping. by apply ids_ok_same. Qed.

Lemma ids_books {A} (m : M Pending A) : keeps_ids (on_books m).
Proof. intros f. unfold keeping, on_books. destruct (m _). by apply ids_ok_same. Qed.

Lemma ids_bbo {A} k (m : M pydict A) : keeps_ids (on_bbo k m).
Proof. intros f. unfold keeping, on_bbo. destruct (m _). by apply ids_ok_same. Qed.

Lemma ids_handle d : entry_ids (LData d) = [] -> keeps_ids (handle_data d).
Proof.
  intros Hd. apply ids_modify; [done|]. intros s. cbn [fd_log log_entry].
  by rewrite logged_ids_snoc, Hd, app_nil_r.
Qed.

Lemma ids_skip reason : keeps_ids (count_skip reason).
Proof.
  unfold count_skip. preserve; try (by apply ids_modify); apply ids_ask.
Qed.
#[local] Hint Resolve ids_ask ids_books ids_bbo ids_skip : preserve.
#[local] Hint Extern 1 (preserves _ (handle_data _)) => apply ids_handle; reflexivity : preserve.

Lemma ids_precision i : keeps_ids (price_precision i).
Proof. unfold price_precision. preserve. Qed.
#[local] Hint Resolve ids_precision : preserve.

Lemma set_seq_next n s : fd_seq (set_seq n s) = n.
Proof. done. Qed.

Lemma ids_trade fields ts_init prec :
  keeps_ids (t ← on_seq fd_seq set_seq (fields_to_trade_tick fields ts_init prec);
             handle_data (DTrade t)).
Proof.
  intros f Hok. pose proof (on_seq_issues fd_seq set_seq set_seq_next _ _
    (fields_to_trade_tick_issues fields ts_init prec) f (io_seq f Hok)) as [Hle Hi].
  unfold mbind, M_bind, handle_data, modify.
  unfold on_seq in *. destruct (fields_to_trade_tick fields ts_init prec (fd_seq f)) as [[t|e] n];
    simpl in *.
  - destruct (Hi t eq_refl) as [Hn Hf]. by apply (ids_ok_deliver f).
  - destruct Hok as [H1 H2 H3]. split; simpl; [lia|done|].
    eapply Forall_impl; [done|]. intros x. apply issued_mono; lia.
Qed.
#[local] Hint Resolve ids_trade : preserve.

Lemma ids_dispatch e : keeps_ids (dispatch_event e).
Proof.
  unfold dispatch_event, dispatch_body, dispatch_trade, dispatch_bbo, dispatch_book,
    dispatch_time_bar, dispatch_one_bar.
  preserve; try (apply ids_modify; [done|]; intros s; cbn [fd_log log_entry set_guard];
    by rewrite ?logged_ids_snoc, ?app_nil_r).
Qed.

(** Conversions write neither the log nor the quote state. *)
Definition unlogged (f f' : Feed) : Prop := fd_log f' = fd_log f /\ fd_bbo f' = fd_bbo f.

#[local] Instance unlogged_preorder : PreOrder unlogged.
Proof. unfold unlogged. split; [done|]. intros f g h [] []. split; congruence. Qed.

Lemma unlogged_ask {A} (q : nat -> A) : preserves unlogged (ask q).
Proof. by intros f. Qed.

Lemma unlogged_skip reason : preserves unlogged (count_skip reason).
Proof.
  unfold count_skip. preserve; try (by apply preserves_modify); apply unlogged_ask.
Qed.
#[local] Hint Resolve unlogged_ask unlogged_skip : preserve.

Lemma unlogged_seq {A} (m : M Z A) : preserves unlogged (on_seq fd_seq set_seq m).
Proof. intros f. unfold on_seq. by destruct (m _). Qed.

Lemma unlogged_books {A} (m : M Pending A) : preserves unlogged (on_books m).
Proof. intros f. unfold on_books. by destruct (m _). Qed.
#[local] Hint Resolve unlogged_seq unlogged_books : preserve.

Lemma unlogged_precision i : preserves unlogged (price_precision i).
Proof. unfold price_precision. preserve. Qed.
#[local] Hint Resolve unlogged_precision : preserve.

Lemma unlogged_convert rows symbol exchange prec ts_init :
  preserves unlogged (convert_ticks fd_seq set_seq rows symbol exchange prec ts_init
                        (Some (fun _ => count_skip "history_tick_invalid"))).
Proof. induction rows as [|raw rows IH]; simpl; preserve. Qed.
#[local] Hint Resolve unlogged_convert : preserve.

Lemma unlogged_converted r rows symbol exchange :
  preserves unlogged (converted_ticks r rows symbol exchange).
Proof. unfold converted_ticks, payloads_to_trade_ticks. preserve. Qed.

Lemma skip_issues reason : issues fd_seq (fun _ => []) (count_skip reason).
Proof.
  intros s Hs. split; [|intros ? _; split; constructor].
  unfold count_skip, ask. run_monad. case_scrut; simpl; lia.
Qed.

Lemma ask_issues {A} (q : nat -> A) : issues fd_seq (fun _ => []) (ask q).
Proof. intros s Hs. simpl. split; [lia|]. intros ? _. split; constructor. Qed.

Lemma converted_issues r rows symbol exchange :
  issues fd_seq tick_ids (converted_ticks r rows symbol exchange).
Proof.
  unfold converted_ticks. apply issues_then; [apply ask_issues|intros ts].
  apply issues_then; [|intros prec; apply payloads_issues;
    [apply set_seq_next|intros h e [= <-]; apply skip_issues]].
  unfold price_precision. apply issues_then; [apply ask_issues|intros c].
  case_match; [by apply issues_ret|apply issues_throw].
Qed.

Lemma last_n_sub {A} limit (l : list A) : exists pre, l = pre ++ last_n limit l.
Proof.
  unfold last_n. destruct (limit =? 0); [by exists []|].
  destruct (0 <? limit); eexists; symmetry; apply take_drop.
Qed.

Lemma ids_answer r rows symbol exchange : keeps_ids (convert_and_answer r rows symbol exchange).
Proof.
  intros f Hok. destruct (converted_issues r rows symbol exchange f (io_seq f Hok)) as [Hle Hi].
  destruct (unlogged_converted r rows symbol exchange f) as [Hlog _].
  unfold convert_and_answer, catchM, mbind, M_bind, mret, M_ret.
  destruct (converted_ticks r rows symbol exchange f) as [[ticks|e] f1]; simpl in *.
  - destruct (Hi ticks eq_refl) as [Hn Hf].
    destruct (last_n_sub (tr_limit r) ticks) as [pre Hpre].
    assert (Hids : tick_ids ticks = tick_ids pre ++ tick_ids (last_n (tr_limit r) ticks)).
    { unfold tick_ids. by rewrite <- fmap_app, <- Hpre. }
    rewrite Hids in Hn, Hf. apply NoDup_app in Hn as (_ & _ & Hn). apply Forall_app in Hf as [_ Hf].
    by apply (ids_ok_deliver f).
  - assert (Hok1 : ids_ok f1).
    { destruct Hok as [H1 H2 H3]. split; rewrite ?Hlog; [lia|done|].
      eapply Forall_impl; [done|]. intros x. apply issued_mono; lia. }
    destruct (is_value_error e); [|done]. simpl.
    eapply ids_ok_deliver; [exact Hok1|done|lia|constructor|constructor].
Qed.

Lemma ids_cstep f f' : cstep f f' -> ids_ok f -> ids_ok f'.
Proof.
  destruct 1 as [f|e f|f|A m f|g gen t c f|g f|i f|i f|r rows s x f|r f].
  - by apply ids_ok_same.
  - apply ids_dispatch.
  - by apply ids_ok_same.
  - unfold on_subs. destruct (m _). by apply ids_ok_same.
  - by apply ids_ok_same.
  - by apply ids_ok_same.
  - assert (Hl : keeps_ids (load_instrument i)); [|exact (Hl f)].
    unfold load_instrument. preserve. by apply ids_modify.
  - apply ids_ok_same; [done|]. simpl. by rewrite logged_ids_snoc, app_nil_r.
  - apply ids_answer.
  - intros Hok. by apply (ids_ok_deliver f f); [..|constructor|constructor].
Qed.

(** ** Quotes after a reset *)

(** The messages handled. *)
Definition messages (l : list Entry) : list pydict :=
  omap (fun x => match x with LEvent e => Some (be_scalars e) | _ => None end) l.

(** A price a quote message of [msgs] for that symbol and exchange carried. *)
Definition carried (msgs : list pydict) (key side : string) (p : f64) : Prop :=
  exists m, m ∈ msgs /\ is_str (dget m "type") "bbo" = true /\ bbo_key m = key /\
    py_float (dget m (side +:+ "_price")) = Ok p.

Definition side_from (msgs : list pydict) (key : string) (st : pydict) (side : string) : Prop :=
  is_none (dget st (side +:+ "_price")) = true \/
  exists p, dget st (side +:+ "_price") = VFloat p /\ carried msgs key side p.

Definition state_from (msgs : list pydict) (key : string) (st : pydict) : Prop :=
  side_from msgs key st "bid" /\ side_from msgs key st "ask".

(** The quote is of the symbol of the last message, and both its sides come from
    messages of [msgs] for the same symbol and exchange. *)
Definition quote_from (msgs : list pydict) (q : QuoteTick) : Prop :=
  exists m x b a prec, last msgs = Some m /\
    (instrument_id_from_symbol (py_str (dget m "symbol")) x ≫= instrument_id_from_str)
      = Ok (qt_instrument q) /\
    carried msgs (bbo_key m) "bid" b /\ price_from_wire (VFloat b) (Some prec) = Ok (qt_bid q) /\
    carried msgs (bbo_key m) "ask" a /\ price_from_wire (VFloat a) (Some prec) = Ok (qt_ask q).

Section Since.
(** Messages count from log position [n0]; quotes are judged from [n1]. *)
Variables n0 n1 : nat.

Record quotes_ok (f : Feed) : Prop := MkQuotesOk {
  qo_start : (n0 <= length (fd_log f))%nat;
  qo_state : map_Forall (fun k st => state_from (messages (drop n0 (fd_log f))) k st) (fd_bbo f);
  qo_log : forall pre q post, fd_log f = pre ++ LData (DQuote q) :: post ->
             (n1 <= length pre)%nat -> quote_from (messages (drop n0 pre)) q
}.

Lemma messages_snoc (l : list Entry) x : (n0 <= length l)%nat ->
  messages (drop n0 (l ++ [x])) =
  messages (drop n0 l) ++ match x with LEvent e => [be_scalars e] | _ => [] end.
Proof.
  intros Hl. rewrite drop_app_le by done. unfold messages. rewrite omap_app. by destruct x.
Qed.

Lemma side_from_mono msgs msgs' key st side :
  msgs ⊆ msgs' -> side_from msgs key st side -> side_from msgs' key st side.
Proof.
  intros Hs [Hn|(p & Hp & m & Hm & He)]; [by left|]. right. exists p. split; [done|].
  exists m. split; [by apply Hs|done].
Qed.

Lemma state_from_mono msgs msgs' key st :
  msgs ⊆ msgs' -> state_from msgs key st -> state_from msgs' key st.
Proof. intros Hs [Hb Ha]. split; by eapply side_from_mono. Qed.

(** A key that is not a price leaves the sides alone. *)
Lemma state_from_insert msgs key k v st :
  k <> "bid_price" -> k <> "ask_price" -> state_from msgs key st -> state_from msgs key (<[k := v]> st).
Proof.
  intros Hb Ha [Sb Sa]. unfold state_from, side_from in *. cbn in *.
  by rewrite !dget_insert_ne.
Qed.

Lemma state_from_price msgs key side p st :
  side ∈ ["bid"; "ask"] -> carried msgs key side p -> state_from msgs key st ->
  state_from msgs key (<[side +:+ "_price" := VFloat p]> st).
Proof.
  intros Hside Hc [Sb Sa]. unfold state_from, side_from in *.
  rewrite !elem_of_cons, elem_of_nil in Hside.
  destruct Hside as [->|[->|[]]]; cbn in *; rewrite dget_insert, dget_insert_ne by done;
    split; eauto.
Qed.

Section Merge.
Context (msgs : list pydict) (d : pydict) (Hd : d ∈ msgs) (Hbbo : is_str (dget d "type") "bbo" = true).

#[local] Instance st_keeping_preorder :
  PreOrder (fun st st' : pydict => state_from msgs (bbo_key d) st -> state_from msgs (bbo_key d) st').
Proof. split; [intros ?; tauto|intros ? ? ?; tauto]. Qed.

#[local] Abbreviation keeps_state :=
  (preserves (fun st st' : pydict =>
     state_from msgs (bbo_key d) st -> state_from msgs (bbo_key d) st')).

Lemma store_keeps k v : k <> "bid_price" -> k <> "ask_price" -> keeps_state (store k v).
Proof. intros H1 H2. apply preserves_modify. intros st. by apply state_from_insert. Qed.

Lemma merge_side_keeps side : side ∈ ["bid"; "ask"] -> keeps_state (merge_side d side).
Proof.
  intros Hside. unfold merge_side. destruct (is_none (dget d (side +:+ "_price"))) eqn:En;
    [apply preserves_ret, _|].
  intros st Hst. unfold mbind, M_bind, lift.
  destruct (py_float (dget d (side +:+ "_price"))) as [p|] eqn:Ep; [|done]. simpl.
  assert (Hst1 : state_from msgs (bbo_key d) (<[side +:+ "_price" := VFloat p]> st)).
  { apply state_from_price; [done| |done]. by exists d. }
  destruct (py_float (por _ _)) as [s|]; [|done]. simpl.
  rewrite !elem_of_cons, elem_of_nil in Hside.
  destruct Hside as [->|[->|[]]]; by apply state_from_insert.
Qed.

Lemma merge_message_keeps : keeps_state (merge_message d).
Proof.
  unfold merge_message.
  assert (Hb : keeps_state (merge_side d "bid")) by (apply merge_side_keeps; evaluate).
  assert (Ha : keeps_state (merge_side d "ask")) by (apply merge_side_keeps; evaluate).
  preserve; by apply store_keeps.
Qed.

Lemma bbo_to_fields_keeps : keeps_state (bbo_to_fields d).
Proof. unfold bbo_to_fields. pose proof merge_message_keeps. preserve. Qed.

End Merge.

(** The accumulator holds the symbol of the last message. *)
Definition symbol_kept (v : pyval) (st st' : pydict) : Prop :=
  dget st "symbol" = v -> dget st' "symbol" = v.

#[local] Instance symbol_kept_preorder v : PreOrder (symbol_kept v).
Proof. unfold symbol_kept. split; [intros ?; tauto|intros ? ? ?; tauto]. Qed.

Lemma store_symbol v k w : k <> "symbol" -> preserves (symbol_kept v) (store k w).
Proof.
  intros Hk. apply preserves_modify. intros st. unfold symbol_kept. by rewrite dget_insert_ne.
Qed.

Lemma merge_side_symbol v d side :
  side ∈ ["bid"; "ask"] -> preserves (symbol_kept v) (merge_side d side).
Proof.
  intros Hside. unfold merge_side. rewrite !elem_of_cons, elem_of_nil in Hside.
  destruct Hside as [->|[->|[]]]; cbn; preserve; by apply store_symbol.
Qed.

Lemma merge_message_symbol d st st' :
  merge_message d st = (Ok tt, st') -> dget st' "symbol" = VStr (py_str (dget d "symbol")).
Proof.
  unfold merge_message. intros E. set (v := VStr (py_str (dget d "symbol"))) in *.
  unfold mbind at 1, M_bind at 1, lift at 1 in E. destruct (require_keys _ _); [|done].
  match type of E with (store _ _ ;; ?m) st = _ => assert (Hm : preserves (symbol_kept v) m) end.
  { assert (preserves (symbol_kept v) (merge_side d "bid")) by (apply merge_side_symbol; evaluate).
    assert (preserves (symbol_kept v) (merge_side d "ask")) by (apply merge_side_symbol; evaluate).
    preserve; by apply store_symbol. }
  change ((store "symbol" v ;; ?m) st) with (m (<["symbol" := v]> st)) in E.
  specialize (Hm (<["symbol" := v]> st)). rewrite E in Hm. apply Hm. by rewrite dget_insert.
Qed.

Lemma quote_of_instrument st fields :
  quote_of st = Ok (Some fields) ->
  exists i, instrument_id_from_symbol (py_str (dget st "symbol")) (exchange_arg (dget st "exchange"))
              = Ok i /\ dget fields "instrument_id" = VStr i.
Proof.
  unfold quote_of. intros E. repeat (case_match; try done).
  unfold mbind, res_bind in E. repeat (case_scrut_in E; try done).
  all: simplify_eq; eexists; split; [done|]; reflexivity.
Qed.

(** The quote read off a state whose sides come from [msgs]. *)
Lemma quote_fields_from msgs d st fields ts_init prec q :
  last msgs = Some d -> dget st "symbol" = VStr (py_str (dget d "symbol")) ->
  state_from msgs (bbo_key d) st -> quote_of st = Ok (Some fields) ->
  fields_to_quote_tick fields ts_init (Some prec) = Ok q -> quote_from msgs q.
Proof.
  intros Hd Hsym [Sb Sa] Hq Ht. destruct (quote_of_instrument _ _ Hq) as (i & Ei & Ef).
  apply quote_of_spec in Hq as (b & a & Pb & Pa & Qb & Qa).
  assert (Hside : forall side p, side_from msgs (bbo_key d) st side ->
    py_float (dget st (side +:+ "_price")) = Ok p -> carried msgs (bbo_key d) side p).
  { intros side p [Hn|(p' & Hp' & Hc)] Hp; [by destruct (dget st (side +:+ "_price"))|].
    rewrite Hp' in Hp. simpl in Hp. by simplify_eq. }
  exists d, (exchange_arg (dget st "exchange")), b, a, prec.
  rewrite Hsym in Ei. simpl in Ei. rewrite Ei. csimpl.
  unfold fields_to_quote_tick in Ht. rewrite Qb, Qa, Ef in Ht. simpl in Ht.
  unfold mbind, res_bind in Ht. repeat (case_scrut_in Ht; try done). simplify_eq. simpl.
  split_and!; auto.
Qed.

Lemma quotes_unlogged f f' : unlogged f f' -> quotes_ok f -> quotes_ok f'.
Proof. intros [Hl Hb] [H0' H1 H2]. split; rewrite ?Hl, ?Hb; auto. Qed.

(** Appending to the log. *)
Lemma quotes_snoc f f' x :
  fd_bbo f' = fd_bbo f -> fd_log f' = fd_log f ++ [x] ->
  (forall q, x = LData (DQuote q) -> quote_from (messages (drop n0 (fd_log f))) q) ->
  quotes_ok f -> quotes_ok f'.
Proof.
  intros Hb Hl Hq [H0' H1 H2]. split; rewrite ?Hb, Hl.
  - rewrite length_app. lia.
  - intros k st Hk. eapply state_from_mono; [|by apply (H1 k)].
    rewrite messages_snoc by done. set_solver.
  - intros pre q post E. destruct post as [|y post _] using rev_ind.
    + apply app_inj_tail in E as [<- ->]. auto.
    + rewrite app_comm_cons, app_assoc in E. apply app_inj_tail in E as [E _]. eauto.
Qed.

Lemma quotes_log x f :
  match x with LData (DQuote _) => False | _ => True end ->
  quotes_ok f -> quotes_ok (log_entry x f).
Proof. intros Hx. apply (quotes_snoc f _ x); [done..|]. by intros q ->. Qed.

Lemma quotes_quote q f :
  quote_from (messages (drop n0 (fd_log f))) q -> quotes_ok f ->
  quotes_ok (log_entry (LData (DQuote q)) f).
Proof. intros Hq. apply (quotes_snoc f _ (LData (DQuote q))); [done..|]. by intros ? [= <-]. Qed.

Lemma quotes_reset f : quotes_ok f -> quotes_ok (reset_md f).2.
Proof. intros [H0' H1 H2]. split; simpl; [done|apply map_Forall_empty|done]. Qed.

#[local] Abbreviation keeps_quotes := (preserves (keeping quotes_ok)).

Lemma quotes_of_unlogged {A} (m : M Feed A) : preserves unlogged m -> keeps_quotes m.
Proof. intros Hm f. unfold keeping. by apply quotes_unlogged. Qed.

Lemma quotes_handle d :
  match d with DQuote _ => False | _ => True end -> keeps_quotes (handle_data d).
Proof. intros Hd f. unfold keeping. simpl. apply quotes_log. by destruct d. Qed.

#[local] Hint Extern 1 (preserves _ (handle_data _)) => apply quotes_handle; exact I : preserve.
#[local] Hint Extern 2 (preserves (keeping quotes_ok) _) =>
  solve [apply quotes_of_unlogged; auto with preserve typeclass_instances] : preserve.

Lemma quotes_trade d ts_init : keeps_quotes (dispatch_trade d ts_init).
Proof. unfold dispatch_trade. preserve. Qed.

Lemma quotes_book e ts_init : keeps_quotes (dispatch_book e ts_init).
Proof. unfold dispatch_book. preserve. Qed.

Lemma quotes_time_bar d ts_init : keeps_quotes (dispatch_time_bar d ts_init).
Proof.
  unfold dispatch_time_bar, dispatch_one_bar.
  preserve; by apply quotes_of_unlogged, preserves_modify.
Qed.

(** The quote branch, once its message is on record. *)
Lemma quotes_bbo d ts_init f :
  last (messages (drop n0 (fd_log f))) = Some d -> is_str (dget d "type") "bbo" = true ->
  quotes_ok f -> quotes_ok (dispatch_bbo d ts_init f).2.
Proof.
  intros Hl Hbbo Hok. assert (Hd : d ∈ messages (drop n0 (fd_log f))) by (by apply last_Some_elem_of). unfold dispatch_bbo. destruct (negb _); [done|].
  unfold mbind, M_bind at 1. unfold on_bbo.
  set (st := default ∅ (fd_bbo f !! bbo_key d)).
  assert (Hst : state_from (messages (drop n0 (fd_log f))) (bbo_key d) st).
  { subst st. destruct (fd_bbo f !! bbo_key d) as [st|] eqn:E; simpl;
      [by apply (qo_state f Hok (bbo_key d))|]. by split; left. }
  pose proof (bbo_to_fields_keeps _ d Hd Hbbo st Hst) as Hst'.
  destruct (bbo_to_fields d st) as [r st'] eqn:Eb. simpl in Hst'.
  set (f1 := put_bbo _ f).
  assert (Hok1 : quotes_ok f1).
  { destruct Hok as [H0' H1 H2]. split; simpl; [done| |done]. by apply map_Forall_insert_2. }
  destruct r as [[fields|]|e]; [|apply (quotes_of_unlogged _ (unlogged_skip _) f1 Hok1)|done].
  assert (Hq : quote_of st' = Ok (Some fields) /\ dget st' "symbol" = VStr (py_str (dget d "symbol"))).
  { unfold bbo_to_fields, mbind, M_bind, get, lift in Eb.
    destruct (merge_message d st) as [[[]|] st1] eqn:Em; [|done]. injection Eb as Eq <-.
    split; [done|]. by apply (merge_message_symbol d st). }
  destruct Hq as [Hq Hsym].
  run_monad. destruct (instrument_id_from_str _) as [id|]; [|done].
  destruct (price_precision id f1) as [[prec|] f3] eqn:Ep;
    pose proof (unlogged_precision id f1) as Hu; rewrite Ep in Hu; simpl in Hu;
    pose proof (quotes_unlogged _ _ Hu Hok1) as Hok3; [|done].
  destruct (fields_to_quote_tick fields ts_init (Some prec)) as [q|] eqn:Et; [|done]. simpl.
  apply quotes_quote; [|done]. destruct Hu as [-> _]. simpl.
  by eapply quote_fields_from.
Qed.

Lemma quotes_dispatch e : keeps_quotes (dispatch_event e).
Proof.
  intros f Hok. unfold dispatch_event. unfold mbind, M_bind, modify, ask.
  set (f1 := next_feed_call (log_entry (LEvent e) f)).
  assert (Hok1 : quotes_ok f1).
  { apply (quotes_unlogged (log_entry (LEvent e) f)); [done|]. by apply quotes_log. }
  assert (Hin : last (messages (drop n0 (fd_log f1))) = Some (be_scalars e)).
  { simpl. rewrite messages_snoc by apply Hok. apply last_snoc. }
  set (ts := fe_clock env _).
  assert (Hbody : quotes_ok (dispatch_body e ts f1).2).
  { unfold dispatch_body.
    destruct (is_str _ "last_trade"); [by apply quotes_trade|].
    destruct (is_str _ "bbo") eqn:Eb; [by apply quotes_bbo|].
    destruct (is_str _ "order_book"); [by apply quotes_book|].
    destruct (is_str _ "time_bar"); [by apply quotes_time_bar|done]. }
  unfold catchM. destruct (dispatch_body e ts f1) as [[[]|exc] f2]; simpl in *; [done|].
  destruct (is_convert_error exc); [|done].
  by apply (quotes_of_unlogged _ (unlogged_skip _) f2).
Qed.

Lemma quotes_cstep f f' : cstep f f' -> quotes_ok f -> quotes_ok f'.
Proof.
  destruct 1 as [f|e f|f|A m f|g gen t c f|g f|i f|i f|r rows s x f|r f]; intros Hok.
  - by apply (quotes_unlogged f).
  - by apply quotes_dispatch.
  - by apply quotes_reset.
  - unfold on_subs. destruct (m _) as [r x]. destruct Hok as [H0' H1 H2]. split; simpl; [done| |done].
    intros k st [Hk _]%map_lookup_filter_Some. by apply (H1 k).
  - by apply (quotes_unlogged f).
  - by apply (quotes_unlogged f).
  - assert (Hl : keeps_quotes (load_instrument i)); [|exact (Hl f Hok)].
    unfold load_instrument. preserve. by apply quotes_of_unlogged, preserves_modify.
  - by apply quotes_log.
  - assert (Ha : keeps_quotes (convert_and_answer r rows s x)); [|exact (Ha f Hok)].
    unfold convert_and_answer, answer_ticks.
    assert (keeps_quotes (converted_ticks r rows s x))
      by apply quotes_of_unlogged, unlogged_converted.
    preserve.
  - by apply quotes_log.
Qed.

Lemma quotes_csteps f f' : csteps f f' -> quotes_ok f -> quotes_ok f'.
Proof. induction 1 as [|f1 f2 f3 Hs _ IH]; [done|]. intros Hf. by eapply IH, quotes_cstep. Qed.
End Since.

(** ** The log only grows *)

Definition log_grows (f f' : Feed) : Prop := (length (fd_log f) <= length (fd_log f'))%nat.

#[local] Instance log_grows_preorder : PreOrder log_grows.
Proof. unfold log_grows. split; [intros ?; lia|intros ? ? ?; lia]. Qed.

#[local] Abbreviation grows := (preserves log_grows).

Lemma unlogged_grows {A} (m : M Feed A) : preserves unlogged m -> grows m.
Proof. intros Hm f. destruct (Hm f) as [El _]. unfold log_grows. by rewrite El. Qed.

Lemma handle_grows d : grows (handle_data d).
Proof. intros f. unfold log_grows. simpl. rewrite length_app. lia. Qed.

#[local] Hint Resolve handle_grows : preserve.
#[local] Hint Extern 2 (preserves log_grows _) =>
  solve [apply unlogged_grows; auto with preserve typeclass_instances] : preserve.

Lemma on_bbo_grows {A} k (m : M pydict A) : grows (on_bbo k m).
Proof. intros f. unfold on_bbo. destruct (m _). unfold log_grows. simpl. lia. Qed.
#[local] Hint Resolve on_bbo_grows : preserve.

Lemma dispatch_grows e : grows (dispatch_event e).
Proof.
  unfold dispatch_event, dispatch_body, dispatch_trade, dispatch_bbo, dispatch_book,
    dispatch_time_bar, dispatch_one_bar.
  preserve; try (by apply unlogged_grows, preserves_modify).
  intros f. unfold log_grows. simpl. rewrite length_app. lia.
Qed.

Lemma cstep_grows f f' : cstep f f' -> log_grows f f'.
Proof.
  destruct 1 as [f|e f|f|A m f|g gen t c f|g f|i f|i f|r rows s x f|r f]; try (unfold log_grows; done).
  - apply dispatch_grows.
  - unfold on_subs, log_grows. by destruct (m _).
  - assert (Hl : grows (load_instrument i)); [|exact (Hl f)].
    unfold load_instrument. preserve. by apply unlogged_grows, preserves_modify.
  - unfold log_grows. simpl. rewrite length_app. lia.
  - assert (Ha : grows (convert_and_answer r rows s x)); [|exact (Ha f)].
    unfold convert_and_answer, answer_ticks.
    assert (grows (converted_ticks r rows s x)) by apply unlogged_grows, unlogged_converted.
    preserve.
  - apply handle_grows.
Qed.

Lemma csteps_grows f f' : csteps f f' -> log_grows f f'.
Proof. induction 1 as [|f1 f2 f3 Hs _ IH]; [done|]. etransitivity; [by apply cstep_grows|done]. Qed.

(** ** What every run of the client keeps *)

(** (C22) Over any interleaving of the client's steps from a fresh start, the trade
    ids of everything given to the engine, live ticks and history answers
    together, are pairwise distinct. *)
Theorem trade_ids_distinct f f' :
  fd_log f = [] -> 0 <= fd_seq f -> csteps f f' -> NoDup (logged_ids (fd_log f')).
Proof.
  intros Hl Hs Hrun.
  assert (Hok : ids_ok f) by (split; rewrite ?Hl; [done|constructor|constructor]).
  clear Hl Hs. induction Hrun as [f|f1 f2 f3 Hstep _ IH]; [apply Hok|].
  apply IH. by eapply ids_cstep.
Qed.

(** *** Where the client starts over *)

Inductive Restart :=
  | GapEvent (e : BookEvent) (backoff : Z)      (* a gap read off a stream *)
  | Reconnected                                 (* [_connect] *)
  | ResumedTransport.                           (* [_reconcile_md_after_resumed] *)

Definition start_over (t : Restart) : M Feed unit :=
  match t with
  | GapEvent e backoff => handle_batch [e] backoff ;; mret tt
  | Reconnected => feed_connect
  | ResumedTransport => reconcile_md_after_resumed
  end.

(** A gap resyncs by itself unless another resync ends while it waits for the
    lock. *)
Definition undisturbed (t : Restart) (s : Feed) : Prop :=
  match t with
  | GapEvent e _ =>
      is_str (dget (be_scalars e) "type") "gap" = true
      /\ fd_generation (fe_interleave env (fd_calls s) (next_feed_call s)) = fd_generation s
  | _ => True
  end.

Section Restart.
Hypothesis Hother : forall n f, csteps f (fe_interleave env n f).

(** Somewhere after [s] the quote state was empty, and only steps of the client
    lie between there and [s']. *)
Definition cleared (s s' : Feed) : Prop :=
  exists sc, fd_bbo sc = ∅ /\ log_grows s sc /\ csteps sc s'.

Lemma cleared_later s s' s'' : cleared s s' -> csteps s' s'' -> cleared s s''.
Proof. intros (sc & ? & ? & ?) ?. exists sc. split_and!; [done..|]. by etransitivity. Qed.

Lemma resync_clears s :
  fd_generation (fe_interleave env (fd_calls s) (next_feed_call s)) = fd_generation s ->
  cleared s (resync_ticker_subscription s).2.
Proof.
  intros Hg. unfold resync_ticker_subscription.
  change ((gets fd_generation ≫= ?f) s) with (f (fd_generation s) s). cbv beta.
  change ((suspend ≫= ?f) s) with (f tt (fe_interleave env (fd_calls s) (next_feed_call s))).
  cbv beta. set (s1 := fe_interleave env _ _) in *.
  change ((get ≫= ?f) s1) with (f s1 s1). cbv beta. rewrite Hg, Z.eqb_refl. cbn [negb].
  change ((reset_md ≫= ?f) s1) with (f tt (reset_md s1).2). cbv beta.
  set (sc := (reset_md s1).2).
  match goal with |- cleared s (?m sc).2 => assert (Hm : preserves csteps m) end.
  { pose proof (fun x => runs_replay Hother x). pose proof runs_generation. preserve. }
  exists sc. split_and!; [done| |apply Hm].
  assert (Hs1 : csteps s s1) by (eapply rtc_l; [apply CAsk|apply Hother]).
  exact (csteps_grows _ _ Hs1).
Qed.

Lemma gap_clears e b s :
  undisturbed (GapEvent e b) s -> cleared s (start_over (GapEvent e b) s).2.
Proof.
  intros [Hgap Hg]. simpl. rewrite Hgap.
  assert (Hr : cleared s (resync_channel b s).2).
  { unfold resync_channel. unfold mbind at 1, M_bind at 1, catchM, mbind at 1, M_bind at 1.
    pose proof (resync_clears s Hg) as Hc.
    destruct (resync_ticker_subscription s) as [[[]|x] s1]; simpl in Hc |- *;
      (eapply cleared_later; [exact Hc|]; eapply rtc_l; [apply CAsk|apply Hother]). }
  unfold mbind, M_bind. by destruct (resync_channel b s) as [[?|?] s1].
Qed.

Lemma connect_clears s s' : feed_connect s = (Ok tt, s') -> cleared s s'.
Proof.
  unfold feed_connect, mbind, M_bind. intros E.
  pose proof (runs_call Hother (fe_connect env) s) as R1.
  destruct (call (fe_connect env) s) as [[[]|] s1]; [|done].
  pose proof (runs_call Hother (fe_instruments env) s1) as R2.
  destruct (call (fe_instruments env) s1) as [[is_|] s2]; [|done].
  assert (R3 : csteps s2 (forM_ is_ load_instrument s2).2).
  { assert (Hl : preserves csteps (forM_ is_ load_instrument)); [|exact (Hl s2)].
    pose proof runs_load. preserve. }
  destruct (forM_ is_ load_instrument s2) as [[[]|] s3]; [|done]. cbn [get] in E.
  pose proof (runs_replay Hother (fd_subs s3) s3) as R4.
  destruct (replay_intents (fd_subs s3) s3) as [[[]|] s4]; [|done]. simpl in *.
  assert (Hlog : log_grows s s4).
  { apply csteps_grows. do 3 (etransitivity; [eassumption|]). done. }
  assert (Hb : fd_bbo s' = ∅ /\ fd_log s' = fd_log s4).
  { revert E. unfold whenM, ensure_history_poll_task. run_monad.
    destruct (has_bars _); by intros [= <-]. }
  destruct Hb as [Hb Hl]. exists s'. split_and!; [done| |done]. unfold log_grows in *. by rewrite Hl.
Qed.

Lemma start_over_clears t s s' : undisturbed t s -> start_over t s = (Ok tt, s') -> cleared s s'.
Proof.
  destruct t as [e b| |]; intros Hu E.
  - pose proof (gap_clears e b s Hu) as Hc. by rewrite E in Hc.
  - by apply connect_clears.
  - assert (Hb : fd_bbo s' = ∅ /\ fd_log s' = fd_log s).
    { revert E. simpl. unfold reconcile_md_after_resumed, reset_md, whenM, ensure_history_poll_task.
      run_monad. case_match; by intros [= <-]. }
    destruct Hb as [Hb Hl]. exists s'. split_and!; [done| |done]. unfold log_grows. by rewrite Hl.
Qed.

End Restart.

(** ** The poll loops end as they should *)

Definition backoff_ok (b : Z) : Prop := 50 <= b <= 2000.

Lemma double_backoff_ok b : backoff_ok b -> backoff_ok (double_backoff b).
Proof. unfold backoff_ok, double_backoff. lia. Qed.

Lemma ends_suspend : ends suspend (fun _ _ => True).
Proof. intros s. by eexists _, _. Qed.

Lemma ends_ask {A} (q : nat -> A) : ends (ask q) (fun _ _ => True).
Proof. intros s. by eexists _, _. Qed.

Lemma ends_skip reason : ends (count_skip reason) (fun _ _ => True).
Proof.
  intros s. unfold count_skip, ask. run_monad. case_scrut; by eexists _, _.
Qed.

Lemma ends_dispatch e : ends (dispatch_event e) (fun _ _ => True).
Proof.
  unfold dispatch_event. intros s. unfold mbind, M_bind, modify, ask. cbv beta iota.
  match goal with |- context [catchM _ ?m ?h ?s1] =>
    destruct (ends_catch m h (fun _ _ => True)) with (s := s1) as (a & s' & E & _) end.
  - done.
  - intros exc. case_match; [apply ends_skip|by apply ends_ret].
  - rewrite E. by eexists _, _.
Qed.

Lemma ends_resync b : backoff_ok b -> ends (resync_channel b) (fun b' _ => backoff_ok b').
Proof.
  intros Hb. unfold resync_channel.
  apply (ends_bind _ _ (fun b' _ => backoff_ok b')).
  - apply ends_catch.
    + intros s a s'. unfold mbind, M_bind, mret, M_ret.
      destruct (resync_ticker_subscription s) as [[]]; [|done]. intros [= <- _].
      unfold backoff_ok, INITIAL_BACKOFF. lia.
    + intros e. apply ends_ret. intros _. by apply double_backoff_ok.
  - intros b' s Hb'. by eexists _, _.
Qed.

Lemma ends_batch events : forall b, backoff_ok b ->
  ends (handle_batch events b) (fun b' _ => backoff_ok b').
Proof.
  induction events as [|e events IH]; intros b Hb; simpl; [by apply ends_ret|].
  destruct (is_str _ "gap").
  - apply (ends_bind _ _ (fun b' _ => backoff_ok b')); [by apply ends_resync|].
    intros b' s Hb'. by apply IH.
  - apply (ends_bind _ _ (fun _ _ => True)); [apply ends_dispatch|].
    intros [] s _. by apply IH.
Qed.

(** How a turn may come out: a back-off within bounds, or a stop on a terminal
    session error. *)
Definition turn_ok (stream : string) (r : option Z) : Prop :=
  match r with
  | Some b => backoff_ok b
  | None => exists n e, fe_next_events env n stream = Raise e /\ is_terminal_poll_error e = true
  end.

Lemma ends_turn stream sp b :
  backoff_ok b -> ends (poll_turn stream sp b) (fun r _ => turn_ok stream r).
Proof.
  intros Hb s. unfold poll_turn, mbind, M_bind at 1, get.
  destruct (match sp with Some p => _ | None => _ end).
  { by eexists _, _. }
  unfold catchM, call, suspend, ask, lift, mbind, M_bind. cbv beta iota.
  set (s1 := fe_interleave env _ _).
  destruct (fe_next_events env (fd_calls s1) stream) as [events|e] eqn:E; cbn [mret M_ret any_exn].
  - destruct (ends_batch events INITIAL_BACKOFF ltac:(unfold backoff_ok, INITIAL_BACKOFF; lia)
      (next_feed_call s1)) as (b' & s' & Eb & Hb').
    rewrite Eb. by eexists _, _.
  - destruct (is_terminal_poll_error e) eqn:Et.
    + eexists _, _. split; [reflexivity|]. simpl. eauto.
    + eexists _, _. split; [reflexivity|]. by apply double_backoff_ok.
Qed.

(** (C23) However many turns it is given and whatever the session answers, a poll
    loop does not raise: bad events, failed resyncs and transient errors are
    survived with a back-off between 50 ms and 2 s, and it returns only after
    the session answered with a terminal error. *)
Theorem poll_loop_stops_on_terminal turns stream sp b :
  backoff_ok b -> ends (poll_channel_loop turns stream sp b) (fun r _ => turn_ok stream r).
Proof.
  revert b. induction turns as [|turns IH]; intros b Hb; simpl; [by apply ends_ret|].
  apply (ends_bind _ _ (fun r _ => turn_ok stream r)); [by apply ends_turn|].
  intros [b'|] s Hr; [by apply IH|by eexists _, _].
Qed.

(** A terminal answer does stop it. *)
Lemma poll_turn_terminal stream sp b s e s' :
  match sp with Some p => p s = true | None => True end ->
  call (fun n => fe_next_events env n stream) s = (Raise e, s') ->
  is_terminal_poll_error e = true -> poll_turn stream sp b s = (Ok None, s').
Proof.
  intros Hsp Hc Ht. unfold poll_turn, mbind, M_bind at 1, get.
  assert (match sp with Some p => negb (p s) | None => false end = false) as ->.
  { destruct sp; [by rewrite Hsp|done]. }
  unfold catchM, mbind, M_bind. rewrite Hc. cbn [any_exn mret M_ret]. by rewrite Ht.
Qed.

(** ** Connect and recovery start clean *)

Lemma reset_clean s : fd_bbo (reset_md s).2 = ∅ /\ fd_books (reset_md s).2 = ∅.
Proof. done. Qed.

Lemma connect_clean s s' :
  feed_connect s = (Ok tt, s') ->
  fd_bbo s' = ∅ /\ fd_books s' = ∅ /\ fd_poll_task s' = true /\ fd_poll_closing s' = false /\
  (has_bars s' = true -> su_history_poll (fd_subs s') = true).
Proof.
  unfold feed_connect, mbind, M_bind. intros E.
  destruct (call (fe_connect env) s) as [[[]|] s1]; [|done].
  destruct (call (fe_instruments env) s1) as [[is_|] s2]; [|done].
  destruct (forM_ is_ load_instrument s2) as [[[]|] s3]; [|done]. cbn [get] in E.
  destruct (replay_intents (fd_subs s3) s3) as [[[]|] s4]; [|done].
  unfold reset_md, modify, get, whenM, ensure_history_poll_task in E. cbv beta iota in E.
  set (s5 := put_pending ∅ _) in E.
  destruct (has_bars s5) eqn:Eb; injection E as <-; simpl;
    (split_and!; [done..|try done]).
  intros Hb. unfold has_bars in *. simpl in *. congruence.
Qed.
End Feed.

(** ** A concrete client *)

Module FeedSample.
#[local] Existing Instance PlainTypes.

Definition mnq : Instrument :=
  MkInstrument mnq_id 2 (f64_of_decimal false 25 (-2))
    (dict_of [("rithmic_symbol", VStr "MNQZ6"); ("rithmic_exchange", VStr "CME")]).

Definition cache : MapCache := MkMapCache [] ∅ ∅ {[mnq_id := mnq]} [].

Definition closed_session : exn := Exn ExNotConnected None "session closed".

(** The venue answers one poll with a batch and then closes. *)
Definition env (batch : list BookEvent) : FeedEnv MapCache := {|
  fe_clock := fun n => Z.of_nat n;
  fe_monotonic := fun n => f64_of_decimal false (N.of_nat n) 0;
  fe_cache := fun _ => cache;
  fe_connect := fun _ => Ok tt;
  fe_instruments := fun _ => Ok [mnq];
  fe_subscribe := fun _ _ => Ok tt;
  fe_next_events := fun n _ => if bool_decide (n <= 1)%nat then Ok batch else Raise closed_session;
  fe_load_ticks := fun _ _ _ _ _ => Ok [];
  fe_disconnect := fun _ => Ok tt;
  fe_interleave := fun _ f => f
|}.

Definition event (fields : list (string * pyval)) : BookEvent :=
  MkBook (dict_of ([("symbol", VStr "MNQZ6"); ("exchange", VStr "CME"); ("ssboe", VInt 7)] ++ fields))
    CAbsent CAbsent CAbsent CAbsent.

Definition print : BookEvent :=
  event [("type", VStr "last_trade"); ("trade_price", VInt 21000); ("trade_size", VInt 2);
         ("aggressor", VInt 1)].
Definition bid : BookEvent :=
  event [("type", VStr "bbo"); ("bid_price", VInt 21000); ("bid_size", VInt 3)].
Definition ask_side : BookEvent :=
  event [("type", VStr "bbo"); ("ask_price", VInt 21001); ("ask_size", VInt 4)].
Definition gap : BookEvent := event [("type", VStr "gap"); ("skipped", VInt 9)].

Definition fresh : Feed :=
  MkFeed fresh_subs ∅ ∅ [] ∅ (S754_zero false) 1 0 false false 0 [].

Definition batch : list BookEvent := [print; print; bid; ask_side; gap; bid].

(** The same print twice, both sides of the quote, a gap, then one side. *)
Definition after : Feed := (poll_loop 1 2 false (env batch) 2 fresh).2.

Definition ticks_out (l : list Entry) : list (string + (Z * Z)) :=
  l ≫= fun x => match x with
                | LData (DTrade t) => [inl (tt_id t)]
                | LData (DQuote q) => [inr (px_raw (qt_bid q), px_raw (qt_ask q))]
                | _ => []
                end.

Example after_ticks :
  ticks_out (fd_log after) = [inl "7000000000-1"; inl "7000000000-2"; inr (2100000, 2100100)].
Proof. vm_compute. reflexivity. Qed.

Lemma after_runs : csteps 1 2 false (env batch) fresh after.
Proof. apply runs_poll. intros n f. apply rtc_refl. Qed.

Lemma trade_ids_distinct_witness :
  NoDup (logged_ids (fd_log after)) /\
  logged_ids (fd_log after) = ["7000000000-1"; "7000000000-2"].
Proof.
  split; [|vm_compute; reflexivity].
  apply (trade_ids_distinct 1 2 false (env batch) fresh after); [reflexivity|done|].
  apply after_runs.
Defined.

(** A bid, then a gap; after it an ask and a new bid. *)
Definition late_bid : BookEvent :=
  event [("type", VStr "bbo"); ("bid_price", VInt 20990); ("bid_size", VInt 1)].

Definition broken : Feed := (handle_batch 1 2 false (env []) [bid] INITIAL_BACKOFF fresh).2.
Definition restarted : Feed :=
  (start_over 1 2 false (env []) (GapEvent gap INITIAL_BACKOFF) broken).2.
Definition resumed : Feed :=
  (handle_batch 1 2 false (env []) [ask_side; late_bid] INITIAL_BACKOFF restarted).2.

Definition before_quote : list Entry := take (length (fd_log resumed) - 1) (fd_log resumed).
Definition the_quote : QuoteTick :=
  match last (fd_log resumed) with
  | Some (LData (DQuote q)) => q
  | _ => MkQuoteTick mnq_id (MkPrice 0 2) (MkPrice 0 2) 0 0 0 0
  end.

Lemma resumed_runs : csteps 1 2 false (env []) restarted resumed.
Proof. apply runs_batch. intros n f. apply rtc_refl. Qed.


(** A resync that another stream's gap started has cleared the quotes and is
    re-issuing intents; a bid arrives, then a gap on this stream.  It waits for the
    lock, finds the generation moved and does not reset: the ask after the gap is
    quoted with the bid from before it. *)
Definition other_resync_ends : FeedEnv MapCache := {|
  fe_clock := fun n => Z.of_nat n;
  fe_monotonic := fun n => f64_of_decimal false (N.of_nat n) 0;
  fe_cache := fun _ => cache;
  fe_connect := fun _ => Ok tt;
  fe_instruments := fun _ => Ok [mnq];
  fe_subscribe := fun _ _ => Ok tt;
  fe_next_events := fun _ _ => Ok [];
  fe_load_ticks := fun _ _ _ _ _ => Ok [];
  fe_disconnect := fun _ => Ok tt;
  fe_interleave := fun _ f => set_generation (fd_generation f + 1) f
|}.

Lemma coalesced_gap_keeps_old_side :
  ticks_out (fd_log (handle_batch 1 2 false other_resync_ends [bid; gap; ask_side]
                       INITIAL_BACKOFF fresh).2) = [inr (2100000, 2100100)] /\
  ticks_out (fd_log (handle_batch 1 2 false (env []) [bid; gap; ask_side]
                       INITIAL_BACKOFF fresh).2) = [].
Proof. split; vm_compute; reflexivity. Qed.

Lemma poll_loop_stops_on_terminal_witness :
  ends (poll_channel_loop 1 2 false (env batch) 5 "ticker" None INITIAL_BACKOFF)
    (fun r _ => turn_ok (env batch) "ticker" r) /\
  (poll_channel_loop 1 2 false (env batch) 5 "ticker" None INITIAL_BACKOFF fresh).1 = Ok None.
Proof.
  split; [|vm_compute; reflexivity].
  apply (poll_loop_stops_on_terminal 1 2 false (env batch) 5 "ticker" None INITIAL_BACKOFF).
  unfold backoff_ok, INITIAL_BACKOFF. lia.
Defined.

End FeedSample.
