(* ===== verification/Clients.v ===== *)
(** * Construction of the clients

    The constructors of the execution and the data client ([execution.py],
    [data.py]): the state each starts from, the exposure endpoint on the node's
    message bus and who answers it, how each client wires the recovery bridge, and
    the waits a history request reads from the environment.  The invariants the
    other files prove of every step start here. *)

From Stdlib Require Import Ascii String SpecFloat.
From stdpp Require Import base gmap strings list.
From Stdlib Require Import ZArith Lia.
From S2P Require Import Prelude PyVal Book Bars Subscriptions Config Ticks Feed Recovery Plant Lru Ident Nautilus Orders OrderRows Commission Host Convert Drain Intake Exposure Commands.
Import Text.
Open Scope string_scope.
Open Scope list_scope.
Open Scope Z_scope.

(** ** The execution client *)

Definition MAX_SEEN_FILL_KEYS : nat := Z.to_nat 10000.
Definition EXPOSURE_ENDPOINT : string := "RithmicExecutionClient.request_exposure".

(** [RithmicExecutionClient.__init__]: what it is told (the configuration, what
    the session can do) and an empty everything else. *)
Definition exec_init {C} (enable_trading soft_fail_pnl : bool) (account_id : option string)
  (cancel_all_env : option string) (brackets session_trading : bool) (cache : C) : Host C :=
  MkHost (MkConfig enable_trading soft_fail_pnl account_id (env_truthy cancel_all_env false)
            brackets session_trading)
    cache Disconnected (MkAccount None false None None)
    (MkPnl false false None 0 [] ∅ ∅)
    (MkStores (fds_new MAX_SEEN_FILL_KEYS) (usb_new MAX_SEEN_FILL_KEYS))
    ct_new (MkTasks false false) 0 0 [].

(** ** The message bus of a node

    An endpoint has one handler; registering a taken one is an error of
    NautilusTrader, so the constructor looks first. *)
Record Node (C : Type) := MkNode {
  nd_endpoints : gmap string nat;   (* endpoint to the client that answers it *)
  nd_clients : list (Host C)
}.
Arguments MkNode {C} _ _.
Arguments nd_endpoints {C} _.
Arguments nd_clients {C} _.

Definition register (endpoint : string) (client : nat) (bus : gmap string nat) : res (gmap string nat) :=
  match bus !! endpoint with
  | Some _ => Raise (Exn ExKey None endpoint)
  | None => Ok (<[endpoint := client]> bus)
  end.

Definition add_exec_client {C} (h : Host C) (n : Node C) : res (Node C) :=
  let id := length (nd_clients n) in
  bus ← (if bool_decide (is_Some (nd_endpoints n !! EXPOSURE_ENDPOINT)) then mret (nd_endpoints n)
         else register EXPOSURE_ENDPOINT id (nd_endpoints n));
  mret (MkNode bus (nd_clients n ++ [h])).

Section Answer.
Context {C : Type} `{CacheOps C} `{NautilusTypes}.
Variable env : Env C.

(** [_on_exposure_request], and the task it creates run to its end. *)
Definition on_exposure_request (root : string) (h : Host C) : Host C := (request_exposure env root h).2.

(** A message sent to the endpoint. *)
Definition send_exposure_request (root : string) (n : Node C) : res (Node C) :=
  match nd_endpoints n !! EXPOSURE_ENDPOINT with
  | None => Raise (Exn ExKey None EXPOSURE_ENDPOINT)
  | Some id => Ok (MkNode (nd_endpoints n) (alter (on_exposure_request root) id (nd_clients n)))
  end.
End Answer.

(** ** The data client *)

(** [RithmicDataClient.__init__]; the trade-id counter is the module's and goes
    on from whatever earlier clients left. *)
Definition data_init (trade_id_seq : Z) : Feed :=
  MkFeed (MkSubs ∅ ∅ ∅ ∅ 0 ∅ ∅ ∅ false ∅) ∅ ∅ [] ∅ (S754_zero false) trade_id_seq 0 false false 0 [].

(** ** Recovery wiring

    Both clients build the same bridge; what differs is whether a hook is given. *)
Record Wiring := MkWiring {
  wi_label : string;
  wi_task_name : string;
  wi_latch_now : bool;            (* [latch_now] closes the order path at once *)
  wi_handlers_latch : bool;       (* [on_down] and [on_failed] latch *)
  wi_attempt_latch : bool;        (* [on_attempt_failed] latches *)
  wi_max_attempts : nat
}.

Definition exec_build_recovery : Wiring :=
  MkWiring "L3 plant restore" "rithmic_l3_plant_restore" true true true 5.
Definition data_build_recovery : Wiring :=
  MkWiring "MD reconciliation" "rithmic_md_reconcile" false false false 5.

Definition latch_if (yes : bool) (b : Bridge) : Bridge :=
  if yes then set_plant (latch (rb_plant b)) b else b.

(** The bridge of [recovery_bridge.py] with the hooks as given. *)
Definition wired_stop_restore (w : Wiring) (b : Bridge) : Bridge :=
  latch_if (wi_handlers_latch w)
    (MkBridge (rb_attached b) (rb_loop b) (rb_queue b) 0 (rb_last b) None (rb_plant b) 0 (rb_given_up b)).

Definition wired_on_event (w : Wiring) (e : SessionEvent) (b : Bridge) : Bridge :=
  if negb (rb_attached b) then b
  else
    match e with
    | Interrupted | RecoveryFailed =>
        let b1 := latch_if (wi_latch_now w) b in
        if rb_loop b1 then set_queue (rb_queue b1 ++ [StopRestore]) b1 else wired_stop_restore w b1
    | Resumed g => schedule g b
    end.

Definition wired_run_callback (w : Wiring) (b : Bridge) : Bridge :=
  match rb_queue b with
  | [] => b
  | StopRestore :: q => wired_stop_restore w (set_queue q b)
  | Start g :: q => start g (set_queue q b)
  end.

(** The execution client's [restore] re-arms the plant when it returns; the data
    client's has no plant. *)
Definition wired_attempt_ends (w : Wiring) (rearms ok : bool) (b : Bridge) : Bridge :=
  match rb_task b with
  | None => b
  | Some (g, n) =>
      if ok then next_generation g (set_last g (if rearms then set_plant Live b else b))
      else
        let b1 := latch_if (wi_attempt_latch w) b in
        if (n <? wi_max_attempts w)%nat then set_task (Some (g, S n)) b1
        else next_generation g (give_up_on g b1)
  end.

Definition wired_step (w : Wiring) (rearms : bool) (b : Bridge) (s : BridgeStep) : Bridge :=
  match s with
  | DoEvent e => wired_on_event w e b
  | DoCallback => wired_run_callback w b
  | DoAttempt ok => wired_attempt_ends w rearms ok b
  | DoAttach => attach b
  | DoDetach => detach b
  end.

(** ** Waits of a history request *)

Definition f64_dec (m : N) (e : Z) : f64 := f64_of_decimal false m e.

(** [max(low, x)] of Python: the first unless the second is greater. *)
Definition py_max (low x : f64) : f64 := if SFltb low x then x else low.

Definition env_seconds (name dflt : string) (low fallback : f64) (env : gmap string string) : f64 :=
  match f64_of_str (strip (default dflt (env !! name))) with
  | Some x => py_max low x
  | None => fallback
  end.

Definition history_live_md_wait_sec (env : gmap string string) : f64 :=
  env_seconds "RITHMIC_HISTORY_LIVE_MD_WAIT_SEC" "45" (S754_zero false) (f64_dec 45 0) env.
Definition history_live_md_retry_sec (env : gmap string string) : f64 :=
  env_seconds "RITHMIC_HISTORY_LIVE_MD_RETRY_SEC" "2" (f64_dec 2 (-1)) (f64_dec 2 0) env.

(** ** Facts *)

Section ExecFacts.
Context {C : Type} `{CacheOps C} `{NautilusTypes}.
Variable env : Env C.

(** A client that has not connected refuses every command, holds an empty dedup
    store of the bound its theorems ask for, and proves no exposure. *)
Theorem fresh_exec_client trading soft acct cancel brackets gate (cache : C) :
  let h := exec_init trading soft acct cancel brackets gate cache in
  (forall k, is_Some (command_refusal k h)) /\
  store_ok MAX_SEEN_FILL_KEYS (seen_of h) /\
  pn_live_since_ns (h_pnl h) = None /\ h_out h = [].
Proof.
  cbv zeta. split_and!; [|apply fds_new_ok|done|done].
  intros k. unfold command_refusal. simpl. destruct trading, gate, k; simpl; eauto.
Qed.

(** However many execution clients a node builds, none fails on the endpoint
    being taken, and the first one answers: a later one never takes it over. *)
Theorem first_exec_client_answers (hs : list (Host C)) (n : Node C) owner :
  nd_endpoints n !! EXPOSURE_ENDPOINT = Some owner ->
  exists n', foldl (fun acc h => m ← acc; add_exec_client h m) (Ok n) hs = Ok n' /\
    nd_endpoints n' = nd_endpoints n /\ nd_clients n' = nd_clients n ++ hs.
Proof.
  revert n. induction hs as [|h hs IH]; intros n Hn; simpl.
  - exists n. by rewrite app_nil_r.
  - assert (add_exec_client h n = Ok (MkNode (nd_endpoints n) (nd_clients n ++ [h]))) as ->.
    { unfold add_exec_client. by rewrite bool_decide_eq_true_2 by eauto. }
    destruct (IH (MkNode (nd_endpoints n) (nd_clients n ++ [h])) Hn) as (n' & -> & He & Hc).
    exists n'. simpl in Hc. by rewrite <- app_assoc in Hc.
Qed.

(** An exposure request runs on that client and touches no other. *)
Theorem exposure_request_local root (n n' : Node C) owner :
  nd_endpoints n !! EXPOSURE_ENDPOINT = Some owner ->
  send_exposure_request env root n = Ok n' ->
  nd_clients n' !! owner = on_exposure_request env root <$> (nd_clients n !! owner) /\
  forall i, i <> owner -> nd_clients n' !! i = nd_clients n !! i.
Proof.
  intros Hn. unfold send_exposure_request. rewrite Hn. intros [= <-]. simpl. split.
  - apply list_lookup_alter_eq.
  - intros i Hi. by apply list_lookup_alter_ne.
Qed.
End ExecFacts.

(** The bridge proved in [Recovery] is the one the execution client wires. *)
Theorem exec_wiring_is_bridge b s :
  wired_step exec_build_recovery true b s = bridge_step 5 b s.
Proof. destruct s as [[]| |[]| |]; reflexivity. Qed.

(** The data client's never touches the order plant. *)
Theorem data_wiring_leaves_plant b s :
  rb_plant (wired_step data_build_recovery false b s) = rb_plant b.
Proof.
  destruct s as [e| |ok| |]; simpl; try done.
  - unfold wired_on_event, schedule. destruct (rb_attached b), e; simpl; try done; by destruct (rb_loop b).
  - unfold wired_run_callback. destruct (rb_queue b) as [|[|g] q]; try done. simpl. unfold start. simpl.
    destruct (_ <=? _); [done|]. by destruct (rb_task b).
  - unfold wired_attempt_ends. destruct (rb_task b) as [[g k]|]; [|done]. destruct ok; [done|].
    by destruct (_ <? _)%nat.
Qed.

(** A fresh data client holds nothing: no intent, no book, no bar. *)
Lemma data_init_ok seq : tickers_ok (idle (fd_subs (data_init seq))) /\ fd_log (data_init seq) = [].
Proof. split; [by apply no_tickers_ok|done]. Qed.

(** A wait is never negative and never a NaN, whatever the variable holds. *)
Lemma py_max_low low x : SFleb low low = true -> SFleb low (py_max low x) = true.
Proof.
  intros Hl. unfold py_max, SFltb. destruct (SFcompare low x) as [[]|] eqn:E; try done.
  unfold SFleb. by rewrite E.
Qed.

Theorem history_waits_bounded env :
  SFleb (S754_zero false) (history_live_md_wait_sec env) = true /\
  SFleb (f64_dec 2 (-1)) (history_live_md_retry_sec env) = true.
Proof.
  unfold history_live_md_wait_sec, history_live_md_retry_sec, env_seconds.
  split; (destruct (f64_of_str _); [apply py_max_low|]; vm_compute; reflexivity).
Qed.
