(* ===== verification/Session.v ===== *)
(** * The wire session facade (session.py) and the client factories

    Both connection modes give the clients one surface, [WireSession].  The
    extension behind it ([_lib.Session]) is not Python: a call to it is an
    [Invocation], a method name with its positional arguments, and its answers
    are arguments of the definitions.

    - the direct facade ([_FlockedDirectSession]): one definition per protocol
      gives the call each method makes on the extension;
    - [_connect_once], [create_session] and what each mode hands to the
      extension;
    - the gateway facade ([_RustGatewaySession]): one registration with the
      extension, fanned out to the clients' listeners, refined by a plain list
      of listeners;
    - the factories' choice of session, plants and trading switch. *)

From Stdlib Require Import Ascii String.
From stdpp Require Import base gmap strings list.
From Stdlib Require Import ZArith Lia.
From S2P Require Import Prelude PyVal Redact Ident Config.
Import Text.
Open Scope string_scope.
Open Scope list_scope.
Open Scope Z_scope.

(** ** The protocols *)

Definition Invocation : Type := (string * list pyval)%type.

Definition optz (o : option Z) : pyval := match o with Some z => VInt z | None => VNone end.
Definition optf (o : option f64) : pyval := match o with Some f => VFloat f | None => VNone end.

Inductive TickerCall :=
  | TSubscribe (symbol exchange : string)
  | TUnsubscribe (symbol exchange : string)
  | TSubscribeBook (symbol exchange : string)
  | TUnsubscribeBook (symbol exchange : string)
  | TFrontMonth (symbol exchange : string)
  | TReferenceData (symbol exchange : string)
  | TResolvedAccount
  | TPollEvent (timeout_ms : Z)
  | TNextEvents (stream : string) (max_events timeout_ms : Z)
  | TLoadTicks (symbol exchange : string) (start_ssboe end_ssboe : Z)
  | TLoadTimeBars (symbol exchange : string) (start_ssboe end_ssboe bar_type period : Z)
  | TProbeTimeBars (symbol exchange : string) (start_ssboe end_ssboe bar_type period : Z)
  | TSubscribeBars (symbol exchange : string) (bar_type period : Z)
  | TUnsubscribeBars (symbol exchange : string) (bar_type period : Z)
  | TPollHistoryEvent
  | TRequestPlants (plants : string).

Inductive PnlCall := PSubscribe | PDisconnectPlant | PEnsurePlant | PPollEvent.

Inductive OrderCall :=
  | OSubscribeUpdates | OSubscribeBrackets | ODisconnectPlant | OEnsurePlant
  | OPlace (symbol exchange side price_type : string) (quantity : Z) (user_tag : string)
      (price trigger_price : option f64) (duration : string)
      (trail_by_ticks trail_by_price_id : option Z)
  | OPlaceBracket (symbol exchange side price_type : string) (quantity : Z) (localid : string)
      (price trigger_price : option f64) (duration : string) (stop_ticks target_ticks : option Z)
  | OAdjustStop (basket_id : string) (ticks : Z) (level : option Z)
  | OAdjustTarget (basket_id : string) (ticks : Z) (level : option Z)
  | OCancel (basket_id : string)
  | OModify (basket_id symbol exchange : string) (quantity : Z) (price_type : string)
      (price trigger_price : option f64) (trail_by_ticks : option Z)
  | OCancelAll
  | OLoadOrders (start_ssboe end_ssboe : Z)
  | OProductRms | OAccountRms
  | OFillHistory (start_date finish_date : Z)
  | OHistoryDates
  | OHistory (date : string)
  | OPollEvent.

(** The protocols' own signatures: parameter order of the declared methods. *)
Definition ticker_signature (c : TickerCall) : Invocation :=
  match c with
  | TSubscribe s x => ("subscribe", [VStr s; VStr x])
  | TUnsubscribe s x => ("unsubscribe", [VStr s; VStr x])
  | TSubscribeBook s x => ("subscribe_order_book_summary", [VStr s; VStr x])
  | TUnsubscribeBook s x => ("unsubscribe_order_book_summary", [VStr s; VStr x])
  | TFrontMonth s x => ("get_front_month", [VStr s; VStr x])
  | TReferenceData s x => ("get_reference_data", [VStr s; VStr x])
  | TResolvedAccount => ("resolved_account", [])
  | TPollEvent t => ("poll_event", [VInt t])
  | TNextEvents st n t => ("next_events", [VStr st; VInt n; VInt t])
  | TLoadTicks s x a b => ("load_ticks", [VStr s; VStr x; VInt a; VInt b])
  | TLoadTimeBars s x a b k p => ("load_time_bars", [VStr s; VStr x; VInt a; VInt b; VInt k; VInt p])
  | TProbeTimeBars s x a b k p => ("probe_time_bars", [VStr s; VStr x; VInt a; VInt b; VInt k; VInt p])
  | TSubscribeBars s x k p => ("subscribe_time_bars", [VStr s; VStr x; VInt k; VInt p])
  | TUnsubscribeBars s x k p => ("unsubscribe_time_bars", [VStr s; VStr x; VInt k; VInt p])
  | TPollHistoryEvent => ("poll_history_event", [])
  | TRequestPlants p => ("request_plants", [VStr p])
  end.

Definition pnl_signature (c : PnlCall) : Invocation :=
  match c with
  | PSubscribe => ("subscribe_pnl", [])
  | PDisconnectPlant => ("disconnect_pnl_plant", [])
  | PEnsurePlant => ("ensure_pnl_plant", [])
  | PPollEvent => ("poll_pnl_event", [])
  end.

Definition order_signature (c : OrderCall) : Invocation :=
  match c with
  | OSubscribeUpdates => ("subscribe_order_updates", [])
  | OSubscribeBrackets => ("subscribe_bracket_updates", [])
  | ODisconnectPlant => ("disconnect_order_plant", [])
  | OEnsurePlant => ("ensure_order_plant", [])
  | OPlace s x side pt q tag px tp dur tk tpid =>
      ("place_order", [VStr s; VStr x; VStr side; VStr pt; VInt q; VStr tag; optf px; optf tp;
                       VStr dur; optz tk; optz tpid])
  | OPlaceBracket s x side pt q lid px tp dur st tg =>
      ("place_bracket_order", [VStr s; VStr x; VStr side; VStr pt; VInt q; VStr lid; optf px;
                               optf tp; VStr dur; optz st; optz tg])
  | OAdjustStop b t l => ("adjust_bracket_stop", [VStr b; VInt t; optz l])
  | OAdjustTarget b t l => ("adjust_bracket_target", [VStr b; VInt t; optz l])
  | OCancel b => ("cancel_order", [VStr b])
  | OModify b s x q pt px tp tk =>
      ("modify_order", [VStr b; VStr s; VStr x; VInt q; VStr pt; optf px; optf tp; optz tk])
  | OCancelAll => ("cancel_all_orders", [])
  | OLoadOrders a b => ("load_orders", [VInt a; VInt b])
  | OProductRms => ("load_product_rms_info", [])
  | OAccountRms => ("load_account_rms_info", [])
  | OFillHistory a b => ("load_fill_history", [VInt a; VInt b])
  | OHistoryDates => ("load_order_history_dates", [])
  | OHistory d => ("load_order_history", [VStr d])
  | OPollEvent => ("poll_order_event", [])
  end.

(** ** The direct facade: the call each method makes on the extension *)

Definition forward_ticker (c : TickerCall) : Invocation :=
  match c with
  | TSubscribe s x => ("subscribe", [VStr s; VStr x])
  | TUnsubscribe s x => ("unsubscribe", [VStr s; VStr x])
  | TSubscribeBook s x => ("subscribe_order_book_summary", [VStr s; VStr x])
  | TUnsubscribeBook s x => ("unsubscribe_order_book_summary", [VStr s; VStr x])
  | TFrontMonth s x => ("get_front_month", [VStr s; VStr x])
  | TReferenceData s x => ("get_reference_data", [VStr s; VStr x])
  | TResolvedAccount => ("resolved_account", [])
  | TPollEvent t => ("poll_event", [VInt t])
  | TNextEvents st n t => ("next_events", [VStr st; VInt n; VInt t])
  | TLoadTicks s x a b => ("load_ticks", [VStr s; VStr x; VInt a; VInt b])
  | TLoadTimeBars s x a b k p => ("load_time_bars", [VStr s; VStr x; VInt a; VInt b; VInt k; VInt p])
  | TProbeTimeBars s x a b k p => ("probe_time_bars", [VStr s; VStr x; VInt a; VInt b; VInt k; VInt p])
  | TSubscribeBars s x k p => ("subscribe_time_bars", [VStr s; VStr x; VInt k; VInt p])
  | TUnsubscribeBars s x k p => ("unsubscribe_time_bars", [VStr s; VStr x; VInt k; VInt p])
  | TPollHistoryEvent => ("poll_history_event", [])
  | TRequestPlants p => ("request_plants", [VStr p])
  end.

Definition forward_pnl (c : PnlCall) : Invocation :=
  match c with
  | PSubscribe => ("subscribe_pnl", [])
  | PDisconnectPlant => ("disconnect_pnl_plant", [])
  | PEnsurePlant => ("ensure_pnl_plant", [])
  | PPollEvent => ("poll_pnl_event", [])
  end.

Definition forward_order (c : OrderCall) : Invocation :=
  match c with
  | OSubscribeUpdates => ("subscribe_order_updates", [])
  | OSubscribeBrackets => ("subscribe_bracket_updates", [])
  | ODisconnectPlant => ("disconnect_order_plant", [])
  | OEnsurePlant => ("ensure_order_plant", [])
  | OPlace s x side pt q tag px tp dur tk tpid =>
      ("place_order", [VStr s; VStr x; VStr side; VStr pt; VInt q; VStr tag; optf px; optf tp;
                       VStr dur; optz tk; optz tpid])
  | OPlaceBracket s x side pt q lid px tp dur st tg =>
      ("place_bracket_order", [VStr s; VStr x; VStr side; VStr pt; VInt q; VStr lid; optf px;
                               optf tp; VStr dur; optz st; optz tg])
  | OAdjustStop b t l => ("adjust_bracket_stop", [VStr b; VInt t; optz l])
  | OAdjustTarget b t l => ("adjust_bracket_target", [VStr b; VInt t; optz l])
  | OCancel b => ("cancel_order", [VStr b])
  | OModify b s x q pt px tp tk =>
      ("modify_order", [VStr b; VStr s; VStr x; VInt q; VStr pt; optf px; optf tp; optz tk])
  | OCancelAll => ("cancel_all_orders", [])
  | OLoadOrders a b => ("load_orders", [VInt a; VInt b])
  | OProductRms => ("load_product_rms_info", [])
  | OAccountRms => ("load_account_rms_info", [])
  | OFillHistory a b => ("load_fill_history", [VInt a; VInt b])
  | OHistoryDates => ("load_order_history_dates", [])
  | OHistory d => ("load_order_history", [VStr d])
  | OPollEvent => ("poll_order_event", [])
  end.

(** The facade is transparent: each method passes the protocol's arguments on,
    in the protocol's order. *)
Lemma facade_transparent :
  (forall c, forward_ticker c = ticker_signature c) /\
  (forall c, forward_pnl c = pnl_signature c) /\
  (forall c, forward_order c = order_signature c).
Proof. split_and!; by intros []. Qed.

(** ** Connecting *)

(** [_connect_once]: [reply] is the extension's answer to [connect]. *)
Definition connect_once (reply : res unit) : res unit :=
  catch (fun e => bool_decide (ex_class e = ExAlreadyConnected)) reply (fun _ => Ok tt).

(** ** [create_session] *)

Definition PLANTS_MARKET_DATA : string := "market_data".
Definition PLANTS_EXECUTION : string := "execution".

(** The keyword arguments of the extension's [Session]. *)
Record InnerArgs := MkInnerArgs {
  ia_user : string;
  ia_password : option string;
  ia_system_name : string;
  ia_url : string;
  ia_app : option (string * string);      (* [app_name], [app_version] *)
  ia_env : string;
  ia_account : option string * option string * option string;
  ia_beta_url : option string;
  ia_connect_mode : string;
  ia_gateway_listen : option string;
  ia_gateway_auth_token : option string
}.

Inductive Facade := DirectFacade | GatewayFacade.

(** What was built: the facade, the extension's arguments, and the plants asked
    of it. *)
Record Created := MkCreated {
  cr_facade : Facade;
  cr_args : InnerArgs;
  cr_plants : option string
}.

Definition create_rust_session (s : SessionConfig) (plants : string) : res Created :=
  match sc_password s with
  | None => Raise (config_error "direct mode requires a password (RITHMIC_PASSWORD)")
  | Some password =>
      Ok (MkCreated DirectFacade
            (MkInnerArgs (sc_user s) (Some password) (sc_system_name s) (sc_url s)
               (Some (sc_app_name s, sc_app_version s)) (sc_env s)
               (sc_account_id s, sc_fcm_id s, sc_ib_id s) (Some (sc_beta_url s)) "direct"
               (sc_gateway_listen s) None)
            (if bool_decide (plants = PLANTS_EXECUTION) then Some plants else None))
  end.

Definition create_rust_gateway_session (s : SessionConfig) : Created :=
  MkCreated GatewayFacade
    (MkInnerArgs (sc_user s) None (sc_system_name s) (sc_url s) None (sc_env s)
       (sc_account_id s, sc_fcm_id s, sc_ib_id s) None "gateway" (sc_gateway_listen s)
       (if nonempty (sc_gateway_auth_token s) then Some (sc_gateway_auth_token s) else None))
    None.

Definition create_session (s : SessionConfig) (plants : string) : res Created :=
  if bool_decide (sc_connect_mode s = GATEWAY) then Ok (create_rust_gateway_session s)
  else create_rust_session s plants.

(** [connect_market_data_session]: [from_env] when no configuration is given. *)
Definition connect_market_data_session (config : option SessionConfig) (environ : environ)
  (connect_reply : res unit) : res Created :=
  cfg ← (match config with Some c => Ok c | None => from_env environ true end);
  session ← create_session cfg PLANTS_MARKET_DATA;
  _ ← connect_once connect_reply;
  Ok session.

(** ** The factories *)

Definition pairs_from_session (s : SessionConfig) : list (string * string) :=
  if opt_truthy (sc_symbol s) && opt_truthy (sc_exchange s)
  then [(default "" (sc_symbol s), default "" (sc_exchange s))]
  else [("NQ", "CME")].

(** A registered client configuration: one of the adapter's, which may carry a
    session, or a bare Nautilus one. *)
Inductive NodeConfig :=
  | OwnData (c : DataClientConfig)
  | OwnExec (c : ExecClientConfig)
  | LiveData (session : option SessionConfig) (bars_timestamp_on_close : bool)
  | LiveExec (session : option SessionConfig) (enable_trading soft_fail_pnl : bool)
  | BareConfig.

Definition config_session (c : NodeConfig) : option SessionConfig :=
  match c with
  | OwnData d => Some (dc_session d)
  | OwnExec x => Some (xc_session x)
  | LiveData s _ | LiveExec s _ _ => s
  | BareConfig => None
  end.

Definition session_config_from_data (c : NodeConfig) (env : environ) : res SessionConfig :=
  match config_session c with Some s => Ok s | None => from_env env true end.

Definition create_data_client (c : NodeConfig) (env : environ)
  : res (Created * list (string * string) * DataClientConfig) :=
  session_cfg ← session_config_from_data c env;
  session ← create_session session_cfg PLANTS_MARKET_DATA;
  let data_config :=
    match c with
    | OwnData d => d
    | LiveData _ b => MkDataClientConfig session_cfg [] VENUE b
    | _ => MkDataClientConfig session_cfg [] VENUE true
    end in
  Ok (session, pairs_from_session session_cfg, data_config).

(** The trading switch of the client built. *)
Definition create_exec_client (c : NodeConfig) (env : environ)
  : res (Created * list (string * string) * bool) :=
  session_cfg ← session_config_from_data c env;
  session ← create_session session_cfg PLANTS_EXECUTION;
  let enable :=
    match c with
    | OwnExec x => xc_enable_trading x
    | LiveExec _ e _ => e
    | _ => false
    end in
  Ok (session, pairs_from_session session_cfg, enable).

(** ** The gateway facade: fan-out of session events *)

(** [gs_ext] is the extension's side: the registrations it has. *)
Record GwSession := MkGwSession {
  gs_listeners : list nat;
  gs_subscription : option nat;
  gs_ext : gset nat;
  gs_next : nat;
  gs_got : list (nat * Z)                  (* (listener, event) delivered *)
}.

Definition fresh_gw : GwSession := MkGwSession [] None ∅ 0 [].

(** [self._inner.subscribe_session_events(relay)]. *)
Definition register_relay (reply : res unit) : M GwSession nat :=
  _ ← lift reply;
  s ← get;
  put (MkGwSession (gs_listeners s) (gs_subscription s) ({[gs_next s]} ∪ gs_ext s) (S (gs_next s))
         (gs_got s)) ;;
  mret (gs_next s).

Definition subscribe_session_events (reply : res unit) (listener : nat) : M GwSession unit :=
  s ← get;
  whenM (bool_decide (gs_subscription s = None) && bool_decide (gs_listeners s = []))
    (r ← register_relay reply;
     modify (fun s => MkGwSession (gs_listeners s) (Some r) (gs_ext s) (gs_next s) (gs_got s))) ;;
  modify (fun s => MkGwSession (gs_listeners s ++ [listener]) (gs_subscription s) (gs_ext s)
                     (gs_next s) (gs_got s)).

Definition cancel_subscription : M GwSession unit :=
  modify (fun s => MkGwSession (gs_listeners s) None
                     (match gs_subscription s with Some r => gs_ext s ∖ {[r]} | None => gs_ext s end)
                     (gs_next s) (gs_got s)).

(** [list.remove], absent elements ignored. *)
Fixpoint remove_first (x : nat) (l : list nat) : list nat :=
  match l with
  | [] => []
  | y :: l' => if bool_decide (x = y) then l' else y :: remove_first x l'
  end.

(** [_Subscription.cancel] of a live session. *)
Definition cancel_listener (listener : nat) : M GwSession unit :=
  modify (fun s => MkGwSession (remove_first listener (gs_listeners s)) (gs_subscription s)
                     (gs_ext s) (gs_next s) (gs_got s)) ;;
  s ← get;
  whenM (bool_decide (gs_listeners s = [])) cancel_subscription.

Definition gw_disconnect (reply : res unit) : M GwSession unit :=
  cancel_subscription ;; lift reply.

(** [listener(event)]: it gets the event, and may raise. *)
Definition call_listener (raises : list nat) (e : Z) (l : nat) : M GwSession unit :=
  modify (fun s => MkGwSession (gs_listeners s) (gs_subscription s) (gs_ext s) (gs_next s)
                     (gs_got s ++ [(l, e)])) ;;
  if bool_decide (l ∈ raises) then throw (Exn ExRuntime None "listener") else mret tt.

(** [_fan_out], to a snapshot of the listeners: the first one that raises ends it. *)
Definition fan_out (raises : list nat) (e : Z) : M GwSession unit :=
  s ← get; forM_ (gs_listeners s) (call_listener raises e).

(** The extension has an event: each registration relays it, and an exception
    out of the relay is printed. *)
Definition extension_event (raises : list nat) (e : Z) : M GwSession unit :=
  s ← get;
  forM_ (elements (gs_ext s)) (fun _ => catchM any_exn (fan_out raises e) (fun _ => mret tt)).

Inductive GwOp :=
  | GSubscribe (reply : res unit) (listener : nat)
  | GCancel (listener : nat)
  | GEvent (raises : list nat) (e : Z)     (* the listeners that raise on it *)
  | GDisconnect (reply : res unit).

Definition gw_op (o : GwOp) : M GwSession unit :=
  match o with
  | GSubscribe r l => subscribe_session_events r l
  | GCancel l => cancel_listener l
  | GEvent raises e => extension_event raises e
  | GDisconnect r => gw_disconnect r
  end.

Fixpoint run_gw (ops : list GwOp) (s : GwSession) : GwSession :=
  match ops with [] => s | o :: ops' => run_gw ops' (gw_op o s).2 end.

(** ** Facts *)

(** What the extension is given follows the mode: a gateway session is
    built without a password whatever the environment holds, a direct one
    carries the configured password and exists for every well-formed
    configuration, so neither call fails on one. *)
Theorem create_session_password c plants :
  wf_config c ->
  exists r, create_session c plants = Ok r /\
    match sc_connect_mode c with
    | GATEWAY => cr_facade r = GatewayFacade /\ ia_password (cr_args r) = None /\
                 ia_connect_mode (cr_args r) = "gateway"
    | DIRECT => cr_facade r = DirectFacade /\ ia_connect_mode (cr_args r) = "direct" /\
                exists p, ia_password (cr_args r) = Some p /\ sc_password c = Some p /\ trimmed p
    end.
Proof.
  intros Hwf. pose proof (wf_password c Hwf) as Hp. unfold create_session.
  destruct (sc_connect_mode c) eqn:Em; simpl.
  - destruct Hp as (p & Hp & Ht). unfold create_rust_session. rewrite Hp.
    eexists. split; [reflexivity|]. simpl. split_and!; [done..|]. by exists p.
  - eexists. split; [reflexivity|]. done.
Qed.

(** Only the adapter's own execution configurations can open trading. *)
Lemma exec_trading_needs_own_config c env r pairs :
  create_exec_client c env = Ok (r, pairs, true) ->
  (exists x, c = OwnExec x /\ xc_enable_trading x = true) \/
  (exists s b, c = LiveExec s true b).
Proof.
  unfold create_exec_client, mbind, res_bind.
  destruct (session_config_from_data c env); [|done].
  destruct (create_session _ _); [|done]. intros [= _ _ H].
  destruct c as [d|x|s b|s e b|]; try done; [by left; eauto|]. simpl in H. subst. eauto.
Qed.

(** [_connect_once] hides one error only. *)
Lemma connect_once_spec reply :
  connect_once reply = match reply with
                       | Raise e => if bool_decide (ex_class e = ExAlreadyConnected)
                                    then Ok tt else Raise e
                       | r => r
                       end.
Proof. unfold connect_once, catch. by destruct reply. Qed.

(** *** Refinement: the facade is a list of listeners *)

(** The listeners an event reaches: all of them, or up to the first that raises
    on it. *)
Fixpoint reached (raises ls : list nat) : list nat :=
  match ls with
  | [] => []
  | l :: ls' => l :: (if bool_decide (l ∈ raises) then [] else reached raises ls')
  end.

Lemma reached_all raises ls : (forall l, l ∈ ls -> l ∉ raises) -> reached raises ls = ls.
Proof.
  induction ls as [|l ls IH]; intros Hn; simpl; [done|].
  rewrite bool_decide_eq_false_2 by (apply Hn; constructor). f_equal. apply IH. intros x Hx.
  apply Hn. by constructor.
Qed.

Lemma call_listeners raises e ls s :
  (forM_ ls (call_listener raises e) s).2
  = MkGwSession (gs_listeners s) (gs_subscription s) (gs_ext s) (gs_next s)
      (gs_got s ++ ((fun l => (l, e)) <$> reached raises ls)).
Proof.
  revert s. induction ls as [|l ls IH]; intros s; cbn [forM_ reached].
  - simpl. rewrite app_nil_r. by destruct s.
  - unfold mbind, M_bind, call_listener at 1. run_monad.
    destruct (bool_decide (l ∈ raises)); [done|]. rewrite IH. simpl. by rewrite <- app_assoc.
Qed.

Lemma relayed raises e s :
  catchM any_exn (fan_out raises e) (fun _ => mret tt) s
  = (Ok tt, (forM_ (gs_listeners s) (call_listener raises e) s).2).
Proof.
  unfold catchM, fan_out, any_exn. unfold mbind at 1, M_bind at 1. cbv [get].
  by destruct (forM_ _ _ s) as [[[]|x] s'].
Qed.

Definition spec_op (o : GwOp) (s : list nat * list (nat * Z)) : list nat * list (nat * Z) :=
  let '(ls, got) := s in
  match o with
  | GSubscribe r l =>
      match ls, r with
      | [], Raise _ => (ls, got)
      | _, _ => (ls ++ [l], got)
      end
  | GCancel l => (remove_first l ls, got)
  | GEvent raises e => (ls, got ++ ((fun l => (l, e)) <$> reached raises ls))
  | GDisconnect _ => (ls, got)
  end.

Fixpoint run_spec (ops : list GwOp) (s : list nat * list (nat * Z)) : list nat * list (nat * Z) :=
  match ops with [] => s | o :: ops' => run_spec ops' (spec_op o s) end.

(** Clients detach before they disconnect. *)
Fixpoint detached_first (ops : list GwOp) (s : list nat * list (nat * Z)) : Prop :=
  match ops with
  | [] => True
  | o :: ops' =>
      match o with GDisconnect _ => s.1 = [] | _ => True end /\ detached_first ops' (spec_op o s)
  end.

Record gw_refines (s : GwSession) (a : list nat * list (nat * Z)) : Prop := MkGwRefines {
  gr_listeners : gs_listeners s = a.1;
  gr_got : gs_got s = a.2;
  gr_registered :
    match a.1 with
    | [] => gs_subscription s = None /\ gs_ext s = ∅
    | _ => exists r, gs_subscription s = Some r /\ gs_ext s = {[r]}
    end
}.

Lemma gw_refines_step o s a :
  gw_refines s a -> match o with GDisconnect _ => a.1 = [] | _ => True end ->
  gw_refines (gw_op o s).2 (spec_op o a).
Proof.
  destruct a as [ls got]. intros [Hl Hg Hr] Hd. simpl in Hl, Hg, Hr, Hd.
  destruct s as [ls' sub ext nx got']. simpl in *. subst ls' got'.
  destruct o as [r l|l|raises e|r]; simpl.
  - unfold subscribe_session_events, register_relay. run_monad. simpl.
    destruct ls as [|l0 ls]; simpl.
    + destruct Hr as [-> ->]. simpl.
      destruct r as [[]|e]; simpl; (split; simpl; [done..|]); [|done].
      exists nx. split; [done|]. set_solver.
    + destruct Hr as (r0 & -> & ->). simpl. split; simpl; [done..|]. eauto.
  - unfold cancel_listener, cancel_subscription. run_monad. simpl.
    destruct (remove_first l ls) as [|l1 ls1] eqn:E; simpl.
    + split; simpl; [done..|]. split; [done|].
      destruct ls as [|l0 ls]; [destruct Hr as [-> ->]; done|].
      destruct Hr as (r0 & -> & ->). set_solver.
    + split; simpl; [done..|]. destruct ls as [|l0 ls]; [done|]. exact Hr.
  - unfold extension_event. unfold mbind at 1, M_bind at 1. cbv [get]. cbn [gs_ext].
    destruct ls as [|l0 ls].
    + destruct Hr as [-> ->]. rewrite elements_empty. split; simpl; [done| |done]. by rewrite app_nil_r.
    + destruct Hr as (r0 & -> & ->). rewrite elements_singleton. cbn [forM_].
      unfold mbind, M_bind. rewrite relayed, call_listeners. cbn [mret M_ret snd gs_listeners gs_got].
      split; [done..|]. by exists r0.
  - subst ls. unfold gw_disconnect, cancel_subscription. run_monad. simpl.
    destruct Hr as [-> ->]. by split.
Qed.

(** (C32) The gateway facade implements a plain list of listeners: over any
    sequence of subscriptions (failing ones included), cancellations, session
    events and disconnects that come after the listeners left, each event is
    delivered once to each current listener, in order, through at most one
    registration with the extension.  A listener that raises on an event ends the
    delivery of that event: it and those before it have it, those after it do
    not; later events are delivered again. *)
Theorem gateway_fan_out ops :
  detached_first ops ([], []) ->
  gw_refines (run_gw ops fresh_gw) (run_spec ops ([], [])).
Proof.
  assert (H0 : gw_refines fresh_gw ([], [])) by done.
  revert H0. generalize fresh_gw as s. generalize (@nil nat, @nil (nat * Z)) as a.
  induction ops as [|o ops IH]; intros a s Hr Hd; simpl; [done|].
  destruct Hd as [Ho Hd]. apply IH; [|done]. by apply gw_refines_step.
Qed.

Definition sample_gw_ops : list GwOp :=
  [GSubscribe (Ok tt) 1; GSubscribe (Ok tt) 2; GEvent [] 10; GEvent [1%nat] 11; GCancel 1; GEvent [] 12;
   GCancel 2; GEvent [] 13; GDisconnect (Ok tt); GSubscribe (Ok tt) 3; GEvent [] 14].

Lemma gateway_fan_out_witness :
  gw_refines (run_gw sample_gw_ops fresh_gw) (run_spec sample_gw_ops ([], [])) /\
  (run_spec sample_gw_ops ([], [])).2 = 
    [(1%nat, 10); (2%nat, 10); (1%nat, 11); (2%nat, 12); (3%nat, 14)].
Proof.
  split; [|reflexivity]. apply (gateway_fan_out sample_gw_ops). vm_compute. tauto.
Defined.

(** A listener that is still registered when the session disconnects leaves the
    facade deaf: a later subscription is not registered with the extension, so
    no event reaches anyone. *)
Theorem disconnect_with_listener_deafens e e' :
  gs_got (run_gw [GSubscribe (Ok tt) 1; GEvent [] e; GDisconnect (Ok tt); GSubscribe (Ok tt) 2;
                  GEvent [] e'] fresh_gw) = [(1%nat, e)].
Proof. reflexivity. Qed.

(** A data client's listener that raises keeps the event from the execution
    client's. *)
Lemma raising_listener_starves_the_next e :
  gs_got (run_gw [GSubscribe (Ok tt) 1; GSubscribe (Ok tt) 2; GEvent [1%nat] e] fresh_gw) = [(1%nat, e)].
Proof. reflexivity. Qed.

Definition direct_args : SessionArgs :=
  MkSessionArgs " alice" (IsText "Direct") (Some "hunter2 ") "Rithmic Test" "wss://uat.example:443"
    DEFAULT_APP_NAME DEFAULT_APP_VERSION "Test" None None None None None None None "".

Lemma create_session_password_witness :
  exists r, create_session (session_of (post_init direct_args)) PLANTS_EXECUTION = Ok r /\
    cr_facade r = DirectFacade.
Proof.
  destruct (create_session_password (session_of (post_init direct_args)) PLANTS_EXECUTION)
    as (r & Hr & Hm).
  - apply (post_init_inv direct_args). vm_compute. reflexivity.
  - exists r. split; [exact Hr|]. apply Hm.
Defined.
