(* ===== verification/Instruments.v ===== *)
(** * Instruments and standalone history (providers.py, front_month.py, historical.py)

    Venue reference data to a futures contract: expiration dates
    ([strptime] with its four formats), tick and multiplier text, the required
    fields, the instrument provider's loop, front-month resolution and the
    standalone history loads.

    [datetime.strptime] is modelled from its documented directives: a directive
    matches the alternatives of its pattern in order, a failure later in the
    format backtracks, and text left over after the first complete match is a
    [ValueError].  Nautilus' [Quantity.from_str] and the [FuturesContract]
    constructor's own checks are parameters; session replies are arguments. *)

From Stdlib Require Import Ascii String.
From stdpp Require Import base gmap strings list.
From Stdlib Require Import ZArith Lia.
From Corelib Require Import SpecFloat.
From S2P Require Import Prelude PyVal Plant Lru Ident Nautilus Orders OrderRows Commission Host Convert Bars Ticks.
Import Text.
Open Scope string_scope.
Open Scope list_scope.
Open Scope Z_scope.

Definition build_error (msg : string) : exn := Exn ExInstrumentBuild None msg.

(** ** [datetime.strptime] for dates *)

Record date := MkDate { d_year : Z; d_month : Z; d_day : Z }.

#[export] Instance date_eq_dec : EqDecision date.
Proof. solve_decision. Defined.

(** All ways a pattern matches a prefix, in the order the engine tries them:
    the value and the rest of the text. *)
Definition matcher (A : Type) : Type := string -> list (A * string).

Definition digit_val (a : ascii) : Z := chr a - 48.

(** A digit between [lo] and [hi]. *)
Definition digit_in (lo hi : Z) : matcher Z := fun s =>
  match s with
  | String a r =>
      if is_digit a && (lo <=? digit_val a) && (digit_val a <=? hi) then [(digit_val a, r)] else []
  | EmptyString => []
  end.

Definition two (p q : matcher Z) : matcher Z := fun s =>
  p s ≫= fun '(x, r) => q r ≫= fun '(y, r') => [(x * 10 + y, r')].

Definition literal (c : ascii) : matcher Z := fun s =>
  match s with
  | String a r => if bool_decide (a = c) then [(0, r)] else []
  | EmptyString => []
  end.

Definition alt (ps : list (matcher Z)) : matcher Z := fun s => ps ≫= fun p => p s.

(** [%Y], [%m] and [%d]. *)
Definition pat_Y : matcher Z :=
  let d := digit_in 0 9 in two (two (two d d) d) d.
Definition pat_m : matcher Z :=
  alt [two (digit_in 1 1) (digit_in 0 2); two (digit_in 0 0) (digit_in 1 9); digit_in 1 9].
Definition pat_d : matcher Z :=
  alt [two (digit_in 3 3) (digit_in 0 1); two (digit_in 1 2) (digit_in 0 9);
       two (digit_in 0 0) (digit_in 1 9); digit_in 1 9; two (literal " ") (digit_in 1 9)].

Inductive directive := DY | Dm | Dd | DLit (c : ascii).

Definition step_directive (x : directive) (acc : date) : matcher date := fun s =>
  match x with
  | DY => (fun '(v, r) => (MkDate v (d_month acc) (d_day acc), r)) <$> pat_Y s
  | Dm => (fun '(v, r) => (MkDate (d_year acc) v (d_day acc), r)) <$> pat_m s
  | Dd => (fun '(v, r) => (MkDate (d_year acc) (d_month acc) v, r)) <$> pat_d s
  | DLit c => (fun '(_, r) => (acc, r)) <$> literal c s
  end.

Fixpoint match_format (fmt : list directive) (acc : date) : matcher date := fun s =>
  match fmt with
  | [] => [(acc, s)]
  | x :: fmt' => step_directive x acc s ≫= fun '(acc', r) => match_format fmt' acc' r
  end.

Definition is_leap (y : Z) : bool :=
  (y mod 4 =? 0) && (negb (y mod 100 =? 0) || (y mod 400 =? 0)).

Definition days_in_month (y m : Z) : Z :=
  if m =? 2 then if is_leap y then 29 else 28
  else if (m =? 4) || (m =? 6) || (m =? 9) || (m =? 11) then 30 else 31.

(** [datetime(y, m, d)] exists. *)
Definition valid_date (d : date) : bool :=
  (1 <=? d_year d) && (d_year d <=? 9999) && (1 <=? d_month d) && (d_month d <=? 12)
  && (1 <=? d_day d) && (d_day d <=? days_in_month (d_year d) (d_month d)).

(** [datetime.strptime(s, fmt)]. *)
Definition strptime (s : string) (fmt : list directive) : res date :=
  match head (match_format fmt (MkDate 1900 1 1) s) with
  | Some (d, EmptyString) =>
      if valid_date d then Ok d else Raise (Exn ExValue None "day is out of range for month")
  | Some _ => Raise (Exn ExValue None "unconverted data remains")
  | None => Raise (Exn ExValue None "time data does not match format")
  end.

(** [date.toordinal] less that of 1970-01-01. *)
Definition days_before_year (y : Z) : Z :=
  let y1 := y - 1 in y1 * 365 + y1 / 4 - y1 / 100 + y1 / 400.
Definition days_before_month (y m : Z) : Z :=
  nth (Z.to_nat m) [0; 0; 31; 59; 90; 120; 151; 181; 212; 243; 273; 304; 334] 0
  + (if (2 <? m) && is_leap y then 1 else 0).
Definition epoch_days (d : date) : Z :=
  days_before_year (d_year d) + days_before_month (d_year d) (d_month d) + d_day d - 719163.

(** [dt.replace(tzinfo=UTC).timestamp()]: a float. *)
Definition timestamp (d : date) : f64 := default S754_nan (f64_of_Z (epoch_days d * 86400)).

Definition f64_billion : f64 := f64_of_decimal false 1000000000 0.

Definition timestamp_ns_of (d : date) : res Z :=
  Z_of_f64 (SFmul prec64 emax64 (timestamp d) f64_billion).

Definition EXPIRATION_FORMATS : list (list directive) :=
  [[DY; Dm; Dd]; [DY; DLit "-"; Dm; DLit "-"; Dd]; [DY; DLit "/"; Dm; DLit "/"; Dd];
   [Dm; DLit "/"; Dd; DLit "/"; DY]].

Definition slice_len (fmt : list directive) : nat := if bool_decide (length fmt = 3%nat) then 8 else 10.

Fixpoint try_formats (text raw : string) (fmts : list (list directive)) : res Z :=
  match fmts with
  | [] => Raise (build_error ("unrecognized expiration_date: " +:+ raw))
  | fmt :: fmts' =>
      catch is_value_error
        (dt ← strptime (String.substring 0 (slice_len fmt) text) fmt; timestamp_ns_of dt)
        (fun _ => try_formats text raw fmts')
  end.

Definition parse_expiration_ns (raw : string) : res Z :=
  try_formats (strip raw) raw EXPIRATION_FORMATS.

(** ** Tick, multiplier and the contract *)

(** [f"{x:.{p}f}".rstrip("0").rstrip(".")], with [".0"] restored. *)
Definition trimmed_fixed (p : Z) (x : f64) : string :=
  let text := dropr (fun a => bool_decide (a = "."%char)) (drop_trailing_zeros (fixed_f64 p x)) in
  if has_char "." text then text else text +:+ ".0".

Definition not_positive (x : f64) : bool := SFleb x (S754_zero false).

(** The arguments of the [FuturesContract] constructor. *)
Record Contract := MkContract {
  ct_instrument_id : string;
  ct_raw_symbol : string;
  ct_currency : string;
  ct_price_precision : Z;
  ct_price_increment : Price;
  ct_multiplier : Price;
  ct_underlying : string;
  ct_activation_ns : Z;
  ct_expiration_ns : Z;
  ct_exchange : string;
  ct_info : pydict
}.

(** The exponent of [Decimal.normalize()] of a non-zero decimal: trailing zeros
    of the coefficient move into it. *)
Fixpoint strip_zeros (fuel : nat) (c x : Z) : Z * Z :=
  match fuel with
  | O => (c, x)
  | S fuel' => if c mod 10 =? 0 then strip_zeros fuel' (c / 10) (x + 1) else (c, x)
  end.
Definition normal_exponent (d : decimal) : Z :=
  snd (strip_zeros (String.length (str_of_Z (d_coef d))) (Z.abs (d_coef d)) (d_exp d)).

(** The precision a tick size implies. *)
Definition implied_precision (tick_size : pyval) : res Z :=
  match dec_of_str (py_str tick_size) with
  | None => Raise (Exn ExOther None "decimal.InvalidOperation")
  | Some DSpecial => Raise (build_error "tick_size must be finite and > 0")
  | Some (DFinite d) =>
      if d_coef d <=? 0 then Raise (build_error "tick_size must be finite and > 0")
      else Ok (Z.max 0 (- normal_exponent d))
  end.

Definition absent (v : pyval) : bool := is_none v || is_str v "".

Section Build.
Context `{NautilusTypes}.
Variable quantity_from_str : string -> res Price.
Variable check_contract : Contract -> res unit.

Definition price_increment (tick_size : f64) (price_precision : Z) : res Price :=
  if not_positive tick_size then Raise (build_error "tick_size must be > 0")
  else if price_precision <? 0 then Raise (build_error "price_precision must be >= 0")
  else price_from_str (trimmed_fixed price_precision tick_size).

Definition multiplier (point_value : f64) : res Price :=
  if not_positive point_value then Raise (build_error "point_value must be > 0")
  else quantity_from_str (trimmed_fixed 8 point_value).

Definition future_from_reference (ref : pydict) (activation_ns : option Z) : res Contract :=
  let symbol := por (dget ref "trading_symbol") (dget ref "symbol") in
  let exchange := por (dget ref "trading_exchange") (dget ref "exchange") in
  let tick_size := dget ref "tick_size" in
  price_precision ←
    (if is_none (dget ref "price_precision") && negb (is_none tick_size)
     then p ← implied_precision tick_size; Ok (VInt p)
     else Ok (dget ref "price_precision"));
  let point_value := dget ref "point_value" in
  let currency_raw := dget ref "currency" in
  let expiration_raw := dget ref "expiration_date" in
  if existsb absent [symbol; exchange; tick_size; price_precision; point_value; currency_raw;
                     expiration_raw]
  then Raise (build_error "reference data missing required fields")
  else
    let underlying := por (dget ref "underlying") (dget ref "product_code") in
    if negb (truthy underlying)
    then Raise (build_error "reference data missing underlying/product_code")
    else
      let symbol_s := py_str symbol in
      let exchange_s := py_str exchange in
      raw_id ← instrument_id_from_symbol symbol_s (Some exchange_s);
      id ← instrument_id_from_str raw_id;
      currency ← currency_from_str (py_str currency_raw);
      prec ← py_int price_precision;
      tick ← py_float tick_size;
      increment ← price_increment tick prec;
      pv ← py_float point_value;
      mult ← multiplier pv;
      expiration ← parse_expiration_ns (py_str expiration_raw);
      let c := MkContract id symbol_s currency prec increment mult (py_str underlying)
                 (default 0 activation_ns) expiration exchange_s
                 (dict_of [("rithmic_exchange", VStr exchange_s); ("rithmic_symbol", VStr symbol_s);
                           ("rithmic_product_code", dget ref "product_code");
                           ("rithmic_instrument_type", dget ref "instrument_type");
                           ("rithmic_is_tradable", dget ref "is_tradable")]) in
      _ ← check_contract c;
      Ok c.

(** ** Front month and the loads *)

Record FrontMonth := MkFront {
  fm_root : string;
  fm_exchange : string;
  fm_trading_symbol : string;
  fm_trading_exchange : string;
  fm_symbol_name : pyval;
  fm_is_front : pyval
}.

(** A session: replies to the two lookups; [None] is a reply of another type. *)
Record RefSession := MkRefSession {
  rs_front_month : string -> string -> res (option pydict);
  rs_reference : string -> string -> res (option pydict)
}.

Definition resolve_front_month (s : RefSession) (root exchange : string) : res FrontMonth :=
  raw ← rs_front_month s root exchange;
  match raw with
  | None => Raise (Exn ExFrontMonth None "unexpected front-month payload type")
  | Some d =>
      if negb (truthy (dget d "trading_symbol"))
      then Raise (Exn ExFrontMonth None "front-month response missing trading_symbol")
      else if negb (truthy (dget d "trading_exchange"))
      then Raise (Exn ExFrontMonth None "front-month response missing trading_exchange")
      else Ok (MkFront root exchange (py_str (dget d "trading_symbol"))
                 (py_str (dget d "trading_exchange")) (dget d "symbol_name")
                 (dget d "is_front_month_symbol"))
  end.

Definition reference_dict (s : RefSession) (symbol exchange : string) : res pydict :=
  ref ← rs_reference s symbol exchange;
  match ref with
  | None => Raise (Exn ExType None "reference data must be a dict")
  | Some d => Ok d
  end.

Definition load_contract_instrument (s : RefSession) (symbol0 exchange0 : string) (activation_ns : Z)
  : res Contract :=
  let symbol := upper (strip symbol0) in
  let exchange := strip exchange0 in
  if bool_decide (product_root symbol = symbol)
  then Raise (build_error "expected a listed contract")
  else
    ref ← reference_dict s symbol exchange;
    instrument ← future_from_reference ref (Some activation_ns);
    route ← rithmic_route_from_info (ct_info instrument);
    if bool_decide (route = (symbol, exchange)) then Ok instrument
    else Raise (build_error "reference data identity does not match").

Definition load_front_month_instrument (s : RefSession) (root exchange : string) (activation_ns : Z)
  : res Contract :=
  front ← resolve_front_month s root exchange;
  ref ← reference_dict s (fm_trading_symbol front) (fm_trading_exchange front);
  future_from_reference ref (Some activation_ns).

(** [RithmicInstrumentProvider.load_all_async]: the instruments added so far
    stay when a pair fails. *)
Fixpoint load_all (s : RefSession) (pairs : list (string * string)) : M (list Contract) unit :=
  match pairs with
  | [] => mret tt
  | (symbol0, exchange) :: pairs' =>
      let symbol := upper (strip symbol0) in
      instrument ← lift
        (if bool_decide (product_root symbol = symbol)
         then load_front_month_instrument s symbol exchange 0
         else load_contract_instrument s symbol exchange 0);
      modify (fun l => l ++ [instrument]) ;;
      load_all s pairs'
  end.

(** ** Standalone history *)

(** [datetime | int | float]. *)
Inductive moment := AtInt (z : Z) | AtFloat (f : f64) | AtDatetime (ts : f64).

Definition unix_sec (m : moment) : res Z :=
  match m with
  | AtInt z => Ok z
  | AtFloat f | AtDatetime f => Z_of_f64 f
  end.

(** The trade-id counter is the state. *)
Definition load_trade_ticks (reply : string -> string -> Z -> Z -> res (list pydict))
  (c : Contract) (start end_ : moment) (ts_init : Z) : M Z (list TradeTick) :=
  '(symbol, exchange) ← lift (rithmic_route_from_info (ct_info c));
  a ← lift (unix_sec start);
  b ← lift (unix_sec end_);
  raw ← lift (reply symbol exchange a b);
  payloads_to_trade_ticks id (fun n _ => n) raw symbol exchange (Some (ct_price_precision c)) ts_init
    None.

(** [payloads_to_bars] without [on_invalid_row]: the first bad row fails the
    reply. *)
Fixpoint convert_bars_strict (rows : list pydict) (symbol exchange : string) (bt : BarType)
  (rtype : Z) (precision : option Z) (ts_init : Z) (on_close : bool) : res (list Bar) :=
  match rows with
  | [] => Ok []
  | raw :: rows' =>
      _ ← validate_history_identity raw symbol exchange (Some rtype);
      fields ← time_bar_to_fields
                 (fill_missing "exchange" exchange (fill_missing "symbol" symbol raw));
      b ← fields_to_bar fields bt ts_init precision on_close;
      rest ← convert_bars_strict rows' symbol exchange bt rtype precision ts_init on_close;
      Ok (b :: rest)
  end.

Definition load_time_bars
  (reply : string -> string -> Z -> Z -> Z -> Z -> res (list pydict))
  (c : Contract) (start end_ : moment) (bt : BarType) (on_close : bool) (ts_init : Z)
  : res (list Bar) :=
  '(symbol, exchange) ← rithmic_route_from_info (ct_info c);
  '(rtype, period) ← bar_type_to_rithmic bt;
  a ← unix_sec start;
  b ← unix_sec end_;
  raw ← reply symbol exchange a b rtype period;
  bars ← convert_bars_strict raw symbol exchange bt rtype (Some (ct_price_precision c)) ts_init
           on_close;
  Ok (sort_bars bars).

End Build.

(** ** Facts: expiration dates *)

Definition dig (z : Z) : ascii := ascii_of_N (Z.to_N (48 + z)).
Definition four (y : Z) : string :=
  String (dig (y / 1000)) (String (dig (y / 100 mod 10)) (String (dig (y / 10 mod 10))
    (String (dig (y mod 10)) EmptyString))).
Definition pair_of (n : Z) : string :=
  String (dig (n / 10)) (String (dig (n mod 10)) EmptyString).

Inductive date_layout := Compact | Dashed | Slashed | American.

(** [dt.strftime] with the accepted formats. *)
Definition date_text (l : date_layout) (d : date) : string :=
  let y := four (d_year d) in
  let m := pair_of (d_month d) in
  let dd := pair_of (d_day d) in
  match l with
  | Compact => y +:+ m +:+ dd
  | Dashed => y +:+ "-" +:+ m +:+ "-" +:+ dd
  | Slashed => y +:+ "/" +:+ m +:+ "/" +:+ dd
  | American => m +:+ "/" +:+ dd +:+ "/" +:+ y
  end.

Lemma digit_cases z : 0 <= z <= 9 ->
  z = 0 \/ z = 1 \/ z = 2 \/ z = 3 \/ z = 4 \/ z = 5 \/ z = 6 \/ z = 7 \/ z = 8 \/ z = 9.
Proof. lia. Qed.

Lemma digit_in_dig z r : 0 <= z <= 9 -> digit_in 0 9 (String (dig z) r) = [(z, r)].
Proof. intros H%digit_cases. repeat destruct H as [->|H]; try reflexivity. by subst. Qed.

Lemma dig_not_space z : 0 <= z <= 9 -> py_space (dig z) = false.
Proof. intros H%digit_cases. repeat destruct H as [->|H]; try reflexivity. by subst. Qed.

Lemma year_digits y : 1 <= y <= 9999 ->
  (0 <= y / 1000 <= 9 /\ 0 <= y / 100 mod 10 <= 9 /\ 0 <= y / 10 mod 10 <= 9 /\ 0 <= y mod 10 <= 9)
  /\ ((y / 1000 * 10 + y / 100 mod 10) * 10 + y / 10 mod 10) * 10 + y mod 10 = y.
Proof.
  intros Hy. split; [split_and!|]; Z.to_euclidean_division_equations; lia.
Qed.

Lemma pat_Y_four y r : 1 <= y <= 9999 -> pat_Y (four y +:+ r) = [(y, r)].
Proof.
  intros Hy. destruct (year_digits y Hy) as [(Ha & Hb & Hc & Hd) Hsum].
  unfold pat_Y, two, four. rewrite !string_app_cons, string_app_nil.
  unfold mbind. cbn [list_bind]. do 3 (rewrite digit_in_dig by lia; cbn [list_bind app]).
  rewrite digit_in_dig by lia. cbn [list_bind app]. by rewrite Hsum.
Qed.

Lemma pat_Y_four_end y : 1 <= y <= 9999 -> pat_Y (four y) = [(y, "")].
Proof. intros Hy. exact (pat_Y_four y "" Hy). Qed.

(** A year pattern needs four digits first. *)
Lemma pat_Y_month m r : 1 <= m <= 12 -> pat_Y (pair_of m +:+ "/" +:+ r) = [].
Proof.
  intros Hm. assert (Hc : m ∈ (Z.of_nat <$> seq 1 12)).
  { apply list_elem_of_fmap. exists (Z.to_nat m). split; [lia|]. apply elem_of_seq. lia. }
  cbn in Hc. rewrite !elem_of_cons, elem_of_nil in Hc.
  repeat destruct Hc as [->|Hc]; done.
Qed.

Lemma valid_date_range d :
  valid_date d = true ->
  1 <= d_year d <= 9999 /\ 1 <= d_month d <= 12 /\ 1 <= d_day d <= 31.
Proof.
  unfold valid_date, days_in_month. rewrite !andb_true_iff.
  intros [[[[[? ?] ?] ?] ?] Hd]. split_and!; try lia.
  repeat case_match; lia.
Qed.

(** Month and day of a date, by cases. *)
Ltac each_day m d :=
  let Hm := fresh in let Hd := fresh in
  assert (Hm : m ∈ (Z.of_nat <$> seq 1 12))
    by (apply list_elem_of_fmap; exists (Z.to_nat m); split; [lia|]; apply elem_of_seq; lia);
  assert (Hd : d ∈ (Z.of_nat <$> seq 1 31))
    by (apply list_elem_of_fmap; exists (Z.to_nat d); split; [lia|]; apply elem_of_seq; lia);
  cbn in Hm, Hd; apply list_elem_of_In in Hm, Hd; cbn [In] in Hm, Hd;
  repeat destruct Hm as [<-|Hm]; try done; repeat destruct Hd as [<-|Hd]; try done.

(** The month and day directives on two digits each. *)
Lemma match_month_day acc m d :
  1 <= m <= 12 -> 1 <= d <= 31 ->
  head (match_format [Dm; Dd] acc (pair_of m +:+ pair_of d))
  = Some (MkDate (d_year acc) m d, "").
Proof. intros Hm Hd. each_day m d. Qed.

Lemma match_sep_month_day c acc m d :
  c ∈ ["-"%char; "/"%char] -> 1 <= m <= 12 -> 1 <= d <= 31 ->
  head (match_format [DLit c; Dm; DLit c; Dd] acc (String c (pair_of m +:+ String c (pair_of d))))
  = Some (MkDate (d_year acc) m d, "").
Proof.
  intros Hc Hm Hd. rewrite !elem_of_cons, elem_of_nil in Hc.
  destruct Hc as [->|[->|[]]]; each_day m d.
Qed.

Lemma match_american y m d :
  1 <= y <= 9999 -> 1 <= m <= 12 -> 1 <= d <= 31 ->
  head (match_format [Dm; DLit "/"; Dd; DLit "/"; DY] (MkDate 1900 1 1)
          (pair_of m +:+ String "/" (pair_of d +:+ String "/" (four y))))
  = Some (MkDate y m d, "").
Proof.
  intros Hy Hm Hd. pose proof (pat_Y_four_end y Hy) as HY. revert HY.
  generalize (four y) as s. intros s HY.
  each_day m d; cbv -[pat_Y]; by rewrite HY.
Qed.

(** A format whose match fails is passed over. *)
Lemma try_formats_skip text raw fmt fmts :
  (forall x, strptime (String.substring 0 (slice_len fmt) text) fmt <> Ok x) ->
  try_formats text raw (fmt :: fmts) = try_formats text raw fmts.
Proof.
  intros Hf. cbn [try_formats]. unfold catch, mbind, res_bind. unfold strptime in *.
  repeat case_match; try done; exfalso; eapply Hf; reflexivity.
Qed.

Lemma strptime_none s fmt x :
  head (match_format fmt (MkDate 1900 1 1) s) = None -> strptime s fmt <> Ok x.
Proof. intros Hn. unfold strptime. by rewrite Hn. Qed.

Lemma try_formats_hit text raw fmt fmts d :
  head (match_format fmt (MkDate 1900 1 1) (String.substring 0 (slice_len fmt) text)) = Some (d, "") ->
  valid_date d = true -> (exists z, timestamp_ns_of d = Ok z) ->
  try_formats text raw (fmt :: fmts) = timestamp_ns_of d.
Proof.
  intros Hm Hv [z Hz]. cbn [try_formats]. unfold strptime. rewrite Hm, Hv.
  unfold catch, mbind, res_bind. by rewrite Hz.
Qed.

(** A pattern that starts with the year, on text that starts with it. *)
Lemma match_year fmt y r acc :
  1 <= y <= 9999 ->
  head (match_format (DY :: fmt) acc (four y +:+ r))
  = head (match_format fmt (MkDate y (d_month acc) (d_day acc)) r).
Proof.
  intros Hy. cbn [match_format step_directive]. rewrite pat_Y_four by done. csimpl.
  by rewrite app_nil_r.
Qed.

Lemma match_no_year fmt m r acc :
  1 <= m <= 12 -> head (match_format (DY :: fmt) acc (pair_of m +:+ "/" +:+ r)) = None.
Proof. intros Hm. cbn [match_format step_directive]. by rewrite pat_Y_month. Qed.

Lemma pair_not_space n : 0 <= n <= 99 -> sall (fun a => negb (py_space a)) (pair_of n) = true.
Proof.
  intros Hn. unfold pair_of. cbn [sall].
  rewrite !dig_not_space; [done|Z.to_euclidean_division_equations; lia..].
Qed.

Lemma four_not_space y : 1 <= y <= 9999 -> sall (fun a => negb (py_space a)) (four y) = true.
Proof.
  intros Hy. destruct (year_digits y Hy) as [(? & ? & ? & ?) _]. unfold four. cbn [sall].
  by rewrite !dig_not_space by done.
Qed.

Lemma date_text_strip l d : valid_date d = true -> strip (date_text l d) = date_text l d.
Proof.
  intros (Hy & Hm & Hd)%valid_date_range. apply strip_by_none.
  destruct l; cbn [date_text]; rewrite ?sall_app, ?four_not_space, ?pair_not_space by lia; done.
Qed.

(** The text a format is tried on, and why a format before the right one
    fails. *)
Ltac sliced s :=
  match goal with |- context [String.substring 0 ?n ?t] => change (String.substring 0 n t) with s end.

Section Layouts.
Context (y m d : Z) (z : Z).
Context (Hv : valid_date (MkDate y m d) = true) (Hz : timestamp_ns_of (MkDate y m d) = Ok z).
Context (Hy : 1 <= y <= 9999) (Hm : 1 <= m <= 12) (Hd : 1 <= d <= 31).

Lemma compact_parses raw : try_formats (date_text Compact (MkDate y m d)) raw EXPIRATION_FORMATS = Ok z.
Proof.
  rewrite <- Hz. apply try_formats_hit; [|done|eauto].
  sliced (four y +:+ pair_of m +:+ pair_of d).
  rewrite match_year by done. by rewrite match_month_day.
Qed.

Lemma separated_parses c fmts raw :
  c ∈ ["-"%char; "/"%char] ->
  try_formats (four y +:+ String c (pair_of m +:+ String c (pair_of d))) raw
    ([DY; DLit c; Dm; DLit c; Dd] :: fmts) = Ok z.
Proof.
  intros Hc. rewrite <- Hz. apply try_formats_hit; [|done|eauto].
  sliced (four y +:+ String c (pair_of m +:+ String c (pair_of d))).
  rewrite match_year by done. by apply match_sep_month_day.
Qed.

Lemma compact_skips c fmts raw :
  c ∈ ["-"%char; "/"%char] ->
  try_formats (four y +:+ String c (pair_of m +:+ String c (pair_of d))) raw ([DY; Dm; Dd] :: fmts)
  = try_formats (four y +:+ String c (pair_of m +:+ String c (pair_of d))) raw fmts.
Proof.
  intros Hc. apply try_formats_skip. intros x. apply strptime_none.
  sliced (four y +:+ String c (pair_of m +:+ String c "")). rewrite match_year by done.
  rewrite !elem_of_cons, elem_of_nil in Hc. by destruct Hc as [->|[->|[]]].
Qed.

Lemma american_skips fmt fmts raw :
  (length fmt = 2 \/ length fmt = 4)%nat ->
  try_formats (date_text American (MkDate y m d)) raw ((DY :: fmt) :: fmts)
  = try_formats (date_text American (MkDate y m d)) raw fmts.
Proof.
  intros Hl. apply try_formats_skip. intros x. apply strptime_none.
  unfold slice_len. cbn [length date_text d_year d_month d_day].
  destruct Hl as [->| ->].
  - sliced (pair_of m +:+ "/" +:+ pair_of d +:+ "/" +:+
            String (dig (y / 1000)) (String (dig (y / 100 mod 10)) "")). by apply match_no_year.
  - sliced (pair_of m +:+ "/" +:+ pair_of d +:+ "/" +:+ four y). by apply match_no_year.
Qed.

Lemma american_parses raw :
  try_formats (date_text American (MkDate y m d)) raw EXPIRATION_FORMATS = Ok z.
Proof.
  unfold EXPIRATION_FORMATS. rewrite !american_skips by (simpl; auto).
  rewrite <- Hz. apply try_formats_hit; [|done|eauto].
  sliced (pair_of m +:+ String "/" (pair_of d +:+ String "/" (four y))). by apply match_american.
Qed.

Lemma slashed_skips fmts raw :
  try_formats (date_text Slashed (MkDate y m d)) raw ([DY; DLit "-"; Dm; DLit "-"; Dd] :: fmts)
  = try_formats (date_text Slashed (MkDate y m d)) raw fmts.
Proof.
  apply try_formats_skip. intros x. apply strptime_none.
  sliced (four y +:+ String "/" (pair_of m +:+ String "/" (pair_of d))).
  by rewrite match_year.
Qed.
End Layouts.

(** The date text of every valid date, in each of the four layouts, parses
    back to the nanoseconds of that date. *)
Theorem expiration_round_trip l d z :
  valid_date d = true -> timestamp_ns_of d = Ok z ->
  parse_expiration_ns (date_text l d) = Ok z.
Proof.
  intros Hv Hz. pose proof (valid_date_range d Hv) as (Hy & Hm & Hd).
  unfold parse_expiration_ns. rewrite date_text_strip by done.
  destruct d as [y m dd]. simpl in Hy, Hm, Hd. destruct l.
  - by apply compact_parses.
  - unfold EXPIRATION_FORMATS.
    change (date_text Dashed (MkDate y m dd))
      with (four y +:+ String "-" (pair_of m +:+ String "-" (pair_of dd))).
    rewrite compact_skips by (done || evaluate). apply separated_parses; (done || evaluate).
  - unfold EXPIRATION_FORMATS.
    change (date_text Slashed (MkDate y m dd))
      with (four y +:+ String "/" (pair_of m +:+ String "/" (pair_of dd))).
    rewrite compact_skips by (done || evaluate).
    change (four y +:+ String "/" (pair_of m +:+ String "/" (pair_of dd)))
      with (date_text Slashed (MkDate y m dd)).
    rewrite slashed_skips by done. apply separated_parses; (done || evaluate).
  - by apply american_parses.
Qed.

(** The float arithmetic behind the nanoseconds is exact on the dates of a
    contract calendar. *)
Definition calendar (y0 years : nat) : list date :=
  y ← Z.of_nat <$> seq y0 years;
  m ← Z.of_nat <$> seq 1 12;
  d ← Z.of_nat <$> seq 1 31;
  if valid_date (MkDate y m d) then [MkDate y m d] else [].

Lemma timestamps_exact :
  forallb (fun d => match timestamp_ns_of d with
                    | Ok z => z =? epoch_days d * 86400 * 1000000000
                    | Raise _ => false
                    end) (calendar 2024 4) = true.
Proof. vm_compute. reflexivity. Qed.

Lemma expiration_round_trip_witness :
  parse_expiration_ns "12/18/2026" = Ok 1797552000000000000.
Proof.
  apply (expiration_round_trip American (MkDate 2026 12 18)); vm_compute; reflexivity.
Defined.

(** Without a day the month's digits are split between month and day: the
    contract month "202612" is read as 2 January 2026. *)
Theorem year_month_misread :
  parse_expiration_ns "202612" = timestamp_ns_of (MkDate 2026 1 2).
Proof. vm_compute. reflexivity. Qed.

(** A whole-number tick at precision 0 loses its zeros. *)
Theorem whole_tick_loses_zeros :
  trimmed_fixed 0 (f64_of_decimal false 10 0) = "1.0" /\
  trimmed_fixed 0 (f64_of_decimal false 100 0) = "1.0" /\
  trimmed_fixed 2 (f64_of_decimal false 10 0) = "10.0" /\
  trimmed_fixed 2 (f64_of_decimal false 25 (-2)) = "0.25".
Proof. vm_compute. auto. Qed.

(** ** Facts: contract identity *)

Section Identity.
Context `{NautilusTypes}.
Variable quantity_from_str : string -> res Price.
Variable check_contract : Contract -> res unit.

(** A contract and the route in its info name the same listing. *)
Definition names (c : Contract) (symbol exchange : string) : Prop :=
  ct_raw_symbol c = symbol /\ ct_exchange c = exchange /\
  rithmic_route_from_info (ct_info c) = Ok (symbol, exchange) /\
  (raw ← instrument_id_from_symbol symbol (Some exchange); instrument_id_from_str raw)
  = Ok (ct_instrument_id c).

(** Expose a successful chain of fallible steps. *)
Ltac ok_steps H :=
  unfold mbind, res_bind in H;
  repeat (match type of H with
          | match ?m with Ok _ => _ | Raise _ => _ end = Ok _ =>
              let E := fresh "E" in destruct m eqn:E; [|discriminate H]
          | (if ?b then _ else _) = Ok _ =>
              let E := fresh "E" in destruct b eqn:E; try discriminate H
          end; cbv beta zeta in H).

Lemma route_of_info x s p i t :
  rithmic_route_from_info
    (dict_of [("rithmic_exchange", VStr x); ("rithmic_symbol", VStr s);
              ("rithmic_product_code", p); ("rithmic_instrument_type", i);
              ("rithmic_is_tradable", t)])
  = if negb (nonempty s) || negb (nonempty x)
    then Raise (Exn ExValue None "missing rithmic_symbol/rithmic_exchange in info")
    else Ok (s, x).
Proof. reflexivity. Qed.

Lemma future_from_reference_ok ref act c :
  future_from_reference quantity_from_str check_contract ref act = Ok c ->
  exists symbol exchange,
    ct_raw_symbol c = symbol /\ ct_exchange c = exchange /\
    ct_activation_ns c = default 0 act /\
    (forall r, rithmic_route_from_info (ct_info c) = Ok r -> r = (symbol, exchange)) /\
    (raw ← instrument_id_from_symbol symbol (Some exchange); instrument_id_from_str raw)
    = Ok (ct_instrument_id c) /\
    (exists text, parse_expiration_ns text = Ok (ct_expiration_ns c)).
Proof.
  unfold future_from_reference. intros Hok. ok_steps Hok. injection Hok as <-.
  eexists _, _. cbn [ct_raw_symbol ct_exchange ct_activation_ns ct_info ct_instrument_id
    ct_expiration_ns]. split_and!; try reflexivity; [|by unfold mbind, res_bind; rewrite E2|eauto].
  intros r. rewrite route_of_info. destruct (_ || _); [done|]. by intros [= <-].
Qed.

Lemma load_contract_ok s symbol exchange act c :
  load_contract_instrument quantity_from_str check_contract s symbol exchange act = Ok c ->
  names c (upper (strip symbol)) (strip exchange) /\
  product_root (upper (strip symbol)) <> upper (strip symbol).
Proof.
  unfold load_contract_instrument. intros Hok. case_bool_decide as Er; [done|].
  unfold mbind, res_bind in Hok.
  destruct (reference_dict _ _ _) as [ref|]; [|done].
  destruct (future_from_reference _ _ ref _) as [i|] eqn:Ef; [|done].
  destruct (rithmic_route_from_info (ct_info i)) as [r|] eqn:Ei; [|done].
  case_bool_decide as Eq; [|done]. injection Hok as ->. subst r.
  apply future_from_reference_ok in Ef as (sy & ex & Hs & Hx & _ & Hr & Hid & _).
  specialize (Hr _ Ei). injection Hr as <- <-. done.
Qed.

(** The instrument a pair asks for. *)
Definition serves (s : RefSession) (pair : string * string) (c : Contract) : Prop :=
  let symbol := upper (strip pair.1) in
  if bool_decide (product_root symbol = symbol)
  then load_front_month_instrument quantity_from_str check_contract s symbol pair.2 0 = Ok c
  else names c symbol (strip pair.2).

Lemma strip_upper s : strip (upper s) = upper (strip s).
Proof.
  assert (Hsp : forall a, py_space (up_ascii a) = py_space a).
  { intros a. unfold up_ascii, is_lower, py_space, chr.
    destruct a as [b0 b1 b2 b3 b4 b5 b6 b7].
    destruct b0, b1, b2, b3, b4, b5, b6, b7; reflexivity. }
  unfold strip, strip_by, upper.
  assert (Hl : forall t, dropl py_space (smap up_ascii t) = smap up_ascii (dropl py_space t)).
  { induction t as [|a t IH]; simpl; [done|]. rewrite Hsp. by destruct (py_space a). }
  rewrite Hl. generalize (dropl py_space s) as t.
  induction t as [|a t IH]; simpl; [done|]. rewrite IH, Hsp.
  destruct (dropr py_space t); simpl; [by destruct (py_space a)|done].
Qed.

(** The provider loads the pairs in order, one instrument each: when it
    succeeds, a listed contract gets an instrument that names exactly the pair
    asked for (symbol, route and id), a product root the venue's front month;
    when it fails, the instruments before the failing pair are kept. *)
Theorem provider_loads_pairs s pairs loaded :
  match load_all quantity_from_str check_contract s pairs loaded with
  | (Ok _, l) => exists new, l = loaded ++ new /\ Forall2 (serves s) pairs new
  | (Raise _, l) => exists n new, l = loaded ++ new /\ (n < length pairs)%nat /\
                      Forall2 (serves s) (take n pairs) new
  end.
Proof.
  revert loaded. induction pairs as [|[sym ex] pairs IH]; intros loaded; simpl.
  { exists []. rewrite app_nil_r. split; [done|constructor]. }
  unfold mbind, M_bind, lift, modify.
  match goal with |- context [match ?r with Ok _ => _ | Raise _ => _ end] =>
    match r with (if _ then _ else _) => destruct r as [c|e] eqn:El end end; cycle 1.
  { exists 0%nat, []. rewrite app_nil_r. split_and!; [done|lia|constructor]. }
  assert (Hserve : serves s (sym, ex) c).
  { unfold serves. simpl. case_bool_decide; [done|].
    apply load_contract_ok in El as [Hn _]. rewrite strip_upper, upper_idem in Hn.
    unfold strip in Hn |- *. by rewrite strip_by_idem in Hn. }
  specialize (IH (loaded ++ [c])).
  destruct (load_all _ _ s pairs (loaded ++ [c])) as [[[]|e] l].
  - destruct IH as (new & -> & Hf). exists (c :: new). rewrite <- app_assoc.
    split; [done|by constructor].
  - destruct IH as (n & new & -> & Hn & Hf). exists (S n), (c :: new).
    rewrite <- app_assoc. split_and!; [done|lia|by constructor].
Qed.

End Identity.
