(* ===== verification/Verify.v ===== *)
(** * Live against history (verify.py)

    The verification tool records live trades of the front month, reloads the
    same window from history and compares the two on [(timestamp, price)] keys.

    A price is rounded to six places before it is compared ([round(x, 6)], the
    float nearest to the exact value's six-place decimal); Python's key equality
    identifies the two zeros.  Prices are numbers: a NaN, which no key lookup
    finds in Python, is outside the model.  The clock and the session's polls of
    the recording loop are a list of turns.  Files and JSON text are not
    modelled. *)

From Stdlib Require Import Ascii String.
From stdpp Require Import base gmap strings list.
From Stdlib Require Import ZArith Lia.
From Corelib Require Import SpecFloat.
From S2P Require Import Prelude PyVal Plant Lru Ident Nautilus Orders OrderRows Commission Host Convert Bars Ticks Instruments.
Import Text.
Open Scope string_scope.
Open Scope list_scope.
Open Scope Z_scope.

Record RecordedTick := MkRecorded {
  rt_ts : Z;
  rt_price : f64;
  rt_size : option f64;
  rt_source : string
}.

Definition norm_zero (f : f64) : f64 :=
  match f with S754_zero _ => S754_zero false | _ => f end.

(** [round(x, 6)]. *)
Definition round6 (x : f64) : f64 := norm_zero (default x (f64_of_str (fixed_f64 6 x))).

Definition TickKey : Type := (Z * f64)%type.

Definition tick_key (t : RecordedTick) : TickKey := (rt_ts t, round6 (rt_price t)).

Definition event_to_recorded (event : pydict) (source : string) : res (option RecordedTick) :=
  if negb (is_str_in (dget event "type") ["last_trade"; "history_tick"]) then Ok None
  else
    let price := dget event "trade_price" in
    let size := dget event "trade_size" in
    ts ← (if is_none (dget event "ts_event_ns") && negb (is_none (dget event "ssboe")) then
            let usecs := if is_none (dget event "usecs") then VInt 0 else dget event "usecs" in
            s ← py_int (dget event "ssboe");
            u ← py_int usecs;
            Ok (VInt (s * 1000000000 + u * 1000))
          else Ok (dget event "ts_event_ns"));
    if is_none price || is_none size || is_none ts
    then Raise (Exn ExValue None "missing trade_price/trade_size/timestamp")
    else
      t ← py_int ts;
      p ← py_float price;
      z ← py_float size;
      Ok (Some (MkRecorded t p (Some z) source)).

Fixpoint insert_recorded (t : RecordedTick) (l : list RecordedTick) : list RecordedTick :=
  match l with
  | [] => [t]
  | x :: l' => if rt_ts t <=? rt_ts x then t :: l else x :: insert_recorded t l'
  end.
Definition sort_recorded (l : list RecordedTick) : list RecordedTick := foldr insert_recorded [] l.

(** ** Recording *)

(** One turn of the loop: whether the clock is before the deadline, and the
    polled event. *)
Record PollTurn := MkPollTurn { pt_before_deadline : bool; pt_event : res (option pydict) }.

(** The calls made on the session, in order. *)
Inductive VerifyCall := VSubscribe | VUnsubscribe.

Fixpoint record_loop (turns : list PollTurn) (max_events : nat) (out : list RecordedTick)
  : res (list RecordedTick) :=
  match turns with
  | [] => Ok out
  | t :: turns' =>
      if pt_before_deadline t && bool_decide (length out < max_events)%nat then
        event ← pt_event t;
        match event with
        | None => record_loop turns' max_events out
        | Some e =>
            tick ← event_to_recorded e "live";
            record_loop turns' max_events
              (match tick with Some x => out ++ [x] | None => out end)
        end
      else Ok out
  end.

(** The subscription calls made, and the outcome. *)
Definition record_live_trades (turns : list PollTurn) (positive_duration : bool) (max_events : nat)
  (subscribe unsubscribe : res unit) : M (list VerifyCall) (list RecordedTick) :=
  if negb positive_duration then throw (Exn ExValue None "duration_sec must be > 0")
  else
    modify (fun c => c ++ [VSubscribe]) ;;
    _ ← lift subscribe;
    out ← lift (record_loop turns max_events []);
    modify (fun c => c ++ [VUnsubscribe]) ;;
    _ ← lift unsubscribe;
    mret (sort_recorded out).

Fixpoint recorded_rows (rows : list pydict) : res (list RecordedTick) :=
  match rows with
  | [] => Ok []
  | item :: rows' =>
      tick ← event_to_recorded item "history";
      match tick with
      | None => Raise (Exn ExValue None "unexpected history payload type")
      | Some t => rest ← recorded_rows rows'; Ok (t :: rest)
      end
  end.

Definition load_history_trades (reply : res (list pydict)) : res (list RecordedTick) :=
  raw ← reply;
  out ← recorded_rows raw;
  Ok (sort_recorded out).

(** ** Comparison *)

Definition min_ts (l : list RecordedTick) (d : Z) : Z := foldr (fun t m => Z.min (rt_ts t) m) d l.
Definition max_ts (l : list RecordedTick) (d : Z) : Z := foldr (fun t m => Z.max (rt_ts t) m) d l.

(** The distinct keys, as the key set of the map built from the ticks. *)
Definition keys (l : list RecordedTick) : list TickKey := remove_dups (tick_key <$> l).

(** The tick a key is bound to: the last one. *)
Definition tick_at (k : TickKey) (l : list RecordedTick) : option RecordedTick :=
  List.find (fun t => bool_decide (tick_key t = k)) (reverse l).

Definition f64_abs (f : f64) : f64 := SFabs f.
Definition f64_sub : f64 -> f64 -> f64 := SFsub prec64 emax64.
Definition PRICE_TOL : f64 := f64_of_decimal false 1 (-6).

Definition near (a b : f64) : bool := SFleb (f64_abs (f64_sub a b)) PRICE_TOL.

(** [max(a, b)]: the first wins ties. *)
Definition f64_max (a b : f64) : f64 := if SFltb a b then b else a.
Definition f64_min (a b : f64) : f64 := if SFltb b a then b else a.

(** The rounded prices at one timestamp. *)
Definition prices_at (ts : Z) (l : list RecordedTick) : list f64 :=
  remove_dups (omap (fun t => if rt_ts t =? ts then Some (round6 (rt_price t)) else None) l).

(** Mismatches at one timestamp: how many, and the largest distance. *)
Definition mismatch_at (live hist : list RecordedTick) (acc : Z * f64) (ts : Z) : Z * f64 :=
  match prices_at ts hist with
  | [] => acc
  | hp0 :: hps =>
      foldl (fun '(n, d) lp =>
        if existsb (near lp) (hp0 :: hps) then (n, d)
        else
          let nearest := foldl (fun m hp => f64_min m (f64_abs (f64_sub lp hp)))
                           (f64_abs (f64_sub lp hp0)) hps in
          (n + 1, f64_max d nearest)) acc (prices_at ts live)
  end.

Definition seconds (ts : Z) : Z := ts / 1000000000.

Definition key_leb (a b : TickKey) : bool :=
  (a.1 <? b.1) || ((a.1 =? b.1) && SFleb a.2 b.2).
Fixpoint insert_key (k : TickKey) (l : list TickKey) : list TickKey :=
  match l with
  | [] => [k]
  | x :: l' => if key_leb k x then k :: l else x :: insert_key k l'
  end.
Definition sample (ks : list TickKey) (src : list RecordedTick) : list RecordedTick :=
  omap (fun k => tick_at k src) (take 5 (foldr insert_key [] ks)).

Record Compare := MkCompare {
  cp_matched : Z;
  cp_mismatched : Z;
  cp_live_only : Z;
  cp_history_only : Z;
  cp_fuzzy : Z;
  cp_live_count : Z;
  cp_history_in_window : Z;
  cp_unique_live : Z;
  cp_unique_history : Z;
  cp_max_price_diff : option f64;
  cp_overlap_ratio : f64;
  cp_window : option (Z * Z);
  cp_live_samples : list RecordedTick;
  cp_history_samples : list RecordedTick;
  cp_duplicates : Z
}.

Definition in_list (l : list TickKey) (k : TickKey) : bool := bool_decide (k ∈ l).
Definition zlen {A} (l : list A) : Z := Z.of_nat (length l).

(** [round(matched / denom, 4)]. *)
Definition ratio4 (matched denom : Z) : f64 :=
  let q := SFdiv prec64 emax64 (default S754_nan (f64_of_Z matched))
             (default S754_nan (f64_of_Z (Z.max denom 1))) in
  default q (f64_of_str (fixed_f64 4 q)).

Definition compare_ticks (live history : list RecordedTick) : Compare :=
  match live with
  | [] => MkCompare 0 0 0 0 0 0 0 0 0 None (S754_zero false) None [] [] 0
  | t0 :: _ =>
      let live_start := min_ts live (rt_ts t0) in
      let live_end := max_ts live (rt_ts t0) in
      let hist := List.filter (fun h => (live_start <=? rt_ts h) && (rt_ts h <=? live_end)) history in
      let live_keys := keys live in
      let hist_keys := keys hist in
      let matched := List.filter (in_list hist_keys) live_keys in
      let live_only := List.filter (fun k => negb (in_list hist_keys k)) live_keys in
      let hist_only := List.filter (fun k => negb (in_list live_keys k)) hist_keys in
      let '(mismatched, max_diff) :=
        foldl (mismatch_at live hist) (0, S754_zero false) (remove_dups (rt_ts <$> live)) in
      let fuzzy := List.filter (fun k =>
        existsb (fun h => (seconds h.1 =? seconds k.1) && near k.2 h.2) hist_only) live_only in
      MkCompare (zlen matched) mismatched (zlen live_only) (zlen hist_only) (zlen fuzzy)
        (zlen live) (zlen hist) (zlen live_keys) (zlen hist_keys)
        (Some (if mismatched =? 0 then S754_zero false else max_diff))
        (ratio4 (zlen matched) (zlen live_keys)) (Some (live_start, live_end))
        (sample live_only live) (sample hist_only hist)
        (zlen live - zlen live_keys)
  end.

(** ** The report *)

Record VerifyReport := MkReport {
  vr_ok : bool;
  vr_front : FrontMonth;
  vr_window : Z * Z;
  vr_live : list RecordedTick;
  vr_history : list RecordedTick;
  vr_compare : Compare;
  vr_errors : nat
}.

(** The history window: around the live ticks, or around now. *)
Definition verify_window (live : list RecordedTick) (now record_sec pad : Z) : Z * Z :=
  match head live, last live with
  | Some a, Some b => (seconds (rt_ts a) - pad, seconds (rt_ts b) + pad)
  | _, _ => (now - record_sec - pad, now + pad)
  end.

Definition run_front_month_verify (s : RefSession) (root exchange : string)
  (turns : list PollTurn) (positive_duration : bool) (subscribe unsubscribe : res unit)
  (load : string -> string -> Z -> Z -> res (list pydict))
  (now record_sec pad : Z) (min_live : nat) (min_overlap : f64)
  : M (list VerifyCall) VerifyReport :=
  front ← lift (resolve_front_month s root exchange);
  live ← record_live_trades turns positive_duration 500 subscribe unsubscribe;
  let '(start_sec, end_sec) := verify_window live now record_sec pad in
  history ← lift (load_history_trades
                    (load (fm_trading_symbol front) (fm_trading_exchange front) start_sec end_sec));
  let compare := compare_ticks live history in
  let no_live := bool_decide (live = []) in
  let ok := negb no_live && bool_decide (min_live <= length live)%nat
            && SFleb min_overlap (cp_overlap_ratio compare) in
  let errors := ((if no_live then 1 else 0)
                 + (if bool_decide (length live < min_live)%nat then 1 else 0))%nat in
  mret (MkReport ok front (start_sec, end_sec) live history compare errors).

(** ** Facts *)

Lemma filter_split {A} (p : A -> bool) (l : list A) :
  (length (List.filter p l) + length (List.filter (fun x => negb (p x)) l) = length l)%nat.
Proof. induction l as [|a l IH]; simpl; [done|]. destruct (p a); simpl; lia. Qed.

Lemma filter_length_le {A} (p : A -> bool) (l : list A) :
  (length (List.filter p l) <= length l)%nat.
Proof. pose proof (filter_split p l). lia. Qed.

Lemma elem_of_filter_bool {A} (p : A -> bool) (l : list A) x :
  x ∈ List.filter p l <-> x ∈ l /\ p x = true.
Proof. by rewrite !list_elem_of_In, List.filter_In. Qed.

(** The common part of two duplicate-free lists has the same size from either
    side. *)
Lemma common_length (a b : list TickKey) :
  NoDup a -> NoDup b ->
  length (List.filter (in_list b) a) = length (List.filter (in_list a) b).
Proof.
  intros Ha Hb. apply Permutation_length, NoDup_Permutation; [by apply filter_nodup..|].
  intros k. rewrite !elem_of_filter_bool. unfold in_list. rewrite !bool_decide_eq_true. tauto.
Qed.

Lemma keys_nodup l : NoDup (keys l).
Proof. apply NoDup_remove_dups. Qed.

Lemma remove_dups_le {A} `{EqDecision A} (l : list A) : (length (remove_dups l) <= length l)%nat.
Proof. induction l as [|a l IH]; simpl; [done|]. case_match; simpl; lia. Qed.

Lemma keys_le l : (length (keys l) <= length l)%nat.
Proof. unfold keys. rewrite <- (length_fmap tick_key l). apply remove_dups_le. Qed.

(** The comparison accounts for every key once: on each side the matched
    and the unmatched keys add up to the distinct keys, which with the collapsed
    duplicates add up to the rows; near-second matches are among the unmatched;
    and history outside the live window does not enter the counts. *)
Theorem compare_accounts live history :
  let c := compare_ticks live history in
  cp_matched c + cp_live_only c = cp_unique_live c /\
  cp_matched c + cp_history_only c = cp_unique_history c /\
  cp_unique_live c + cp_duplicates c = cp_live_count c /\
  cp_live_count c = zlen live /\
  0 <= cp_duplicates c /\ 0 <= cp_fuzzy c <= cp_live_only c /\
  cp_unique_history c <= cp_history_in_window c <= zlen history.
Proof.
  unfold compare_ticks. destruct live as [|t0 live].
  { cbn -[zlen]. pose proof (Nat2Z.is_nonneg (length history)). unfold zlen. simpl. tauto || lia. }
  set (L := t0 :: live). set (start := min_ts L _). set (stop := max_ts L _).
  set (H := List.filter _ history).
  destruct (foldl (mismatch_at L H) _ _) as [mis diff].
  cbn -[keys]. unfold zlen.
  pose proof (filter_split (in_list (keys H)) (keys L)).
  pose proof (filter_split (in_list (keys L)) (keys H)).
  pose proof (common_length (keys L) (keys H) (keys_nodup L) (keys_nodup H)).
  pose proof (keys_le L). pose proof (keys_le H).
  assert (length H <= length history)%nat by apply filter_length_le.
  match goal with |- context [Z.of_nat (length (List.filter ?p (List.filter ?q (keys L))))] =>
    pose proof (filter_length_le p (List.filter q (keys L))) end.
  clearbody L H. unfold TickKey in *. lia.
Qed.

(** A live recording that history confirms completely has nothing left over. *)
Lemma compare_complete live history :
  live <> [] ->
  (forall t, t ∈ live -> exists h, h ∈ history /\ tick_key h = tick_key t) ->
  cp_live_only (compare_ticks live history) = 0.
Proof.
  intros Hne Hall. unfold compare_ticks. destruct live as [|t0 live]; [done|].
  set (L := t0 :: live) in *. set (start := min_ts L _). set (stop := max_ts L _).
  set (H := List.filter _ history).
  destruct (foldl (mismatch_at L H) _ _) as [mis diff]. cbn -[keys]. unfold zlen.
  assert (Hb : forall t d, t ∈ L -> min_ts L d <= rt_ts t <= max_ts L d).
  { generalize L as l. induction l as [|x l IH]; intros t d Ht; [by apply elem_of_nil in Ht|].
    apply elem_of_cons in Ht as [->|Ht]; simpl; [lia|]. specialize (IH t d Ht). lia. }
  assert (Hempty : List.filter (fun k => negb (in_list (keys H) k)) (keys L) = []).
  { destruct (List.filter _ (keys L)) as [|k l] eqn:E; [done|]. exfalso.
    assert (Hk : k ∈ List.filter (fun k => negb (in_list (keys H) k)) (keys L)) by (rewrite E; left).
    apply elem_of_filter_bool in Hk as [Hk Hn]. unfold in_list in Hn.
    apply negb_true_iff, bool_decide_eq_false in Hn. apply Hn.
    unfold keys in Hk |- *. rewrite elem_of_remove_dups, list_elem_of_fmap in Hk.
    destruct Hk as (t & -> & Ht). destruct (Hall t Ht) as (h & Hh & Hkey).
    rewrite elem_of_remove_dups, list_elem_of_fmap. exists h. split; [done|].
    subst H. apply elem_of_filter_bool. split; [done|].
    assert (rt_ts h = rt_ts t) as -> by (unfold tick_key in Hkey; congruence).
    specialize (Hb t (rt_ts t0) Ht). subst start stop. lia. }
  by rewrite Hempty.
Qed.

(** A last-trade message without a price, which the data client passes over as
    an ordinary statistics update, aborts the recording with the subscription
    still on. *)
Definition stats_only : pydict :=
  dict_of [("type", VStr "last_trade"); ("symbol", VStr "NQZ6"); ("ssboe", VInt 7);
           ("volume", VInt 3)].

Theorem stats_update_aborts_recording :
  record_live_trades [MkPollTurn true (Ok (Some stats_only))] true 500 (Ok tt) (Ok tt) []
  = (Raise (Exn ExValue None "missing trade_price/trade_size/timestamp"), [VSubscribe]).
Proof. vm_compute. reflexivity. Qed.

(** A report that says OK had live trades, enough of them, and enough overlap. *)
Lemma report_ok_means s root exchange turns pos sub unsub load now rec pad min_live min_ov c r c' :
  run_front_month_verify s root exchange turns pos sub unsub load now rec pad min_live min_ov c
  = (Ok r, c') ->
  vr_ok r = true ->
  vr_live r <> [] /\ (min_live <= length (vr_live r))%nat /\ vr_errors r = 0%nat /\
  SFleb min_ov (cp_overlap_ratio (vr_compare r)) = true /\
  vr_compare r = compare_ticks (vr_live r) (vr_history r).
Proof.
  unfold run_front_month_verify. run_monad.
  destruct (resolve_front_month s root exchange) as [front|]; [|done].
  destruct (record_live_trades _ _ _ _ _ c) as [[live|] c1]; [|done].
  destruct (verify_window live now rec pad) as [a b].
  destruct (load_history_trades _) as [hist|]; [|done].
  intros [= <- <-]. cbn [vr_ok vr_live vr_errors vr_compare vr_history].
  rewrite !andb_true_iff. intros [[Hn Hm%bool_decide_eq_true] Ho].
  case_bool_decide as E; [done|].
  rewrite bool_decide_eq_false_2 by lia. done.
Qed.
