(* ===== verification/DryRun.v ===== *)
(** * The gated order smoke test (scripts/verify_order_dry_run.py)

    [main] as a computation over the log of session calls it makes.  The world
    ([DryWorld]) holds the environment variable, the session's answers and, for
    each of the three bounded polling loops, the answers it got before its
    deadline.  The result is the process exit code.  Printing and the report
    file are not modelled. *)

From Stdlib Require Import Ascii String.
From stdpp Require Import base gmap strings list.
From Stdlib Require Import ZArith Lia.
From Corelib Require Import SpecFloat.
From S2P Require Import Prelude PyVal Redact Ident Config Plant Lru Nautilus Orders OrderRows Commission Host Convert Bars Ticks Instruments.
Import Text.
Open Scope string_scope.
Open Scope list_scope.
Open Scope Z_scope.

Definition SMOKE_TAG_PREFIX : string := "rithmic-nt-connect-dryrun".

(** ** Triggers *)

Definition f64_is_finite (x : f64) : bool :=
  match x with S754_zero _ | S754_finite _ _ _ => true | _ => false end.

Definition valid_offset (offset : f64) : bool :=
  f64_is_finite offset && SFltb (S754_zero false) offset.

Definition derive_trigger (side : string) (market_px offset : f64) : res f64 :=
  if negb (bool_decide (side ∈ ["SELL"; "BUY"])) then
    Raise (Exn ExValue None "unsupported side")
  else if negb (valid_offset offset) then
    Raise (Exn ExValue None "offset must be finite and > 0")
  else Ok (if bool_decide (side = "SELL") then SFsub prec64 emax64 market_px offset
           else SFadd prec64 emax64 market_px offset).

(** ** Attribution *)

(** [_slim_event]: the keys kept of a polled event. *)
Definition SLIM_KEYS : list string :=
  ["type"; "source"; "notify_type_name"; "status"; "basket_id"; "user_tag"; "symbol"; "text";
   "report_text"; "price"].
Definition slim_event (ev : pydict) : pydict :=
  dict_of ((fun k => (k, dget ev k)) <$> SLIM_KEYS).

Definition basket_of (e : pydict) : option string :=
  if truthy (dget e "basket_id") then Some (py_str (dget e "basket_id")) else None.

(** Baskets of rows carrying our tag. *)
Definition tagged (events : list pydict) (tag : string) : list string :=
  remove_dups (omap (fun e => if is_str (dget e "user_tag") tag then basket_of e else None) events).

Definition our_baskets (events : list pydict) (tag : string) : list string :=
  match tagged events tag with
  | [] => []
  | t => remove_dups (omap (fun e => match basket_of e with
                                     | Some b => if bool_decide (b ∈ t) then Some b else None
                                     | None => None
                                     end) events)
  end.

Fixpoint insert_text (s : string) (l : list string) : list string :=
  match l with
  | [] => [s]
  | x :: l' => if String.leb s x then s :: l else x :: insert_text s l'
  end.
Definition sorted_text (l : list string) : list string := foldr insert_text [] l.

(** ** Arguments, world, calls *)

Inductive SmokeType := SLimit | SStopMarket.

#[export] Instance SmokeType_eq_dec : EqDecision SmokeType.
Proof. solve_decision. Defined.

Record DryArgs := MkDryArgs {
  da_live_place : bool;
  da_no_live_place : bool;
  da_root : string;
  da_exchange : string;
  da_price : option f64;
  da_side : string;
  da_order_type : SmokeType;
  da_trigger_price : option f64;
  da_auto_trigger_offset : option f64
}.

Record DryWorld := MkDryWorld {
  dw_enable_trading : option string;           (* RITHMIC_ENABLE_TRADING *)
  dw_config : res unit;                        (* dotenv, from_env, create_session *)
  dw_tag : string;                             (* eight random hex digits *)
  dw_connect : res unit;
  dw_session : RefSession;
  dw_subscribe_orders : res unit;
  dw_resolved_account : res unit;
  dw_subscribe : res unit;
  dw_ticker : list (res (option pydict));
  dw_place : res unit;
  dw_polls : list (res (option pydict));
  dw_cancel : string -> res unit;
  dw_cancel_polls : list (res (option pydict))
}.

Inductive DryCall :=
  | DConnect
  | DSubscribeOrders
  | DSubscribeTicker (symbol exchange : string)
  | DPlace (symbol exchange side : string) (type : SmokeType) (qty : Z) (tag : string)
      (price trigger : option f64)
  | DCancel (basket : string)
  | DDisconnect.

Definition note_call (c : DryCall) : M (list DryCall) unit := modify (fun l => l ++ [c]).

Definition smoke_tag (w : DryWorld) : string := SMOKE_TAG_PREFIX +:+ "-" +:+ dw_tag w.

(** ** The gates *)

Definition allow_live (a : DryArgs) (w : DryWorld) : bool :=
  da_live_place a && env_truthy (dw_enable_trading w) false && negb (da_no_live_place a).

Definition refused (a : DryArgs) (w : DryWorld) : bool :=
  let live := allow_live a w in
  if da_live_place a && negb live then true
  else if live && bool_decide (da_order_type a = SLimit) && bool_decide (da_price a = None) then true
  else if live && bool_decide (da_order_type a = SStopMarket) then
    match da_trigger_price a, da_auto_trigger_offset a with
    | None, None => true
    | _, Some offset => negb (valid_offset offset)
    | Some _, None => false
    end
  else false.

(** ** Loops *)

(** [_poll_market_px]: the first last-trade price seen. *)
Fixpoint market_price (polls : list (res (option pydict))) : res (option f64) :=
  match polls with
  | [] => Ok None
  | p :: polls' =>
      ev ← p;
      match ev with
      | Some d =>
          if is_str (dget d "type") "last_trade" && negb (is_none (dget d "trade_price"))
          then px ← py_float (dget d "trade_price"); Ok (Some px)
          else market_price polls'
      | None => market_price polls'
      end
  end.

Definition poll_market_px (w : DryWorld) (symbol exchange : string)
  : M (list DryCall) (option f64) :=
  note_call (DSubscribeTicker symbol exchange) ;;
  _ ← lift (dw_subscribe w);
  lift (market_price (dw_ticker w)).

Fixpoint poll_orders (polls : list (res (option pydict))) : res (list pydict) :=
  match polls with
  | [] => Ok []
  | p :: polls' =>
      ev ← p;
      rest ← poll_orders polls';
      Ok (match ev with Some d => slim_event d :: rest | None => rest end)
  end.

(** ** [main] *)

(** The trigger of the order; [None] inside is "no last trade observed". *)
Definition choose_trigger (a : DryArgs) (w : DryWorld) (front : FrontMonth)
  : M (list DryCall) (option (option f64)) :=
  match da_order_type a with
  | SLimit => mret (Some None)
  | SStopMarket =>
      match da_trigger_price a with
      | Some t => mret (Some (Some t))
      | None =>
          market ← poll_market_px w (fm_trading_symbol front) (fm_trading_exchange front);
          match market with
          | None => mret None
          | Some px =>
              let offset := default (S754_zero false) (da_auto_trigger_offset a) in
              t ← lift (derive_trigger (da_side a) px offset);
              mret (Some (Some t))
          end
      end
  end.

(** Cancel every basket of ours; an error stops the loop and is swallowed. *)
Definition cancel_all_ours (w : DryWorld) (baskets : list string) : M (list DryCall) unit :=
  forM_ baskets (fun b => note_call (DCancel b) ;; _ ← lift (dw_cancel w b); mret tt).

(** The events after the cancel, or [None] when cancelling failed. *)
Definition cancel_smoke (w : DryWorld) (baskets : list string)
  : M (list DryCall) (option (list pydict)) :=
  catchM any_exn
    (cancel_all_ours w baskets ;; more ← lift (poll_orders (dw_cancel_polls w)); mret (Some more))
    (fun _ => mret None).

Definition finish (placed : bool) (events : list pydict) : M (list DryCall) Z :=
  mret (if placed && bool_decide (events = []) then 1 else 0).

Definition after_place (a : DryArgs) (w : DryWorld) (placed : bool) : M (list DryCall) Z :=
  events ← lift (poll_orders (dw_polls w));
  if placed then
    match sorted_text (our_baskets events (smoke_tag w)) with
    | [] => mret 1
    | baskets =>
        more ← cancel_smoke w baskets;
        finish placed (events ++ default [] more)
    end
  else finish placed events.

Definition send_smoke (a : DryArgs) (w : DryWorld) (front : FrontMonth) (trigger : option f64)
  : M (list DryCall) Z :=
  note_call (DPlace (fm_trading_symbol front) (fm_trading_exchange front) (da_side a)
               (da_order_type a) 1 (smoke_tag w)
               (if bool_decide (da_order_type a = SLimit) then da_price a else None) trigger) ;;
  _ ← lift (dw_place w);
  after_place a w true.

Definition run_session (a : DryArgs) (w : DryWorld) : M (list DryCall) Z :=
  note_call DConnect ;;
  _ ← lift (dw_connect w);
  front ← lift (resolve_front_month (dw_session w) (da_root a) (da_exchange a));
  note_call DSubscribeOrders ;;
  _ ← lift (dw_subscribe_orders w);
  _ ← lift (dw_resolved_account w);
  if allow_live a w then
    trigger ← choose_trigger a w front;
    match trigger with
    | None => mret 4
    | Some trigger_price => send_smoke a w front trigger_price
    end
  else after_place a w false.

Definition dry_main (a : DryArgs) (w : DryWorld) : M (list DryCall) Z :=
  if refused a w then mret 3
  else
    _ ← lift (dw_config w);
    code ← catchM any_exn (run_session a w) (fun _ => mret 1);
    note_call DDisconnect ;;
    mret code.

(** ** Facts *)

(** An event that is a last trade with a price. *)
Definition priced_trade (ev : option pydict) : bool :=
  match ev with
  | Some d => is_str (dget d "type") "last_trade" && negb (is_none (dget d "trade_price"))
  | None => false
  end.

(** [px] is the price of the first priced last trade the ticker polled, every
    poll before it having succeeded. *)
Definition first_trade_price (w : DryWorld) (px : f64) : Prop :=
  exists before d after,
    dw_ticker w = (Ok <$> before) ++ Ok (Some d) :: after
    /\ Forall (fun ev => priced_trade ev = false) before
    /\ priced_trade (Some d) = true /\ py_float (dget d "trade_price") = Ok px.

(** The trigger was given, or is the first polled last trade moved by the finite
    positive offset to the resting side: down for a sell, up for a buy. *)
Definition trigger_explicit (a : DryArgs) (w : DryWorld) (t : f64) : Prop :=
  da_trigger_price a = Some t \/
  da_trigger_price a = None /\
  exists px offset, first_trade_price w px /\ da_auto_trigger_offset a = Some offset
    /\ valid_offset offset = true
    /\ (da_side a = "SELL" /\ t = SFsub prec64 emax64 px offset
        \/ da_side a = "BUY" /\ t = SFadd prec64 emax64 px offset).

(** What a call may be. *)
Definition allowed (a : DryArgs) (w : DryWorld) (c : DryCall) : Prop :=
  match c with
  | DPlace symbol exchange side ty qty tag price trigger =>
      da_live_place a = true /\ da_no_live_place a = false /\
      env_truthy (dw_enable_trading w) false = true /\
      (exists front, resolve_front_month (dw_session w) (da_root a) (da_exchange a) = Ok front /\
         symbol = fm_trading_symbol front /\ exchange = fm_trading_exchange front) /\
      side = da_side a /\ ty = da_order_type a /\ qty = 1 /\ tag = smoke_tag w /\
      match ty with
      | SLimit => price = da_price a /\ is_Some price /\ trigger = None
      | SStopMarket => price = None /\ exists t, trigger = Some t /\ trigger_explicit a w t
      end
  | DCancel b =>
      da_live_place a = true /\
      exists events e, poll_orders (dw_polls w) = Ok events /\ e ∈ events /\
        basket_of e = Some b /\ is_str (dget e "user_tag") (smoke_tag w) = true
  | _ => True
  end.

Definition only_allowed (a : DryArgs) (w : DryWorld) (l l' : list DryCall) : Prop :=
  exists new, l' = l ++ new /\ Forall (allowed a w) new.

Section Allowed.
Context (a : DryArgs) (w : DryWorld).

#[local] Instance only_allowed_preorder : PreOrder (only_allowed a w).
Proof.
  split.
  - intros l. exists []. rewrite app_nil_r. by split; [|constructor].
  - intros l1 l2 l3 (n1 & -> & H1) (n2 & -> & H2). exists (n1 ++ n2).
    rewrite app_assoc. split; [done|]. by apply Forall_app.
Qed.

#[local] Abbreviation safe := (preserves (only_allowed a w)).

Lemma safe_note c : allowed a w c -> safe (note_call c).
Proof. intros Hc l. exists [c]. split; [done|]. by repeat constructor. Qed.

#[local] Hint Extern 1 (preserves _ (note_call DConnect)) => by apply safe_note : preserve.
#[local] Hint Extern 1 (preserves _ (note_call DSubscribeOrders)) => by apply safe_note : preserve.
#[local] Hint Extern 1 (preserves _ (note_call DDisconnect)) => by apply safe_note : preserve.
#[local] Hint Extern 1 (preserves _ (note_call (DSubscribeTicker _ _))) =>
  by apply safe_note : preserve.

Lemma safe_trigger front : safe (choose_trigger a w front).
Proof. unfold choose_trigger, poll_market_px. preserve. Qed.

Lemma elem_sorted_text x l : x ∈ sorted_text l -> x ∈ l.
Proof.
  assert (Hi : forall y l, x ∈ insert_text y l -> x = y \/ x ∈ l).
  { intros y l0. induction l0 as [|z l0 IH]; simpl; [set_solver|]. case_match; set_solver. }
  induction l as [|y l IH]; simpl; [done|]. intros [->|?]%Hi; set_solver.
Qed.

(** A basket of ours has a row with our tag. *)
Lemma our_baskets_tagged events tag b :
  b ∈ our_baskets events tag ->
  exists e, e ∈ events /\ basket_of e = Some b /\ is_str (dget e "user_tag") tag = true.
Proof.
  unfold our_baskets. intros Hb.
  assert (Ht : b ∈ tagged events tag).
  { destruct (tagged events tag) as [|t0 t] eqn:Et; [by apply elem_of_nil in Hb|].
    rewrite elem_of_remove_dups, list_elem_of_omap in Hb. destruct Hb as (e & _ & He).
    destruct (basket_of e) as [b'|]; [|done]. case_bool_decide; by simplify_eq. }
  unfold tagged in Ht. rewrite elem_of_remove_dups, list_elem_of_omap in Ht.
  destruct Ht as (e & He & Hb'). exists e. destruct (is_str (dget e "user_tag") tag); naive_solver.
Qed.

Lemma safe_after placed :
  (placed = true -> da_live_place a = true) -> safe (after_place a w placed).
Proof.
  intros Hp l. unfold after_place, mbind, M_bind, lift.
  destruct (poll_orders (dw_polls w)) as [events|] eqn:Ee; [|reflexivity].
  destruct placed; [|reflexivity].
  destruct (sorted_text (our_baskets events (smoke_tag w))) as [|b0 bs] eqn:Es; [reflexivity|].
  revert l. apply preserves_bind; [apply _| |intros more; apply preserves_ret; apply _].
  unfold cancel_smoke, cancel_all_ours. preserve.
  apply safe_note. simpl. split; [auto|]. exists events.
  match goal with H : _ ∈ b0 :: bs |- _ => rewrite <- Es in H; apply elem_sorted_text in H;
    apply our_baskets_tagged in H as (e & ? & ? & ?) end. by exists e.
Qed.
End Allowed.

Section Place.
Context (a : DryArgs) (w : DryWorld).

#[local] Instance only_allowed_preorder' : PreOrder (only_allowed a w) := only_allowed_preorder a w.

Lemma market_price_spec polls px :
  market_price polls = Ok (Some px) ->
  exists before d after, polls = (Ok <$> before) ++ Ok (Some d) :: after
    /\ Forall (fun ev => priced_trade ev = false) before
    /\ priced_trade (Some d) = true /\ py_float (dget d "trade_price") = Ok px.
Proof.
  induction polls as [|p polls IH]; [done|]. cbn [market_price].
  destruct p as [ev|]; [csimpl|done].
  assert (Hlater : priced_trade ev = false -> market_price polls = Ok (Some px) ->
    exists before d after, Ok ev :: polls = (Ok <$> before) ++ Ok (Some d) :: after
      /\ Forall (fun ev => priced_trade ev = false) before
      /\ priced_trade (Some d) = true /\ py_float (dget d "trade_price") = Ok px).
  { intros He (before & d & after & -> & Hb & Hd & Hp)%IH.
    exists (ev :: before), d, after. split_and!; [done|by constructor|done..]. }
  destruct ev as [d|]; [|by apply Hlater].
  destruct (_ && _) eqn:Et; [|by apply Hlater].
  destruct (py_float (dget d "trade_price")) as [x|] eqn:Ep; [|done]. intros [= <-].
  exists [], d, polls. split_and!; [done|constructor|done..].
Qed.

Lemma derive_trigger_spec side px offset t :
  derive_trigger side px offset = Ok t ->
  valid_offset offset = true /\
  (side = "SELL" /\ t = SFsub prec64 emax64 px offset \/ side = "BUY" /\ t = SFadd prec64 emax64 px offset).
Proof.
  unfold derive_trigger. case_bool_decide as Hs; [|done]. simpl.
  destruct (valid_offset offset); [|done]. simpl. intros [= <-]. split; [done|].
  rewrite !elem_of_cons, elem_of_nil in Hs. case_bool_decide; [by left|right].
  destruct Hs as [?|[?|[]]]; done.
Qed.

(** What the trigger step returns. *)
Lemma choose_trigger_spec front l t l' :
  choose_trigger a w front l = (Ok (Some t), l') ->
  match da_order_type a with
  | SLimit => t = None
  | SStopMarket => exists x, t = Some x /\
      (da_trigger_price a = Some x \/
       da_trigger_price a = None /\
       exists px, first_trade_price w px /\
         derive_trigger (da_side a) px
           (default (S754_zero false) (da_auto_trigger_offset a)) = Ok x)
  end.
Proof.
  unfold choose_trigger. destruct (da_order_type a); [by intros [= <-]|].
  destruct (da_trigger_price a) as [x|]; [intros [= <-]; eauto|].
  unfold poll_market_px, note_call. run_monad.
  destruct (dw_subscribe w); [|done].
  destruct (market_price (dw_ticker w)) as [[px|]|] eqn:Em; try done.
  apply market_price_spec in Em.
  destruct (derive_trigger _ px _) as [x|] eqn:E; [|done]. intros [= <- _].
  exists x. split; [done|]. right. split; [done|]. by exists px.
Qed.

(** The order the gates let through. *)
Lemma place_allowed front t l l' :
  refused a w = false -> allow_live a w = true ->
  resolve_front_month (dw_session w) (da_root a) (da_exchange a) = Ok front ->
  choose_trigger a w front l = (Ok (Some t), l') ->
  allowed a w (DPlace (fm_trading_symbol front) (fm_trading_exchange front) (da_side a)
                 (da_order_type a) 1 (smoke_tag w)
                 (if bool_decide (da_order_type a = SLimit) then da_price a else None) t).
Proof.
  intros Href Hlive Hf Ht%choose_trigger_spec. pose proof Hlive as Hl.
  unfold allow_live in Hl. rewrite !andb_true_iff, negb_true_iff in Hl.
  destruct Hl as [[H1 H2] H3]. unfold refused in Href. rewrite Hlive, H1 in Href. simpl in Href.
  simpl. split_and!; try done; [by exists front|].
  destruct (da_order_type a); simpl in *.
  - split_and!; [done| |done]. destruct (da_price a); [eauto|done].
  - split; [done|]. destruct Ht as (x & -> & Hx). exists x. split; [done|].
    destruct Hx as [Hx|(Hn & px & Hpx & [Hv Hd]%derive_trigger_spec)]; [by left|]. right.
    split; [done|]. destruct (da_auto_trigger_offset a) as [offset|]; [|done].
    exists px, offset. by split_and!.
Qed.

Lemma safe_session : refused a w = false -> preserves (only_allowed a w) (run_session a w).
Proof.
  intros Href. unfold run_session.
  apply preserves_bind; [apply _|by apply safe_note|intros _].
  apply preserves_bind; [apply _|apply preserves_lift, _|intros _].
  destruct (resolve_front_month (dw_session w) (da_root a) (da_exchange a)) as [fm|] eqn:Ef;
    [|intros l; reflexivity].
  intros l0. change ((lift (Ok fm) ≫= ?f) l0) with (f fm l0). cbv beta. revert l0.
  match goal with |- forall l0, only_allowed a w l0 (?m l0).2 =>
    change (preserves (only_allowed a w) m) end.
  repeat (apply preserves_bind; [apply _|first [by apply safe_note|apply preserves_lift, _]|intros ?]).
  destruct (allow_live a w) eqn:El; [|by apply safe_after].
  intros l. unfold mbind, M_bind at 1. pose proof (safe_trigger a w fm l) as Hs.
  destruct (choose_trigger a w fm l) as [[[t|]|] l1] eqn:Et; simpl in Hs; [|done|done].
  etransitivity; [exact Hs|].
  assert (Hk : preserves (only_allowed a w) (send_smoke a w fm t)); [|exact (Hk l1)].
  unfold send_smoke.
  apply preserves_bind; [apply _|apply safe_note; by eapply place_allowed|intros ?].
  apply preserves_bind; [apply _|apply preserves_lift, _|intros ?].
  apply safe_after. intros _. unfold allow_live in El. by destruct (da_live_place a).
Qed.

(** (C24) Whatever the session answers, the smoke test sends an order only when
    [--live-place] is given, [--no-live-place] is not and the environment
    enables trading, and then one lot of the resolved front month on the side
    and of the type asked for, under its own tag: a LIMIT at the explicit price,
    or a STOP_MARKET whose trigger was given, or is the price of the first
    priced last trade the ticker polled, less (sell) or plus (buy) the given
    finite positive offset, in floats.  Every basket it cancels has a polled row
    that carries its own tag. *)
Theorem dry_run_calls_allowed log :
  exists new, (dry_main a w log).2 = log ++ new /\ Forall (allowed a w) new.
Proof.
  enough (H : preserves (only_allowed a w) (dry_main a w)) by exact (H log).
  unfold dry_main. destruct (refused a w) eqn:Er; [apply preserves_ret, _|].
  apply preserves_bind; [apply _|apply preserves_lift, _|intros _].
  apply preserves_bind; [apply _| |intros code].
  - apply preserves_catch; [apply _|by apply safe_session|intros e; apply preserves_ret, _].
  - apply preserves_bind; [apply _|by apply safe_note|intros _]. apply preserves_ret, _.
Qed.
End Place.

(** ** Concrete runs *)

Module DrySample.
Definition session : RefSession := MkRefSession
  (fun _ _ => Ok (Some (dict_of [("trading_symbol", VStr "NQZ6"); ("trading_exchange", VStr "CME")])))
  (fun _ _ => Ok None).

Definition row (basket tag : pyval) : pydict := dict_of [("basket_id", basket); ("user_tag", tag)].

Definition world (cancel : string -> res unit) : DryWorld := MkDryWorld
  (Some "1") (Ok tt) "0a1b2c3d" (Ok tt) session (Ok tt) (Ok tt) (Ok tt)
  [Ok None; Ok (Some (dict_of [("type", VStr "last_trade"); ("trade_price", VInt 21000)]))]
  (Ok tt)
  [Ok (Some (row (VStr "17") (VStr "rithmic-nt-connect-dryrun-0a1b2c3d")));
   Ok (Some (row (VStr "99") (VStr "someone-else")))]
  cancel [].

Definition stop_args (live : bool) (offset : f64) : DryArgs :=
  MkDryArgs live false "NQ" "CME" None "SELL" SStopMarket None (Some offset).

Definition refuse_cancel : string -> res unit := fun _ => Raise (Exn ExRuntime None "rejected").

Definition far : f64 := f64_of_decimal false 500 0.

(** A full run: place below the market, cancel only our basket. *)
Example stop_run :
  dry_main (stop_args true far) (world (fun _ => Ok tt)) [] =
  (Ok 0, [DConnect; DSubscribeOrders; DSubscribeTicker "NQZ6" "CME";
          DPlace "NQZ6" "CME" "SELL" SStopMarket 1 "rithmic-nt-connect-dryrun-0a1b2c3d" None
            (Some (f64_of_decimal false 20500 0));
          DCancel "17"; DDisconnect]).
Proof. vm_compute. reflexivity. Qed.

Example dry_run_places_nothing :
  (dry_main (stop_args false far) (world (fun _ => Ok tt)) []).2
  = [DConnect; DSubscribeOrders; DDisconnect].
Proof. vm_compute. reflexivity. Qed.

(** A refused cancel leaves the order at the venue and the run exits 0. *)
Theorem failed_cancel_exits_zero :
  (dry_main (stop_args true far) (world refuse_cancel) []).1 = Ok 0.
Proof. vm_compute. reflexivity. Qed.

(** A positive offset smaller than half an ulp of the price is absorbed: the
    derived trigger is the market price. *)
Theorem tiny_offset_is_marketable :
  derive_trigger "SELL" (f64_of_decimal false 21000 0) (f64_of_decimal false 1 (-13))
  = Ok (f64_of_decimal false 21000 0).
Proof. vm_compute. reflexivity. Qed.
End DrySample.
