(* ===== verification/GatewayConfig.v ===== *)
(** * Gateway configuration, socket and lock paths

    [rithmic_gateway/config.py], [flock.py], [binary.py] and the launcher, and
    the Rust code they must agree with ([runtime_dir.rs], [listen.rs],
    [rithmic-host/src/flock.rs]): the client and the parent meet at a socket
    path, and exclude each other by a lock path, that each computes on its own
    from the credentials.

    The operating system is the parameter [Os]: user id, who owns a directory
    once it has been created, whether its mode can be set, path resolution and
    file tests.  Advisory locks are a map from lock files to holders. *)

From Stdlib Require Import Ascii String.
From stdpp Require Import base gmap strings list.
From Stdlib Require Import ZArith Lia DecimalString.
From S2P Require Import Prelude PyVal Redact Ident Config.
Import Text.
Open Scope string_scope.
Open Scope list_scope.
Open Scope Z_scope.

Definition gw_config_error (msg : string) : exn := Exn ExGatewayConfig None msg.

(** [os.getuid], the owner of a directory after [mkdir -p], [chmod 0700],
    [Path.cwd() / p] resolved. *)
Class Os := {
  os_uid : Z;
  os_owner : string -> res Z;
  os_chmod : string -> res unit;
  os_resolve_cwd : string -> string
}.

(** ** Helpers of config.py *)

Definition gw_require (name : string) (value : option string) : res string :=
  match value with
  | Some v => if nonempty (strip v) then Ok (strip v)
              else Raise (gw_config_error ("missing or empty required field: " +:+ name))
  | None => Raise (gw_config_error ("missing or empty required field: " +:+ name))
  end.

(** [s.lstrip("/")]. *)
Definition lstrip_slash (s : string) : string := dropl (is_char "/") s.

Definition canon_env (env : string) : string :=
  let key := lower (strip env) in
  if bool_decide (key ∈ ["live"; "production"]) then "live"
  else if bool_decide (key ∈ ["demo"; "development"]) then "demo"
  else if bool_decide (key = "test") then "test"
  else "live".

(** Any non-blank retired variable. *)
Fixpoint gw_reject_knobs (env : environ) (knobs : list (string * (string -> string))) : res unit :=
  match knobs with
  | [] => Ok tt
  | (name, why) :: knobs' =>
      match _env_first env [name] with
      | Some raw => Raise (gw_config_error (name +:+ "=" +:+ raw +:+ ": " +:+ why name))
      | None => gw_reject_knobs env knobs'
      end
  end.

Definition reject_retired_client_knobs (env : environ) : res unit :=
  gw_reject_knobs env _RETIRED_KNOBS.

(** ** The credential hash: 64-bit FNV-1a *)

Definition FNV_OFFSET : Z := 0xcbf29ce484222325.
Definition FNV_PRIME : Z := 0x100000001b3.
Definition MASK64 : Z := 0xffffffffffffffff.

Fixpoint fnv1a (h : Z) (s : string) : Z :=
  match s with
  | EmptyString => h
  | String a s' => fnv1a (Z.land (Z.lxor h (chr a) * FNV_PRIME) MASK64) s'
  end.

Definition credential_hash (user system_name url env : string) : Z :=
  fnv1a FNV_OFFSET (user +:+ "|" +:+ system_name +:+ "|" +:+ url +:+ "|" +:+ canon_env env).

(** [f"{n:08x}"] of a 32-bit value. *)
Fixpoint hex_digits (w : nat) (n : Z) : string :=
  match w with
  | O => EmptyString
  | S w' => hex_digits w' (n / 16) +:+ String (hex_digit (n mod 16)) EmptyString
  end.
Definition hex8 (h : Z) : string := hex_digits 8 (Z.land h 0xffffffff).

(** [str(Path(base) / name)] of a plain file name. *)
Definition join_path (base name : string) : string := path_str (base +:+ "/" +:+ name).

Definition UNIX_PATH_MAX : nat := 103.

Section Paths.
Context `{Os}.
Variable env : environ.

(** [parse_listen_url]. *)
Definition parse_listen_url (raw0 : string) : res string :=
  let raw := strip raw0 in
  if negb (nonempty raw) then Raise (gw_config_error "empty gateway listen URL")
  else if String.prefix "tcp://" raw || String.prefix "tls://" raw
  then Raise (gw_config_error ("tcp/tls listen is not implemented yet (see " +:+
                "docs/references/gateway-remote.md): " +:+ raw))
  else match strip_prefix "unix://" raw with
       | Some path =>
           let path := if String.prefix "//" path then "/" +:+ lstrip_slash path else path in
           if String.prefix "/" path then Ok path else Ok (os_resolve_cwd path)
       | None =>
           if String.prefix "/" raw then Ok raw
           else Raise (gw_config_error ("unsupported listen URL scheme (v1 supports unix:// only): "
                                        +:+ raw))
       end.

(** Create, check the owner, restrict to 0700. *)
Definition private_dir (what : string) (path : string) : res string :=
  owner ← os_owner path;
  if negb (owner =? os_uid)
  then Raise (gw_config_error (what +:+ " " +:+ path +:+ " not owned by uid " +:+ str_of_Z os_uid
                               +:+ " (st_uid=" +:+ str_of_Z owner +:+ ")"))
  else
    _ ← catch (fun e => bool_decide (ex_class e = ExOs)) (os_chmod path)
          (fun _ => Raise (gw_config_error ("cannot chmod 0700 " +:+ path)));
    Ok path.

Definition rgw_dir : string := "rgw-" +:+ str_of_Z os_uid.

Definition runtime_base_dir : res string :=
  let tmp := match env !! "TMPDIR" with
             | Some t => if nonempty t then t else "/tmp"
             | None => "/tmp"
             end in
  match env !! "XDG_RUNTIME_DIR" with
  | Some xdg => if nonempty (strip xdg) then Ok xdg
                else private_dir "runtime dir" (join_path tmp rgw_dir)
  | None => private_dir "runtime dir" (join_path tmp rgw_dir)
  end.

Definition clamp_unix_path (path : string) (hash : Z) : res string :=
  if (String.length path <=? UNIX_PATH_MAX)%nat then Ok path
  else
    base ← private_dir "clamp runtime dir" (join_path "/tmp" rgw_dir);
    Ok (base +:+ "/" +:+ hex8 hash +:+ ".sock").

Definition default_unix_path (user system_name url env_name : string) : res string :=
  base ← runtime_base_dir;
  let h := credential_hash user system_name url env_name in
  clamp_unix_path (join_path base ("rgw-" +:+ str_of_Z h +:+ ".sock")) h.

(** ** [GatewayConfig] *)

Record GatewayConfig := MkGatewayConfig {
  gc_user : string;
  gc_system_name : string;
  gc_url : string;
  gc_env : string;
  gc_account_id : string;
  gc_fcm_id : string;
  gc_ib_id : string;
  gc_auth_token : string;
  gc_listen : option string;
  gc_attach_timeout_ms : Z;
  gc_attest_flock : bool
}.

Definition gw_post_init (c : GatewayConfig) : res GatewayConfig :=
  user ← gw_require "user" (Some (gc_user c));
  system_name ← gw_require "system_name" (Some (gc_system_name c));
  url ← gw_require "url" (Some (gc_url c));
  env_name ← gw_require "env" (Some (gc_env c));
  listen ←
    (match gc_listen c with
     | Some l => if nonempty (strip l) then _ ← parse_listen_url l; Ok l
                 else p ← default_unix_path user system_name url env_name; Ok ("unix://" +:+ p)
     | None => p ← default_unix_path user system_name url env_name; Ok ("unix://" +:+ p)
     end);
  Ok (MkGatewayConfig user system_name url env_name (gc_account_id c) (gc_fcm_id c) (gc_ib_id c)
        (gc_auth_token c) (Some listen) (gc_attach_timeout_ms c) (gc_attest_flock c)).

Definition socket_path (c : GatewayConfig) : res string :=
  match gc_listen c with
  | None => Raise (Exn ExValue None "GatewayConfig.listen is not set")
  | Some l => parse_listen_url l
  end.

Definition gw_from_env (e : environ) : res GatewayConfig :=
  _ ← reject_retired_client_knobs e;
  let url := default "wss://rprotocol.rithmic.com:443" (_env_first e ["RITHMIC_GATEWAY"; "RITHMIC_URL"]) in
  let system_name := default "LucidTrading" (_env_first e ["RITHMIC_SYSTEM"; "RITHMIC_SYSTEM_NAME"]) in
  user ← gw_require "user" (_env_first e ["RITHMIC_USER"; "RITHMIC_USERNAME"]);
  gw_post_init (MkGatewayConfig user system_name url
    (default "Live" (_env_first e ["RITHMIC_ENV"]))
    (default "" (_env_first e ["RITHMIC_ACCOUNT_ID"]))
    (default "" (_env_first e ["RITHMIC_FCM_ID"])) (default "" (_env_first e ["RITHMIC_IB_ID"]))
    (default "" (_env_first e ["RITHMIC_GATEWAY_AUTH_TOKEN"]))
    (_env_first e ["RITHMIC_GATEWAY_LISTEN"]) 90000 true).

(** ** The lock file: [sock.with_suffix(".lock")] *)

Definition with_lock_suffix (sock : string) : string :=
  match strip_suffix ".sock" sock with Some stem => stem +:+ ".lock" | None => sock +:+ ".lock" end.

Definition lock_path (user system_name url env_name : string) : res string :=
  sock ← default_unix_path user system_name url env_name;
  Ok (with_lock_suffix sock).

(** ** The parent's side (Rust) *)

Definition rs_canon_env (env_name : string) : string :=
  let key := lower env_name in
  if bool_decide (key ∈ ["live"; "production"]) then "live"
  else if bool_decide (key ∈ ["demo"; "development"]) then "demo"
  else if bool_decide (key = "test") then "test"
  else "live".

(** [hash ^= b; hash.wrapping_mul(PRIME)] on [u64]. *)
Fixpoint rs_fnv1a (h : Z) (s : string) : Z :=
  match s with
  | EmptyString => h
  | String a s' => rs_fnv1a ((Z.lxor h (chr a) * FNV_PRIME) mod 2 ^ 64) s'
  end.

(** [credential_key_hash]: its own copy of the environment aliases. *)
Definition credential_key_hash (user system_name url env_name : string) : Z :=
  let key := lower env_name in
  let e := if bool_decide (key ∈ ["demo"; "development"]) then "demo"
           else if bool_decide (key = "test") then "test" else "live" in
  rs_fnv1a 0xcbf29ce484222325 (user +:+ "|" +:+ system_name +:+ "|" +:+ url +:+ "|" +:+ e).

(** [PathBuf::join] of a relative name. *)
Definition rs_join (base name : string) : string :=
  if negb (nonempty base) then name
  else if has_char "/" base && bool_decide (strip_suffix "/" base <> None) then base +:+ name
  else base +:+ "/" +:+ name.

(** [runtime_base_dir]: the result does not depend on whether the private
    directory could be secured. *)
Definition rs_runtime_base_dir : string :=
  let tmp := match env !! "TMPDIR" with Some t => t | None => "/tmp" end in
  match env !! "XDG_RUNTIME_DIR" with
  | Some xdg => if nonempty xdg then xdg else rs_join tmp rgw_dir
  | None => rs_join tmp rgw_dir
  end.

Definition rs_clamp (suffix path : string) (hash : Z) : string :=
  if (String.length path <=? UNIX_PATH_MAX)%nat then path
  else rs_join (rs_join "/tmp" rgw_dir) (hex8 hash +:+ suffix).

Definition rs_default_unix_path (user system_name url env_name : string) : string :=
  let h := credential_key_hash user system_name url env_name in
  rs_clamp ".sock" (rs_join rs_runtime_base_dir ("rgw-" +:+ str_of_Z h +:+ ".sock")) h.

Definition credential_lock_path (dir user system_name url env_name : string) : string :=
  let h := credential_key_hash user system_name url env_name in
  rs_clamp ".lock" (rs_join dir ("rgw-" +:+ str_of_Z h +:+ ".lock")) h.

(** [SessionLock::lock_path] of the gateway. *)
Definition rs_lock_path (user system_name url env_name : string) : string :=
  credential_lock_path rs_runtime_base_dir user system_name url env_name.

End Paths.

(** ** Facts: lengths *)

(** A positive number has at most one digit per bit. *)
Lemma little_double_digits d :
  (Decimal.nb_digits (Decimal.Little.double d) <= S (Decimal.nb_digits d) /\
   Decimal.nb_digits (Decimal.Little.succ_double d) <= S (Decimal.nb_digits d))%nat.
Proof. induction d as [|? [? ?]|? [? ?]|? [? ?]|? [? ?]|? [? ?]|? [? ?]|? [? ?]|? [? ?]|? [? ?]|? [? ?]];
  simpl; split; lia. Qed.

Lemma little_digits p : (Decimal.nb_digits (Pos.to_little_uint p) <= Pos.size_nat p)%nat.
Proof.
  induction p as [p IH|p IH|]; simpl; [| |done];
    destruct (little_double_digits (Pos.to_little_uint p)); lia.
Qed.

Lemma revapp_digits d : forall d',
  Decimal.nb_digits (Decimal.revapp d d') = (Decimal.nb_digits d + Decimal.nb_digits d')%nat.
Proof. induction d; intros d'; simpl; rewrite ?IHd; simpl; lia. Qed.

Lemma string_of_uint_length d :
  String.length (NilEmpty.string_of_uint d) = Decimal.nb_digits d.
Proof. induction d; simpl; auto. Qed.

Lemma str_of_pos_length p : (String.length (str_of_Z (Zpos p)) <= Pos.size_nat p)%nat.
Proof.
  unfold str_of_Z, NilZero.string_of_int. cbn [Z.to_int].
  assert (Hn : (String.length (NilZero.string_of_uint (Pos.to_uint p)) <= Nat.max 1 (Decimal.nb_digits (Pos.to_uint p)))%nat).
  { rewrite <- string_of_uint_length. destruct (Pos.to_uint p); simpl; lia. }
  unfold Pos.to_uint, Decimal.rev in *. rewrite revapp_digits in Hn. simpl in Hn.
  pose proof (little_digits p). assert (1 <= Pos.size_nat p)%nat by (destruct p; simpl; lia). lia.
Qed.

Lemma size_nat_bound p n : Zpos p < 2 ^ Z.of_nat n -> (Pos.size_nat p <= n)%nat.
Proof.
  revert n. induction p as [p IH|p IH|]; intros n Hp; simpl.
  all: destruct n as [|n]; [simpl in Hp; lia|].
  all: rewrite Nat2Z.inj_succ, Z.pow_succ_r in Hp by lia.
  - specialize (IH n ltac:(lia)). lia.
  - specialize (IH n ltac:(lia)). lia.
  - lia.
Qed.

Lemma uid_length z : 0 <= z < 2 ^ 64 -> (String.length (str_of_Z z) <= 64)%nat.
Proof.
  intros Hz. destruct z as [|p|p]; [simpl; lia| |lia].
  pose proof (str_of_pos_length p). pose proof (size_nat_bound p 64 ltac:(simpl; lia)). lia.
Qed.

Lemma hex_digits_length w : forall n, String.length (hex_digits w n) = w.
Proof. induction w as [|w IH]; intros n; simpl; [done|]. rewrite string_length_app, IH. simpl. lia. Qed.

(** ** Facts: the hash *)

Lemma mask64 z : Z.land z MASK64 = z mod 2 ^ 64.
Proof. change MASK64 with (Z.ones 64). apply Z.land_ones. lia. Qed.

Lemma fnv_agree s : forall h, fnv1a h s = rs_fnv1a h s.
Proof. induction s as [|a s IH]; intros h; simpl; [done|]. by rewrite mask64, IH. Qed.

Lemma fnv_range s : forall h, 0 <= h < 2 ^ 64 -> 0 <= fnv1a h s < 2 ^ 64.
Proof.
  induction s as [|a s IH]; intros h Hh; simpl; [done|]. apply IH.
  rewrite mask64. apply Z.mod_pos_bound. lia.
Qed.

Lemma canon_env_hash user system url env_name :
  strip env_name = env_name ->
  credential_hash user system url env_name = credential_key_hash user system url env_name.
Proof.
  intros Hs. unfold credential_hash, credential_key_hash, canon_env. rewrite Hs, fnv_agree.
  case_bool_decide as Hl; [|done].
  rewrite !elem_of_cons, elem_of_nil in Hl. by destruct Hl as [->|[->|[]]].
Qed.

(** The fixture both test suites hold. *)
Example hash_fixture :
  credential_hash "alice" "LucidTrading" "wss://rprotocol.rithmic.com:443" "Live"
  = 13146466402466778522.
Proof. vm_compute. reflexivity. Qed.

(** ** Facts: paths *)

Definition plain (c : string) : Prop := c <> "" /\ c <> "." /\ has_char "/" c = false.

(** An absolute directory without empty or dot components. *)
Definition normal_dir (base : string) : Prop :=
  exists parts, parts <> [] /\ Forall plain parts /\ base = "/" +:+ String.concat "/" parts.

Lemma split_on_plain c s : has_char c s = false -> split_on c s = [s].
Proof.
  induction s as [|a s IH]; simpl; [done|]. rewrite orb_false_iff. intros [Ha Hs].
  rewrite Ha, IH by done. done.
Qed.

Lemma split_on_app c s t :
  has_char c s = false -> split_on c (s +:+ String c t) = s :: split_on c t.
Proof.
  induction s as [|a s IH]; simpl.
  { intros _. by rewrite bool_decide_eq_true_2. }
  rewrite orb_false_iff. intros [Ha Hs]. rewrite Ha.
  by rewrite IH.
Qed.

Lemma split_on_nonnil c s : split_on c s <> [].
Proof. induction s as [|a s IH]; simpl; [done|]. case_bool_decide; [done|]. by destruct (split_on c s). Qed.

(** Splitting at a separator splits both sides. *)
Lemma split_on_sep c s t : split_on c (s +:+ String c t) = split_on c s ++ split_on c t.
Proof.
  induction s as [|a s IH]; simpl.
  { by rewrite bool_decide_eq_true_2. }
  rewrite IH. case_bool_decide; [done|].
  pose proof (split_on_nonnil c s). by destruct (split_on c s).
Qed.

Lemma concat_cons2 (a b : string) l :
  String.concat "/" (a :: b :: l) = a +:+ String "/" (String.concat "/" (b :: l)).
Proof. done. Qed.

Lemma split_concat parts :
  parts <> [] -> Forall plain parts -> split_on "/" (String.concat "/" parts) = parts.
Proof.
  intros Hne H. induction H as [|a l Ha Hl IH]; [done|].
  destruct l as [|b l]; [simpl; apply split_on_plain, Ha|].
  rewrite concat_cons2, split_on_app by apply Ha. by rewrite IH.
Qed.

Lemma concat_snoc parts name :
  parts <> [] ->
  String.concat "/" (parts ++ [name]) = String.concat "/" parts +:+ "/" +:+ name.
Proof.
  induction parts as [|a [|b l] IH]; intros Hne; [done|done|].
  change ((a :: b :: l) ++ [name]) with (a :: (b :: l) ++ [name]).
  change ((b :: l) ++ [name]) with (b :: (l ++ [name])).
  rewrite !concat_cons2. change (b :: (l ++ [name])) with ((b :: l) ++ [name]).
  rewrite IH by done. by rewrite string_app_assoc.
Qed.

Lemma filter_plain parts :
  Forall plain parts ->
  List.filter (fun c => nonempty c && negb (bool_decide (c = "."))) parts = parts.
Proof.
  induction 1 as [|a l (H1 & H2 & _) Hl IH]; simpl; [done|].
  rewrite bool_decide_eq_false_2 by done. destruct a; [done|]. simpl. by rewrite IH.
Qed.

(** A normal absolute path is its own text. *)
Lemma path_str_normal base : normal_dir base -> path_str base = base.
Proof.
  intros (parts & Hne & Hp & ->). unfold path_str.
  assert (Hsplit : split_on "/" ("/" +:+ String.concat "/" parts) = "" :: parts).
  { rewrite string_app_cons, string_app_nil. simpl. by rewrite split_concat. }
  rewrite Hsplit. simpl List.filter. rewrite filter_plain by done.
  assert (Hpre : String.prefix "//" ("/" +:+ String.concat "/" parts) = false).
  { rewrite string_app_cons, string_app_nil.
    assert (Hc : exists a r, String.concat "/" parts = String a r /\ a <> "/"%char).
    { destruct Hp as [|p l (H1 & _ & H3) Hl]; [done|].
      destruct p as [|a p]; [done|]. simpl in H3. rewrite orb_false_iff in H3.
      destruct H3 as [Ha%bool_decide_eq_false _].
      destruct l; [by exists a, p|]. rewrite concat_cons2. by eexists a, _. }
    destruct Hc as (a & r & -> & Ha). cbn [String.prefix].
    repeat destruct (ascii_dec _ _); congruence. }
  rewrite Hpre, prefix_app_self. done.
Qed.

Lemma normal_join base name : normal_dir base -> plain name -> normal_dir (base +:+ "/" +:+ name).
Proof.
  intros (parts & Hne & Hp & ->) Hn. exists (parts ++ [name]). split_and!.
  - by destruct parts.
  - apply Forall_app. split; [done|]. by apply Forall_singleton.
  - rewrite concat_snoc by done. by rewrite string_app_assoc.
Qed.

Lemma join_path_normal base name :
  normal_dir base -> plain name -> join_path base name = base +:+ "/" +:+ name.
Proof. intros Hb Hn. unfold join_path. by apply path_str_normal, normal_join. Qed.

Section Agree.
Context `{Os}.
Variable env : environ.

Lemma str_no_slash z : has_char "/" (str_of_Z z) = false.
Proof.
  unfold str_of_Z, NilZero.string_of_int.
  assert (Hd : forall d, has_char "/" (NilEmpty.string_of_uint d) = false)
    by (induction d; simpl; auto).
  assert (Hz : forall d, has_char "/" (NilZero.string_of_uint d) = false)
    by (intros d; destruct d; apply Hd || reflexivity).
  destruct z as [|p|p]; cbn [Z.to_int]; [reflexivity|apply Hz|]. simpl. apply Hz.
Qed.

Lemma rgw_plain x : has_char "/" x = false -> plain ("rgw-" +:+ x).
Proof. intros Hx. split_and!; [done..|]. by rewrite has_char_app, Hx. Qed.

Lemma tmp_normal : normal_dir ("/tmp" +:+ "/" +:+ rgw_dir).
Proof.
  apply (normal_join "/tmp").
  - exists ["tmp"]. split_and!; [done| |done]. by apply Forall_singleton.
  - apply rgw_plain, str_no_slash.
Qed.

Lemma join_tmp : join_path "/tmp" rgw_dir = "/tmp" +:+ "/" +:+ rgw_dir.
Proof. unfold join_path. apply path_str_normal, tmp_normal. Qed.

Lemma private_dir_ok what p q : private_dir what p = Ok q -> q = p.
Proof.
  unfold private_dir, mbind, res_bind. destruct (os_owner p); [|done].
  destruct (negb _); [done|]. destruct (catch _ _ _); [|done]. congruence.
Qed.

(** (C31) Whatever the runtime directory and the credentials, a default socket
    path that is produced fits [sun_path]: at most 103 bytes. *)
Theorem default_path_fits user system url env_name p :
  0 <= os_uid < 2 ^ 64 ->
  default_unix_path env user system url env_name = Ok p ->
  (String.length p <= UNIX_PATH_MAX)%nat.
Proof.
  intros Hu. unfold default_unix_path, clamp_unix_path, mbind, res_bind.
  destruct (runtime_base_dir env) as [base|]; [|done].
  destruct (Nat.leb_spec (String.length (join_path base ("rgw-" +:+
    str_of_Z (credential_hash user system url env_name) +:+ ".sock"))) UNIX_PATH_MAX) as [Hle|_];
    [congruence|].
  destruct (private_dir "clamp runtime dir" (join_path "/tmp" rgw_dir)) as [q|] eqn:E; [|done].
  intros [= <-]. apply private_dir_ok in E as ->. rewrite join_tmp.
  unfold hex8, rgw_dir. rewrite !string_length_app, hex_digits_length.
  pose proof (uid_length os_uid Hu). simpl. unfold UNIX_PATH_MAX. lia.
Qed.

Lemma strip_suffix_snoc base c :
  base <> "" -> (forall r, base <> r +:+ String c "") -> strip_suffix (String c "") base = None.
Proof.
  induction base as [|a s IH]; intros Hne Hr; [done|]. cbn [strip_suffix].
  rewrite bool_decide_eq_false_2.
  - destruct s as [|b s]; [reflexivity|]. rewrite IH; [done|done|].
    intros r E. apply (Hr (String a r)). rewrite string_app_cons. by rewrite <- E.
  - intros E. apply (Hr ""). done.
Qed.

Lemma normal_no_trailing base r : normal_dir base -> base <> r +:+ "/".
Proof.
  intros (parts & Hne & Hp & ->) E.
  assert (Hs : split_on "/" ("/" +:+ String.concat "/" parts) = "" :: parts).
  { rewrite string_app_cons, string_app_nil. simpl. by rewrite split_concat. }
  rewrite E in Hs.
  pose proof (split_on_sep "/" r "") as Hl. rewrite Hs in Hl. cbn [split_on] in Hl.
  destruct parts as [|ps p0 _] using rev_ind; [done|].
  rewrite app_comm_cons in Hl. apply app_inj_tail in Hl as [_ ->].
  apply Forall_app in Hp as [_ Hp]. apply Forall_singleton in Hp as [? _]. done.
Qed.

Lemma rs_join_normal base name : normal_dir base -> rs_join base name = base +:+ "/" +:+ name.
Proof.
  intros Hb. unfold rs_join.
  assert (Hne : nonempty base = true) by (by destruct Hb as (? & _ & _ & ->)).
  rewrite Hne. simpl negb. cbv iota.
  rewrite (strip_suffix_snoc base "/"); [|by destruct base|intros r; by apply normal_no_trailing].
  rewrite (bool_decide_eq_false_2 (None <> None)) by naive_solver. by rewrite andb_false_r.
Qed.

(** A directory as an environment names it: normal, perhaps with one trailing
    slash (macOS's [TMPDIR] has it). *)
Definition usable_dir (n d : string) : Prop := normal_dir n /\ (d = n \/ d = n +:+ "/").

Lemma split_normal parts :
  parts <> [] -> Forall plain parts ->
  split_on "/" ("/" +:+ String.concat "/" parts) = "" :: parts.
Proof.
  intros Hne Hp. rewrite string_app_cons, string_app_nil. simpl. by rewrite split_concat.
Qed.

Lemma normal_root n r : normal_dir n -> String.prefix "//" (n +:+ r) = false.
Proof.
  intros (parts & Hne & Hp & ->).
  destruct Hp as [|p l (H1 & _ & H3) Hl]; [done|].
  destruct p as [|a p]; [done|]. simpl in H3. rewrite orb_false_iff in H3.
  destruct H3 as [Ha%bool_decide_eq_false _].
  assert (Hc : exists r', String.concat "/" (String a p :: l) = String a r').
  { destruct l; [by exists p|]. rewrite concat_cons2. by eexists. }
  destruct Hc as (r' & ->).
  change (("/" +:+ String a r') +:+ r) with (String "/" (String a (r' +:+ r))). cbn [String.prefix].
  repeat destruct (ascii_dec _ _); congruence.
Qed.

Lemma normal_abs n r : normal_dir n -> String.prefix "/" (n +:+ r) = true.
Proof. intros (parts & _ & _ & ->). rewrite string_app_assoc. apply prefix_app_self. Qed.

Lemma path_str_rooted s :
  String.prefix "//" s = false -> String.prefix "/" s = true ->
  path_str s = "/" +:+ String.concat "/"
    (List.filter (fun c => nonempty c && negb (bool_decide (c = "."))) (split_on "/" s)).
Proof. intros H2 H1. unfold path_str. by rewrite H2, H1. Qed.

(** Both languages append a plain name the same way. *)
Lemma join_usable n d name :
  usable_dir n d -> plain name ->
  join_path d name = n +:+ "/" +:+ name /\ rs_join d name = n +:+ "/" +:+ name.
Proof.
  intros [Hn [->| ->]] Hp; [by rewrite join_path_normal, rs_join_normal|]. split.
  - unfold join_path. rewrite string_app_assoc.
    rewrite path_str_rooted; [|by apply normal_root|by apply normal_abs].
    destruct Hn as (parts & Hne & Hf & ->).
    change ("/" +:+ "/" +:+ name) with (String "/" ("" +:+ String "/" name)).
    rewrite split_on_sep, split_normal, split_on_app, split_on_plain by first [done|apply Hp].
    change ("" :: parts) with ([""] ++ parts). change ["" ; name] with ([""] ++ [name]).
    rewrite !List.filter_app, (filter_plain parts), (filter_plain [name])
      by first [done|by apply Forall_singleton].
    simpl List.filter. rewrite !app_nil_l, concat_snoc by done. by rewrite !string_app_assoc.
  - unfold rs_join. rewrite strip_suffix_app, has_char_app.
    assert (nonempty (n +:+ "/") = true) as -> by (by destruct Hn as (? & _ & _ & ->)).
    rewrite orb_true_r. by rewrite bool_decide_eq_true_2, string_app_assoc.
Qed.

(** What the two processes share: the environment, and a host on which the
    private directories can be secured. *)
Record same_host (env_name : string) : Prop := MkSameHost {
  sh_env : strip env_name = env_name;
  sh_xdg : forall d, env !! "XDG_RUNTIME_DIR" = Some d -> exists n, usable_dir n d;
  sh_tmp : forall d, env !! "TMPDIR" = Some d -> exists n, usable_dir n d;
  sh_owner : forall p, os_owner p = Ok os_uid;
  sh_chmod : forall p, os_chmod p = Ok tt
}.

Lemma private_dir_secured env_name what p : same_host env_name -> private_dir what p = Ok p.
Proof.
  intros []. unfold private_dir. rewrite sh_owner0. simpl. rewrite Z.eqb_refl, sh_chmod0. done.
Qed.

Lemma usable_nonblank n d : usable_dir n d -> nonempty (strip d) = true /\ nonempty d = true.
Proof.
  intros [(parts & _ & _ & ->) Hd].
  assert (Hs : exists t, d = String "/" t).
  { destruct Hd as [-> | ->]; eexists; [|rewrite string_app_assoc]; reflexivity. }
  destruct Hs as [t ->]. split; [|done]. unfold strip, strip_by. 
  destruct (dropr_head py_space "/" t) as [u Hu]; [done|].
  change (dropl py_space (String "/" t)) with (String "/" t). by rewrite Hu.
Qed.

Lemma rgw_dir_plain : plain rgw_dir.
Proof. apply rgw_plain, str_no_slash. Qed.

Lemma tmp_usable : usable_dir "/tmp" "/tmp".
Proof. split; [|by left]. exists ["tmp"]. split_and!; [done| |done]. by apply Forall_singleton. Qed.

(** Both compute the same runtime directory, and it is usable. *)
Lemma runtime_dirs_agree env_name :
  same_host env_name ->
  exists n, usable_dir n (rs_runtime_base_dir env) /\
            runtime_base_dir env = Ok (rs_runtime_base_dir env).
Proof.
  intros Hh. pose proof Hh as []. unfold runtime_base_dir, rs_runtime_base_dir.
  assert (Htmp : exists n, usable_dir n (match env !! "TMPDIR" with Some t => t | None => "/tmp" end) /\
    match env !! "TMPDIR" with Some t => if nonempty t then t else "/tmp" | None => "/tmp" end
    = match env !! "TMPDIR" with Some t => t | None => "/tmp" end).
  { destruct (env !! "TMPDIR") as [t|]; [|exists "/tmp"; split; [apply tmp_usable|done]].
    destruct (sh_tmp0 _ eq_refl) as [n Hn]. exists n. split; [done|].
    by destruct (usable_nonblank _ _ Hn) as [_ ->]. }
  destruct (env !! "XDG_RUNTIME_DIR") as [x|].
  - destruct (sh_xdg0 _ eq_refl) as [n Hn]. exists n.
    by destruct (usable_nonblank _ _ Hn) as [-> ->].
  - destruct Htmp as (n & Hn & ->).
    destruct (join_usable _ _ _ Hn rgw_dir_plain) as [-> ->].
    exists (n +:+ "/" +:+ rgw_dir). rewrite (private_dir_secured env_name) by done.
    split; [|done]. split; [|by left]. apply normal_join, rgw_dir_plain. apply Hn.
Qed.
Lemma clamp_agree env_name n name suffix h :
  same_host env_name -> normal_dir n ->
  (if (String.length (n +:+ "/" +:+ name) <=? UNIX_PATH_MAX)%nat then Ok (n +:+ "/" +:+ name)
   else base ← private_dir "clamp runtime dir" (join_path "/tmp" rgw_dir);
        Ok (base +:+ "/" +:+ hex8 h +:+ suffix))
  = Ok (rs_clamp suffix (n +:+ "/" +:+ name) h).
Proof.
  intros Hh Hn. unfold rs_clamp. destruct (_ <=? _)%nat; [done|].
  destruct (join_usable _ _ _ tmp_usable rgw_dir_plain) as [-> ->].
  rewrite (private_dir_secured env_name) by done. simpl mbind.
  rewrite rs_join_normal; [done|]. apply normal_join, rgw_dir_plain. apply tmp_usable.
Qed.

(** The two names of one hash have the same length, so both are clamped or
    neither is. *)
Lemma clamp_lock_sock n h :
  rs_clamp ".lock" (n +:+ "/" +:+ "rgw-" +:+ str_of_Z h +:+ ".lock") h
  = with_lock_suffix (rs_clamp ".sock" (n +:+ "/" +:+ "rgw-" +:+ str_of_Z h +:+ ".sock") h).
Proof.
  unfold rs_clamp, with_lock_suffix. rewrite !string_length_app. simpl (String.length ".lock").
  simpl (String.length ".sock"). destruct (_ <=? _)%nat.
  - rewrite <- !string_app_assoc. by rewrite strip_suffix_app.
  - destruct (join_usable _ _ _ tmp_usable rgw_dir_plain) as [_ ->].
    rewrite !(rs_join_normal ("/tmp" +:+ "/" +:+ rgw_dir)) by apply tmp_normal.
    rewrite <- !string_app_assoc. by rewrite strip_suffix_app.
Qed.

Lemma sock_name_plain h suffix :
  has_char "/" suffix = false -> plain ("rgw-" +:+ str_of_Z h +:+ suffix).
Proof. intros Hs. apply rgw_plain. by rewrite has_char_app, str_no_slash, Hs. Qed.

Lemma strip_prefix_app p s : strip_prefix p (p +:+ s) = Some s.
Proof.
  induction p as [|a p IH]; [done|]. rewrite string_app_cons. simpl.
  by rewrite bool_decide_eq_true_2.
Qed.

(** A ["unix://"] URL of an absolute [.sock] path names that path. *)
Lemma unix_sock_stripped n name :
  strip ("unix://" +:+ n +:+ "/" +:+ name +:+ ".sock") = "unix://" +:+ n +:+ "/" +:+ name +:+ ".sock".
Proof.
  unfold strip, strip_by.
  change (dropl py_space ("unix://" +:+ n +:+ "/" +:+ name +:+ ".sock"))
    with ("unix://" +:+ n +:+ "/" +:+ name +:+ ".sock").
  change ".sock" with (".soc" +:+ String "k" ""). rewrite <- !string_app_assoc.
  by apply dropr_snoc_keep.
Qed.

Lemma parse_unix_sock n name :
  normal_dir n -> parse_listen_url ("unix://" +:+ n +:+ "/" +:+ name +:+ ".sock")
                  = Ok (n +:+ "/" +:+ name +:+ ".sock").
Proof.
  intros Hn. unfold parse_listen_url.
  rewrite unix_sock_stripped, strip_prefix_app, normal_root, normal_abs by done. done.
Qed.

(** What the parent listens on by default has a normal directory. *)
Lemma rs_default_shape user system url env_name :
  same_host env_name ->
  exists n name, normal_dir n /\
    rs_default_unix_path env user system url env_name = n +:+ "/" +:+ name +:+ ".sock".
Proof.
  intros Hh. destruct (runtime_dirs_agree env_name Hh) as (n & Hu & _).
  unfold rs_default_unix_path, rs_clamp.
  destruct (join_usable _ _ _ Hu (sock_name_plain
    (credential_key_hash user system url env_name) ".sock" eq_refl)) as [_ ->].
  destruct (_ <=? _)%nat.
  - exists n, ("rgw-" +:+ str_of_Z (credential_key_hash user system url env_name)).
    split; [apply Hu|]. by rewrite string_app_assoc.
  - destruct (join_usable _ _ _ tmp_usable rgw_dir_plain) as [_ ->].
    exists ("/tmp" +:+ "/" +:+ rgw_dir), (hex8 (credential_key_hash user system url env_name)).
    split; [apply tmp_normal|]. by rewrite rs_join_normal by apply tmp_normal.
Qed.

Lemma default_socket_agrees user system url env_name :
  same_host env_name ->
  default_unix_path env user system url env_name
    = Ok (rs_default_unix_path env user system url env_name).
Proof.
  intros Hh. destruct (runtime_dirs_agree env_name Hh) as (n & Hu & Hb).
  unfold default_unix_path, rs_default_unix_path, clamp_unix_path. rewrite Hb. simpl mbind.
  rewrite canon_env_hash by apply Hh.
  destruct (join_usable _ _ _ Hu (sock_name_plain
    (credential_key_hash user system url env_name) ".sock" eq_refl)) as [-> ->].
  apply (clamp_agree env_name); [done|apply Hu].
Qed.

Lemma lock_agrees user system url env_name :
  same_host env_name ->
  lock_path env user system url env_name = Ok (rs_lock_path env user system url env_name).
Proof.
  intros Hh. destruct (runtime_dirs_agree env_name Hh) as (n & Hu & _).
  unfold lock_path. rewrite default_socket_agrees by done. simpl mbind. f_equal.
  unfold rs_lock_path, credential_lock_path, rs_default_unix_path.
  destruct (join_usable _ _ _ Hu (sock_name_plain
    (credential_key_hash user system url env_name) ".sock" eq_refl)) as [_ ->].
  destruct (join_usable _ _ _ Hu (sock_name_plain
    (credential_key_hash user system url env_name) ".lock" eq_refl)) as [_ ->].
  symmetry. apply clamp_lock_sock.
Qed.

(** The client and the parent meet: on one host, from one environment and
    one set of credentials, a client configured without a listen URL dials the
    socket the parent listens on by default, and the lock file it probes is the
    one the parent locks. *)
Lemma paths_meet c c' :
  same_host (gc_env c') ->
  gc_listen c = None -> gw_post_init env c = Ok c' ->
  socket_path c'
    = Ok (rs_default_unix_path env (gc_user c') (gc_system_name c') (gc_url c') (gc_env c')) /\
  lock_path env (gc_user c') (gc_system_name c') (gc_url c') (gc_env c')
    = Ok (rs_lock_path env (gc_user c') (gc_system_name c') (gc_url c') (gc_env c')).
Proof.
  intros Hh Hl Hc. split; [|by apply lock_agrees].
  unfold gw_post_init, mbind, res_bind in Hc. rewrite Hl in Hc.
  destruct (gw_require "user" _) as [u|]; [|done].
  destruct (gw_require "system_name" _) as [sn|]; [|done].
  destruct (gw_require "url" _) as [ur|]; [|done].
  destruct (gw_require "env" _) as [en|]; [|done].
  destruct (default_unix_path env u sn ur en) as [p|] eqn:Hp; [|done].
  injection Hc as <-. simpl in *. rewrite default_socket_agrees in Hp by done.
  injection Hp as <-. unfold socket_path. simpl gc_listen. cbv iota.
  destruct (rs_default_shape u sn ur en Hh) as (n & name & Hn & ->). by apply parse_unix_sock.
Qed.

(** Construction strips the credentials and keeps the rest. *)
Lemma gw_post_init_fields c c' :
  gw_post_init env c = Ok c' ->
  gc_user c' = strip (gc_user c) /\ gc_system_name c' = strip (gc_system_name c) /\
  gc_url c' = strip (gc_url c) /\ gc_env c' = strip (gc_env c) /\
  trimmed (gc_user c') /\ trimmed (gc_system_name c') /\ trimmed (gc_url c') /\ trimmed (gc_env c') /\
  (forall l, gc_listen c = Some l -> nonempty (strip l) = true -> gc_listen c' = Some l).
Proof.
  assert (Hr : forall n v r, gw_require n (Some v) = Ok r -> r = strip v /\ trimmed r).
  { intros n v r. unfold gw_require. destruct (nonempty (strip v)) eqn:E; [|done].
    intros [= <-]. split; [done|by apply strip_trimmed]. }
  unfold gw_post_init, mbind, res_bind. intros Hc.
  destruct (gw_require "user" _) as [u|] eqn:E1; [|done].
  destruct (gw_require "system_name" _) as [sn|] eqn:E2; [|done].
  destruct (gw_require "url" _) as [ur|] eqn:E3; [|done].
  destruct (gw_require "env" _) as [en|] eqn:E4; [|done].
  apply Hr in E1 as [-> ?], E2 as [-> ?], E3 as [-> ?], E4 as [-> ?].
  destruct (match gc_listen c with Some _ => _ | None => _ end) as [listen|] eqn:El; [|done].
  injection Hc as <-. simpl. split_and!; [done..|]. intros l E Hl. rewrite E, Hl in El.
  destruct (parse_listen_url l); [|done]. congruence.
Qed.
End Agree.

(** ** [flock.py]: the credential lock *)

(** Advisory locks: the descriptor that holds each lock file, what the file
    says, the next descriptor; [os.open] may fail. *)
Record Locks := MkLocks {
  lk_held : gmap string Z;
  lk_text : gmap string string;
  lk_next : Z
}.

Record SessionLock := MkSessionLock { sl_path : string; sl_fd : Z }.

Definition lock_error (path : string) : exn :=
  Exn ExSessionLock None ("session already held by another process at " +:+ path).

Section Flock.
Context `{Os} (os_open : string -> res unit).
Variable env : environ.

(** [SessionLock.try_acquire] of process [pid]. *)
Definition try_acquire (pid : Z) (user system_name url env_name : string) (k : Locks)
    : res SessionLock * Locks :=
  match lock_path env user system_name url env_name with
  | Raise e => (Raise e, k)
  | Ok path =>
      match os_open path with
      | Raise e => (Raise e, k)
      | Ok _ =>
          let fd := lk_next k in
          match lk_held k !! path with
          | Some _ => (Raise (lock_error path), MkLocks (lk_held k) (lk_text k) (fd + 1))
          | None => (Ok (MkSessionLock path fd),
                     MkLocks (<[path := fd]> (lk_held k)) (<[path := str_of_Z pid]> (lk_text k))
                             (fd + 1))
          end
      end
  end.

(** The open of the lock file, when its path is known. *)
Definition os_open_lock (user system_name url env_name : string) : res unit :=
  path ← lock_path env user system_name url env_name; os_open path.

(** [close]: unlock and close the descriptor, once. *)
Definition lock_close (l : SessionLock) (k : Locks) : SessionLock * Locks :=
  if sl_fd l <? 0 then (l, k)
  else (MkSessionLock (sl_path l) (-1),
        if bool_decide (lk_held k !! sl_path l = Some (sl_fd l))
        then MkLocks (delete (sl_path l) (lk_held k)) (lk_text k) (lk_next k)
        else k).

Definition session_flock_held (pid : Z) (user system_name url env_name : string) (k : Locks)
    : res bool * Locks :=
  let '(r, k1) := try_acquire pid user system_name url env_name k in
  match r with
  | Ok l => (Ok false, snd (lock_close l k1))
  | Raise e => if bool_decide (ex_class e = ExSessionLock) then (Ok true, k1) else (Raise e, k1)
  end.

Lemma try_acquire_spec pid u s l e k r k' :
  try_acquire pid u s l e k = (r, k') -> lk_next k <= lk_next k' /\
  match r with
  | Ok lock => lk_held k !! sl_path lock = None /\ sl_fd lock = lk_next k /\
               lk_held k' = <[sl_path lock := sl_fd lock]> (lk_held k) /\
               lock_path env u s l e = Ok (sl_path lock)
  | Raise x => lk_held k' = lk_held k /\
      (os_open_lock u s l e = Raise x \/
       exists p fd, lock_path env u s l e = Ok p /\ lk_held k !! p = Some fd /\ x = lock_error p)
  end.
Proof.
  unfold try_acquire, os_open_lock.
  destruct (lock_path env u s l e) as [p|].
  2: { intros [= <- <-]. split; [lia|]. by split; [|left]. }
  destruct (os_open p) as [[]|] eqn:Eo.
  2: { intros [= <- <-]. split; [lia|]. by split; [|left]. }
  destruct (lk_held k !! p) eqn:E; intros [= <- <-]; simpl; (split; [lia|]); [|done].
  split; [done|]. right. eauto.
Qed.

Lemma lock_close_open l k :
  0 <= sl_fd l -> lk_held k !! sl_path l = Some (sl_fd l) ->
  lock_close l k = (MkSessionLock (sl_path l) (-1),
                    MkLocks (delete (sl_path l) (lk_held k)) (lk_text k) (lk_next k)).
Proof.
  intros Hf Hk. unfold lock_close. destruct (Z.ltb_spec (sl_fd l) 0); [lia|].
  by rewrite bool_decide_eq_true_2.
Qed.

Lemma probe_spec pid u s l e k r k' :
  0 <= lk_next k -> session_flock_held pid u s l e k = (r, k') ->
  lk_held k' = lk_held k /\ lk_next k <= lk_next k'.
Proof.
  unfold session_flock_held. intros Hn.
  destruct (try_acquire _ _ _ _ _ _) as [[lock|x] k1] eqn:E;
    apply try_acquire_spec in E as (Hk & Hr).
  - destruct Hr as (H1 & H2 & H3 & _).
    rewrite lock_close_open; [|lia|by rewrite H3, lookup_insert_eq].
    intros [= <- <-]. simpl. split; [|done]. rewrite H3. by apply delete_insert_id.
  - destruct (bool_decide _); intros [= <- <-]; naive_solver.
Qed.

(** What the lock file depends on. *)
Lemma lock_path_env env' u s l e :
  env' !! "XDG_RUNTIME_DIR" = env !! "XDG_RUNTIME_DIR" -> env' !! "TMPDIR" = env !! "TMPDIR" ->
  lock_path env' u s l e = lock_path env u s l e.
Proof.
  intros Hx Ht. unfold lock_path, default_unix_path, runtime_base_dir. by rewrite Hx, Ht.
Qed.
End Flock.

(** *** Processes, each with its own environment *)

Section Processes.
Context `{Os} (os_open : string -> res unit).

(** Processes taking, closing and probing locks; [World] is the table and the
    lock objects alive. *)
Record World := MkWorld { w_locks : Locks; w_alive : list SessionLock }.

Inductive lstep : World -> World -> Prop :=
| LAcquire env pid u s l e k live lock k' :
    try_acquire os_open env pid u s l e k = (Ok lock, k') ->
    lstep (MkWorld k live) (MkWorld k' (lock :: live))
| LRefused env pid u s l e k live x k' :
    try_acquire os_open env pid u s l e k = (Raise x, k') -> lstep (MkWorld k live) (MkWorld k' live)
| LProbe env pid u s l e k live r k' :
    session_flock_held os_open env pid u s l e k = (r, k') -> lstep (MkWorld k live) (MkWorld k' live)
| LClose k pre lock post :
    lstep (MkWorld k (pre ++ lock :: post))
          (MkWorld (snd (lock_close lock k)) (pre ++ fst (lock_close lock k) :: post)).

Inductive lsteps : World -> World -> Prop :=
| LNil w : lsteps w w
| LSnoc w w1 w2 : lsteps w w1 -> lstep w1 w2 -> lsteps w w2.

Definition no_locks : World := MkWorld (MkLocks ∅ ∅ 3) [].

(** The lock objects that still hold their descriptor. *)
Definition holders (w : World) : list SessionLock :=
  List.filter (fun l => 0 <=? sl_fd l) (w_alive w).

(** The table is exactly the open lock objects. *)
Definition held_by (l : SessionLock) : string * Z := (sl_path l, sl_fd l).
Definition locks_ok (w : World) : Prop :=
  0 <= lk_next (w_locks w) /\ map_to_list (lk_held (w_locks w)) ≡ₚ held_by <$> holders w.

Lemma lstep_ok w w' : lstep w w' -> locks_ok w -> locks_ok w'.
Proof.
  unfold locks_ok, holders.
  intros [env pid u s l e k live lock k' E|env pid u s l e k live x k' E|env pid u s l e k live r k' E
         |k pre lock post] [Hn Hp]; simpl in *.
  - apply try_acquire_spec in E as (Hk & Hnone & Hfd & -> & _). split; [lia|].
    rewrite map_to_list_insert by done. destruct (Z.leb_spec 0 (sl_fd lock)); [|lia].
    simpl. by rewrite Hp.
  - apply try_acquire_spec in E as (Hk & -> & _). split; [lia|done].
  - apply probe_spec in E as [-> Hk]; [|done]. split; [lia|done].
  - rewrite List.filter_app in *. simpl in *. destruct (Z.leb_spec 0 (sl_fd lock)) as [Hf|Hf].
    + assert (Hl : lk_held k !! sl_path lock = Some (sl_fd lock)).
      { apply elem_of_map_to_list. rewrite Hp. apply list_elem_of_fmap.
        exists lock. split; [done|]. set_solver. }
      rewrite lock_close_open by done. simpl. split; [done|].
      apply (Permutation_cons_inv (a := held_by lock)).
      unfold held_by at 1. rewrite map_to_list_delete by done. rewrite Hp.
      rewrite !fmap_app. simpl. by rewrite Permutation_middle.
    + unfold lock_close. destruct (Z.ltb_spec (sl_fd lock) 0); [|lia]. simpl.
      destruct (Z.leb_spec 0 (sl_fd lock)); [lia|]. done.
Qed.

Lemma lsteps_ok w : lsteps no_locks w -> locks_ok w.
Proof.
  remember no_locks as w0 eqn:E. induction 1 as [|w w1 w2 Hs IH Hst].
  - subst. split; [done|]. simpl. by rewrite map_to_list_empty.
  - eapply lstep_ok; eauto.
Qed.

End Processes.

(** ** [binary.py] and the launcher *)

(** The file system as the lookup sees it, the interpreter's directories (a set
    in the source, so in any order), [PATH] lookup and the module's directory
    with its parents. *)
Class Install := {
  is_file : string -> bool;
  is_dir : string -> bool;
  is_exec : string -> bool;
  resolve : string -> string;
  user_expand : string -> res string;
  script_dirs : list string;
  which : string -> option string;
  module_dirs : list string
}.

Definition _GATEWAY_BIN_NAME : string := "rithmic-gateway".
Definition binary_error (msg : string) : exn := Exn ExBinary None msg.

Section Binary.
Context `{Install}.
Variable env : environ.

Definition _checkout_root : option string :=
  List.find (fun root => is_file (join_path root "Cargo.toml") &&
                         is_dir (join_path (join_path root "crates") "rithmic-gateway")) module_dirs.

Definition bin_under (base flavour : string) : string :=
  join_path (join_path base flavour) _GATEWAY_BIN_NAME.

Definition _cargo_target_candidates : res (list string) :=
  cargo ← (match env !! "CARGO_TARGET_DIR" with
           | Some t => if nonempty t
                       then base ← user_expand t;
                            Ok [bin_under base "release"; bin_under base "debug"]
                       else Ok []
           | None => Ok []
           end);
  Ok (cargo ++ match _checkout_root with
               | Some root => [bin_under (join_path root "target") "release";
                               bin_under (join_path root "target") "debug"]
               | None => []
               end).

Definition runnable (path : string) : bool := is_file path && is_exec path.

Definition _wheel_bin : option string :=
  resolve <$> List.find runnable ((fun base => join_path base _GATEWAY_BIN_NAME) <$> script_dirs).

Definition _resolve_user_bin (raw : option string) (label : string) : res (option string) :=
  match raw with
  | Some r =>
      if nonempty r then
        path ← user_expand r;
        if is_file path then Ok (Some (resolve path))
        else Raise (binary_error (label +:+ " not found: " +:+ path))
      else Ok None
  | None => Ok None
  end.

Definition resolve_gateway_bin (explicit : option string) : res string :=
  a ← _resolve_user_bin explicit "gateway bin";
  match a with
  | Some p => Ok p
  | None =>
      b ← _resolve_user_bin (env !! "RITHMIC_GATEWAY_BIN") "RITHMIC_GATEWAY_BIN";
      match b with
      | Some p => Ok p
      | None =>
          match _wheel_bin with
          | Some p => Ok p
          | None =>
              let search :=
                cs ← _cargo_target_candidates;
                match List.find runnable cs with
                | Some c => Ok (resolve c)
                | None => Raise (binary_error "rithmic-gateway not found")
                end in
              match which _GATEWAY_BIN_NAME with
              | Some p => if nonempty p then Ok p else search
              | None => search
              end
          end
      end
  end.

(** What the launcher process does: become the parent with its arguments, or
    exit with a status. *)
Inductive Launch := Execv (path : string) (argv : list string) | Exit (code : Z).

Definition launcher_main (args : list string) : res Launch :=
  match resolve_gateway_bin None with
  | Ok binary => Ok (Execv binary (binary :: args))
  | Raise e => if bool_decide (ex_class e = ExBinary) then Ok (Exit 2) else Raise e
  end.

(** Where a binary found without an operator's path may come from: the
    interpreter's script directories, [PATH], the cargo target directory and the
    checkout this package was imported from; never the working directory. *)
Definition searched (p : string) : Prop :=
  (exists d, d ∈ script_dirs /\ p = resolve (join_path d _GATEWAY_BIN_NAME) /\
             runnable (join_path d _GATEWAY_BIN_NAME) = true) \/
  which _GATEWAY_BIN_NAME = Some p \/
  (exists cs c, _cargo_target_candidates = Ok cs /\ c ∈ cs /\ p = resolve c /\ runnable c = true).

Lemma user_bin_some o label p :
  _resolve_user_bin o label = Ok (Some p) ->
  exists raw q, o = Some raw /\ user_expand raw = Ok q /\ is_file q = true /\ p = resolve q.
Proof.
  unfold _resolve_user_bin, mbind, res_bind. destruct o as [raw|]; [|done].
  destruct (nonempty raw); [|done]. destruct (user_expand raw) as [q|] eqn:Eq; [|done].
  destruct (is_file q) eqn:Ef; [|done]. intros [= <-]. by exists raw, q.
Qed.

(** An operator's path that is set decides alone: it is used, or the lookup
    fails; without one the result is a place of [searched]. *)
Lemma resolve_bin_sources explicit p :
  resolve_gateway_bin explicit = Ok p ->
  (exists raw q, (explicit = Some raw \/ env !! "RITHMIC_GATEWAY_BIN" = Some raw) /\
     user_expand raw = Ok q /\ is_file q = true /\ p = resolve q) \/ searched p.
Proof.
  unfold resolve_gateway_bin, mbind, res_bind.
  destruct (_resolve_user_bin explicit _) as [[a|]|] eqn:Ea; [| |done].
  - intros [= <-]. left. apply user_bin_some in Ea as (raw & q & Hq). exists raw, q. naive_solver.
  - clear Ea. destruct (_resolve_user_bin (env !! _) _) as [[b|]|] eqn:Eb; [| |done].
    + intros [= <-]. left. apply user_bin_some in Eb as (raw & q & Hq). exists raw, q. naive_solver.
    + intros Hr. right. unfold searched. unfold _wheel_bin in Hr.
      destruct (List.find runnable (_ <$> script_dirs)) as [w|] eqn:Ew.
      { injection Hr as <-. left. apply List.find_some in Ew as [Hin Hx].
        apply list_elem_of_In, list_elem_of_fmap in Hin as (d & -> & Hd). eauto. }
      simpl in Hr.
      assert (Hs : (exists x, which _GATEWAY_BIN_NAME = Some x /\ nonempty x = true /\ p = x) \/
                   exists cs c, _cargo_target_candidates = Ok cs /\ List.find runnable cs = Some c
                                /\ p = resolve c).
      { destruct (which _) as [x|]; [destruct (nonempty x) eqn:Ex|].
        1: left; naive_solver.
        all: right; destruct _cargo_target_candidates as [cs|]; [|done];
             destruct (List.find runnable cs) as [c|] eqn:Ec; [|done];
             exists cs, c; naive_solver. }
      destruct Hs as [(x & -> & _ & ->)|(cs & c & -> & Hf & ->)]; [by right; left|].
      right; right. apply List.find_some in Hf as [Hin Hx]. exists cs, c.
      split_and!; [done|by apply list_elem_of_In|done..].
Qed.
End Binary.

(** ** Samples *)

Module GwSample.

(** User 1000 on a host whose directories it can secure; the working directory
    is [/w]. *)
#[local] Instance host : Os := {
  os_uid := 1000; os_owner := fun _ => Ok 1000; os_chmod := fun _ => Ok tt;
  os_resolve_cwd := fun p => "/w/" +:+ p
}.

Definition alice : GatewayConfig :=
  MkGatewayConfig " alice" "LucidTrading" "wss://rprotocol.rithmic.com:443" "Live" "" "" "" "tok"
    None 90000 true.
Definition alice_ok : GatewayConfig :=
  MkGatewayConfig "alice" "LucidTrading" "wss://rprotocol.rithmic.com:443" "Live" "" "" "" "tok"
    (Some "unix:///var/T/rgw-1000/rgw-13146466402466778522.sock") 90000 true.
Definition mac_env : environ := {[ "TMPDIR" := "/var/T/" ]}.
Definition long_dir : string :=
  "/var/folders/09/p1d_rff504sfyjjc4hs600v00000gn/T/very-long-prefix-xxxxxxxxxxxxxxxxxxxxxxxxxxxxxx".

Lemma mac_host : same_host mac_env "Live".
Proof.
  split; [reflexivity| | |done..].
  - intros d Hd. vm_compute in Hd. discriminate.
  - intros d Hd. vm_compute in Hd. injection Hd as <-. exists "/var/T".
    split; [|by right]. exists ["var"; "T"]. split_and!; [done| |done].
    by repeat apply Forall_cons_2.
Qed.

(** [paths_meet] under a [TMPDIR] with a trailing slash. *)
Lemma mac_paths_meet :
  socket_path alice_ok = Ok "/var/T/rgw-1000/rgw-13146466402466778522.sock" /\
  lock_path mac_env "alice" "LucidTrading" "wss://rprotocol.rithmic.com:443" "Live"
    = Ok (rs_lock_path mac_env "alice" "LucidTrading" "wss://rprotocol.rithmic.com:443" "Live").
Proof.
  destruct (paths_meet mac_env alice alice_ok mac_host) as [H1 H2];
    [reflexivity|vm_compute; reflexivity|].
  split; [rewrite H1; vm_compute; reflexivity|exact H2].
Qed.

(** [default_path_fits] where the clamp is needed. *)
Lemma default_path_fits_witness :
  default_unix_path {[ "XDG_RUNTIME_DIR" := long_dir ]} "alice" "LucidTrading" "u" "Live"
    = Ok "/tmp/rgw-1000/c971d96e.sock" /\
  (String.length "/tmp/rgw-1000/c971d96e.sock" <= UNIX_PATH_MAX)%nat.
Proof.
  assert (E : default_unix_path {[ "XDG_RUNTIME_DIR" := long_dir ]} "alice" "LucidTrading" "u" "Live"
    = Ok "/tmp/rgw-1000/c971d96e.sock") by (vm_compute; reflexivity).
  split; [exact E|].
  apply (default_path_fits {[ "XDG_RUNTIME_DIR" := long_dir ]} "alice" "LucidTrading" "u" "Live");
    [simpl; lia|exact E].
Defined.

Definition any_open (p : string) : res unit := Ok tt.
Definition held_world : World :=
  MkWorld (MkLocks {[ "/var/T/rgw-1000/rgw-13146466402466778522.lock" := 3 ]}
                   {[ "/var/T/rgw-1000/rgw-13146466402466778522.lock" := "77" ]} 4)
          [MkSessionLock "/var/T/rgw-1000/rgw-13146466402466778522.lock" 3].


(** One credential, two processes, different [TMPDIR]: both hold a lock. *)
Definition other_env : environ := {[ "TMPDIR" := "/scratch/" ]}.
Definition both_hold : World :=
  match try_acquire any_open other_env 78 "alice" "LucidTrading" "wss://rprotocol.rithmic.com:443"
          "Live" (w_locks held_world) with
  | (Ok lock, k) => MkWorld k (lock :: w_alive held_world)
  | _ => held_world
  end.
Lemma other_tmpdir_both_hold :
  lsteps any_open no_locks both_hold /\
  sl_path <$> holders both_hold =
    ["/scratch/rgw-1000/rgw-13146466402466778522.lock"; "/var/T/rgw-1000/rgw-13146466402466778522.lock"].
Proof.
  split; [|vm_compute; reflexivity].
  eapply LSnoc; [eapply LSnoc; [apply LNil|]|].
  - eapply (LAcquire _ mac_env 77 "alice" "LucidTrading" "wss://rprotocol.rithmic.com:443" "Live").
    vm_compute. reflexivity.
  - eapply (LAcquire _ other_env 78 "alice" "LucidTrading" "wss://rprotocol.rithmic.com:443" "Live").
    vm_compute. reflexivity.
Qed.

(** Where the two sides part, against the comment that they resolve the same
    base directory: a blank [XDG_RUNTIME_DIR] and an empty [TMPDIR]; and a
    runtime directory owned by someone else, which Python refuses and the parent
    uses. *)
Lemma base_dirs_diverge :
  (runtime_base_dir {[ "XDG_RUNTIME_DIR" := " " ]} = Ok "/tmp/rgw-1000" /\
   rs_runtime_base_dir {[ "XDG_RUNTIME_DIR" := " " ]} = " ") /\
  (runtime_base_dir {[ "TMPDIR" := "" ]} = Ok "/tmp/rgw-1000" /\
   rs_runtime_base_dir {[ "TMPDIR" := "" ]} = "rgw-1000").
Proof. vm_compute. done. Qed.

Definition shared_host : Os := {|
  os_uid := 1000; os_owner := fun _ => Ok 0; os_chmod := fun _ => Ok tt;
  os_resolve_cwd := fun p => "/w/" +:+ p
|}.

Lemma foreign_dir_diverges :
  @runtime_base_dir shared_host ∅
    = Raise (gw_config_error "runtime dir /tmp/rgw-1000 not owned by uid 1000 (st_uid=0)") /\
  @rs_runtime_base_dir shared_host ∅ = "/tmp/rgw-1000".
Proof. vm_compute. done. Qed.

End GwSample.
