(* ===== verification/Requests.v ===== *)
(** * What crosses the gateway: requests and failures

    A call on [GatewayClient] ([rithmic_gateway/client.py]) becomes a protobuf
    request; the parent ([rithmic-gateway/src/server/dispatch/mod.rs]) reads it
    and makes the call on its own session; a failure comes back as an error code
    that the client turns into an exception, which the execution client
    classifies ([_failure_class]).

    The message types are those of [proto/.../session.proto] ([schema]); the
    protobuf library is not in the repository.  A message is the fields that were
    set; setting an integer outside [int32] raises.  On the wire a field without
    presence is sent only when it differs from its default ([on_wire]), and the
    reader supplies the default.  [Session.v] has the calls and the argument
    lists of the session protocol. *)

From Stdlib Require Import Ascii String.
From stdpp Require Import base gmap strings list.
From Stdlib Require Import ZArith Lia.
From S2P Require Import Prelude PyVal Plant Lru Ident Nautilus Orders OrderRows Commission Host Commands Redact Config Framing Gateway Session.
Import Text.
Open Scope string_scope.
Open Scope list_scope.
Open Scope Z_scope.

(** ** Messages *)

Inductive FieldType := FString | FInt32 | FOptInt32 | FOptDouble.

Definition SYMBOL : list (string * FieldType) := [("symbol", FString); ("exchange", FString)].
Definition BARS : list (string * FieldType) := SYMBOL ++ [("bar_type", FInt32); ("period", FInt32)].
Definition WINDOW : list (string * FieldType) :=
  [("start_time_sec", FInt32); ("end_time_sec", FInt32)].
Definition ORDER_TERMS : list (string * FieldType) :=
  SYMBOL ++ [("side", FString); ("price_type", FString); ("quantity", FInt32);
             ("price", FOptDouble); ("trigger_price", FOptDouble); ("duration", FString)].
Definition LEVEL : list (string * FieldType) :=
  [("basket_id", FString); ("ticks", FInt32); ("level", FOptInt32)].

(** The request messages by the name of their [Frame] field. *)
Definition schema : list (string * list (string * FieldType)) :=
  [("subscribe", SYMBOL); ("unsubscribe", SYMBOL);
   ("subscribe_book", SYMBOL); ("unsubscribe_book", SYMBOL);
   ("load_ticks", SYMBOL ++ WINDOW);
   ("load_time_bars", BARS ++ WINDOW); ("probe_time_bars", BARS ++ WINDOW);
   ("subscribe_time_bars", BARS); ("unsubscribe_time_bars", BARS);
   ("request_plants", [("plants", FString)]);
   ("place_order", ORDER_TERMS ++ [("user_tag", FString); ("trail_by_ticks", FOptInt32);
                                   ("trail_by_price_id", FOptInt32)]);
   ("cancel_order", [("basket_id", FString)]);
   ("modify_order", [("basket_id", FString)] ++ SYMBOL ++
                    [("quantity", FInt32); ("price_type", FString); ("price", FOptDouble);
                     ("trigger_price", FOptDouble); ("trail_by_ticks", FOptInt32)]);
   ("cancel_all_orders", []); ("disconnect", []); ("disconnect_pnl", []); ("disconnect_order", []);
   ("reset_ticker_plant", []); ("ensure_pnl", []); ("ensure_order", []); ("subscribe_pnl", []);
   ("subscribe_order_updates", []); ("subscribe_bracket_updates", []);
   ("place_bracket_order", ORDER_TERMS ++ [("localid", FString); ("stop_ticks", FOptInt32);
                                           ("target_ticks", FOptInt32)]);
   ("adjust_bracket_stop", LEVEL); ("adjust_bracket_target", LEVEL);
   ("get_front_month", SYMBOL); ("get_reference_data", SYMBOL);
   ("load_orders", WINDOW); ("resolved_account", []);
   ("load_product_rms_info", []); ("load_account_rms_info", []);
   ("load_fill_history", [("start_date", FInt32); ("finish_date", FInt32)]);
   ("load_order_history_dates", []); ("load_order_history", [("date", FString)]);
   ("get_live_md_state", [])].

Definition assoc {A} (k : string) (l : list (string * A)) : option A :=
  snd <$> List.find (fun p => bool_decide (p.1 = k)) l.

Definition field_type (body k : string) : option FieldType := assoc body schema ≫= assoc k.

Definition int32 (z : Z) : bool := (- 2 ^ 31 <=? z) && (z <? 2 ^ 31).

Definition field_error (msg : string) : exn := Exn ExValue None msg.

(** Setting a field checks its type and its range. *)
Definition set_field (body k : string) (v : pyval) (m : pydict) : res pydict :=
  match field_type body k, v with
  | Some FString, VStr _ => Ok (<[k := v]> m)
  | Some (FInt32 | FOptInt32), VInt z =>
      if int32 z then Ok (<[k := v]> m) else Raise (field_error "Value out of range")
  | Some FOptDouble, VFloat _ => Ok (<[k := v]> m)
  | None, _ => Raise (field_error "no such field")
  | _, _ => Raise (Exn ExType None "bad argument type")
  end.

(** [if x is not None: req.k = x]; a mandatory argument is never [None]. *)
Fixpoint fill_fields (body : string) (fields : list (string * pyval)) (m : pydict) : res pydict :=
  match fields with
  | [] => Ok m
  | (k, VNone) :: fields' => fill_fields body fields' m
  | (k, v) :: fields' => m' ← set_field body k v m; fill_fields body fields' m'
  end.

Record Request := MkRequest { rq_body : string; rq_fields : pydict }.

Definition frame (body : string) (fields : list (string * pyval)) : res Request :=
  m ← fill_fields body fields ∅; Ok (MkRequest body m).

(** ** The requests of [GatewayClient] *)

Definition symbol_fields (symbol exchange : string) : list (string * pyval) :=
  [("symbol", VStr symbol); ("exchange", VStr exchange)].

Definition subscribe_req (symbol exchange : string) : res Request :=
  frame "subscribe" (symbol_fields symbol exchange).
Definition unsubscribe_req (symbol exchange : string) : res Request :=
  frame "unsubscribe" (symbol_fields symbol exchange).
Definition subscribe_book_req (symbol exchange : string) : res Request :=
  frame "subscribe_book" (symbol_fields symbol exchange).
Definition unsubscribe_book_req (symbol exchange : string) : res Request :=
  frame "unsubscribe_book" (symbol_fields symbol exchange).
Definition request_plants_req (plants : string) : res Request :=
  frame "request_plants" [("plants", VStr plants)].
Definition front_month_req (symbol exchange : string) : res Request :=
  frame "get_front_month" (symbol_fields symbol exchange).
Definition reference_data_req (symbol exchange : string) : res Request :=
  frame "get_reference_data" (symbol_fields symbol exchange).
Definition live_md_state_req : res Request := frame "get_live_md_state" [].
Definition resolved_account_req : res Request := frame "resolved_account" [].
Definition load_orders_req (start_ssboe end_ssboe : Z) : res Request :=
  frame "load_orders" [("start_time_sec", VInt start_ssboe); ("end_time_sec", VInt end_ssboe)].
Definition product_rms_req : res Request := frame "load_product_rms_info" [].
Definition account_rms_req : res Request := frame "load_account_rms_info" [].
Definition fill_history_req (start_date finish_date : Z) : res Request :=
  frame "load_fill_history" [("start_date", VInt start_date); ("finish_date", VInt finish_date)].
Definition history_dates_req : res Request := frame "load_order_history_dates" [].
Definition order_history_req (date : string) : res Request :=
  frame "load_order_history" [("date", VStr date)].
Definition load_ticks_req (symbol exchange : string) (start_ssboe end_ssboe : Z) : res Request :=
  frame "load_ticks" (symbol_fields symbol exchange ++
    [("start_time_sec", VInt start_ssboe); ("end_time_sec", VInt end_ssboe)]).

Definition bars_fields (symbol exchange : string) (start_ssboe end_ssboe bar_type period : Z)
  : list (string * pyval) :=
  symbol_fields symbol exchange ++
  [("start_time_sec", VInt start_ssboe); ("end_time_sec", VInt end_ssboe);
   ("bar_type", VInt bar_type); ("period", VInt period)].

Definition load_time_bars_req (symbol exchange : string) (start_ssboe end_ssboe bar_type period : Z)
  : res Request :=
  frame "load_time_bars" (bars_fields symbol exchange start_ssboe end_ssboe bar_type period).
Definition probe_time_bars_req (symbol exchange : string) (start_ssboe end_ssboe bar_type period : Z)
  : res Request :=
  frame "probe_time_bars" (bars_fields symbol exchange start_ssboe end_ssboe bar_type period).
Definition subscribe_bars_req (symbol exchange : string) (bar_type period : Z) : res Request :=
  frame "subscribe_time_bars" (symbol_fields symbol exchange ++
    [("bar_type", VInt bar_type); ("period", VInt period)]).
Definition unsubscribe_bars_req (symbol exchange : string) (bar_type period : Z) : res Request :=
  frame "unsubscribe_time_bars" (symbol_fields symbol exchange ++
    [("bar_type", VInt bar_type); ("period", VInt period)]).
Definition subscribe_pnl_req : res Request := frame "subscribe_pnl" [].
Definition ensure_pnl_req : res Request := frame "ensure_pnl" [].
Definition ensure_order_req : res Request := frame "ensure_order" [].
Definition disconnect_pnl_req : res Request := frame "disconnect_pnl" [].
Definition order_updates_req : res Request := frame "subscribe_order_updates" [].
Definition bracket_updates_req : res Request := frame "subscribe_bracket_updates" [].
Definition disconnect_order_req : res Request := frame "disconnect_order" [].
Definition reset_ticker_req : res Request := frame "reset_ticker_plant" [].

Definition place_order_req (symbol exchange side price_type : string) (quantity : Z)
  (user_tag : string) (price trigger_price : option f64) (duration : string)
  (trail_by_ticks trail_by_price_id : option Z) : res Request :=
  frame "place_order" (symbol_fields symbol exchange ++
    [("side", VStr side); ("price_type", VStr price_type); ("quantity", VInt quantity);
     ("user_tag", VStr user_tag); ("duration", VStr duration); ("price", optf price);
     ("trigger_price", optf trigger_price); ("trail_by_ticks", optz trail_by_ticks);
     ("trail_by_price_id", optz trail_by_price_id)]).

Definition place_bracket_req (symbol exchange side price_type : string) (quantity : Z)
  (localid : string) (price trigger_price : option f64) (duration : string)
  (stop_ticks target_ticks : option Z) : res Request :=
  frame "place_bracket_order" (symbol_fields symbol exchange ++
    [("side", VStr side); ("price_type", VStr price_type); ("quantity", VInt quantity);
     ("localid", VStr localid); ("duration", VStr duration); ("price", optf price);
     ("trigger_price", optf trigger_price); ("stop_ticks", optz stop_ticks);
     ("target_ticks", optz target_ticks)]).

Definition adjust_stop_req (basket_id : string) (ticks : Z) (level : option Z) : res Request :=
  frame "adjust_bracket_stop" [("basket_id", VStr basket_id); ("ticks", VInt ticks); ("level", optz level)].
Definition adjust_target_req (basket_id : string) (ticks : Z) (level : option Z) : res Request :=
  frame "adjust_bracket_target" [("basket_id", VStr basket_id); ("ticks", VInt ticks); ("level", optz level)].
Definition cancel_order_req (basket_id : string) : res Request :=
  frame "cancel_order" [("basket_id", VStr basket_id)].

Definition modify_order_req (basket_id symbol exchange : string) (quantity : Z) (price_type : string)
  (price trigger_price : option f64) (trail_by_ticks : option Z) : res Request :=
  frame "modify_order" ([("basket_id", VStr basket_id)] ++ symbol_fields symbol exchange ++
    [("quantity", VInt quantity); ("price_type", VStr price_type); ("price", optf price);
     ("trigger_price", optf trigger_price); ("trail_by_ticks", optz trail_by_ticks)]).

Definition cancel_all_req : res Request := frame "cancel_all_orders" [].

(** A call on the client, by protocol; polls send nothing. *)
Inductive ClientCall := CTicker (c : TickerCall) | CPnl (c : PnlCall) | COrders (c : OrderCall).

Definition client_request (c : ClientCall) : option (res Request) :=
  match c with
  | CTicker (TSubscribe s x) => Some (subscribe_req s x)
  | CTicker (TUnsubscribe s x) => Some (unsubscribe_req s x)
  | CTicker (TSubscribeBook s x) => Some (subscribe_book_req s x)
  | CTicker (TUnsubscribeBook s x) => Some (unsubscribe_book_req s x)
  | CTicker (TFrontMonth s x) => Some (front_month_req s x)
  | CTicker (TReferenceData s x) => Some (reference_data_req s x)
  | CTicker TResolvedAccount => Some resolved_account_req
  | CTicker (TLoadTicks s x a b) => Some (load_ticks_req s x a b)
  | CTicker (TLoadTimeBars s x a b k p) => Some (load_time_bars_req s x a b k p)
  | CTicker (TProbeTimeBars s x a b k p) => Some (probe_time_bars_req s x a b k p)
  | CTicker (TSubscribeBars s x k p) => Some (subscribe_bars_req s x k p)
  | CTicker (TUnsubscribeBars s x k p) => Some (unsubscribe_bars_req s x k p)
  | CTicker (TRequestPlants p) => Some (request_plants_req p)
  | CPnl PSubscribe => Some subscribe_pnl_req
  | CPnl PDisconnectPlant => Some disconnect_pnl_req
  | CPnl PEnsurePlant => Some ensure_pnl_req
  | COrders OSubscribeUpdates => Some order_updates_req
  | COrders OSubscribeBrackets => Some bracket_updates_req
  | COrders ODisconnectPlant => Some disconnect_order_req
  | COrders OEnsurePlant => Some ensure_order_req
  | COrders (OPlace s x side pt q tag px tp dur tk tpid) =>
      Some (place_order_req s x side pt q tag px tp dur tk tpid)
  | COrders (OPlaceBracket s x side pt q lid px tp dur st tg) =>
      Some (place_bracket_req s x side pt q lid px tp dur st tg)
  | COrders (OAdjustStop b t l) => Some (adjust_stop_req b t l)
  | COrders (OAdjustTarget b t l) => Some (adjust_target_req b t l)
  | COrders (OCancel b) => Some (cancel_order_req b)
  | COrders (OModify b s x q pt px tp tk) => Some (modify_order_req b s x q pt px tp tk)
  | COrders OCancelAll => Some cancel_all_req
  | COrders (OLoadOrders a b) => Some (load_orders_req a b)
  | COrders OProductRms => Some product_rms_req
  | COrders OAccountRms => Some account_rms_req
  | COrders (OFillHistory a b) => Some (fill_history_req a b)
  | COrders OHistoryDates => Some history_dates_req
  | COrders (OHistory d) => Some (order_history_req d)
  | CTicker (TPollEvent _ | TNextEvents _ _ _ | TPollHistoryEvent)
  | CPnl PPollEvent | COrders OPollEvent => None
  end.

(** ** The parent: what it reads, and the session call it makes *)

Definition is_default (body k : string) (v : pyval) : bool :=
  match field_type body k, v with
  | Some FString, VStr s => negb (nonempty s)
  | Some FInt32, VInt z => z =? 0
  | _, _ => false
  end.

Definition on_wire (r : Request) : Request :=
  MkRequest (rq_body r) (filter (fun p => is_default (rq_body r) p.1 p.2 = false) (rq_fields r)).

Definition read_field (r : Request) (k : string) : pyval :=
  match field_type (rq_body r) k, rq_fields r !! k with
  | Some FString, None => VStr ""
  | Some FInt32, None => VInt 0
  | _, Some v => v
  | _, None => VNone
  end.

(** The method each request body calls on the parent's session, with the fields
    it passes; [PlantSet::parse] accepts the named plant sets.  The bodies the
    parent answers without a session call ([disconnect], [get_live_md_state], and
    [reset_ticker_plant], which resets its own ticker plant) are not listed. *)
Definition plants_known (raw : string) : bool :=
  bool_decide (trim raw ∈ ["market_data"; "data"; "md"; "execution"; "exec"]).

Definition dispatch_table : list (string * (string * list string)) :=
  [("subscribe", ("subscribe", ["symbol"; "exchange"]));
   ("unsubscribe", ("unsubscribe", ["symbol"; "exchange"]));
   ("subscribe_book", ("subscribe_order_book_summary", ["symbol"; "exchange"]));
   ("unsubscribe_book", ("unsubscribe_order_book_summary", ["symbol"; "exchange"]));
   ("subscribe_time_bars", ("subscribe_time_bars", ["symbol"; "exchange"; "bar_type"; "period"]));
   ("unsubscribe_time_bars", ("unsubscribe_time_bars", ["symbol"; "exchange"; "bar_type"; "period"]));
   ("subscribe_pnl", ("subscribe_pnl", []));
   ("subscribe_order_updates", ("subscribe_order_updates", []));
   ("subscribe_bracket_updates", ("subscribe_bracket_updates", []));
   ("disconnect_pnl", ("disconnect_pnl_plant", []));
   ("disconnect_order", ("disconnect_order_plant", []));
   ("ensure_order", ("ensure_order_plant", []));
   ("ensure_pnl", ("ensure_pnl_plant", []));
   ("request_plants", ("request_plants", ["plants"]));
   ("place_order", ("place_order",
      ["symbol"; "exchange"; "side"; "price_type"; "quantity"; "user_tag"; "price"; "trigger_price";
       "duration"; "trail_by_ticks"; "trail_by_price_id"]));
   ("place_bracket_order", ("place_bracket_order",
      ["symbol"; "exchange"; "side"; "price_type"; "quantity"; "localid"; "price"; "trigger_price";
       "duration"; "stop_ticks"; "target_ticks"]));
   ("adjust_bracket_stop", ("adjust_bracket_stop", ["basket_id"; "ticks"; "level"]));
   ("adjust_bracket_target", ("adjust_bracket_target", ["basket_id"; "ticks"; "level"]));
   ("cancel_order", ("cancel_order", ["basket_id"]));
   ("modify_order", ("modify_order",
      ["basket_id"; "symbol"; "exchange"; "quantity"; "price_type"; "price"; "trigger_price";
       "trail_by_ticks"]));
   ("cancel_all_orders", ("cancel_all_orders", []));
   ("load_ticks", ("load_ticks", ["symbol"; "exchange"; "start_time_sec"; "end_time_sec"]));
   ("load_time_bars", ("load_time_bars",
      ["symbol"; "exchange"; "start_time_sec"; "end_time_sec"; "bar_type"; "period"]));
   ("probe_time_bars", ("probe_time_bars",
      ["symbol"; "exchange"; "start_time_sec"; "end_time_sec"; "bar_type"; "period"]));
   ("load_product_rms_info", ("load_product_rms_info", []));
   ("load_account_rms_info", ("load_account_rms_info", []));
   ("load_fill_history", ("load_fill_history", ["start_date"; "finish_date"]));
   ("load_order_history", ("load_order_history", ["date"]));
   ("load_order_history_dates", ("load_order_history_dates", []));
   ("get_front_month", ("get_front_month", ["symbol"; "exchange"]));
   ("get_reference_data", ("get_reference_data", ["symbol"; "exchange"]));
   ("resolved_account", ("resolved_account", []))].

Definition dispatch_call (r : Request) : option Invocation :=
  if bool_decide (rq_body r = "load_orders") then Some ("load_orders", [VInt 0; VInt 0])
  else if bool_decide (rq_body r = "request_plants") && negb (
    match read_field r "plants" with VStr p => plants_known p | _ => false end) then None
  else match assoc (rq_body r) dispatch_table with
       | Some (method, keys) => Some (method, read_field r <$> keys)
       | None => None
       end.

(** ** Facts: reading back what was set *)

(** An argument of the type its field declares. *)
Inductive typed (body : string) : string * pyval -> Prop :=
| TStr k x : field_type body k = Some FString -> typed body (k, VStr x)
| TInt k z : field_type body k = Some FInt32 -> typed body (k, VInt z)
| TOptInt k o : field_type body k = Some FOptInt32 -> typed body (k, optz o)
| TOptDouble k o : field_type body k = Some FOptDouble -> typed body (k, optf o).

Lemma set_field_ok body k v m m' :
  set_field body k v m = Ok m' -> m' = <[k := v]> m.
Proof. unfold set_field. intros E. repeat (case_match; simplify_eq; try done). Qed.

Lemma fill_fields_other body fields m m' k :
  fill_fields body fields m = Ok m' -> k ∉ fields.*1 -> m' !! k = m !! k.
Proof.
  revert m. induction fields as [|[k0 v] fields IH]; intros m; simpl; [congruence|].
  rewrite not_elem_of_cons. intros Hf [Hk Hin].
  destruct v; try (by apply IH).
  all: unfold mbind, res_bind in Hf; destruct (set_field _ _ _ _) as [m1|] eqn:Es; [|done];
    apply set_field_ok in Es as ->; rewrite (IH _ Hf Hin); by apply lookup_insert_ne.
Qed.

Definition put (v : pyval) : option pyval := if is_none v then None else Some v.

Lemma fill_fields_spec body fields m m' k v :
  fill_fields body fields m = Ok m' -> NoDup (fields.*1) -> (k, v) ∈ fields ->
  m !! k = None -> m' !! k = put v.
Proof.
  revert m. induction fields as [|[k0 v0] fields IH]; intros m; [intros _ _ Hin; by apply elem_of_nil in Hin|].
  simpl. rewrite NoDup_cons, elem_of_cons. intros Hf [Hk0 Hnd] Hin Hm.
  assert (Hstep : forall m1, fill_fields body fields m1 = Ok m' -> (k = k0 -> m1 !! k0 = put v0) ->
    (k <> k0 -> m1 !! k = None) -> m' !! k = put v).
  { intros m1 H1 Hk1 Hne. destruct Hin as [[= -> ->]|Hin].
    - rewrite (fill_fields_other _ _ _ _ _ H1 Hk0). by apply Hk1.
    - eapply IH; [done..|]. apply Hne. intros ->. apply Hk0. apply list_elem_of_fmap. by exists (k0, v). }
  destruct v0; [apply (Hstep m Hf); [by intros ->|done]|..].
  all: (unfold mbind, res_bind in Hf; destruct (set_field _ _ _ _) as [m1|] eqn:Es; [|done];
    apply set_field_ok in Es as ->; eapply Hstep; [done|intros _; by rewrite lookup_insert_eq|];
    intros Hne; by rewrite lookup_insert_ne).
Qed.

Lemma set_field_typed body k v m :
  typed body (k, v) -> is_none v = false ->
  set_field body k v m = Ok (<[k := v]> m) \/
  exists z, v = VInt z /\ int32 z = false /\ set_field body k v m = Raise (field_error "Value out of range").
Proof.
  intros Ht Hn. unfold set_field.
  inversion Ht as [? ? Hf|? ? Hf|? o Hf|? o Hf]; subst; rewrite Hf; try (by left).
  - destruct (int32 z) eqn:E; [by left|right]. by exists z.
  - destruct o as [z|]; [|done]. simpl. destruct (int32 z) eqn:E; [by left|right]. by exists z.
  - destruct o as [f|]; [by left|done].
Qed.

(** Filling typed fields fails only on an integer that is out of range. *)
Lemma fill_fields_typed body fields m :
  Forall (typed body) fields ->
  match fill_fields body fields m with
  | Ok _ => True
  | Raise e => ex_class e = ExValue /\ exists k z, (k, VInt z) ∈ fields /\ int32 z = false
  end.
Proof.
  intros Hf. revert m. induction Hf as [|[k v] fields Ht Hf IH]; intros m; [done|].
  assert (Hskip : forall m1, match fill_fields body fields m1 with
    | Ok _ => True
    | Raise e => ex_class e = ExValue /\ exists k' z, (k', VInt z) ∈ (k, v) :: fields /\ int32 z = false
    end).
  { intros m1. specialize (IH m1). destruct (fill_fields body fields m1); [done|].
    destruct IH as (Hc & k' & z & Hin & Hz). split; [done|]. exists k', z. split; [by right|done]. }
  simpl. destruct (is_none v) eqn:Hn; [destruct v; [apply Hskip|done..]|].
  destruct (set_field_typed _ _ _ m Ht Hn) as [E|(z & -> & Hz & E)].
  - destruct v; [done|..]; unfold mbind, res_bind; rewrite E; apply Hskip.
  - unfold mbind, res_bind. rewrite E. split; [done|]. exists k, z. split; [by left|done].
Qed.

Lemma wire_reads body m k v :
  typed body (k, v) -> m !! k = put v -> read_field (on_wire (MkRequest body m)) k = v.
Proof.
  intros Ht Hm. unfold read_field, on_wire. simpl. rewrite map_lookup_filter, Hm. unfold put, is_default.
  inversion Ht as [? x Hf|? z Hf|? o Hf|? o Hf]; subst; rewrite Hf; simpl.
  - case_guard as G; simpl; [done|]. rewrite Hf in G. by destruct x.
  - case_guard as G; simpl; [done|]. rewrite Hf in G. by destruct (Z.eqb_spec z 0) as [->|].
  - destruct o; simpl; [|done]. case_guard as G; simpl; [done|]. by rewrite Hf in G.
  - destruct o; simpl; [|done]. case_guard as G; simpl; [done|]. by rewrite Hf in G.
Qed.

Lemma frame_cases body fields :
  NoDup (fields.*1) -> Forall (typed body) fields ->
  match frame body fields with
  | Ok r => rq_body r = body /\ Forall (fun p => read_field (on_wire r) p.1 = p.2) fields
  | Raise e => ex_class e = ExValue /\ exists k z, (k, VInt z) ∈ fields /\ int32 z = false
  end.
Proof.
  intros Hnd Ht. unfold frame, mbind, res_bind.
  pose proof (fill_fields_typed body fields ∅ Ht) as Hf.
  destruct (fill_fields body fields ∅) as [m|e] eqn:E; [|done]. split; [done|].
  rewrite Forall_forall in *. intros [k v] Hin. apply wire_reads; [by apply (Ht (k, v))|].
  by eapply fill_fields_spec.
Qed.

(** ** What the parent is asked *)

(** The protocol's call, but for the window of [load_orders]. *)
Definition protocol_call (c : ClientCall) : Invocation :=
  match c with
  | CTicker t => ticker_signature t
  | CPnl p => pnl_signature p
  | COrders (OLoadOrders _ _) => ("load_orders", [VInt 0; VInt 0])
  | COrders o => order_signature o
  end.

Definition call_args (c : ClientCall) : list pyval :=
  match c with
  | CTicker t => (ticker_signature t).2
  | CPnl p => (pnl_signature p).2
  | COrders o => (order_signature o).2
  end.

Definition plants_ok (c : ClientCall) : bool :=
  match c with CTicker (TRequestPlants p) => plants_known p | _ => true end.

(** The outcome of building and dispatching a request. *)
Definition transparent (c : ClientCall) (q : res Request) : Prop :=
  match q with
  | Ok r => dispatch_call (on_wire r) = if plants_ok c then Some (protocol_call c) else None
  | Raise e => ex_class e = ExValue /\ exists z, VInt z ∈ call_args c /\ int32 z = false
  end.

Lemma dispatch_plain w body method keys :
  rq_body w = body ->
  bool_decide (body = "load_orders") = false -> bool_decide (body = "request_plants") = false ->
  assoc body dispatch_table = Some (method, keys) ->
  dispatch_call w = Some (method, read_field w <$> keys).
Proof. intros Hb H1 H2 H3. unfold dispatch_call. by rewrite Hb, H1, H2, H3. Qed.

Ltac head_of t := lazymatch t with ?f _ => head_of f | _ => t end.

Ltac solve_typed :=
  repeat (apply Forall_cons_2;
          [first [apply TStr|apply TInt|apply TOptInt|apply TOptDouble]; reflexivity|]);
  apply Forall_nil_2.

Ltac split_reads H :=
  repeat (let H1 := fresh "Hr" in apply Forall_cons in H as [H1 H]; cbn [fst snd] in H1).

(** Down to the frame. *)
Ltac unfold_request :=
  match goal with |- transparent _ ?q => let h := head_of q in unfold h end;
  unfold bars_fields, symbol_fields; cbn [app].

Ltac use_reads :=
  repeat match goal with H : read_field _ _ = _ |- _ => rewrite H; clear H end.

(** One request: the frame is built, or an integer does not fit. *)
Ltac frame_case :=
  match goal with
  | |- transparent ?c (frame ?body ?fields) =>
      let Hc := fresh "Hc" in
      assert (Hc := frame_cases body fields
        ltac:(apply (bool_decide_unpack _); vm_compute; exact I) ltac:(solve_typed));
      unfold transparent; destruct (frame body fields) as [r|e];
      [ destruct Hc as [Hb Hr]; split_reads Hr
      | destruct Hc as (He & k & z & Hin & Hz); split; [exact He|]; exists z;
        split; [|exact Hz]; cbn in Hin |- *; set_solver ]
  end.

Ltac solve_frame :=
  frame_case; erewrite dispatch_plain; [|eassumption|reflexivity..];
  cbn [fmap list_fmap plants_ok protocol_call ticker_signature pnl_signature order_signature];
  use_reads; reflexivity.

(** (C37) Nothing is lost or mixed up on the way to the venue: whatever call is made
    on the gateway client, the request it sends makes the parent call the same
    session method with the same arguments in the same order, an absent optional
    price or tick count staying absent and a zero staying zero; only [load_orders]
    loses its window and an unknown plant set is refused.  No request is sent, and
    [ValueError] is raised, only when an integer does not fit 32 bits. *)
Theorem request_transparent c q : client_request c = Some q -> transparent c q.
Proof.
  destruct c as [[]|[]|[]]; cbn [client_request]; intros [= <-].
  all: lazymatch goal with
       | |- transparent _ (request_plants_req _) => idtac
       | |- transparent _ (load_orders_req _ _) => idtac
       | |- transparent _ ?q => unfold_request; solve_frame
       end.
  - unfold_request. frame_case. unfold dispatch_call. cbn [on_wire rq_body]. rewrite Hb, Hr0.
    cbn [plants_ok protocol_call ticker_signature]. destruct (plants_known plants); [|reflexivity].
    change (assoc "request_plants" dispatch_table) with (Some ("request_plants", ["plants"])).
    cbn [fmap list_fmap]. rewrite Hr0. reflexivity.
  - unfold_request. frame_case. unfold dispatch_call. cbn [on_wire rq_body]. by rewrite Hb.
Qed.

(** ** Failures on the way back *)

(** The host's [Error] ([rithmic-host/src/error.rs]). *)
Inductive HostError :=
  | HConfig (msg : string) | HSession (msg : string) | HAlreadyConnected
  | HChannelLagged (plant : string) (skipped : Z) | HChannelClosed (plant : string)
  | HNotConnected (plant : string) | HRithmic (msg : string)
  | HReconciliationUnavailable (msg : string) | HProtocol (msg : string)
  | HGateway (code msg : string)
  | HRejected (msg : string) | HNotSent (msg : string) | HOutcomeUnknown (msg : string)
  | HTransport (msg : string).

Definition host_text (e : HostError) : string :=
  match e with
  | HConfig m => "config error: " +:+ m
  | HSession m => "session error: " +:+ m
  | HAlreadyConnected => "already connected"
  | HChannelLagged p _ => "channel lagged: " +:+ p
  | HChannelClosed p => "channel closed: " +:+ p
  | HNotConnected p => "not connected: " +:+ p
  | HRithmic m => "rithmic error: " +:+ m
  | HReconciliationUnavailable m => "order-history reconciliation unavailable: " +:+ m
  | HProtocol m => "protocol error: " +:+ m
  | HGateway c m => "gateway error: " +:+ c +:+ ": " +:+ m
  | HRejected m => "venue rejected: " +:+ m
  | HNotSent m => "not sent: " +:+ m
  | HOutcomeUnknown m => "outcome unknown: " +:+ m
  | HTransport m => "transport error: " +:+ m
  end.

Definition command_error_code (e : HostError) : string :=
  match e with
  | HRejected _ => "venue_rejected"
  | HNotSent _ | HConfig _ | HNotConnected _ | HAlreadyConnected => "not_sent"
  | HGateway code _ => code
  | HReconciliationUnavailable _ => "reconciliation_unavailable"
  | _ => "venue_unknown"
  end.

(** [reply] of a failed command: the code and the message of the error frame. *)
Definition command_reply (e : HostError) : string * string :=
  match e with
  | HGateway code m => (code, m)
  | HReconciliationUnavailable m => ("reconciliation_unavailable", m)
  | HRejected m | HNotSent m | HOutcomeUnknown m => (command_error_code e, m)
  | _ => (command_error_code e, host_text e)
  end.

Definition BAD_REQUEST : string := "bad_request".
Definition INTERNAL : string := "internal".

(** [map_reply]: the typed error the Rust client rebuilds. *)
Definition map_reply (f : string * string) : HostError :=
  let '(code, m) := f in
  if bool_decide (code = "reconciliation_unavailable") then HReconciliationUnavailable m
  else if bool_decide (code = "venue_rejected") then HRejected m
  else if bool_decide (code = "not_sent") then HNotSent m
  else if bool_decide (code = BAD_REQUEST) then HNotSent m
  else if bool_decide (code = "not_ready") then HNotSent m
  else if bool_decide (code = "venue_unknown") then HOutcomeUnknown m
  else if bool_decide (code = INTERNAL) then HOutcomeUnknown m
  else HGateway code m.

Definition py_gateway_error (code m : string) : exn :=
  let code := normalize_error_code code in Exn ExGateway (Some code) (code +:+ ": " +:+ m).

(** [to_py_err]: the exception of either mode. *)
Definition to_py_err (e : HostError) : exn :=
  match e with
  | HGateway code m => py_gateway_error code m
  | HOutcomeUnknown m => py_gateway_error "outcome_unknown" m
  | HRejected m => py_gateway_error "venue_rejected" m
  | HNotSent m => py_gateway_error "not_sent" m
  | HTransport m => py_gateway_error "transport_reset" m
  | HConfig m => Exn ExValue None m
  | HAlreadyConnected => Exn ExAlreadyConnected None "already connected"
  | HChannelLagged p n => Exn ExChannelLagged None (p +:+ ":" +:+ str_of_Z n)
  | HChannelClosed p => Exn ExChannelClosed None p
  | HNotConnected p => Exn ExNotConnected None p
  | HReconciliationUnavailable m => Exn ExReconUnavailable None m
  | _ => Exn ExRuntime None (host_text e)
  end.

(** The class the execution client gives a failed command: on a direct session,
    through the Rust gateway client, and through the Python one. *)
Definition direct_class (e : HostError) : FailureClass := failure_class (to_py_err e).
Definition gateway_class (e : HostError) : FailureClass :=
  failure_class (to_py_err (map_reply (command_reply e))).
Definition wire_class (e : HostError) : FailureClass :=
  failure_class (wire_error (command_reply e).1).

(** Refusals made before anything was written. *)
Definition never_written (e : HostError) : bool :=
  match e with
  | HConfig _ | HNotConnected _ | HAlreadyConnected => true
  | HGateway code _ => bool_decide (code = BAD_REQUEST)
  | _ => false
  end.

Definition code_class (code : string) : FailureClass :=
  if bool_decide (code ∈ REJECTED_CODES) then FRejected
  else if bool_decide (code ∈ NOT_SENT_CODES) then FNotSent else FUnknown.

Lemma py_gateway_class code m : failure_class (py_gateway_error code m) = code_class (normalize_error_code code).
Proof. done. Qed.

(** A code is one the client rebuilds a typed error from, or it is passed on. *)
Lemma map_reply_class code m :
  failure_class (to_py_err (map_reply (code, m)))
  = if bool_decide (code = BAD_REQUEST) then FNotSent else code_class (normalize_error_code code).
Proof.
  unfold map_reply. repeat (case_bool_decide; [subst; reflexivity|]). done.
Qed.

(** (C33) A failed order command is classified alike in both modes: through the
    gateway it has the class the direct session gives it, except that a refusal
    made before anything was written, unknown on a direct session, is known as not
    sent; so an outcome that may have reached the venue is unknown, and latches, in
    both.  Only a venue rejection is reported as one, with its text; the Python
    client agrees, or takes the unknown side. *)
Theorem failure_class_survives e :
  gateway_class e = (if never_written e then FNotSent else direct_class e) /\
  (never_written e = true -> direct_class e = FUnknown) /\
  (gateway_class e = FRejected <-> exists m, e = HRejected m \/ e = HGateway "venue_rejected" m) /\
  (forall m, e = HRejected m \/ e = HNotSent m ->
     to_py_err (map_reply (command_reply e)) = to_py_err e) /\
  (wire_class e = gateway_class e \/ wire_class e = FUnknown).
Proof.
  assert (Hg : forall code m, e = HGateway code m ->
    gateway_class e = if bool_decide (code = BAD_REQUEST) then FNotSent
                      else code_class (normalize_error_code code)).
  { intros code m ->. apply map_reply_class. }
  destruct e; try (split_and!; [reflexivity|done|split; [done|]|
    intros ? [[= <-]|[= <-]]; reflexivity|by left]; intros (? & [[=]|[=]])).
  all: try (split_and!; [reflexivity|done|split; [eauto|done]|
    intros ? [[= <-]|[= <-]]; reflexivity|by left]).
  split_and!.
  - rewrite (Hg _ _ eq_refl). simpl. case_bool_decide; done.
  - simpl. rewrite bool_decide_eq_true. by intros ->.
  - rewrite (Hg _ _ eq_refl). unfold code_class, normalize_error_code, REJECTED_CODES. split.
    + case_bool_decide; [done|].
      destruct (decide (code ∈ ["history_denied_live_md"])) as [Hh|Hh].
      { apply list_elem_of_singleton in Hh as ->. done. }
      rewrite (bool_decide_eq_false_2 _ Hh). case_bool_decide as Hr.
      { apply list_elem_of_singleton in Hr as ->. eauto. }
      by case_bool_decide.
    + intros (m & [[=]|[= -> ->]]). reflexivity.
  - intros m [[=]|[=]].
  - rewrite (Hg _ _ eq_refl). unfold wire_class. simpl. 
    change (failure_class (wire_error code)) with (code_class (normalize_error_code code)).
    case_bool_decide; [|by left]. subst. by right.
Qed.

(** ** Samples *)

Definition sample_stop : ClientCall :=
  COrders (OPlace "MNQU6" "CME" "SELL" "STOP_MARKET" 1 "" None (Some (f64_of_decimal false 0 0)) "DAY" None (Some 1)).

(** [request_transparent] on an order without tag and limit price, whose trigger
    is zero. *)
Lemma request_transparent_witness :
  match place_order_req "MNQU6" "CME" "SELL" "STOP_MARKET" 1 "" None (Some (f64_of_decimal false 0 0)) "DAY" None
          (Some 1) with
  | Ok r => dispatch_call (on_wire r)
            = Some ("place_order", [VStr "MNQU6"; VStr "CME"; VStr "SELL"; VStr "STOP_MARKET"; VInt 1;
                                    VStr ""; VNone; VFloat (f64_of_decimal false 0 0); VStr "DAY"; VNone; VInt 1])
  | Raise _ => False
  end.
Proof.
  pose proof (request_transparent sample_stop _ eq_refl) as H.
  destruct (place_order_req _ _ _ _ _ _ _ _ _ _ _) as [r|e] eqn:E; [exact H|].
  vm_compute in E. discriminate.
Defined.

(** The window of a working-orders request does not reach the venue. *)
Lemma load_orders_window_ignored a b c d ra rb :
  load_orders_req a b = Ok ra -> load_orders_req c d = Ok rb ->
  dispatch_call (on_wire ra) = dispatch_call (on_wire rb).
Proof.
  intros Ha Hb.
  assert (Hall : forall x y r, load_orders_req x y = Ok r -> rq_body r = "load_orders").
  { intros x y r. unfold load_orders_req, frame, mbind, res_bind.
    destruct (fill_fields _ _ _); [|done]. by intros [= <-]. }
  unfold dispatch_call. cbn [on_wire rq_body]. by rewrite (Hall _ _ _ Ha), (Hall _ _ _ Hb).
Qed.
