(* ===== verification/Attach.v ===== *)
(** * Attaching to the parent

    [GatewayClient.connect] ([client.py]) put together: the early return on a
    client that has a socket, the dial with the attach sequence, the flock check
    ([FramedConnection._require_parent_flock]), which closes the socket it
    refuses, and the handshake loop, whose re-dials are each followed by another
    check.  The pieces are in [Gateway] (the outcome of the attach sequence) and
    [GatewayConfig] (the credential lock); what other processes did to the lock
    table between two checks is the table each check sees.

    [_sock] is the state: absent, or a socket.  A socket carries the table its
    flock check was passed on, for the statements only; the code never reads
    it. *)

From Stdlib Require Import Ascii String.
From stdpp Require Import base gmap strings list.
From Stdlib Require Import ZArith Lia.
From S2P Require Import Prelude PyVal Redact Ident Config Framing Gateway GatewayConfig.
Import Text.
Open Scope string_scope.
Open Scope list_scope.
Open Scope Z_scope.

Section Attach.
Context `{Os} (os_open : string -> res unit).
Variables (env : environ) (cfg : GatewayConfig) (pid : Z).

(** [config_flock_held]: the probe of the attach sequence. *)
Definition config_flock_held (k : Locks) : res bool * Locks :=
  session_flock_held os_open env pid (gc_user cfg) (gc_system_name cfg) (gc_url cfg) (gc_env cfg) k.

(** [self._sock]. *)
Definition Sock : Type := option (option Locks).

Definition close_sock : Sock := None.

(** [_dial]: a socket only once it is connected. *)
Definition dial (outcome : res unit) (s : Sock) : res unit * Sock :=
  match outcome with
  | Ok _ => (Ok tt, Some None)
  | Raise e => (Raise e, s)
  end.

Definition checked (k : Locks) (s : Sock) : Sock := (fun _ => Some k) <$> s.

(** [_require_parent_flock]: a free lock closes the socket; an error of the probe
    itself leaves it. *)
Definition require_parent_flock (k : Locks) (s : Sock) : res unit * Sock :=
  if negb (gc_attest_flock cfg) then (Ok tt, s)
  else match (config_flock_held k).1 with
       | Ok true => (Ok tt, checked k s)
       | Ok false => (Raise (gateway_error "parent_unattested"), close_sock)
       | Raise e => (Raise e, s)
       end.

(** A turn of the handshake loop, with the lock table its check sees. *)
Record AttachTurn := MkAttachTurn {
  at_handshake : res unit;
  at_expired : bool;
  at_dial : res unit;
  at_locks : Locks
}.

(** [_handshake_until_ready] with its socket; [None] means the turns ran out with
    the loop still going. *)
Fixpoint handshake_loop (turns : list AttachTurn) (s : Sock) : option (res unit) * Sock :=
  match turns with
  | [] => (None, s)
  | t :: turns' =>
      let again :=
        let '(d, s1) := dial (at_dial t) close_sock in
        match d with
        | Raise x => (Some (Raise x), s1)
        | Ok _ =>
            let '(f, s2) := require_parent_flock (at_locks t) s1 in
            match f with
            | Raise x => (Some (Raise x), s2)
            | Ok _ => handshake_loop turns' s2
            end
        end in
      match at_handshake t with
      | Ok _ => (Some (Ok tt), s)
      | Raise e =>
          if bool_decide (ex_class e = ExGateway) then
            if negb (bool_decide (ex_code e = Some "not_ready")) || at_expired t
            then (Some (Raise e), close_sock) else again
          else if bool_decide (ex_class e = ExTimeout) then
            if at_expired t then (Some (Raise e), close_sock) else again
          else (Some (Raise e), s)
      end
  end.

(** What one [connect] meets: the outcome of the attach sequence, the table of the
    first check, the turns. *)
Record Attempt := MkAttempt {
  ap_dial : res unit;
  ap_locks : Locks;
  ap_turns : list AttachTurn
}.

(** [connect]: nothing on a client that has a socket. *)
Definition client_connect (a : Attempt) (s : Sock) : option (res unit) * Sock :=
  match s with
  | Some _ => (Some (Ok tt), s)
  | None =>
      let '(d, s1) := dial (ap_dial a) s in
      match d with
      | Raise e => (Some (Raise e), s1)
      | Ok _ =>
          let '(f, s2) := require_parent_flock (ap_locks a) s1 in
          match f with
          | Raise e => (Some (Raise e), s2)
          | Ok _ => handshake_loop (ap_turns a) s2
          end
      end
  end.

(** The life of a client: [connect]s, and anything that closes its socket
    ([disconnect], a failed request). *)
Inductive Op := OConnect (a : Attempt) | OClose.

Definition op_step (s : Sock) (op : Op) : Sock :=
  match op with
  | OConnect a => (client_connect a s).2
  | OClose => close_sock
  end.

Definition after (ops : list Op) : Sock := fold_left op_step ops None.

(** The handshake loop decides as [Gateway]'s stateless one. *)
Definition handshake_turn (t : AttachTurn) : HandshakeTurn :=
  MkTurn (at_handshake t) (at_expired t) (at_dial t)
    (require_parent_flock (at_locks t) (Some None)).1.

Lemma handshake_loop_outcome turns : forall s,
  (handshake_loop turns s).1 = handshake_until_ready (handshake_turn <$> turns).
Proof.
  induction turns as [|t turns IH]; intros s; [done|]. simpl.
  destruct (at_handshake t) as [|e]; [done|]. unfold dial.
  destruct (at_dial t) as [|x]; [|by repeat case_match].
  destruct (require_parent_flock (at_locks t) (Some None)) as [[|] s2]; simpl;
    rewrite <- ?(IH s2); by repeat case_match.
Qed.

(** The tables the client looked at, oldest first, up to the turn whose handshake
    went through. *)
Fixpoint checks_until (turns : list AttachTurn) : list Locks :=
  match turns with
  | [] => []
  | t :: turns' =>
      match at_handshake t with
      | Ok _ => []
      | Raise _ => at_locks t :: checks_until turns'
      end
  end.

Section Attested.
Variable path : string.
Hypothesis attest_on : gc_attest_flock cfg = true.
Hypothesis path_known :
  lock_path env (gc_user cfg) (gc_system_name cfg) (gc_url cfg) (gc_env cfg) = Ok path.
(** The probe can open the lock file. *)
Hypothesis path_opens : os_open path = Ok tt.

Definition held (k : Locks) : Prop := is_Some (lk_held k !! path).

(** A socket has passed its check on a table with the lock held. *)
Definition attested (s : Sock) : Prop :=
  forall c, s = Some c -> exists k, c = Some k /\ held k.

Lemma attested_none : attested None.
Proof. by intros c. Qed.

(** The check decides by the table and never leaves a socket it refused. *)
Lemma flock_spec k s :
  require_parent_flock k s = (Ok tt, checked k s) /\ held k \/
  require_parent_flock k s = (Raise (gateway_error "parent_unattested"), None).
Proof.
  unfold require_parent_flock, config_flock_held, session_flock_held, try_acquire, held.
  rewrite attest_on, path_known, path_opens. simpl negb. cbv iota.
  destruct (lk_held k !! path) as [fd|]; [left; simpl; eauto|right].
  by destruct (lock_close _ _).
Qed.

Lemma checked_attested k s : held k -> attested (checked k s).
Proof. intros Hk c. destruct s; [|done]. intros [= <-]. eauto. Qed.

(** What the loop does from an attested socket. *)
Lemma handshake_loop_spec turns : forall k, held k ->
  let '(r, s') := handshake_loop turns (Some (Some k)) in
  attested s' /\
  (r = Some (Ok tt) -> is_Some s' /\ Forall held (checks_until turns)) /\
  (r = Some (Raise (gateway_error "parent_unattested")) -> s' = None).
Proof.
  assert (Hsome : forall k, held k -> attested (Some (Some k))).
  { intros k Hk c [= <-]. eauto. }
  induction turns as [|t turns IH]; intros k Hk; cbn [handshake_loop checks_until].
  { split_and!; [auto|done..]. }
  destruct (at_handshake t) as [|e] eqn:Eh.
  { split_and!; [auto|by intros _; split|done]. }
  set (again := let '(d, s1) := dial (at_dial t) close_sock in _).
  assert (Hag : let '(r, s') := again in
    attested s' /\
    (r = Some (Ok tt) -> is_Some s' /\ Forall held (at_locks t :: checks_until turns)) /\
    (r = Some (Raise (gateway_error "parent_unattested")) -> s' = None)).
  { subst again. unfold dial, close_sock. destruct (at_dial t) as [|x]; [|by split_and!].
    destruct (flock_spec (at_locks t) (Some None)) as [[-> Hl]| ->]; [|by split_and!].
    specialize (IH (at_locks t) Hl). simpl. destruct (handshake_loop turns _) as [r s'].
    destruct IH as (H1 & H2 & H3). split_and!; [done| |done]. intros Hr. destruct (H2 Hr). auto. }
  destruct (bool_decide (ex_class e = ExGateway)) eqn:Eg.
  { destruct (_ || _); [|exact Hag]. by split_and!. }
  destruct (bool_decide (ex_class e = ExTimeout)).
  { destruct (at_expired t); [|exact Hag]. by split_and!. }
  apply bool_decide_eq_false in Eg. split_and!; [auto|done|]. intros [= ->]. by destruct Eg.
Qed.

Lemma connect_spec a s : attested s ->
  let '(r, s') := client_connect a s in
  attested s' /\
  (r = Some (Ok tt) -> is_Some s' /\ (s = None -> Forall held (ap_locks a :: checks_until (ap_turns a)))) /\
  (r = Some (Raise (gateway_error "parent_unattested")) -> s = None -> ap_dial a = Ok tt -> s' = None).
Proof.
  intros Hs. unfold client_connect. destruct s as [c|]; [by split_and!|].
  unfold dial. destruct (ap_dial a) as [[]|x]; [|by split_and!].
  destruct (flock_spec (ap_locks a) (Some None)) as [[-> Hl]| ->]; [|by split_and!].
  pose proof (handshake_loop_spec (ap_turns a) (ap_locks a) Hl) as Hh. simpl.
  destruct (handshake_loop (ap_turns a) _) as [r s']. destruct Hh as (H1 & H2 & H3).
  split_and!; [done| |auto]. intros Hr. destruct (H2 Hr). auto.
Qed.

Lemma after_attested ops : attested (after ops).
Proof.
  unfold after. generalize attested_none. generalize (None : Sock).
  induction ops as [|op ops IH]; intros s Hs; [done|]. apply IH.
  destruct op as [a|]; [|apply attested_none]. simpl.
  pose proof (connect_spec a s Hs) as Hc. destruct (client_connect a s). tauto.
Qed.

(** (C34) No impostor is attached to, over the whole life of a client: with
    attestation on and a lock file the probe can open, whatever connects and
    closes came before, a [connect] that returns leaves a socket, and that socket
    (the one just dialled, or the one an earlier connect left) had its check passed
    after its dial with the credential lock held by some process; a connect that
    dials found the lock held at every check it made, after the first dial and
    after every re-dial while the parent was not ready; and one that is refused
    for a free lock leaves no socket for the next connect to return with.  (A
    probe that fails instead, e.g. with no descriptor left, does leave one:
    [failed_probe_leaves_socket].) *)
Theorem attach_attested (ops : list Op) (a : Attempt) :
  let s := after ops in
  let '(r, s') := client_connect a s in
  (r = Some (Ok tt) ->
     (exists k, s' = Some (Some k) /\ held k) /\
     (s = None -> Forall held (ap_locks a :: checks_until (ap_turns a)))) /\
  (r = Some (Raise (gateway_error "parent_unattested")) -> s = None -> ap_dial a = Ok tt -> s' = None).
Proof.
  cbv zeta. pose proof (connect_spec a (after ops) (after_attested ops)) as Hc.
  destruct (client_connect a (after ops)) as [r s']. destruct Hc as (H1 & H2 & H3).
  split; [|done]. intros Hr. destruct (H2 Hr) as [[c ->] Hf]. split; [|done].
  destruct (H1 c eq_refl) as (k & -> & Hk). eauto.
Qed.
End Attested.
End Attach.

Module AttachSample.
Import GwSample.
#[local] Existing Instance GwSample.host.

(** The parent holds the lock while it comes up; one handshake is refused as not
    ready, the next goes through. *)
Definition slow_parent : list AttachTurn :=
  [MkAttachTurn (Raise (gateway_error "not_ready")) false (Ok tt) (w_locks held_world);
   MkAttachTurn (Ok tt) false (Ok tt) (w_locks held_world)].

Definition parent_path : string := "/var/T/rgw-1000/rgw-13146466402466778522.lock".
Definition unlocked : Locks := MkLocks ∅ ∅ 3.

(** An impostor is refused, then the real parent is reached. *)
Definition impostor_first : list Op := [OConnect (MkAttempt (Ok tt) unlocked slow_parent)].
Definition real_parent : Attempt := MkAttempt (Ok tt) (w_locks held_world) slow_parent.

Lemma attach_attested_witness :
  client_connect any_open mac_env alice_ok 78 real_parent
    (after any_open mac_env alice_ok 78 impostor_first)
    = (Some (Ok tt), Some (Some (w_locks held_world))) /\
  held parent_path (w_locks held_world) /\
  Forall (held parent_path) [w_locks held_world; w_locks held_world].
Proof.
  assert (E : client_connect any_open mac_env alice_ok 78 real_parent
    (after any_open mac_env alice_ok 78 impostor_first)
    = (Some (Ok tt), Some (Some (w_locks held_world)))) by (vm_compute; reflexivity).
  split; [exact E|].
  assert (Hp : lock_path mac_env (gc_user alice_ok) (gc_system_name alice_ok) (gc_url alice_ok)
    (gc_env alice_ok) = Ok parent_path) by (vm_compute; reflexivity).
  pose proof (attach_attested any_open mac_env alice_ok 78 parent_path eq_refl Hp eq_refl
    impostor_first real_parent) as Ht.
  cbv zeta in Ht. rewrite E in Ht. destruct (proj1 Ht eq_refl) as [(k & Ek & Hk) Hf].
  injection Ek as <-. split; [exact Hk|]. apply Hf. vm_compute. reflexivity.
Defined.

(** The same parent without its lock is refused, and again the next time. *)
Example impostor_refused :
  let a := MkAttempt (Ok tt) unlocked slow_parent in
  client_connect any_open mac_env alice_ok 78 a None
    = (Some (Raise (gateway_error "parent_unattested")), None) /\
  client_connect any_open mac_env alice_ok 78 a
    (after any_open mac_env alice_ok 78 [OConnect a]) = (Some (Raise (gateway_error "parent_unattested")), None).
Proof. vm_compute. done. Qed.

(** A probe that fails raises out of [connect] with the socket still set: the next
    [connect] returns at once, on a socket that was never checked and never
    handshaken. *)
Definition no_descriptors (p : string) : res unit := Raise (Exn ExOs None "Too many open files").

Lemma failed_probe_leaves_socket :
  let a := MkAttempt (Ok tt) unlocked slow_parent in
  client_connect no_descriptors mac_env alice_ok 78 a None
    = (Some (Raise (Exn ExOs None "Too many open files")), Some None) /\
  client_connect any_open mac_env alice_ok 78 a
    (after no_descriptors mac_env alice_ok 78 [OConnect a]) = (Some (Ok tt), Some None).
Proof. vm_compute. done. Qed.

(** A handshake that breaks with neither a gateway error nor a timeout leaves the
    socket too: the next [connect] returns without a handshake. *)
Lemma broken_handshake_leaves_socket :
  let reset := Exn ExOs None "Connection reset by peer" in
  let a := MkAttempt (Ok tt) (w_locks held_world)
             [MkAttachTurn (Raise reset) false (Ok tt) (w_locks held_world)] in
  client_connect any_open mac_env alice_ok 78 a None
    = (Some (Raise reset), Some (Some (w_locks held_world))) /\
  (client_connect any_open mac_env alice_ok 78 a
     (after any_open mac_env alice_ok 78 [OConnect a])).1 = Some (Ok tt).
Proof. vm_compute. done. Qed.
End AttachSample.
