(* ===== verification/Endpoint.v ===== *)
(** * One environment, one login

    The parent binary resolves its login from the environment
    ([rithmic-gateway/src/env_keys.rs], [bin/rithmic_gateway.rs]); its Python
    clients resolve theirs with [SessionConfig.from_env] ([Config]) and find the
    parent by the hash of that login ([GatewayConfig]).  The file shows when the
    two agree, and models the harness that starts a parent for a configuration
    ([scripts/_gateway_parent.py]). *)

From Stdlib Require Import Ascii String.
From stdpp Require Import base gmap strings list.
From Stdlib Require Import ZArith Lia.
From S2P Require Import Prelude PyVal Redact Ident Config Framing Gateway GatewayConfig.
Import Text.
Open Scope string_scope.
Open Scope list_scope.
Open Scope Z_scope.

(** ** [env_keys.rs] *)

Definition USER_KEYS : list string := ["RITHMIC_USER"; "RITHMIC_USERNAME"].
Definition URL_KEYS : list string := ["RITHMIC_GATEWAY"; "RITHMIC_URL"].
Definition SYSTEM_KEYS : list string := ["RITHMIC_SYSTEM"; "RITHMIC_SYSTEM_NAME"].
Definition ENV_KEYS : list string := ["RITHMIC_ENV"].

Fixpoint env_first (lookup : environ) (keys : list string) : option string :=
  match keys with
  | [] => None
  | key :: keys' =>
      match lookup !! key with
      | Some v => if nonempty (trim v) then Some (trim v) else env_first lookup keys'
      | None => env_first lookup keys'
      end
  end.

Definition rs_system_kind (system_name : string) : SystemKind :=
  let up := upper system_name in
  if existsb (fun m => contains m up) ["LUCID"; "PRODUCTION"; "RITHMIC 01"; "RITHMIC 02"] then Production
  else if existsb (fun m => contains m up) ["TEST"; "DEMO"; "SANDBOX"; "SIM"; "PAPER"] then TestKind
  else UnknownKind.

(** The parent's login; the user is read beside [resolve_endpoint]. *)
Record Login := MkLogin {
  lg_user : string;
  lg_system_name : string;
  lg_url : string;
  lg_env_name : string
}.

Definition resolve_endpoint (lookup : environ) : option (string * string * string) :=
  let system_name := default "LucidTrading" (env_first lookup SYSTEM_KEYS) in
  let explicit_url := env_first lookup URL_KEYS in
  let explicit_env := env_first lookup ENV_KEYS in
  let kind := rs_system_kind system_name in
  if bool_decide (kind = TestKind) && bool_decide (explicit_url = None) then None
  else
    let env_name :=
      match explicit_env with
      | Some e => e
      | None =>
          match kind with
          | TestKind =>
              let up := upper system_name in
              if contains "DEMO" up || contains "PAPER" up then "Demo" else "Test"
          | _ => "Live"
          end
      end in
    Some (system_name, default "wss://rprotocol.rithmic.com:443" explicit_url, env_name).

(** The head of [run]: a user and a password are required (a password that is
    set, even to nothing).  Which environment names the venue library accepts is
    its own. *)
Definition parent_login (lookup : environ) : option Login :=
  match env_first lookup USER_KEYS, lookup !! "RITHMIC_PASSWORD" with
  | Some user, Some _ =>
      match resolve_endpoint lookup with
      | None => None
      | Some (system_name, url, env_name) => Some (MkLogin user system_name url env_name)
      end
  | _, _ => None
  end.

(** [ListenEndpoint::parse], in the working directory [cwd]. *)
Definition listen_parse (cwd raw0 : string) : option string :=
  let raw := trim raw0 in
  if negb (nonempty raw) then None
  else match strip_prefix "unix://" raw with
       | Some rest =>
           let path := if String.prefix "/" rest then rest
                       else match strip_prefix "//" rest with
                            | Some stripped => "/" +:+ stripped
                            | None => rs_join cwd rest
                            end in
           if String.prefix "/" path then Some path else None
       | None =>
           if String.prefix "tcp://" raw || String.prefix "tls://" raw then None
           else if String.prefix "/" raw then Some raw
           else None
       end.

(** Where the parent listens, and the lock it takes. *)
Definition parent_socket `{Os} (cwd : string) (env : environ) (l : Login) : option string :=
  match env !! "RITHMIC_GATEWAY_LISTEN" with
  | Some raw => listen_parse cwd raw
  | None => listen_parse cwd ("unix://" +:+
      rs_default_unix_path env (lg_user l) (lg_system_name l) (lg_url l) (lg_env_name l))
  end.
Definition parent_lock `{Os} (env : environ) (l : Login) : string :=
  rs_lock_path env (lg_user l) (lg_system_name l) (lg_url l) (lg_env_name l).

(** ** [_gateway_parent.py] *)

(** [gateway_config_from_session]; the other two fields keep their defaults. *)
Definition gateway_config_from_session (s : SessionConfig) : GatewayConfig :=
  MkGatewayConfig (sc_user s) (sc_system_name s) (sc_url s) (sc_env s)
    (default "" (sc_account_id s)) (default "" (sc_fcm_id s)) (default "" (sc_ib_id s))
    (sc_gateway_auth_token s) (sc_gateway_listen s) 90000 true.

Definition password_from_env (source : environ) : res string :=
  cfg ← from_env (<["RITHMIC_CONNECT_MODE" := "direct"]> source) true;
  match sc_password cfg with
  | Some p => Ok p
  | None => Raise (Exn ExRuntime None "no Rithmic password in the environment")
  end.

Definition _FORWARDED_ENV : list string :=
  ["RITHMIC_ACCOUNT_ID"; "RITHMIC_FCM_ID"; "RITHMIC_IB_ID"; "RITHMIC_ENABLE_TRADING";
   "RITHMIC_GATEWAY_CANCEL_ALL"; "RITHMIC_GATEWAY_AUTH_TOKEN"; "RITHMIC_GATEWAY_IDLE_EXIT_SEC";
   "RITHMIC_HISTORY_READY_PROBE"; "RITHMIC_HISTORY_READY_SYMBOL"; "RITHMIC_HISTORY_READY_EXCHANGE";
   "RITHMIC_SYMBOL"; "RITHMIC_EXCHANGE"; "XDG_RUNTIME_DIR"; "PATH"; "HOME"; "TMPDIR"].

Definition HARNESS_IDLE_EXIT_SEC : string := "60".

Definition forwarded (src : environ) : environ :=
  filter (fun p => p.1 ∈ _FORWARDED_ENV /\ p.2 <> "") src.

Definition config_env (c : GatewayConfig) (password : string) (env : environ) : environ :=
  <["RITHMIC_GATEWAY_LISTEN" := default "" (gc_listen c)]>
  (<["RITHMIC_ENV" := gc_env c]>
  (<["RITHMIC_URL" := gc_url c]>
  (<["RITHMIC_SYSTEM_NAME" := gc_system_name c]>
  (<["RITHMIC_GATEWAY_AUTH_TOKEN" := gc_auth_token c]>
  (<["RITHMIC_PASSWORD" := password]>
  (<["RITHMIC_USER" := gc_user c]> env)))))).

Definition env_setdefault (k v : string) (env : environ) : environ :=
  match env !! k with Some _ => env | None => <[k := v]> env end.

Definition parent_env (c : GatewayConfig) (password : string) (extra source : environ) : environ :=
  extra ∪ env_setdefault "RITHMIC_GATEWAY_IDLE_EXIT_SEC" HARNESS_IDLE_EXIT_SEC
            (config_env c password (forwarded source)).

(** ** Facts: the two readers *)

(** An environment both sides read alike: values without the exotic blanks on
    which [str.strip] and [str::trim] differ, none of the spellings only Python
    knows, no [RITHMIC_ENV] (only the parent reads it), no legacy URL that Python
    rewrites to production, a user, a password for the parent, and a listen URL,
    if any, that is an absolute path. *)
Definition absolute_listen (l : string) : Prop :=
  exists p, l = "/" +:+ p \/ (l = "unix:///" +:+ p /\ String.prefix "/" p = false).

Record shared_env (env : environ) : Prop := MkSharedEnv {
  se_blanks : forall k v, env !! k = Some v -> trim v = strip v;
  se_python_only : forall k,
    k ∈ ["RHITMIC_USERNAME"; "RITHMIC_LIVE_SYSTEM_NAME"; "RITHMIC_LIVE_URL"; "RHITMIC_URL";
         "RITHMIC_ENV"] -> _env_first env [k] = None;
  se_legacy : _env_first env ["RITHMIC_GATEWAY"] = None ->
    forall u, _env_first env ["RITHMIC_URL"] = Some u -> contains "rituz00100" u = false;
  se_user : is_Some (_env_first env USER_KEYS);
  se_password : is_Some (env !! "RITHMIC_PASSWORD");
  se_listen : forall l, env !! "RITHMIC_GATEWAY_LISTEN" = Some l -> absolute_listen (strip l)
}.

Lemma env_first_agree env ks :
  (forall k v, env !! k = Some v -> trim v = strip v) -> env_first env ks = _env_first env ks.
Proof.
  intros Hb. induction ks as [|k ks IH]; simpl; [done|].
  destruct (env !! k) as [v|] eqn:E; [|done]. by rewrite (Hb _ _ E), IH.
Qed.

Lemma system_kinds_agree s : rs_system_kind s = system_kind s.
Proof. done. Qed.

(** The first of several names. *)
Definition first_of (a b : option string) : option string := match a with Some _ => a | None => b end.

Lemma env_first_two env a b :
  _env_first env [a; b] = first_of (_env_first env [a]) (_env_first env [b]).
Proof. rewrite env_first_cons. by destruct (_env_first env [a]). Qed.

Lemma env_first_three env a b c :
  _env_first env [a; b; c]
  = first_of (_env_first env [a]) (first_of (_env_first env [b]) (_env_first env [c])).
Proof. rewrite env_first_cons, env_first_two. by destruct (_env_first env [a]). Qed.

Lemma post_init_user a c : post_init a = Ok c -> sc_user c = strip (sa_user a).
Proof.
  unfold post_init. intros Hc. run_res Hc.
  repeat match goal with
  | E : _require_nonempty _ (Some _) = Ok _ |- _ =>
      apply require_nonempty_ok in E as (? & [= <-] & -> & ?)
  end.
  destruct (negb _); [done|]. by simplify_eq.
Qed.

Lemma from_source_user env b s user c :
  trimmed user -> from_source env b s user = Ok c -> sc_user c = user.
Proof.
  intros Ht. unfold from_source. rewrite require_nonempty_trimmed by done. intros Hc. run_res Hc.
  destruct a1 as [sn u]. run_res Hc. destruct a1 as [ev u']. apply post_init_user in Hc.
  rewrite Hc. apply Ht.
Qed.

Lemma from_source_listen env b s user c :
  from_source env b s user = Ok c -> sc_gateway_listen c = _env_first env ["RITHMIC_GATEWAY_LISTEN"].
Proof.
  unfold from_source. intros Hc. run_res Hc.
  destruct a2 as [sn u]. run_res Hc. destruct a2 as [ev u'].
  unfold post_init in Hc. run_res Hc. destruct (negb _); [done|]. injection Hc as <-. simpl.
  unfold _connect_mode_fields in E0. destruct (_env_first env ["RITHMIC_CONNECT_MODE"]); [|done].
  by run_res E0.
Qed.

Lemma from_env_listen env b c :
  from_env env b = Ok c -> sc_gateway_listen c = _env_first env ["RITHMIC_GATEWAY_LISTEN"].
Proof. intros (s & user & _ & _ & Hc)%from_env_source. by eapply from_source_listen. Qed.

Lemma strip_idem s : strip (strip s) = strip s.
Proof. apply strip_by_idem. Qed.

Section Shared.
Context (env : environ) (Hs : shared_env env).

Lemma shared_user : env_first env USER_KEYS = _env_first env (es_user_keys SOURCE_MY046).
Proof.
  rewrite env_first_agree by apply Hs. unfold USER_KEYS. cbn [es_user_keys SOURCE_MY046].
  rewrite env_first_two, env_first_three, (se_python_only _ Hs "RHITMIC_USERNAME") by set_solver.
  done.
Qed.

Lemma shared_system : env_first env SYSTEM_KEYS = _env_first env (es_system_keys SOURCE_MY046).
Proof.
  rewrite env_first_agree by apply Hs. unfold SYSTEM_KEYS. cbn [es_system_keys SOURCE_MY046].
  rewrite env_first_two, env_first_three, (se_python_only _ Hs "RITHMIC_LIVE_SYSTEM_NAME") by set_solver.
  by destruct (_env_first env ["RITHMIC_SYSTEM_NAME"]).
Qed.

(** What Python makes of the URL variables is what the parent makes of them. *)
Lemma shared_resolve :
  resolve_system_url env true SOURCE_MY046
  = Ok (default "LucidTrading" (env_first env SYSTEM_KEYS),
        default "wss://rprotocol.rithmic.com:443" (env_first env URL_KEYS)) /\
  has_explicit_url env SOURCE_MY046 = bool_decide (is_Some (env_first env URL_KEYS)).
Proof.
  rewrite shared_system. rewrite env_first_agree by apply Hs.
  unfold resolve_system_url, has_explicit_url. cbn [es_url_keys es_legacy_url_keys SOURCE_MY046 URL_KEYS].
  unfold URL_KEYS. rewrite !env_first_two.
  rewrite (se_python_only _ Hs "RITHMIC_LIVE_URL"), (se_python_only _ Hs "RHITMIC_URL") by set_solver.
  cbn [app existsb].
  rewrite (se_python_only _ Hs "RITHMIC_LIVE_URL"), (se_python_only _ Hs "RHITMIC_URL") by set_solver.
  destruct (_env_first env ["RITHMIC_GATEWAY"]) as [g|] eqn:Eg; [done|].
  destruct (_env_first env ["RITHMIC_URL"]) as [u|] eqn:Eu; [|done].
  cbn [first_of andb]. by rewrite (se_legacy _ Hs Eg _ Eu).
Qed.

(** Both sides make one login of it. *)
Lemma logins_agree c :
  from_env env true = Ok c ->
  parent_login env = Some (MkLogin (sc_user c) (sc_system_name c) (sc_url c) (sc_env c)).
Proof.
  intros Hc. destruct shared_resolve as [Hr Hx].
  unfold from_env, _ENV_SOURCES in Hc. cbn [from_sources] in Hc. rewrite <- shared_user in Hc.
  unfold parent_login. destruct (se_password _ Hs) as [pw ->].
  destruct (env_first env USER_KEYS) as [user|] eqn:Eu.
  2: { exfalso. rewrite env_first_agree in Eu by apply Hs. pose proof (se_user _ Hs) as [? E]. congruence. }
  assert (Htu : trimmed user).
  { rewrite env_first_agree in Eu by apply Hs. by apply env_first_some in Eu as [? _]. }
  pose proof (from_source_user _ _ _ _ _ Htu Hc) as ->.
  apply from_source_inv in Hc as (system & url & url' & ev & H1 & H2 & _ & -> & -> & ->).
  change (true && es_lucid_defaults SOURCE_MY046) with true in *.
  assert (Hsrc : SOURCE_MY046 ∈ _ENV_SOURCES) by (unfold _ENV_SOURCES; set_solver).
  pose proof (resolve_system_trimmed _ _ _ _ _ Hsrc H1) as Ht.
  assert (Hne : env_first env ENV_KEYS = None).
  { rewrite env_first_agree by apply Hs. apply Hs. set_solver. }
  assert (Hu : forall u, env_first env URL_KEYS = Some u -> strip u = u).
  { intros u E. rewrite env_first_agree in E by apply Hs. by apply env_first_some in E as [[_ ?] _]. }
  rewrite Hr in H1. unfold resolve_endpoint. rewrite Hne, system_kinds_agree.
  unfold classify_env in H2. rewrite Hx in H2.
  change (true && es_lucid_defaults SOURCE_MY046) with true in H2. change (es_env SOURCE_MY046) with "Live" in H2.
  revert H1 H2 Hu. generalize (env_first env SYSTEM_KEYS) as osys, (env_first env URL_KEYS) as ourl.
  intros osys ourl [= <- <-] H2 Hu. rewrite Ht.
  destruct (system_kind _), ourl as [u|]; simpl in H2; simplify_eq; simpl.
  all: rewrite ?(Hu _ eq_refl); try done. by destruct (_ || _).
Qed.

(** Both read one listen URL alike. *)
Lemma listen_agree `{Os} cwd l : absolute_listen (strip l) -> trim l = strip l ->
  exists sock, listen_parse cwd l = Some sock /\ parse_listen_url (strip l) = Ok sock.
Proof.
  intros (p & Hp) Ht. unfold listen_parse, parse_listen_url. rewrite strip_idem, Ht.
  destruct Hp as [->|[-> Hp]].
  - exists (String "/" p). rewrite string_app_cons, string_app_nil. by destruct p.
  - exists (String "/" p). change ("unix:///" +:+ p) with ("unix://" +:+ (String "/" p)).
    rewrite strip_prefix_app.
    assert (E1 : String.prefix "//" (String "/" p) = false) by exact Hp.
    assert (E2 : String.prefix "/" (String "/" p) = true) by (by destruct p).
    cbv zeta. rewrite E1, !E2. split; reflexivity.
Qed.
End Shared.

Lemma default_listen `{Os} env cwd user system url env_name :
  same_host env env_name ->
  listen_parse cwd ("unix://" +:+ rs_default_unix_path env user system url env_name)
  = Some (rs_default_unix_path env user system url env_name).
Proof.
  intros Hh. destruct (rs_default_shape env user system url env_name Hh) as (n & name & Hn & ->).
  unfold listen_parse. rewrite (trim_of_strip _ (unix_sock_stripped _ _)), strip_prefix_app, normal_abs by done.
  cbv zeta. by rewrite normal_abs.
Qed.

(** (C29) One environment file, one parent.  When a client's session configuration
    can be built from an environment, and the parent is given the same
    environment, both make the same login of it, hash it alike and read the same
    listen URL: the client dials the socket the parent listens on and probes the
    lock the parent takes.  The environment is one both sides read alike
    ([shared_env]): blanks Rust and Python trim alike, none of the names only
    Python knows, RITHMIC_ENV unset, no legacy test URL without RITHMIC_GATEWAY, a
    user and a password, a listen URL (if any) that is an absolute path.  The host
    ([same_host]) has an absolute XDG_RUNTIME_DIR and TMPDIR, where set, and lets
    the user secure the private directories.  Whether the parent process then
    comes up (its idle-exit setting, the lock, the bind) is not claimed. *)
Theorem clients_find_parent `{Os} cwd env c g :
  shared_env env -> same_host env (sc_env c) ->
  from_env env true = Ok c ->
  gw_post_init env (gateway_config_from_session c) = Ok g ->
  exists l sock, parent_login env = Some l /\ parent_socket cwd env l = Some sock /\
    socket_path g = Ok sock /\
    lock_path env (gc_user g) (gc_system_name g) (gc_url g) (gc_env g) = Ok (parent_lock env l).
Proof.
  intros Hs Hh Hc Hg. exists (MkLogin (sc_user c) (sc_system_name c) (sc_url c) (sc_env c)).
  pose proof (logins_agree env Hs c Hc) as Hlogin.
  pose proof (from_env_ok _ _ _ Hc) as [Hu Hsn Hur _ _ He _ _].
  pose proof (gw_post_init_fields _ _ _ Hg) as (E1 & E2 & E3 & E4 & _ & _ & _ & _ & Eg). simpl in E1, E2, E3, E4.
  assert (Hev : strip (sc_env c) = sc_env c).
  { rewrite !elem_of_cons, elem_of_nil in He. by destruct He as [-> |[-> |[-> |[]]]]. }
  rewrite Hev in E4. rewrite (proj2 Hu) in E1. rewrite (proj2 Hsn) in E2. rewrite (proj2 Hur) in E3.
  rewrite E1, E2, E3, E4 in *. unfold parent_socket, parent_lock. cbn [lg_user lg_system_name lg_url lg_env_name].
  rewrite lock_agrees by done.
  pose proof (from_env_listen _ _ _ Hc) as Hl. simpl in Hl.
  destruct (env !! "RITHMIC_GATEWAY_LISTEN") as [raw|] eqn:Er.
  - pose proof (se_listen _ Hs _ Er) as Ha.
    assert (Hne : nonempty (strip raw) = true) by (by destruct Ha as (p & [->|[-> _]])).
    rewrite Hne in Hl.
    destruct (listen_agree cwd raw Ha (se_blanks _ Hs _ _ Er)) as (sock & ? & ?).
    exists sock. split_and!; [done|done| |done].
    unfold socket_path. rewrite (Eg _ Hl) by (by rewrite strip_idem). done.
  - eexists. split_and!; [done|by apply default_listen| |done].
    destruct (paths_meet env (gateway_config_from_session c) g) as [-> _]; [by rewrite E4|done|done|].
    by rewrite E1, E2, E3, E4.
Qed.

(** ** Facts: the harness *)

(** The variables the parent's login is read from. *)
Definition LOGIN_KEYS : list string := USER_KEYS ++ URL_KEYS ++ SYSTEM_KEYS ++ ENV_KEYS.

Lemma forwarded_none src k : k ∉ _FORWARDED_ENV -> forwarded src !! k = None.
Proof.
  intros Hk. unfold forwarded. apply map_lookup_filter_None. right. intros v _ [Hin _]. done.
Qed.

Lemma setdefault_ne k d env k' : k <> k' -> env_setdefault k d env !! k' = env !! k'.
Proof. intros Hk. unfold env_setdefault. destruct (env !! k); [done|]. by apply lookup_insert_ne. Qed.

Lemma trimmed_reads v : trimmed v -> nonempty (trim v) = true /\ trim v = v.
Proof. intros [Hne Hs]. pose proof (trim_of_strip _ Hs) as Ht. rewrite Ht. by destruct v. Qed.

(** (C36) A stale alias cannot redirect the parent the harness starts: whatever the
    process environment holds, the parent reads back exactly the login of the
    configuration it was started for, unless the caller overrides a login variable
    explicitly. *)
Theorem harness_login `{Os} env c g password extra source :
  gw_post_init env c = Ok g ->
  (forall k, k ∈ LOGIN_KEYS -> extra !! k = None) ->
  parent_login (parent_env g password extra source)
  = Some (MkLogin (gc_user g) (gc_system_name g) (gc_url g) (gc_env g)).
Proof.
  intros Hg Hx. apply gw_post_init_fields in Hg as (_ & _ & _ & _ & Hu & Hsn & Hur & He & _).
  assert (Hk : forall k, k ∈ LOGIN_KEYS ->
    parent_env g password extra source !! k = config_env g password (forwarded source) !! k).
  { intros k Hin. unfold parent_env. rewrite lookup_union_r by (by apply Hx).
    apply setdefault_ne. intros <-. revert Hin. apply (bool_decide_unpack _). vm_compute. exact I. }
  assert (Hnone : forall k, k ∈ ["RITHMIC_USERNAME"; "RITHMIC_GATEWAY"; "RITHMIC_SYSTEM"] ->
    config_env g password (forwarded source) !! k = None).
  { intros k Hin. unfold config_env. rewrite !elem_of_cons, elem_of_nil in Hin.
    destruct Hin as [->|[->|[->|[]]]]; repeat (rewrite lookup_insert_ne by done); apply forwarded_none;
      apply (bool_decide_unpack _); vm_compute; exact I. }
  assert (Hset : forall k v, trimmed v -> config_env g password (forwarded source) !! k = Some v ->
    k ∈ LOGIN_KEYS -> forall ks, env_first (parent_env g password extra source) (k :: ks) = Some v).
  { intros k v Hv E Hin ks. simpl. rewrite Hk, E by done. destruct (trimmed_reads v Hv) as [-> ->]. done. }
  assert (Hskip : forall k ks, k ∈ ["RITHMIC_USERNAME"; "RITHMIC_GATEWAY"; "RITHMIC_SYSTEM"] ->
    env_first (parent_env g password extra source) (k :: ks)
    = env_first (parent_env g password extra source) ks).
  { intros k ks Hin. simpl. rewrite Hk, Hnone; [done|done|]. unfold LOGIN_KEYS. cbn. set_solver. }
  assert (Hcfg : config_env g password (forwarded source) !! "RITHMIC_USER" = Some (gc_user g) /\
    config_env g password (forwarded source) !! "RITHMIC_SYSTEM_NAME" = Some (gc_system_name g) /\
    config_env g password (forwarded source) !! "RITHMIC_URL" = Some (gc_url g) /\
    config_env g password (forwarded source) !! "RITHMIC_ENV" = Some (gc_env g)).
  { unfold config_env. split_and!; repeat (rewrite lookup_insert_ne by done); apply lookup_insert_eq. }
  destruct Hcfg as (C1 & C2 & C3 & C4).
  assert (Hpw : is_Some (parent_env g password extra source !! "RITHMIC_PASSWORD")).
  { unfold parent_env. apply lookup_union_is_Some. right. rewrite setdefault_ne by done.
    unfold config_env. repeat (rewrite lookup_insert_ne by done). rewrite lookup_insert_eq. eauto. }
  destruct Hpw as [pw Hpw].
  unfold parent_login, resolve_endpoint, USER_KEYS, SYSTEM_KEYS, URL_KEYS, ENV_KEYS.
  rewrite (Hset _ _ Hu C1), Hpw by set_solver.
  rewrite (Hskip "RITHMIC_SYSTEM"), (Hset _ _ Hsn C2) by set_solver.
  rewrite (Hskip "RITHMIC_GATEWAY"), (Hset _ _ Hur C3) by set_solver.
  rewrite (Hset _ _ He C4) by set_solver.
  simpl. by rewrite andb_false_r.
Qed.

(** ** Starting and stopping a parent *)

Definition start_error (msg : string) : exn := Exn ExRuntime None msg.

(** What the harness does to the child process. *)
Inductive ChildOp := Spawned (env : environ) | Terminated | Killed.

(** [stop_parent]: [alive] is [poll() is None]; [exits] whether it exits within
    the grace after the terminate. *)
Definition stop_parent (alive exits : bool) : list ChildOp :=
  if alive then Terminated :: (if exits then [] else [Killed]) else [].

(** One turn of the wait: the flock probe, the socket probe, and the child's exit
    code if it has exited, with its standard error. *)
Record WaitTurn := MkWaitTurn {
  wt_flock : res bool;
  wt_listening : bool;
  wt_exited : option (Z * string)
}.

(** The wait loop: attachable, or how it failed.  [None]: the deadline passed. *)
Fixpoint await_parent (env : environ) (turns : list WaitTurn) : option (res unit) :=
  match turns with
  | [] => None
  | t :: turns' =>
      match wt_flock t with
      | Raise e => Some (Raise e)
      | Ok held =>
          if held && wt_listening t then Some (Ok tt)
          else match wt_exited t with
               | Some (code, stderr) =>
                   Some (Raise (start_error ("gateway exited early (code=" +:+ str_of_Z code +:+ "): "
                     +:+ redact_text stderr
                           ((map_to_list (filter (fun p => secret_key p.1 = true) env)).*2))))
               | None => await_parent env turns'
               end
      end
  end.

(** [start_parent]: the operations on the child, and the outcome. *)
Definition start_parent (c : GatewayConfig) (password : string) (extra source : environ)
  (first_probe : res bool) (binary : res string) (socket : res string) (turns : list WaitTurn)
  (alive exits : bool) : list ChildOp * res unit :=
  match first_probe with
  | Raise e => ([], Raise e)
  | Ok true => ([], Raise (start_error "a gateway parent already holds the credential flock"))
  | Ok false =>
      match binary with
      | Raise e => ([], Raise e)
      | Ok _ =>
          let env := parent_env c password extra source in
          match socket with
          | Raise e => ([Spawned env], Raise e)
          | Ok _ =>
              match await_parent env turns with
              | Some r => ([Spawned env], r)
              | None => (Spawned env :: stop_parent alive exits,
                         Raise (start_error "timed out waiting for the gateway parent"))
              end
          end
      end
  end.

(** [running_parent] around a body: a parent that came up is always stopped. *)
Definition running_parent (started : list ChildOp * res unit) (alive exits : bool)
  : list ChildOp :=
  match started with
  | (ops, Ok _) => ops ++ stop_parent alive exits
  | (ops, Raise _) => ops
  end.

(** A parent is reported up only when the credential lock was held and its socket
    accepted; a start that times out stops the child; another process's parent is
    neither started over nor stopped. *)
Lemma start_parent_spec c password extra source first_probe binary socket turns alive exits ops r :
  start_parent c password extra source first_probe binary socket turns alive exits = (ops, r) ->
  (r = Ok tt -> exists t, t ∈ turns /\ wt_flock t = Ok true /\ wt_listening t = true) /\
  (forall b s, first_probe = Ok false -> binary = Ok b -> socket = Ok s ->
     await_parent (parent_env c password extra source) turns = None ->
     ops = Spawned (parent_env c password extra source) :: stop_parent alive exits) /\
  (first_probe = Ok true -> ops = []).
Proof.
  assert (Ha : forall env, await_parent env turns = Some (Ok tt) ->
    exists t, t ∈ turns /\ wt_flock t = Ok true /\ wt_listening t = true).
  { intros env. induction turns as [|t turns' IH]; [done|]. simpl.
    destruct (wt_flock t) as [[]|] eqn:Ef; [| |done]; simpl.
    - destruct (wt_listening t) eqn:El; simpl; [intros _; exists t; split; [left|done]|].
      destruct (wt_exited t) as [[]|]; [done|]. intros (t' & ? & ?)%IH. exists t'. split; [by right|done].
    - destruct (wt_exited t) as [[]|]; [done|]. intros (t' & ? & ?)%IH. exists t'. split; [by right|done]. }
  unfold start_parent. destruct first_probe as [[]|]; [intros [= <- <-]; naive_solver| |intros [= <- <-]; naive_solver].
  destruct binary as [b|]; [|intros [= <- <-]; naive_solver].
  destruct socket as [s|]; [|intros [= <- <-]; naive_solver].
  destruct (await_parent _ turns) as [r0|] eqn:E; intros [= <- <-].
  - split_and!; [intros ->; eauto|done|done].
  - split_and!; [done|done|done].
Qed.

(** ** Samples *)

Module EndpointSample.
Import GwSample.
#[local] Existing Instance GwSample.host.

(** A test login, in gateway mode. *)
Definition test_env : environ :=
  {[ "RITHMIC_USER" := "alice"; "RITHMIC_SYSTEM" := "Rithmic Test";
     "RITHMIC_GATEWAY" := "wss://rituz00100.rithmic.com:443"; "RITHMIC_CONNECT_MODE" := "gateway";
     "RITHMIC_PASSWORD" := "pw" ]}.

(** Where the sides part on one environment file: [GatewayConfig.from_env] does
    not derive Test from the system, [SessionConfig.from_env] does not read
    [RITHMIC_ENV], and it rewrites a legacy test URL to production. *)
Lemma raw_client_misses_test_parent :
  (exists g, gw_from_env mac_env test_env = Ok g /\ gc_env g = "Live") /\
  (exists c, from_env test_env true = Ok c /\ sc_env c = "Test") /\
  (exists l, parent_login test_env = Some l /\ lg_env_name l = "Test" /\
     credential_hash "alice" (lg_system_name l) (lg_url l) "Live"
     <> credential_key_hash "alice" (lg_system_name l) (lg_url l) "Test").
Proof.
  split_and!.
  - eexists. split; [vm_compute; reflexivity|reflexivity].
  - eexists. split; [vm_compute; reflexivity|reflexivity].
  - eexists. split; [vm_compute; reflexivity|]. split; [reflexivity|]. vm_compute. discriminate.
Qed.

(** A lock probe that fails during the wait leaves the child running. *)
Lemma failed_probe_leaks_child :
  start_parent alice_ok "pw" ∅ ∅ (Ok false) (Ok "/bin/rithmic-gateway") (Ok "/s")
    [MkWaitTurn (Raise (Exn ExOs None "EMFILE")) false None] true true
  = ([Spawned (parent_env alice_ok "pw" ∅ ∅)], Raise (Exn ExOs None "EMFILE")).
Proof. reflexivity. Qed.

Lemma session_ignores_rithmic_env :
  (exists c, from_env (<["RITHMIC_ENV" := "Demo"]> test_env) true = Ok c /\ sc_env c = "Test") /\
  (exists l, parent_login (<["RITHMIC_ENV" := "Demo"]> test_env) = Some l /\ lg_env_name l = "Demo").
Proof. split; eexists; (split; [vm_compute; reflexivity|reflexivity]). Qed.

Definition test_session : SessionConfig := session_of (from_env test_env true).
Definition test_gateway : GatewayConfig :=
  match gw_post_init test_env (gateway_config_from_session test_session) with
  | Ok g => g | Raise _ => alice end.

Lemma test_env_values k v : test_env !! k = Some v ->
  v ∈ ["alice"; "Rithmic Test"; "wss://rituz00100.rithmic.com:443"; "gateway"; "pw"].
Proof.
  unfold test_env. rewrite !lookup_insert_Some, lookup_singleton_Some. set_solver.
Qed.

Lemma test_env_shared : shared_env test_env.
Proof.
  split.
  - intros k v Hv. apply test_env_values in Hv. rewrite !elem_of_cons, elem_of_nil in Hv.
    by destruct Hv as [->|[->|[->|[->|[->|[]]]]]].
  - intros k Hk. rewrite !elem_of_cons, elem_of_nil in Hk.
    by destruct Hk as [->|[->|[->|[->|[->|[]]]]]].
  - done.
  - vm_compute. eauto.
  - vm_compute. eauto.
  - done.
Qed.

Lemma test_env_host : same_host test_env (sc_env test_session).
Proof. split; [reflexivity|..|done|done]; intros d Hd; vm_compute in Hd; discriminate. Qed.

Lemma clients_find_parent_witness :
  exists l sock, parent_login test_env = Some l /\ parent_socket "/" test_env l = Some sock /\
    socket_path test_gateway = Ok sock /\
    lock_path test_env (gc_user test_gateway) (gc_system_name test_gateway) (gc_url test_gateway)
      (gc_env test_gateway) = Ok (parent_lock test_env l).
Proof.
  apply (clients_find_parent "/" test_env test_session test_gateway test_env_shared test_env_host);
    vm_compute; reflexivity.
Defined.

(** The process environment names another system and URL; the parent does not
    see them. *)
Definition stale_env : environ :=
  {[ "RITHMIC_GATEWAY" := "wss://rprotocol.rithmic.com:443"; "RITHMIC_SYSTEM" := "LucidTrading" ]}.

Lemma harness_login_witness :
  parent_login (parent_env test_gateway "pw" ∅ stale_env)
  = Some (MkLogin "alice" "Rithmic Test" "wss://rituz00100.rithmic.com:443" "Test").
Proof.
  rewrite (harness_login test_env (gateway_config_from_session test_session) test_gateway "pw" ∅
    stale_env); [vm_compute; reflexivity|vm_compute; reflexivity|]. intros k _. apply lookup_empty.
Defined.
End EndpointSample.
