(* ===== verification/FourBar.v ===== *)
(** * The four-bar strategy (examples/nq_four_bar.py)

    The sample strategy that trades through the adapter: instrument selection and
    subscriptions at start, the counters of falling and rising one-second closes,
    the market order on the fourth, the start of the lookback window.

    NautilusTrader is outside the repository.  A close is the raw integer of its
    [Price]; whether an order of the instrument is in flight or open, whether the
    portfolio is flat and whether an indicator is initialised are arguments.  The
    actions a callback takes are listed in order. *)

From Stdlib Require Import Ascii String.
From stdpp Require Import base strings list.
From Stdlib Require Import ZArith Lia.
From S2P Require Import Prelude PyVal.
Import Text.
Open Scope string_scope.
Open Scope list_scope.
Open Scope Z_scope.

Inductive Aggregation := AggSecond | AggMinute | AggDay | AggOther.
Inductive Origin := External | Internal.
#[export] Instance Aggregation_eq_dec : EqDecision Aggregation.
Proof. solve_decision. Defined.
#[export] Instance Origin_eq_dec : EqDecision Origin.
Proof. solve_decision. Defined.

(** [f"{instrument_id}-{step}-{aggregation}-LAST-{origin}"]. *)
Record StratBarType := MkStratBarType {
  sb_instrument : string;
  sb_step : Z;
  sb_aggregation : Aggregation;
  sb_origin : Origin
}.
#[export] Instance StratBarType_eq_dec : EqDecision StratBarType.
Proof. solve_decision. Defined.

Record StratBar := MkStratBar { sb_type : StratBarType; sb_close : Z }.

Inductive StratSide := SideBuy | SideSell.
#[export] Instance StratSide_eq_dec : EqDecision StratSide.
Proof. solve_decision. Defined.

Inductive Indicator := Sma | Vwap.

Inductive Action :=
  | RegisterIndicator (bt : StratBarType) (i : Indicator)
  | SubscribeTicks (instrument : string)
  | SubscribeBars (bt : StratBarType)
  | RequestBars (bt : StratBarType) (start_ end_ : Z) (then_subscribe : StratBarType)
  | FeedVwap (close : Z)
  | ResetIndicators
  | SubmitMarket (instrument : string) (side : StratSide)
  | CloseAllPositions (instrument : string)
  | CancelAllOrders (instrument : string)
  | StopStrategy.

Record Strat := MkStrat {
  st_instrument : option string;
  st_m1_ext : option StratBarType;
  st_last_close : option Z;
  st_down : Z;
  st_up : Z;
  st_hist_day : Z;
  st_hist_m1 : Z;
  st_bars : Z;
  st_fills : Z
}.

Definition fresh_strat : Strat := MkStrat None None None 0 0 0 0 0 0.

(** ** [_rth_open_utc], in Chicago wall time *)

(** A wall-clock moment: day count, weekday (Monday 0) and minute of the day. *)
Record Wall := MkWall { wl_day : Z; wl_weekday : Z; wl_minute : Z }.

Definition RTH_OPEN_MINUTE : Z := 8 * 60 + 30.

Definition day_before (w : Wall) : Wall :=
  MkWall (wl_day w - 1) ((wl_weekday w - 1) mod 7) (wl_minute w).

(** [while rth.weekday() >= 5]. *)
Fixpoint weekday_back (fuel : nat) (w : Wall) : Wall :=
  match fuel with
  | O => w
  | S fuel' => if 5 <=? wl_weekday w then weekday_back fuel' (day_before w) else w
  end.

Definition rth_open (now : Wall) : Wall :=
  let rth := MkWall (wl_day now) (wl_weekday now) RTH_OPEN_MINUTE in
  let rth := if wl_minute now <? RTH_OPEN_MINUTE then day_before rth else rth in
  weekday_back 7 rth.

(** ** [on_start] *)

Record StratConfig := MkStratConfig {
  cf_venue : string;
  cf_instrument_id : option string;
  cf_request_lookback : bool;
  cf_sma_lookback_days : Z
}.

(** An instrument of the cache: id, symbol, venue. *)
Record CacheInstrument := MkCacheInstrument { ci_id : string; ci_symbol : string; ci_venue : string }.

Definition select_instrument (cfg : StratConfig) (cache : list CacheInstrument) : option string :=
  let by_venue :=
    let found := List.filter (fun i => bool_decide (ci_venue i = cf_venue cfg)) cache in
    match found with
    | [] => None
    | [i] => Some (ci_id i)
    | _ =>
        match List.filter (fun i => String.prefix "NQ" (ci_symbol i)) found with
        | [i] => Some (ci_id i)
        | _ => None
        end
    end in
  match cf_instrument_id cfg with
  | Some id => if nonempty id
               then (if existsb (fun i => bool_decide (ci_id i = id)) cache then Some id else None)
               else by_venue
  | None => by_venue
  end.

Definition bar_type (id : string) (step : Z) (a : Aggregation) (o : Origin) : StratBarType :=
  MkStratBarType id step a o.

(** [now] and [rth] are the clock's and the session's start in nanoseconds;
    [registered] are the indicators already registered. *)
Definition on_start (cfg : StratConfig) (cache : list CacheInstrument) (now rth : Z)
  (sma_registered vwap_registered : bool) (s : Strat) : Strat * list Action :=
  match select_instrument cfg cache with
  | None => (s, [StopStrategy])
  | Some id =>
      let daily := bar_type id 1 AggDay External in
      let m1_ext := bar_type id 1 AggMinute External in
      let m1_int := bar_type id 1 AggMinute Internal in
      let sec := bar_type id 1 AggSecond Internal in
      (MkStrat (Some id) (Some m1_ext) (st_last_close s) (st_down s) (st_up s) (st_hist_day s)
         (st_hist_m1 s) (st_bars s) (st_fills s),
       (if sma_registered then [] else [RegisterIndicator daily Sma]) ++
       (if vwap_registered then [] else [RegisterIndicator m1_int Vwap]) ++
       [SubscribeTicks id; SubscribeBars sec] ++
       (if cf_request_lookback cfg
        then [RequestBars daily (now - cf_sma_lookback_days cfg * 86400000000000) now daily;
              RequestBars m1_ext rth now m1_int]
        else [SubscribeBars daily; SubscribeBars m1_int]))
  end.

Definition on_reset (s : Strat) : Strat * list Action :=
  (MkStrat (st_instrument s) (st_m1_ext s) None 0 0 0 0 0 0, [ResetIndicators]).

Definition on_historical_data (bar : StratBar) (s : Strat) : Strat * list Action :=
  let t := sb_type bar in
  if bool_decide (sb_aggregation t = AggDay) then
    (MkStrat (st_instrument s) (st_m1_ext s) (st_last_close s) (st_down s) (st_up s)
       (st_hist_day s + 1) (st_hist_m1 s) (st_bars s) (st_fills s), [])
  else if bool_decide (sb_aggregation t = AggMinute) && (sb_step t =? 1) then
    (MkStrat (st_instrument s) (st_m1_ext s) (st_last_close s) (st_down s) (st_up s) (st_hist_day s)
       (st_hist_m1 s + 1) (st_bars s) (st_fills s),
     if bool_decide (st_m1_ext s = Some t) then [FeedVwap (sb_close bar)] else [])
  else (s, []).

(** ** [on_bar] *)

(** A bar the rule does not look at. *)
Definition other_bar (t : StratBarType) : bool :=
  bool_decide (sb_aggregation t = AggDay)
  || (bool_decide (sb_aggregation t = AggMinute) && (sb_step t =? 1)).

Definition count_close (close : Z) (s : Strat) : Strat :=
  let '(down, up) :=
    match st_last_close s with
    | None => (st_down s, st_up s)
    | Some prev =>
        if close <? prev then (st_down s + 1, 0)
        else if prev <? close then (0, st_up s + 1)
        else (0, 0)
    end in
  MkStrat (st_instrument s) (st_m1_ext s) (Some close) down up (st_hist_day s) (st_hist_m1 s)
    (st_bars s + 1) (st_fills s).

Definition clear_counts (s : Strat) : Strat :=
  MkStrat (st_instrument s) (st_m1_ext s) (st_last_close s) 0 0 (st_hist_day s) (st_hist_m1 s)
    (st_bars s) (st_fills s).

(** [working]: [_has_working_order] at this bar. *)
Definition on_bar (working : bool) (bar : StratBar) (s : Strat) : Strat * list Action :=
  match st_instrument s with
  | None => (s, [])
  | Some id =>
      if other_bar (sb_type bar) then (s, [])
      else
        let s1 := count_close (sb_close bar) s in
        match st_last_close s with
        | None => (s1, [])
        | Some _ =>
            if (st_down s1 <? 3) && (st_up s1 <? 3) then (s1, [])
            else if working then (s1, [])
            else (clear_counts s1,
                  [SubmitMarket id (if 3 <=? st_down s1 then SideBuy else SideSell)])
        end
  end.

Definition on_order_filled (s : Strat) : Strat :=
  MkStrat (st_instrument s) (st_m1_ext s) (st_last_close s) (st_down s) (st_up s) (st_hist_day s)
    (st_hist_m1 s) (st_bars s) (st_fills s + 1).

Definition on_stop (flat : bool) (s : Strat) : list Action :=
  match st_instrument s with
  | None => []
  | Some id => (if flat then [] else [CloseAllPositions id]) ++ [CancelAllOrders id]
  end.

(** ** Facts *)

(** The newest [n] comparisons of a list of closes (newest first) all fall, or
    all rise. *)
Fixpoint falls (n : nat) (l : list Z) : Prop :=
  match n, l with
  | O, _ => True
  | S n', a :: ((b :: _) as l') => a < b /\ falls n' l'
  | _, _ => False
  end.
Fixpoint rises (n : nat) (l : list Z) : Prop :=
  match n, l with
  | O, _ => True
  | S n', a :: ((b :: _) as l') => b < a /\ rises n' l'
  | _, _ => False
  end.

(** Callbacks in any order; [seen] are the closes the rule has looked at since
    the last reset. *)
Inductive fstep : Strat * list Z -> list Action -> Strat * list Z -> Prop :=
| FStart cfg cache now rth a b s seen :
    fstep (s, seen) (on_start cfg cache now rth a b s).2 ((on_start cfg cache now rth a b s).1, seen)
| FBar working bar s seen :
    st_instrument s <> None -> other_bar (sb_type bar) = false ->
    fstep (s, seen) (on_bar working bar s).2 ((on_bar working bar s).1, sb_close bar :: seen)
| FOther working bar s seen :
    st_instrument s = None \/ other_bar (sb_type bar) = true ->
    fstep (s, seen) (on_bar working bar s).2 ((on_bar working bar s).1, seen)
| FHist bar s seen :
    fstep (s, seen) (on_historical_data bar s).2 ((on_historical_data bar s).1, seen)
| FFill s seen : fstep (s, seen) [] (on_order_filled s, seen)
| FReset s seen : fstep (s, seen) (on_reset s).2 ((on_reset s).1, []).

Inductive freach : Strat * list Z -> Prop :=
| FInit : freach (fresh_strat, [])
| FStep x acts y : freach x -> fstep x acts y -> freach y.

Record counts_ok (s : Strat) (seen : list Z) : Prop := MkCountsOk {
  co_last : st_last_close s = head seen;
  co_down : 0 <= st_down s;
  co_up : 0 <= st_up s;
  co_falls : falls (Z.to_nat (st_down s)) seen;
  co_rises : rises (Z.to_nat (st_up s)) seen
}.

Lemma counts_same s s' seen :
  st_last_close s' = st_last_close s -> st_down s' = st_down s -> st_up s' = st_up s ->
  counts_ok s seen -> counts_ok s' seen.
Proof. intros E1 E2 E3 []. split; rewrite ?E1, ?E2, ?E3; done. Qed.

Lemma count_close_ok close s seen :
  counts_ok s seen -> counts_ok (count_close close s) (close :: seen).
Proof.
  intros [Hl Hd Hu Hf Hr]. unfold count_close. destruct seen as [|prev seen]; simpl in Hl; rewrite Hl.
  { assert (st_down s = 0 /\ st_up s = 0) as [E1 E2].
    { destruct (Z.to_nat (st_down s)) eqn:E, (Z.to_nat (st_up s)) eqn:E'; simpl in *; try done; lia. }
    rewrite E1, E2. done. }
  destruct (Z.ltb_spec close prev); [|destruct (Z.ltb_spec prev close)].
  - split; simpl; try done; [lia|]. by rewrite Z2Nat.inj_add, Nat.add_comm by lia.
  - split; simpl; try done; [lia|]. by rewrite Z2Nat.inj_add, Nat.add_comm by lia.
  - done.
Qed.

Lemma clear_ok s seen : counts_ok s seen -> counts_ok (clear_counts s) seen.
Proof. intros []. by split. Qed.

Lemma reach_counts x : freach x -> counts_ok x.1 x.2.
Proof.
  induction 1 as [|x acts y Hr IH Hst]; [by split|].
  destruct Hst as [cfg cache now rth a b s seen|w bar s seen Hi Ho|w bar s seen Hn|bar s seen|s seen|s seen];
    simpl in *.
  - unfold on_start. destruct (select_instrument cfg cache); by apply (counts_same s).
  - unfold on_bar. destruct (st_instrument s) as [id|]; [|done]. rewrite Ho.
    pose proof (count_close_ok (sb_close bar) s seen IH) as Hc.
    destruct (st_last_close s); [|done]. destruct (_ && _); [done|]. destruct w; [done|].
    by apply clear_ok.
  - unfold on_bar. destruct Hn as [-> | Hn]; [done|]. destruct (st_instrument s); [|done]. by rewrite Hn.
  - unfold on_historical_data. repeat case_match; simpl; by apply (counts_same s).
  - by apply (counts_same s).
  - by split.
Qed.

(** The strategy trades only on its rule: whatever callbacks came before, an
    order is sent only when none of the instrument is in flight or open, for one
    contract of the started instrument, a buy after four strictly falling closes
    and a sell after four strictly rising ones; and the counters restart. *)
Theorem four_bar_signal s seen working bar acts s' id side :
  freach (s, seen) -> on_bar working bar s = (s', acts) -> SubmitMarket id side ∈ acts ->
  working = false /\ st_instrument s = Some id /\ acts = [SubmitMarket id side] /\
  st_down s' = 0 /\ st_up s' = 0 /\
  match side with
  | SideBuy => falls 3 (sb_close bar :: seen)
  | SideSell => rises 3 (sb_close bar :: seen)
  end.
Proof.
  intros Hr Hb Hin. apply reach_counts in Hr. simpl in Hr.
  pose proof (count_close_ok (sb_close bar) s seen Hr) as Hc. unfold on_bar in Hb.
  destruct (st_instrument s) as [id'|] eqn:Ei; [|injection Hb as <- <-; by apply elem_of_nil in Hin].
  destruct (other_bar _); [injection Hb as <- <-; by apply elem_of_nil in Hin|].
  destruct (st_last_close s); [|injection Hb as <- <-; by apply elem_of_nil in Hin].
  destruct ((st_down _ <? 3) && _) eqn:En; [injection Hb as <- <-; by apply elem_of_nil in Hin|].
  destruct working; [injection Hb as <- <-; by apply elem_of_nil in Hin|].
  injection Hb as <- <-. apply list_elem_of_singleton in Hin as [= -> ->].
  split_and!; try done. destruct Hc as [_ Hd Hu Hf Hri].
  assert (Hle : forall n l, falls (3 + n) l -> falls 3 l).
  { intros n l. by destruct l as [|a [|b [|c [|d l]]]]; simpl; try tauto. }
  assert (Hle' : forall n l, rises (3 + n) l -> rises 3 l).
  { intros n l. by destruct l as [|a [|b [|c [|d l]]]]; simpl; try tauto. }
  destruct (Z.leb_spec 3 (st_down (count_close (sb_close bar) s))) as [H3|H3].
  - apply (Hle (Z.to_nat (st_down (count_close (sb_close bar) s)) - 3)%nat).
    by replace (3 + _)%nat with (Z.to_nat (st_down (count_close (sb_close bar) s))) by lia.
  - apply (Hle' (Z.to_nat (st_up (count_close (sb_close bar) s)) - 3)%nat).
    replace (3 + _)%nat with (Z.to_nat (st_up (count_close (sb_close bar) s))) by lia. done.
Qed.

Lemma on_bar_instrument w bar s : st_instrument (on_bar w bar s).1 = st_instrument s.
Proof.
  assert (Hc : st_instrument (count_close (sb_close bar) s) = st_instrument s)
    by (unfold count_close; repeat case_match; done).
  unfold on_bar. destruct (st_instrument s) as [id|] eqn:E; [|done].
  destruct (other_bar _); [done|]. destruct (st_last_close s); [|done].
  destruct (_ && _); [done|]. by destruct w.
Qed.

(** The lookback starts at a weekday's opening that is not in the future, at most
    three days back; seven turns are enough for the loop. *)
Lemma rth_open_spec now :
  0 <= wl_weekday now < 7 -> 0 <= wl_minute now < 1440 ->
  let r := rth_open now in
  0 <= wl_weekday r < 5 /\ wl_minute r = RTH_OPEN_MINUTE /\
  wl_day now - 3 <= wl_day r <= wl_day now /\
  (wl_day r = wl_day now -> RTH_OPEN_MINUTE <= wl_minute now) /\
  wl_weekday r = (wl_weekday now - (wl_day now - wl_day r)) mod 7.
Proof.
  intros Hw Hm.
  assert (Hc : wl_weekday now ∈ [0; 1; 2; 3; 4; 5; 6]).
  { rewrite !elem_of_cons, elem_of_nil. lia. }
  unfold rth_open. destruct now as [d w m]. simpl in *.
  rewrite !elem_of_cons, elem_of_nil in Hc.
  destruct (Z.ltb_spec m RTH_OPEN_MINUTE);
    destruct Hc as [->|[->|[->|[->|[->|[->|[->|[]]]]]]]]; cbn -[Z.sub Z.add RTH_OPEN_MINUTE Z.modulo];
    simpl; split_and!; try lia; try done; Z.to_euclidean_division_equations; lia.
Qed.

Module FourBarSample.
Definition SEC : StratBarType := bar_type "NQU6.CME" 1 AggSecond Internal.
Definition cfg : StratConfig := MkStratConfig "CME" None false 40.
Definition cache : list CacheInstrument := [MkCacheInstrument "NQU6.CME" "NQU6" "CME"].
Definition started : Strat := (on_start cfg cache 0 0 false false fresh_strat).1.

(** The rule's bars with these closes, no order working. *)
Fixpoint feed (closes : list Z) (s : Strat) : Strat * list Action :=
  match closes with
  | [] => (s, [])
  | c :: closes' =>
      let '(s1, a1) := on_bar false (MkStratBar SEC c) s in
      let '(s2, a2) := feed closes' s1 in (s2, a1 ++ a2)
  end.

Lemma feed_reach closes : forall s seen,
  freach (s, seen) -> st_instrument s <> None -> freach ((feed closes s).1, rev closes ++ seen).
Proof.
  induction closes as [|c closes IH]; intros s seen Hr Hi; [done|]. simpl.
  assert (Hi' : st_instrument (on_bar false (MkStratBar SEC c) s).1 <> None).
  { by rewrite on_bar_instrument. }
  pose proof (FStep _ _ _ Hr (FBar false (MkStratBar SEC c) s seen Hi eq_refl)) as H1. simpl in H1.
  destruct (on_bar false (MkStratBar SEC c) s) as [s1 a1] eqn:E. simpl in *.
  specialize (IH s1 (c :: seen) H1 Hi'). destruct (feed closes s1) as [s2 a2]. simpl in *.
  by rewrite <- app_assoc.
Qed.

(** The signal fires on the fourth close, and its counters restart. *)
Example fires_on_fourth :
  (feed [100; 99; 98; 97] started).2 = [SubmitMarket "NQU6.CME" SideBuy] /\
  (feed [100; 99; 98] started).2 = [] /\
  (feed [100; 99; 98; 97; 96; 95] started).2 = [SubmitMarket "NQU6.CME" SideBuy].
Proof. vm_compute. done. Qed.

Lemma four_bar_signal_witness : falls 3 [97; 98; 99; 100].
Proof.
  pose proof (feed_reach [100; 99; 98] started [] (FStep _ _ _ FInit (FStart cfg cache 0 0 false false _ _))
    ltac:(vm_compute; discriminate)) as Hr.
  destruct (four_bar_signal (feed [100; 99; 98] started).1 [98; 99; 100] false (MkStratBar SEC 97)
    [SubmitMarket "NQU6.CME" SideBuy]
    (on_bar false (MkStratBar SEC 97) (feed [100; 99; 98] started).1).1 "NQU6.CME" SideBuy Hr)
    as (_ & _ & _ & _ & _ & Hf); [vm_compute; reflexivity|left|exact Hf].
Defined.
End FourBarSample.
