(* ===== verification/PublishIndex.v ===== *)
(** * The wheel index (scripts/publish_index.py)

    From the releases of the repository to the pages of a PEP 503 index: which
    assets are wheels, which development builds are pruned, in which order a
    project's links are listed, the text of the pages.  The requests to GitHub and
    the run of the script are in [PublishRun].  The order in which Python walks a
    set of versions is the parameter [enum]. *)

From Stdlib Require Import Ascii String.
From stdpp Require Import base strings list gmap sorting.
From Stdlib Require Import ZArith Lia.
From S2P Require Import Prelude PyVal Redact Config.
Import Text.
Open Scope string_scope.
Open Scope list_scope.
Open Scope Z_scope.

Definition DEV_RELEASE : string := "main-dev".

Record Wheel := MkWheel {
  wh_filename : string;
  wh_project : string;
  wh_version : string;
  wh_url : string;
  wh_sha256 : option string;
  wh_asset_id : Z;
  wh_release : string
}.

#[export] Instance Wheel_eq_dec : EqDecision Wheel.
Proof. solve_decision. Defined.

(** ** Names and versions *)

(** [re.sub(r"[-_.]+", "-", name).lower()]. *)
Definition name_sep (a : ascii) : bool := is_char "-" a || is_char "_" a || is_char "." a.

Fixpoint squeeze (in_run : bool) (s : string) : string :=
  match s with
  | EmptyString => EmptyString
  | String a s' =>
      if name_sep a then (if in_run then squeeze true s' else String "-" (squeeze true s'))
      else String a (squeeze false s')
  end.

Definition normalize (name : string) : string := lower (squeeze false name).

(** [version.partition(".dev")]. *)
Fixpoint partition_dev (s : string) : string * option string :=
  match strip_prefix ".dev" s with
  | Some rest => (EmptyString, Some rest)
  | None =>
      match s with
      | EmptyString => (EmptyString, None)
      | String a s' => let '(base, dev) := partition_dev s' in (String a base, dev)
      end
  end.

(** [p.isdigit()], then [int(p)]. *)
Definition digits (p : string) : option Z := if nonempty p && sall is_digit p then Z_of_str p else None.

(** The numbers of the base, and the development number; a release comes after
    every development build ([float("inf")]). *)
Definition VersionKey : Type := (list Z * option Z)%type.

Definition version_key (version : string) : VersionKey :=
  let '(base, dev) := partition_dev version in
  (omap digits (split_on "." base), dev ≫= digits).

Fixpoint nums_le (a b : list Z) : bool :=
  match a, b with
  | [], _ => true
  | _ :: _, [] => false
  | x :: a', y :: b' => if x <? y then true else if y <? x then false else nums_le a' b'
  end.

(** Tuple order: numbers first. *)
Definition key_le (a b : VersionKey) : bool :=
  if bool_decide (a.1 = b.1) then
    match a.2, b.2 with
    | Some x, Some y => x <=? y
    | Some _, None | None, None => true
    | None, Some _ => false
    end
  else nums_le a.1 b.1.

(** ** Assets to wheels *)

Record Asset := MkAsset {
  as_name : string; as_digest : option string; as_url : string; as_id : Z
}.
Record Release := MkRelease { rl_draft : bool; rl_tag : string; rl_assets : list Asset }.

(** Up to the first dash, when there is one. *)
Fixpoint until_dash (s : string) : option (string * string) :=
  match s with
  | EmptyString => None
  | String a s' =>
      if is_char "-" a then Some (EmptyString, s')
      else match until_dash s' with Some (h, t) => Some (String a h, t) | None => None end
  end.

Definition name_char (a : ascii) : bool :=
  is_digit a || is_upper a || is_upper (up_ascii a) || is_char "_" a || is_char "." a.

(** [_WHEEL]: name, version and a rest that ends in [.whl]; the name has no dash
    and neither has the version, so both end at the first one. *)
Definition match_wheel (filename : string) : option (string * string) :=
  match until_dash filename with
  | None => None
  | Some (name, rest) =>
      if negb (nonempty name && sall name_char name) then None
      else match until_dash rest with
           | None => None
           | Some (version, tail) =>
               if negb (nonempty version) then None
               else match strip_suffix ".whl" tail with
                    | Some body => if nonempty body then Some (name, version) else None
                    | None => None
                    end
           end
  end.

Definition wheel_of (tag : string) (a : Asset) : option Wheel :=
  match match_wheel (as_name a) with
  | None => None
  | Some (name, version) =>
      let digest := removeprefix "sha256:" (default "" (as_digest a)) in
      Some (MkWheel (as_name a) (normalize name) version (as_url a)
              (if nonempty digest then Some digest else None) (as_id a) tag)
  end.

Definition wheels_from_releases (releases : list Release) : list Wheel :=
  releases ≫= fun r => if rl_draft r then [] else omap (wheel_of (rl_tag r)) (rl_assets r).

(** ** Pruning *)

(** [sorted(..., key=version_key, reverse=True)]: equal keys keep their order. *)
Fixpoint insert_desc (v : string) (l : list string) : list string :=
  match l with
  | [] => [v]
  | x :: l' => if key_le (version_key x) (version_key v) then v :: l else x :: insert_desc v l'
  end.
Definition sort_desc (l : list string) : list string := foldr insert_desc [] l.

(** [l[:keep]]. *)
Definition slice_to {A} (keep : Z) (l : list A) : list A :=
  if keep <? 0 then take (Z.to_nat (Z.of_nat (length l) + keep)) l else take (Z.to_nat keep) l.

Section Prune.
Variable enum : gset string -> list string.

Definition is_dev (w : Wheel) : bool := bool_decide (wh_release w = DEV_RELEASE).

Definition dev_versions (wheels : list Wheel) (project : string) : gset string :=
  list_to_set (wh_version <$> List.filter (fun w => is_dev w && bool_decide (wh_project w = project)) wheels).

Definition keep_versions (wheels : list Wheel) (keep : Z) (project : string) : list string :=
  slice_to keep (sort_desc (enum (dev_versions wheels project))).

Definition is_pruned (wheels : list Wheel) (keep : Z) (w : Wheel) : bool :=
  is_dev w && negb (bool_decide (wh_version w ∈ keep_versions wheels keep (wh_project w))).

Definition split_pruned (wheels : list Wheel) (keep : Z) : list Wheel * list Wheel :=
  (List.filter (fun w => negb (is_pruned wheels keep w)) wheels,
   List.filter (is_pruned wheels keep) wheels).

(** ** The index *)

(** [html.escape]. *)
Definition escape_char (a : ascii) : string :=
  if is_char "&" a then "&amp;"
  else if is_char "<" a then "&lt;"
  else if is_char ">" a then "&gt;"
  else if bool_decide (a = DQUOTE) then "&quot;"
  else if is_char "'" a then "&#x27;"
  else String a EmptyString.
Definition html_escape (s : string) : string := sconcat_map escape_char s.

Definition quoted (s : string) : string := String DQUOTE (s +:+ String DQUOTE "").

Definition link (requires : option string) (w : Wheel) : string :=
  let href := wh_url w +:+ match wh_sha256 w with
                           | Some h => if nonempty h then "#sha256=" +:+ h else ""
                           | None => "" end in
  let rp := match requires with
            | Some r => if nonempty r then " data-requires-python=" +:+ quoted (html_escape r) else ""
            | None => "" end in
  "<a href=" +:+ quoted (html_escape href) +:+ rp +:+ ">" +:+ html_escape (wh_filename w) +:+ "</a><br>".

(** A later wheel first: by version, then by file name. *)
Definition wheel_before (a b : Wheel) : bool :=
  if bool_decide (version_key (wh_version a) = version_key (wh_version b))
  then String.leb (wh_filename b) (wh_filename a)
  else key_le (version_key (wh_version b)) (version_key (wh_version a)).

Fixpoint insert_wheel (w : Wheel) (l : list Wheel) : list Wheel :=
  match l with
  | [] => [w]
  | x :: l' => if wheel_before w x then w :: l else x :: insert_wheel w l'
  end.
Definition sort_wheels (l : list Wheel) : list Wheel := foldr insert_wheel [] l.

(** [by_project], in the order its keys were first seen. *)
Definition projects (wheels : list Wheel) : list string :=
  reverse (remove_dups (reverse (wh_project <$> wheels))).

(** The project pages: path, and the links in order. *)
Definition render_projects (wheels : list Wheel) (requires : string -> option string)
  : list (string * list string) :=
  (fun p => ("simple/" +:+ p +:+ "/index.html",
             link (requires p) <$>
               sort_wheels (List.filter (fun w => bool_decide (wh_project w = p)) wheels)))
  <$> projects wheels.

Definition NL : string := String (ascii_of_N 10) EmptyString.

Definition page (title : string) (body : list string) : string :=
  "<!DOCTYPE html>" +:+ NL +:+ "<html><head><meta name=" +:+ quoted "pypi:repository-version" +:+ " "
  +:+ "content=" +:+ quoted "1.0" +:+ "><title>" +:+ html_escape title +:+ "</title></head><body>" +:+ NL
  +:+ String.concat NL body +:+ NL +:+ "</body></html>" +:+ NL.

(** [sorted] on the names of the projects. *)
Fixpoint insert_name (p : string) (l : list string) : list string :=
  match l with
  | [] => [p]
  | q :: l' => if String.leb p q then p :: l else q :: insert_name p l'
  end.
Definition sort_names (l : list string) : list string := foldr insert_name [] l.

Definition root_link (p : string) : string :=
  "<a href=" +:+ quoted (p +:+ "/") +:+ ">" +:+ p +:+ "</a><br>".

(** The root page, then a page per project. *)
Definition render (wheels : list Wheel) (requires : string -> option string) : list (string * string) :=
  ("simple/index.html", page "Simple index" (root_link <$> sort_names (projects wheels))) ::
  ((fun p => ("simple/" +:+ p +:+ "/index.html",
              page ("Links for " +:+ p)
                (link (requires p) <$>
                   sort_wheels (List.filter (fun w => bool_decide (wh_project w = p)) wheels))))
   <$> projects wheels).

(** The [project] tables of the two pyproject files, in order: [name] and
    [requires-python].  A later file overwrites an entry of the same name. *)
Definition requires_python (tables : list (string * option string)) (project : string) : option string :=
  foldl (fun out '(name, req) =>
           match req with
           | Some r => if bool_decide (normalize name = project) then Some r else out
           | None => out
           end) None tables.
End Prune.

(** ** Facts: the order of versions *)

Lemma nums_le_total a : forall b, nums_le a b = false -> nums_le b a = true.
Proof.
  induction a as [|x a IH]; intros [|y b]; simpl; try done.
  destruct (Z.ltb_spec x y); [done|]. destruct (Z.ltb_spec y x); [done|]. auto.
Qed.

Lemma nums_le_trans a : forall b c, nums_le a b = true -> nums_le b c = true -> nums_le a c = true.
Proof.
  induction a as [|x a IH]; intros [|y b] [|z c]; simpl; try done.
  destruct (Z.ltb_spec x y), (Z.ltb_spec y x), (Z.ltb_spec y z), (Z.ltb_spec z y),
    (Z.ltb_spec x z), (Z.ltb_spec z x); try done; try lia. apply IH.
Qed.

Lemma nums_le_antisym a : forall b, nums_le a b = true -> nums_le b a = true -> a = b.
Proof.
  induction a as [|x a IH]; intros [|y b]; simpl; try done.
  destruct (Z.ltb_spec x y), (Z.ltb_spec y x); try done; try lia.
  intros H1 H2. f_equal; [lia|]. by apply IH.
Qed.

Lemma key_le_total a b : key_le a b = false -> key_le b a = true.
Proof.
  unfold key_le. destruct a as [na da], b as [nb db]. simpl.
  destruct (decide (na = nb)) as [->|Hn].
  - rewrite !bool_decide_eq_true_2 by done. destruct da, db; try done. lia.
  - rewrite (bool_decide_eq_false_2 (na = nb)), (bool_decide_eq_false_2 (nb = na)) by congruence.
    apply nums_le_total.
Qed.

Lemma key_le_trans a b c : key_le a b = true -> key_le b c = true -> key_le a c = true.
Proof.
  unfold key_le. destruct a as [na da], b as [nb db], c as [nc dc]. simpl.
  destruct (decide (na = nb)) as [->|H1], (decide (nb = nc)) as [->|H2].
  - rewrite !bool_decide_eq_true_2 by done. destruct da, db, dc; try done. lia.
  - rewrite (bool_decide_eq_true_2 (nb = nb)) by done. by rewrite bool_decide_eq_false_2.
  - rewrite (bool_decide_eq_true_2 (nc = nc)) by done. by rewrite bool_decide_eq_false_2.
  - rewrite (bool_decide_eq_false_2 (na = nb)), (bool_decide_eq_false_2 (nb = nc)) by done.
    intros Hab Hbc. destruct (decide (na = nc)) as [->|H3].
    + exfalso. apply H1. by apply nums_le_antisym.
    + rewrite bool_decide_eq_false_2 by done. by eapply nums_le_trans.
Qed.

Definition newer (a b : string) : Prop := key_le (version_key b) (version_key a) = true.

Lemma insert_desc_perm v l : insert_desc v l ≡ₚ v :: l.
Proof.
  induction l as [|x l IH]; simpl; [done|]. destruct (key_le _ _); [done|].
  rewrite IH. apply Permutation_swap.
Qed.

Lemma sort_desc_perm l : sort_desc l ≡ₚ l.
Proof. induction l as [|v l IH]; simpl; [done|]. by rewrite insert_desc_perm, IH. Qed.

Lemma insert_desc_sorted v l : StronglySorted newer l -> StronglySorted newer (insert_desc v l).
Proof.
  induction 1 as [|x l Hl IH Hx]; simpl; [repeat constructor|].
  destruct (key_le (version_key x) (version_key v)) eqn:E.
  - constructor; [by constructor|]. constructor; [done|].
    eapply Forall_impl; [exact Hx|]. intros y Hy. by eapply key_le_trans.
  - constructor; [done|]. rewrite insert_desc_perm. constructor; [|done]. by apply key_le_total.
Qed.

Lemma sort_desc_sorted l : StronglySorted newer (sort_desc l).
Proof. induction l as [|v l IH]; simpl; [constructor|]. by apply insert_desc_sorted. Qed.

(** What a slice from the front leaves out is not newer than what it takes. *)
Lemma slice_newest keep l x y :
  StronglySorted newer l -> x ∈ slice_to keep l -> y ∈ l -> y ∉ slice_to keep l -> newer x y.
Proof.
  intros Hs. unfold slice_to.
  assert (Hn : forall n, x ∈ take n l -> y ∈ l -> y ∉ take n l -> newer x y).
  { intros n Hx Hy Hny. rewrite <- (take_drop n l) in Hs, Hy.
    apply elem_of_app in Hy as [Hy|Hy]; [done|].
    revert Hs Hx Hy. generalize (take n l) as a, (drop n l) as b. clear. intros a b Hs Hx Hy.
    induction a as [|z a IH]; [by apply elem_of_nil in Hx|].
    simpl in Hs. apply StronglySorted_cons in Hs as [Hz Hs].
    apply elem_of_cons in Hx as [->|Hx]; [|by apply IH].
    rewrite Forall_forall in Hz. apply Hz. apply elem_of_app. by right. }
  destruct (keep <? 0); apply Hn.
Qed.

Lemma length_take_le_keep {A} keep (l : list A) :
  0 <= keep -> (length (slice_to keep l) <= Z.to_nat keep)%nat.
Proof.
  intros Hk. unfold slice_to. destruct (Z.ltb_spec keep 0); [lia|]. rewrite length_take. lia.
Qed.

(** ** Facts: pruning *)

Lemma filter_halves {A} (f : A -> bool) (l : list A) :
  List.filter (fun x => negb (f x)) l ++ List.filter f l ≡ₚ l.
Proof.
  induction l as [|a r IHr]; simpl; [done|].
  destruct (f a); simpl; [rewrite <- Permutation_middle|]; apply perm_skip, IHr.
Qed.

Section PruneFacts.
Context (enum : gset string -> list string).
Context (enum_set : forall X, enum X ≡ₚ elements X).

(** Pruning is safe: it splits the wheels, never touches a tagged release, keeps
    every file of a version or none, keeps per project at most [keep]
    development versions, and never keeps an older one than it deletes. *)
Theorem prune_keeps_newest wheels keep kept pruned :
  0 <= keep -> split_pruned enum wheels keep = (kept, pruned) ->
  kept ++ pruned ≡ₚ wheels /\
  Forall (fun w => wh_release w = DEV_RELEASE) pruned /\
  (forall p, (length (remove_dups (wh_version <$>
     List.filter (fun w => is_dev w && bool_decide (wh_project w = p)) kept)) <= Z.to_nat keep)%nat) /\
  (forall w w', w ∈ kept -> w' ∈ pruned -> is_dev w = true -> wh_project w = wh_project w' ->
     newer (wh_version w) (wh_version w') /\ wh_version w <> wh_version w').
Proof.
  intros Hk [= <- <-].
  assert (Hin : forall (f : Wheel -> bool) w, w ∈ List.filter f wheels <-> f w = true /\ w ∈ wheels).
  { intros f w. rewrite !list_elem_of_In, List.filter_In. tauto. }
  split_and!.
  - apply filter_halves.
  - apply Forall_forall. intros w [Hp _]%Hin. unfold is_pruned in Hp.
    apply andb_true_iff in Hp as [Hd _]. by apply bool_decide_eq_true in Hd.
  - intros p. etrans; [|apply (length_take_le_keep keep (sort_desc (enum (dev_versions wheels p))))].
    + apply submseteq_length, NoDup_submseteq; [apply NoDup_remove_dups|]. intros v Hv.
      apply elem_of_remove_dups, list_elem_of_fmap in Hv as (w & -> & Hw).
      rewrite list_elem_of_In, List.filter_In in Hw. destruct Hw as [Hw Hf].
      apply andb_true_iff in Hf as [Hd Hpr%bool_decide_eq_true].
      apply list_elem_of_In, Hin in Hw as [Hn _]. unfold is_pruned in Hn. rewrite Hd in Hn. simpl in Hn.
      rewrite negb_involutive in Hn. apply bool_decide_eq_true in Hn. by rewrite Hpr in Hn.
    + done.
  - intros w w' [Hn Hw]%Hin [Hp Hw']%Hin Hd Hpr.
    unfold is_pruned in Hn, Hp. rewrite Hd in Hn. simpl in Hn. rewrite negb_involutive in Hn.
    apply bool_decide_eq_true in Hn. apply andb_true_iff in Hp as [Hd' Hp].
    apply negb_true_iff, bool_decide_eq_false in Hp. rewrite Hpr in Hn.
    split; [|intros E; by rewrite E in Hn].
    eapply slice_newest; [apply sort_desc_sorted|exact Hn| |exact Hp].
    rewrite sort_desc_perm, enum_set. apply elem_of_elements, elem_of_list_to_set, list_elem_of_fmap.
    exists w'. split; [done|]. apply list_elem_of_In, List.filter_In. split; [by apply list_elem_of_In|].
    rewrite Hd'. by apply bool_decide_eq_true.
Qed.
End PruneFacts.

(** ** Facts: the pages *)

(** Escaped text closes neither the attribute nor the tag it stands in. *)
Lemma escape_inert s :
  has_char "<" (html_escape s) = false /\ has_char ">" (html_escape s) = false /\
  has_char DQUOTE (html_escape s) = false.
Proof.
  unfold html_escape. induction s as [|a s (H1 & H2 & H3)]; [done|]. cbn [sconcat_map].
  rewrite !has_char_app, H1, H2, H3, !orb_false_r.
  unfold escape_char, is_char. repeat (case_bool_decide; [done|]).
  simpl. by rewrite !orb_false_r, !bool_decide_eq_false_2.
Qed.

Lemma insert_wheel_perm w l : insert_wheel w l ≡ₚ w :: l.
Proof.
  induction l as [|x l IH]; simpl; [done|]. destruct (wheel_before w x); [done|].
  rewrite IH. apply Permutation_swap.
Qed.

Lemma sort_wheels_perm l : sort_wheels l ≡ₚ l.
Proof. induction l as [|w l IH]; simpl; [done|]. by rewrite insert_wheel_perm, IH. Qed.

Lemma elem_of_projects p wheels : p ∈ projects wheels <-> exists w, p = wh_project w /\ w ∈ wheels.
Proof. unfold projects. by rewrite elem_of_reverse, elem_of_remove_dups, elem_of_reverse, list_elem_of_fmap. Qed.

Lemma insert_name_perm p l : insert_name p l ≡ₚ p :: l.
Proof.
  induction l as [|q l IH]; simpl; [done|]. destruct (String.leb p q); [done|].
  rewrite IH. apply Permutation_swap.
Qed.

Lemma sort_names_perm l : sort_names l ≡ₚ l.
Proof. induction l as [|p l IH]; simpl; [done|]. by rewrite insert_name_perm, IH. Qed.

(** A page per project and no other, and the root page links each once. *)
Lemma render_pages wheels requires :
  (render wheels requires).*1 =
    "simple/index.html" :: ((fun p => "simple/" +:+ p +:+ "/index.html") <$> projects wheels) /\
  NoDup (projects wheels) /\ sort_names (projects wheels) ≡ₚ projects wheels.
Proof.
  split_and!.
  - cbn [render fmap list_fmap fst]. f_equal. unfold fmap. rewrite List.map_map. by apply List.map_ext.
  - unfold projects. rewrite reverse_Permutation. apply NoDup_remove_dups.
  - apply sort_names_perm.
Qed.

(** Every wheel is linked once, from the page of its project. *)
Lemma render_links wheels requires w :
  w ∈ wheels ->
  exists links, ("simple/" +:+ wh_project w +:+ "/index.html", links) ∈ render_projects wheels requires /\
    link (requires (wh_project w)) w ∈ links /\
    length links = length (List.filter (fun x => bool_decide (wh_project x = wh_project w)) wheels).
Proof.
  intros Hw. eexists. split_and!.
  - apply list_elem_of_fmap. exists (wh_project w). split; [reflexivity|].
    apply elem_of_projects. eauto.
  - apply list_elem_of_fmap. exists w. split; [done|]. rewrite sort_wheels_perm.
    apply list_elem_of_In, List.filter_In. split; [by apply list_elem_of_In|]. by apply bool_decide_eq_true.
  - by rewrite length_fmap, sort_wheels_perm.
Qed.

Module IndexSample.
Definition dev (v : string) (id : Z) : Wheel :=
  MkWheel ("rithmic_gateway-" +:+ v +:+ "-py3-none-any.whl") "rithmic-gateway" v "https://x" None id "main-dev".
Definition builds : list Wheel := [dev "0.1.0.dev9" 1; dev "0.1.0.dev10" 2; dev "0.1.0.dev2" 3].

(** Development numbers are compared as numbers; a release is newer. *)
Example prune_sample :
  (split_pruned elements builds 2).2 = [dev "0.1.0.dev2" 3] /\
  match_wheel "rithmic_gateway-0.1.0.dev9-py3-none-any.whl" = Some ("rithmic_gateway", "0.1.0.dev9") /\
  normalize "Rithmic__Gateway" = "rithmic-gateway" /\
  key_le (version_key "0.1.0.dev99") (version_key "0.1.0") = true.
Proof. vm_compute. done. Qed.

Lemma prune_keeps_newest_sample : Forall (fun w => wh_release w = DEV_RELEASE) [dev "0.1.0.dev2" 3].
Proof.
  eapply (prune_keeps_newest elements ltac:(done) builds 2); [lia|vm_compute; reflexivity].
Qed.
End IndexSample.
