(* ===== verification/PublishRun.v ===== *)
(** * Running the wheel index script (scripts/publish_index.py, GitHub I/O and main)

    The requests the script sends, how redirects are followed, the listing of the
    releases page by page, the deletion of pruned builds and the files written.
    GitHub and the hosts it redirects to are an argument ([answer], which sees
    everything sent so far), as are the JSON reader, SHA-256, the file system and
    the two pyproject files.  The state is the trace of what the script did. *)

From Stdlib Require Import Ascii String.
From stdpp Require Import base strings list gmap.
From Stdlib Require Import ZArith Lia.
From S2P Require Import Prelude PyVal Redact Config PublishIndex.
Import Text.
Open Scope string_scope.
Open Scope list_scope.
Open Scope Z_scope.

Definition API : string := "https://api.github.com".

(** [urllib.request.Request]: header names are capitalised, so a name is one key. *)
Record Request := MkRequest {
  rq_url : string;
  rq_method : string;
  rq_headers : gmap string string;
  rq_unredirected : gmap string string
}.

Inductive Ev :=
  | Sent (r : Request)
  | Printed (s : string)
  | PrintedErr (s : string)
  | Wrote (path text : string).

(** What a host answers: a body, a redirect whose location urllib has joined and
    quoted, or a failure (an HTTP status, a broken connection). *)
Inductive Reply :=
  | Body (b : string)
  | Moved (code : Z) (newurl : string)
  | Failed (e : exn).

Definition http_error : exn := Exn ExOs None "HTTPError".
Definition json_error : exn := Exn ExValue None "JSONDecodeError".

Definition _request (method url token : string) : res Request :=
  if negb (String.prefix "https://" url) then Raise (Exn ExValue None ("refusing non-https URL: " +:+ url))
  else Ok (MkRequest url method
             (<["Authorization" := "Bearer " +:+ token]>
                (<["Accept" := "application/vnd.github+json"]>
                   {["X-github-api-version" := "2022-11-28"]})) ∅).

Definition add_header (k v : string) (r : Request) : Request :=
  MkRequest (rq_url r) (rq_method r) (<[k := v]> (rq_headers r)) (rq_unredirected r).

(** ** [urllib.parse.urlsplit] *)

Definition scheme_char (a : ascii) : bool :=
  is_digit a || is_upper a || is_lower a || is_char "+" a || is_char "-" a || is_char "." a.

Definition first_alpha (s : string) : bool :=
  match s with String a _ => is_upper a || is_lower a | EmptyString => false end.

Definition split_scheme (url : string) : string * string :=
  match split_once ":" url with
  | Some (s, rest) => if first_alpha s && sall scheme_char s then (lower s, rest) else ("", url)
  | None => ("", url)
  end.

Fixpoint until_delim (s : string) : string :=
  match s with
  | EmptyString => EmptyString
  | String a s' => if is_char "/" a || is_char "?" a || is_char "#" a then EmptyString
                   else String a (until_delim s')
  end.

Definition netloc (url : string) : string :=
  match strip_prefix "//" (split_scheme url).2 with Some r => until_delim r | None => "" end.

(** ** Redirects *)

(** [HTTPRedirectHandler.redirect_request]: only a GET, a HEAD or a redirected
    POST is sent again, with the headers that do not describe a body. *)
Definition std_redirect_request (req : Request) (code : Z) (newurl : string) : res Request :=
  let m := rq_method req in
  if negb ((bool_decide (code ∈ [301; 302; 303; 307; 308]) && bool_decide (m ∈ ["GET"; "HEAD"]))
           || (bool_decide (code ∈ [301; 302; 303]) && bool_decide (m = "POST")))
  then Raise http_error
  else Ok (MkRequest newurl (if bool_decide (m = "HEAD") then "HEAD" else "GET")
             (delete "Content-length" (delete "Content-type" (rq_headers req))) ∅).

(** [_NoAuthAcrossHosts.redirect_request]. *)
Definition redirect_request (req : Request) (code : Z) (newurl : string) : res Request :=
  new ← std_redirect_request req code newurl;
  if bool_decide (netloc newurl <> netloc (rq_url req))
  then mret (MkRequest (rq_url new) (rq_method new) (delete "Authorization" (rq_headers new))
               (delete "Authorization" (rq_unredirected new)))
  else mret new.

Definition MAX_REPEATS : nat := 4.
Definition MAX_REDIRECTIONS : nat := 10.

Definition times (u : string) (visited : list string) : nat :=
  length (List.filter (fun v => bool_decide (v = u)) visited).

(** [HTTPRedirectHandler.http_error_302]: [visited] holds the locations followed
    so far, with repeats. *)
Definition follow (redirect : Request -> Z -> string -> res Request) (visited : list string)
  (req : Request) (code : Z) (newurl : string) : res Request :=
  if negb (bool_decide ((split_scheme newurl).1 ∈ ["http"; "https"; "ftp"; ""])) then Raise http_error
  else
    new ← redirect req code newurl;
    if bool_decide (visited <> []) &&
       ((MAX_REPEATS <=? times newurl visited)%nat
        || (MAX_REDIRECTIONS <=? length (remove_dups visited))%nat)
    then Raise http_error
    else mret new.

Section Run.
Variable answer : list Ev -> Request -> Reply.
Variable json : string -> option (list Release).
Variable sha256 : string -> string.
Variable fs_error : list Ev -> string -> option exn.
Variable pyprojects : res (list (string * option string)).
Variable enum : gset string -> list string.

Definition emit (e : Ev) : M (list Ev) unit := modify (fun t => t ++ [e]).

(** [opener.open]: send, follow redirects, hand over the body. *)
Fixpoint open_loop (fuel : nat) (redirect : Request -> Z -> string -> res Request)
  (visited : list string) (req : Request) : M (list Ev) string :=
  match fuel with
  | O => throw http_error
  | S fuel' =>
      t ← get;
      _ ← emit (Sent req);
      match answer t req with
      | Body b => mret b
      | Failed e => throw e
      | Moved code newurl =>
          new ← lift (follow redirect visited req code newurl);
          open_loop fuel' redirect (newurl :: visited) new
      end
  end.

Definition OPEN_FUEL : nat := S (MAX_REPEATS * MAX_REDIRECTIONS).
Definition urlopen : Request -> M (list Ev) string := open_loop OPEN_FUEL std_redirect_request [].

Definition releases_url (repo : string) (page : Z) : string :=
  API +:+ "/repos/" +:+ repo +:+ "/releases?per_page=100&page=" +:+ str_of_Z page.
Definition asset_url (repo : string) (asset_id : Z) : string :=
  API +:+ "/repos/" +:+ repo +:+ "/releases/assets/" +:+ str_of_Z asset_id.

(** One turn of the loop: a batch. *)
Definition list_page (repo token : string) (page : Z) : M (list Ev) (list Release) :=
  req ← lift (_request "GET" (releases_url repo page) token);
  b ← urlopen req;
  match json b with Some batch => mret batch | None => throw json_error end.

(** [None]: the fuel ran out with every batch full so far. *)
Fixpoint list_releases (fuel : nat) (repo token : string) (page : Z) (releases : list Release)
  : M (list Ev) (option (list Release)) :=
  match fuel with
  | O => mret None
  | S fuel' =>
      batch ← list_page repo token page;
      if (length batch <? 100)%nat then mret (Some (releases ++ batch))
      else list_releases fuel' repo token (page + 1) (releases ++ batch)
  end.

Definition delete_asset (repo token : string) (asset_id : Z) : M (list Ev) unit :=
  req ← lift (_request "DELETE" (asset_url repo asset_id) token);
  _ ← urlopen req; mret tt.

(** [iter(lambda: r.read(1 << 20), b"")]: reads until an empty one. *)
Fixpoint chunks (fuel : nat) (size : nat) (b : string) : list string :=
  match fuel with
  | O => []
  | S fuel' =>
      let c := String.substring 0 size b in
      if nonempty c then c :: chunks fuel' size (String.substring size (String.length b - size) b) else []
  end.

Definition hash_download (repo token : string) (asset_id : Z) : M (list Ev) string :=
  req ← lift (_request "GET" (asset_url repo asset_id) token);
  let req := add_header "Accept" "application/octet-stream" req in
  b ← open_loop OPEN_FUEL redirect_request [] req;
  mret (sha256 (String.concat "" (chunks (S (String.length b)) (Z.to_nat (Z.shiftl 1 20)) b))).

Record Args := MkArgs { ar_repo : string; ar_out : string; ar_keep : Z; ar_prune : bool }.

Definition has_sha (w : Wheel) : bool := match wh_sha256 w with Some h => nonempty h | None => false end.

Fixpoint resolve (repo token : string) (kept : list Wheel) : M (list Ev) (list Wheel) :=
  match kept with
  | [] => mret []
  | w :: rest =>
      w' ← (if has_sha w then mret w
            else h ← hash_download repo token (wh_asset_id w);
                 mret (MkWheel (wh_filename w) (wh_project w) (wh_version w) (wh_url w) (Some h)
                         (wh_asset_id w) (wh_release w)));
      rest' ← resolve repo token rest;
      mret (w' :: rest')
  end.

Definition prune_one (repo token : string) (w : Wheel) : M (list Ev) unit :=
  _ ← emit (Printed ("prune " +:+ wh_release w +:+ "/" +:+ wh_filename w));
  delete_asset repo token (wh_asset_id w).

Definition write_page (out : string) (p : string * string) : M (list Ev) unit :=
  t ← get;
  let path := out +:+ "/" +:+ p.1 in
  match fs_error t path with
  | Some e => throw e
  | None => emit (Wrote path p.2)
  end.

(** [main], after the arguments are parsed; [None] as for [list_releases]. *)
Definition main (fuel : nat) (gh_token github_token : option string) (args : Args)
  : M (list Ev) (option Z) :=
  let token := match gh_token with
               | Some t => if nonempty t then t else default "" github_token
               | None => default "" github_token end in
  if negb (nonempty token) then
    _ ← emit (PrintedErr "publish_index: GH_TOKEN is required"); mret (Some 2)
  else
    listed ← list_releases fuel (ar_repo args) token 1 [];
    match listed with
    | None => mret None
    | Some releases =>
        let wheels := wheels_from_releases releases in
        let '(kept, pruned) := split_pruned enum wheels (ar_keep args) in
        _ ← whenM (ar_prune args) (forM_ pruned (prune_one (ar_repo args) token));
        resolved ← resolve (ar_repo args) token (if ar_prune args then kept else wheels);
        tables ← lift pyprojects;
        _ ← forM_ (render resolved (requires_python tables)) (write_page (ar_out args));
        _ ← emit (Printed ("index: " +:+ str_of_Z (Z.of_nat (length resolved)) +:+ " wheels, "
                           +:+ str_of_Z (Z.of_nat (length pruned)) +:+ " pruned -> " +:+ ar_out args));
        mret (Some 0)
    end.

(** ** Facts: what a run adds to the trace *)

(** Every event a run adds satisfies [P]. *)
Definition adds (P : Ev -> Prop) (t t' : list Ev) : Prop := exists l, t' = t ++ l /\ Forall P l.

#[export] Instance adds_preorder P : PreOrder (adds P).
Proof.
  split.
  - intros t. exists []. by rewrite app_nil_r.
  - intros t1 t2 t3 (l & -> & Hl) (l' & -> & Hl'). exists (l ++ l'). rewrite app_assoc.
    split; [done|]. by apply Forall_app.
Qed.

Lemma emit_adds (P : Ev -> Prop) e : P e -> preserves (adds P) (emit e).
Proof. intros H t. exists [e]. split; [done|]. by constructor. Qed.
Hint Resolve emit_adds : preserve.

(** An invariant of requests that redirects keep holds of all that is sent. *)
Lemma open_adds (P : Request -> Prop) (Q : Ev -> Prop) redirect :
  (forall r, P r -> Q (Sent r)) ->
  (forall r code u r', P r -> redirect r code u = Ok r' -> P r') ->
  forall fuel visited r, P r -> preserves (adds Q) (open_loop fuel redirect visited r).
Proof.
  intros HQ Hred fuel. induction fuel as [|fuel IH]; intros visited r Hr; cbn [open_loop]; [preserve|].
  apply preserves_bind; [apply _|preserve|]. intros t.
  apply preserves_bind; [apply _|by apply emit_adds, HQ|]. intros _.
  destruct (answer t r) as [b|code u|e]; [preserve| |preserve].
  destruct (follow redirect visited r code u) as [new|e] eqn:E;
    [change (preserves (adds Q) (open_loop fuel redirect (u :: visited) new))
    |change (preserves (adds Q) (throw e : M (list Ev) string)); preserve].
  apply IH. unfold follow, mbind, res_bind in E. destruct (negb _); [done|].
  destruct (redirect r code u) as [n|e] eqn:Er; [|done].
  destruct (_ && _); [done|]. injection E as <-. by eapply Hred.
Qed.

(** The token goes to the API host only: once a redirect leaves that host it is
    gone, and no later redirect brings it back. *)
Definition token_home (r : Request) : Prop :=
  is_Some (rq_headers r !! "Authorization") -> netloc (rq_url r) = "api.github.com".

Lemma redirect_keeps_home r code u r' :
  token_home r -> redirect_request r code u = Ok r' -> token_home r'.
Proof.
  intros Hr. unfold redirect_request, std_redirect_request, token_home.
  destruct (negb _); [done|]. cbn. case_bool_decide as Hn; intros [= <-]; cbn.
  - rewrite lookup_delete_eq. by intros [? [=]].
  - rewrite !lookup_delete_ne by done. intros H. rewrite Hn. by apply Hr.
Qed.

Definition sent_home (e : Ev) : Prop := match e with Sent r => token_home r | _ => True end.

Theorem hash_keeps_token repo token id : preserves (adds sent_home) (hash_download repo token id).
Proof.
  unfold hash_download, _request.
  assert (String.prefix "https://" (asset_url repo id) = true) as -> by done. cbn [negb].
  match goal with |- preserves _ (lift (Ok ?r) ≫= ?k) => change (preserves (adds sent_home) (k r)) end.
  cbv beta zeta. apply preserves_bind; [apply _| |intros b; preserve].
  apply (open_adds token_home); [done|apply redirect_keeps_home|]. by intros _.
Qed.

(** ** Facts: redirects end *)

Lemma filter_split_length {A} (f : A -> bool) (l : list A) :
  length l = (length (List.filter f l) + length (List.filter (fun x => negb (f x)) l))%nat.
Proof. induction l as [|a l IH]; simpl; [done|]. destruct (f a); simpl; lia. Qed.

Lemma filter_filter_le {A} (f g : A -> bool) (l : list A) :
  (length (List.filter f (List.filter g l)) <= length (List.filter f l))%nat.
Proof. induction l as [|a l IH]; simpl; [done|]. destruct (g a); simpl; destruct (f a); simpl; lia. Qed.

(** A list over [k] names with at most [n] of each has at most [n * k] entries. *)
Lemma bounded_times n (names : list string) : forall l,
  (forall x, x ∈ l -> x ∈ names) -> (forall x, times x l <= n)%nat -> (length l <= n * length names)%nat.
Proof.
  induction names as [|x names IH]; intros l Hin Hn.
  - destruct l as [|y l]; [simpl; lia|]. destruct (not_elem_of_nil y). apply Hin. constructor.
  - rewrite (filter_split_length (fun v => bool_decide (v = x)) l).
    pose proof (Hn x) as Hx. unfold times in Hx.
    assert (length (List.filter (fun v => negb (bool_decide (v = x))) l) <= n * length names)%nat; [|simpl; lia].
    apply IH.
    + intros y Hy. rewrite list_elem_of_In, List.filter_In in Hy. destruct Hy as [Hy Hd].
      apply list_elem_of_In, Hin, elem_of_cons in Hy as [->|Hy]; [|done].
      by rewrite bool_decide_eq_true_2 in Hd.
    + intros y. etrans; [apply filter_filter_le|apply Hn].
Qed.

Definition visited_ok (visited : list string) : Prop :=
  (forall x, times x visited <= MAX_REPEATS)%nat /\ (length (remove_dups visited) <= MAX_REDIRECTIONS)%nat.

Lemma visited_bound visited : visited_ok visited -> (length visited < OPEN_FUEL)%nat.
Proof.
  intros [Hr Hd]. pose proof (bounded_times MAX_REPEATS (remove_dups visited) visited) as H.
  specialize (H ltac:(intros x; by rewrite elem_of_remove_dups) Hr).
  unfold OPEN_FUEL, MAX_REPEATS, MAX_REDIRECTIONS in *. lia.
Qed.

Lemma follow_visited redirect visited r code u new :
  visited_ok visited -> follow redirect visited r code u = Ok new -> visited_ok (u :: visited).
Proof.
  intros [Hr Hd]. unfold follow, mbind, res_bind. destruct (negb _); [done|].
  destruct (redirect r code u); [|done].
  destruct (bool_decide (visited <> [])) eqn:Ev; cbn [andb].
  - destruct (Nat.leb_spec MAX_REPEATS (times u visited)) as [|H1]; [done|].
    destruct (Nat.leb_spec MAX_REDIRECTIONS (length (remove_dups visited))) as [|H2]; [done|].
    clear Ev. intros _. split.
    + intros x. unfold times. simpl. case_bool_decide; [|apply Hr].
      subst x. simpl. fold (times u visited). lia.
    + simpl. case_decide; simpl; lia.
  - apply bool_decide_eq_false in Ev; apply dec_stable in Ev as ->. intros _. unfold visited_ok, MAX_REPEATS, MAX_REDIRECTIONS. split.
    + intros x. unfold times. simpl. case_bool_decide; simpl; lia.
    + simpl. lia.
Qed.

(** The fuel of [urlopen] is enough: no redirect chain, however the hosts
    answer, is longer than the handler's own limits allow. *)
Theorem open_terminates redirect extra : forall fuel visited r t,
  visited_ok visited -> (OPEN_FUEL <= fuel + length visited)%nat ->
  open_loop (fuel + extra) redirect visited r t = open_loop fuel redirect visited r t.
Proof.
  induction fuel as [|fuel IH]; intros visited r t Hv Hf.
  - pose proof (visited_bound _ Hv). simpl in Hf. lia.
  - cbn [open_loop Nat.add]. run_monad. unfold emit. run_monad. destruct (answer t r) as [b|code u|e]; try done.
    destruct (follow redirect visited r code u) as [new|e] eqn:E; [|done].
    apply IH; [by eapply follow_visited|]. simpl. lia.
Qed.

(** ** Facts: hashing *)

Lemma substring_whole s : forall n, (String.length s <= n)%nat -> String.substring 0 n s = s.
Proof.
  induction s as [|a s IH]; intros [|n] H; simpl in *; try done; [lia|]. f_equal. apply IH. lia.
Qed.

Lemma substring_split s : forall n,
  String.substring 0 n s +:+ String.substring n (String.length s - n) s = s.
Proof.
  induction s as [|a s IH]; intros [|n]; simpl; try done.
  - by rewrite string_app_nil, substring_whole.
  - rewrite string_app_cons. f_equal. apply IH.
Qed.

Lemma concat_nil_cons c l : String.concat "" (c :: l) = c +:+ String.concat "" l.
Proof.
  destruct l; simpl; [|done]. induction c as [|a c IH]; [done|].
  by rewrite string_app_cons, <- IH.
Qed.

(** Reading in chunks hashes the whole body. *)
Theorem chunks_whole size : (0 < size)%nat -> forall fuel b,
  (String.length b < fuel)%nat -> String.concat "" (chunks fuel size b) = b.
Proof.
  intros Hs fuel. induction fuel as [|fuel IH]; intros b Hf; [lia|]. cbn [chunks]. cbv zeta.
  destruct b as [|a b]; [by destruct size|]. destruct size as [|size]; [lia|].
  assert (nonempty (String.substring 0 (S size) (String a b)) = true) as -> by done.
  rewrite concat_nil_cons, IH; [apply substring_split|].
  pose proof (f_equal String.length (substring_split (String a b) (S size))) as H.
  rewrite string_length_app in H. simpl in H, Hf |- *. lia.
Qed.

(** ** Facts: listing *)

(** When GitHub serves full pages and then a short one, every release of every
    page is listed, in order, whatever the number of pages. *)
Theorem list_releases_all repo token : forall (pages : list (list Release)) last page acc t,
  Forall (fun b => length b = 100%nat) pages -> (length last < 100)%nat ->
  (forall k b, (pages ++ [last]) !! k = Some b ->
     forall t, (list_page repo token (page + Z.of_nat k) t).1 = Ok b) ->
  forall fuel, (length pages < fuel)%nat ->
  (list_releases fuel repo token page acc t).1 = Ok (Some (acc ++ mjoin pages ++ last)).
Proof.
  induction pages as [|b pages IH]; intros last page acc t Hfull Hlast Hserve fuel Hfuel;
    (destruct fuel as [|fuel]; [simpl in Hfuel; lia|]); cbn [list_releases]; run_monad.
  - specialize (Hserve 0%nat last eq_refl t). rewrite Z.add_0_r in Hserve.
    destruct (list_page repo token page t) as [r t']. simpl in Hserve. subst r.
    destruct (Nat.ltb_spec (length last) 100); [done|lia].
  - pose proof (Hserve 0%nat b eq_refl t) as H0. rewrite Z.add_0_r in H0.
    destruct (list_page repo token page t) as [r t']. simpl in H0. subst r.
    apply Forall_cons in Hfull as [Hb Hfull]. rewrite Hb. cbn [Nat.ltb Nat.leb].
    rewrite (IH last); [|done|done| |simpl in Hfuel; lia].
    + simpl. by rewrite <- !app_assoc.
    + intros k b' Hk t2. specialize (Hserve (S k) b' Hk t2). by replace (page + 1 + Z.of_nat k) with (page + Z.of_nat (S k)) by lia.
Qed.

(** ** Facts: the run *)

(** What the run deletes on GitHub. *)
Definition deletes (repo : string) (ids : list Z) (e : Ev) : Prop :=
  match e with
  | Sent r => rq_method r = "DELETE" -> exists id, id ∈ ids /\ rq_url r = asset_url repo id
  | _ => True
  end.

Lemma std_redirect_get r code u r' :
  std_redirect_request r code u = Ok r' -> rq_method r' <> "DELETE".
Proof.
  unfold std_redirect_request. destruct (negb _); [done|]. intros [= <-]. simpl. by case_bool_decide.
Qed.

Lemma redirect_get r code u r' : redirect_request r code u = Ok r' -> rq_method r' <> "DELETE".
Proof.
  unfold redirect_request, mbind, res_bind.
  destruct (std_redirect_request r code u) as [n|] eqn:E; [|done]. apply std_redirect_get in E.
  by case_bool_decide; intros [= <-].
Qed.

Lemma request_ok method url token :
  String.prefix "https://" url = true ->
  exists r, _request method url token = Ok r /\ rq_method r = method /\ rq_url r = url.
Proof. intros H. unfold _request. rewrite H. eexists. by split_and!. Qed.

(** The reading part of the run sends nothing but GETs: it keeps any trace
    property that allows them. *)
Section Reads.
Context (Q : Ev -> Prop) (HQ : forall r, rq_method r <> "DELETE" -> Q (Sent r)).

Lemma get_adds redirect fuel visited r :
  (forall r code u r', redirect r code u = Ok r' -> rq_method r' <> "DELETE") -> rq_method r <> "DELETE" ->
  preserves (adds Q) (open_loop fuel redirect visited r).
Proof.
  intros Hred Hr. by apply (open_adds (fun r => rq_method r <> "DELETE")); [|intros; eapply Hred|].
Qed.

Lemma list_page_adds repo token page : preserves (adds Q) (list_page repo token page).
Proof.
  unfold list_page. destruct (request_ok "GET" (releases_url repo page) token) as (r & -> & Hm & _); [done|].
  match goal with |- preserves ?R (lift (Ok ?r) ≫= ?k) => change (preserves R (k r)) end. cbv beta.
  apply preserves_bind; [apply _| |intros b; preserve].
  apply get_adds; [apply std_redirect_get|by rewrite Hm].
Qed.

Lemma list_releases_adds repo token fuel : forall page acc,
  preserves (adds Q) (list_releases fuel repo token page acc).
Proof.
  induction fuel as [|fuel IH]; intros page acc; cbn [list_releases]; [preserve|].
  apply preserves_bind; [apply _|apply list_page_adds|]. intros b. destruct (_ <? _)%nat; [preserve|apply IH].
Qed.

Lemma hash_adds repo token id : preserves (adds Q) (hash_download repo token id).
Proof.
  unfold hash_download. destruct (request_ok "GET" (asset_url repo id) token) as (r & -> & Hm & _); [done|].
  match goal with |- preserves ?R (lift (Ok ?r) ≫= ?k) => change (preserves R (k r)) end. cbv beta zeta.
  apply preserves_bind; [apply _| |intros b; preserve].
  apply get_adds; [apply redirect_get|simpl; by rewrite Hm].
Qed.

Lemma resolve_adds repo token l : preserves (adds Q) (resolve repo token l).
Proof.
  induction l as [|w l IH]; cbn [resolve]; [preserve|].
  apply preserves_bind; [apply _| |intros w'; apply preserves_bind; [apply _|apply IH|intros; preserve]].
  destruct (has_sha w); [preserve|].
  apply preserves_bind; [apply _|apply hash_adds|intros; preserve].
Qed.
End Reads.

Lemma get_deletes repo ids r : rq_method r <> "DELETE" -> deletes repo ids (Sent r).
Proof. by intros H1 H2. Qed.

Lemma prune_deletes repo token ids w :
  wh_asset_id w ∈ ids -> preserves (adds (deletes repo ids)) (prune_one repo token w).
Proof.
  intros Hw. unfold prune_one, delete_asset.
  apply preserves_bind; [apply _|by apply emit_adds|intros _].
  destruct (request_ok "DELETE" (asset_url repo (wh_asset_id w)) token) as (r & -> & Hm & Hu); [done|].
  match goal with |- preserves ?R (lift (Ok ?r) ≫= ?k) => change (preserves R (k r)) end. cbv beta.
  apply preserves_bind; [apply _| |intros; preserve].
  apply (open_adds (fun r => rq_method r = "DELETE" -> rq_url r = asset_url repo (wh_asset_id w))).
  - intros r' H1 H2. eauto.
  - intros r1 code u r2 _ H%std_redirect_get Hd. done.
  - done.
Qed.

Lemma write_deletes repo ids out p : preserves (adds (deletes repo ids)) (write_page out p).
Proof. unfold write_page. preserve. by apply emit_adds. Qed.

Definition pruned_ids (args : Args) (releases : list Release) : list Z :=
  if ar_prune args then wh_asset_id <$> (split_pruned enum (wheels_from_releases releases) (ar_keep args)).2
  else [].

(** Whatever GitHub, the redirect targets and the file system answer, and
    wherever the run fails, it asks only for the deletion of pruned development
    builds, and of none without [--prune]. *)
Theorem main_deletes_pruned fuel gh github args t :
  exists ids, adds (deletes (ar_repo args) ids) t (main fuel gh github args t).2 /\
    (ids = [] \/ exists token t' releases,
       list_releases fuel (ar_repo args) token 1 [] t = (Ok (Some releases), t') /\
       ids = pruned_ids args releases).
Proof.
  unfold main. set (token := match gh with Some _ => _ | None => _ end). destruct (negb (nonempty token)).
  { exists []. split; [|by left]. apply preserves_bind; [apply _|by apply emit_adds|intros; preserve]. }
  unfold mbind at 1, M_bind at 1.
  pose proof (fun ids => list_releases_adds _ (get_deletes (ar_repo args) ids) (ar_repo args) token fuel 1 [] t) as Hl.
  destruct (list_releases fuel (ar_repo args) token 1 [] t) as [[[releases|]|e] t'] eqn:El;
    [|by exists []; split; [apply Hl|left]..].
  exists (pruned_ids args releases). split; [|right; eauto]. etrans; [apply Hl|]. unfold pruned_ids.
  destruct (split_pruned enum (wheels_from_releases releases) (ar_keep args)) as [kept pruned].
  match goal with |- adds ?P _ ((?m) t').2 => apply (fun H : preserves (adds P) m => H t') end.
  apply preserves_bind; [apply _| |intros _].
  { destruct (ar_prune args); simpl; [|preserve]. apply preserves_forM; [apply _|]. intros w Hw.
    apply prune_deletes, list_elem_of_fmap. eauto. }
  apply preserves_bind; [apply _|apply resolve_adds, get_deletes|intros res].
  apply preserves_bind; [apply _|preserve|intros tables].
  apply preserves_bind; [apply _|apply preserves_forM; [apply _|intros; apply write_deletes]|intros _].
  apply preserves_bind; [apply _|by apply emit_adds|intros; preserve].
Qed.

(** *** The index written *)

Definition quiet (e : Ev) : Prop := match e with Wrote _ _ => False | _ => True end.

Lemma prune_quiet repo token w : preserves (adds quiet) (prune_one repo token w).
Proof.
  unfold prune_one, delete_asset. apply preserves_bind; [apply _|by apply emit_adds|intros _].
  apply preserves_bind; [apply _|preserve|intros r].
  apply preserves_bind; [apply _|by apply (open_adds (fun _ => True))|intros; preserve].
Qed.

Lemma write_pages_trace out pages : forall t t',
  forM_ pages (write_page out) t = (Ok tt, t') ->
  t' = t ++ ((fun p => Wrote (out +:+ "/" +:+ p.1) p.2) <$> pages).
Proof.
  induction pages as [|p pages IH]; intros t t'; cbn [forM_]; run_monad.
  - intros [= <-]. by rewrite app_nil_r.
  - unfold write_page, emit. run_monad. destruct (fs_error t _); [done|]. intros H%IH. subst t'.
    by rewrite <- app_assoc.
Qed.

(** The same wheels, each with a hash. *)
Definition resolves (w w' : Wheel) : Prop :=
  has_sha w = true /\ w' = w \/
  has_sha w = false /\ exists h, w' = MkWheel (wh_filename w) (wh_project w) (wh_version w) (wh_url w)
                                      (Some h) (wh_asset_id w) (wh_release w).

Lemma resolve_spec repo token l : forall t l' t',
  resolve repo token l t = (Ok l', t') -> Forall2 resolves l l'.
Proof.
  induction l as [|w l IH]; intros t l' t'; cbn [resolve]; run_monad; [intros [= <- <-]; constructor|].
  destruct (has_sha w) eqn:Es.
  - destruct (resolve repo token l t) as [[r|] t2] eqn:E; [|done]. intros [= <- <-].
    constructor; [by left|]. by eapply IH.
  - destruct (hash_download repo token (wh_asset_id w) t) as [[h|] t1]; [|done].
    destruct (resolve repo token l t1) as [[r|] t2] eqn:E; [|done]. intros [= <- <-].
    constructor; [right; eauto|]. by eapply IH.
Qed.

(** A run that ends well wrote the pages of the wheels it keeps (all of them
    without [--prune]), each with a hash, and nothing else. *)
Theorem main_writes_index fuel gh github args t t' :
  main fuel gh github args t = (Ok (Some 0), t') ->
  exists token releases t1 resolved tables before,
    list_releases fuel (ar_repo args) token 1 [] t = (Ok (Some releases), t1) /\
    pyprojects = Ok tables /\
    Forall2 resolves
      (if ar_prune args then (split_pruned enum (wheels_from_releases releases) (ar_keep args)).1
       else wheels_from_releases releases) resolved /\
    Forall quiet before /\
    exists last, t' = t ++ before ++ ((fun p => Wrote (ar_out args +:+ "/" +:+ p.1) p.2)
                              <$> render resolved (requires_python tables)) ++ [Printed last].
Proof.
  unfold main. set (token := match gh with Some _ => _ | None => _ end). destruct (negb (nonempty token)); [done|].
  unfold mbind at 1, M_bind at 1.
  assert (Hq : forall r, rq_method r <> "DELETE" -> quiet (Sent r)) by done.
  pose proof (list_releases_adds _ Hq (ar_repo args) token fuel 1 [] t) as Hl.
  destruct (list_releases fuel (ar_repo args) token 1 [] t) as [[[releases|]|e] t1] eqn:El; [|done..].
  destruct (split_pruned enum (wheels_from_releases releases) (ar_keep args)) as [kept pruned] eqn:Ep.
  unfold mbind at 1, M_bind at 1.
  assert (Hp : preserves (adds quiet) (whenM (ar_prune args) (forM_ pruned (prune_one (ar_repo args) token)))).
  { apply preserves_when; [apply _|]. apply preserves_forM; [apply _|]. intros; apply prune_quiet. }
  specialize (Hp t1). destruct (whenM _ _ t1) as [[[]|e] t2]; [|done].
  unfold mbind at 1, M_bind at 1.
  pose proof (resolve_adds _ Hq (ar_repo args) token (if ar_prune args then kept else wheels_from_releases releases) t2) as Hr.
  destruct (resolve _ _ _ t2) as [[resolved|e] t3] eqn:Er; [|done].
  unfold mbind at 1, M_bind at 1. destruct pyprojects as [tables|e] eqn:Ey; cbn [lift]; [|done].
  unfold mbind at 1, M_bind at 1. destruct (forM_ _ _ t3) as [[[]|e] t4] eqn:Ew; [|done].
  unfold emit. run_monad. intros [= <-].
  assert (Hb : adds quiet t t3) by (etrans; [exact Hl|]; etrans; [exact Hp|exact Hr]).
  destruct Hb as (before & -> & Hb). apply write_pages_trace in Ew as ->.
  exists token, releases, t1, resolved, tables, before. split_and!; [done|done| |done|].
  - apply resolve_spec in Er. destruct (ar_prune args); [|done]. by rewrite Ep.
  - eexists. rewrite <- !app_assoc. done.
Qed.
End Run.

Module PublishSample.
(** A release with one build, listed on the first page; its asset is hashed
    through a redirect to another host, which gets no token. *)
Definition asset : Asset := MkAsset "rithmic_gateway-0.1.0.dev9-py3-none-any.whl" None "https://x" 7.
Definition serve (t : list Ev) (r : Request) : Reply :=
  if String.prefix "https://store/" (rq_url r) then
    match rq_headers r !! "Authorization" with Some _ => Failed http_error | None => Body "wheel" end
  else if bool_decide (rq_url r = asset_url "o/n" 7) then Moved 302 "https://store/7"
  else Body "page".
Definition pages (b : string) : option (list Release) := Some [MkRelease false "v1" [asset]].
Definition run : res (option Z) * list Ev :=
  main serve pages (fun b => "sha-" +:+ b) (fun _ _ => None) (Ok []) elements 5 (Some "tok") None
    (MkArgs "o/n" "site" 30 true) [].

Example run_indexes :
  run.1 = Ok (Some 0) /\
  omap (fun e => match e with Wrote p _ => Some p | _ => None end) run.2 =
    ["site/simple/index.html"; "site/simple/rithmic-gateway/index.html"] /\
  omap (fun e => match e with Sent r => Some (rq_url r, rq_headers r !! "Authorization") | _ => None end) run.2 =
    [(releases_url "o/n" 1, Some "Bearer tok"); (asset_url "o/n" 7, Some "Bearer tok"); ("https://store/7", None)].
Proof. vm_compute. done. Qed.
End PublishSample.
