(* ===== verification/IdleExit.v ===== *)
(** * The parent's idle exit ([rithmic-gateway/src/idle_exit.rs])

    A parent started with [RITHMIC_GATEWAY_IDLE_EXIT_SEC] ends when its last
    client has been gone for the grace.  Connections attach and detach on their
    own tasks; one waiter task watches the deadline.

    The model is a step machine.  A step is one section under the mutex, one
    [notify_waiters] (which comes after the mutex is released, so other tasks may
    run in between), one turn of the waiter between two of its suspension points,
    or the passing of time.  [notify_waiters] stores no permit: it wakes only a
    waiter that has registered.  [ix_attached] is a ghost: the connections that
    attached and have not yet detached. *)

From Stdlib Require Import Ascii String.
From stdpp Require Import base strings list relations.
From Stdlib Require Import ZArith Lia.
From S2P Require Import Prelude PyVal.
Import Text.
Open Scope string_scope.
Open Scope list_scope.
Open Scope Z_scope.

Definition USIZE_MAX : Z := 2 ^ 64 - 1.
Definition I64_MAX : Z := 2 ^ 63 - 1.

Inductive IdleExitPolicy := Never | After (grace : Z).
#[export] Instance IdleExitPolicy_eq_dec : EqDecision IdleExitPolicy.
Proof. solve_decision. Defined.

(** [str::parse::<i64>]: an optional sign and digits, within the width. *)
Definition parse_i64 (s : string) : option Z :=
  let body z := if (- I64_MAX - 1 <=? z) && (z <=? I64_MAX) then Some z else None in
  let digits t := if sall is_digit t then digits_value 0 false t else None in
  match s with
  | String "-" t => digits t ≫= fun z => body (- z)
  | String "+" t => digits t ≫= body
  | t => digits t ≫= body
  end.

(** [parse_idle_exit_sec]; seconds.  [None]: refused. *)
Definition parse_idle_exit_sec (raw : option string) : option IdleExitPolicy :=
  match raw with
  | None => Some Never
  | Some r =>
      let s := trim r in
      if negb (nonempty s) then Some Never
      else match parse_i64 s with
           | None => None
           | Some n => Some (if n <? 0 then Never else After n)
           end
  end.

(** Where the waiter stands in [wait_until_should_exit]. *)
Inductive Waiter :=
  | WTop                    (* about to register for the wakeup *)
  | WRegistered             (* registered, about to read the deadline *)
  | WAwait                  (* [notified.await]: no deadline was armed *)
  | WSleep (until : Z)      (* [select!] of the deadline and the wakeup *)
  | WClaim                  (* the deadline has passed: about to take the lock *)
  | WExited                 (* returned *)
  | WForever.               (* [pending()]: the policy is [Never] *)

Record IdleExit := MkIdleExit {
  ix_policy : IdleExitPolicy;
  ix_peers : Z;
  ix_deadline : option Z;
  ix_shutting_down : bool;
  ix_now : Z;
  ix_waiter : Waiter;
  ix_woken : bool;          (* the registered wakeup has fired *)
  ix_unsent : nat;          (* [notify_waiters] calls still to be made *)
  ix_attached : Z
}.

Definition idle_new (policy : IdleExitPolicy) (now : Z) : IdleExit :=
  MkIdleExit policy 0 None false now (if decide (policy = Never) then WForever else WTop) false 0 0.

(** The section of [peer_attached] under the lock; the notify follows. *)
Definition peer_attached (s : IdleExit) : bool * IdleExit :=
  if ix_shutting_down s then (false, s)
  else (true, MkIdleExit (ix_policy s) (Z.min USIZE_MAX (ix_peers s + 1)) None (ix_shutting_down s)
                (ix_now s) (ix_waiter s) (ix_woken s) (S (ix_unsent s)) (ix_attached s + 1)).

(** The section of [peer_detached] under the lock. *)
Definition peer_detached (s : IdleExit) : IdleExit :=
  let peers := Z.max 0 (ix_peers s - 1) in
  let deadline :=
    if peers =? 0 then match ix_policy s with
                       | After grace => Some (ix_now s + grace)
                       | Never => ix_deadline s
                       end
    else ix_deadline s in
  MkIdleExit (ix_policy s) peers deadline (ix_shutting_down s) (ix_now s) (ix_waiter s)
    (ix_woken s) (S (ix_unsent s)) (ix_attached s - 1).

Definition registered (w : Waiter) : bool :=
  match w with WRegistered | WAwait | WSleep _ | WClaim => true | _ => false end.

(** [notify_waiters]. *)
Definition notify_waiters (s : IdleExit) : IdleExit :=
  MkIdleExit (ix_policy s) (ix_peers s) (ix_deadline s) (ix_shutting_down s) (ix_now s) (ix_waiter s)
    (ix_woken s || registered (ix_waiter s)) (Nat.pred (ix_unsent s)) (ix_attached s).

Definition at_ (w : Waiter) (woken : bool) (s : IdleExit) : IdleExit :=
  MkIdleExit (ix_policy s) (ix_peers s) (ix_deadline s) (ix_shutting_down s) (ix_now s) w woken
    (ix_unsent s) (ix_attached s).

(** The claim, under the lock: a peer or a later deadline sends the waiter round
    the loop again. *)
Definition claim (s : IdleExit) : IdleExit :=
  let disarm w down :=
    MkIdleExit (ix_policy s) (ix_peers s) None down (ix_now s) w false (ix_unsent s) (ix_attached s) in
  if negb (ix_peers s =? 0) then disarm WTop (ix_shutting_down s)
  else match ix_deadline s with
       | Some d => if d <=? ix_now s then disarm WExited true else at_ WTop false s
       | None => at_ WTop false s
       end.

(** One turn of the waiter; [None] while it is suspended or done. *)
Definition waiter_turn (s : IdleExit) : option IdleExit :=
  match ix_waiter s with
  | WTop => Some (at_ WRegistered false s)
  | WRegistered =>
      Some (match ix_deadline s with
            | None => at_ WAwait (ix_woken s) s
            | Some d => if ix_now s <? d then at_ (WSleep d) (ix_woken s) s
                        else at_ WClaim (ix_woken s) s
            end)
  | WAwait => if ix_woken s then Some (at_ WTop false s) else None
  | WSleep d => if ix_woken s || (d <=? ix_now s) then Some (at_ WTop false s) else None
  | WClaim => Some (claim s)
  | WExited | WForever => None
  end.

Definition tick (d : Z) (s : IdleExit) : IdleExit :=
  MkIdleExit (ix_policy s) (ix_peers s) (ix_deadline s) (ix_shutting_down s) (ix_now s + d)
    (ix_waiter s) (ix_woken s) (ix_unsent s) (ix_attached s).

(** Only an attached connection detaches, once ([serve_connection_halves]); a
    count of connections never fills a [usize]. *)
Inductive istep : IdleExit -> IdleExit -> Prop :=
  | IAttach s : ix_attached s < USIZE_MAX -> istep s (peer_attached s).2
  | IDetach s : 0 < ix_attached s -> istep s (peer_detached s)
  | INotify s : (0 < ix_unsent s)%nat -> istep s (notify_waiters s)
  | IWaiter s s' : waiter_turn s = Some s' -> istep s s'
  | ITick s d : 0 <= d -> istep s (tick d s).

Definition ireach (policy : IdleExitPolicy) (now : Z) : IdleExit -> Prop :=
  rtc istep (idle_new policy now).

(** ** The invariant *)

Record idle_inv (s : IdleExit) : Prop := MkIdleInv {
  ii_count : ix_peers s = ix_attached s /\ 0 <= ix_attached s <= USIZE_MAX;
  (** A deadline is armed only while nobody is attached. *)
  ii_armed : is_Some (ix_deadline s) -> ix_attached s = 0 /\ ix_policy s <> Never;
  (** Shutting down is the waiter's return, with nobody attached, for good. *)
  ii_down : ix_shutting_down s = true <-> ix_waiter s = WExited;
  ii_gone : ix_waiter s = WExited -> ix_attached s = 0;
  ii_never : ix_waiter s = WForever <-> ix_policy s = Never;
  (** No wakeup is lost: a waiter that sleeps on what it read has been, or will
      be, woken if the deadline has changed since. *)
  ii_await : ix_waiter s = WAwait -> ix_deadline s = None \/ ix_woken s = true \/ (0 < ix_unsent s)%nat;
  ii_sleep : forall d, ix_waiter s = WSleep d ->
    ix_deadline s = Some d \/ ix_woken s = true \/ (0 < ix_unsent s)%nat
}.

Lemma idle_new_inv policy now : idle_inv (idle_new policy now).
Proof.
  unfold idle_new. destruct (decide (policy = Never)); split; simpl; unfold USIZE_MAX; try done; try lia.
  all: intros [? [=]].
Qed.

Ltac idle_cases H :=
  destruct H as [[Hc Hb] Ha Hd Hg Hn Hw Hs]; split; simpl in *.

Lemma attach_inv s : idle_inv s -> ix_attached s < USIZE_MAX -> idle_inv (peer_attached s).2.
Proof.
  intros H Hlt. unfold peer_attached. destruct (ix_shutting_down s) eqn:Ed; [done|].
  idle_cases H; rewrite ?Hc in *.
  - lia.
  - by intros [? [=]].
  - by rewrite Ed in Hd.
  - intros E. apply Hd in E. congruence.
  - done.
  - intros _. right. right. lia.
  - intros d _. right. right. lia.
Qed.

Lemma detach_inv s : idle_inv s -> 0 < ix_attached s -> idle_inv (peer_detached s).
Proof.
  intros H Hlt. unfold peer_detached.
  idle_cases H; rewrite ?Hc in *.
  - lia.
  - destruct (Z.max 0 (ix_attached s - 1) =? 0) eqn:E0.
    + intros Hd0. split; [lia|]. destruct (ix_policy s) eqn:Ep; [|done].
      apply Ha in Hd0. lia.
    + intros Hd0. apply Ha in Hd0. lia.
  - done.
  - intros E. apply Hg in E. lia.
  - done.
  - intros _. right. right. lia.
  - intros d _. right. right. lia.
Qed.

Lemma notify_inv s : idle_inv s -> idle_inv (notify_waiters s).
Proof.
  intros H. unfold notify_waiters. idle_cases H; try done.
  - intros E. rewrite E. rewrite orb_true_r. auto.
  - intros d E. rewrite E. rewrite orb_true_r. auto.
Qed.

(** The waiter moves with the mutex state untouched. *)
Lemma at_inv s w woken :
  idle_inv s -> w <> WExited -> w <> WForever -> ix_waiter s <> WExited -> ix_waiter s <> WForever ->
  (w = WAwait -> ix_deadline s = None) -> (forall d, w = WSleep d -> ix_deadline s = Some d) ->
  idle_inv (at_ w woken s).
Proof.
  intros H Hx Hf Hx' Hf' H1 H2. unfold at_. idle_cases H; auto; try done.
  - split; [|done]. intros E. by apply Hd in E.
  - split; [done|]. intros E. by apply Hn in E.
Qed.

Lemma waiter_inv s s' : idle_inv s -> waiter_turn s = Some s' -> idle_inv s'.
Proof.
  intros H. unfold waiter_turn. destruct (ix_waiter s) eqn:Ew; try done.
  - intros [= <-]. apply at_inv; rewrite ?Ew; done.
  - intros [= <-]. destruct (ix_deadline s) as [d|] eqn:Ed.
    + destruct (ix_now s <? d); apply at_inv; rewrite ?Ew, ?Ed; try done. by intros ? [= ->].
    + apply at_inv; rewrite ?Ew, ?Ed; done.
  - destruct (ix_woken s); [|done]. intros [= <-]. apply at_inv; rewrite ?Ew; done.
  - destruct (_ || _); [|done]. intros [= <-]. apply at_inv; rewrite ?Ew; done.
  - intros [= <-]. unfold claim.
    assert (Ht : idle_inv (at_ WTop false s)) by (apply at_inv; rewrite ?Ew; done).
    assert (Hdn : ix_shutting_down s = false).
    { destruct (ix_shutting_down s) eqn:E; [|done]. apply (ii_down s H) in E. congruence. }
    destruct (negb _) eqn:E0.
    { destruct Ht as [? _ ? ? ? ? ?]. split; simpl in *; try done. }
    destruct (ix_deadline s) as [d|] eqn:Ed; [|done]. destruct (d <=? ix_now s); [|done].
    assert (Hp : ix_policy s <> Never) by (apply (ii_armed s H); rewrite Ed; eauto).
    destruct H as [[Hc Hb] _ _ _ _ _ _]. split; simpl; try done. intros _. lia.
Qed.

Lemma reach_step_inv s s' : idle_inv s -> istep s s' -> idle_inv s'.
Proof.
  intros H Hs. destruct Hs.
  - by apply attach_inv.
  - by apply detach_inv.
  - by apply notify_inv.
  - by eapply waiter_inv.
  - destruct H as [[Hc Hb] Ha Hd Hg Hn Hw Hsl]. by split.
Qed.

Lemma reach_inv policy now s : ireach policy now s -> idle_inv s.
Proof.
  unfold ireach. intros Hr. pose proof (idle_new_inv policy now) as H0.
  induction Hr as [|s0 s1 s2 Hs _ IH]; [done|]. apply IH. by eapply reach_step_inv.
Qed.

Lemma reach_policy policy now s : ireach policy now s -> ix_policy s = policy.
Proof.
  intros Hr. change policy with (ix_policy (idle_new policy now)). induction Hr as [|s0 s1 s2 Hs _ IH]; [done|].
  rewrite IH. destruct Hs as [s _|s _|s _|s s' Ht|s d _]; simpl; try done.
  - unfold peer_attached. by destruct (ix_shutting_down s).
  - revert Ht. unfold waiter_turn, claim. repeat case_match; by intros [= <-].
Qed.

(** ** Safety *)

(** The exit is final: the flag stays set, nobody is attached and nobody can
    attach. *)
Lemma exit_final s s' :
  idle_inv s -> ix_waiter s = WExited -> istep s s' ->
  ix_waiter s' = WExited /\ ix_attached s' = 0.
Proof.
  intros H Hx Hs. pose proof (ii_gone s H Hx) as Hz.
  assert (Hd : ix_shutting_down s = true) by (by apply (ii_down s H)).
  destruct Hs as [s _|s Hlt|s _|s s' Ht|s d _]; simpl.
  - unfold peer_attached. by rewrite Hd.
  - lia.
  - done.
  - unfold waiter_turn in Ht. by rewrite Hx in Ht.
  - done.
Qed.

Lemma exit_final_star s s' :
  idle_inv s -> ix_waiter s = WExited -> rtc istep s s' ->
  ix_waiter s' = WExited /\ ix_attached s' = 0.
Proof.
  intros H Hx Hr. revert H Hx. induction Hr as [s|s s1 s' Hs _ IH]; intros H Hx.
  - split; [done|]. by apply (ii_gone s H).
  - destruct (exit_final s s1 H Hx Hs) as [Hx1 _]. apply IH; [|done].
    apply (reach_step_inv s s1 H Hs).
Qed.

(** While nobody attaches nothing arms the exit, so the parent stays. *)
Definition quiet (s s' : IdleExit) : Prop := istep s s' /\ ix_attached s' = 0.

Lemma quiet_step s s' :
  idle_inv s -> ix_attached s = 0 -> ix_deadline s = None -> ix_waiter s <> WExited -> quiet s s' ->
  ix_deadline s' = None /\ ix_waiter s' <> WExited.
Proof.
  intros H Hz Hd Hx [Hs Hz'].
  assert (Hdown : ix_shutting_down s = false).
  { destruct (ix_shutting_down s) eqn:E; [|done]. by apply (ii_down s H) in E. }
  destruct Hs as [s _|s Hlt|s _|s s' Ht|s d _]; simpl in *; try done.
  - revert Hz'. unfold peer_attached. rewrite Hdown. simpl. lia.
  - lia.
  - revert Ht. unfold waiter_turn, claim. rewrite Hd. repeat case_match; by intros [= <-].
Qed.

Lemma never_attached_stays policy now s :
  rtc quiet (idle_new policy now) s -> ix_waiter s <> WExited.
Proof.
  assert (Hgen : forall s0, rtc quiet s0 s -> idle_inv s0 -> ix_attached s0 = 0 ->
    ix_deadline s0 = None -> ix_waiter s0 <> WExited -> ix_waiter s <> WExited).
  { intros s0 Hs. induction Hs as [|s0 s1 s Hst Hs IH]; [done|]. intros H Hz Hd Hx.
    destruct (quiet_step s0 s1 H Hz Hd Hx Hst). apply IH; try done; [|apply Hst].
    by eapply reach_step_inv; [|apply Hst]. }
  intros Hs. apply (Hgen _ Hs); [apply idle_new_inv|done|done|].
  simpl. by destruct (decide (policy = Never)).
Qed.

(** ** Liveness *)

Fixpoint waiter_run (turns : nat) (s : IdleExit) : IdleExit :=
  match turns with
  | O => s
  | S n => match waiter_turn s with Some s' => waiter_run n s' | None => s end
  end.

Lemma waiter_run_turn n s s' : waiter_turn s = Some s' -> waiter_run (S n) s = waiter_run n s'.
Proof. simpl. by intros ->. Qed.

Lemma waiter_run_exited n s : ix_waiter s = WExited -> ix_waiter (waiter_run n s) = WExited.
Proof. destruct n; simpl; [done|]. unfold waiter_turn. intros H. by rewrite H. Qed.

(** From any point of its loop, a waiter whose deadline has passed claims the
    exit, once the wakeups on their way have been sent. *)
Lemma waiter_claims s d :
  idle_inv s -> ix_deadline s = Some d -> d <= ix_now s -> ix_unsent s = O ->
  ix_waiter (waiter_run 4 s) = WExited.
Proof.
  intros H Hd Hle Hu. destruct (ii_armed s H ltac:(rewrite Hd; eauto)) as [Hz Hp].
  assert (Hpe : ix_peers s = 0) by (pose proof (ii_count s H); lia).
  assert (Hne : ix_waiter s <> WForever) by (intros E; by apply (ii_never s H) in E).
  assert (Hclaim : forall n w, ix_waiter (waiter_run (S n) (at_ WClaim w s)) = WExited).
  { intros n w. rewrite (waiter_run_turn _ (at_ WClaim w s) (claim (at_ WClaim w s)) eq_refl). apply waiter_run_exited. unfold claim, at_. simpl.
    rewrite Hpe, Hd. simpl. by rewrite (proj2 (Z.leb_le _ _) Hle). }
  assert (Hreg : forall n w, ix_waiter (waiter_run (S (S n)) (at_ WRegistered w s)) = WExited).
  { intros n w. rewrite (waiter_run_turn _ _ (at_ WClaim w s)); [apply Hclaim|].
    unfold waiter_turn, at_. simpl. by rewrite Hd, (proj2 (Z.ltb_ge _ _) Hle). }
  assert (Htop : forall n w, ix_waiter (waiter_run (S (S (S n))) (at_ WTop w s)) = WExited).
  { intros n w. rewrite (waiter_run_turn _ _ (at_ WRegistered false s)); [apply Hreg|done]. }
  assert (Heq : s = at_ (ix_waiter s) (ix_woken s) s) by (by destruct s).
  destruct (ix_waiter s) eqn:Ew; try done.
  - rewrite Heq. apply (Htop 1%nat).
  - rewrite Heq. apply (Hreg 2%nat).
  - destruct (ii_await s H Ew) as [E|[E|E]]; [congruence| |lia].
    rewrite (waiter_run_turn _ _ (at_ WTop false s)); [apply (Htop O)|].
    unfold waiter_turn. by rewrite Ew, E.
  - rewrite (waiter_run_turn _ _ (at_ WTop false s)); [apply (Htop O)|].
    unfold waiter_turn. rewrite Ew.
    destruct (ii_sleep s H _ Ew) as [E|[E|E]]; [|by rewrite E|lia].
    rewrite Hd in E. injection E as ->. by rewrite (proj2 (Z.leb_le _ _) Hle), orb_true_r.
  - rewrite Heq. apply (Hclaim 3%nat).
  - by apply waiter_run_exited.
Qed.

(** (C35) The parent leaves when it should, and only then: when it has ended no
    connection is attached, none can attach any more and that stays so; a parent
    without a grace never ends; the last detach arms the deadline one grace ahead;
    and once that deadline has passed with nobody back, the waiter ends the parent
    within four turns, wherever it was when the wakeups were sent, so no wakeup is
    lost between its reading and its sleeping. *)
Theorem idle_exit_correct policy now s :
  ireach policy now s ->
  (ix_waiter s = WExited ->
     policy <> Never /\ peer_attached s = (false, s) /\
     forall s', rtc istep s s' -> ix_waiter s' = WExited /\ ix_attached s' = 0) /\
  (forall grace, policy = After grace -> ix_attached s = 1 ->
     ix_deadline (peer_detached s) = Some (ix_now s + grace)) /\
  (forall d, ix_deadline s = Some d -> ix_attached s = 0 /\
     (d <= ix_now s -> ix_unsent s = O -> ix_waiter (waiter_run 4 s) = WExited)).
Proof.
  intros Hr. pose proof (reach_inv _ _ _ Hr) as H. pose proof (reach_policy _ _ _ Hr) as Hp. split_and!.
  - intros Hx. split_and!.
    + rewrite <- Hp. intros E. apply (ii_never s H) in E. congruence.
    + unfold peer_attached. by rewrite (proj2 (ii_down s H) Hx).
    + intros s' Hs. by eapply exit_final_star.
  - intros grace -> Ha. unfold peer_detached. pose proof (ii_count s H). simpl. rewrite Hp.
    by replace (Z.max 0 (ix_peers s - 1) =? 0) with true by lia.
  - intros d Hd. split; [by apply (ii_armed s H); rewrite Hd; eauto|].
    intros Hle Hu. by eapply waiter_claims.
Qed.

(** ** Samples *)

Module IdleSample.
(** One client for two seconds, a grace of five: the waiter sleeps until the
    deadline and claims the exit. *)
Definition started : IdleExit := idle_new (After 5) 0.
Definition waiting : IdleExit := waiter_run 2 started.
Definition served : IdleExit := notify_waiters (peer_attached waiting).2.
Definition left : IdleExit := notify_waiters (peer_detached (tick 2 served)).
Definition due : IdleExit := tick 5 (waiter_run 3 left).

Lemma turns_reach s n s' : waiter_run n s = s' -> rtc istep s s'.
Proof.
  intros <-. revert s. induction n as [|n IH]; intros s; simpl; [done|].
  destruct (waiter_turn s) eqn:E; [|done]. eapply rtc_l; [by apply IWaiter|apply IH].
Qed.

Lemma due_reach : ireach (After 5) 0 due.
Proof.
  unfold ireach. etransitivity; [by apply (turns_reach _ 2)|]. fold waiting.
  eapply rtc_l; [by apply IAttach|]. eapply rtc_l; [apply INotify; vm_compute; lia|]. fold served.
  eapply rtc_l; [by apply (ITick _ 2)|]. eapply rtc_l; [by apply IDetach|].
  eapply rtc_l; [apply INotify; vm_compute; lia|]. fold left.
  etransitivity; [by apply (turns_reach _ 3)|]. by apply rtc_once, (ITick _ 5).
Qed.

Lemma idle_exit_correct_witness : ix_waiter (waiter_run 4 due) = WExited.
Proof.
  apply (idle_exit_correct (After 5) 0 due due_reach) with (d := 7); [reflexivity|vm_compute; discriminate|reflexivity].
Defined.

(** The harness asks for an exit after 60 idle seconds; no client ever attached:
    the waiter never gets past waiting for a wakeup. *)
Lemma unattached_parent_stays :
  forall n, ix_waiter (waiter_run n (tick 1000000 (waiter_run 2 (idle_new (After 60) 0)))) = WAwait.
Proof. by intros [|n]. Qed.
End IdleSample.
