(* ===== verification/Delivery.v ===== *)
(** * Attachment queues of the host ([rithmic-host/src/local/delivery.rs])

    Every session attached to the host, native or behind the gateway socket, owns
    one [Delivery]: a bounded queue per stream that the publisher fills without
    waiting.  A queue that overflows drops its oldest records and owes its reader
    a gap of their exact number.  Records carry a sequence number, by which the
    gateway's writer merges the four queues and the recovery barriers.

    An operation below is one section under the queue's mutex; wakeups only decide
    when a reader comes back for another.  The [u64] sequence is unbounded. *)

From Stdlib Require Import Ascii String.
From stdpp Require Import base strings list functions sorting relations.
From Stdlib Require Import ZArith Lia.
From S2P Require Import Prelude.
Open Scope string_scope.
Open Scope list_scope.
Open Scope Z_scope.

(** ** Events ([streams.rs], [dto.rs], [fanout.rs]) *)

Inductive Stream := Ticker | History | Pnl | Order.
#[export] Instance Stream_eq_dec : EqDecision Stream.
Proof. solve_decision. Defined.

Definition ALL : list Stream := [Ticker; History; Pnl; Order].

(** A venue event, by what routing and accounting read of it; the rest of its
    fields is the payload. *)
Inductive PlantEvent :=
  | LastTrade (symbol exchange : option string) (payload : Z)
  | Bbo (symbol exchange : option string) (payload : Z)
  | OrderBook (symbol exchange : option string) (payload : Z)
  | TimeBar (symbol exchange : option string) (payload : Z)
  | AccountPnl (payload : Z)
  | InstrumentPnl (payload : Z)
  | OrderNotification (payload : Z)
  | BracketUpdate (payload : Z)
  | Gap (stream : Stream) (skipped : Z)
  | Other (payload : Z).
#[export] Instance PlantEvent_eq_dec : EqDecision PlantEvent.
Proof. solve_decision. Defined.

Definition stream_of (event : PlantEvent) : Stream :=
  match event with
  | TimeBar _ _ _ => History
  | AccountPnl _ | InstrumentPnl _ => Pnl
  | OrderNotification _ | BracketUpdate _ => Order
  | Gap stream _ => stream
  | _ => Ticker
  end.

(** A shared record: native, or already encoded for the wire (the bytes stand for
    their event), or a recovery barrier with the flush it acknowledges. *)
Inductive Fan :=
  | Native (event : PlantEvent)
  | Encoded (event : PlantEvent)
  | Flush (id : nat).

(** [Fan::event]. *)
Definition fan_event (f : Fan) : option PlantEvent :=
  match f with Native e => Some e | Encoded _ | Flush _ => None end.

Inductive Rec := Batch (events : list PlantEvent) | Shared (fan : Fan).
Definition rec_len (r : Rec) : Z :=
  match r with Batch es => Z.of_nat (length es) | Shared _ => 1 end.

Inductive Taken := Owned (event : PlantEvent) | TakenShared (fan : Fan).
Definition taken_event (t : Taken) : option PlantEvent :=
  match t with Owned e => Some e | TakenShared f => fan_event f end.

(** [into_fan]; [into_event] is [None] where the code panics. *)
Definition into_fan (t : Taken) : Fan :=
  match t with Owned e => Native e | TakenShared f => f end.
Definition into_event (t : Taken) : option PlantEvent := taken_event t.

(** ** One stream's queue *)

Record Queue := MkQueue {
  q_records : list (Z * Rec);
  q_len : Z;
  q_skipped : Z;
  q_gap_sequence : Z
}.
Definition empty_queue : Queue := MkQueue [] 0 0 0.

Definition head (q : Queue) : option Z :=
  if 0 <? q_skipped q then Some (q_gap_sequence q) else fst <$> List.head (q_records q).

(** [pop_record]; [None] when the queue is empty (or, impossibly, holds an empty
    batch). *)
Definition pop_record (q : Queue) : option (Z * Taken * Queue) :=
  match q_records q with
  | (first, Batch (e :: es)) :: rs =>
      Some (first, Owned e,
        MkQueue (match es with [] => rs | _ => (first + 1, Batch es) :: rs end)
          (q_len q - 1) (q_skipped q) (q_gap_sequence q))
  | (first, Shared f) :: rs =>
      Some (first, TakenShared f, MkQueue rs (q_len q - 1) (q_skipped q) (q_gap_sequence q))
  | _ => None
  end.

Definition pop (stream : Stream) (q : Queue) : option (Taken * Queue) :=
  if 0 <? q_skipped q
  then Some (Owned (Gap stream (q_skipped q)), MkQueue (q_records q) (q_len q) 0 (q_gap_sequence q))
  else match pop_record q with Some (_, t, q') => Some (t, q') | None => None end.

(** What a lost record adds to the gap. *)
Definition weight (t : Taken) : Z :=
  match taken_event t with Some (Gap _ skipped) => skipped | _ => 1 end.

(** The eviction loop of [push]. *)
Fixpoint evict (fuel : nat) (capacity : Z) (q : Queue) : Queue :=
  match fuel with
  | O => q
  | S fuel' =>
      if capacity <? q_len q then
        match pop_record q with
        | None => q
        | Some (sequence, lost, q') =>
            evict fuel' capacity
              (MkQueue (q_records q') (q_len q') (q_skipped q' + weight lost)
                 (if q_skipped q' =? 0 then sequence else q_gap_sequence q'))
        end
      else q
  end.

(** ** The attachment *)

Record Delivery := MkDelivery {
  d_capacity : Z;
  d_queues : Stream -> Queue;
  d_barriers : list (Z * Fan);
  d_sequence : Z;
  d_native_started : bool;
  d_closed : bool;
  d_transport : bool;
  d_flushes : nat               (* flush acknowledgements handed out *)
}.

Definition delivery_new (capacity : Z) : Delivery :=
  MkDelivery (Z.max 1 capacity) (fun _ => empty_queue) [] 0 false false false 0.
Definition new_transport (capacity : Z) : Delivery :=
  MkDelivery (Z.max 1 capacity) (fun _ => empty_queue) [] 0 false false true 0.

Definition with_queue (stream : Stream) (q : Queue) (d : Delivery) : Delivery :=
  MkDelivery (d_capacity d) (<[stream := q]> (d_queues d)) (d_barriers d) (d_sequence d)
    (d_native_started d) (d_closed d) (d_transport d) (d_flushes d).

Definition push (stream : Stream) (record : Rec) (d : Delivery) : Delivery :=
  if d_closed d then d
  else
    let q := d_queues d stream in
    let q1 := MkQueue (q_records q ++ [(d_sequence d + 1, record)]) (q_len q + rec_len record)
                (q_skipped q) (q_gap_sequence q) in
    let q2 := evict (Z.to_nat (q_len q1)) (d_capacity d) q1 in
    MkDelivery (d_capacity d) (<[stream := q2]> (d_queues d)) (d_barriers d)
      (d_sequence d + rec_len record) (d_native_started d) (d_closed d) (d_transport d) (d_flushes d).

(** [batch] of a non-empty batch (an empty one panics at its first element). *)
Definition batch (e : PlantEvent) (es : list PlantEvent) (d : Delivery) : Delivery :=
  push (stream_of e) (Batch (e :: es)) d.
Definition delivery_event (e : PlantEvent) (d : Delivery) : Delivery := batch e [] d.

Definition close (d : Delivery) : Delivery :=
  MkDelivery (d_capacity d) (d_queues d) (d_barriers d) (d_sequence d) (d_native_started d) true
    (d_transport d) (d_flushes d).

(** [flush]: the number of the acknowledgement to wait for, if any. *)
Definition flush (d : Delivery) : option nat * Delivery :=
  if negb (d_transport d) then
    (None, MkDelivery (d_capacity d) (d_queues d) (d_barriers d) (d_sequence d) true (d_closed d)
             (d_transport d) (d_flushes d))
  else if d_closed d then (None, d)
  else (Some (d_flushes d),
        MkDelivery (d_capacity d) (d_queues d) (d_barriers d ++ [(d_sequence d + 1, Flush (d_flushes d))])
          (d_sequence d + 1) (d_native_started d) (d_closed d) (d_transport d) (S (d_flushes d))).

(** [take_events]: whether the caller becomes the exclusive reader. *)
Definition take_events (d : Delivery) : bool * Delivery :=
  if d_native_started d then (false, d)
  else (negb (d_transport d),
        MkDelivery (d_capacity d) (d_queues d) (d_barriers d) (d_sequence d) (d_native_started d)
          (d_closed d) true (d_flushes d)).

(** The loop that fills a batch of [count]; [None] where the code panics. *)
Fixpoint pop_many (stream : Stream) (count : nat) (q : Queue) : option (list PlantEvent * Queue) :=
  match count with
  | O => Some ([], q)
  | S n =>
      match pop stream q with
      | None => None
      | Some (t, q1) =>
          match into_event t, pop_many stream n q1 with
          | Some e, Some (es, q2) => Some (e :: es, q2)
          | _, _ => None
          end
      end
  end.

Inductive Outcome :=
  | Events (es : list PlantEvent)
  | Waiting                        (* nothing queued: wait for the next wakeup *)
  | ChannelClosed
  | Panic.

(** A turn of [next_events]. *)
Definition next_events (stream : Stream) (max0 : Z) (d : Delivery) : Outcome * Delivery :=
  let max := Z.max 1 max0 in
  let d1 := MkDelivery (d_capacity d) (d_queues d) (d_barriers d) (d_sequence d) true (d_closed d)
              (d_transport d) (d_flushes d) in
  let q := d_queues d stream in
  let whole :=
    match q_records q with
    | (_, Batch es) :: rs =>
        if (q_skipped q =? 0) && (Z.of_nat (length es) <=? max) then Some (es, rs) else None
    | _ => None
    end in
  match whole with
  | Some (es, rs) =>
      (Events es, with_queue stream (MkQueue rs (q_len q - Z.of_nat (length es)) (q_skipped q)
                                       (q_gap_sequence q)) d1)
  | None =>
      let count := Z.min max (q_len q + if 0 <? q_skipped q then 1 else 0) in
      if 0 <? count then
        match pop_many stream (Z.to_nat count) q with
        | Some (es, q') => (Events es, with_queue stream q' d1)
        | None => (Panic, d1)
        end
      else if d_closed d then (ChannelClosed, d1)
      else (Waiting, d1)
  end.

(** [min_by_key] over the streams: the first of the smallest heads. *)
Fixpoint min_head (streams : list Stream) (qs : Stream -> Queue) : option (Z * Stream) :=
  match streams with
  | [] => None
  | s :: ss =>
      match head (qs s), min_head ss qs with
      | Some h, Some (h', s') => if h' <? h then Some (h', s') else Some (h, s)
      | Some h, None => Some (h, s)
      | None, r => r
      end
  end.

(** [EventReceiver::try_recv]: the record, with the sequence number it was chosen
    by and its stream ([None] for a barrier). *)
Definition try_recv (d : Delivery) : option (Z * option Stream * Fan) * Delivery :=
  let from_queue :=
    match min_head ALL (d_queues d) with
    | Some (h, stream) =>
        match pop stream (d_queues d stream) with
        | Some (t, q') => (Some (h, Some stream, into_fan t), with_queue stream q' d)
        | None => (None, d)
        end
    | None => (None, d)
    end in
  match d_barriers d with
  | (b, f) :: bs =>
      if match min_head ALL (d_queues d) with Some (h, _) => b <? h | None => true end
      then (Some (b, None, f),
            MkDelivery (d_capacity d) (d_queues d) bs (d_sequence d) (d_native_started d) (d_closed d)
              (d_transport d) (d_flushes d))
      else from_queue
  | [] => from_queue
  end.

(** ** Facts: a queue as a numbered list *)

Definition content (t : Taken) : PlantEvent :=
  match t with
  | Owned e | TakenShared (Native e) | TakenShared (Encoded e) => e
  | TakenShared (Flush _) => Other 0
  end.

(** How many venue events an event stands for. *)
Definition ev_weight (e : PlantEvent) : Z := match e with Gap _ n => n | _ => 1 end.
Definition total (es : list PlantEvent) : Z := foldr (fun e n => ev_weight e + n) 0 es.

(** The records the hub hands over: a gap is never encoded, and barriers do not go
    through [push].  A gap of zero is a notice of losses nobody could count
    ([reseat_order_plant_without_brackets]). *)
Definition valid_taken (t : Taken) : Prop :=
  0 <= ev_weight (content t) /\ weight t = ev_weight (content t) /\
  match t with TakenShared (Flush _) => False | _ => True end.

Fixpoint number (s : Z) (es : list PlantEvent) : list (Z * Taken) :=
  match es with [] => [] | e :: es' => (s, Owned e) :: number (s + 1) es' end.

Definition rec_items (p : Z * Rec) : list (Z * Taken) :=
  match p.2 with Batch es => number p.1 es | Shared f => [(p.1, TakenShared f)] end.
Definition items (q : Queue) : list (Z * Taken) := q_records q ≫= rec_items.

Definition rec_contents (r : Rec) : list PlantEvent := content ∘ snd <$> rec_items (0, r).
Definition solid (p : Z * Rec) : Prop := p.2 <> Batch [].

(** A queue between [lo] (what its reader has seen) and [hi] (the last number
    given out). *)
Record wf_queue (lo hi : Z) (q : Queue) : Prop := MkWfQueue {
  wq_solid : Forall solid (q_records q);
  wq_len : q_len q = Z.of_nat (length (items q));
  wq_sorted : StronglySorted (fun a b => a.1 < b.1) (items q);
  wq_range : Forall (fun p => lo <= p.1 <= hi /\ valid_taken p.2) (items q);
  wq_skipped : 0 <= q_skipped q;
  wq_gap : 0 < q_skipped q -> lo <= q_gap_sequence q <= hi /\ Forall (fun p => q_gap_sequence q < p.1) (items q)
}.

(** What the reader still has before it. *)
Definition visible (stream : Stream) (q : Queue) : list PlantEvent :=
  (if 0 <? q_skipped q then [Gap stream (q_skipped q)] else []) ++ (content ∘ snd <$> items q).

Lemma number_app s es es' :
  number s (es ++ es') = number s es ++ number (s + Z.of_nat (length es)) es'.
Proof.
  revert s. induction es as [|e es IH]; intros s; simpl; [by rewrite Z.add_0_r|].
  rewrite IH. do 3 f_equal. lia.
Qed.

Lemma number_length s es : length (number s es) = length es.
Proof. revert s. induction es; intros s; simpl; congruence. Qed.

Lemma number_content s es : content ∘ snd <$> number s es = es.
Proof. revert s. induction es as [|e es IH]; intros s; simpl; [done|]. by rewrite IH. Qed.

Lemma rec_contents_eq s r : content ∘ snd <$> rec_items (s, r) = rec_contents r.
Proof.
  destruct r as [es|f]; [|done].
  change (content ∘ snd <$> number s es = content ∘ snd <$> number 0 es). by rewrite !number_content.
Qed.

Lemma rec_items_length p : length (rec_items p) = Z.to_nat (rec_len p.2).
Proof. destruct p as [s [es|f]]; unfold rec_items; simpl; [rewrite number_length; lia|done]. Qed.

Lemma pop_record_items q s t rest :
  Forall solid (q_records q) -> items q = (s, t) :: rest ->
  exists rs, pop_record q = Some (s, t, MkQueue rs (q_len q - 1) (q_skipped q) (q_gap_sequence q)) /\
    Forall solid rs /\ rs ≫= rec_items = rest.
Proof.
  unfold items, pop_record. intros Hs Hi. destruct (q_records q) as [|[s0 [es|f]] rs]; [done| |];
    apply Forall_cons in Hs as [H0 Hs].
  - destruct es as [|e es]; [done|]. injection Hi as -> -> <-. eexists. split; [done|].
    destruct es as [|e' es]; [done|]. split; [|done]. by constructor.
  - injection Hi as -> -> <-. by eexists.
Qed.

Lemma items_nil q : Forall solid (q_records q) -> items q = [] -> q_records q = [] /\ pop_record q = None.
Proof.
  unfold items, pop_record. intros Hs Hi. destruct (q_records q) as [|[s0 [[|e es]|f]] rs]; try done.
  apply Forall_cons in Hs as [H0 _]. by destruct H0.
Qed.

Lemma head_record q s t rest :
  Forall solid (q_records q) -> items q = (s, t) :: rest -> fst <$> List.head (q_records q) = Some s.
Proof.
  intros Hs Hi. unfold items in Hi. destruct (q_records q) as [|[s0 [es|f]] rs]; [done| |].
  - apply Forall_cons in Hs as [H0 _]. destruct es as [|e es]; [done|]. by injection Hi as -> _ _.
  - by injection Hi as -> _ _.
Qed.

(** The eviction drops the oldest records, and counts them; as long as nothing
    was owed, lost notices of zero leave no trace. *)
Lemma evict_spec capacity fuel : forall q,
  Forall solid (q_records q) -> q_len q = Z.of_nat (length (items q)) -> 0 <= q_skipped q ->
  Forall (fun p => valid_taken p.2) (items q) -> (Z.to_nat (q_len q) <= fuel)%nat ->
  exists zeros lost, let q' := evict fuel capacity q in
    items q = zeros ++ lost ++ items q' /\ Forall solid (q_records q') /\
    q_len q' = Z.of_nat (length (items q')) /\ (0 <= capacity -> q_len q' <= capacity) /\
    total (content ∘ snd <$> zeros) = 0 /\
    q_skipped q' = q_skipped q + total (content ∘ snd <$> lost) /\
    0 <= total (content ∘ snd <$> lost) /\
    (0 < q_skipped q -> zeros = [] /\ q_gap_sequence q' = q_gap_sequence q) /\
    (q_skipped q = 0 -> lost <> [] ->
       0 < q_skipped q' /\ Some (q_gap_sequence q') = fst <$> List.head lost).
Proof.
  assert (Hkeep : forall q, Forall solid (q_records q) -> q_len q = Z.of_nat (length (items q)) ->
    (0 <= capacity -> q_len q <= capacity) ->
    exists zeros lost : list (Z * Taken), items q = zeros ++ lost ++ items q /\ Forall solid (q_records q) /\
    q_len q = Z.of_nat (length (items q)) /\ (0 <= capacity -> q_len q <= capacity) /\
    total (content ∘ snd <$> zeros) = 0 /\
    q_skipped q = q_skipped q + total (content ∘ snd <$> lost) /\
    0 <= total (content ∘ snd <$> lost) /\
    (0 < q_skipped q -> zeros = [] /\ q_gap_sequence q = q_gap_sequence q) /\
    (q_skipped q = 0 -> lost <> [] ->
       0 < q_skipped q /\ Some (q_gap_sequence q) = fst <$> List.head lost)).
  { intros q Hs Hl Hc. exists [], []. simpl. split_and!; try done; lia. }
  induction fuel as [|fuel IH]; intros q Hs Hl Hk Hv Hf.
  { apply (Hkeep q); [done|done|lia]. }
  simpl. destruct (capacity <? q_len q) eqn:Ec.
  2: { apply Hkeep; [done|done|lia]. }
  destruct (items q) as [|[s t] rest] eqn:Ei.
  { destruct (items_nil q Hs Ei) as [_ ->]. pose proof (Hkeep q Hs) as Hq. rewrite Ei in Hq |- *.
    apply Hq; [done|]. simpl in Hl. lia. }
  destruct (pop_record_items q s t rest Hs Ei) as (rs & -> & Hrs & Hrest).
  apply Forall_cons in Hv as [(Hw & Hwe & _) Hv]. simpl in Hw, Hwe. cbn [q_records q_len q_skipped q_gap_sequence].
  set (q1 := MkQueue rs (q_len q - 1) (q_skipped q + weight t) (if q_skipped q =? 0 then s else q_gap_sequence q)).
  assert (Hi1 : items q1 = rest) by done.
  destruct (IH q1) as (zeros & lost & H1 & H2 & H3 & H4 & H5 & H6 & H7 & H8 & H9).
  { done. } { rewrite Hi1. simpl. rewrite Hl. simpl. lia. } { simpl. lia. } { by rewrite Hi1. } { simpl. lia. }
  rewrite Hi1 in H1. cbn [q_skipped q_gap_sequence q1] in H6, H8, H9.
  assert (Htot : forall l, total (content ∘ snd <$> (s, t) :: l) = ev_weight (content t) + total (content ∘ snd <$> l)) by done.
  destruct (decide (q_skipped q = 0 /\ weight t = 0)) as [[Hk0 Hw0]|Hnz].
  - exists ((s, t) :: zeros), lost. rewrite Htot. split_and!; try done; try lia.
    + by rewrite H1.
    + intros _ Hne. apply H9; [lia|done].
  - destruct H8 as [-> Hg]; [lia|].
    exists [], ((s, t) :: lost). rewrite Htot. split_and!; try done; try lia.
    + by rewrite H1.
    + intros Hpos. split; [done|]. rewrite Hg. by replace (q_skipped q =? 0) with false by lia.
    + intros Hk0 _. split; [lia|]. rewrite Hg. simpl. by rewrite Hk0.
Qed.

(** ** Facts: losses and reads explain what was pushed *)

(** [explains stream pushed read]: [read] is [pushed] in order, with runs of lost
    events replaced by a gap of their exact number; a lost notice of zero counts
    for nothing. *)
Inductive explains (stream : Stream) : list PlantEvent -> list PlantEvent -> Prop :=
  | ex_nil : explains stream [] []
  | ex_keep e ps ds : explains stream ps ds -> explains stream (e :: ps) (e :: ds)
  | ex_gap lost ps ds :
      0 < total lost -> explains stream ps ds ->
      explains stream (lost ++ ps) (Gap stream (total lost) :: ds)
  | ex_silent lost ps ds :
      total lost = 0 -> explains stream ps ds -> explains stream (lost ++ ps) ds.

Lemma explains_refl stream ps : explains stream ps ps.
Proof. induction ps; by constructor. Qed.

Lemma explains_app stream ps ds ps' ds' :
  explains stream ps ds -> explains stream ps' ds' -> explains stream (ps ++ ps') (ds ++ ds').
Proof.
  intros H H'. induction H as [|e ps ds _ IH|lost ps ds Hl _ IH|lost ps ds Hl _ IH]; simpl;
    [done|by constructor| |]; rewrite <- (assoc_L (++)); by constructor.
Qed.

Lemma total_app es es' : total (es ++ es') = total es + total es'.
Proof. induction es as [|e es IH]; simpl; [done|]. rewrite IH. lia. Qed.

(** The log of a queue: numbered events pushed to it, and what was read. *)
Definition log_items (q : Queue) : list (Z * PlantEvent) := (fun p => (p.1, content p.2)) <$> items q.

Record accounts (stream : Stream) (hi : Z) (q : Queue) (pushed : list (Z * PlantEvent)) (read : list PlantEvent)
  : Prop := MkAccounts {
  ac_split : exists seen lost, pushed = seen ++ lost ++ log_items q /\
    explains stream seen.*2 read /\ q_skipped q = total lost.*2 /\
    (lost <> [] -> 0 < q_skipped q /\ Some (q_gap_sequence q) = fst <$> List.head lost);
  ac_sorted : StronglySorted (fun a b => a.1 < b.1) pushed;
  ac_bound : Forall (fun p => p.1 <= hi) pushed
}.

Lemma log_items_contents q : (log_items q).*2 = content ∘ snd <$> items q.
Proof. unfold log_items. rewrite <- list_fmap_compose. done. Qed.

(** What has been read and what is still to read explain what was pushed. *)
Lemma accounts_explains stream hi q pushed read :
  accounts stream hi q pushed read -> explains stream pushed.*2 (read ++ visible stream q).
Proof.
  intros [(seen & lost & -> & He & Hk & Hg) _ _]. rewrite !fmap_app, log_items_contents.
  apply explains_app; [done|]. unfold visible. destruct (0 <? q_skipped q) eqn:E.
  - rewrite Hk. constructor; [lia|apply explains_refl].
  - destruct lost as [|p lost]; [apply explains_refl|]. destruct Hg; [done|lia].
Qed.

(** ** Facts: the operations on a queue *)

Lemma wf_weaken lo lo' hi hi' q : wf_queue lo hi q -> lo' <= lo -> hi <= hi' -> wf_queue lo' hi' q.
Proof.
  intros [H1 H2 H3 H4 H5 H6] Hlo Hhi. split; try done.
  - eapply Forall_impl; [done|]. intros p [? ?]. split; [lia|done].
  - intros Hk. destruct (H6 Hk) as [? ?]. split; [lia|done].
Qed.

Lemma wf_empty lo hi : wf_queue lo hi empty_queue.
Proof. split; try constructor; simpl; try done; lia. Qed.

Lemma rec_items_seq p : Forall (fun x => p.1 <= x.1 < p.1 + rec_len p.2) (rec_items p).
Proof.
  destruct p as [s [es|f]]; unfold rec_items; simpl; [|repeat constructor; simpl; lia].
  revert s. induction es as [|e es IH]; intros s; constructor; simpl; [lia|].
  eapply Forall_impl; [apply (IH (s + 1))|]. simpl. lia.
Qed.

Lemma rec_items_sorted p : StronglySorted (fun a b => a.1 < b.1) (rec_items p).
Proof.
  destruct p as [s [es|f]]; unfold rec_items; simpl; [|repeat constructor].
  revert s. induction es as [|e es IH]; intros s; constructor; [apply IH|].
  pose proof (rec_items_seq (s + 1, Batch es)) as Hq. eapply Forall_impl; [apply Hq|]. simpl. lia.
Qed.

Lemma sorted_app_lt {A} (l1 l2 : list (Z * A)) b :
  StronglySorted (fun a b => a.1 < b.1) l1 -> StronglySorted (fun a b => a.1 < b.1) l2 ->
  Forall (fun p => p.1 <= b) l1 -> Forall (fun p => b < p.1) l2 ->
  StronglySorted (fun a b => a.1 < b.1) (l1 ++ l2).
Proof.
  intros H1 H2 Hb1 Hb2. induction H1 as [|p l1 H1 IH Hp]; simpl; [done|].
  apply Forall_cons in Hb1 as [Hp1 Hb1]. constructor; [by apply IH|]. apply Forall_app. split; [done|].
  eapply Forall_impl; [done|]. simpl. lia.
Qed.

Lemma sorted_suffix {A} (l1 l2 : list (Z * A)) :
  StronglySorted (fun a b => a.1 < b.1) (l1 ++ l2) -> StronglySorted (fun a b => a.1 < b.1) l2.
Proof. induction l1 as [|p l1 IH]; simpl; [done|]. intros H. inversion H. by apply IH. Qed.

(** A record the hub may push. *)
Definition valid_rec (r : Rec) : Prop :=
  r <> Batch [] /\ Forall (fun p => valid_taken p.2) (rec_items (0, r)).

Lemma valid_rec_items r s : valid_rec r -> Forall (fun p => valid_taken p.2) (rec_items (s, r)).
Proof.
  intros [_ H]. destruct r as [es|f]; unfold rec_items in *; simpl in *;
    [|apply Forall_cons in H as [H _]; apply Forall_cons; split; [exact H|constructor]].
  assert (Hn : forall s0 s1, Forall (fun p : Z * Taken => valid_taken p.2) (number s0 es) ->
    Forall (fun p => valid_taken p.2) (number s1 es)).
  { clear. induction es as [|e es IH]; intros s0 s1; [done|]. simpl. rewrite !Forall_cons. simpl.
    intros [? ?]. split; [done|]. by eapply IH. }
  by eapply Hn.
Qed.

Definition queue_push (capacity seq : Z) (record : Rec) (q : Queue) : Queue :=
  let q1 := MkQueue (q_records q ++ [(seq + 1, record)]) (q_len q + rec_len record)
              (q_skipped q) (q_gap_sequence q) in
  evict (Z.to_nat (q_len q1)) capacity q1.

Definition log_rec (seq : Z) (r : Rec) : list (Z * PlantEvent) :=
  (fun p => (p.1, content p.2)) <$> rec_items (seq + 1, r).

Lemma log_sorted (l : list (Z * Taken)) :
  StronglySorted (fun a b => a.1 < b.1) l ->
  StronglySorted (fun a b => a.1 < b.1) ((fun p => (p.1, content p.2)) <$> l).
Proof.
  induction 1 as [|p l _ IH Hp]; simpl; constructor; [done|].
  apply Forall_fmap. eapply Forall_impl; [exact Hp|]. done.
Qed.

(** A record put at the end. *)
Definition append (seq : Z) (r : Rec) (q : Queue) : Queue :=
  MkQueue (q_records q ++ [(seq + 1, r)]) (q_len q + rec_len r) (q_skipped q) (q_gap_sequence q).

Lemma append_items seq r q : items (append seq r q) = items q ++ rec_items (seq + 1, r).
Proof. unfold items. simpl. rewrite bind_app. simpl. by rewrite app_nil_r. Qed.

Lemma append_wf lo seq r q : lo <= seq -> valid_rec r -> wf_queue lo seq q ->
  wf_queue lo (seq + rec_len r) (append seq r q).
Proof.
  intros Hlo Hr [W1 W2 W3 W4 W5 W6].
  pose proof (valid_rec_items r (seq + 1) Hr) as Hv. pose proof (rec_items_seq (seq + 1, r)) as Hq. simpl in Hq.
  assert (Hrl : 0 <= rec_len r) by (destruct r; simpl; lia).
  split; rewrite ?append_items; simpl; try done.
  - apply Forall_app. split; [done|]. constructor; [|done]. apply Hr.
  - rewrite length_app, rec_items_length. simpl. rewrite W2. lia.
  - apply (sorted_app_lt _ _ seq); [done|apply rec_items_sorted| |].
    + eapply Forall_impl; [exact W4|]. intros p [? ?]. lia.
    + eapply Forall_impl; [exact Hq|]. simpl. lia.
  - apply Forall_app. split.
    + eapply Forall_impl; [exact W4|]. intros p [? ?]. split; [lia|done].
    + apply Forall_forall. intros p Hp. rewrite Forall_forall in Hq, Hv.
      specialize (Hq p Hp). specialize (Hv p Hp). split; [lia|done].
  - intros Hk. destruct (W6 Hk) as [? ?]. split; [lia|]. apply Forall_app. split; [done|].
    eapply Forall_impl; [exact Hq|]. simpl. lia.
Qed.

Lemma append_accounts stream seq r q pushed read :
  accounts stream seq q pushed read ->
  accounts stream (seq + rec_len r) (append seq r q) (pushed ++ log_rec seq r) read.
Proof.
  intros [(seen & lost & -> & He & Hk & Hg) Hss Hbb].
  pose proof (rec_items_seq (seq + 1, r)) as Hq. simpl in Hq.
  assert (Hrl : 0 <= rec_len r) by (destruct r; simpl; lia). split.
  - exists seen, lost. split_and!; try done. unfold log_items, log_rec.
    by rewrite append_items, fmap_app, <- !(assoc_L (++)).
  - apply (sorted_app_lt _ _ seq); [done| |done|].
    + apply log_sorted, rec_items_sorted.
    + unfold log_rec. apply Forall_fmap. eapply Forall_impl; [exact Hq|]. simpl. lia.
  - apply Forall_app. split; [eapply Forall_impl; [exact Hbb|]; simpl; lia|].
    unfold log_rec. apply Forall_fmap. eapply Forall_impl; [exact Hq|]. simpl. lia.
Qed.

(** Evicting keeps the books: what went without weight counts as read, the rest as
    lost behind the gap. *)
Lemma evict_wf capacity fuel lo hi q : wf_queue lo hi q -> (Z.to_nat (q_len q) <= fuel)%nat ->
  wf_queue lo hi (evict fuel capacity q).
Proof.
  intros [W1 W2 W3 W4 W5 W6] Hf.
  destruct (evict_spec capacity fuel q) as (zeros & lost' & H1 & H2 & H3 & _ & _ & H6 & H7 & H8 & H9); try done.
  { eapply Forall_impl; [exact W4|]. by intros p [_ ?]. }
  cbn zeta in *. set (q2 := evict fuel capacity q) in *.
  pose proof W3 as Hs. pose proof W4 as Hall. rewrite H1 in Hs, Hall.
  apply Forall_app in Hall as [_ Hall]. apply Forall_app in Hall as [Hall1 Hall2]. apply sorted_suffix in Hs.
  split; try done; [by eapply sorted_suffix|lia|]. intros Hpos. destruct (decide (0 < q_skipped q)) as [Hk0|Hk0].
  - destruct (H8 Hk0) as [-> ->]. destruct W6 as [Hr6 Hf6]; [lia|]. split; [lia|].
    rewrite H1 in Hf6. apply Forall_app in Hf6 as [_ Hf6]. apply Forall_app in Hf6. apply Hf6.
  - destruct lost' as [|p lost']; [simpl in H6; lia|].
    destruct H9 as [_ H9]; [lia|done|]. injection H9 as ->.
    apply Forall_cons in Hall1 as [[Hb _] _]. split; [lia|].
    inversion Hs as [|? ? _ Hsp]. apply Forall_app in Hsp as [_ Hsp]. done.
Qed.

Lemma evict_accounts capacity fuel lo hi stream q pushed read :
  wf_queue lo hi q -> (Z.to_nat (q_len q) <= fuel)%nat -> accounts stream hi q pushed read ->
  accounts stream hi (evict fuel capacity q) pushed read.
Proof.
  intros [W1 W2 W3 W4 W5 W6] Hf [(seen & lost & -> & He & Hk & Hg) Hss Hbb]. split; [|done|done].
  destruct (evict_spec capacity fuel q) as (zeros & lost' & H1 & H2 & H3 & _ & H5 & H6 & H7 & H8 & H9); try done.
  { eapply Forall_impl; [exact W4|]. by intros p [_ ?]. }
  cbn zeta in *. set (q2 := evict fuel capacity q) in *. set (log := fun p : Z * Taken => (p.1, content p.2)).
  assert (Hlog : log_items q = (log <$> zeros) ++ (log <$> lost') ++ log_items q2).
  { unfold log_items. fold log. by rewrite H1, !fmap_app. }
  assert (Htot : forall l : list (Z * Taken), total (log <$> l).*2 = total (content ∘ snd <$> l)).
  { intros l. by rewrite <- list_fmap_compose. }
  rewrite Hlog. destruct (decide (0 < q_skipped q)) as [Hk0|Hk0].
  - destruct (H8 Hk0) as [-> ->]. exists seen, (lost ++ (log <$> lost')). split_and!; [|done| |].
    + by rewrite <- !(assoc_L (++)).
    + rewrite fmap_app, total_app, Htot. lia.
    + intros _. split; [lia|]. destruct lost as [|p lost]; [simpl in Hk; lia|]. by apply Hg.
  - assert (lost = []) as -> by (destruct lost as [|p lost]; [done|destruct Hg; [done|lia]]).
    exists (seen ++ (log <$> zeros)), (log <$> lost'). split_and!.
    + simpl. by rewrite <- !(assoc_L (++)).
    + rewrite fmap_app, <- (app_nil_r read). apply explains_app; [done|].
      rewrite <- (app_nil_r (log <$> zeros).*2). apply ex_silent; [by rewrite Htot|constructor].
    + rewrite Htot. simpl in Hk. lia.
    + intros Hne. destruct lost' as [|p lost']; [done|]. destruct H9 as [Hp Hg9]; [simpl in Hk; lia|done|]. by split.
Qed.

Lemma queue_push_ok stream capacity lo seq r q pushed read :
  1 <= capacity -> lo <= seq -> valid_rec r ->
  wf_queue lo seq q -> accounts stream seq q pushed read ->
  wf_queue lo (seq + rec_len r) (queue_push capacity seq r q) /\
  accounts stream (seq + rec_len r) (queue_push capacity seq r q) (pushed ++ log_rec seq r) read /\
  q_len (queue_push capacity seq r q) <= capacity /\
  exists lost, items q ++ rec_items (seq + 1, r) = lost ++ items (queue_push capacity seq r q).
Proof.
  intros Hcap Hlo Hr Hw Ha. pose proof (append_wf lo seq r q Hlo Hr Hw) as Hw1.
  pose proof (append_accounts stream seq r q pushed read Ha) as Ha1.
  unfold queue_push. fold (append seq r q). rewrite <- append_items. cbn zeta. split_and!.
  - by apply evict_wf.
  - by apply (evict_accounts _ _ lo).
  - destruct Hw1 as [W1 W2 W3 W4 W5 W6]. destruct (evict_spec capacity (Z.to_nat (q_len (append seq r q))) (append seq r q))
      as (zeros & lost & _ & _ & _ & H4 & _); try done; [|apply H4; lia].
    eapply Forall_impl; [exact W4|]. by intros p [_ ?].
  - destruct Hw1 as [W1 W2 W3 W4 W5 W6]. destruct (evict_spec capacity (Z.to_nat (q_len (append seq r q))) (append seq r q))
      as (zeros & lost & H1 & _); try done; [|exists (zeros ++ lost); by rewrite <- (assoc_L (++))].
    eapply Forall_impl; [exact W4|]. by intros p [_ ?].
Qed.

Definition remaining (q : Queue) : Z := q_len q + if 0 <? q_skipped q then 1 else 0.

Lemma remaining_nonneg lo hi q : wf_queue lo hi q -> 0 <= remaining q.
Proof.
  intros Hw. unfold remaining. rewrite (wq_len _ _ _ Hw). destruct (0 <? q_skipped q); lia.
Qed.

(** Reading the head. *)
Lemma queue_pop_ok stream lo hi q pushed read :
  wf_queue lo hi q -> accounts stream hi q pushed read ->
  match head q with
  | None => pop stream q = None /\ remaining q = 0 /\ visible stream q = []
  | Some h =>
      exists t q', pop stream q = Some (t, q') /\ lo <= h <= hi /\
        wf_queue h hi q' /\ accounts stream hi q' pushed (read ++ [content t]) /\
        remaining q' = remaining q - 1 /\ visible stream q = content t :: visible stream q' /\
        ((exists n, t = Owned (Gap stream n)) /\ items q' = items q \/ exists s, items q = (s, t) :: items q')
  end.
Proof.
  intros [W1 W2 W3 W4 W5 W6] [(seen & lost & Hps & He & Hk & Hg) Hss Hbb].
  unfold head, pop, remaining, visible. destruct (0 <? q_skipped q) eqn:Ek.
  - destruct W6 as [Hb Hf]; [lia|]. eexists _, _. split; [done|]. split; [done|]. split_and!.
    + split; simpl; try done; try lia.
      apply Forall_forall. intros p Hp. rewrite Forall_forall in W4, Hf.
      specialize (W4 p Hp). specialize (Hf p Hp). split; [lia|apply W4].
    + split; try done. exists (seen ++ lost), []. split_and!; [|simpl; rewrite fmap_app|done|done].
      * by rewrite Hps, <- (assoc_L (++)).
      * apply explains_app; [done|]. rewrite Hk, <- (app_nil_r lost.*2) at 1.
        constructor; [lia|constructor].
    + simpl. lia.
    + done.
    + left. eauto.
  - assert (Hk0 : q_skipped q = 0) by lia.
    assert (lost = []) as ->.
    { destruct lost as [|p lost]; [done|]. destruct Hg; [done|lia]. }
    destruct (items q) as [|[s t] rest] eqn:Ei.
    + destruct (items_nil q W1 Ei) as [Hr Hp]. rewrite Hr, Hp. simpl. simpl in W2. split_and!; [done|lia|done].
    + destruct (pop_record_items q s t rest W1 Ei) as (rs & Hp & Hrs & Hrest).
      rewrite (head_record q s t rest W1 Ei), Hp. apply Forall_cons in W4 as [[Hb Hv] W4]. simpl in Hb, Hv.
      inversion W3 as [|? ? W3' Hsp]; subst.
      eexists _, _. split; [done|]. split; [done|].
      assert (Hi' : items (MkQueue rs (q_len q - 1) (q_skipped q) (q_gap_sequence q)) = rs ≫= rec_items) by done.
      split_and!.
      * split; simpl; rewrite ?Hi'; try done; [simpl in W2; lia| |lia].
        apply Forall_forall. intros p Hpi. rewrite Forall_forall in W4, Hsp.
        specialize (W4 p Hpi). specialize (Hsp p Hpi). simpl in Hsp. split; [lia|apply W4].
      * split; try done. exists (seen ++ [(s, content t)]), []. split_and!; [|simpl; rewrite fmap_app|done|done].
        -- unfold log_items. rewrite Ei, Hi'. by rewrite <- (assoc_L (++)).
        -- apply explains_app; [done|apply explains_refl].
      * cbn [q_skipped q_len]. rewrite Hk0. simpl. lia.
      * cbn [q_skipped]. by rewrite Hk0.
      * right. eauto.
Qed.

(** Everything before the head has been read. *)
Lemma queue_head_read stream lo hi q pushed read :
  wf_queue lo hi q -> accounts stream hi q pushed read ->
  exists seen rest, pushed = seen ++ rest /\ explains stream seen.*2 read /\
    match head q with
    | None => rest = []
    | Some h => Forall (fun p => h <= p.1) rest
    end.
Proof.
  intros Hwf [(seen & lost & -> & He & Hk & Hg) Hss Hbb]. exists seen, (lost ++ log_items q).
  split; [done|]. split; [done|]. apply sorted_suffix in Hss.
  assert (Hhd : forall p l, lost ++ log_items q = p :: l -> head q = Some p.1).
  { intros p l E. unfold head.
    destruct lost as [|p0 lost].
    - simpl in Hk. replace (0 <? q_skipped q) with false by lia. simpl in E. unfold log_items in E.
      destruct (items q) as [|[s t] rest] eqn:Ei; [done|]. injection E as <- <-. simpl.
      by eapply head_record; [apply Hwf|].
    - destruct Hg as [Hp Hg]; [done|].
      replace (0 <? q_skipped q) with true by lia. simpl in E. injection E as <- _. done. }
  destruct (lost ++ log_items q) as [|p l] eqn:El.
  - destruct (head q) eqn:Eh; [constructor|done].
  - rewrite (Hhd p l eq_refl). constructor; [lia|]. inversion Hss as [|? ? _ Hf]. eapply Forall_impl; [exact Hf|].
    simpl. lia.
Qed.

(** A smaller head bounds the queue from below. *)
Lemma wf_raise lo lo' hi q :
  wf_queue lo hi q -> (forall h, head q = Some h -> lo' <= h) -> wf_queue lo' hi q.
Proof.
  intros [W1 W2 W3 W4 W5 W6] Hh. unfold head in Hh.
  assert (Hk : 0 < q_skipped q -> lo' <= q_gap_sequence q).
  { intros Hk. apply Hh. by replace (0 <? q_skipped q) with true by lia. }
  split; try done.
  - apply Forall_forall. intros p Hp. rewrite Forall_forall in W4. destruct (W4 p Hp) as [Hb Hv].
    split; [|done]. split; [|lia]. destruct (decide (0 < q_skipped q)) as [Hs|Hs].
    + specialize (Hk Hs). destruct (W6 Hs) as [_ Hf]. rewrite Forall_forall in Hf. specialize (Hf p Hp). lia.
    + destruct (items q) as [|[s t] rest] eqn:Ei; [by apply not_elem_of_nil in Hp|].
      assert (Hs' : lo' <= s).
      { apply Hh. replace (0 <? q_skipped q) with false by lia. by eapply head_record. }
      apply elem_of_cons in Hp as [->|Hp]; [done|].
      inversion W3 as [|? ? _ Hf]; subst. rewrite Forall_forall in Hf. specialize (Hf p Hp). simpl in Hf. lia.
  - intros Hs. destruct (W6 Hs). split; [|done]. specialize (Hk Hs). lia.
Qed.

Lemma min_head_spec streams qs :
  match min_head streams qs with
  | None => forall s, s ∈ streams -> head (qs s) = None
  | Some (h, s) => s ∈ streams /\ head (qs s) = Some h /\
      forall s' h', s' ∈ streams -> head (qs s') = Some h' -> h <= h'
  end.
Proof.
  induction streams as [|s ss IH]; simpl; [by intros s ?%not_elem_of_nil|].
  destruct (head (qs s)) as [h|] eqn:Eh; destruct (min_head ss qs) as [[h' s']|].
  - destruct IH as (Hin & Hh & Hall). destruct (h' <? h) eqn:E.
    + split; [by right|]. split; [done|]. intros s1 h1 [->|Hs]%elem_of_cons Hh1.
      * rewrite Eh in Hh1. injection Hh1 as <-. lia.
      * by eapply Hall.
    + split; [by left|]. split; [done|]. intros s1 h1 [->|Hs]%elem_of_cons Hh1.
      * rewrite Eh in Hh1. injection Hh1 as <-. lia.
      * specialize (Hall _ _ Hs Hh1). lia.
  - split; [by left|]. split; [done|]. intros s1 h1 [->|Hs]%elem_of_cons Hh1.
    + rewrite Eh in Hh1. injection Hh1 as <-. lia.
    + by rewrite (IH _ Hs) in Hh1.
  - destruct IH as (Hin & Hh & Hall). split; [by right|]. split; [done|].
    intros s1 h1 [->|Hs]%elem_of_cons Hh1; [by rewrite Eh in Hh1|by eapply Hall].
  - intros s1 [->|Hs]%elem_of_cons; [done|by apply IH].
Qed.

Lemma all_streams s : s ∈ ALL.
Proof. destruct s; apply (bool_decide_unpack _); vm_compute; exact I. Qed.

(** ** The attachment, with its log *)

Record Hist := MkHist {
  h_d : Delivery;
  h_pushed : Stream -> list (Z * PlantEvent);   (* numbered, per stream *)
  h_read : Stream -> list PlantEvent;
  h_last : Z                                    (* the newest number received *)
}.

Definition hist_new (d : Delivery) : Hist := MkHist d (fun _ => []) (fun _ => []) 0.

Definition native_taken (t : Taken) : Prop :=
  match t with TakenShared (Native _) | Owned _ => True | _ => False end.
Definition native_rec (r : Rec) : Prop :=
  match r with Batch _ | Shared (Native _) => True | _ => False end.

(** One operation.  Encoded records reach only an attachment whose reader is the
    transport (the hub keeps records typed while a native session exists), a
    native read needs an attachment that is not, and only the transport receives. *)
Inductive dstep : Hist -> Hist -> Prop :=
  | DPush h stream r :
      valid_rec r -> (d_transport (h_d h) = false -> native_rec r) ->
      dstep h (MkHist (push stream r (h_d h))
                 (if d_closed (h_d h) then h_pushed h
                  else <[stream := h_pushed h stream ++ log_rec (d_sequence (h_d h)) r]> (h_pushed h))
                 (h_read h) (h_last h))
  | DClose h : dstep h (MkHist (close (h_d h)) (h_pushed h) (h_read h) (h_last h))
  | DFlush h : dstep h (MkHist (flush (h_d h)).2 (h_pushed h) (h_read h) (h_last h))
  | DTake h : dstep h (MkHist (take_events (h_d h)).2 (h_pushed h) (h_read h) (h_last h))
  | DRead h stream max es d' :
      d_transport (h_d h) = false -> next_events stream max (h_d h) = (Events es, d') ->
      dstep h (MkHist d' (h_pushed h) (<[stream := h_read h stream ++ es]> (h_read h)) (h_last h))
  | DIdle h stream max o d' :
      next_events stream max (h_d h) = (o, d') -> o = Waiting \/ o = ChannelClosed ->
      dstep h (MkHist d' (h_pushed h) (h_read h) (h_last h))
  | DRecv h seq stream f d' :
      d_transport (h_d h) = true -> try_recv (h_d h) = (Some (seq, Some stream, f), d') ->
      dstep h (MkHist d' (h_pushed h)
                 (<[stream := h_read h stream ++ [content (TakenShared f)]]> (h_read h)) seq)
  | DBarrier h seq f d' :
      d_transport (h_d h) = true -> try_recv (h_d h) = (Some (seq, None, f), d') ->
      dstep h (MkHist d' (h_pushed h) (h_read h) seq).

Record wf_hist (h : Hist) : Prop := MkWfHist {
  wh_capacity : 1 <= d_capacity (h_d h);
  wh_last : h_last h <= d_sequence (h_d h);
  wh_queue : forall s, wf_queue (h_last h) (d_sequence (h_d h)) (d_queues (h_d h) s);
  wh_accounts : forall s, accounts s (d_sequence (h_d h)) (d_queues (h_d h) s) (h_pushed h s) (h_read h s);
  wh_bound : forall s, q_len (d_queues (h_d h) s) <= d_capacity (h_d h);
  wh_barriers : StronglySorted (fun a b => a.1 < b.1) (d_barriers (h_d h)) /\
    Forall (fun b => h_last h <= b.1 <= d_sequence (h_d h)) (d_barriers (h_d h));
  wh_native : d_transport (h_d h) = false ->
    forall s, Forall (fun p => native_taken p.2) (items (d_queues (h_d h) s))
}.

Lemma accounts_weaken s hi hi' q pushed read :
  accounts s hi q pushed read -> hi <= hi' -> accounts s hi' q pushed read.
Proof. intros [H1 H2 H3] Hhi. split; try done. eapply Forall_impl; [exact H3|]. simpl. lia. Qed.

Lemma accounts_empty s hi : accounts s hi empty_queue [] [].
Proof. split; try constructor. exists [], []. split_and!; try done. constructor. Qed.

Definition fresh (d : Delivery) : Prop := exists capacity, d = delivery_new capacity \/ d = new_transport capacity.

Lemma hist_new_wf d : fresh d -> wf_hist (hist_new d).
Proof.
  intros (capacity & Hd).
  assert (Hq : (forall s, d_queues d s = empty_queue) /\ d_barriers d = [] /\ d_sequence d = 0 /\ 1 <= d_capacity d).
  { destruct Hd as [-> | ->]; simpl; split_and!; try done; lia. }
  destruct Hq as (Hq & Hb & Hs & Hc). split; simpl; try done; rewrite ?Hs, ?Hb; try lia.
  - intros s. rewrite Hq. apply wf_empty.
  - intros s. rewrite Hq. apply accounts_empty.
  - intros s. rewrite Hq. simpl. lia.
  - split; constructor.
  - intros _ s. rewrite Hq. constructor.
Qed.

Lemma pop_many_ok stream lo hi pushed n : forall q read,
  wf_queue lo hi q -> accounts stream hi q pushed read ->
  Forall (fun p => native_taken p.2) (items q) -> Z.of_nat n <= remaining q ->
  exists es q', pop_many stream n q = Some (es, q') /\ length es = n /\
    wf_queue lo hi q' /\ accounts stream hi q' pushed (read ++ es) /\
    Forall (fun p => native_taken p.2) (items q') /\ q_len q' <= q_len q /\
    visible stream q = es ++ visible stream q'.
Proof.
  induction n as [|n IH]; intros q read Hw Ha Hn Hr.
  { exists [], q. rewrite app_nil_r. split_and!; done. }
  pose proof (queue_pop_ok stream lo hi q pushed read Hw Ha) as Hp. simpl.
  destruct (head q) as [h|] eqn:Eh; [|lia].
  destruct Hp as (t & q1 & -> & Hb & Hw1 & Ha1 & Hr1 & Hv & Hi).
  assert (Hw1' : wf_queue lo hi q1) by (eapply wf_weaken; [done|lia|lia]).
  assert (Hn1 : Forall (fun p => native_taken p.2) (items q1) /\ into_event t = Some (content t)).
  { destruct Hi as [[[m ->] ->]|[s Hs]]; [done|]. rewrite Hs in Hn. apply Forall_cons in Hn as [Hn0 Hn].
    split; [done|]. simpl in Hn0. by destruct t as [e|[e|e|id]]. }
  destruct Hn1 as [Hn1 ->].
  assert (Hl : q_len q1 <= q_len q).
  { rewrite (wq_len _ _ _ Hw), (wq_len _ _ _ Hw1). destruct Hi as [[_ ->]|[s ->]]; simpl; lia. }
  destruct (IH q1 (read ++ [content t]) Hw1' Ha1 Hn1) as (es & q2 & -> & Hl2 & Hw2 & Ha2 & Hn2 & Hl3 & Hv2); [lia|].
  exists (content t :: es), q2. split_and!; try done.
  - simpl. by rewrite Hl2.
  - by rewrite (assoc_L (++)) in Ha2 || (rewrite <- (assoc_L (++)) in Ha2).
  - lia.
  - rewrite Hv, Hv2. done.
Qed.

(** Taking a whole batch at once is taking its events one by one. *)
Lemma whole_batch_pops stream es : forall s rs q,
  q_skipped q = 0 -> q_records q = (s, Batch es) :: rs -> es <> [] ->
  pop_many stream (length es) q
  = Some (es, MkQueue rs (q_len q - Z.of_nat (length es)) (q_skipped q) (q_gap_sequence q)).
Proof.
  induction es as [|e es IH]; intros s rs q Hk Hq Hne; [done|]. clear Hne.
  cbn [length pop_many]. unfold pop, pop_record. rewrite Hk, Hq. simpl.
  destruct es as [|e' es].
  - done.
  - rewrite (IH (s + 1) rs); [|done|done|done]. cbn [q_len q_skipped q_gap_sequence].
    replace (q_len q - 1 - Z.of_nat (length (e' :: es))) with (q_len q - Z.of_nat (length (e :: e' :: es)))
      by (simpl; lia). done.
Qed.

Definition started (d : Delivery) : Delivery :=
  MkDelivery (d_capacity d) (d_queues d) (d_barriers d) (d_sequence d) true (d_closed d)
    (d_transport d) (d_flushes d).

(** A native reader gets the oldest events it has not read, at most [max] of them,
    or learns that there are none. *)
Lemma next_events_ok stream max d lo hi pushed read :
  let q := d_queues d stream in
  wf_queue lo hi q -> accounts stream hi q pushed read -> Forall (fun p => native_taken p.2) (items q) ->
  match next_events stream max d with
  | (Events es, d') =>
      exists q', d' = with_queue stream q' (started d) /\ es <> [] /\ Z.of_nat (length es) <= Z.max 1 max /\
        wf_queue lo hi q' /\ accounts stream hi q' pushed (read ++ es) /\
        Forall (fun p => native_taken p.2) (items q') /\ q_len q' <= q_len q /\
        visible stream q = es ++ visible stream q'
  | (Waiting, d') => d' = started d /\ visible stream q = [] /\ d_closed d = false
  | (ChannelClosed, d') => d' = started d /\ visible stream q = [] /\ d_closed d = true
  | (Panic, _) => False
  end.
Proof.
  intros q Hw Ha Hn. unfold next_events. fold q.
  pose proof (remaining_nonneg _ _ _ Hw) as Hrem.
  destruct (match q_records q with (_, Batch es) :: rs => _ | _ => _ end) as [[es rs]|] eqn:Ewhole.
  - destruct (q_records q) as [|[s [es'|f]] rs'] eqn:Er; try done.
    destruct (_ && _) eqn:Ec; [|done]. injection Ewhole as -> ->.
    apply andb_true_iff in Ec as [Ek Ele].
    assert (Hne : es <> []).
    { pose proof (wq_solid _ _ _ Hw) as Hs. rewrite Er in Hs. apply Forall_cons in Hs as [Hs _].
      intros ->. by destruct Hs. }
    pose proof (whole_batch_pops stream es s rs q ltac:(lia) Er Hne) as Hpm.
    destruct (pop_many_ok stream lo hi pushed (length es) q read Hw Ha Hn) as (es1 & q1 & E1 & _ & H1 & H2 & H3 & H4 & H5).
    { unfold remaining. rewrite (wq_len _ _ _ Hw). unfold items. rewrite Er, bind_cons.
      rewrite length_app, rec_items_length. cbn [rec_len snd]. case_match; lia. }
    rewrite Hpm in E1. injection E1 as <- <-.
    eexists. split; [reflexivity|]. split_and!; try done. lia.
  - fold (remaining q). destruct (0 <? Z.min (Z.max 1 max) (remaining q)) eqn:Ec.
    + destruct (pop_many_ok stream lo hi pushed (Z.to_nat (Z.min (Z.max 1 max) (remaining q))) q read Hw Ha Hn)
        as (es & q1 & -> & Hl & H1 & H2 & H3 & H4 & H5); [lia|].
      exists q1. split; [done|]. split_and!; try done; [|lia]. intros ->. simpl in Hl. lia.
    + pose proof (queue_pop_ok stream lo hi q pushed read Hw Ha) as Hp.
      destruct (head q) as [h|].
      { destruct Hp as (t & q1 & _ & _ & Hw1 & _ & Hr1 & _). exfalso.
        pose proof (remaining_nonneg _ _ _ Hw1). lia. }
      destruct Hp as (_ & _ & Hv). unfold started. by destruct (d_closed d).
Qed.

(** ** Every operation keeps the books *)

Lemma content_into_fan t : content (TakenShared (into_fan t)) = content t.
Proof. by destruct t. Qed.

Lemma with_queue_wf h stream q' read' :
  wf_hist h -> wf_queue (h_last h) (d_sequence (h_d h)) q' ->
  accounts stream (d_sequence (h_d h)) q' (h_pushed h stream) read' ->
  q_len q' <= d_capacity (h_d h) ->
  (d_transport (h_d h) = false -> Forall (fun p => native_taken p.2) (items q')) ->
  wf_hist (MkHist (with_queue stream q' (h_d h)) (h_pushed h) (<[stream := read']> (h_read h)) (h_last h)).
Proof.
  intros [Hc Hl Hq Ha Hb Hr Hn] Hq' Ha' Hb' Hn'. split; simpl; try done.
  - intros s. destruct (decide (s = stream)) as [->|Hs]; [by rewrite fn_lookup_insert|].
    by rewrite fn_lookup_insert_ne.
  - intros s. destruct (decide (s = stream)) as [->|Hs]; [by rewrite !fn_lookup_insert|].
    by rewrite !fn_lookup_insert_ne.
  - intros s. destruct (decide (s = stream)) as [->|Hs]; [by rewrite fn_lookup_insert|].
    by rewrite fn_lookup_insert_ne.
  - intros Ht s. destruct (decide (s = stream)) as [->|Hs]; [rewrite fn_lookup_insert; by apply Hn'|].
    rewrite fn_lookup_insert_ne by done. by apply Hn.
Qed.

Lemma native_rec_items r s : native_rec r -> Forall (fun p => native_taken p.2) (rec_items (s, r)).
Proof.
  destruct r as [es|[e|e|id]]; try done; intros _; unfold rec_items; simpl; [|by repeat constructor].
  revert s. induction es as [|e es IH]; intros s; constructor; [done|]. apply (IH (s + 1)).
Qed.

Lemma push_wf h stream r :
  wf_hist h -> valid_rec r -> (d_transport (h_d h) = false -> native_rec r) ->
  wf_hist (MkHist (push stream r (h_d h))
    (if d_closed (h_d h) then h_pushed h
     else <[stream := h_pushed h stream ++ log_rec (d_sequence (h_d h)) r]> (h_pushed h))
    (h_read h) (h_last h)).
Proof.
  intros Hh Hr Hnr. pose proof Hh as [Hc Hl Hq Ha Hb [Hbs Hbb] Hn]. unfold push.
  destruct (d_closed (h_d h)) eqn:Ecl; [done|].
  assert (Hrl : 0 <= rec_len r) by (destruct r; simpl; lia).
  destruct (queue_push_ok stream (d_capacity (h_d h)) (h_last h) (d_sequence (h_d h)) r
    (d_queues (h_d h) stream) (h_pushed h stream) (h_read h stream) Hc Hl Hr (Hq stream) (Ha stream))
    as (Hq' & Ha' & Hb' & lost & Hi).
  fold (queue_push (d_capacity (h_d h)) (d_sequence (h_d h)) r (d_queues (h_d h) stream)).
  split; simpl; try done.
  - lia.
  - intros s. destruct (decide (s = stream)) as [->|Hs]; [by rewrite fn_lookup_insert|].
    rewrite fn_lookup_insert_ne by done. eapply wf_weaken; [apply Hq|lia|lia].
  - intros s. destruct (decide (s = stream)) as [->|Hs]; [by rewrite !fn_lookup_insert|].
    rewrite !fn_lookup_insert_ne by done. eapply accounts_weaken; [apply Ha|lia].
  - intros s. destruct (decide (s = stream)) as [->|Hs]; [by rewrite fn_lookup_insert|].
    by rewrite fn_lookup_insert_ne.
  - split; [done|]. eapply Forall_impl; [exact Hbb|]. simpl. lia.
  - intros Ht s. destruct (decide (s = stream)) as [->|Hs].
    + rewrite fn_lookup_insert. apply (Forall_app _ lost). rewrite <- Hi. apply Forall_app.
      split; [by apply Hn|]. by apply native_rec_items, Hnr.
    + rewrite fn_lookup_insert_ne by done. by apply Hn.
Qed.

(** Receiving: the smallest head of all, or a barrier below every head. *)
Lemma try_recv_cases d :
  match try_recv d with
  | (None, d') => d' = d
  | (Some (seq, None, f), d') =>
      exists bs, d_barriers d = (seq, f) :: bs /\
        d' = MkDelivery (d_capacity d) (d_queues d) bs (d_sequence d) (d_native_started d) (d_closed d)
               (d_transport d) (d_flushes d) /\
        forall s h, head (d_queues d s) = Some h -> seq < h
  | (Some (seq, Some stream, f), d') =>
      exists t q', head (d_queues d stream) = Some seq /\ pop stream (d_queues d stream) = Some (t, q') /\
        f = into_fan t /\ d' = with_queue stream q' d /\
        (forall s h, head (d_queues d s) = Some h -> seq <= h) /\
        (forall b g bs, d_barriers d = (b, g) :: bs -> seq <= b)
  end.
Proof.
  unfold try_recv. pose proof (min_head_spec ALL (d_queues d)) as Hm.
  destruct (min_head ALL (d_queues d)) as [[m stream]|].
  - destruct Hm as (_ & Hh & Hall).
    assert (Hall' : forall s h, head (d_queues d s) = Some h -> m <= h)
      by (intros s h; apply Hall, all_streams).
    destruct (d_barriers d) as [|[b f] bs] eqn:Eb.
    + destruct (pop stream (d_queues d stream)) as [[t q']|] eqn:Ep; [|done]. by exists t, q'.
    + destruct (b <? m) eqn:E.
      { exists bs. split; [done|]. split; [done|]. intros s h Hs. specialize (Hall' s h Hs). lia. }
      destruct (pop stream (d_queues d stream)) as [[t q']|] eqn:Ep; [|done]. exists t, q'.
      split_and!; try done. intros ? ? ? [= <- <- <-]. lia.
  - destruct (d_barriers d) as [|[b f] bs] eqn:Eb; [done|]. exists bs. split; [done|]. split; [done|].
    intros s h Hs. rewrite (Hm s (all_streams s)) in Hs. done.
Qed.

Lemma raise_wf h last :
  wf_hist h -> (forall s m, head (d_queues (h_d h) s) = Some m -> last <= m) ->
  Forall (fun b => last <= b.1) (d_barriers (h_d h)) -> last <= d_sequence (h_d h) ->
  wf_hist (MkHist (h_d h) (h_pushed h) (h_read h) last).
Proof.
  intros [Hc Hl Hq Ha Hb [Hbs Hbb] Hn] Hs Hbl Hle. split; simpl; try done.
  - intros s. eapply wf_raise; [apply Hq|]. intros m Hm. by eapply Hs.
  - split; [done|]. apply Forall_forall. intros b Hin. rewrite Forall_forall in Hbl, Hbb.
    specialize (Hbl b Hin). specialize (Hbb b Hin). lia.
Qed.

Lemma recv_wf h seq stream f d' :
  wf_hist h -> d_transport (h_d h) = true -> try_recv (h_d h) = (Some (seq, Some stream, f), d') ->
  h_last h <= seq /\
  wf_hist (MkHist d' (h_pushed h) (<[stream := h_read h stream ++ [content (TakenShared f)]]> (h_read h)) seq).
Proof.
  intros Hh Ht Hrv. pose proof (try_recv_cases (h_d h)) as Hc. rewrite Hrv in Hc.
  destruct Hc as (t & q' & Hhd & Hpop & -> & -> & Hall & Hbar).
  pose proof (queue_pop_ok stream _ _ _ _ _ (wh_queue _ Hh stream) (wh_accounts _ Hh stream)) as Hp.
  rewrite Hhd in Hp. destruct Hp as (t1 & q1 & Hpop' & Hb & Hw1 & Ha1 & _ & _ & Hi).
  rewrite Hpop in Hpop'. injection Hpop' as <- <-. split; [lia|].
  assert (Hraise : wf_hist (MkHist (h_d h) (h_pushed h) (h_read h) seq)).
  { apply raise_wf; [done|done| |lia]. destruct (wh_barriers _ Hh) as [Hbs _].
    destruct (d_barriers (h_d h)) as [|[b g] bs]; [constructor|].
    specialize (Hbar b g bs eq_refl). inversion Hbs as [|? ? _ Hf]; subst. constructor; [done|].
    eapply Forall_impl; [exact Hf|]. simpl. lia. }
  rewrite content_into_fan.
  apply (with_queue_wf (MkHist (h_d h) (h_pushed h) (h_read h) seq)); try done.
  - simpl. pose proof (wh_bound _ Hh stream) as Hbd.
    rewrite (wq_len _ _ _ Hw1). rewrite (wq_len _ _ _ (wh_queue _ Hh stream)) in Hbd.
    destruct Hi as [[_ ->]|[s Hs]]; [done|]. rewrite Hs in Hbd. simpl in Hbd. lia.
  - simpl. congruence.
Qed.

Lemma dstep_wf h h' : wf_hist h -> dstep h h' -> wf_hist h'.
Proof.
  intros Hh Hs. pose proof Hh as [Hc Hl Hq Ha Hb [Hbs Hbb] Hn].
  destruct Hs as [h stream r Hr Hnr|h|h|h|h stream max es d' Ht Hne|h stream max o d' Hne Ho
                 |h seq stream f d' Ht Hrv|h seq f d' Ht Hrv].
  - by apply push_wf.
  - by split.
  - unfold flush. destruct (negb (d_transport (h_d h))); [by split|].
    destruct (d_closed (h_d h)); [done|]. split; simpl; try done.
    + lia.
    + intros s. eapply wf_weaken; [apply Hq|lia|lia].
    + intros s. eapply accounts_weaken; [apply Ha|lia].
    + split.
      * apply (sorted_app_lt _ _ (d_sequence (h_d h))); [done|by repeat constructor| |].
        -- eapply Forall_impl; [exact Hbb|]. simpl. lia.
        -- constructor; [simpl; lia|constructor].
      * apply Forall_app. split; [eapply Forall_impl; [exact Hbb|]; simpl; lia|].
        constructor; [simpl; lia|constructor].
  - unfold take_events. destruct (d_native_started (h_d h)); [done|]. by split.
  - pose proof (next_events_ok stream max (h_d h) _ _ _ _ (Hq stream) (Ha stream) (Hn Ht stream)) as He.
    rewrite Hne in He. destruct He as (q' & -> & _ & _ & Hw' & Ha' & Hn' & Hl' & _).
    assert (Hst : wf_hist (MkHist (started (h_d h)) (h_pushed h) (h_read h) (h_last h))) by (by split).
    apply (with_queue_wf _ stream q' _ Hst Hw' Ha'); [|done]. simpl. specialize (Hb stream). lia.
  - assert (Hd : d' = started (h_d h)).
    { revert Hne Ho. unfold next_events, started. clear.
      repeat case_match; intros [= <- <-] Ho; try done; first [by destruct Ho|congruence]. }
    subst d'. by split.
  - by apply (recv_wf h seq stream f d').
  - pose proof (try_recv_cases (h_d h)) as Hcs. rewrite Hrv in Hcs.
    destruct Hcs as (bs & Eb & -> & Hall). rewrite Eb in Hbs, Hbb.
    inversion Hbs as [|? ? Hbs' Hf]; subst. apply Forall_cons in Hbb as [Hb0 Hbb]. simpl in Hb0.
    assert (Hd : wf_hist (MkHist (MkDelivery (d_capacity (h_d h)) (d_queues (h_d h)) bs (d_sequence (h_d h))
      (d_native_started (h_d h)) (d_closed (h_d h)) (d_transport (h_d h)) (d_flushes (h_d h)))
      (h_pushed h) (h_read h) (h_last h))) by (by split).
    apply (raise_wf _ seq Hd); simpl.
    + intros s m Hm. specialize (Hall s m Hm). lia.
    + eapply Forall_impl; [exact Hf|]. simpl. lia.
    + lia.
Qed.

Lemma hist_wf d h : fresh d -> rtc dstep (hist_new d) h -> wf_hist h.
Proof.
  intros Hd Hr. pose proof (hist_new_wf d Hd) as H0.
  induction Hr as [|h0 h1 h2 Hs _ IH]; [done|]. apply IH. by eapply dstep_wf.
Qed.

(** (C18) A slow reader loses events but never count of them: whatever was pushed to an
    attachment, what its reader has got and will get from a stream is what was
    pushed to it, in order, with each run of lost events replaced by one gap of
    exactly their number (a lost notice of zero counts for nothing), and a queue never exceeds its capacity; a native read
    never panics; the transport receives records in the order they were pushed
    across all streams, and a recovery barrier only after everything pushed before
    it has been received or reported lost. *)
Theorem delivery_accounts d h :
  fresh d -> rtc dstep (hist_new d) h ->
  (forall s, explains s (h_pushed h s).*2 (h_read h s ++ visible s (d_queues (h_d h) s)) /\
     q_len (d_queues (h_d h) s) <= d_capacity (h_d h)) /\
  (d_transport (h_d h) = false -> forall s max, (next_events s max (h_d h)).1 <> Panic) /\
  (forall seq o f d', try_recv (h_d h) = (Some (seq, o, f), d') -> h_last h <= seq /\
     (o = None -> forall s, exists seen rest, h_pushed h s = seen ++ rest /\
        explains s seen.*2 (h_read h s) /\ Forall (fun p => seq < p.1) rest)).
Proof.
  intros Hd Hr. pose proof (hist_wf d h Hd Hr) as Hh. pose proof Hh as [Hc Hl Hq Ha Hb [Hbs Hbb] Hn].
  split_and!.
  - intros s. split; [|done]. eapply accounts_explains, Ha.
  - intros Ht s max. pose proof (next_events_ok s max (h_d h) _ _ _ _ (Hq s) (Ha s) (Hn Ht s)) as He.
    destruct (next_events s max (h_d h)) as [[]]; try done.
  - intros seq o f d' Hrv. pose proof (try_recv_cases (h_d h)) as Hcs. rewrite Hrv in Hcs. destruct o as [stream|].
    + destruct Hcs as (t & q' & Hhd & Hpop & _). split; [|done].
      pose proof (queue_pop_ok stream _ _ _ _ _ (Hq stream) (Ha stream)) as Hp. rewrite Hhd in Hp.
      destruct Hp as (? & ? & _ & Hlo & _). lia.
    + destruct Hcs as (bs & Eb & _ & Hall). rewrite Eb in Hbb. apply Forall_cons in Hbb as [Hb0 _]. simpl in Hb0.
      split; [lia|]. intros _ s.
      destruct (queue_head_read s _ _ _ _ _ (Hq s) (Ha s)) as (seen & rest & E & He & Hrest).
      exists seen, rest. split; [done|]. split; [done|].
      destruct (head (d_queues (h_d h) s)) as [m|] eqn:Em; [|by rewrite Hrest].
      specialize (Hall s m Em). eapply Forall_impl; [exact Hrest|]. simpl. lia.
Qed.

(** ** Samples *)

Module DeliverySample.
Definition do_push (stream : Stream) (r : Rec) (h : Hist) : Hist :=
  MkHist (push stream r (h_d h))
    (if d_closed (h_d h) then h_pushed h
     else <[stream := h_pushed h stream ++ log_rec (d_sequence (h_d h)) r]> (h_pushed h))
    (h_read h) (h_last h).
Definition do_flush (h : Hist) : Hist := MkHist (flush (h_d h)).2 (h_pushed h) (h_read h) (h_last h).
Definition do_recv (h : Hist) : Hist :=
  match try_recv (h_d h) with
  | (Some (seq, Some s, f), d') =>
      MkHist d' (h_pushed h) (<[s := h_read h s ++ [content (TakenShared f)]]> (h_read h)) seq
  | (Some (seq, None, f), d') => MkHist d' (h_pushed h) (h_read h) seq
  | _ => h
  end.

Lemma recv_reach h0 h : rtc dstep h0 h -> d_transport (h_d h) = true -> rtc dstep h0 (do_recv h).
Proof.
  intros Hr Ht. unfold do_recv. destruct (try_recv (h_d h)) as [[[[seq [s|]] f]|] d'] eqn:E; [| |done].
  - eapply rtc_r; [done|]. by apply DRecv.
  - eapply rtc_r; [done|]. by eapply DBarrier.
Qed.

(** Three trades for a queue of two, a barrier, a PnL event behind it. *)
Definition trades : Rec := Batch [LastTrade None None 1; LastTrade None None 2; LastTrade None None 3].
Definition queued : Hist :=
  do_push Pnl (Shared (Encoded (AccountPnl 9))) (do_flush (do_push Ticker trades (hist_new (new_transport 2)))).
Definition received : Hist := do_recv (do_recv (do_recv queued)).

Lemma queued_reach : rtc dstep (hist_new (new_transport 2)) queued.
Proof.
  eapply rtc_l; [apply (DPush _ Ticker trades); [|done]|].
  { split; [discriminate|]. repeat constructor; simpl; lia. }
  eapply rtc_l; [apply DFlush|].
  eapply rtc_l; [apply (DPush _ Pnl (Shared (Encoded (AccountPnl 9))))|apply rtc_refl].
  - split; [discriminate|]. repeat constructor; simpl; lia.
  - intros E. vm_compute in E. discriminate.
Qed.

Lemma received_reach : rtc dstep (hist_new (new_transport 2)) received.
Proof. do 3 (apply recv_reach; [|reflexivity]). apply queued_reach. Qed.

Example gap_first : h_read received Ticker = [Gap Ticker 1; LastTrade None None 2; LastTrade None None 3].
Proof. reflexivity. Qed.

Lemma delivery_accounts_witness :
  explains Ticker [LastTrade None None 1; LastTrade None None 2; LastTrade None None 3]
    [Gap Ticker 1; LastTrade None None 2; LastTrade None None 3].
Proof.
  apply (delivery_accounts (new_transport 2) received (ex_intro _ 2 (or_intror eq_refl)) received_reach).
Defined.
(** An order-plant gap of zero ("reconcile, I do not know how much you missed") that
    a full queue evicts first leaves its reader nothing: two notifications on, the
    reader sees only them, as if no gap had been published. *)
Example zero_gap_vanishes :
  h_read (do_recv (do_recv (do_recv
    (do_push Order (Shared (Encoded (OrderNotification 2)))
      (do_push Order (Shared (Encoded (OrderNotification 1)))
        (do_push Order (Batch [Gap Order 0]) (hist_new (new_transport 2)))))))) Order
  = [OrderNotification 1; OrderNotification 2].
Proof. reflexivity. Qed.
End DeliverySample.
