(* ===== verification/StatusDoc.v ===== *)
(** * The status scoreboard ([scripts/status_progress.py])

    [docs/STATUS.md] marks work items with checkboxes; the script counts them per
    section, prints the scoreboard to paste into the document, and with [--check]
    compares the scoreboard already there with the marks.  A document is its list
    of lines; the regular expressions are the matchers below. *)

From Stdlib Require Import Ascii String.
From stdpp Require Import base strings list.
From Stdlib Require Import ZArith Lia.
From Corelib Require Import SpecFloat.
From S2P Require Import Prelude PyVal.
Import Text.
Open Scope string_scope.
Open Scope list_scope.
Open Scope Z_scope.

Module StatusDoc.

(** ** Patterns *)

Definition is_ch (c a : ascii) : bool := bool_decide (a = c).
Definition word_char (a : ascii) : bool := is_digit a || is_upper a || is_lower a || is_ch "_" a.

(** [MARK_RE.finditer]: the marks of a line, in lower case. *)
Definition mark_char (a : ascii) : bool := is_ch " " a || is_ch "x" a || is_ch "X" a || is_ch "~" a.
Fixpoint marks (s : string) : list ascii :=
  match s with
  | EmptyString => []
  | String a s' =>
      if is_ch "[" a then
        match s' with
        | String c (String b r) =>
            if mark_char c && is_ch "]" b then low_ascii c :: marks r else marks s'
        | _ => marks s'
        end
      else marks s'
  end.

(** [len(NA_RE.findall(line))]; [prev] says that a word character precedes. *)
Definition starts_word (s : string) : bool :=
  match s with String a _ => word_char a | EmptyString => false end.
Fixpoint na_count (prev : bool) (s : string) : nat :=
  match s with
  | EmptyString => 0
  | String a s' =>
      if is_ch "N" a then
        match s' with
        | String b (String c r) =>
            if is_ch "/" b && is_ch "A" c && negb prev && negb (starts_word r)
            then S (na_count true r) else na_count true s'
        | _ => na_count true s'
        end
      else na_count (word_char a) s'
  end.

(** [FENCE_RE.match]. *)
Definition is_fence (line : string) : bool :=
  let r := dropl py_space line in String.prefix "```" r || String.prefix "~~~" r.

(** [SECTION_RE.match]: the title. *)
Definition section_title (line : string) : option string :=
  match strip_prefix "##" line with
  | Some (String a r) => if py_space a then Some (strip r) else None
  | _ => None
  end.

(** A table cell of digits and the bar after it. *)
Fixpoint take_digits (s : string) : string * string :=
  match s with
  | String a s' => if is_digit a then let '(d, r) := take_digits s' in (String a d, r) else (EmptyString, s)
  | EmptyString => (EmptyString, EmptyString)
  end.
Definition cell (s : string) : option (Z * string) :=
  let '(d, r) := take_digits (dropl py_space s) in
  if nonempty d then
    match Z_of_str d, strip_prefix "|" (dropl py_space r) with
    | Some n, Some r' => Some (n, r')
    | _, _ => None
    end
  else None.
Fixpoint cells (n : nat) (s : string) : option (list Z) :=
  match n with
  | O => match dropl py_space s with EmptyString => Some [] | _ => None end
  | S n' =>
      match cell s with
      | Some (z, r) => cons z <$> cells n' r
      | None => None
      end
  end.

(** [ROLLUP_ROW_RE] from the closing [**] of the label on. *)
Definition row_tail (s : string) : option (list Z) :=
  match strip_prefix "**" s with
  | Some r => match strip_prefix "|" (dropl py_space r) with Some r' => cells 5 r' | None => None end
  | None => None
  end.

(** The label: the shortest that lets the rest of the row match. *)
Fixpoint row_label (s : string) : option (string * list Z) :=
  match s with
  | EmptyString => None
  | String a s' =>
      match row_tail s' with
      | Some ns => Some (String a EmptyString, ns)
      | None => (fun p => (String a p.1, p.2)) <$> row_label s'
      end
  end.

(** [ROLLUP_ROW_RE.match]: [m.group(1).strip()] and the numbers. *)
Definition rollup_row (line : string) : option (string * list Z) :=
  match strip_prefix "|" line with
  | Some r =>
      match strip_prefix "**" (dropl py_space r) with
      | Some r' => (fun p => (strip p.1, p.2)) <$> row_label r'
      | None => None
      end
  | None => None
  end.

(** ** Counting *)

Record Counts := MkCounts { c_x : nat; c_partial : nat; c_open : nat; c_na : nat }.
Definition zero : Counts := MkCounts 0 0 0 0.
Definition add_na (n : nat) (c : Counts) : Counts := MkCounts (c_x c) (c_partial c) (c_open c) (c_na c + n).
Definition add_mark (c : Counts) (token : ascii) : Counts :=
  if is_ch "x" token then MkCounts (S (c_x c)) (c_partial c) (c_open c) (c_na c)
  else if is_ch "~" token then MkCounts (c_x c) (S (c_partial c)) (c_open c) (c_na c)
  else MkCounts (c_x c) (c_partial c) (S (c_open c)) (c_na c).
Definition total (c : Counts) : nat := c_x c + c_partial c + c_open c + c_na c.

Definition PREAMBLE : string := "(preamble)".
Definition SKIPPED : string := "(skipped)".
Definition GENERATED_SECTION_PREFIX : string := "At-a-glance".

Record Parse := MkParse {
  p_sections : list (string * Counts);     (* insertion-ordered *)
  p_grand : Counts;
  p_section : string;
  p_in_fence : bool
}.
Definition parse_new : Parse := MkParse [(PREAMBLE, zero)] zero PREAMBLE false.

Definition has_key {A} (k : string) (l : list (string * A)) : bool := bool_decide (k ∈ l.*1).
Definition set_default (k : string) (l : list (string * Counts)) : list (string * Counts) :=
  if has_key k l then l else l ++ [(k, zero)].
Definition update (k : string) (f : Counts -> Counts) (l : list (string * Counts)) : list (string * Counts) :=
  (fun p => if bool_decide (p.1 = k) then (p.1, f p.2) else p) <$> l.

Definition count_line (line : string) (c : Counts) : Counts :=
  fold_left add_mark (marks line) (add_na (na_count false line) c).

(** One turn of the loop of [parse_marks]. *)
Definition parse_line (s : Parse) (line : string) : Parse :=
  if is_fence line then MkParse (p_sections s) (p_grand s) (p_section s) (negb (p_in_fence s))
  else if p_in_fence s then s
  else
    match section_title line with
    | Some title =>
        if String.prefix GENERATED_SECTION_PREFIX title
        then MkParse (p_sections s) (p_grand s) SKIPPED (p_in_fence s)
        else MkParse (set_default title (p_sections s)) (p_grand s) title (p_in_fence s)
    | None =>
        if bool_decide (p_section s = PREAMBLE) || bool_decide (p_section s = SKIPPED) then s
        else MkParse (update (p_section s) (count_line line) (p_sections s))
               (count_line line (p_grand s)) (p_section s) (p_in_fence s)
    end.

Definition parse_doc (doc : list string) : Parse := fold_left parse_line doc parse_new.
Definition parse_marks (doc : list string) : list (string * Counts) * Counts :=
  (p_sections (parse_doc doc), p_grand (parse_doc doc)).

(** ** The scoreboard *)

Definition f64_nat (n : nat) : f64 := f64_of_decimal false (N.of_nat n) 0.
Definition pct (done partial total : nat) : string :=
  if (total =? 0)%nat then "n/a"
  else
    let half := SFmul prec64 emax64 (f64_of_decimal false 5 (-1)) (f64_nat partial) in
    let share := SFdiv prec64 emax64 (SFadd prec64 emax64 (f64_nat done) half) (f64_nat total) in
    fixed_f64 0 (SFmul prec64 emax64 share (f64_nat 100)) +:+ "%".

Definition num (n : nat) : string := str_of_Z (Z.of_nat n).
Definition row_text (name : string) (c : Counts) : string :=
  "| **" +:+ name +:+ "** | " +:+ num (total c) +:+ " | " +:+ num (c_x c) +:+ " | " +:+ num (c_partial c)
  +:+ " | " +:+ num (c_open c) +:+ " | " +:+ num (c_na c) +:+ " |".

Definition heading_rows : list string :=
  [ "## " +:+ GENERATED_SECTION_PREFIX +:+ " (generated — run `python scripts/status_progress.py`)";
    "";
    "Legend: **Done** `[x]` · **Partial** `[~]` · **Not started** `[ ]` · `N/A` out of scope.";
    "";
    "| Area | Total | Done | Partial | Not started | N/A |";
    "| --- | ---: | ---: | ---: | ---: | ---: |" ].

Definition listed (p : string * Counts) : bool :=
  negb (bool_decide (p.1 = PREAMBLE)) && negb (bool_decide (p.1 = SKIPPED)) && negb (total p.2 =? 0)%nat.

Definition implemented_row (grand : Counts) : string :=
  let in_scope := (total grand - c_na grand)%nat in
  "**Implemented:** " +:+ pct (c_x grand) (c_partial grand) in_scope +:+ " (`" +:+ num (c_x grand)
  +:+ "` done + `" +:+ num (c_partial grand) +:+ "` partial of `" +:+ num in_scope
  +:+ "` in-scope marked items (`" +:+ num (c_na grand) +:+ "` N/A excluded); partial counts as half).".

Definition rollup_rows (sections : list (string * Counts)) (grand : Counts) : list string :=
  heading_rows ++ ((fun p => row_text p.1 p.2) <$> List.filter listed sections)
  ++ [row_text "TOTAL" grand; ""; implemented_row grand].

(** ** The check *)

(** [rows[k] = v]. *)
Fixpoint set_row (k : string) (v : list Z) (l : list (string * list Z)) : list (string * list Z) :=
  match l with
  | [] => [(k, v)]
  | (k', v') :: l' => if bool_decide (k' = k) then (k, v) :: l' else (k', v') :: set_row k v l'
  end.
Definition get_row (k : string) (l : list (string * list Z)) : option (list Z) :=
  snd <$> List.find (fun p => bool_decide (p.1 = k)) l.

(** The rows of a text, keyed by label: [parse_doc_rows] (an empty table is its
    [None]) and the [generated] of [main]. *)
Definition add_row (rows : list (string * list Z)) (line : string) : list (string * list Z) :=
  match rollup_row line with Some (k, ns) => set_row k ns rows | None => rows end.
Definition parse_doc_rows (lines : list string) : list (string * list Z) := fold_left add_row lines [].

Inductive Drift :=
  | MissingRow (label : string)
  | Differs (label : string) (column : nat) (doc parsed : Z)
  | Obsolete (label : string).

Fixpoint column_errors (label : string) (i : nat) (got want : list Z) : list Drift :=
  match got, want with
  | g :: got', w :: want' =>
      (if g =? w then [] else [Differs label i g w]) ++ column_errors label (S i) got' want'
  | _, _ => []
  end.

Definition row_errors (doc_rows : list (string * list Z)) (p : string * list Z) : list Drift :=
  match get_row p.1 doc_rows with
  | None => [MissingRow p.1]
  | Some got => column_errors p.1 0 got p.2
  end.

Definition drift (doc_rows generated : list (string * list Z)) : list Drift :=
  (generated ≫= row_errors doc_rows) ++
  (doc_rows ≫= fun p =>
     if negb (bool_decide (p.1 = "TOTAL")) && negb (has_key p.1 generated) then [Obsolete p.1] else []).

(** What [main] prints, with its exit code. *)
Inductive Printed := Scoreboard (rows : list string) | NoTable | Drifted (errors : list Drift) | Matches.

Definition main (check : bool) (doc : list string) : Z * Printed :=
  let '(per_section, grand) := parse_marks doc in
  if negb check then (0, Scoreboard (rollup_rows per_section grand))
  else
    match parse_doc_rows doc with
    | [] => (2, NoTable)
    | doc_rows =>
        match drift doc_rows (parse_doc_rows (rollup_rows per_section grand)) with
        | [] => (0, Matches)
        | errors => (1, Drifted errors)
        end
    end.

(** ** Facts: rows print and parse back *)

Lemma num_digits n : sall is_digit (num n) = true /\ num n <> "".
Proof.
  unfold num, str_of_Z. split.
  - destruct (Z.of_nat n) as [|p|p] eqn:E; [done| |lia]. simpl.
    unfold DecimalString.NilZero.string_of_uint.
    destruct (Pos.to_uint p); [done|..]; apply sall_digits.
  - intros H. pose proof (Z_of_str_of_Z (Z.of_nat n)) as Hz. unfold str_of_Z in Hz. by rewrite H in Hz.
Qed.

Lemma take_digits_app d r :
  sall is_digit d = true -> match r with String a _ => is_digit a = false | _ => True end ->
  take_digits (d +:+ r) = (d, r).
Proof.
  induction d as [|a d IH]; rewrite ?string_app_nil, ?string_app_cons; simpl.
  - destruct r as [|a r]; [done|]. intros _ H. simpl. by rewrite H.
  - intros [Ha Hd]%andb_true_iff Hr. by rewrite Ha, (IH Hd Hr).
Qed.

Lemma digit_no_space a : is_digit a = true -> py_space a = false.
Proof. unfold is_digit, py_space. lia. Qed.

Lemma cell_num n r : cell (String " " (num n +:+ (" |" +:+ r))) = Some (Z.of_nat n, r).
Proof.
  unfold cell. destruct (num_digits n) as [Hd Hne].
  assert (Hl : dropl py_space (String " " (num n +:+ (" |" +:+ r))) = num n +:+ (" |" +:+ r)).
  { simpl. destruct (num n) as [|a d]; [done|]. rewrite string_app_cons. simpl in Hd.
    apply andb_true_iff in Hd as [Ha _]. simpl. by rewrite (digit_no_space a Ha). }
  rewrite Hl, take_digits_app by done.
  replace (nonempty (num n)) with true by (by destruct (num n)).
  replace (Z_of_str (num n)) with (Some (Z.of_nat n)) by (symmetry; apply Z_of_str_of_Z). done.
Qed.

Definition row_of (c : Counts) : list Z :=
  [Z.of_nat (total c); Z.of_nat (c_x c); Z.of_nat (c_partial c); Z.of_nat (c_open c); Z.of_nat (c_na c)].

(** A row after its label. *)
Fixpoint cells_text (l : list nat) : string :=
  match l with [] => "" | n :: l' => String " " (num n +:+ (" |" +:+ cells_text l')) end.
Definition row_rest (c : Counts) : string :=
  "** |" +:+ cells_text [total c; c_x c; c_partial c; c_open c; c_na c].

Lemma row_text_rest name c : row_text name c = "| **" +:+ (name +:+ row_rest c).
Proof. reflexivity. Qed.

Lemma cells_of_text l : cells (length l) (cells_text l) = Some (Z.of_nat <$> l).
Proof.
  induction l as [|n l IH]; [done|]. cbn [length cells cells_text]. by rewrite cell_num, IH.
Qed.

Lemma row_tail_rest c : row_tail (row_rest c) = Some (row_of c).
Proof. exact (cells_of_text [total c; c_x c; c_partial c; c_open c; c_na c]). Qed.

(** A row matches from its last [**] on only. *)
Lemma take_digits_eq s : let '(d, r) := take_digits s in s = d +:+ r /\ sall is_digit d = true.
Proof.
  induction s as [|a s IH]; simpl; [done|]. destruct (is_digit a) eqn:E; [|done].
  destruct (take_digits s) as [d r]. destruct IH as [-> Hd]. simpl. by rewrite E.
Qed.

Lemma dropl_no_star s : has_char "*" (dropl py_space s) = has_char "*" s.
Proof.
  induction s as [|a s IH]; simpl; [done|]. destruct (py_space a) eqn:E; [|done].
  rewrite IH. rewrite bool_decide_eq_false_2; [done|]. by intros ->.
Qed.

Lemma digits_no_star d : sall is_digit d = true -> has_char "*" d = false.
Proof.
  induction d as [|a d IH]; simpl; [done|]. intros [Ha Hd]%andb_true_iff. rewrite (IH Hd), orb_false_r.
  apply bool_decide_eq_false. by intros ->.
Qed.

Lemma cells_no_star n : forall s ns, cells n s = Some ns -> has_char "*" s = false.
Proof.
  induction n as [|n IH]; intros s ns; simpl; rewrite <- dropl_no_star.
  - by destruct (dropl py_space s).
  - unfold cell. pose proof (take_digits_eq (dropl py_space s)) as Ht.
    destruct (take_digits (dropl py_space s)) as [d r]. destruct Ht as [-> Hd].
    destruct (nonempty d); [|done]. destruct (Z_of_str d); [|done].
    destruct (strip_prefix "|" (dropl py_space r)) as [r'|] eqn:Er; [|done].
    destruct (cells n r') as [l|] eqn:Ec; [|done]. intros _.
    rewrite has_char_app, (digits_no_star d Hd), <- dropl_no_star, (strip_prefix_eq _ _ _ Er).
    simpl. eauto.
Qed.

Lemma row_tail_shape s ns : row_tail s = Some ns -> exists r, s = "**" +:+ r /\ has_char "*" r = false.
Proof.
  unfold row_tail. destruct (strip_prefix "**" s) as [r|] eqn:E; [|done].
  destruct (strip_prefix "|" (dropl py_space r)) as [r'|] eqn:Er; [|done]. intros Hc.
  exists r. split; [by apply strip_prefix_eq|]. rewrite <- dropl_no_star, (strip_prefix_eq _ _ _ Er). simpl.
  by eapply cells_no_star.
Qed.

Lemma row_tail_early n c : n <> "" -> row_tail (n +:+ row_rest c) = None.
Proof.
  intros Hn. destruct (row_tail (n +:+ row_rest c)) as [ns|] eqn:E; [exfalso|done].
  apply row_tail_shape in E as (r & E & Hr). destruct n as [|a [|b n]]; [done| |].
  - change (String a ("**" +:+ (" |" +:+ cells_text [total c; c_x c; c_partial c; c_open c; c_na c]))
            = String "*" (String "*" r)) in E.
    injection E as _ <-. discriminate Hr.
  - change (String a (String b (n +:+ row_rest c)) = String "*" (String "*" r)) in E.
    injection E as _ _ <-. rewrite has_char_app in Hr.
    apply orb_false_iff in Hr as [_ Hr]. discriminate Hr.
Qed.

Lemma row_label_rest name c : name <> "" -> row_label (name +:+ row_rest c) = Some (name, row_of c).
Proof.
  induction name as [|a name IH]; intros Hn; [done|]. rewrite string_app_cons. cbn [row_label].
  destruct (decide (name = "")) as [->|Hne].
  - by rewrite string_app_nil, row_tail_rest.
  - by rewrite row_tail_early, (IH Hne).
Qed.

(** The row of a section reads back as its label and counts. *)
Lemma rollup_row_text name c : name <> "" -> strip name = name ->
  rollup_row (row_text name c) = Some (name, row_of c).
Proof.
  intros Hn Hs. rewrite row_text_rest.
  change (rollup_row ("| **" +:+ (name +:+ row_rest c)))
    with ((fun p : string * list Z => (strip p.1, p.2)) <$> row_label (name +:+ row_rest c)).
  rewrite (row_label_rest name c Hn). simpl. by rewrite Hs.
Qed.

(** ** Facts: the table as a map *)

Lemma get_set_row k v k' l :
  get_row k' (set_row k v l) = if decide (k' = k) then Some v else get_row k' l.
Proof.
  unfold get_row. induction l as [|[k1 v1] l IH]; simpl.
  - destruct (decide (k' = k)) as [->|Hne]; simpl; [by rewrite bool_decide_eq_true_2|].
    by rewrite bool_decide_eq_false_2.
  - destruct (decide (k1 = k)) as [->|Hk]; rewrite ?bool_decide_eq_true_2, ?bool_decide_eq_false_2 by done; simpl.
    + destruct (decide (k' = k)) as [->|Hne]; [by rewrite bool_decide_eq_true_2|].
      rewrite bool_decide_eq_false_2 by done. done.
    + case_bool_decide as E.
      * subst k1. by rewrite decide_False.
      * apply IH.
Qed.

(** The last row of a label counts. *)
Definition last_row (k : string) (lines : list string) (init : option (list Z)) : option (list Z) :=
  fold_left (fun o line => match rollup_row line with
                           | Some (k', ns) => if decide (k = k') then Some ns else o
                           | None => o
                           end) lines init.

Lemma get_parse_rows k lines : forall rows,
  get_row k (fold_left add_row lines rows) = last_row k lines (get_row k rows).
Proof.
  induction lines as [|line lines IH]; intros rows; simpl; [done|]. rewrite IH. f_equal.
  unfold add_row. destruct (rollup_row line) as [[k' ns]|]; [|done]. apply get_set_row.
Qed.

Lemma last_row_app k l1 l2 o : last_row k (l1 ++ l2) o = last_row k l2 (last_row k l1 o).
Proof. apply fold_left_app. Qed.

Lemma last_row_none k lines o : Forall (fun l => rollup_row l = None) lines -> last_row k lines o = o.
Proof. induction 1 as [|l ls H _ IH]; simpl; [done|]. by rewrite H. Qed.

Lemma get_row_key k l : is_Some (get_row k l) <-> has_key k l = true.
Proof.
  unfold get_row, has_key. rewrite bool_decide_eq_true. induction l as [|[k1 v1] l IH]; simpl.
  - split; [by intros [? ?]|by intros ?%not_elem_of_nil].
  - rewrite elem_of_cons. case_bool_decide as E; simpl; [subst; naive_solver|]. rewrite IH. naive_solver.
Qed.

Lemma set_row_keys k v l : forall k', k' ∈ (set_row k v l).*1 <-> k' = k \/ k' ∈ l.*1.
Proof.
  induction l as [|[k1 v1] l IH]; intros k'; simpl; [by rewrite list_elem_of_singleton, elem_of_nil; naive_solver|].
  case_bool_decide as E; simpl; rewrite !elem_of_cons; [subst; naive_solver|]. rewrite IH. naive_solver.
Qed.

Lemma set_row_nodup k v l : NoDup l.*1 -> NoDup (set_row k v l).*1.
Proof.
  induction l as [|[k1 v1] l IH]; simpl; [intros _; apply NoDup_singleton|].
  rewrite NoDup_cons. intros [Hk Hl]. case_bool_decide as E; simpl; rewrite NoDup_cons.
  - by subst.
  - split; [|by apply IH]. rewrite set_row_keys. naive_solver.
Qed.

Definition five (l : list (string * list Z)) : Prop := Forall (fun p => length p.2 = 5%nat) l.

Lemma cells_length n : forall s ns, cells n s = Some ns -> length ns = n.
Proof.
  induction n as [|n IH]; intros s ns; simpl.
  - destruct (dropl py_space s); [by intros [= <-]|done].
  - destruct (cell s) as [[z r]|]; [|done]. destruct (cells n r) as [l|] eqn:E; [|done].
    intros [= <-]. simpl. f_equal. eauto.
Qed.

Lemma row_label_five s l ns : row_label s = Some (l, ns) -> length ns = 5%nat.
Proof.
  revert l. induction s as [|a s IH]; intros l; simpl; [done|].
  destruct (row_tail s) as [ns'|] eqn:E.
  - intros [= _ <-]. revert E. unfold row_tail. repeat case_match; try done. apply cells_length.
  - destruct (row_label s) as [[l' ns']|]; [|done]. intros [= _ <-]. eauto.
Qed.

Lemma rollup_row_five line k ns : rollup_row line = Some (k, ns) -> length ns = 5%nat.
Proof.
  unfold rollup_row. repeat case_match; try done. destruct (row_label _) as [[l ns']|] eqn:E; [|done].
  intros [= _ <-]. by eapply row_label_five.
Qed.

Lemma set_row_five k v l : length v = 5%nat -> five l -> five (set_row k v l).
Proof.
  intros Hv Hl. induction Hl as [|[k1 v1] l H1 Hl IH]; simpl; [by repeat constructor|].
  case_bool_decide; by constructor.
Qed.

Lemma parse_rows_wf lines : forall rows,
  NoDup rows.*1 -> five rows -> NoDup (fold_left add_row lines rows).*1 /\ five (fold_left add_row lines rows).
Proof.
  induction lines as [|line lines IH]; intros rows Hn Hf; simpl; [done|]. apply IH; unfold add_row.
  - destruct (rollup_row line) as [[k ns]|]; [by apply set_row_nodup|done].
  - destruct (rollup_row line) as [[k ns]|] eqn:E; [|done]. apply set_row_five; [|done]. by eapply rollup_row_five.
Qed.

Lemma get_row_in k ns l : NoDup l.*1 -> (k, ns) ∈ l -> get_row k l = Some ns.
Proof.
  unfold get_row. induction l as [|[k1 v1] l IH]; simpl; [by intros _ ?%not_elem_of_nil|].
  rewrite NoDup_cons. intros [Hk Hl] [[= <- <-]|Hin]%elem_of_cons; [by rewrite bool_decide_eq_true_2|].
  case_bool_decide as E; [|by apply IH]. subst k1. destruct Hk. by apply (list_elem_of_fmap_2 fst) in Hin.
Qed.

Lemma get_row_elem k ns l : get_row k l = Some ns -> (k, ns) ∈ l.
Proof.
  unfold get_row. induction l as [|[k1 v1] l IH]; simpl; [done|]. case_bool_decide as E; simpl.
  - intros [= ->]. subst. by left.
  - intros H. right. by apply IH.
Qed.

Lemma column_errors_nil label : forall got want i,
  length got = length want -> column_errors label i got want = [] <-> got = want.
Proof.
  induction got as [|g got IH]; intros [|w want] i Hl; simpl in *; try done.
  rewrite app_nil, IH by lia. destruct (Z.eqb_spec g w); naive_solver.
Qed.

Lemma bind_nil {A B} (f : A -> list B) l : l ≫= f = [] <-> Forall (fun a => f a = []) l.
Proof. induction l as [|a l IH]; simpl; [done|]. rewrite app_nil, Forall_cons, IH. done. Qed.

(** No drift: the document has every generated row, and no other but a TOTAL. *)
Lemma drift_nil d g : five d -> five g -> NoDup g.*1 ->
  drift d g = [] <->
  (forall k ns, get_row k g = Some ns -> get_row k d = Some ns) /\
  (forall k, k <> "TOTAL" -> is_Some (get_row k d) -> is_Some (get_row k g)).
Proof.
  intros Hd Hg Hn. unfold drift. rewrite app_nil, !bind_nil. unfold five in *. rewrite !Forall_forall in *. split.
  - intros [Hrows Hobs]. split.
    + intros k ns Hk. pose proof (get_row_elem _ _ _ Hk) as Hin. specialize (Hrows _ Hin). unfold row_errors in Hrows.
      simpl in Hrows. destruct (get_row k d) as [got|] eqn:Eg; [|done].
      apply column_errors_nil in Hrows; [congruence|].
      pose proof (Hg _ Hin). pose proof (Hd _ (get_row_elem _ _ _ Eg)). simpl in *. congruence.
    + intros k Ht [got Hk]. apply get_row_key. specialize (Hobs _ (get_row_elem _ _ _ Hk)). simpl in Hobs.
      rewrite bool_decide_eq_false_2 in Hobs by done. by destruct (has_key k g).
  - intros [Hrows Hobs]. split.
    + intros [k ns] Hin. unfold row_errors. simpl. rewrite (Hrows k ns (get_row_in _ _ _ Hn Hin)).
      by apply column_errors_nil.
    + intros [k ns] Hin. simpl. case_bool_decide as E; [done|]. simpl.
      assert (is_Some (get_row k g)) as ->%get_row_key; [|done]. apply Hobs; [done|].
      apply get_row_key. unfold has_key. apply bool_decide_eq_true. by apply (list_elem_of_fmap_2 fst) in Hin.
Qed.

(** ** Facts: the marks and their rows *)

Record wf_parse (s : Parse) : Prop := MkWfParse {
  wp_nodup : NoDup (p_sections s).*1;
  wp_strip : Forall (fun p => strip p.1 = p.1) (p_sections s)
}.

Lemma update_keys k f l : (update k f l).*1 = l.*1.
Proof.
  unfold update. rewrite <- list_fmap_compose. apply list_fmap_ext. intros i [k' c] _. simpl. by case_bool_decide.
Qed.

Lemma parse_line_wf s line : wf_parse s -> wf_parse (parse_line s line).
Proof.
  intros [Hn Hs]. unfold parse_line. destruct (is_fence line); [done|]. destruct (p_in_fence s); [done|].
  destruct (section_title line) as [title|] eqn:Et.
  - destruct (String.prefix _ title); [done|]. unfold set_default, has_key. split; simpl.
    + case_bool_decide as E; [done|]. rewrite fmap_app. apply NoDup_app. split; [done|]. split; [|apply NoDup_singleton].
      intros k Hk ->%list_elem_of_singleton. done.
    + case_bool_decide as E; [done|]. apply Forall_app. split; [done|]. repeat constructor. simpl.
      revert Et. unfold section_title. repeat case_match; try done. intros [= <-]. apply strip_by_idem.
  - destruct (_ || _); [done|]. split; simpl; [by rewrite update_keys|].
    unfold update. apply Forall_fmap. eapply Forall_impl; [exact Hs|]. intros [k c]. simpl. by case_bool_decide.
Qed.

Lemma parse_doc_wf doc : wf_parse (parse_doc doc).
Proof.
  unfold parse_doc. assert (H : wf_parse parse_new) by (split; [apply NoDup_singleton|by repeat constructor]).
  revert H. generalize parse_new. induction doc as [|line doc IH]; intros s Hs; simpl; [done|].
  by apply IH, parse_line_wf.
Qed.

Lemma row_label_shape s l ns : row_label s = Some (l, ns) ->
  l <> "" /\ exists r, s = l +:+ ("**" +:+ r).
Proof.
  revert l. induction s as [|a s IH]; intros l; simpl; [done|].
  destruct (row_tail s) as [ns'|] eqn:E.
  - intros [= <- _]. apply row_tail_shape in E as (r & -> & _). eauto.
  - destruct (row_label s) as [[l' ns']|]; [|done]. intros [= <- <-]. destruct (IH l' eq_refl) as [_ [r ->]].
    split; [done|]. by exists r.
Qed.

Lemma cells_text_no_star l : has_char "*" (cells_text l) = false.
Proof. eapply cells_no_star, cells_of_text. Qed.

(** A heading without a title has no readable row. *)
Lemma rollup_row_untitled c : rollup_row (row_text "" c) = None.
Proof.
  change (rollup_row (row_text "" c))
    with ((fun p : string * list Z => (strip p.1, p.2)) <$> row_label (row_rest c)).
  destruct (row_label (row_rest c)) as [[l ns]|] eqn:E; [exfalso|done].
  apply row_label_shape in E as (Hl & r & E). destruct l as [|a [|b l]]; [done| |].
  - discriminate E.
  - change (String "*" (String "*" (" |" +:+ cells_text [total c; c_x c; c_partial c; c_open c; c_na c]))
            = String a (String b (l +:+ ("**" +:+ r)))) in E.
    injection E as _ _ E. pose proof (cells_text_no_star [total c; c_x c; c_partial c; c_open c; c_na c]) as Hs.
    assert (Hc : has_char "*" (l +:+ ("**" +:+ r)) = true) by (rewrite has_char_app; apply orb_true_r).
    apply (f_equal (has_char "*")) in E. rewrite Hc in E. exact (eq_true_false_abs _ E Hs).
Qed.

(** The row of a label among the rows of sections. *)
Lemma last_row_sections k sections : forall o,
  NoDup sections.*1 -> Forall (fun p => strip p.1 = p.1) sections ->
  (forall c, (k, c) ∈ sections -> k <> "" ->
     last_row k ((fun p => row_text p.1 p.2) <$> sections) o = Some (row_of c)) /\
  (k ∉ sections.*1 \/ k = "" -> last_row k ((fun p => row_text p.1 p.2) <$> sections) o = o).
Proof.
  induction sections as [|[k1 c1] sections IH]; intros o; simpl; [by split; [intros c ?%not_elem_of_nil|]|].
  rewrite NoDup_cons, Forall_cons. simpl. intros [Hk Hn] [H1 Hs].
  assert (Hrow : rollup_row (row_text k1 c1) = if decide (k1 = "") then None else Some (k1, row_of c1)).
  { destruct (decide (k1 = "")) as [->|Hne]; [apply rollup_row_untitled|by apply rollup_row_text]. }
  unfold last_row. cbn [fold_left fmap list_fmap]. rewrite Hrow. split.
  - intros c [[= <- <-]|Hin]%elem_of_cons Hne.
    + rewrite !decide_False, decide_True by done. apply (IH (Some (row_of c)) Hn Hs). by left.
    + apply (IH _ Hn Hs); done.
  - intros Ho. destruct (decide (k1 = "")) as [->|Hne].
    + apply (IH o Hn Hs). rewrite not_elem_of_cons in Ho. naive_solver.
    + rewrite decide_False by (rewrite not_elem_of_cons in Ho; naive_solver).
      apply (IH o Hn Hs). rewrite not_elem_of_cons in Ho. naive_solver.
Qed.

Lemma listed_wf sections :
  NoDup sections.*1 -> Forall (fun p => strip p.1 = p.1) sections ->
  NoDup (List.filter listed sections).*1 /\ Forall (fun p => strip p.1 = p.1) (List.filter listed sections).
Proof.
  induction sections as [|p sections IH]; simpl; [done|]. rewrite NoDup_cons, Forall_cons. intros [Hp Hn] [H1 Hs].
  destruct (IH Hn Hs) as [IH1 IH2]. destruct (listed p); [|done]. simpl. rewrite NoDup_cons. split; [|by constructor].
  split; [|done]. intros Hin. apply Hp. apply list_elem_of_fmap in Hin as (q & -> & Hq).
  apply list_elem_of_fmap_2. apply list_elem_of_In, List.filter_In in Hq as [Hq _]. by apply list_elem_of_In.
Qed.

Lemma listed_in p sections : p ∈ List.filter listed sections <-> p ∈ sections /\ listed p = true.
Proof. by rewrite !list_elem_of_In, List.filter_In. Qed.

(** The scoreboard read back: the listed sections with their counts, and TOTAL. *)
Lemma generated_rows sections grand k :
  NoDup sections.*1 -> Forall (fun p => strip p.1 = p.1) sections ->
  let g := parse_doc_rows (rollup_rows sections grand) in
  get_row "TOTAL" g = Some (row_of grand) /\
  (k <> "TOTAL" ->
     (forall c, (k, c) ∈ sections -> listed (k, c) = true -> k <> "" -> get_row k g = Some (row_of c)) /\
     (forall ns, get_row k g = Some ns ->
        k <> "" /\ exists c, (k, c) ∈ sections /\ listed (k, c) = true /\ ns = row_of c)).
Proof.
  intros Hn Hs g. destruct (listed_wf sections Hn Hs) as [Hln Hls].
  assert (Hg : forall k', get_row k' g = last_row k' [row_text "TOTAL" grand]
      (last_row k' ((fun p => row_text p.1 p.2) <$> List.filter listed sections) None)).
  { intros k'. unfold g, parse_doc_rows, rollup_rows. rewrite get_parse_rows, !last_row_app.
    rewrite (last_row_none k' heading_rows) by (repeat constructor). done. }
  assert (Ht : rollup_row (row_text "TOTAL" grand) = Some ("TOTAL", row_of grand)) by (by apply rollup_row_text).
  split.
  { rewrite Hg. unfold last_row at 1. cbn [fold_left]. rewrite Ht. by rewrite decide_True. }
  intros Hk. rewrite !Hg. unfold last_row at 1 3. cbn [fold_left]. rewrite Ht, !decide_False by done.
  destruct (last_row_sections k (List.filter listed sections) None Hln Hls) as [H1 H2]. split.
  - intros c Hc Hl Hne. apply H1; [|done]. by apply listed_in.
  - intros ns Hns. destruct (decide (k = "")) as [->|Hne]; [rewrite H2 in Hns by (by right); done|].
    destruct (decide (k ∈ (List.filter listed sections).*1)) as [Hin|Hin]; [|rewrite H2 in Hns by (by left); done].
    apply list_elem_of_fmap in Hin as ([k' c] & Hkk & Hin). simpl in Hkk. subst k'.
    pose proof (proj1 (listed_in _ _) Hin) as [? ?]. split; [done|]. exists c. split_and!; [done|done|].
    rewrite (H1 c Hin Hne) in Hns. by injection Hns as <-.
Qed.

(** ** Facts: the scoreboard's own section is not counted *)

Definition plain (line : string) : Prop := is_fence line = false /\ section_title line = None.
Definition generated_block (block : list string) : Prop :=
  exists heading title rest, block = heading :: rest /\ is_fence heading = false /\
    section_title heading = Some title /\ String.prefix GENERATED_SECTION_PREFIX title = true /\
    Forall plain rest.

Lemma plain_skipped rest s : Forall plain rest -> p_in_fence s = true \/ p_section s = SKIPPED ->
  fold_left parse_line rest s = s.
Proof.
  intros Hr Hs. induction Hr as [|line rest [Hf Ht] _ IH]; simpl; [done|].
  replace (parse_line s line) with s; [done|]. unfold parse_line. rewrite Hf, Ht.
  destruct (p_in_fence s); [done|]. destruct Hs as [? | ->]; [done|]. done.
Qed.

Lemma block_state block s : generated_block block ->
  fold_left parse_line block s
  = if p_in_fence s then s else MkParse (p_sections s) (p_grand s) SKIPPED false.
Proof.
  intros (heading & title & rest & -> & Hf & Ht & Hp & Hr). cbn [fold_left]. unfold parse_line at 2.
  rewrite Hf, Ht, Hp. destruct (p_in_fence s) eqn:E; apply plain_skipped; auto.
Qed.

Lemma parse_marks_block pre block block' post :
  generated_block block -> generated_block block' ->
  parse_marks (pre ++ block ++ post) = parse_marks (pre ++ block' ++ post).
Proof.
  intros H H'. unfold parse_marks, parse_doc. by rewrite !fold_left_app, (block_state block), (block_state block').
Qed.

Lemma rollup_rows_block sections grand : generated_block (rollup_rows sections grand).
Proof.
  do 3 eexists. split; [reflexivity|]. split; [reflexivity|]. split; [reflexivity|]. split; [reflexivity|].
  repeat (apply Forall_cons; split; [by split|]). cbn [app]. apply Forall_app. split.
  - apply Forall_fmap, Forall_forall. intros [k c] _. by split.
  - by repeat constructor.
Qed.

Lemma main_matches doc :
  main true doc = (0, Matches) <->
  parse_doc_rows doc <> [] /\
  drift (parse_doc_rows doc) (parse_doc_rows (rollup_rows (parse_marks doc).1 (parse_marks doc).2)) = [].
Proof.
  unfold main. destruct (parse_marks doc) as [sections grand]. simpl.
  destruct (parse_doc_rows doc) as [|r rs]; [naive_solver|]. by destruct (drift _ _); naive_solver.
Qed.

(** The check tells whether the scoreboard is the marks': it passes exactly when
    the document has, for every titled section with marks, a row of exactly its
    counts, a TOTAL row of the grand totals, and no row of any other label; and replacing the
    scoreboard of any document (with no such row elsewhere) by the one the script
    prints for it makes the check pass. *)
Theorem status_check_exact doc :
  let rows := parse_doc_rows doc in
  (main true doc = (0, Matches) <->
     get_row "TOTAL" rows = Some (row_of (parse_marks doc).2) /\
     (forall name c, (name, c) ∈ (parse_marks doc).1 -> listed (name, c) = true ->
        name <> "" -> name <> "TOTAL" -> get_row name rows = Some (row_of c)) /\
     (forall label ns, get_row label rows = Some ns -> label <> "TOTAL" ->
        label <> "" /\ exists c, (label, c) ∈ (parse_marks doc).1 /\ listed (label, c) = true /\ ns = row_of c)) /\
  (forall pre block post, doc = pre ++ block ++ post -> generated_block block ->
     Forall (fun l => rollup_row l = None) (pre ++ post) ->
     exists board, main false doc = (0, Scoreboard board) /\
       main true (pre ++ board ++ post) = (0, Matches)).
Proof.
  destruct (parse_doc_wf doc) as [Hn Hs].
  assert (Hwf : forall lines, NoDup (parse_doc_rows lines).*1 /\ five (parse_doc_rows lines)).
  { intros lines. apply parse_rows_wf; constructor. }
  split.
  - destruct (Hwf doc) as [_ Hf].
    destruct (Hwf (rollup_rows (p_sections (parse_doc doc)) (p_grand (parse_doc doc)))) as [Hgn Hgf].
    pose proof (fun k => generated_rows (p_sections (parse_doc doc)) (p_grand (parse_doc doc)) k Hn Hs) as Hg.
    rewrite main_matches, (drift_nil _ _ Hf Hgf Hgn). simpl. split.
    + intros (_ & Hrows & Hobs). split_and!.
      * apply Hrows, (Hg "").
      * intros name c Hin Hl Hne Ht. by apply Hrows, (proj2 (Hg name) Ht).
      * intros label ns Hk Ht. destruct (Hobs label Ht) as [ns' Hk']; [eauto|].
        pose proof (Hrows _ _ Hk') as Hk2. rewrite Hk in Hk2. injection Hk2 as <-. by apply (Hg label).
    + intros (Htot & Hsec & Hlab). split_and!.
      * intros E. by rewrite E in Htot.
      * intros k ns Hk. destruct (decide (k = "TOTAL")) as [->|Ht].
        -- rewrite Htot, <- Hk. symmetry. apply (Hg "").
        -- destruct (proj2 (proj2 (Hg k) Ht) ns Hk) as (Hne & c & Hc & Hl & ->). by apply Hsec.
      * intros k Ht [ns Hk]. destruct (Hlab k ns Hk Ht) as (Hne & c & Hc & Hl & _). exists (row_of c).
        by apply (proj1 (proj2 (Hg k) Ht)).
  - intros pre block post -> Hb Hnone. unfold main at 1.
    destruct (parse_marks (pre ++ block ++ post)) as [sections grand] eqn:Em. cbn [negb].
    eexists. split; [reflexivity|]. unfold main.
    rewrite (parse_marks_block pre _ block post (rollup_rows_block sections grand) Hb), Em. cbn [negb].
    set (board := rollup_rows sections grand).
    apply Forall_app in Hnone as [Hpre Hpost].
    assert (Hsec : NoDup sections.*1 /\ Forall (fun p => strip p.1 = p.1) sections).
    { unfold parse_marks in Em. injection Em as <- <-. done. }
    assert (Hsame : forall k, get_row k (parse_doc_rows (pre ++ board ++ post)) = get_row k (parse_doc_rows board)).
    { intros k. unfold parse_doc_rows. rewrite !get_parse_rows, !last_row_app.
      rewrite (last_row_none k pre), (last_row_none k post) by done. done. }
    destruct (Hwf (pre ++ board ++ post)) as [_ Hf]. destruct (Hwf board) as [Hgn Hgf].
    pose proof (proj1 (generated_rows sections grand "" (proj1 Hsec) (proj2 Hsec))) as Ht.
    assert (Hd : drift (parse_doc_rows (pre ++ board ++ post)) (parse_doc_rows board) = []).
    { apply (drift_nil _ _ Hf Hgf Hgn). split; intros k; rewrite Hsame; done. }
    fold board in Ht. rewrite <- Hsame in Ht.
    destruct (parse_doc_rows (pre ++ board ++ post)); [done|]. by rewrite Hd.
Qed.

(** ** Samples *)

Module StatusSample.
Definition pre : list string := ["# Status"; "[x] legend"; "## Data"; "- [x] ticks"; "- [~] bars [X]"; "```"; "[ ]"; "```"].
Definition block : list string := ["## At-a-glance (old)"; "| **Data** | 9 | 9 | 0 | 0 | 0 |"].
Definition post : list string := ["## Orders  "; "| brackets | N/A | [ ] |"; "NN/A"].
Definition doc : list string := pre ++ block ++ post.

Example counted : parse_marks doc
  = ([(PREAMBLE, zero); ("Data", MkCounts 2 1 0 0); ("Orders", MkCounts 0 0 1 1)], MkCounts 2 1 1 1).
Proof. reflexivity. Qed.

Lemma status_check_exact_witness :
  exists board, main false doc = (0, Scoreboard board) /\ main true (pre ++ board ++ post) = (0, Matches).
Proof.
  apply (proj2 (status_check_exact doc) pre block post eq_refl).
  - exists "## At-a-glance (old)", "At-a-glance (old)", ["| **Data** | 9 | 9 | 0 | 0 | 0 |"].
    split; [reflexivity|]. split; [reflexivity|]. split; [reflexivity|]. split; [reflexivity|].
    repeat constructor.
  - repeat constructor.
Defined.

(** The comment in [main] says only section rows are compared; the generated rows
    include TOTAL, and a wrong TOTAL alone is drift. *)
Example wrong_total_is_drift :
  main true ["## Data"; "[x]"; "## At-a-glance"; "| **Data** | 1 | 1 | 0 | 0 | 0 |"; "| **TOTAL** | 2 | 1 | 0 | 0 | 0 |"]
  = (1, Drifted [Differs "TOTAL" 0 2 1]).
Proof. reflexivity. Qed.
End StatusSample.
End StatusDoc.
