(* ===== verification/Backtest.v ===== *)
(** * The so-far-today backtest ([examples/backtest_nq_today.py])

    The window the script asks for ([--rth], [--until]), the history it loads over
    one session, the engine runs it compares under [--check], and its exit codes.

    An aware datetime is the number of microseconds since the epoch in UTC.  The
    America/Chicago zone and [datetime.fromisoformat] are arguments (the zone's
    documented behaviour is a named hypothesis where a lemma needs it); so is the
    NautilusTrader engine.  Printed text is kept where it makes a claim. *)

From Stdlib Require Import Ascii String.
From stdpp Require Import base gmap strings list.
From Stdlib Require Import ZArith Lia.
From S2P Require Import Prelude PyVal Plant Lru Ident Nautilus Orders OrderRows Commission Host Convert Bars Ticks Instruments.
Import Text.
Open Scope string_scope.
Open Scope list_scope.
Open Scope Z_scope.

Module Backtest.

(** ** Times *)

Definition SECOND : Z := 1000000.
Definition DAY : Z := 86400 * SECOND.
Definition clock_us (hour minute second : Z) : Z := ((hour * 60 + minute) * 60 + second) * SECOND.

(** [t.replace(hour=..., minute=..., second=..., microsecond=0)] on wall time. *)
Definition at_clock (t hour minute second : Z) : Z := t / DAY * DAY + clock_us hour minute second.

(** The zone: wall time of an instant, and the instant of a wall time. *)
Record Zone := MkZone { zn_wall : Z -> Z; zn_utc : Z -> Z }.

(** [datetime.fromisoformat]: an aware datetime, or a naive one. *)
Inductive Iso := Aware (t : Z) | Naive (wall : Z).

Definition two_digits (a b : ascii) : option Z :=
  if is_digit a && is_digit b then Some ((chr a - 48) * 10 + (chr b - 48)) else None.

(** [(\d{2})(?::(\d{2}))?] at the end of the text, after the first colon. *)
Definition clock_tail (s : string) : option (Z * option Z) :=
  match s with
  | String a (String b r) =>
      match two_digits a b, r with
      | Some m, EmptyString => Some (m, None)
      | Some m, String ":" (String c (String d EmptyString)) =>
          match two_digits c d with Some sec => Some (m, Some sec) | None => None end
      | _, _ => None
      end
  | _ => None
  end.

(** [_CLOCK.fullmatch]. *)
Definition clock_match (s : string) : option (Z * Z * option Z) :=
  match s with
  | String a (String ":" r) =>
      if is_digit a then (fun '(m, sec) => (chr a - 48, m, sec)) <$> clock_tail r else None
  | String a (String b (String ":" r)) =>
      match two_digits a b with
      | Some h => (fun '(m, sec) => (h, m, sec)) <$> clock_tail r
      | None => None
      end
  | _ => None
  end.

(** What the printed span claims, with its hours as durations. *)
Inductive Span :=
  | CompleteRth (length : Z)
  | PartialRth (length whole remain : Z)
  | PartialUtcDay (length : Z).

Definition empty_window : exn := Exn ExValue None "empty window".

Section Window.
Variable fromisoformat : string -> option Iso.
Variable CHI : Zone.

(** A naive stamp is taken as UTC. *)
Definition parse_until (raw : string) (day : Z) : res Z :=
  let text := strip raw in
  match clock_match text with
  | Some (hour, minute, second) =>
      let sec := default 0 second in
      if (23 <? hour) || (59 <? minute) || (59 <? sec)
      then Raise (Exn ExValue None "invalid --until clock")
      else Ok (at_clock day hour minute sec)
  | None =>
      let text := match strip_suffix "Z" text with Some t => t +:+ "+00:00" | None => text end in
      match fromisoformat text with
      | Some (Aware t) => Ok t
      | Some (Naive t) => Ok t
      | None => Raise (Exn ExValue None "invalid --until")
      end
  end.

Definition rth_start (now : Z) : Z := zn_utc CHI (at_clock (zn_wall CHI now) 8 30 0).
Definition rth_end (now : Z) : Z := zn_utc CHI (at_clock (zn_wall CHI now) 15 15 0).
Definition clip (end_ : Z) (until : option Z) : Z :=
  match until with Some u => Z.min end_ u | None => end_ end.

Definition window (now : Z) (rth : bool) (until : option Z) : res (Z * Z * Span) :=
  if rth then
    let start := rth_start now in
    let end_ := clip (Z.min now (rth_end now)) until in
    if now <? rth_start now then Raise empty_window
    else if rth_end now <=? end_ then Ok (start, end_, CompleteRth (end_ - start))
    else Ok (start, end_, PartialRth (end_ - start) (rth_end now - rth_start now) (rth_end now - end_))
  else
    let start := at_clock now 0 0 0 in
    let end_ := clip now until in
    Ok (start, end_, PartialUtcDay (end_ - start)).

Definition resolve_window (now : Z) (rth : bool) (until : option string) : res (Z * Z * Span) :=
  end_until ← match until with
              | Some u => if nonempty u then t ← parse_until u now; Ok (Some t) else Ok None
              | None => Ok None
              end;
  '(start, end_, span) ← window now rth end_until;
  if end_ <=? start then Raise empty_window else Ok (start, end_, span).
End Window.

(** ** History over one session *)

(** What the venue session answers; [hw_disconnect] is the [finally]. *)
Record HistoryWorld := MkWorld {
  hw_connect : res unit;
  hw_reference : RefSession;
  hw_ticks : string -> string -> Z -> Z -> res (list pydict);
  hw_bars : string -> string -> Z -> Z -> Z -> Z -> res (list pydict);
  hw_disconnect : res unit;
  hw_time_ns : Z
}.

(** The trade-id counter, and the sessions now open. *)
Record Run := MkRun { rn_counter : Z; rn_open : nat }.

Definition on_counter {A} (m : M Z A) : M Run A :=
  fun r => let '(x, n) := m (rn_counter r) in (x, MkRun n (rn_open r)).

(** [datetime.timestamp()] of an aware datetime. *)
Definition moment_of (t : Z) : moment := AtDatetime (f64_of_decimal (t <? 0) (Z.to_N (Z.abs t)) (-6)).

(** [try: m finally: session.disconnect()]. *)
Definition finally_disconnect {A} (w : HistoryWorld) (m : M Run A) : M Run A :=
  fun r =>
    let '(x, r') := m r in
    let r'' := MkRun (rn_counter r') (pred (rn_open r')) in
    match hw_disconnect w with
    | Ok _ => (x, r'')
    | Raise e => (Raise e, r'')
    end.

Section Load.
Context `{NautilusTypes}.
Variable quantity_from_str : string -> res Price.
Variable check_contract : Contract -> res unit.

Definition load_history (w : HistoryWorld) (root exchange : string) (start end_ : Z)
  : M Run (Contract * list TradeTick * list Bar) :=
  _ ← lift (hw_connect w);
  modify (fun r => MkRun (rn_counter r) (S (rn_open r))) ;;
  finally_disconnect w
    (instrument ← lift (load_front_month_instrument quantity_from_str check_contract
                          (hw_reference w) root exchange 0);
     ticks ← catchM any_exn
       (on_counter (load_trade_ticks (hw_ticks w) instrument (moment_of start) (moment_of end_)
                      (hw_time_ns w)))
       (fun e => throw (Exn ExHistory None ("history error: " +:+ ex_text e)));
     let daily_type := MkBarType (ct_instrument_id instrument) ADay 1 true in
     let daily_bars :=
       match load_time_bars (hw_bars w) instrument (moment_of (start - 40 * DAY)) (moment_of end_)
               daily_type true (hw_time_ns w) with
       | Ok bars => bars
       | Raise _ => []
       end in
     mret (instrument, ticks, daily_bars)).
End Load.

(** ** Engine runs *)

(** A report table: its columns, and its rows as text by column. *)
Record Table := MkTable { tb_columns : list string; tb_rows : list (string -> string) }.
Definition table_empty (t : Table) : bool :=
  match tb_columns t, tb_rows t with [], _ | _, [] => true | _, _ => false end.

Record Fingerprint := MkFp {
  fp_ticks : nat;
  fp_first : option Z;
  fp_last : option Z;
  fp_fills : nat;
  fp_cash : option string;
  fp_fill_sig : list (list string)
}.

(** [_fingerprint] of an engine's reports: the order fills, and the account's
    [total] column. *)
Definition fingerprint (fills : option Table) (account : option (list string)) (ticks : list TradeTick)
  : Fingerprint :=
  let rows := match fills with Some t => if table_empty t then [] else tb_rows t | None => [] end in
  let cols := match fills with
              | Some t => List.filter (fun c => bool_decide (c ∈ tb_columns t))
                            ["ts_last"; "side"; "order_side"; "last_px"; "last_qty"]
              | None => []
              end in
  MkFp (length ticks) (tt_ts_event <$> head ticks) (tt_ts_event <$> last ticks) (length rows)
    (match account with Some totals => last totals | None => None end)
    ((fun row => row <$> cols) <$> rows).

(** The engine: fills and account report of its [n]th run, with the strategy's
    logging on or off. *)
Definition Engine : Type :=
  nat -> bool -> Contract -> list TradeTick -> list Bar -> res (option Table * option (list string)).

Definition backtest_fingerprint (engine : Engine) (run : nat) (log_strategy : bool) (instrument : Contract)
  (ticks : list TradeTick) (daily_bars : list Bar) : res Fingerprint :=
  '(fills, account) ← engine run log_strategy instrument ticks daily_bars;
  Ok (fingerprint fills account ticks).

(** The four fields [--check] compares. *)
Definition same_result (a b : Fingerprint) : bool :=
  (fp_ticks a =? fp_ticks b)%nat && (fp_fills a =? fp_fills b)%nat
  && bool_decide (fp_cash a = fp_cash b) && bool_decide (fp_fill_sig a = fp_fill_sig b).

(** ** [main] *)

Record Args := MkArgs {
  ar_root : string;
  ar_exchange : string;
  ar_rth : bool;
  ar_until : option string;
  ar_check : bool
}.

(** An exit code with what was printed last, or an exception that escapes. *)
Inductive Exit :=
  | BadWindow                        (* 2 *)
  | HistoryFailed                    (* 1 *)
  | NoTicks                          (* 2 *)
  | CheckFailed                      (* 3 *)
  | Result (span : Span) (fp : Fingerprint) (end_cash : option pydecimal)   (* 0 *)
  | Escapes (e : exn).

Definition exit_code (x : Exit) : option Z :=
  match x with
  | BadWindow | NoTicks => Some 2
  | HistoryFailed => Some 1
  | CheckFailed => Some 3
  | Result _ _ _ => Some 0
  | Escapes _ => None
  end.

(** [Decimal(str(cash).split()[0])], [None] when it fails. *)
Fixpoint first_word (s : string) : string :=
  match s with
  | EmptyString => EmptyString
  | String a s' => if py_space a then EmptyString else String a (first_word s')
  end.
Definition end_cash (fp : Fingerprint) : option pydecimal :=
  dec_of_str (first_word (dropl py_space (default "None" (fp_cash fp)))).

Section Main.
Context `{NautilusTypes}.
Variable quantity_from_str : string -> res Price.
Variable check_contract : Contract -> res unit.
Variable fromisoformat : string -> option Iso.
Variable CHI : Zone.
Variable engine : Engine.

Definition run_engine (args : Args) (span : Span) (instrument : Contract) (ticks : list TradeTick)
  (daily_bars : list Bar) : Exit :=
  match backtest_fingerprint engine 0 true instrument ticks daily_bars with
  | Raise e => Escapes e
  | Ok result =>
      if ar_check args then
        match backtest_fingerprint engine 1 false instrument ticks daily_bars with
        | Raise e => Escapes e
        | Ok again => if same_result again result then Result span result (end_cash result) else CheckFailed
        end
      else Result span result (end_cash result)
  end.

Definition main (args : Args) (now : Z) (w : HistoryWorld) (r : Run) : Exit * Run :=
  match resolve_window fromisoformat CHI now (ar_rth args) (ar_until args) with
  | Raise e => (if is_value_error e then BadWindow else Escapes e, r)
  | Ok (start, end_, span) =>
      match load_history quantity_from_str check_contract w (ar_root args) (ar_exchange args) start end_ r with
      | (Raise e, r') => (if bool_decide (ex_class e = ExHistory) then HistoryFailed else Escapes e, r')
      | (Ok (instrument, ticks, daily_bars), r') =>
          match ticks with
          | [] => (NoTicks, r')
          | _ => (run_engine args span instrument ticks daily_bars, r')
          end
      end
  end.
End Main.

(** ** The window *)

Section WindowFacts.
Variable fromisoformat : string -> option Iso.
Variable CHI : Zone.

(** The window is never empty, never reaches past the clock or the given end, and
    stays in the session under [--rth]; a complete session is claimed only once
    it is over, and then for all of it. *)
Lemma resolve_window_sound now rth until start end_ span :
  resolve_window fromisoformat CHI now rth until = Ok (start, end_, span) ->
  start < end_ <= now /\
  (forall u t, until = Some u -> nonempty u = true -> parse_until fromisoformat u now = Ok t -> end_ <= t) /\
  (rth = true -> start = rth_start CHI now /\ end_ <= rth_end CHI now) /\
  (forall l, span = CompleteRth l ->
     rth = true /\ rth_end CHI now <= now /\ start = rth_start CHI now /\ end_ = rth_end CHI now).
Proof.
  unfold resolve_window. cbv [mbind res_bind].
  set (eu := match until with Some u => _ | None => _ end).
  assert (Heu : forall x u t, eu = Ok x -> until = Some u -> nonempty u = true ->
    parse_until fromisoformat u now = Ok t -> x = Some t).
  { intros x u t Hx -> Hu Ht. unfold eu in Hx. rewrite Hu, Ht in Hx. congruence. }
  destruct eu as [x|] eqn:Ex; [|done].
  assert (Hclip : forall e, clip e x <= e /\ (forall t, x = Some t -> clip e x <= t)).
  { intros e. unfold clip. destruct x as [t|]; [|split; [lia|done]].
    split; [lia|]. intros t' [= <-]. lia. }
  unfold window. destruct rth.
  - destruct (now <? rth_start CHI now) eqn:E0; [done|].
    destruct (Hclip (Z.min now (rth_end CHI now))) as [Hc Hu].
    destruct (rth_end CHI now <=? clip (Z.min now (rth_end CHI now)) x) eqn:E1;
      (destruct (_ <=? rth_start CHI now) eqn:E2; [done|]); intros [= <- <- <-].
    + split; [lia|]. split; [naive_solver|]. split; [lia|]. intros l _. split_and!; try done; lia.
    + split; [lia|]. split; [naive_solver|]. split; [lia|]. done.
  - destruct (Hclip now) as [Hc Hu]. destruct (_ <=? at_clock now 0 0 0) eqn:E2; [done|]. intros [= <- <- <-].
    split; [lia|]. split; [naive_solver|]. done.
Qed.

(** A pinned end gives the same window whenever the script runs later that
    (Chicago) day. *)
Lemma pinned_window now now' u :
  zn_wall CHI now / DAY = zn_wall CHI now' / DAY -> u <= now -> u <= now' -> rth_start CHI now <= u ->
  window CHI now true (Some u) = window CHI now' true (Some u).
Proof.
  intros Hd H H' Hs. unfold window, rth_start, rth_end, at_clock in *. rewrite Hd in *. simpl.
  set (a := zn_utc CHI (_ + clock_us 8 30 0)) in *. set (b := zn_utc CHI (_ + clock_us 15 15 0)).
  replace (Z.min (Z.min now b) u) with (Z.min b u) by lia.
  replace (Z.min (Z.min now' b) u) with (Z.min b u) by lia.
  replace (now <? a) with false by lia. replace (now' <? a) with false by lia. done.
Qed.
End WindowFacts.

(** ** The run *)

Section MainFacts.
Context `{NautilusTypes}.
Variable quantity_from_str : string -> res Price.
Variable check_contract : Contract -> res unit.
Variable fromisoformat : string -> option Iso.
Variable CHI : Zone.
Variable engine : Engine.

Lemma on_counter_open {A} (m : M Z A) r : rn_open (on_counter m r).2 = rn_open r.
Proof. unfold on_counter. by destruct (m (rn_counter r)). Qed.

(** Whatever fails, the session the history came over is released. *)
Lemma load_history_closes w root exchange start end_ r :
  rn_open (load_history quantity_from_str check_contract w root exchange start end_ r).2 = rn_open r.
Proof.
  unfold load_history. run_monad. destruct (hw_connect w); [|done].
  unfold finally_disconnect, catchM. run_monad.
  destruct (load_front_month_instrument _ _ _ _ _ _) as [c|e]; [|by destruct (hw_disconnect w)].
  set (r1 := MkRun _ _).
  pose proof (on_counter_open (load_trade_ticks (hw_ticks w) c (moment_of start) (moment_of end_) (hw_time_ns w)) r1) as Ho.
  destruct (on_counter _ r1) as [[ticks|e] r2]; simpl in Ho |- *; rewrite Ho; by destruct (hw_disconnect w).
Qed.

(** A run leaves no session behind on any path; a result is printed only for
    ticks that were loaded for a window that had passed, it is the engine's own
    report of them, and with [--check] a second run of the engine agreed with it
    on ticks, fills, cash and every fill. *)
Lemma backtest_honest args now w r x r' :
  main quantity_from_str check_contract fromisoformat CHI engine args now w r = (x, r') ->
  rn_open r' = rn_open r /\
  (exit_code x = Some 0 -> exists start end_ span instrument ticks bars fills account,
     resolve_window fromisoformat CHI now (ar_rth args) (ar_until args) = Ok (start, end_, span) /\
     start < end_ <= now /\
     (load_history quantity_from_str check_contract w (ar_root args) (ar_exchange args) start end_ r).1
       = Ok (instrument, ticks, bars) /\ ticks <> [] /\
     engine 0%nat true instrument ticks bars = Ok (fills, account) /\
     x = Result span (fingerprint fills account ticks) (end_cash (fingerprint fills account ticks)) /\
     (ar_check args = true -> exists fills' account',
        engine 1%nat false instrument ticks bars = Ok (fills', account') /\
        same_result (fingerprint fills' account' ticks) (fingerprint fills account ticks) = true)).
Proof.
  unfold main. destruct (resolve_window _ _ _ _ _) as [[[start end_] span]|e] eqn:Ew.
  2: { intros [= <- <-]. split; [done|]. by destruct (is_value_error e). }
  pose proof (load_history_closes w (ar_root args) (ar_exchange args) start end_ r) as Hc.
  destruct (load_history _ _ _ _ _ _ _ r) as [[[[instrument ticks] bars]|e] r1] eqn:El; simpl in Hc.
  2: { intros [= <- <-]. split; [done|]. by destruct (bool_decide _). }
  destruct (resolve_window_sound _ _ _ _ _ _ _ _ Ew) as (Hse & _).
  intros Hm. assert (r' = r1 /\ (exit_code x = Some 0 -> ticks <> [] /\ x = run_engine engine args span instrument ticks bars))
    as [-> Hx].
  { destruct ticks; injection Hm as <- <-; split; try done. }
  split; [done|]. intros H0. destruct (Hx H0) as [Hne ->]. clear Hm Hx.
  unfold run_engine, backtest_fingerprint in *. cbv [mbind res_bind] in *.
  destruct (engine 0%nat true instrument ticks bars) as [[fills account]|] eqn:Ee; [|done].
  exists start, end_, span, instrument, ticks, bars, fills, account. split_and!; try done; try lia; try exact Hne; [by rewrite El| |].
  - destruct (ar_check args); [|done]. destruct (engine 1%nat _ _ _ _) as [[fills' account']|]; [|done].
    by destruct (same_result _ _).
  - intros Hch. rewrite Hch in H0. destruct (engine 1%nat _ _ _ _) as [[fills' account']|] eqn:Ee2; [|done].
    exists fills', account'. split; [done|]. by destruct (same_result _ _).
Qed.
End MainFacts.

(** ** Samples *)

Module BacktestSample.
(** Chicago in summer, five hours behind UTC. *)
Definition cdt : Zone := MkZone (fun t => t - 5 * 3600 * SECOND) (fun w => w + 5 * 3600 * SECOND).
Definition no_iso (_ : string) : option Iso := None.
Definition at_utc (day hour minute : Z) : Z := day * DAY + clock_us hour minute 0.

Example partial_session :
  resolve_window no_iso cdt (at_utc 20000 17 0) true (Some "16:15:00")
  = Ok (at_utc 20000 13 30, at_utc 20000 16 15,
        PartialRth (clock_us 2 45 0) (clock_us 6 45 0) (clock_us 4 0 0)).
Proof. reflexivity. Qed.

(** "Pin --until to reload the same tape": the clock is put on the UTC date, the
    session on the Chicago date.  From 19:00 in Chicago on, the same [--until]
    on the same Chicago day is tomorrow's and pins nothing: the window is the
    whole session, not the one loaded in the afternoon. *)
Lemma pinned_clock_slips :
  let afternoon := at_utc 20000 21 0 in
  let evening := at_utc 20001 0 30 in
  zn_wall cdt afternoon / DAY = zn_wall cdt evening / DAY /\
  resolve_window no_iso cdt afternoon true (Some "16:15")
  = Ok (at_utc 20000 13 30, at_utc 20000 16 15,
        PartialRth (clock_us 2 45 0) (clock_us 6 45 0) (clock_us 4 0 0)) /\
  resolve_window no_iso cdt evening true (Some "16:15")
  = Ok (at_utc 20000 13 30, at_utc 20000 20 15, CompleteRth (clock_us 6 45 0)).
Proof. split_and!; reflexivity. Qed.
End BacktestSample.
End Backtest.
