(* ===== verification/Smoke.v ===== *)
(** * Smoke scripts

    [scripts/gateway_tick_consumer.py], one consumer attached to a shared parent;
    [scripts/smoke_gateway_shared_ticks.py], which starts the parent and several
    consumers and reads from what they printed that all of them were on it; and
    [scripts/smoke_lucid_nq.py].

    What the outside world answers (configuration, socket, venue, processes) is an
    argument.  A poll loop with a deadline is the list of its polls.  Exit codes
    are those the scripts document: 0 ok, 1 failure, 2 skipped. *)

From Stdlib Require Import Ascii String.
From stdpp Require Import base gmap strings list.
From Stdlib Require Import ZArith Lia.
From S2P Require Import Prelude PyVal.
Import Text.
Open Scope string_scope.
Open Scope list_scope.
Open Scope Z_scope.

Module Smoke.

(** [re.finditer(r"gateway_pid=(\d+)")]: the numbers, in order. *)
Fixpoint digit_prefix (s : string) : string :=
  match s with
  | String a s' => if is_digit a then String a (digit_prefix s') else EmptyString
  | EmptyString => EmptyString
  end.
Definition PID_KEY : string := "gateway_pid=".
Definition pid_here (s : string) : option Z :=
  match strip_prefix PID_KEY s with
  | Some r => if nonempty (digit_prefix r) then Z_of_str (digit_prefix r) else None
  | None => None
  end.
Fixpoint parse_pids (s : string) : list Z :=
  match s with
  | EmptyString => []
  | String _ s' => match pid_here s with Some n => n :: parse_pids s' | None => parse_pids s' end
  end.

(** ** [gateway_tick_consumer.py] *)

(** The text of the credential lock file; [None]: it cannot be read. *)
Definition gateway_pid (text : option string) : option Z :=
  match text with
  | Some t => if nonempty (strip t) then Z_of_str (strip t) else None
  | None => None
  end.

Definition resolve_trading_symbol (front : option pydict) (root : string) : string :=
  match front with
  | Some d =>
      if truthy (dget d "trading_symbol") then py_str (dget d "trading_symbol")
      else if truthy (dget d "symbol") then py_str (dget d "symbol") else root
  | None => root
  end.

Record ConsumerWorld := MkConsumerWorld {
  cw_imports : bool;
  cw_config : res unit;
  cw_connect : res unit;
  cw_pid_ready : option string;         (* the lock file after the attach *)
  cw_scopes : string;
  cw_try_acquire : res unit;            (* [Ok]: the lock was free *)
  cw_front : res (option pydict);
  cw_subscribe : res unit;
  cw_polls : list (res (option pydict));
  cw_pid_end : option string
}.

Definition show_pid (p : option Z) : string := match p with Some n => str_of_Z n | None => "None" end.

(** Whether an event is one of ours. *)
Definition counts (symbol trading : string) (ev : pydict) : bool :=
  let sym := str_or_empty (dget ev "symbol") in
  negb (nonempty sym && negb (bool_decide (sym = trading)) && negb (String.prefix symbol sym)).

Fixpoint poll_ticks (symbol trading : string) (min_ticks : Z) (polls : list (res (option pydict))) (got : Z)
  : res Z :=
  if got <? min_ticks then
    match polls with
    | [] => Ok got                                   (* the deadline *)
    | Raise e :: _ => Raise e
    | Ok None :: polls' => poll_ticks symbol trading min_ticks polls' got
    | Ok (Some ev) :: polls' =>
        poll_ticks symbol trading min_ticks polls' (if counts symbol trading ev then got + 1 else got)
    end
  else Ok got.

(** Lines of output that matter, and the exit code. *)
Definition ready_line (label : string) (w : ConsumerWorld) : string :=
  "[" +:+ label +:+ "] READY gateway_pid=" +:+ show_pid (gateway_pid (cw_pid_ready w)) +:+ " scopes=" +:+ cw_scopes w.
Definition end_line (label : string) (got : Z) (w : ConsumerWorld) : string :=
  "[" +:+ label +:+ "] events_received=" +:+ str_of_Z got +:+ " gateway_pid=" +:+ show_pid (gateway_pid (cw_pid_end w)).

(** The [try] body of [main]: lines printed, then the code or an exception. *)
Definition consume (symbol label : string) (min_ticks : Z) (w : ConsumerWorld) : list string * res Z :=
  match cw_connect w with
  | Raise e => ([], Raise e)
  | Ok _ =>
      let ready := [ready_line label w] in
      match cw_try_acquire w with
      | Ok _ => (ready, Ok 1)
      | Raise e =>
          if negb (bool_decide (ex_class e = ExSessionLock)) then (ready, Raise e)
          else
            match cw_front w with
            | Raise e => (ready, Raise e)
            | Ok front =>
                let trading := resolve_trading_symbol front symbol in
                match cw_subscribe w with
                | Raise e => (ready, Raise e)
                | Ok _ =>
                    match poll_ticks symbol trading min_ticks (cw_polls w) 0 with
                    | Raise e => (ready, Raise e)
                    | Ok got => (ready ++ [end_line label got w], Ok (if got <? min_ticks then 1 else 0))
                    end
                end
            end
      end
  end.

Definition consumer_main (symbol label : string) (min_ticks : Z) (w : ConsumerWorld) : list string * Z :=
  if negb (cw_imports w) then ([], 1)
  else match cw_config w with
       | Raise _ => ([], 2)
       | Ok _ =>
           let '(out, r) := consume symbol label min_ticks w in
           (out, match r with Ok code => code | Raise _ => 1 end)
       end.

(** ** [smoke_gateway_shared_ticks.py] *)

(** A consumer process: still running or not, and what waiting for it gives. *)
Inductive Waited := Exited (code : Z) (out : string) | TimedOut (out : string).

(** The processes of a run: consumers that are running, whether the parent is,
    and whether the run's socket file is left. *)
Record Procs := MkProcs { pr_running : list bool; pr_parent : bool; pr_socket : bool }.

Record SmokeWorld := MkSmokeWorld {
  sw_imports : bool;
  sw_bin : option string;                  (* [_ensure_gateway_bin] *)
  sw_config : res unit;                    (* session configuration and password *)
  sw_start : res Z;                        (* [start_parent]: its pid *)
  sw_spawn : nat -> res unit;
  sw_wait : nat -> Waited;
  sw_cmdline : Z -> option string          (* what [/proc] or [ps] says of a pid *)
}.

(** [_ensure_gateway_bin]: the environment's, [which]'s (its output when it
    succeeds), a built one, or one built now ([built]: the build succeeded and the
    file is there). *)
Definition ensure_gateway_bin (explicit : option string) (is_file : string -> bool) (resolve : string -> string)
  (which : option string) (root : string) (built : bool) : option string :=
  let debug := root +:+ "/target/debug/rithmic-gateway" in
  let release := root +:+ "/target/release/rithmic-gateway" in
  let from_env := match explicit with
                  | Some p => if nonempty p && is_file p then Some (resolve p) else None
                  | None => None
                  end in
  let from_path := match which with
                   | Some w => if nonempty (strip w) then Some (strip w) else None
                   | None => None
                   end in
  match from_env, from_path with
  | Some p, _ => Some p
  | None, Some p => Some p
  | None, None =>
      if is_file debug then Some debug
      else if is_file release then Some release
      else if built then Some debug else None
  end.

(** [[s.strip() for s in args.symbols.split(",") if s.strip()]]. *)
Fixpoint split_on (c : ascii) (s : string) : list string :=
  match s with
  | EmptyString => [EmptyString]
  | String a s' =>
      if bool_decide (a = c) then EmptyString :: split_on c s'
      else match split_on c s' with
           | [] => [String a EmptyString]
           | w :: ws => String a w :: ws
           end
  end.
Definition symbol_list (s : string) : list string :=
  List.filter nonempty (strip <$> split_on "," s).

(** Start one consumer per symbol; a spawn that raises leaves the earlier ones. *)
Fixpoint spawn_all (w : SmokeWorld) (i : nat) (symbols : list string) : M Procs unit :=
  match symbols with
  | [] => mret tt
  | _ :: symbols' =>
      _ ← lift (sw_spawn w i);
      modify (fun p => MkProcs (pr_running p ++ [true]) (pr_parent p) (pr_socket p)) ;;
      spawn_all w (S i) symbols'
  end.

(** [proc.communicate]: a consumer that outlives the budget is killed. *)
Definition collect (w : SmokeWorld) (n : nat) : list (Z * string) :=
  (fun i => match sw_wait w i with
            | Exited code out => (code, out)
            | TimedOut out => (1, out +:+ String "010" "TIMEOUT")
            end) <$> seq 0 n.

Definition all_same (l : list Z) : option Z :=
  match l with [] => None | x :: l' => if forallb (Z.eqb x) l' then Some x else None end.

(** The verdict on what the consumers did. *)
Definition judge (w : SmokeWorld) (parent : Z) (results : list (Z * string)) : Z :=
  let codes := results.*1 in
  if existsb (Z.eqb 2) codes then 2
  else if existsb (fun c => negb (c =? 0)) codes then 1
  else
    let pid_sets := parse_pids <$> results.*2 in
    match mapM last pid_sets with
    | None => 1
    | Some finals =>
        match all_same finals with
        | None => 1
        | Some shared =>
            if negb (shared =? parent) then 1
            else match sw_cmdline w shared with
                 | None => 1
                 | Some cmd => if contains "rithmic-gateway" cmd then 0 else 1
                 end
        end
    end.

(** The [finally]: running consumers are terminated (killed if they do not go), the
    parent is stopped, the socket file removed. *)
Definition cleanup (p : Procs) : Procs := MkProcs ((fun _ => false) <$> pr_running p) false false.

Definition smoke_body (w : SmokeWorld) (parent : Z) (symbols : list string) : M Procs Z :=
  spawn_all w 0 symbols ;;
  modify (fun p => MkProcs ((fun _ => false) <$> pr_running p) (pr_parent p) (pr_socket p)) ;;
  mret (judge w parent (collect w (length symbols))).

(** [main]: the exit code, or the exception that escapes. *)
Definition smoke_main (symbols_arg : string) (w : SmokeWorld) (p : Procs) : res Z * Procs :=
  let symbols := symbol_list symbols_arg in
  if (length symbols <? 2)%nat then (Ok 1, p)
  else if negb (sw_imports w) then (Ok 1, p)
  else match sw_bin w with
       | None => (Ok 1, p)
       | Some _ =>
           match sw_config w with
           | Raise _ => (Ok 2, p)
           | Ok _ =>
               match sw_start w with
               | Raise e => (if bool_decide (ex_class e = ExRuntime) then Ok 1 else Raise e, p)
               | Ok pid =>
                   let '(r, p') := smoke_body w pid symbols (MkProcs (pr_running p) true true) in
                   (r, cleanup p')
               end
           end
       end.

(** ** [smoke_lucid_nq.py] *)

Record LucidWorld := MkLucidWorld {
  lw_imports : bool;
  lw_config : res (bool * string * string);       (* [has_account], symbol, exchange *)
  lw_extension : bool;
  lw_connect : res unit;
  lw_front : string -> string -> res (option pydict);
  lw_subscribe : string -> string -> res unit;
  lw_polls : list (res (option pydict));
  lw_subscribe_pnl : res unit
}.

Fixpoint poll_three (polls : list (res (option pydict))) (got : Z) : res Z :=
  if got <? 3 then
    match polls with
    | [] => Ok got
    | Raise e :: _ => Raise e
    | Ok None :: polls' => poll_three polls' got
    | Ok (Some _) :: polls' => poll_three polls' (got + 1)
    end
  else Ok got.

Definition or_else (s d : string) : string := if nonempty s then s else d.

(** What was printed (for a run to the end: SMOKE OK, the events, and whether the
    PnL subscription worked, if there is an account), and the exit code. *)
Inductive LucidOut := LucidSkip | LucidFail | LucidOk (events : Z) (pnl : option bool).

Definition lucid_main (w : LucidWorld) : LucidOut * Z :=
  if negb (lw_imports w) then (LucidFail, 1)
  else match lw_config w with
       | Raise _ => (LucidSkip, 2)
       | Ok (has_account, symbol0, exchange0) =>
           if negb (lw_extension w) then (LucidFail, 1)
           else
             let symbol := or_else symbol0 "NQ" in
             let exchange := or_else exchange0 "CME" in
             let body :=
               _ ← lw_connect w;
               front ← lw_front w symbol exchange;
               let trading :=
                 match front with
                 | Some d => if truthy (dget d "trading_symbol") then py_str (dget d "trading_symbol") else symbol
                 | None => symbol
                 end in
               _ ← lw_subscribe w trading exchange;
               poll_three (lw_polls w) 0 in
             match body with
             | Raise _ => (LucidFail, 1)
             | Ok got =>
                 let pnl := if has_account : bool
                            then Some (match lw_subscribe_pnl w with Ok _ => true | Raise _ => false end)
                            else None in
                 (LucidOk got pnl, if 0 <? got then 0 else 1)
             end
       end.

(** ** Facts *)

Lemma all_same_spec l x : all_same l = Some x -> l <> [] /\ Forall (eq x) l.
Proof.
  destruct l as [|y l]; simpl; [done|]. destruct (forallb (Z.eqb y) l) eqn:E; [|done]. intros [= ->].
  split; [done|]. constructor; [done|]. apply Forall_forall. intros z Hz.
  rewrite forallb_forall in E. apply Z.eqb_eq, E. by apply list_elem_of_In.
Qed.

Lemma collect_in w n i : (i < n)%nat ->
  (match sw_wait w i with Exited code out => (code, out) | TimedOut out => (1, out +:+ String "010" "TIMEOUT") end)
    ∈ collect w n.
Proof.
  intros Hi. unfold collect. apply list_elem_of_fmap. exists i. split; [done|]. apply elem_of_seq. lia.
Qed.

Lemma mapM_last_spec (sets : list (list Z)) finals :
  mapM last sets = Some finals -> forall l, l ∈ sets -> exists x, last l = Some x /\ x ∈ finals.
Proof.
  intros H%mapM_Some l Hl. apply list_elem_of_lookup in Hl as [i Hi].
  destruct (Forall2_lookup_l _ _ _ _ _ H Hi) as (x & Hx & E). exists x. split; [done|].
  by eapply list_elem_of_lookup_2.
Qed.

Lemma judge_ok w parent results : judge w parent results = 0 ->
  (forall code out, (code, out) ∈ results -> code = 0 /\ last (parse_pids out) = Some parent) /\
  exists cmd, sw_cmdline w parent = Some cmd /\ contains "rithmic-gateway" cmd = true.
Proof.
  unfold judge. destruct (existsb (Z.eqb 2) _); [done|].
  destruct (existsb (fun c => negb (c =? 0)) _) eqn:Ec; [done|].
  destruct (mapM last (parse_pids <$> results.*2)) as [finals|] eqn:Em; [|done].
  destruct (all_same finals) as [shared|] eqn:Es; [|done]. apply all_same_spec in Es as [_ Es].
  destruct (shared =? parent) eqn:Ep; [|done]. apply Z.eqb_eq in Ep. subst shared. simpl.
  destruct (sw_cmdline w parent) as [cmd|]; [|done]. destruct (contains _ cmd) eqn:Et; [|done]. intros _.
  split; [|eauto]. intros code out Hin. split.
  - destruct (Z.eqb_spec code 0) as [|Hne]; [done|exfalso].
    assert (existsb (fun c => negb (c =? 0)) results.*1 = true); [|congruence].
    apply existsb_exists. exists code. split; [|lia]. apply list_elem_of_In. by apply (list_elem_of_fmap_2 fst) in Hin.
  - destruct (mapM_last_spec _ _ Em (parse_pids out)) as (x & Hx & Hf).
    { apply list_elem_of_fmap_2. by apply (list_elem_of_fmap_2 snd) in Hin. }
    rewrite Hx. f_equal. symmetry. rewrite Forall_forall in Es. by apply Es.
Qed.

(** The shared-parent smoke says OK only when every consumer did, the last parent
    each of them printed is the one the script started, and that process is a
    gateway; and however it ends, nothing it started is left running. *)
Lemma smoke_ok_means symbols_arg w p r p' :
  smoke_main symbols_arg w p = (r, p') -> pr_running p = [] -> pr_parent p = false ->
  Forall (eq false) (pr_running p') /\ pr_parent p' = false /\
  (r = Ok 0 -> exists pid, sw_start w = Ok pid /\ (2 <= length (symbol_list symbols_arg))%nat /\
     (forall i, (i < length (symbol_list symbols_arg))%nat -> exists out, sw_wait w i = Exited 0 out /\
        last (parse_pids out) = Some pid) /\
     exists cmd, sw_cmdline w pid = Some cmd /\ contains "rithmic-gateway" cmd = true).
Proof.
  unfold smoke_main. intros Hm Hrun Hpar.
  destruct (length (symbol_list symbols_arg) <? 2)%nat eqn:El; [injection Hm as <- <-; by rewrite Hrun|].
  destruct (sw_imports w); [|injection Hm as <- <-; by rewrite Hrun]. simpl in Hm.
  destruct (sw_bin w); [|injection Hm as <- <-; by rewrite Hrun].
  destruct (sw_config w); [|injection Hm as <- <-; by rewrite Hrun].
  destruct (sw_start w) as [pid|e]; [|injection Hm as <- <-; rewrite Hrun; by case_bool_decide].
  destruct (smoke_body w pid (symbol_list symbols_arg) (MkProcs (pr_running p) true true)) as [r0 p0] eqn:Eb.
  injection Hm as <- <-. split_and!.
  - simpl. apply Forall_fmap, Forall_true. done.
  - done.
  - intros ->. exists pid. split; [done|]. split; [by apply Nat.ltb_ge|].
    revert Eb. unfold smoke_body. run_monad. destruct (spawn_all w 0 _ _) as [[[]|] p1]; [|done]. intros [= Hj _].
    apply judge_ok in Hj as [Hall Hcmd]. split; [|done]. intros i Hi.
    pose proof (collect_in w _ i Hi) as Hin. destruct (sw_wait w i) as [code out|out].
    + destruct (Hall _ _ Hin) as [-> Hp]. by exists out.
    + by destruct (Hall _ _ Hin).
Qed.

(** A consumer that reaches its count printed, last, the parent in the lock file
    at the end, whenever that file then names one. *)
Example consumer_prints_pid :
  let w := MkConsumerWorld true (Ok tt) (Ok tt) (Some "4242") "[]" (Raise (Exn ExSessionLock None ""))
             (Ok None) (Ok tt) [Ok (Some ∅); Ok None; Ok (Some ∅)] (Some "4242 ") in
  let '(out, code) := consumer_main "NQ" "consumer-nq" 2 w in
  (parse_pids (String.concat (String "010" "") out), code) = ([4242; 4242], 0).
Proof. reflexivity. Qed.

(** [smoke_lucid_nq.py] prints its OK before it looks at the count: a run that got
    no event says SMOKE OK and exits with 1. *)
Lemma lucid_ok_without_events :
  lucid_main (MkLucidWorld true (Ok (false, "", "")) true (Ok tt) (fun _ _ => Ok None)
    (fun _ _ => Ok tt) [Ok None] (Ok tt)) = (LucidOk 0 None, 1).
Proof. reflexivity. Qed.
End Smoke.
