(* ===== verification/Tools.v ===== *)
(** * The remaining command-line tools

    [examples/live_nq_intraday_sandbox.py], [examples/load_nq_time_bars.py],
    [scripts/verify_live_vs_history.py] and [scripts/list_systems.py]: what they
    build and connect, in which order, and the exit code of every path.

    NautilusTrader's node and [BarType.from_str], the venue session and the files
    are arguments; an exception that leaves [main] is a [Raise]. *)

From Stdlib Require Import Ascii String.
From stdpp Require Import base gmap strings list.
From Stdlib Require Import ZArith Lia.
From S2P Require Import Prelude PyVal Plant Lru Ident Nautilus Orders OrderRows Commission Host Convert Bars Ticks Instruments Verify Config Backtest Smoke.
Import Text.
Open Scope string_scope.
Open Scope list_scope.
Open Scope Z_scope.

Module Tools.

(** [a or b] of strings. *)
Definition or_str (a : option string) (b : string) : string :=
  match a with Some s => if nonempty s then s else b | None => b end.

(** ** A paper node on live data *)

Inductive ClientKind := RithmicData | SandboxExec.
Record NodeConfig := MkNode {
  nc_data : list (string * ClientKind);
  nc_exec : list (string * ClientKind)
}.
Definition paper_node : NodeConfig :=
  MkNode [("RITHMIC", RithmicData)] [("SANDBOX", SandboxExec)].

Inductive NodeEvent := Built (c : NodeConfig) | Disposed.

Record SandboxWorld := MkSandbox {
  sw_trading : option string;            (* [RITHMIC_ENABLE_TRADING] *)
  sw_build : res unit;
  sw_has_loop : bool;
  sw_early : option (res unit);          (* how [run_async] ended before the deadline, if it did *)
  sw_stop : res unit;
  sw_runner : res unit;                  (* how it ends after [stop_async] *)
  sw_dispose : res unit;
  sw_bars : Z
}.

(** [_run]: sleep, then stop the node or look at how it ended. *)
Definition run_node (w : SandboxWorld) : res unit :=
  match sw_early w with
  | None => _ ← sw_stop w; sw_runner w
  | Some (Ok _) => Ok tt
  | Some (Raise e) => Raise e
  end.

Definition sandbox_main (w : SandboxWorld) : M (list NodeEvent) Z :=
  if env_truthy (sw_trading w) false then mret 2
  else
    _ ← lift (sw_build w);
    modify (fun ev => ev ++ [Built paper_node]) ;;
    if negb (sw_has_loop w) then
      modify (fun ev => ev ++ [Disposed]) ;;
      _ ← lift (sw_dispose w);
      mret 1
    else
      code ← (match run_node w with
              | Ok _ => if sw_bars w =? 0 then mret 2 else mret 0
              | Raise _ => mret 1
              end);
      modify (fun ev => ev ++ [Disposed]) ;;      (* a failing dispose is printed *)
      mret code.

(** ** Time bars *)

(** [_SPEC_WINDOWS]: what a spec stands for, and its lookback. *)
Definition SPEC_WINDOWS : list (string * (BarAggregation * Z * Z)) :=
  let day := Backtest.DAY in
  let hour := 3600 * Backtest.SECOND in
  [("1-DAY", (ADay, 1, 40 * day)); ("1-WEEK", (AWeek, 1, 90 * day)); ("1-HOUR", (AHour, 1, 2 * day));
   ("15-MINUTE", (AMinute, 15, day)); ("5-MINUTE", (AMinute, 5, 6 * hour)); ("1-MINUTE", (AMinute, 1, 2 * hour))].
Definition spec_window (spec : string) : option Z :=
  (fun p : string * (BarAggregation * Z * Z) => p.2.2) <$> List.find (fun p => bool_decide (p.1 = spec)) SPEC_WINDOWS.

Definition RITHMIC_NAME (rtype : Z) : option string :=
  if rtype =? 1 then Some "SECOND_BAR" else if rtype =? 2 then Some "MINUTE_BAR"
  else if rtype =? 3 then Some "DAILY_BAR" else if rtype =? 4 then Some "WEEKLY_BAR" else None.

Definition spec_list (s : string) : list string := upper <$> Smoke.symbol_list s.

(** One printed row: the spec, the wire type, whether it is offered live, the bars. *)
Record Row := MkRow { rw_spec : string; rw_wire : string; rw_live : bool; rw_bars : list Bar }.

Section TimeBars.
Context `{NautilusTypes}.
Variable quantity_from_str : string -> res Price.
Variable check_contract : Contract -> res unit.
Variable bar_type_from_str : string -> res BarType.

Definition time_bars_row (w : Backtest.HistoryWorld) (instrument : Contract) (end_ : Z) (spec : string) : res Row :=
  bar_type ← bar_type_from_str (ct_instrument_id instrument +:+ "-" +:+ spec +:+ "-LAST-EXTERNAL");
  '(rtype, period) ← bar_type_to_rithmic bar_type;
  match spec_window spec with
  | None => Raise (Exn ExKey None spec)
  | Some lookback =>
      bars ← load_time_bars (Backtest.hw_bars w) instrument (Backtest.moment_of (end_ - lookback))
               (Backtest.moment_of end_) bar_type true (Backtest.hw_time_ns w);
      match RITHMIC_NAME rtype with
      | None => Raise (Exn ExKey None (str_of_Z rtype))
      | Some name => Ok (MkRow spec (name +:+ " x" +:+ str_of_Z period) (external_bar_advertised bar_type) bars)
      end
  end.

Fixpoint time_bars_rows (w : Backtest.HistoryWorld) (instrument : Contract) (end_ : Z) (specs : list string)
  : res (list Row) :=
  match specs with
  | [] => Ok []
  | spec :: specs' =>
      row ← time_bars_row w instrument end_ spec;
      rows ← time_bars_rows w instrument end_ specs';
      Ok (row :: rows)
  end.

(** The exit code and the table; the state is the number of open sessions. *)
Definition time_bars_main (root exchange specs_arg : string) (config : res unit) (now : Z) (w : Backtest.HistoryWorld)
  : M Backtest.Run (Z * list Row) :=
  match config with
  | Raise _ => mret (2, [])
  | Ok _ =>
      let specs := spec_list specs_arg in
      if existsb (fun s => negb (bool_decide (is_Some (spec_window s)))) specs then mret (2, [])
      else
        _ ← lift (Backtest.hw_connect w);
        modify (fun r => Backtest.MkRun (Backtest.rn_counter r) (S (Backtest.rn_open r))) ;;
        Backtest.finally_disconnect w
          (instrument ← lift (load_front_month_instrument quantity_from_str check_contract
                                (Backtest.hw_reference w) root exchange 0);
           rows ← lift (time_bars_rows w instrument now specs);
           mret (0, rows))
  end.
End TimeBars.

(** ** Live against history *)

Record VerifyWorld := MkVerifyWorld {
  vw_config : res (string * string);              (* symbol, exchange *)
  vw_connect : res unit;
  vw_session : RefSession;
  vw_turns : list PollTurn;
  vw_subscribe : res unit;
  vw_unsubscribe : res unit;
  vw_load : string -> string -> Z -> Z -> res (list pydict);
  vw_now : Z;
  vw_write : VerifyReport -> res string           (* [write_json] *)
}.

(** The calls made, the sessions open, and the reports written. *)
Record VerifyRun := MkVerifyRun { vs_calls : list VerifyCall; vs_open : nat; vs_written : list VerifyReport }.

Definition on_calls {A} (m : M (list VerifyCall) A) : M VerifyRun A :=
  fun s => let '(x, calls) := m (vs_calls s) in (x, MkVerifyRun calls (vs_open s) (vs_written s)).

(** [try: m finally: with suppress(Exception): session.disconnect()]. *)
Definition finally_close {A} (m : M VerifyRun A) : M VerifyRun A :=
  fun s => let '(x, s') := m s in (x, MkVerifyRun (vs_calls s') (pred (vs_open s')) (vs_written s')).

(** The body of the [try]; [pad] and [min_live] have [run_front_month_verify]'s defaults. *)
Definition verify_body (root exchange : string) (positive : bool) (record_sec pad : Z) (min_live : nat)
  (min_overlap : f64) (w : VerifyWorld) : M VerifyRun Z :=
  report ← on_calls (run_front_month_verify (vw_session w) root exchange (vw_turns w) positive (vw_subscribe w)
                       (vw_unsubscribe w) (vw_load w) (vw_now w) record_sec pad min_live min_overlap);
  _ ← lift (vw_write w report);
  modify (fun s => MkVerifyRun (vs_calls s) (vs_open s) (vs_written s ++ [report])) ;;
  mret (if vr_ok report then 0 else 1).

Definition verify_main (root exchange : option string) (positive : bool) (record_sec pad : Z) (min_live : nat)
  (min_overlap : f64) (w : VerifyWorld) : M VerifyRun Z :=
  match vw_config w with
  | Raise _ => mret 2
  | Ok (symbol, exch) =>
      _ ← lift (vw_connect w);
      modify (fun s => MkVerifyRun (vs_calls s) (S (vs_open s)) (vs_written s)) ;;
      finally_close (verify_body (or_str root (or_str (Some symbol) "NQ"))
                       (or_str exchange (or_str (Some exch) "CME")) positive record_sec pad min_live
                       min_overlap w)
  end.

(** ** System names *)

Definition list_systems_main (url : option string) (imports : bool) (list_systems : string -> res (list string))
  : Z * list string :=
  if negb imports then (1, [])
  else match list_systems (or_str url DEFAULT_GATEWAY_URL) with
       | Raise _ => (1, [])
       | Ok names => (0, names)
       end.

(** ** What holds *)

(** The example never builds a node while trading is switched on; a node it builds
    sends its orders to the sandbox and is disposed of last, whatever happens; and
    exit code 0 means that it ran to its end and bars arrived. *)
Lemma sandbox_is_paper w :
  let '(r, ev) := sandbox_main w [] in
  (env_truthy (sw_trading w) false = true -> r = Ok 2 /\ ev = []) /\
  (forall c n k, Built c ∈ ev -> (n, k) ∈ nc_exec c -> k = SandboxExec) /\
  (forall c, Built c ∈ ev -> last ev = Some Disposed) /\
  (r = Ok 0 -> run_node w = Ok tt /\ sw_bars w <> 0).
Proof.
  unfold sandbox_main. run_monad. destruct (env_truthy _ _).
  { split_and!; try done; intros; set_solver. }
  destruct (sw_build w); [|split_and!; try done; intros; set_solver].
  assert (Hx : forall c n k, Built c ∈ [Built paper_node; Disposed] -> (n, k) ∈ nc_exec c -> k = SandboxExec).
  { intros c n k [[= ->]|[[=]|[]%elem_of_nil]%elem_of_cons]%elem_of_cons [[= _ ->]|[]%elem_of_nil]%elem_of_cons. done. }
  destruct (sw_has_loop w); simpl; [|by destruct (sw_dispose w); split_and!].
  destruct (run_node w) as [[]|]; simpl; [|by split_and!].
  destruct (Z.eqb_spec (sw_bars w) 0); by split_and!.
Qed.

(** A run that was started closes its session; 0 is returned exactly for a report
    that is written and says OK. *)
Lemma verify_main_honest root exchange positive record_sec pad min_live min_overlap w s :
  let '(r, s') := verify_main root exchange positive record_sec pad min_live min_overlap w s in
  vs_open s' = vs_open s /\
  (r = Ok 0 -> exists report, vs_written s' = vs_written s ++ [report] /\ vr_ok report = true).
Proof.
  unfold verify_main, finally_close, verify_body, on_calls. run_monad.
  destruct (vw_config w) as [[symbol exch]|]; [|done]. destruct (vw_connect w); [|done]. simpl.
  destruct (run_front_month_verify _ _ _ _ _ _ _ _ _ _ _ _ _ _) as [[report|] calls]; simpl; [|done].
  destruct (vw_write w report); simpl; [|done]. split; [done|].
  destruct (vr_ok report) eqn:E; [eauto|done].
Qed.

Section TimeBarsFacts.
Context `{NautilusTypes}.
Variable quantity_from_str : string -> res Price.
Variable check_contract : Contract -> res unit.
Variable bar_type_from_str : string -> res BarType.

(** [BarType.from_str] on an instrument id and a listed spec. *)
Definition reads_specs : Prop := forall id spec agg step lookback,
  List.In (spec, (agg, step, lookback)) SPEC_WINDOWS ->
  bar_type_from_str (id +:+ "-" +:+ spec +:+ "-LAST-EXTERNAL") = Ok (MkBarType id agg step true).

(** A listed spec has a wire type with a name: its row fails only if the load does. *)
Lemma listed_row w instrument end_ spec : reads_specs -> is_Some (spec_window spec) ->
  exists bt lookback name period,
    bt_external bt = true /\ spec_window spec = Some lookback /\
    time_bars_row bar_type_from_str w instrument end_ spec =
      (bars ← load_time_bars (Backtest.hw_bars w) instrument (Backtest.moment_of (end_ - lookback))
                (Backtest.moment_of end_) bt true (Backtest.hw_time_ns w);
       Ok (MkRow spec (name +:+ " x" +:+ str_of_Z period) (external_bar_advertised bt) bars)).
Proof.
  intros Hr [lookback Hs]. unfold spec_window in Hs. apply fmap_Some in Hs as (p & Hf & ->).
  apply List.find_some in Hf as [Hin Hp%bool_decide_eq_true]. destruct p as [spec' [[agg step] lb]]. simpl in Hp. subst spec'.
  unfold time_bars_row. rewrite (Hr _ _ _ _ _ Hin). simpl.
  assert (Hw : spec_window spec = Some lb /\ exists rtype period name,
    bar_type_to_rithmic (MkBarType (ct_instrument_id instrument) agg step true) = Ok (rtype, period) /\
    RITHMIC_NAME rtype = Some name).
  { simpl in Hin. destruct_or! Hin; try done; inversion Hin; subst; (split; [reflexivity|]); eexists _, _, _; split; reflexivity. }
  destruct Hw as (Hw & rtype & period & name & Hb & Hn). exists (MkBarType (ct_instrument_id instrument) agg step true), lb, name, period.
  rewrite Hb. simpl. rewrite Hw, Hn. done.
Qed.

(** An unknown spec ends the run before a session is opened, and every session that
    is opened is closed. *)
Lemma time_bars_main_closes root exchange specs config now w r :
  let '(x, r') := time_bars_main quantity_from_str check_contract bar_type_from_str root exchange specs config now w r in
  Backtest.rn_open r' = Backtest.rn_open r /\
  (forall spec, spec ∈ spec_list specs -> spec_window spec = None -> x = Ok (2, []) /\ r' = r).
Proof.
  unfold time_bars_main. run_monad. destruct config as [[]|]; [|done].
  destruct (existsb _ _) eqn:E; [done|].
  assert (Hk : forall spec, spec ∈ spec_list specs -> spec_window spec <> None).
  { intros spec Hin Hn. assert (Ht : true = false); [|done]. rewrite <- E. symmetry. apply existsb_exists.
    exists spec. split; [by apply list_elem_of_In|]. by rewrite Hn. }
  destruct (Backtest.hw_connect w); [|split; [done|intros spec Hin Hn; by destruct (Hk spec Hin)]]. simpl.
  unfold Backtest.finally_disconnect. run_monad. destruct (load_front_month_instrument _ _ _ _ _ _); simpl.
  - destruct (time_bars_rows _ _ _ _ _); simpl; destruct (Backtest.hw_disconnect w);
      (split; [done|intros spec Hin Hn; by destruct (Hk spec Hin)]).
  - destruct (Backtest.hw_disconnect w); (split; [done|intros spec Hin Hn; by destruct (Hk spec Hin)]).
Qed.
End TimeBarsFacts.
End Tools.
