(* ===== verification/Stubs.v ===== *)
(** * The stub generator (scripts/gen_nautilus_stubs.py)

    Regenerates the type stubs of NautilusTrader: run the external generator into
    a staging directory, drop bogus self imports, apply the hand patches, prune
    unused subpackages, and swap the result in.  The generated tree is a map from
    relative paths to texts; what the external generator writes, and which file
    operations fail, are arguments. *)

From Stdlib Require Import Ascii String.
From stdpp Require Import base strings list gmap.
From Stdlib Require Import ZArith Lia.
From S2P Require Import Prelude PyVal Redact Config.
Import Text.
Open Scope string_scope.
Open Scope list_scope.

(** ** Text *)

Definition LFS : string := String (ascii_of_N 10) EmptyString.

(** Lines, each ended, and lines with the last one open. *)
Definition text (l : list string) : string := foldr (fun s t => s +:+ LFS +:+ t) EmptyString l.
Definition text_open (l : list string) : string := String.concat LFS l.

(** Around the first occurrence of [old]. *)
Fixpoint find_sub (old s : string) : option (string * string) :=
  match strip_prefix old s with
  | Some rest => Some (EmptyString, rest)
  | None =>
      match s with
      | EmptyString => None
      | String a s' => match find_sub old s' with Some (b, r) => Some (String a b, r) | None => None end
      end
  end.

(** [s.replace(old, new, 1)]. *)
Definition replace_first (old new s : string) : string :=
  match find_sub old s with Some (b, r) => b +:+ new +:+ r | None => s end.

(** Left to right, without overlaps; [m] matches at a position and gives the
    replacement and what is left. *)
Fixpoint sub_all (fuel : nat) (m : string -> option (string * string)) (s : string) : string :=
  match fuel with
  | O => s
  | S fuel' =>
      match m s with
      | Some (new, rest) => new +:+ sub_all fuel' m rest
      | None => match s with EmptyString => EmptyString | String a s' => String a (sub_all fuel' m s') end
      end
  end.

(** [s.replace(old, new)]. *)
Definition replace_all (old new s : string) : string :=
  sub_all (S (String.length s)) (fun t => (fun r => (new, r)) <$> strip_prefix old t) s.

Definition word_char (a : ascii) : bool :=
  is_digit a || is_upper a || is_lower a || is_char "_" a.

Fixpoint take_word (s : string) : string * string :=
  match s with
  | String a s' => if word_char a then let '(w, r) := take_word s' in (String a w, r) else (EmptyString, s)
  | EmptyString => (EmptyString, EmptyString)
  end.

(** ** What is pruned and what is written *)

Definition _EXPECTED_TOP_LEVEL : list string :=
  ["cache"; "common"; "config"; "core"; "data"; "execution"; "live"; "model"; "trading"].

Definition _FUTURES_CTOR_IMPORTS : string :=
  text [
    "from nautilus_trader.model.enums import AssetClass";
    "from nautilus_trader.model.identifiers import InstrumentId";
    "from nautilus_trader.model.identifiers import Symbol";
    "from nautilus_trader.model.objects import Currency";
    "from nautilus_trader.model.objects import Price";
    "from nautilus_trader.model.objects import Quantity"].

Definition _FUTURES_CTOR : string :=
  text_open [
    "    # Constructor hand-ported from futures_contract.pyx (stubgen mangles cdef names).";
    "    def __init__(";
    "        self,";
    "        instrument_id: InstrumentId,";
    "        raw_symbol: Symbol,";
    "        asset_class: AssetClass,";
    "        currency: Currency,";
    "        price_precision: int,";
    "        price_increment: Price,";
    "        multiplier: Quantity,";
    "        lot_size: Quantity,";
    "        underlying: str,";
    "        activation_ns: int,";
    "        expiration_ns: int,";
    "        ts_event: int,";
    "        ts_init: int,";
    "        margin_init: Decimal | None = None,";
    "        margin_maint: Decimal | None = None,";
    "        maker_fee: Decimal | None = None,";
    "        taker_fee: Decimal | None = None,";
    "        exchange: str | None = None,";
    "        tick_scheme_name: str | None = None,";
    "        info: dict | None = None,";
    "    ) -> None: ..."].

Definition _DATA_IMPORT : string :=
  text [
    "";
    "from nautilus_trader.model.identifiers import InstrumentId"].

Definition _DATA_DELTAS_CTOR : string :=
  text_open [
    "    # Constructor hand-ported from data.pyx (stubgen mangles cdef names).";
    "    def __init__(self, instrument_id: InstrumentId, deltas: list) -> None: ..."].

Definition _BASE_PRICE_ATTRS : string :=
  text [
    "    # ``price``/``trigger_price`` live on the concrete limit/stop subclasses,";
    "    # not the base; declared here so adapters can read them guarded by";
    "    # ``has_price``/``has_trigger_price``. ``trigger_type`` is deliberately";
    "    # absent: only stop orders expose it, and unguarded access must stay an error.";
    "    price: Incomplete";
    "    trigger_price: Incomplete"].

Definition _COMPONENT_CDEF_ATTRS : string :=
  text [
    "    # cdef attribute surface (from component.pxd) that subclasses use directly.";
    "    _clock: Incomplete";
    "    _log: Incomplete";
    "    _msgbus: Incomplete";
    "    _loop: Incomplete"].

Definition _DATA_CLIENT_IMPORT : string :=
  text [
    "";
    "from nautilus_trader.cache.cache import Cache"].

Definition _DATA_CLIENT_ATTRS : string :=
  text [
    "    # cdef readonly Cache _cache (data/client.pxd) — adapters read it via self._cache.";
    "    _cache: Cache"].

Definition _ACCOUNT_STATE_CTOR : string :=
  text_open [
    "    # Hand-ported from execution/client.pxd (stubgen mangles cdef params).";
    "    def generate_account_state(";
    "        self, balances: list, margins: list, reported: bool, ts_event: int, info: dict | None = None";
    "    ) -> None: ...";
    "    _cache: Incomplete";
    "    def _set_account_id(self, account_id: Any) -> None: ...";
    "    def _send_account_state(self, account_state: Any) -> None: ...";
    "    def _send_order_event(self, event: Any) -> None: ...";
    "    def _send_mass_status_report(self, report: Any) -> None: ...";
    "    def _send_order_status_report(self, report: Any) -> None: ...";
    "    def _send_fill_report(self, report: Any) -> None: ...";
    "    def _send_position_status_report(self, report: Any) -> None: ..."].

Definition _SUBMIT_ORDER_CTOR : string :=
  text_open [
    "    # Hand-ported from execution/messages.pxd (stubgen mangles cdef params).";
    "    def __init__(";
    "        self,";
    "        trader_id: Any,";
    "        strategy_id: Any,";
    "        order: Any,";
    "        command_id: Any,";
    "        ts_init: int,";
    "        position_id: Any | None = None,";
    "        client_id: Any | None = None,";
    "        params: dict | None = None,";
    "        correlation_id: Any | None = None,";
    "    ) -> None: ..."].

Definition recon_GenerateFillReports : string :=
  text_open [
    "    # Hand-ported recon ctor from execution/messages.pyx (stubgen mangles cdef names).";
    "    def __init__(";
    "        self,";
    "        instrument_id: Any,";
    "        venue_order_id: Any,";
    "        start: Any,";
    "        end: Any,";
    "        command_id: Any,";
    "        ts_init: int,";
    "        params: dict | None = None,";
    "        correlation_id: Any | None = None,";
    "    ) -> None: ..."].

Definition recon_GenerateOrderStatusReports : string :=
  text_open [
    "    # Hand-ported recon ctor from execution/messages.pyx (stubgen mangles cdef names).";
    "    def __init__(";
    "        self,";
    "        instrument_id: Any,";
    "        start: Any,";
    "        end: Any,";
    "        open_only: bool,";
    "        command_id: Any,";
    "        ts_init: int,";
    "        params: dict | None = None,";
    "        log_receipt_level: Any = ...,";
    "        correlation_id: Any | None = None,";
    "    ) -> None: ..."].

Definition recon_GeneratePositionStatusReports : string :=
  text_open [
    "    # Hand-ported recon ctor from execution/messages.pyx (stubgen mangles cdef names).";
    "    def __init__(";
    "        self,";
    "        instrument_id: Any,";
    "        start: Any,";
    "        end: Any,";
    "        command_id: Any,";
    "        ts_init: int,";
    "        params: dict | None = None,";
    "        log_receipt_level: Any = ...,";
    "        correlation_id: Any | None = None,";
    "    ) -> None: ..."].

Definition _EXEC_RECON_CTORS : list (string * string) :=
  [("GenerateFillReports", recon_GenerateFillReports); ("GenerateOrderStatusReports", recon_GenerateOrderStatusReports); ("GeneratePositionStatusReports", recon_GeneratePositionStatusReports)].

Definition _LIVE_MDC_LIVEDATACLIENT_HEADER : string :=
  text [
    "# 1.231.x models LiveMarketDataClient(MarketDataClient) and";
    "# LiveDataClient(DataClient) as parallel Cython branches, yet the class";
    "# genuinely provides the full LiveDataClient surface (loop, create_task,";
    "# run_after_delay, connect/disconnect, cancel_pending_tasks) and";
    "# LiveDataClientFactory.create contracts -> LiveDataClient. The adapter";
    "# subclasses LiveMarketDataClient only (the dual-base MRO breaks __init__:";
    "# either ordering lands on the other base's required ``loop``), so the stub";
    "# declares the LiveDataClient relationship to satisfy the factory contract";
    "# statically - the node builder registers the client, never isinstance-checks."].

Definition _LIVE_MDC_HANDLERS : string :=
  text [
    "    # cdef handler surface adapters override (data_client.pxd).";
    "    _instrument_provider: Incomplete";
    "    # cdef handlers take the full native arg list; ``*args`` keeps the override";
    "    # surface loose (adapter calls them with venue + payload + timestamps).";
    "    def _handle_data(self, *args: Any, **kwargs: Any) -> None: ...";
    "    def _handle_bars(self, *args: Any, **kwargs: Any) -> None: ...";
    "    def _handle_trade_ticks(self, *args: Any, **kwargs: Any) -> None: ...";
    "    def _handle_quote_ticks(self, *args: Any, **kwargs: Any) -> None: ..."].

(** ** Self imports *)

(** [re.findall(r"^class (\w+)", text, re.MULTILINE)]. *)
Definition class_name (line : string) : option string :=
  match strip_prefix "class " line with
  | Some r => let w := (take_word r).1 in if nonempty w then Some w else None
  | None => None
  end.

(** [re.match(r"^import (\w+)$", line)]. *)
Definition import_name (line : string) : option string :=
  match strip_prefix "import " line with
  | Some r => let '(w, rest) := take_word r in if nonempty w && negb (nonempty rest) then Some w else None
  | None => None
  end.

Definition LFA : ascii := ascii_of_N 10.
Definition classes (s : string) : list string := omap class_name (split_on LFA s).

Definition self_import (names : list string) (line : string) : bool :=
  match import_name line with Some x => bool_decide (x ∈ names) | None => false end.

(** One file: [None] when nothing is dropped and the file is left as it is. *)
Definition strip_file (s : string) : option (string * nat) :=
  let lines := splitlines s in
  let kept := List.filter (fun l => negb (self_import (classes s) l)) lines in
  if (length kept =? length lines)%nat then None
  else Some (String.concat LFS kept +:+ LFS, length lines - length kept)%nat.

Abbreviation Tree := (gmap string string).

Definition is_pyi (path : string) : bool := match strip_suffix ".pyi" path with Some _ => true | None => false end.

Definition _strip_self_imports (t : Tree) : Tree * nat :=
  (map_imap (fun path s => if is_pyi path then Some (from_option fst s (strip_file s)) else Some s) t,
   foldr Nat.add 0%nat
     ((fun kv => if is_pyi kv.1 then from_option snd 0%nat (strip_file kv.2) else 0%nat) <$> map_to_list t)).

(** ** Patches *)

Definition missing_file (path : string) : exn := Exn ExOs None ("FileNotFoundError: " +:+ path).
Definition anchor_missing (what : string) : exn := Exn ExSystemExit None ("gen_nautilus_stubs: " +:+ what).

Definition read_text (path : string) : M Tree string := fun t =>
  match t !! path with Some s => (Ok s, t) | None => (Raise (missing_file path), t) end.
Definition write_text (path s : string) : M Tree unit := fun t => (Ok tt, <[path := s]> t).

Record HandPatch := MkHandPatch { hp_path : string; hp_old : string; hp_new : string; hp_marker : string }.

Definition _patch (p : HandPatch) : M Tree nat :=
  s ← read_text (hp_path p);
  if contains (hp_marker p) s then mret 0%nat
  else if negb (contains (hp_old p) s) then
    throw (anchor_missing ("anchor missing in " +:+ hp_path p +:+ ":" +:+ LFS +:+ hp_old p))
  else _ ← write_text (hp_path p) (replace_first (hp_old p) (hp_new p) s); mret 1%nat.

Definition component_head : string :=
  text ["class Component:";
        "    fully_qualified_name: ClassVar[method] = ...";
        "    __pyx_vtable__: ClassVar[PyCapsule] = ..."].

Definition component_patch : HandPatch :=
  MkHandPatch "common/component.pyi" component_head (component_head +:+ _COMPONENT_CDEF_ATTRS)
    "# cdef attribute surface (from component.pxd)".

Definition data_client_patch : HandPatch :=
  MkHandPatch "data/client.pyi"
    (text_open ["    is_connected: Incomplete"; "    venue: Incomplete"; "    def __init__(self, ClientIdclient_id"])
    (text ["    is_connected: Incomplete"; "    venue: Incomplete"] +:+ _DATA_CLIENT_ATTRS
     +:+ "    def __init__(self, ClientIdclient_id")
    "# cdef readonly Cache _cache".

Definition account_state_patch : HandPatch :=
  MkHandPatch "execution/client.pyi"
    (text ["    def generate_account_state(self, listbalances, listmargins, boolreported, uint64_tts_event, dictinfo=...) -> void: ..."])
    (_ACCOUNT_STATE_CTOR +:+ LFS) "# Hand-ported from execution/client.pxd".

Definition liquidity_patch : HandPatch :=
  MkHandPatch "execution/client.pyi"
    "LiquiditySideliquidity_side, uint64_tts_event, dictinfo=...) -> void: ..."
    "LiquiditySideliquidity_side, uint64_tts_event, info: dict | None = ...) -> void: ..."
    "info: dict | None = ...".

Definition submit_order_patch : HandPatch :=
  MkHandPatch "execution/messages.pyi"
    (text ["    def __init__(self, TraderIdtrader_id, StrategyIdstrategy_id, Orderorder, UUID4command_id, uint64_tts_init, PositionIdposition_id: PositionId | None = ..., ClientIdclient_id=..., dictparams: dict | None = ..., UUID4correlation_id=...) -> None: ..."])
    (_SUBMIT_ORDER_CTOR +:+ LFS) "# Hand-ported from execution/messages.pxd".

Definition live_handlers_patch : HandPatch :=
  MkHandPatch "live/data_client.pyi"
    (text ["class LiveMarketDataClient(MarketDataClient):"])
    (text ["class LiveMarketDataClient(MarketDataClient, LiveDataClient):"] +:+ _LIVE_MDC_HANDLERS)
    "# cdef handler surface adapters override (data_client.pxd)".

Definition live_header_patch : HandPatch :=
  MkHandPatch "live/data_client.pyi"
    (text ["class LiveMarketDataClient(MarketDataClient, LiveDataClient):"])
    (_LIVE_MDC_LIVEDATACLIENT_HEADER +:+ LFS
     +:+ text ["class LiveMarketDataClient(MarketDataClient, LiveDataClient):"])
    "# 1.231.x models LiveMarketDataClient(MarketDataClient)".

(** Every call of [_patch]. *)
Definition hand_patches : list HandPatch :=
  [component_patch; data_client_patch; account_state_patch; liquidity_patch; submit_order_patch;
   live_handlers_patch; live_header_patch].

(** The package init is emptied. *)
Definition empty_init : M Tree nat :=
  s ← read_text "__init__.pyi";
  if nonempty (strip s) then _ ← write_text "__init__.pyi" ""; mret 1%nat else mret 0%nat.

Definition CACHE_IMPORT : string := "from nautilus_trader.cache.cache import Cache".
Definition data_client_import : M Tree nat :=
  s ← read_text "data/client.pyi";
  if contains CACHE_IMPORT s then mret 0%nat
  else
    _ ← write_text "data/client.pyi"
          (replace_first (text ["from _typeshed import Incomplete"])
             (text ["from _typeshed import Incomplete"] +:+ _DATA_CLIENT_IMPORT) s);
    mret 1%nat.

(** *** The constructors that stubgen mangles *)

Definition CTOR_HEAD : string := "    def __init__(self, InstrumentIdinstrument_id".
Definition CTOR_END : string := text [") -> None: ..."].

(** [.*?] up to the end of the signature, on the same line. *)
Fixpoint to_ctor_end (s : string) : option string :=
  match strip_prefix CTOR_END s with
  | Some rest => Some rest
  | None =>
      match s with
      | EmptyString => None
      | String a s' => if bool_decide (a = LFA) then None else to_ctor_end s'
      end
  end.

(** [re.sub(..., count=1)]: [None] when there is no match. *)
Fixpoint sub_ctor (new s : string) : option string :=
  match strip_prefix CTOR_HEAD s ≫= to_ctor_end with
  | Some rest => Some (new +:+ rest)
  | None =>
      match s with
      | EmptyString => None
      | String a s' => String a <$> sub_ctor new s'
      end
  end.

(** A class body ends before the next class. *)
Definition split_body (s : string) : string * string :=
  match s with
  | EmptyString => (EmptyString, EmptyString)
  | String a rest =>
      match find_sub (LFS +:+ "class ") rest with
      | Some (b, r) => (String a b, LFS +:+ "class " +:+ r)
      | None => (s, EmptyString)
      end
  end.

Definition recon_marker (cname : string) : string := "# Hand-ported recon ctor (" +:+ cname +:+ ")".
Definition recon_class (cname : string) : string := "class " +:+ cname +:+ "(ExecutionReportCommand):".

Definition recon_patch (c : string * string) : M Tree nat :=
  let '(cname, ctor) := c in
  s ← read_text "execution/messages.pyi";
  if contains (recon_marker cname) s then mret 0%nat
  else
    match find_sub (recon_class cname) s with
    | None => throw (Exn ExValue None "substring not found")
    | Some (before, rest) =>
        let '(body, after) := split_body (recon_class cname +:+ rest) in
        match sub_ctor (ctor +:+ LFS) body with
        | None => throw (anchor_missing (cname +:+ " ctor anchor missing"))
        | Some patched =>
            if bool_decide (patched = body) then throw (anchor_missing (cname +:+ " ctor anchor missing"))
            else _ ← write_text "execution/messages.pyi" (before +:+ patched +:+ after); mret 1%nat
        end
    end.

(** *** Handlers *)

(** [ {4}def (on_\w+)\(self, (\w+)(event)\) -> void: \.\.\.\n]. *)
Definition handler_match (s : string) : option (string * string) :=
  r1 ← strip_prefix "    def on_" s;
  let '(name, r2) := take_word r1 in
  r3 ← strip_prefix "(self, " r2;
  let '(param, r4) := take_word r3 in
  head ← strip_suffix "event" param;
  rest ← strip_prefix (text [") -> void: ..."]) r4;
  if nonempty name && nonempty head
  then Some ("    def on_" +:+ name +:+ text ["(self, event) -> void: ..."], rest) else None.

Definition STRATEGY_MARKER : string := "# Hand-ported handler param names (strategy.pxd)".
Definition strategy_text (s : string) : string :=
  let s := replace_first (text ["class Strategy(Actor):"])
             (text ["class Strategy(Actor):"; "    # Hand-ported handler param names (strategy.pxd)"]) s in
  let s := sub_all (S (String.length s)) handler_match s in
  let s := replace_all
    (text ["    def submit_order(self, Orderorder, PositionIdposition_id=..., ClientIdclient_id=..., dictparams=...) -> void: ..."])
    (text ["    def submit_order(self, order, position_id=..., client_id=..., params=...) -> void: ..."]) s in
  replace_all
    (text ["    def submit_order_list(self, OrderListorder_list, PositionIdposition_id=..., ClientIdclient_id=..., dictparams=...) -> void: ..."])
    (text ["    def submit_order_list(self, order_list, position_id=..., client_id=..., params=...) -> void: ..."]) s.

Definition strategy_patch : M Tree nat :=
  s ← read_text "trading/strategy.pyi";
  if contains STRATEGY_MARKER s then mret 0%nat
  else _ ← write_text "trading/strategy.pyi" (strategy_text s); mret 1%nat.

Definition ACTOR_MARKER : string := "# Hand-ported handler param names (actor.pxd)".
Definition actor_pairs : list (string * string) :=
  [(text ["    def on_bar(self, Barbar) -> void: ..."], text ["    def on_bar(self, bar) -> void: ..."]);
   (text ["    def on_quote_tick(self, QuoteTicktick) -> void: ..."], text ["    def on_quote_tick(self, tick) -> void: ..."]);
   (text ["    def on_trade_tick(self, TradeTicktick) -> void: ..."], text ["    def on_trade_tick(self, tick) -> void: ..."]);
   (text ["    def subscribe_quote_ticks(self, InstrumentIdinstrument_id, ClientIdclient_id=..., boolupdate_catalog=..., boolaggregate_spread_quotes=..., dictparams=...) -> void: ..."],
    text ["    def subscribe_quote_ticks(self, instrument_id, client_id=..., update_catalog=..., aggregate_spread_quotes=..., params=...) -> void: ..."])].

Fixpoint actor_text (pairs : list (string * string)) (s : string) : res string :=
  match pairs with
  | [] => Ok s
  | (old, new) :: rest =>
      if contains old s then actor_text rest (replace_first old new s)
      else Raise (anchor_missing ("actor anchor missing:" +:+ LFS +:+ old))
  end.

Definition actor_patch : M Tree nat :=
  s ← read_text "common/actor.pyi";
  if contains ACTOR_MARKER s then mret 0%nat
  else
    s' ← lift (actor_text actor_pairs
                 (replace_first (text ["class Actor(Component):"])
                    (text ["class Actor(Component):"; "    # Hand-ported handler param names (actor.pxd)"]) s));
    _ ← write_text "common/actor.pyi" s'; mret 1%nat.

(** *** Models *)

Definition futures_patch : M Tree nat :=
  s ← read_text "model/instruments/futures_contract.pyi";
  if contains _FUTURES_CTOR s then mret 0%nat
  else
    let s := default s (sub_ctor (_FUTURES_CTOR +:+ LFS) s) in
    let s := if contains "from nautilus_trader.model.enums import AssetClass" s then s
             else replace_all (text ["from typing import Any, ClassVar"])
                    (text ["from typing import Any, ClassVar"; ""] +:+ _FUTURES_CTOR_IMPORTS) s in
    _ ← write_text "model/instruments/futures_contract.pyi" s; mret 1%nat.

Definition data_patch : M Tree nat :=
  s ← read_text "model/data.pyi";
  if contains _DATA_DELTAS_CTOR s then mret 0%nat
  else
    let s := replace_first (text ["    def __init__(self, InstrumentIdinstrument_id, listdeltas) -> None: ..."])
               (_DATA_DELTAS_CTOR +:+ LFS) s in
    let s := if contains "from nautilus_trader.model.identifiers import InstrumentId" s then s
             else replace_all (text ["from typing import Any, Callable, ClassVar, overload"])
                    (text ["from typing import Any, Callable, ClassVar, overload"] +:+ _DATA_IMPORT) s in
    _ ← write_text "model/data.pyi" s; mret 1%nat.

Definition base_patch : M Tree nat :=
  s ← read_text "model/orders/base.pyi";
  if contains "# ``price``/``trigger_price`` live on the concrete" s then mret 0%nat
  else
    _ ← write_text "model/orders/base.pyi"
          (replace_all (text ["    has_trigger_price: Incomplete"])
             (text ["    has_trigger_price: Incomplete"] +:+ _BASE_PRICE_ATTRS) s);
    mret 1%nat.

(** The number applied; an exception leaves what was written before it. *)
Fixpoint sumM (l : list (M Tree nat)) : M Tree nat :=
  match l with
  | [] => mret 0%nat
  | m :: rest => n ← m; k ← sumM rest; mret (n + k)%nat
  end.

Definition patch_steps : list (M Tree nat) :=
  [empty_init; _patch component_patch; data_client_import; _patch data_client_patch;
   _patch account_state_patch; _patch liquidity_patch; _patch submit_order_patch]
  ++ (recon_patch <$> _EXEC_RECON_CTORS)
  ++ [strategy_patch; actor_patch; _patch live_handlers_patch; _patch live_header_patch;
      futures_patch; data_patch; base_patch].

Definition _apply_hand_patches : M Tree nat := sumM patch_steps.

(** ** Pruning *)

Definition unused (path : string) : bool :=
  is_pyi path &&
  match split_on "/" path with
  | first :: _ :: _ => negb (bool_decide (first ∈ _EXPECTED_TOP_LEVEL))
  | _ => false
  end.

Definition _prune_unused_subpackages (t : Tree) : Tree * nat :=
  (filter (fun kv => unused kv.1 = false) t, size (filter (fun kv => unused kv.1 = true) t)).

(** ** Installing

    The staged tree, the current one and the one moved aside.  The operating
    system decides what fails: a removal may leave a part, a rename may be
    refused (and is, onto a directory that is not empty), a move may fail with or
    without a part of the tree at its destination. *)
Record Fs := MkFs { fs_target : option Tree; fs_backup : option Tree; fs_staged : option Tree }.

Inductive MoveOut := MoveOk | MoveFails | MoveFailsWith (part : Tree).

Record OsAnswers := MkOs {
  os_rm : option Tree -> option Tree;   (* [rmtree(..., ignore_errors=True)] of the backup *)
  os_aside : bool;                      (* the rename of the current tree *)
  os_move : MoveOut;
  os_restore : bool;                    (* the rename back *)
  os_rm_after : option Tree -> option Tree
}.

Definition os_error : exn := Exn ExOs None "OSError".

Definition free (d : option Tree) : bool := match d with Some t => bool_decide (t = ∅) | None => true end.

Definition _install (os : OsAnswers) (fs : Fs) : res unit * Fs :=
  let backup := os_rm os (fs_backup fs) in
  match fs_target fs with
  | None =>
      match os_move os with
      | MoveOk => (Ok tt, MkFs (fs_staged fs) (os_rm_after os backup) None)
      | MoveFails => (Raise os_error, MkFs None backup (fs_staged fs))
      | MoveFailsWith part => (Raise os_error, MkFs (Some part) backup (fs_staged fs))
      end
  | Some old =>
      if negb (os_aside os && free backup) then (Raise os_error, MkFs (Some old) backup (fs_staged fs))
      else
        match os_move os with
        | MoveOk => (Ok tt, MkFs (fs_staged fs) (os_rm_after os (Some old)) None)
        | MoveFails =>
            (Raise os_error, if os_restore os then MkFs (Some old) None (fs_staged fs)
                             else MkFs None (Some old) (fs_staged fs))
        | MoveFailsWith part =>
            (Raise os_error,
             if os_restore os && free (Some part) then MkFs (Some old) None (fs_staged fs)
             else MkFs (Some part) (Some old) (fs_staged fs))
        end
  end.

(** [main]: the generator's tree, or its failure, is an argument. *)
Definition processed (generated : Tree) : res (Tree * (nat * nat * nat)) :=
  let '(t1, stripped) := _strip_self_imports generated in
  match _apply_hand_patches t1 with
  | (Raise e, _) => Raise e
  | (Ok applied, t2) => let '(t3, pruned) := _prune_unused_subpackages t2 in Ok (t3, (stripped, applied, pruned))
  end.

Definition main (stubgen : res Tree) (os : OsAnswers) (fs : Fs) : res (nat * nat * nat) * Fs :=
  match stubgen with
  | Raise e => (Raise e, fs)
  | Ok generated =>
      match processed generated with
      | Raise e => (Raise e, fs)
      | Ok (t, counts) =>
          match _install os (MkFs (fs_target fs) (fs_backup fs) (Some t)) with
          | (Ok _, fs') => (Ok counts, MkFs (fs_target fs') (fs_backup fs') None)
          | (Raise e, fs') => (Raise e, MkFs (fs_target fs') (fs_backup fs') None)
          end
      end
  end.

(** ** Facts: text *)

Lemma find_sub_eq old s : forall b r, find_sub old s = Some (b, r) -> s = b +:+ old +:+ r.
Proof.
  induction s as [|a s IH]; intros b r; cbn [find_sub].
  - destruct (strip_prefix old "") as [r'|] eqn:E; [|done]. intros [= <- <-]. by apply strip_prefix_eq in E.
  - destruct (strip_prefix old (String a s)) as [r'|] eqn:E.
    + intros [= <- <-]. by apply strip_prefix_eq in E.
    + destruct (find_sub old s) as [[b' r']|]; [|done]. intros [= <- <-].
      rewrite string_app_cons. f_equal. by apply IH.
Qed.

Lemma prefix_strip p : forall s, String.prefix p s = true -> is_Some (strip_prefix p s).
Proof.
  induction p as [|a p IH]; intros s; simpl; [eauto|]. destruct s as [|b s]; [done|]. cbn [String.prefix].
  destruct (ascii_dec a b) as [->|]; [|done]. rewrite bool_decide_eq_true_2 by done. apply IH.
Qed.

Lemma contains_find old s : contains old s = true -> is_Some (find_sub old s).
Proof.
  induction s as [|a s IH]; cbn [contains find_sub]; intros H.
  - rewrite orb_false_r in H. apply prefix_strip in H as [r ->]. eauto.
  - destruct (strip_prefix old (String a s)) eqn:E; [eauto|].
    apply orb_true_iff in H as [H|H]; [apply prefix_strip in H as [r H]; congruence|].
    destruct (IH H) as [[b r] ->]. eauto.
Qed.

Lemma contains_app_l m s t : contains m t = true -> contains m (s +:+ t) = true.
Proof.
  intros H. induction s as [|a s IH]; [done|]. rewrite string_app_cons. cbn [contains].
  by rewrite IH, orb_true_r.
Qed.

Lemma contains_app_r m s t : contains m s = true -> contains m (s +:+ t) = true.
Proof.
  induction s as [|a s IH]; intros H.
  - cbn [contains] in H. rewrite orb_false_r in H.
    pose proof (prefix_app m EmptyString t H) as Hp. rewrite string_app_nil in Hp |- *.
    destruct t; cbn [contains]; by rewrite Hp.
  - rewrite string_app_cons. cbn [contains] in H |- *. apply orb_true_iff in H as [H|H].
    + pose proof (prefix_app m _ t H) as Hp. rewrite string_app_cons in Hp. by rewrite Hp.
    + by rewrite IH, orb_true_r.
Qed.

(** ** Facts: patches *)

(** A patch whose new text holds its marker is applied once: run again, it
    changes nothing. *)
Theorem patch_again p t n t' :
  contains (hp_marker p) (hp_new p) = true -> _patch p t = (Ok n, t') -> _patch p t' = (Ok 0%nat, t').
Proof.
  intros Hm. unfold _patch, read_text, write_text. run_monad.
  destruct (t !! hp_path p) as [s|] eqn:Et; [|done].
  destruct (contains (hp_marker p) s) eqn:Ec.
  - intros [= <- <-]. by rewrite Et, Ec.
  - destruct (contains (hp_old p) s) eqn:Eo; simpl; [|done]. intros [= <- <-]. rewrite lookup_insert_eq.
    assert (contains (hp_marker p) (replace_first (hp_old p) (hp_new p) s) = true) as ->; [|done].
    unfold replace_first. destruct (contains_find _ _ Eo) as [[b r] ->].
    by apply contains_app_l, contains_app_r.
Qed.

(** So are all seven calls of [_patch], and none touches a pruned file. *)
Theorem hand_patches_once :
  Forall (fun p => contains (hp_marker p) (hp_new p) = true /\ unused (hp_path p) = false) hand_patches.
Proof. repeat constructor; vm_compute; reflexivity. Qed.

(** A patch rewrites its own file only. *)
Lemma patch_local p t r t' path : _patch p t = (r, t') -> path <> hp_path p -> t' !! path = t !! path.
Proof.
  unfold _patch, read_text, write_text. run_monad. intros H Hne.
  destruct (t !! hp_path p) as [s|]; [|by injection H as <- <-].
  destruct (contains (hp_marker p) s); [by injection H as <- <-|].
  destruct (negb _); injection H as <- <-; [done|]. by rewrite lookup_insert_ne.
Qed.

(** ** Facts: self imports *)

(** Dropping self imports keeps every class line, so a second pass finds the
    same classes and nothing to drop. *)
Lemma class_line_kept names l : is_Some (class_name l) -> self_import names l = false.
Proof.
  unfold class_name, self_import, import_name. intros [w H].
  destruct (strip_prefix "class " l) as [r|] eqn:E; [|done]. apply strip_prefix_eq in E as ->. done.
Qed.

Definition drop_self_imports (lines : list string) : list string :=
  List.filter (fun l => negb (self_import (omap class_name lines) l)) lines.

Lemma drop_keeps_classes names (ls : list string) :
  omap class_name (List.filter (fun l => negb (self_import names l)) ls) = omap class_name ls.
Proof.
  induction ls as [|l ls IH]; [done|]. simpl. destruct (class_name l) eqn:Ec.
  - rewrite class_line_kept by eauto. simpl. rewrite Ec. by f_equal.
  - destruct (self_import names l); simpl; [done|]. by rewrite Ec.
Qed.

Theorem strip_lines_idempotent (lines : list string) :
  drop_self_imports (drop_self_imports lines) = drop_self_imports lines /\
  omap class_name (drop_self_imports lines) = omap class_name lines.
Proof.
  split; [|apply drop_keeps_classes]. unfold drop_self_imports at 1. unfold drop_self_imports at 1.
  rewrite drop_keeps_classes. unfold drop_self_imports. generalize (omap class_name lines). intros names.
  induction lines as [|l ls IH]; [done|]. simpl.
  destruct (self_import names l) eqn:E; simpl; [done|]. rewrite E. simpl. by f_equal.
Qed.

(** ** Facts: pruning *)

(** What is left is what was there, less the unused subpackages, and the count
    is that of the files removed. *)
Theorem prune_exact t path s :
  (_prune_unused_subpackages t).1 !! path = Some s <-> t !! path = Some s /\ unused path = false.
Proof. unfold _prune_unused_subpackages. simpl. by rewrite map_lookup_filter_Some. Qed.

Lemma prune_count t :
  (size (_prune_unused_subpackages t).1 + (_prune_unused_subpackages t).2 = size t)%nat.
Proof.
  unfold _prune_unused_subpackages. simpl.
  assert (Hd : filter (fun kv : string * string => unused kv.1 = false) t ##ₘ
               filter (fun kv : string * string => unused kv.1 = true) t).
  { apply map_disjoint_spec. intros path s s' [_ H1]%map_lookup_filter_Some [_ H2]%map_lookup_filter_Some.
    simpl in *. congruence. }
  rewrite <- map_size_disj_union by done. f_equal. apply map_eq. intros path. apply option_eq. intros s.
  rewrite lookup_union_Some, !map_lookup_filter_Some by done. simpl.
  destruct (unused path); naive_solver.
Qed.

(** ** Facts: installing *)

(** Unless the move leaves a part behind or the rename back is refused, the
    target is the new tree when the swap succeeds and the old one (or none, when
    there was none) when it fails, whatever else goes wrong. *)
Theorem install_swaps os fs r fs' :
  match os_move os with MoveFailsWith _ => False | _ => True end -> os_restore os = true ->
  _install os fs = (r, fs') ->
  fs_target fs' = match r with Ok _ => fs_staged fs | Raise _ => fs_target fs end.
Proof.
  intros Hm Hr. unfold _install. rewrite Hr.
  destruct (fs_target fs) as [old|] eqn:Et.
  - destruct (negb _); [by intros [= <- <-]|]. destruct (os_move os); by intros [= <- <-].
  - destruct (os_move os); by intros [= <- <-].
Qed.

(** The old tree is never lost: it is the target, or it is still aside. *)
Theorem install_keeps_old os fs r fs' old :
  _install os fs = (r, fs') -> fs_target fs = Some old ->
  r = Ok tt \/ fs_target fs' = Some old \/ fs_backup fs' = Some old.
Proof.
  unfold _install. intros H Ht. rewrite Ht in H. destruct (negb _); [injection H as <- <-; auto|].
  destruct (os_move os); [injection H as <- <-; auto| |].
  - destruct (os_restore os); injection H as <- <-; auto.
  - destruct (os_restore os && free (Some part)); injection H as <- <-; auto.
Qed.

(** A move that fails half way leaves the part in place: the rename back is
    refused because the target is not empty. *)
Lemma partial_move_stays os fs old part :
  fs_target fs = Some old -> os_aside os = true -> os_rm os (fs_backup fs) = None ->
  os_move os = MoveFailsWith part -> part <> ∅ ->
  _install os fs = (Raise os_error, MkFs (Some part) (Some old) (fs_staged fs)).
Proof.
  intros Ht Ha Hb Hm Hp. unfold _install. rewrite Ht, Ha, Hb, Hm. simpl.
  by rewrite bool_decide_eq_false_2, andb_false_r.
Qed.

(** A generator, a patch or an anchor that fails never touches the installed
    stubs; a run that succeeds installs the processed tree. *)
Theorem main_swaps stubgen os fs r fs' :
  match os_move os with MoveFailsWith _ => False | _ => True end -> os_restore os = true ->
  main stubgen os fs = (r, fs') ->
  match r with
  | Raise _ => fs_target fs' = fs_target fs
  | Ok counts => exists generated t, stubgen = Ok generated /\ processed generated = Ok (t, counts) /\
                   fs_target fs' = Some t
  end.
Proof.
  intros Hm Hr. unfold main. destruct stubgen as [generated|e]; [|by intros [= <- <-]].
  destruct (processed generated) as [[t counts]|e] eqn:Ep; [|by intros [= <- <-]].
  destruct (_install os (MkFs (fs_target fs) (fs_backup fs) (Some t))) as [ri fi] eqn:Ei.
  pose proof (install_swaps _ _ _ _ Hm Hr Ei) as Hs.
  destruct ri; intros [= <- <-]; simpl in *; [by eexists _, _|done].
Qed.

(** ** Runs *)

Module StubSample.
Definition recon_source (c : string) : string :=
  text [recon_class c; "    def __init__(self, InstrumentIdinstrument_id, UUID4command_id) -> None: ..."; "    command_id: Incomplete"].

(** A generated tree with every anchor the patches look for. *)
Definition generated : Tree := list_to_map
  [("__init__.pyi", "from nautilus_pyo3 import x");
   ("common/component.pyi", component_head);
   ("data/client.pyi", text ["from _typeshed import Incomplete"] +:+ hp_old data_client_patch);
   ("execution/client.pyi", hp_old account_state_patch +:+ hp_old liquidity_patch);
   ("execution/messages.pyi", hp_old submit_order_patch +:+ recon_source "GenerateFillReports"
      +:+ recon_source "GenerateOrderStatusReports" +:+ recon_source "GeneratePositionStatusReports");
   ("trading/strategy.pyi", text ["import Strategy"; "class Strategy(Actor):";
      "    def on_order_accepted(self, OrderAcceptedevent) -> void: ..."]);
   ("common/actor.pyi", text ["class Actor(Component):"] +:+ String.concat "" (fst <$> actor_pairs));
   ("live/data_client.pyi", hp_old live_handlers_patch);
   ("model/instruments/futures_contract.pyi", text ["from typing import Any, ClassVar";
      "    def __init__(self, InstrumentIdinstrument_id, Symbolraw_symbol) -> None: ..."]);
   ("model/data.pyi", text ["    def __init__(self, InstrumentIdinstrument_id, listdeltas) -> None: ..."]);
   ("model/orders/base.pyi", text ["    has_trigger_price: Incomplete"]);
   ("adapters/x.pyi", "")].

Definition patched : res nat * Tree := _apply_hand_patches (_strip_self_imports generated).1.

(** All seventeen patches apply, the bogus import and the unused file go. *)
Example stubs_processed :
  patched.1 = Ok 17%nat /\ (snd <$> match processed generated with Ok x => Some x | Raise _ => None end)
    = Some (1%nat, 17%nat, 1%nat) /\
  patched.2 !! "trading/strategy.pyi" = Some (text ["class Strategy(Actor):";
    "    # Hand-ported handler param names (strategy.pxd)"; "    def on_order_accepted(self, event) -> void: ..."]).
Proof. vm_compute. done. Qed.

(** The constructors of the reconciliation commands never carry the marker their
    guard looks for: on a patched tree the guard does not hold and the run stops
    at a missing anchor. *)
Example recon_not_idempotent :
  Forall (fun c => contains (recon_marker c.1) c.2 = false) _EXEC_RECON_CTORS /\
  (_apply_hand_patches patched.2).1 = Raise (anchor_missing "GenerateFillReports ctor anchor missing").
Proof. split; [repeat constructor; vm_compute; reflexivity|vm_compute; reflexivity]. Qed.

(** A strategy stub without any of its anchors is reported as patched. *)
Example strategy_patch_without_anchor :
  let t : Tree := {["trading/strategy.pyi" := "class S:"]} in strategy_patch t = (Ok 1%nat, t).
Proof. vm_compute. reflexivity. Qed.
End StubSample.

(** ** The protobuf generator (scripts/gen_gateway_proto.py)

    Runs the pinned compiler, which writes the module, then restores the version
    the repository pins in its two lines. *)
Module Proto.

Definition _VERSION_COMMENT : string := "# Protobuf Python Version: 5.29.0".

(** [\s*\n\s*]: blanks with a line end among them. *)
Fixpoint blanks (s : string) : string * string :=
  match s with
  | String a s' => if py_space a then let '(w, r) := blanks s' in (String a w, r) else (EmptyString, s)
  | EmptyString => (EmptyString, EmptyString)
  end.
Definition line_break (s : string) : option (string * string) :=
  let '(w, r) := blanks s in if has_char LFA w then Some (w, r) else None.

(** The pieces of [_RUNTIME_PATCH], with a break between two of them. *)
Definition runtime_pieces : list string :=
  ["ValidateProtobufRuntimeVersion("; "_runtime_version.Domain.PUBLIC,"; "5,"; "29,"].

Fixpoint match_pieces (ps : list string) (s : string) : option (string * string) :=
  match ps with
  | [] => Some (EmptyString, s)
  | p :: rest =>
      r ← strip_prefix p s;
      '(w, r) ← line_break r;
      '(m, r) ← match_pieces rest r;
      Some (p +:+ w +:+ m, r)
  end.

Definition runtime_match (s : string) : option (string * string) :=
  '(m, r) ← match_pieces runtime_pieces s;
  rest ← strip_prefix "0," r;
  Some (m +:+ "6,", rest).

(** [subn]: the text and the number of replacements. *)
Fixpoint subn (fuel : nat) (m : string -> option (string * string)) (s : string) : string * nat :=
  match fuel with
  | O => (s, O)
  | S fuel' =>
      match m s with
      | Some (new, rest) => let '(t, n) := subn fuel' m rest in (new +:+ t, S n)
      | None =>
          match s with
          | EmptyString => (EmptyString, O)
          | String a s' => let '(t, n) := subn fuel' m s' in (String a t, n)
          end
      end
  end.

Definition restore_version (s : string) : string * nat :=
  let s := replace_all _VERSION_COMMENT "# Protobuf Python Version: 5.29.6" s in
  subn (S (String.length s)) runtime_match s.

(** [main]: what the compiler did, or its failure, is an argument; the state is
    the generated module. *)
Definition gen_proto (protoc : res string) (out : option string) : res Z * option string :=
  match protoc with
  | Raise e => (Raise e, out)
  | Ok gencode =>
      let '(s, n) := restore_version gencode in
      if (n =? 1)%nat then (Ok 0%Z, Some s)
      else (Raise (Exn ExSystemExit None "unexpected gencode shape"), Some gencode)
  end.

Lemma subn_same fuel : forall m s, (subn fuel m s).1 = sub_all fuel m s.
Proof.
  induction fuel as [|fuel IH]; intros m s; [done|]. cbn [subn sub_all].
  destruct (m s) as [[new rest]|].
  - specialize (IH m rest). destruct (subn fuel m rest). simpl in *. by subst.
  - destruct s as [|a s]; [done|]. specialize (IH m s). destruct (subn fuel m s). simpl in *. by subst.
Qed.

(** The pinned version is written only over generated code of exactly the known
    shape; any other shape stops the run. *)
Theorem proto_shape_checked gencode out r out' :
  gen_proto (Ok gencode) out = (r, out') ->
  (r = Ok 0%Z /\ (restore_version gencode).2 = 1%nat /\ out' = Some (restore_version gencode).1) \/
  ((restore_version gencode).2 <> 1%nat /\ out' = Some gencode /\ exists e, r = Raise e).
Proof.
  unfold gen_proto. destruct (restore_version gencode) as [s n]. simpl.
  destruct (Nat.eqb_spec n 1) as [->|Hn]; intros [= <- <-]; [by left|right; eauto].
Qed.

Definition gencode (patch : string) : string :=
  text [_VERSION_COMMENT; "_runtime_version.ValidateProtobufRuntimeVersion("; "    _runtime_version.Domain.PUBLIC,";
        "    5,"; "    29,"; "    " +:+ patch +:+ ","; "    '',"; ")"].

Example proto_restores :
  gen_proto (Ok (gencode "0")) None = (Ok 0%Z, Some (
    text ["# Protobuf Python Version: 5.29.6"; "_runtime_version.ValidateProtobufRuntimeVersion(";
          "    _runtime_version.Domain.PUBLIC,"; "    5,"; "    29,"; "    6,"; "    '',"; ")"])) /\
  (gen_proto (Ok (gencode "1")) None).1 = Raise (Exn ExSystemExit None "unexpected gencode shape").
Proof. vm_compute. done. Qed.
End Proto.
