(* ===== verification/Streams.v ===== *)
(** * Plant event lanes (crates/rithmic-host/src/streams.rs)

    A lane outlives the plant connections that feed it: forwarders queue messages
    tagged with the generation of their attachment, one consumer takes them in
    batches, attaching and detaching bump the generation.  None of it holds a
    common lock, so every access to a shared cell is a step of its own: the
    consumer's [take] is a program counter over the loads, stores and channel
    reads of the source, an attach, a detach, a failure or a close is the list of
    stores it still has to make, and a run is any interleaving of them.

    A message keeps the generation it was queued with.  A gap that [finish] makes
    for lost messages has none.  The stamp of a failure, a close or an up flag is
    the number of messages queued when it was stored; stamps, the list of all
    messages queued and the list of returns are ghosts: nothing reads them.

    Generations and counters are unbounded; before the first attachment the
    generation owed is one that no message has, here [-1].  Notifications are not
    modelled: a waiting consumer may wake at any time. *)

From Stdlib Require Import String.
From stdpp Require Import base strings list.
From Stdlib Require Import ZArith Lia.
From S2P Require Import Prelude.
Open Scope list_scope.
Open Scope Z_scope.

Inductive Stream := Ticker | History | Pnl | Order.

Definition plant (s : Stream) : string :=
  match s with Ticker => "ticker" | History => "history" | Pnl => "pnl" | Order => "order" end.

Definition ALL : list Stream := [Ticker; History; Pnl; Order].

#[export] Instance Stream_eq_dec : EqDecision Stream.
Proof. solve_decision. Defined.

Definition from_plant (name : string) : option Stream :=
  List.find (fun s => bool_decide (plant s = name)) ALL.

Definition down_is_error (s : Stream) : bool := negb (bool_decide (s = Pnl)).

Definition STREAM_CAPACITY : nat := Z.to_nat 65536.

Inductive Error := Rithmic (text : string) | Transport (text : string).

Section Lane.
Context {E : Type}.

Inductive Msg := MEvent (e : E) | MGap (skipped : Z).

(** A plant event is an event or a gap. *)
Definition msg_of (e : E + Z) : Msg := match e with inl x => MEvent x | inr n => MGap n end.

(** What a batch holds: a queued message with its generation, or the gap made
    for lost ones. *)
Inductive Item := Queued (generation : Z) (m : Msg) | LostGap (n : Z).

Record Lane := MkLane {
  ln_rx : list (Z * Msg);
  ln_generation : Z;
  ln_up : bool * nat;
  ln_closed : bool * nat;
  ln_fail : option (Error * nat);
  ln_stale : Z;
  ln_carry : list (Z * Msg);
  ln_carry_gen : Z
}.

Definition lane_new : Lane := MkLane [] 0 (false, 0%nat) (false, 0%nat) None 0 [] 0.

Inductive Taken :=
  | Msgs (l : list Item)
  | Timeout
  | Down (stamp : nat)
  | Closed (stamp : nat)
  | Fail (e : Error) (stamp : nat).

(** What [take] does after a [drain] and its [finish]. *)
Inductive After :=
  | AfterFirst (up : bool * nat) (current : Z)
  | AfterFail (e : Error) (stamp : nat)
  | AfterClosed (stamp : nat)
  | AfterRecv.

(** The consumer, at the next shared access of [take]. *)
Inductive Pc :=
  | PIdle
  | PUp (limit : nat)
  | PGeneration (limit : nat) (up : bool * nat)
  | PCarry (limit : nat) (up : bool * nat) (current : Z)
  | PDrain (limit : nat) (generation : Z) (batch : list (Z * Msg)) (k : After)
  | PFinish (limit : nat) (generation : Z) (batch : list (Z * Msg)) (k : After)
  | PFail (limit : nat) (current : Z)
  | PPutBack (e : Error) (stamp : nat) (out : list Item)
  | PClosed (limit : nat) (current : Z)
  | PWait (limit : nat)
  | PGot (limit : nat) (t : Z * Msg).

(** A store still to be made by an attach, a detach, a failure or a close. *)
Inductive Write := WClosed (b : bool) | WFail (e : option Error) | WUp (b : bool) | WBump.

Record St := MkSt {
  st_lane : Lane;
  st_pc : Pc;
  st_writers : list (list Write);
  st_issued : list Z;              (* generations that have a sender *)
  st_sent : list (Z * Msg);
  st_outs : list Taken
}.

Definition st_new : St := MkSt lane_new PIdle [] [] [] [].

(** ** Stores *)

Definition write (n : nat) (w : Write) (l : Lane) : Lane :=
  match w with
  | WClosed b => MkLane (ln_rx l) (ln_generation l) (ln_up l) (b, n) (ln_fail l) (ln_stale l) (ln_carry l) (ln_carry_gen l)
  | WFail e => MkLane (ln_rx l) (ln_generation l) (ln_up l) (ln_closed l) ((fun x => (x, n)) <$> e) (ln_stale l) (ln_carry l) (ln_carry_gen l)
  | WUp b => MkLane (ln_rx l) (ln_generation l) (b, n) (ln_closed l) (ln_fail l) (ln_stale l) (ln_carry l) (ln_carry_gen l)
  | WBump => MkLane (ln_rx l) (ln_generation l + 1) (ln_up l) (ln_closed l) (ln_fail l) (ln_stale l) (ln_carry l) (ln_carry_gen l)
  end.

Definition set_fail (f : option (Error * nat)) (l : Lane) : Lane :=
  MkLane (ln_rx l) (ln_generation l) (ln_up l) (ln_closed l) f (ln_stale l) (ln_carry l) (ln_carry_gen l).
Definition set_rx (rx : list (Z * Msg)) (l : Lane) : Lane :=
  MkLane rx (ln_generation l) (ln_up l) (ln_closed l) (ln_fail l) (ln_stale l) (ln_carry l) (ln_carry_gen l).
Definition set_stale (n : Z) (l : Lane) : Lane :=
  MkLane (ln_rx l) (ln_generation l) (ln_up l) (ln_closed l) (ln_fail l) n (ln_carry l) (ln_carry_gen l).
Definition set_carry (c : list (Z * Msg)) (g : Z) (l : Lane) : Lane :=
  MkLane (ln_rx l) (ln_generation l) (ln_up l) (ln_closed l) (ln_fail l) (ln_stale l) c g.

(** The stores after the generation check, in order. *)
Definition attach_writes : list Write := [WClosed false; WFail None; WUp true].
Definition detach_writes : list Write := [WUp false; WClosed false; WBump].
Definition fail_writes (text : string) : list Write := [WFail (Some (Rithmic text))].
Definition fail_login_writes (text : string) : list Write := [WFail (Some (Transport text))].
Definition close_writes : list Write := [WClosed true].

(** ** The consumer *)

(** [drain], one message: carried ones first, then the channel; a message of
    another attachment is counted as stale. *)
Definition drain_step (limit : nat) (g : Z) (batch : list (Z * Msg)) (k : After) (l : Lane) : Lane * Pc :=
  if (length batch <? limit)%nat then
    match ln_carry l with
    | m :: c => (set_carry c (ln_carry_gen l) l, PDrain limit g (batch ++ [m]) k)
    | [] =>
        match ln_rx l with
        | [] => (l, PFinish limit g batch k)
        | t :: r =>
            if t.1 =? g then (set_rx r l, PDrain limit g (batch ++ [t]) k)
            else (set_stale (ln_stale l + 1) (set_rx r l), PDrain limit g batch k)
        end
    end
  else (l, PFinish limit g batch k).

Definition item (t : Z * Msg) : Item := Queued t.1 t.2.

(** [finish]: the gap in front, what does not fit into the carry. *)
Definition finish (limit : nat) (g : Z) (batch : list (Z * Msg)) (l : Lane) : option (list Item) * Lane :=
  let stale := ln_stale l in
  let l := set_stale 0 l in
  let room := if 0 <? stale then (limit - 1)%nat else limit in
  let gap := if 0 <? stale then [LostGap stale] else [] in
  if (0 <? stale) || (0 <? length batch)%nat then
    (Some (gap ++ (item <$> take room batch)),
     if (room <? length batch)%nat then set_carry (drop room batch ++ ln_carry l) g l else l)
  else (None, l).

Inductive Next := Goto (p : Pc) | Return (t : Taken).

(** What follows [finish]. *)
Definition after (limit : nat) (out : option (list Item)) (k : After) : Next :=
  match out, k with
  | Some l, AfterFail e n => Goto (PPutBack e n l)
  | Some l, _ => Return (Msgs l)
  | None, AfterFirst up current => if up.1 then Goto (PFail limit current) else Return (Down up.2)
  | None, AfterFail e n => Return (Fail e n)
  | None, AfterClosed n => Return (Closed n)
  | None, AfterRecv => Goto (PUp limit)
  end.

(** One shared access of [take]; [None] while it waits. *)
Definition consumer_step (p : Pc) (l : Lane) : option (Lane * Next) :=
  match p with
  | PIdle | PWait _ => None
  | PUp limit => Some (l, Goto (PGeneration limit (ln_up l)))
  | PGeneration limit up => Some (l, Goto (PCarry limit up (ln_generation l)))
  | PCarry limit up current =>
      let owed := if up.1 then current else current - 1 in
      let l' := if bool_decide (ln_carry l <> []) && negb (ln_carry_gen l =? owed)
                then set_carry [] (ln_carry_gen l) (set_stale (ln_stale l + Z.of_nat (length (ln_carry l))) l)
                else l in
      Some (l', Goto (PDrain limit owed [] (AfterFirst up current)))
  | PDrain limit g batch k => let '(l', p') := drain_step limit g batch k l in Some (l', Goto p')
  | PFinish limit g batch k => let '(out, l') := finish limit g batch l in Some (l', after limit out k)
  | PFail limit current =>
      match ln_fail l with
      | Some (e, n) => Some (set_fail None l, Goto (PDrain limit current [] (AfterFail e n)))
      | None => Some (l, Goto (PClosed limit current))
      end
  | PPutBack e n out => Some (set_fail (Some (e, n)) l, Return (Msgs out))
  | PClosed limit current =>
      if (ln_closed l).1 then Some (l, Goto (PDrain limit current [] (AfterClosed (ln_closed l).2)))
      else Some (l, Goto (PWait limit))
  | PGot limit t =>
      if t.1 =? ln_generation l then Some (l, Goto (PDrain limit t.1 [t] AfterRecv))
      else Some (set_stale (ln_stale l + 1) l, Goto (PUp limit))
  end.

(** ** Interleavings *)

Inductive Act :=
  | ATake (max : nat)              (* the consumer calls [take] *)
  | AConsumer                      (* it makes its next access *)
  | AWake                          (* a notification *)
  | ARecv                          (* [recv] hands over the first message *)
  | ATimeout
  | ACancel                        (* the waiting future is dropped *)
  | ASend (g : Z) (m : Msg)        (* [StreamTx::event], [gap], [try_event] *)
  | AAttach
  | ADetach (g : Z)
  | AFail (g : Z) (text : string)
  | AFailLogin (g : Z) (text : string)
  | AClose (g : Z)
  | AHubClose
  | AWriter (i : nat).             (* one of the others makes its next store *)

Definition with_lane (l : Lane) (s : St) : St :=
  MkSt l (st_pc s) (st_writers s) (st_issued s) (st_sent s) (st_outs s).
Definition goto (p : Pc) (s : St) : St :=
  MkSt (st_lane s) p (st_writers s) (st_issued s) (st_sent s) (st_outs s).
Definition ret (t : Taken) (s : St) : St :=
  MkSt (st_lane s) PIdle (st_writers s) (st_issued s) (st_sent s) (st_outs s ++ [t]).
Definition spawn (w : list Write) (s : St) : St :=
  MkSt (st_lane s) (st_pc s) (st_writers s ++ [w]) (st_issued s) (st_sent s) (st_outs s).
Definition next (n : Next) (s : St) : St := match n with Goto p => goto p s | Return t => ret t s end.

(** [current()] first, then the stores. *)
Definition if_current (g : Z) (w : list Write) (s : St) : St :=
  if ln_generation (st_lane s) =? g then spawn w s else s.

Definition step (a : Act) (s : St) : option St :=
  let l := st_lane s in
  match a with
  | ATake max => match st_pc s with PIdle => Some (goto (PUp (Nat.max max 1)) s) | _ => None end
  | AConsumer =>
      match consumer_step (st_pc s) l with
      | Some (l', n) => Some (next n (with_lane l' s))
      | None => None
      end
  | AWake => match st_pc s with PWait limit => Some (goto (PUp limit) s) | _ => None end
  | ARecv =>
      match st_pc s, ln_rx l with
      | PWait limit, t :: r => Some (goto (PGot limit t) (with_lane (set_rx r l) s))
      | _, _ => None
      end
  | ATimeout => match st_pc s with PWait _ => Some (ret Timeout s) | _ => None end
  | ACancel => match st_pc s with PWait _ => Some (goto PIdle s) | _ => None end
  | ASend g m =>
      if bool_decide (g ∈ st_issued s) && (length (ln_rx l) <? STREAM_CAPACITY)%nat
      then Some (MkSt (set_rx (ln_rx l ++ [(g, m)]) l) (st_pc s) (st_writers s) (st_issued s)
                   (st_sent s ++ [(g, m)]) (st_outs s))
      else None
  | AAttach =>
      let l' := write 0 WBump l in
      Some (spawn attach_writes
              (MkSt l' (st_pc s) (st_writers s) (ln_generation l' :: st_issued s) (st_sent s) (st_outs s)))
  | ADetach g => Some (if_current g detach_writes s)
  | AFail g text => Some (if_current g (fail_writes text) s)
  | AFailLogin g text => Some (if_current g (fail_login_writes text) s)
  | AClose g => Some (if_current g close_writes s)
  | AHubClose => Some (spawn close_writes s)
  | AWriter i =>
      match st_writers s !! i with
      | Some (w :: rest) =>
          Some (MkSt (write (length (st_sent s)) w l) (st_pc s) (<[i := rest]> (st_writers s)) (st_issued s)
                  (st_sent s) (st_outs s))
      | _ => None
      end
  end.

Inductive lane_reach : St -> Prop :=
  | lane_start : lane_reach st_new
  | lane_next s a s' : lane_reach s -> step a s = Some s' -> lane_reach s'.

Fixpoint run (acts : list Act) (s : St) : option St :=
  match acts with [] => Some s | a :: acts' => step a s ≫= run acts' end.

(** ** What the callers see *)

Definition reads (i : Item) : E + Z :=
  match i with Queued _ (MEvent e) => inl e | Queued _ (MGap n) | LostGap n => inr n end.

Inductive Outcome :=
  | Events (l : list (E + Z))
  | NoEvent
  | Lagged (skipped : Z)
  | NotConnected
  | ChannelClosed
  | Failure (e : Error)
  | WaitUp.                        (* wait for an attachment, then again *)

(** [poll] takes one message; a gap reads as a lag. *)
Definition poll_of (stream : Stream) (t : Taken) : Outcome :=
  match t with
  | Msgs l => match last l with
              | Some i => match reads i with inl e => Events [inl e] | inr n => Lagged n end
              | None => NoEvent
              end
  | Timeout => NoEvent
  | Down _ => if down_is_error stream then NotConnected else WaitUp
  | Closed _ => ChannelClosed
  | Fail e _ => Failure e
  end.

Definition next_events_of (t : Taken) : Outcome :=
  match t with
  | Msgs l => Events (reads <$> l)
  | Timeout => Events []
  | Down _ => WaitUp
  | Closed _ => ChannelClosed
  | Fail e _ => Failure e
  end.

(** ** The invariant *)

(** What became of each message taken off the channel: kept, or lost. *)
Definition Fates : Type := list ((Z * Msg) * bool).
Definition kept (h : Fates) : list (Z * Msg) := omap (fun x : (Z * Msg) * bool => if x.2 then Some x.1 else None) h.
Definition lost (h : Fates) : Z := foldr (fun (x : (Z * Msg) * bool) n => if x.2 then n else n + 1) 0 h.

(** The queued messages and the gaps in what was returned. *)
Definition item_msg (i : Item) : option (Z * Msg) := match i with Queued g m => Some (g, m) | LostGap _ => None end.
Definition item_gap (i : Item) : Z := match i with Queued _ _ => 0 | LostGap n => n end.
Definition item_gaps (l : list Item) : Z := foldr (fun i n => item_gap i + n) 0 l.
Definition items_of (t : Taken) : list Item := match t with Msgs l => l | _ => [] end.
Definition returned (outs : list Taken) : list (Z * Msg) := outs ≫= fun t => omap item_msg (items_of t).
Definition gaps (outs : list Taken) : Z := foldr (fun t n => item_gaps (items_of t) + n) 0 outs.

(** What the consumer holds between two accesses. *)
Definition batch_of (p : Pc) : list (Z * Msg) :=
  match p with
  | PDrain _ _ b _ | PFinish _ _ b _ => b
  | PPutBack _ _ out => omap item_msg out
  | _ => []
  end.
Definition gap_of (p : Pc) : Z := match p with PPutBack _ _ out => item_gaps out | _ => 0 end.
Definition got_of (p : Pc) : list (Z * Msg) := match p with PGot _ t => [t] | _ => [] end.

Definition accounts (h : Fates) (s : St) : Prop :=
  st_sent s = h.*1 ++ got_of (st_pc s) ++ ln_rx (st_lane s) /\
  kept h = returned (st_outs s) ++ batch_of (st_pc s) ++ ln_carry (st_lane s) /\
  lost h = gaps (st_outs s) + gap_of (st_pc s) + ln_stale (st_lane s).

(** A batch: at most one gap, in front, then messages of one attachment. *)
Definition batch_ok (l : list Item) : Prop :=
  exists g gap msgs, l = gap ++ (item <$> msgs) /\ Forall (fun t => t.1 = g) msgs /\ l <> [] /\
    (gap = [] \/ exists n, 0 < n /\ gap = [LostGap n]).

Definition taken_ok (t : Taken) : Prop := match t with Msgs l => batch_ok l | _ => True end.

Definition after_ok (n : nat) (k : After) : Prop :=
  match k with
  | AfterFirst up _ => (up.2 <= n)%nat
  | AfterFail _ stamp | AfterClosed stamp => (stamp <= n)%nat
  | AfterRecv => True
  end.

Definition pc_ok (l : Lane) (n : nat) (p : Pc) : Prop :=
  match p with
  | PIdle => True
  | PUp limit => (1 <= limit)%nat
  | PGeneration limit up | PCarry limit up _ => (1 <= limit)%nat /\ (up.2 <= n)%nat
  | PDrain limit g batch k =>
      (1 <= limit)%nat /\ Forall (fun t => t.1 = g) batch /\ (ln_carry l = [] \/ ln_carry_gen l = g) /\ after_ok n k
  | PFinish limit g batch k =>
      (1 <= limit)%nat /\ Forall (fun t => t.1 = g) batch /\ (ln_carry l = [] \/ ln_carry_gen l = g) /\ after_ok n k /\
      (batch = [] -> ln_carry l = [] /\ after_ok (n - length (ln_rx l)) k)
  | PFail limit _ | PClosed limit _ | PWait limit | PGot limit _ => (1 <= limit)%nat /\ ln_carry l = []
  | PPutBack _ stamp out => batch_ok out /\ (stamp <= n)%nat
  end.

Record lane_ok (n : nat) (l : Lane) : Prop := MkLaneOk {
  lo_stale : 0 <= ln_stale l;
  lo_carry : Forall (fun t => t.1 = ln_carry_gen l) (ln_carry l);
  lo_up : ((ln_up l).2 <= n)%nat;
  lo_closed : ((ln_closed l).2 <= n)%nat;
  lo_fail : forall e k, ln_fail l = Some (e, k) -> (k <= n)%nat;
  lo_rx : (length (ln_rx l) <= n)%nat
}.

(** A failure, a close or a detach is reported when everything queued before it
    was stored has been returned or is in a gap returned before it. *)
Definition condition (t : Taken) : option nat :=
  match t with Down n | Closed n | Fail _ n => Some n | _ => None end.

Definition settled (sent : list (Z * Msg)) (before : list Taken) (n : nat) : Prop :=
  exists h rest, sent = h.*1 ++ rest /\ (n <= length h)%nat /\ kept h = returned before /\ lost h = gaps before.

Definition all_settled (sent : list (Z * Msg)) (outs : list Taken) : Prop :=
  forall before t rest n, outs = before ++ t :: rest -> condition t = Some n -> settled sent before n.

Record ok (s : St) : Prop := MkOk {
  ok_lane : lane_ok (length (st_sent s)) (st_lane s);
  ok_pc : pc_ok (st_lane s) (length (st_sent s)) (st_pc s);
  ok_accounts : exists h, accounts h s;
  ok_outs : Forall taken_ok (st_outs s);
  ok_settled : all_settled (st_sent s) (st_outs s)
}.

(** ** Lemmas on fates and returns *)

Lemma kept_app h h' : kept (h ++ h') = kept h ++ kept h'.
Proof. apply omap_app. Qed.

Lemma lost_app h h' : lost (h ++ h') = lost h + lost h'.
Proof. induction h as [|[t []] h IH]; simpl; rewrite ?IH; unfold lost in *; simpl; lia. Qed.

Lemma returned_app o o' : returned (o ++ o') = returned o ++ returned o'.
Proof. unfold returned. by rewrite bind_app. Qed.

Lemma item_gaps_app l l' : item_gaps (l ++ l') = item_gaps l + item_gaps l'.
Proof. induction l as [|i l IH]; simpl; [done|]. unfold item_gaps in *. lia. Qed.

Lemma gaps_app o o' : gaps (o ++ o') = gaps o + gaps o'.
Proof. induction o as [|t o IH]; simpl; [done|]. unfold gaps in *. lia. Qed.

Lemma omap_item (l : list (Z * Msg)) : omap item_msg (item <$> l) = l.
Proof. induction l as [|[g m] l IH]; simpl; [done|]. by f_equal. Qed.

Lemma item_gaps_item (l : list (Z * Msg)) : item_gaps (item <$> l) = 0.
Proof. induction l as [|t l IH]; simpl; [done|]. done. Qed.

(** The last messages kept become lost. *)
Lemma forget_last_kept (h : Fates) : forall a b, kept h = a ++ b ->
  exists h', h'.*1 = h.*1 /\ kept h' = a /\ lost h' = lost h + Z.of_nat (length b).
Proof.
  induction h as [|[t f] h IH] using rev_ind; intros a b Hk.
  - destruct a, b; try done. by exists [].
  - rewrite kept_app in Hk. destruct f; simpl in Hk.
    + destruct b as [|x b _] using rev_ind.
      * exists (h ++ [(t, true)]). rewrite kept_app. simpl. rewrite Hk, app_nil_r. split_and!; [done..|simpl; lia].
      * rewrite app_assoc in Hk. apply app_inj_tail in Hk as [Hk <-].
        destruct (IH a b Hk) as (h' & H1 & H2 & H3). exists (h' ++ [(t, false)]).
        rewrite !fmap_app, H1, kept_app, !lost_app, H2, H3, length_app. simpl. rewrite app_nil_r.
        split_and!; [done..|lia].
    + rewrite app_nil_r in Hk. destruct (IH a b Hk) as (h' & H1 & H2 & H3). exists (h' ++ [(t, false)]).
      rewrite !fmap_app, H1, kept_app, !lost_app, H2, H3. simpl. rewrite app_nil_r. split_and!; [done..|lia].
Qed.

Lemma settled_more sent more before n : settled sent before n -> settled (sent ++ more) before n.
Proof. intros (h & rest & -> & H). exists h, (rest ++ more). by rewrite app_assoc. Qed.

Lemma all_settled_more sent more outs : all_settled sent outs -> all_settled (sent ++ more) outs.
Proof. intros H b t r n Ho Hc. by eapply settled_more, H. Qed.

Lemma all_settled_snoc sent outs t :
  all_settled sent outs -> (forall n, condition t = Some n -> settled sent outs n) ->
  all_settled sent (outs ++ [t]).
Proof.
  intros H Ht b t' r n Ho Hc. destruct r as [|x r _] using rev_ind.
  - apply app_inj_tail in Ho as [-> ->]. by apply Ht.
  - rewrite app_comm_cons, app_assoc in Ho. apply app_inj_tail in Ho as [-> _]. by eapply H.
Qed.

(** ** The consumer keeps the invariant *)

(** It touches neither what was queued nor what was returned until it returns. *)
Lemma ok_goto s l p h :
  ok s -> lane_ok (length (st_sent s)) l -> pc_ok l (length (st_sent s)) p ->
  accounts h (goto p (with_lane l s)) -> ok (goto p (with_lane l s)).
Proof. intros [] Hl Hp Ha. split; simpl; eauto. Qed.

Lemma ok_ret s l t h :
  ok s -> lane_ok (length (st_sent s)) l -> taken_ok t -> accounts h (ret t (with_lane l s)) ->
  (forall n, condition t = Some n -> settled (st_sent s) (st_outs s) n) -> ok (ret t (with_lane l s)).
Proof.
  intros [] Hl Ht Ha Hs. split; simpl; eauto.
  - apply Forall_app. auto.
  - by apply all_settled_snoc.
Qed.

Lemma drain_ok s limit g batch k l' p' :
  ok s -> st_pc s = PDrain limit g batch k -> drain_step limit g batch k (st_lane s) = (l', p') ->
  ok (goto p' (with_lane l' s)).
Proof.
  intros Hok Hpc. pose proof Hok as [Hl Hp (h & H1 & H2 & H3) _ _]. rewrite Hpc in *. simpl in *.
  destruct Hp as (Hlim & Hb & Hc & Hk). destruct Hl as [Hst Hcar Hup Hcl Hf Hrx].
  unfold drain_step. destruct (Nat.ltb_spec (length batch) limit) as [Hlt|Hge].
  - destruct (ln_carry (st_lane s)) as [|m c] eqn:Ec; [destruct (ln_rx (st_lane s)) as [|t r] eqn:Er|].
    + intros [= <- <-]. apply (ok_goto _ _ _ h); [done|by split; rewrite ?Ec, ?Er|simpl|by split_and!; simpl; rewrite ?Ec, ?Er].
      rewrite Er, Ec. simpl. rewrite Nat.sub_0_r. by split_and!; auto.
    + destruct (Z.eqb_spec t.1 g) as [Hg|Hg]; intros [= <- <-].
      * apply (ok_goto _ _ _ (h ++ [(t, true)])); [done| | |].
        -- split; simpl; rewrite ?Ec; try done. simpl in Hrx. lia.
        -- simpl. rewrite Ec. split_and!; [done| |by left|done]. apply Forall_app. by repeat constructor.
        -- split_and!; simpl.
           ++ by rewrite fmap_app, <- app_assoc.
           ++ rewrite kept_app, H2, Ec. simpl. by rewrite !app_nil_r, app_assoc.
           ++ rewrite lost_app. simpl. lia.
      * apply (ok_goto _ _ _ (h ++ [(t, false)])); [done| | |].
        -- split; simpl; rewrite ?Ec; try done; [lia|]. simpl in Hrx. lia.
        -- simpl. rewrite Ec. by split_and!; [| |left|].
        -- split_and!; simpl.
           ++ by rewrite fmap_app, <- app_assoc.
           ++ rewrite kept_app, H2, Ec. simpl. by rewrite !app_nil_r.
           ++ rewrite lost_app. simpl. lia.
    + destruct Hc as [?|Hc]; [done|]. apply Forall_cons in Hcar as [Hm Hcar].
      intros [= <- <-]. apply (ok_goto _ _ _ h); [done| | |].
      * by split.
      * simpl. split_and!; [done| |by right|done]. apply Forall_app. split; [done|]. constructor; [congruence|done].
      * split_and!; simpl; [done| |done]. rewrite H2. by rewrite <- app_assoc.
  - intros [= <- <-]. apply (ok_goto _ _ _ h); [done|by split|simpl|by split_and!].
    split_and!; try done. intros ->. simpl in Hge. lia.
Qed.

(** What [finish] hands over. *)
Lemma finish_none limit g batch l l' :
  0 <= ln_stale l -> finish limit g batch l = (None, l') -> batch = [] /\ ln_stale l = 0 /\ l' = set_stale 0 l.
Proof.
  intros Hs. unfold finish. destruct (Z.ltb_spec 0 (ln_stale l)); simpl; [done|].
  destruct batch; simpl; [|done]. intros [= <-]. split_and!; [done|lia|done].
Qed.

Lemma finish_some limit g batch l out l' :
  0 <= ln_stale l -> (1 <= limit)%nat -> Forall (fun t => t.1 = g) batch ->
  Forall (fun t => t.1 = ln_carry_gen l) (ln_carry l) -> (ln_carry l = [] \/ ln_carry_gen l = g) ->
  finish limit g batch l = (Some out, l') ->
  batch_ok out /\ batch ++ ln_carry l = omap item_msg out ++ ln_carry l' /\ item_gaps out = ln_stale l /\
  (length out <= limit)%nat /\ Forall (fun t => t.1 = ln_carry_gen l') (ln_carry l') /\
  exists c cg, l' = set_carry c cg (set_stale 0 l).
Proof.
  intros Hs Hlim Hb Hcar Hc. unfold finish. cbv zeta.
  set (room := if 0 <? ln_stale l then (limit - 1)%nat else limit).
  destruct ((0 <? ln_stale l) || (0 <? length batch)%nat) eqn:Ene; [|done]. intros [= <- <-].
  assert (Hgap : omap item_msg (if 0 <? ln_stale l then [LostGap (ln_stale l)] else []) = [] /\
                 item_gaps (if 0 <? ln_stale l then [LostGap (ln_stale l)] else []) = ln_stale l /\
                 length (if 0 <? ln_stale l then [LostGap (ln_stale l)] else []) = (limit - room)%nat).
  { subst room. destruct (Z.ltb_spec 0 (ln_stale l)); simpl; split_and!; try done; lia. }
  destruct Hgap as (Hg1 & Hg2 & Hg3). split_and!.
  - exists g, (if 0 <? ln_stale l then [LostGap (ln_stale l)] else []), (take room batch). split_and!; [done| | |].
    + by apply Forall_take.
    + destruct (Z.ltb_spec 0 (ln_stale l)); [done|]. simpl in Ene. subst room.
      destruct batch, limit; simpl in *; try done. lia.
    + destruct (Z.ltb_spec 0 (ln_stale l)); eauto.
  - rewrite omap_app, Hg1, omap_item. simpl. destruct (Nat.ltb_spec room (length batch)); simpl.
    + by rewrite app_assoc, take_drop.
    + by rewrite take_ge by done.
  - by rewrite item_gaps_app, item_gaps_item, Hg2, Z.add_0_r.
  - rewrite length_app, length_fmap, length_take, Hg3. subst room. destruct (0 <? ln_stale l); lia.
  - destruct (room <? length batch)%nat; simpl; [|done]. apply Forall_app. split; [by apply Forall_drop|].
    destruct Hc as [->|<-]; [constructor|done].
  - destruct (room <? length batch)%nat; [by eexists _, _|]. by exists (ln_carry l), (ln_carry_gen l).
Qed.

(** A poll, which asks for one message and pops the last, loses none. *)
Lemma poll_pops_all stream g batch l out l' :
  0 <= ln_stale l -> Forall (fun t => t.1 = g) batch ->
  Forall (fun t => t.1 = ln_carry_gen l) (ln_carry l) -> (ln_carry l = [] \/ ln_carry_gen l = g) ->
  finish 1 g batch l = (Some out, l') ->
  exists i, out = [i] /\
    poll_of stream (Msgs out) = match reads i with inl e => Events [inl e] | inr n => Lagged n end.
Proof.
  intros Hs Hb Hcar Hc Hf.
  destruct (finish_some 1 g batch l out l') as ((g' & gap & msgs & _ & _ & Hne & _) & _ & _ & Hlen & _); [done|lia|done..|].
  destruct out as [|i [|j out]]; [done| |simpl in Hlen; lia]. by exists i.
Qed.

Lemma lane_ok_finish n l c cg :
  lane_ok n l -> Forall (fun t => t.1 = cg) c -> lane_ok n (set_carry c cg (set_stale 0 l)).
Proof. intros [] Hc. by split. Qed.

(** A condition is settled when nothing is left in hand. *)
Lemma settle h s n :
  accounts h s -> got_of (st_pc s) = [] -> batch_of (st_pc s) = [] -> gap_of (st_pc s) = 0 ->
  ln_carry (st_lane s) = [] -> ln_stale (st_lane s) = 0 ->
  (n <= length (st_sent s) - length (ln_rx (st_lane s)))%nat -> settled (st_sent s) (st_outs s) n.
Proof.
  intros (H1 & H2 & H3) Hg Hb Hgap Hc Hs Hn. exists h, (ln_rx (st_lane s)).
  rewrite Hg in H1. simpl in H1. rewrite Hb, Hc, !app_nil_r in H2. rewrite H1, length_app, length_fmap in Hn.
  split_and!; [done|lia|done|lia].
Qed.

Lemma lane_finish_ok s limit g batch k out l' :
  ok s -> st_pc s = PFinish limit g batch k -> finish limit g batch (st_lane s) = (out, l') ->
  ok (next (after limit out k) (with_lane l' s)).
Proof.
  intros Hok Hpc Hf. pose proof Hok as [Hl Hp (h & Ha) _ _]. pose proof Ha as (H1 & H2 & H3).
  rewrite Hpc in *. simpl in *. destruct Hp as (Hlim & Hb & Hc & Hk & Hnil).
  destruct out as [out|].
  - destruct (finish_some limit g batch (st_lane s) out l') as (Ho & Hm & Hgp & _ & Hcar & c & cg & ->);
      try done; [apply Hl|apply Hl|].
    pose proof (lane_ok_finish _ _ c cg Hl Hcar) as Hl'.
    assert (Hr : kept h = returned (st_outs s) ++ omap item_msg out ++ c) by (by rewrite H2, Hm).
    assert (ok (ret (Msgs out) (with_lane (set_carry c cg (set_stale 0 (st_lane s))) s))) as Hret.
    { apply (ok_ret _ _ _ h); try done. split_and!; simpl; [done| |].
      - rewrite returned_app. simpl. by rewrite app_nil_r, <- app_assoc.
      - rewrite gaps_app. simpl. rewrite Hgp. lia. }
    destruct k as [up cur|e n|n|]; simpl; try by apply Hret.
    apply (ok_goto _ _ _ h); [done|done|by split|]. split_and!; simpl; [done|done|]. rewrite Hgp. lia.
  - apply finish_none in Hf as (-> & Hs0 & ->); [|apply Hl]. destruct (Hnil eq_refl) as [Hcn Hk'].
    assert (Hl' : lane_ok (length (st_sent s)) (set_stale 0 (st_lane s))).
    { destruct Hl. by split. }
    assert (Hret : forall t n, condition t = Some n -> taken_ok t -> items_of t = [] ->
              (n <= length (st_sent s) - length (ln_rx (st_lane s)))%nat ->
              ok (ret t (with_lane (set_stale 0 (st_lane s)) s))).
    { intros t n Ht Htk Hi Hn. apply (ok_ret _ _ _ h); try done.
      - split_and!; simpl; [done| |].
        + rewrite returned_app. simpl. by rewrite Hi, app_nil_r.
        + rewrite gaps_app. simpl. rewrite Hi. simpl. lia.
      - intros n' Hn'. assert (n' = n) as -> by congruence. apply (settle h); rewrite ?Hpc; try done. }
    destruct k as [up cur|e n|n|]; simpl in *.
    + destruct up as [[] n]; simpl.
      * apply (ok_goto _ _ _ h); [done|done|by split|]. split_and!; simpl; [done|done|lia].
      * by eapply Hret.
    + by eapply Hret.
    + by eapply Hret.
    + apply (ok_goto _ _ _ h); [done|done|done|]. split_and!; simpl; [done|done|lia].
Qed.

Lemma carry_ok s limit up current :
  ok s -> st_pc s = PCarry limit up current ->
  exists l' p', consumer_step (st_pc s) (st_lane s) = Some (l', Goto p') /\ ok (goto p' (with_lane l' s)).
Proof.
  intros Hok Hpc. pose proof Hok as [Hl Hp (h & H1 & H2 & H3) _ _]. rewrite Hpc in *. simpl in *.
  destruct Hp as [Hlim Hup]. eexists _, _. split; [reflexivity|].
  set (owed := if up.1 then current else current - 1).
  destruct (bool_decide_reflect (ln_carry (st_lane s) <> [])) as [Hne|Hnil]; simpl.
  - destruct (Z.eqb_spec (ln_carry_gen (st_lane s)) owed) as [Hg|Hg]; simpl.
    + apply (ok_goto _ _ _ h); [done|done| |by split_and!]. simpl. split_and!; auto.
    + destruct (forget_last_kept h _ _ H2) as (h' & E1 & E2 & E3).
      apply (ok_goto _ _ _ h'); [done| | |].
      * destruct Hl. split; simpl; try done. lia.
      * simpl. split_and!; auto.
      * split_and!; simpl; [by rewrite E1|by rewrite E2, app_nil_r|]. rewrite E3. lia.
  - apply (ok_goto _ _ _ h); [done|done| |by split_and!]. simpl. split_and!; auto. left. by apply dec_stable.
Qed.

Lemma consumer_ok s l' n :
  ok s -> consumer_step (st_pc s) (st_lane s) = Some (l', n) -> ok (next n (with_lane l' s)).
Proof.
  intros Hok Hs. destruct (st_pc s) as [|limit|limit up|limit up cur|limit g b k|limit g b k|limit cur|e st out
    |limit cur|limit|limit t] eqn:Hpc; simpl in Hs; try done.
  4: { destruct (drain_step limit g b k (st_lane s)) as [l2 p2] eqn:Ed. injection Hs as <- <-.
       by eapply drain_ok. }
  4: { destruct (finish limit g b (st_lane s)) as [out l2] eqn:Ef. injection Hs as <- <-.
       by eapply lane_finish_ok. }
  3: { destruct (carry_ok s limit up cur Hok Hpc) as (l2 & p2 & E2 & H). rewrite Hpc in E2. simpl in E2.
       rewrite Hs in E2. by injection E2 as -> ->. }
  all: pose proof Hok as [Hl Hp (h & H1 & H2 & H3) _ _]; rewrite Hpc in *; simpl in *.
  - injection Hs as <- <-. apply (ok_goto _ _ _ h); [done|done| |by split_and!]. simpl. split; [done|apply Hl].
  - injection Hs as <- <-. apply (ok_goto _ _ _ h); [done|done|done|by split_and!].
  - destruct (ln_fail (st_lane s)) as [[e n']|] eqn:Ef; injection Hs as <- <-.
    + apply (ok_goto _ _ _ h); [done| | |by split_and!].
      * destruct Hl. by split.
      * simpl. destruct Hp. split_and!; auto. by eapply Hl.
    + by apply (ok_goto _ _ _ h); [| | |split_and!].
  - injection Hs as <- <-. destruct Hp as [Ho Hst]. apply (ok_ret _ _ _ h); [done| |done| |done].
    + destruct Hl. split; simpl; try done. by intros ? ? [= <- <-].
    + split_and!; simpl; [done| |].
      * rewrite returned_app. simpl. by rewrite H2, app_nil_r, <- app_assoc.
      * rewrite gaps_app. simpl. lia.
  - destruct (ln_closed (st_lane s)).1; injection Hs as <- <-.
    + apply (ok_goto _ _ _ h); [done|done| |by split_and!]. destruct Hp. simpl. split_and!; auto. apply Hl.
    + by apply (ok_goto _ _ _ h); [| | |split_and!].
  - destruct Hp as [Hlim Hc]. destruct (Z.eqb_spec t.1 (ln_generation (st_lane s))); injection Hs as <- <-.
    + apply (ok_goto _ _ _ (h ++ [(t, true)])); [done|done| |].
      * simpl. split_and!; auto.
      * split_and!; simpl.
        -- by rewrite fmap_app, <- app_assoc.
        -- rewrite kept_app, H2, Hc. simpl. by rewrite !app_nil_r.
        -- rewrite lost_app. simpl. lia.
    + apply (ok_goto _ _ _ (h ++ [(t, false)])); [done| |done|].
      * destruct Hl. split; simpl; try done. lia.
      * split_and!; simpl.
        -- by rewrite fmap_app, <- app_assoc.
        -- rewrite kept_app, H2. simpl. by rewrite app_nil_r.
        -- rewrite lost_app. simpl. lia.
Qed.

(** ** The others keep it *)

Lemma write_ok n w l : lane_ok n l -> lane_ok n (write n w l).
Proof.
  intros []. destruct w as [b|e|b|]; split; simpl; auto.
  intros e' k. destruct e; [|done]. by intros [= <- <-].
Qed.

Lemma write_pc n m w l p : pc_ok l n p -> pc_ok (write m w l) n p.
Proof. by destruct w, p. Qed.

(** Stores change neither the channel, the carry nor the counter. *)
Lemma write_keeps w s ws gs :
  ok s -> ok (MkSt (write (length (st_sent s)) w (st_lane s)) (st_pc s) ws gs (st_sent s) (st_outs s)).
Proof.
  intros [Hl Hp (h & H1 & H2 & H3) Ho Hs]. split; simpl; [by apply write_ok|by apply write_pc| |done|done].
  exists h. by destruct w.
Qed.

Lemma bump_keeps s ws gs :
  ok s -> ok (MkSt (write 0 WBump (st_lane s)) (st_pc s) ws gs (st_sent s) (st_outs s)).
Proof. apply (write_keeps WBump). Qed.

Lemma spawn_ok w s : ok s -> ok (spawn w s).
Proof. intros [Hl Hp (h & Ha) Ho Hs]. split; simpl; try done. by exists h. Qed.

Lemma if_current_ok g w s : ok s -> ok (if_current g w s).
Proof. intros H. unfold if_current. destruct (_ =? _); [by apply spawn_ok|done]. Qed.

Lemma after_ok_more n m k : (n <= m)%nat -> after_ok n k -> after_ok m k.
Proof. destruct k; simpl; lia. Qed.

Lemma pc_ok_send l n t p : pc_ok l n p -> pc_ok (set_rx (ln_rx l ++ [t]) l) (S n) p.
Proof.
  assert (H : forall k, after_ok n k -> after_ok (S n) k) by (intros k; apply after_ok_more; lia).
  destruct p; simpl; try done; try (by intuition lia).
  - intros (? & ? & ? & ?). auto.
  - intros (H1 & H2 & H3 & H4 & H5). split_and!; auto. intros Hb. destruct (H5 Hb) as [Hc Hk]. split; [done|].
    rewrite length_app. simpl. by replace (S n - (length (ln_rx l) + 1))%nat with (n - length (ln_rx l))%nat by lia.
Qed.

Lemma send_ok g m s :
  ok s ->
  ok (MkSt (set_rx (ln_rx (st_lane s) ++ [(g, m)]) (st_lane s)) (st_pc s) (st_writers s) (st_issued s)
        (st_sent s ++ [(g, m)]) (st_outs s)).
Proof.
  intros [Hl Hp (h & H1 & H2 & H3) Ho Hs].
  split; cbn [st_lane st_pc st_sent st_outs]; rewrite ?length_app; simpl length; rewrite ?Nat.add_1_r.
  - destruct Hl as [? ? ? ? Hf ?]. split; simpl; try done; try lia.
    + intros e k Hk. apply Hf in Hk. lia.
    + rewrite length_app. simpl. lia.
  - by apply pc_ok_send.
  - exists h. split_and!; simpl; [|done|done]. by rewrite H1, <- !app_assoc.
  - done.
  - by apply all_settled_more.
Qed.

Lemma step_ok a s s' : ok s -> step a s = Some s' -> ok s'.
Proof.
  intros Hok. pose proof Hok as [Hl Hp (h & H1 & H2 & H3) Ho Hs].
  destruct a as [max| | | | | |g m| |g|g t|g t|g| |i]; simpl.
  - destruct (st_pc s) eqn:Hpc; try done. intros [= <-].
    apply (ok_goto s (st_lane s) _ h Hok Hl); [simpl; lia|]. by split_and!; simpl; rewrite ?H1, ?H2.
  - destruct (consumer_step _ _) as [[l2 n]|] eqn:Es; [|done]. intros [= <-]. by apply consumer_ok.
  - destruct (st_pc s) eqn:Hpc; try done. intros [= <-]. simpl in Hp.
    apply (ok_goto s (st_lane s) _ h Hok Hl); [by destruct Hp|]. by split_and!.
  - destruct (st_pc s) eqn:Hpc; try done. destruct (ln_rx (st_lane s)) as [|t r] eqn:Er; [done|].
    intros [= <-]. simpl in Hp. apply (ok_goto s _ _ h Hok).
    + destruct Hl. split; simpl; try done. rewrite Er in lo_rx0. simpl in lo_rx0. lia.
    + done.
    + by split_and!.
  - destruct (st_pc s) eqn:Hpc; try done. intros [= <-].
    apply (ok_ret s (st_lane s) _ h Hok Hl); [done| |done]. split_and!; simpl; [done| |].
    + rewrite returned_app. simpl. by rewrite app_nil_r.
    + rewrite gaps_app. simpl in H3 |- *. lia.
  - destruct (st_pc s) eqn:Hpc; try done. intros [= <-].
    apply (ok_goto s (st_lane s) _ h Hok Hl); [done|]. by split_and!.
  - destruct (_ && _); [|done]. intros [= <-]. by apply send_ok.
  - intros [= <-]. by apply spawn_ok, bump_keeps.
  - intros [= <-]. by apply if_current_ok.
  - intros [= <-]. by apply if_current_ok.
  - intros [= <-]. by apply if_current_ok.
  - intros [= <-]. by apply if_current_ok.
  - intros [= <-]. by apply spawn_ok.
  - destruct (st_writers s !! i) as [[|w rest]|]; try done. intros [= <-]. by apply write_keeps.
Qed.

Lemma lane_start_ok : ok st_new.
Proof.
  split; simpl; [split; simpl; try done; lia|done|exists []; done|constructor|].
  intros b t r n Hb. by destruct b.
Qed.

Lemma reach_ok s : lane_reach s -> ok s.
Proof. induction 1; [apply lane_start_ok|by eapply step_ok]. Qed.

(** ** A take ends

    Left alone, the consumer returns or waits; when it waits nothing is queued. *)
Definition after_rank (k : After) : nat :=
  match k with AfterFail _ _ | AfterClosed _ => 2 | AfterFirst _ _ => 6 | AfterRecv => 11 end.

Definition rank (p : Pc) : nat :=
  match p with
  | PIdle | PWait _ => 0
  | PPutBack _ _ _ => 1
  | PFinish _ _ _ k => after_rank k
  | PDrain _ _ _ k => S (after_rank k)
  | PClosed _ _ => 4
  | PFail _ _ => 5
  | PCarry _ _ _ => 8
  | PGeneration _ _ => 9
  | PUp _ => 10
  | PGot _ _ => 13
  end.

Definition queued (l : Lane) : nat := (length (ln_carry l) + length (ln_rx l))%nat.

(** Nothing is queued where [take] has found nothing. *)
Definition found_empty (l : Lane) (p : Pc) : Prop :=
  match p with
  | PFinish limit _ batch _ => (1 <= limit)%nat /\ (batch = [] -> ln_rx l = [])
  | PUp limit | PGeneration limit _ | PCarry limit _ _ | PDrain limit _ _ _ | PGot limit _ => (1 <= limit)%nat
  | PFail limit _ | PClosed limit _ | PWait limit => (1 <= limit)%nat /\ ln_rx l = []
  | _ => True
  end.

Definition smaller (l' : Lane) (p' : Pc) (l : Lane) (p : Pc) : Prop :=
  (rank p' < rank p)%nat \/ rank p' = rank p /\ (queued l' < queued l)%nat.

Lemma consumer_progress p l :
  rank p <> 0%nat -> found_empty l p ->
  exists l' n, consumer_step p l = Some (l', n) /\
    match n with Goto p' => found_empty l' p' /\ smaller l' p' l p | Return _ => True end.
Proof.
  unfold smaller. intros Hr Hf.
  destruct p as [|limit|limit up|limit up cur|limit g b k|limit g b k|limit cur|e st out
    |limit cur|limit|limit t]; simpl in *; try done; try (eexists _, _; split; [reflexivity|]; simpl; lia).
  - unfold drain_step, queued. destruct (Nat.ltb_spec (length b) limit).
    + destruct (ln_carry l) as [|m c] eqn:Ec; [destruct (ln_rx l) as [|t r] eqn:Er; [|destruct (t.1 =? g)]|];
        (eexists _, _; split; [reflexivity|]; simpl; rewrite ?Ec, ?Er; simpl; split; [done|lia]).
    + eexists _, _. split; [reflexivity|]. simpl. split; [|lia]. split; [done|]. intros ->. simpl in *. lia.
  - destruct Hf as [Hlim Hrx]. unfold finish. cbv zeta.
    destruct ((0 <? ln_stale l) || (0 <? length b)%nat) eqn:Ene; eexists _, _; (split; [reflexivity|]).
    + destruct k as [[[] n] cur|e n|n|]; simpl; try done. lia.
    + destruct b as [|x b]; [|by rewrite orb_true_r in Ene].
      destruct k as [[[] n] cur|e n|n|]; simpl; try done; split; auto; lia.
  - destruct (ln_fail l) as [[e n]|]; eexists _, _; (split; [reflexivity|]); simpl; intuition lia.
  - destruct (ln_closed l).1; eexists _, _; (split; [reflexivity|]); simpl; intuition lia.
  - destruct (t.1 =? ln_generation l); eexists _, _; (split; [reflexivity|]); simpl; intuition lia.
Qed.

Lemma consumer_not_idle p l l' p' : consumer_step p l = Some (l', Goto p') -> p' <> PIdle.
Proof.
  destruct p as [|limit|limit up|limit up cur|limit g b k|limit g b k|limit cur|e st out
    |limit cur|limit|limit t]; cbn [consumer_step]; try (intros [= <- <-]; done); try done.
  - destruct (drain_step limit g b k l) as [l2 p2] eqn:Ed. intros [= <- <-].
    unfold drain_step in Ed. repeat case_match; by simplify_eq.
  - destruct (finish limit g b l) as [out l2]. intros [= <- Ha].
    destruct out, k as [[[] ?] ?| | |]; simpl in Ha; by simplify_eq.
  - destruct (ln_fail l) as [[e n]|]; by intros [= <- <-].
  - destruct (ln_closed l).1; by intros [= <- <-].
  - destruct (t.1 =? _); by intros [= <- <-].
Qed.

Lemma consumer_alone : forall r q s,
  (rank (st_pc s) <= r)%nat -> (queued (st_lane s) <= q)%nat -> found_empty (st_lane s) (st_pc s) ->
  rank (st_pc s) <> 0%nat ->
  exists k s', run (replicate k AConsumer) s = Some s' /\
    ((exists t, st_pc s' = PIdle /\ st_outs s' = st_outs s ++ [t]) \/
     (exists limit, st_pc s' = PWait limit /\ st_outs s' = st_outs s /\ ln_rx (st_lane s') = [])).
Proof.
  intros r. induction r as [r IHr] using lt_wf_ind. intros q. induction q as [q IHq] using lt_wf_ind.
  intros s Hr Hq Hf Hn.
  destruct (consumer_progress _ _ Hn Hf) as (l' & nx & Hs & Hnx).
  assert (Hstep : step AConsumer s = Some (next nx (with_lane l' s))) by (simpl; by rewrite Hs).
  destruct nx as [p'|t].
  - destruct Hnx as [Hf' Hsm]. destruct (decide (rank p' = 0%nat)) as [Hz|Hz].
    + exists 1%nat, (goto p' (with_lane l' s)). cbn [replicate run]. rewrite Hstep. split; [done|].
      destruct p' as [| | | |? ? ? k|? ? ? k| | | |limit|]; simpl in *; try done; try (by destruct k); [|right; exists limit; naive_solver].
      by apply consumer_not_idle in Hs.
    + assert (Hgo : exists k s', run (replicate k AConsumer) (goto p' (with_lane l' s)) = Some s' /\
        ((exists t, st_pc s' = PIdle /\ st_outs s' = st_outs s ++ [t]) \/
         (exists limit, st_pc s' = PWait limit /\ st_outs s' = st_outs s /\ ln_rx (st_lane s') = []))).
      { destruct Hsm as [Hsm|[Hsm Hq']].
        - by apply (IHr (rank p') ltac:(lia) (queued l') (goto p' (with_lane l' s))).
        - by apply (IHq (queued l') ltac:(lia) (goto p' (with_lane l' s))); [simpl; lia| | |]. }
      destruct Hgo as (k & s' & Hrun & Hend). exists (S k), s'. cbn [replicate run]. by rewrite Hstep.
  - exists 1%nat, (ret t (with_lane l' s)). cbn [replicate run]. rewrite Hstep. split; [done|]. left. by exists t.
Qed.

(** [take] on its own returns, or waits with nothing queued. *)
Theorem take_ends max s :
  st_pc s = PIdle ->
  exists k s', run (ATake max :: replicate k AConsumer) s = Some s' /\
    ((exists t, st_pc s' = PIdle /\ st_outs s' = st_outs s ++ [t]) \/
     (exists limit, st_pc s' = PWait limit /\ st_outs s' = st_outs s /\ ln_rx (st_lane s') = [])).
Proof.
  intros Hpc.
  destruct (consumer_alone 10 (queued (st_lane s)) (goto (PUp (Nat.max max 1)) s)) as (k & s' & Hrun & H);
    simpl; try done; [lia|].
  exists k, s'. split; [|done]. cbn [run]. simpl step. by rewrite Hpc.
Qed.

(** ** Claim *)

(** (C19) In every interleaving of forwarders, attachments, detachments and a
    consumer, between two calls of [take]: the messages returned so far, then
    those carried over, are the ones kept of the messages taken off the channel,
    each once and in the order queued; every other one is counted in a gap
    returned or about to be; a batch is one gap at most, in front, and messages
    of one attachment; and a failure, a close or a detach is reported only when
    everything queued before it was stored has been returned or is in a gap
    returned before. *)
Theorem lane_accounts s :
  lane_reach s -> st_pc s = PIdle ->
  (exists h, st_sent s = h.*1 ++ ln_rx (st_lane s) /\
     kept h = returned (st_outs s) ++ ln_carry (st_lane s) /\
     lost h = gaps (st_outs s) + ln_stale (st_lane s)) /\
  (forall l, Msgs l ∈ st_outs s -> batch_ok l) /\
  (forall before t rest n, st_outs s = before ++ t :: rest -> condition t = Some n ->
     settled (st_sent s) before n).
Proof.
  intros [_ _ (h & H1 & H2 & H3) Ho Hs]%reach_ok Hpc. rewrite Hpc in *. simpl in *. split_and!.
  - exists h. split_and!; [done|done|lia].
  - intros l Hl. rewrite Forall_forall in Ho. by apply (Ho (Msgs l)).
  - done.
Qed.
End Lane.

(** ** Runs *)

Module LaneSample.
Definition steps (n : nat) : list (Act (E := string)) := replicate n AConsumer.
Definition attached : list (Act (E := string)) := [AAttach; AWriter 0; AWriter 0; AWriter 0].
Definition ended (acts : list (Act (E := string))) : option (list Taken) := st_outs <$> run acts st_new.
Definition ev (s : string) : Msg := MEvent s.

Lemma run_reach acts : forall (s s' : St (E := string)), lane_reach s -> run acts s = Some s' -> lane_reach s'.
Proof.
  induction acts as [|a acts IH]; simpl; intros s s' Hs; [by intros [= <-]|].
  destruct (step a s) as [s2|] eqn:Ea; [|done]. simpl. apply IH. by eapply lane_next.
Qed.

(** Two messages and a failure, read one at a time: the failure comes last. *)
Definition fail_run : list Act :=
  attached ++ [ASend 1 (ev "a"); ASend 1 (ev "b"); AFail 1 "lost"; AWriter 1]
  ++ [ATake 1] ++ steps 6 ++ [ATake 1] ++ steps 6 ++ [ATake 1] ++ steps 8.

Example fail_comes_last :
  ended fail_run = Some [Msgs [Queued 1 (ev "a")]; Msgs [Queued 1 (ev "b")]; Fail (Rithmic "lost") 2].
Proof. vm_compute. reflexivity. Qed.

Definition fail_state : St := default st_new (run fail_run st_new).

Lemma lane_accounts_witness :
  settled (st_sent fail_state) [Msgs [Queued 1 (ev "a")]; Msgs [Queued 1 (ev "b")]] 2.
Proof.
  apply (proj2 (proj2 (lane_accounts fail_state
    ltac:(apply (run_reach fail_run st_new); [constructor|vm_compute; reflexivity])
    ltac:(vm_compute; reflexivity))) _ (Fail (Rithmic "lost") 2) []); vm_compute; reflexivity.
Defined.

(** A detach between the load of [up] and the load of the generation: the
    message queued before it is not delivered before the lane reads as down, but
    becomes a gap. *)
Example detach_race_loses :
  ended (attached ++ [ASend 1 (ev "fill"); ATake 8; AConsumer; ADetach 1; AWriter 1; AWriter 1; AWriter 1]
         ++ steps 5) = Some [Msgs [LostGap 1]].
Proof. vm_compute. reflexivity. Qed.

(** A failure read just before a new attachment is put back into it, and the new
    attachment's first message is counted as lost. *)
Example failure_survives_attach :
  ended (attached ++ [AFail 1 "old"; AWriter 1; ATake 8] ++ steps 6
         ++ [AAttach; AWriter 2; AWriter 2; AWriter 2; ASend 2 (ev "fill")] ++ steps 4
         ++ [ATake 8] ++ steps 8)
  = Some [Msgs [LostGap 1]; Fail (Rithmic "old") 0].
Proof. vm_compute. reflexivity. Qed.

(** A forwarded gap of 41 that goes stale counts as one. *)
Example stale_gap_counts_one :
  ended (attached ++ [ASend 1 (MGap 41); AAttach; AWriter 1; AWriter 1; AWriter 1; ATake 8] ++ steps 6)
  = Some [Msgs [LostGap 1]].
Proof. vm_compute. reflexivity. Qed.
End LaneSample.
