(* ===== verification/HostSubs.v ===== *)
(** * Subscriptions of the host's clients

    [rithmic-host]: who holds which subscription ([intents.rs]), which topics an
    attachment gets events of ([fanout.rs], [local/context.rs]), the subscribe and
    leave requests with their rollbacks ([local/subscriptions.rs]), the teardown of
    a dead attachment, and the restore after a plant was rebuilt ([pump.rs],
    [pump/degraded.rs]).

    A request holds the lock of its topic (and the gate against history loads)
    from its first to its last effect, so it is one step here; the venue's answers
    are an argument (the host has a venue session).  The three counter maps and three flags of an [IntentStore]
    are one map over [Held], the typed sets of an attachment one set of [Held].
    [h_venue] is what the venue delivers: a join adds to it, a leave takes away, a
    call that fails changes nothing. *)

From Stdlib Require Import Ascii String.
From stdpp Require Import base gmap strings list fin_maps fin_sets sets relations.
From Stdlib Require Import ZArith Lia.
From S2P Require Import Prelude.
Open Scope string_scope.
Open Scope list_scope.
Open Scope nat_scope.

Module HostSubs.

(** ** What can be held *)

Definition SubKey : Type := string * string.        (* symbol, exchange *)

Inductive MdIntent :=
  | Ticker (key : SubKey)
  | Book (key : SubKey)
  | TimeBars (key : SubKey) (bar_type period : Z).
Inductive Held := Md (i : MdIntent) | HPnl | HOrder | HBrackets.

#[export] Instance MdIntent_eq_dec : EqDecision MdIntent.
Proof. solve_decision. Defined.
#[export] Instance Held_eq_dec : EqDecision Held.
Proof. solve_decision. Defined.
#[export] Instance MdIntent_countable : Countable MdIntent.
Proof.
  refine (inj_countable'
    (fun i => match i with Ticker k => inl k | Book k => inr (inl k) | TimeBars k b p => inr (inr (k, b, p)) end)
    (fun x => match x with inl k => Ticker k | inr (inl k) => Book k | inr (inr (k, b, p)) => TimeBars k b p end) _).
  by intros [].
Defined.
#[export] Instance Held_countable : Countable Held.
Proof.
  refine (inj_countable'
    (fun x => match x with Md i => inl i | HPnl => inr 0 | HOrder => inr 1 | HBrackets => inr 2 end)
    (fun y => match y with inl i => Md i | inr 0 => HPnl | inr 1 => HOrder | inr _ => HBrackets end) _).
  by intros [].
Defined.

Definition pnl_key : SubKey := ("__pnl__", "").
Definition order_key : SubKey := ("__order__", "").

(** [TopicIntent::key]. *)
Definition md_key (i : MdIntent) : SubKey :=
  match i with Ticker k | Book k | TimeBars k _ _ => k end.
Definition topic (x : Held) : SubKey :=
  match x with Md i => md_key i | HPnl => pnl_key | HOrder | HBrackets => order_key end.

(** ** The intent store and the hub *)

Record Host := MkHost {
  h_counts : gmap Held nat;
  h_degraded : gset MdIntent;
  h_hub : gmap SubKey nat;
  h_venue : gset Held;
  h_ready : bool;
  h_force : bool;                (* [force_reconnect]: a full rebuild was asked for *)
  h_pending : gset Held          (* joins a recovery has still to restore *)
}.

Definition with_counts (f : gmap Held nat -> gmap Held nat) (h : Host) : Host :=
  MkHost (f (h_counts h)) (h_degraded h) (h_hub h) (h_venue h) (h_ready h) (h_force h) (h_pending h).
Definition with_degraded (f : gset MdIntent -> gset MdIntent) (h : Host) : Host :=
  MkHost (h_counts h) (f (h_degraded h)) (h_hub h) (h_venue h) (h_ready h) (h_force h) (h_pending h).
Definition with_hub (f : gmap SubKey nat -> gmap SubKey nat) (h : Host) : Host :=
  MkHost (h_counts h) (h_degraded h) (f (h_hub h)) (h_venue h) (h_ready h) (h_force h) (h_pending h).
Definition with_venue (f : gset Held -> gset Held) (h : Host) : Host :=
  MkHost (h_counts h) (h_degraded h) (h_hub h) (f (h_venue h)) (h_ready h) (h_force h) (h_pending h).
(** [ready] off and [request_reconnect]. *)
Definition ask_rebuild (h : Host) : Host :=
  MkHost (h_counts h) (h_degraded h) (h_hub h) (h_venue h) false true (h_pending h).

(** [bump] and [drop_count]: whether the key was new, whether it is gone. *)
Definition bump `{Countable K} (k : K) (m : gmap K nat) : bool * gmap K nat :=
  let n := S (default 0 (m !! k)) in (n =? 1, <[k := n]> m).
Definition drop_count `{Countable K} (k : K) (m : gmap K nat) : bool * gmap K nat :=
  match m !! k with
  | None => (false, m)
  | Some n => if pred n =? 0 then (true, delete k m) else (false, <[k := pred n]> m)
  end.

Definition note (x : Held) (h : Host) : bool * Host :=
  let '(first, m) := bump x (h_counts h) in (first, with_counts (fun _ => m) h).
Definition forget (x : Held) (h : Host) : bool * Host :=
  let '(last, m) := drop_count x (h_counts h) in
  let h1 := with_counts (fun _ => m) h in
  (last, match x with Md i => if last then with_degraded (fun d => d ∖ {[i]}) h1 else h1 | _ => h1 end).

Definition held (x : Held) (h : Host) : bool := bool_decide (is_Some (h_counts h !! x)).
Definition mark_degraded (i : MdIntent) (h : Host) : Host :=
  if held (Md i) h then with_degraded (fun d => {[i]} ∪ d) h else h.
Definition clear_degraded (i : MdIntent) (h : Host) : Host := with_degraded (fun d => d ∖ {[i]}) h.
Definition is_degraded (i : MdIntent) (h : Host) : bool := bool_decide (i ∈ h_degraded h).

(** The joins to re-issue after a rebuild. *)
Definition restore_plan (h : Host) : gset Held := dom (h_counts h).

(** [add_interest] and [remove_interest] of the hub. *)
Definition add_hub_interest (k : SubKey) (h : Host) : Host := with_hub (fun m => (bump k m).2) h.
Definition remove_hub_interest (k : SubKey) (h : Host) : Host := with_hub (fun m => (drop_count k m).2) h.

(** ** An attachment ([SessionCtx]) *)

Record Client := MkClient {
  c_held : gset Held;
  c_subscribed : gset SubKey;          (* topics its delivery is on *)
  c_kinds : gmap SubKey Z              (* frame kinds wanted per topic *)
}.
Definition client_new : Client := MkClient ∅ ∅ ∅.

Definition client_has (x : Held) (c : Client) : bool := bool_decide (x ∈ c_held c).

(** A time bar held on the topic. *)
Definition has_bars (k : SubKey) (c : Client) : bool :=
  existsb (fun x => match x with Md (TimeBars k' _ _) => bool_decide (k' = k) | _ => false end)
    (elements (c_held c)).

Definition mask (k : SubKey) (c : Client) : Z :=
  Z.lor (if client_has (Md (Ticker k)) c then 1 else 0)
    (Z.lor (if client_has (Md (Book k)) c then 2 else 0)
      (Z.lor (if has_bars k c then 4 else 0)
        (if client_has HBrackets c && bool_decide (k = order_key) then 8 else 0))).

Definition sync_kinds (k : SubKey) (c : Client) : Client :=
  MkClient (c_held c) (c_subscribed c)
    (if (mask k c =? 0)%Z && negb (bool_decide (k ∈ c_subscribed c)) then delete k (c_kinds c)
     else <[k := mask k c]> (c_kinds c)).

Definition wants_md (k : SubKey) (c : Client) : bool :=
  client_has (Md (Ticker k)) c || client_has (Md (Book k)) c || has_bars k c.

(** The sets changed by [client_insert], [client_remove] and the flags. *)
Definition c_insert (x : Held) (c : Client) : Client :=
  MkClient ({[x]} ∪ c_held c) (c_subscribed c) (c_kinds c).
Definition c_remove (x : Held) (c : Client) : Client :=
  MkClient (c_held c ∖ {[x]}) (c_subscribed c) (c_kinds c).
Definition client_insert (i : MdIntent) (c : Client) : Client := sync_kinds (md_key i) (c_insert (Md i) c).
Definition client_remove (i : MdIntent) (c : Client) : Client := sync_kinds (md_key i) (c_remove (Md i) c).

(** The topic exists: its hub interest was added before. *)
Definition ensure_delivery (k : SubKey) (h : Host) (c : Client) : Client :=
  if bool_decide (k ∈ c_subscribed c) then c
  else
    let kinds := match c_kinds c !! k with Some _ => c_kinds c | None => <[k := 0%Z]> (c_kinds c) end in
    if bool_decide (is_Some (h_hub h !! k)) then MkClient (c_held c) ({[k]} ∪ c_subscribed c) kinds
    else MkClient (c_held c) (c_subscribed c) kinds.
Definition drop_delivery (k : SubKey) (c : Client) : Client :=
  MkClient (c_held c) (c_subscribed c ∖ {[k]}) (delete k (c_kinds c)).

(** ** The venue's answers in one request ([true]: the call succeeds) *)

Inductive Call :=
  | CJoin (i : MdIntent) | CLeave (i : MdIntent)
  | CPnlEnsure | CPnlJoin | CPnlSnapshot | CPnlDisconnect
  | COrderJoin | CBracketJoin | COrderDisconnect
  | CTickerReset.
Definition Answers : Type := Call -> bool.

Section Requests.
Variable ans : Answers.

Definition venue_join (i : MdIntent) (h : Host) : bool * Host :=
  if ans (CJoin i) then (true, with_venue (fun v => {[Md i]} ∪ v) h) else (false, h).
Definition venue_leave (i : MdIntent) (h : Host) : bool * Host :=
  if ans (CLeave i) then (true, with_venue (fun v => v ∖ {[Md i]}) h) else (false, h).

(** [refresh_book]: leave, then join. *)
Definition refresh_book (k : SubKey) (h : Host) : bool * Host :=
  let '(ok, h1) := venue_leave (Book k) h in
  if ok then venue_join (Book k) h1 else (false, h1).

Definition pnl_join (h : Host) : bool * Host :=
  if ans CPnlEnsure && ans CPnlJoin then (true, with_venue (fun v => {[HPnl]} ∪ v) h) else (false, h).
Definition order_join (h : Host) : bool * Host :=
  if ans COrderJoin then (true, with_venue (fun v => {[HOrder]} ∪ v) h) else (false, h).
Definition bracket_join (h : Host) : bool * Host :=
  if ans CBracketJoin then (true, with_venue (fun v => {[HBrackets]} ∪ v) h) else (false, h).
Definition pnl_disconnect (h : Host) : bool * Host :=
  if ans CPnlDisconnect then (true, with_venue (fun v => v ∖ {[HPnl]}) h) else (false, h).
Definition order_disconnect (h : Host) : bool * Host :=
  if ans COrderDisconnect then (true, with_venue (fun v => v ∖ {[HOrder; HBrackets]}) h) else (false, h).

(** ** Market data *)

Definition attach_shared_topic (k : SubKey) (h : Host) (c : Client) : bool * Host * Client :=
  let had := bool_decide (k ∈ c_subscribed c) in
  let h1 := if had then h else add_hub_interest k h in
  (had, h1, ensure_delivery k h1 c).

Definition rollback_shared_topic (k : SubKey) (had : bool) (h : Host) (c : Client) : Host * Client :=
  if had then (h, c) else (remove_hub_interest k h, drop_delivery k c).

Definition release_md_if_unused (k : SubKey) (h : Host) (c : Client) : Host * Client :=
  if wants_md k c then (h, c) else (remove_hub_interest k h, drop_delivery k c).

(** [rejoin_degraded]; a book goes through its snapshot-on-join path. *)
Definition rejoin_degraded (i : MdIntent) (h : Host) : bool * Host :=
  if negb (is_degraded i h) then (true, h)
  else if negb (h_ready h) then (false, h)
  else
    let '(ok, h1) := match i with Book k => refresh_book k h | _ => venue_join i h end in
    if ok then (true, clear_degraded i h1) else (false, h1).

(** [subscribe_topic]: whether it returned [Ok]. *)
Definition subscribe_topic (i : MdIntent) (h : Host) (c : Client) : bool * Host * Client :=
  if client_has (Md i) c then
    if is_degraded i h then let '(ok, h1) := rejoin_degraded i h in (ok, h1, c)
    else
      match i with
      | Book k =>
          if negb (h_ready h) then (false, h, c)
          else let '(ok, h1) := refresh_book k h in
               if ok then (true, h1, c) else (false, mark_degraded i h1, c)
      | _ => (true, h, c)
      end
  else
    let '(had, h1, c1) := attach_shared_topic (md_key i) h c in
    let '(first, h2) := note (Md i) h1 in
    let c2 := client_insert i c1 in
    let degraded := negb first && is_degraded i h2 in
    let refresh := negb first && match i with Book _ => true | _ => false end in
    if first || degraded || refresh then
      let '(joined, h3) :=
        if negb (h_ready h2) then (false, h2)
        else if refresh then refresh_book (md_key i) h2
        else venue_join i h2 in
      if joined then (true, if degraded then clear_degraded i h3 else h3, c2)
      else
        let h4 := if refresh then mark_degraded i h3 else h3 in
        let h5 := (forget (Md i) h4).2 in
        let '(h6, c6) := rollback_shared_topic (md_key i) had h5 (client_remove i c2) in
        (false, h6, c6)
    else (true, h2, c2).

Definition unsubscribe_topic (i : MdIntent) (h : Host) (c : Client) : bool * Host * Client :=
  if negb (client_has (Md i) c) then (true, h, c)
  else
    let c1 := client_remove i c in
    let '(last, h1) := forget (Md i) h in
    let '(ok, h2) := if last then venue_leave i h1 else (true, h1) in
    if ok then let '(h3, c3) := release_md_if_unused (md_key i) h2 c1 in (true, h3, c3)
    else (false, (note (Md i) h2).2, client_insert i c1).

(** ** PnL *)

Definition subscribe_pnl (h : Host) (c : Client) : bool * Host * Client :=
  if negb (h_ready h) then (false, h, c)
  else if client_has HPnl c then (ans CPnlSnapshot, h, c)
  else
    let '(had, h1, c1) := attach_shared_topic pnl_key h c in
    let '(first, h2) := note HPnl h1 in
    let c2 := c_insert HPnl c1 in
    let '(joined, h3) := if first then pnl_join h2 else (ans CPnlSnapshot, h2) in
    if joined then (true, h3, c2)
    else
      let '(h5, c5) := rollback_shared_topic pnl_key had (forget HPnl h3).2 (c_remove HPnl c2) in
      (false, h5, c5).

Definition leave_pnl (rollback : bool) (h : Host) (c : Client) : bool * Host * Client :=
  if negb (client_has HPnl c) then (true, h, c)
  else
    let c1 := c_remove HPnl c in
    let '(last, h1) := forget HPnl h in
    if negb last then (true, h1, c1)
    else
      let '(ok, h2) := pnl_disconnect h1 in
      if ok then (true, h2, c1)
      else if rollback then (false, (note HPnl h2).2, c_insert HPnl c1)
      else (false, h2, c1).

Definition disconnect_pnl (h : Host) (c : Client) : bool * Host * Client :=
  let '(ok, h1, c1) := leave_pnl true h c in
  if negb ok then (false, h1, c1)
  else if bool_decide (pnl_key ∈ c_subscribed c1)
       then (true, remove_hub_interest pnl_key h1, drop_delivery pnl_key c1)
       else (true, h1, c1).

(** ** Orders and brackets, on one plant *)

Definition clear_client_brackets (h : Host) (c : Client) : bool * Host * Client :=
  if negb (client_has HBrackets c) then (false, h, c)
  else let '(last, h1) := forget HBrackets h in (last, h1, sync_kinds order_key (c_remove HBrackets c)).

Definition rollback_order_introductions (had introduced_order introduced_brackets : bool) (h : Host) (c : Client)
  : Host * Client :=
  let '(h1, c1) :=
    if introduced_brackets then ((forget HBrackets h).2, sync_kinds order_key (c_remove HBrackets c))
    else (h, c) in
  if negb introduced_order then (h1, c1)
  else
    let c2 := c_remove HOrder c1 in
    let '(last, h2) := forget HOrder h1 in
    let '(ok, h3) := if last then order_disconnect h2 else (true, h2) in
    if ok then rollback_shared_topic order_key had h3 c2
    else ((note HOrder h3).2, c_insert HOrder c2).

Definition subscribe_order_plant_stream (trading want_brackets : bool) (h : Host) (c : Client)
  : bool * Host * Client :=
  if negb trading then (false, h, c)
  else
    let need_order := negb (client_has HOrder c) in
    let need_brackets := want_brackets && negb (client_has HBrackets c) in
    if negb need_order && negb need_brackets then (true, h, c)
    else
      let '(had, h1, c1) := attach_shared_topic order_key h c in
      let '(first_order, h2) := if need_order then note HOrder h1 else (false, h1) in
      let '(first_brackets, h3) := if need_brackets then note HBrackets h2 else (false, h2) in
      let c2 := if need_order then c_insert HOrder c1 else c1 in
      let c3 := if need_brackets then sync_kinds order_key (c_insert HBrackets c2) else c2 in
      let '(ok1, h4) := if first_order then order_join h3 else (true, h3) in
      let '(ok2, h5) := if ok1 && first_brackets then bracket_join h4 else (ok1, h4) in
      if ok2 then (true, h5, c3)
      else let '(h6, c6) := rollback_order_introductions had need_order need_brackets h5 c3 in (false, h6, c6).

(** [reseat_order_plant_without_brackets]; the gap it publishes is [Delivery]'s. *)
Definition reseat_order_plant (h : Host) : bool * Host := order_join (order_disconnect h).2.

Definition leave_order (rollback : bool) (h : Host) (c : Client) : bool * Host * Client :=
  if negb (client_has HOrder c) && negb (client_has HBrackets c) then (true, h, c)
  else
    let had_brackets := client_has HBrackets c in
    let '(last_brackets, h1, c1) := clear_client_brackets h c in
    let had_order := client_has HOrder c in
    let '(last_order, h2) := if had_order then forget HOrder h1 else (false, h1) in
    let c2 := if had_order then c_remove HOrder c1 else c1 in
    let '(ok, h3) := if last_order then order_disconnect h2 else (true, h2) in
    if negb ok then
      if rollback then
        let h4 := (note HOrder h3).2 in
        let c4 := c_insert HOrder c2 in
        if had_brackets
        then (false, (note HBrackets h4).2, sync_kinds order_key (c_insert HBrackets c4))
        else (false, h4, c4)
      else (false, h3, c2)
    else if last_brackets && negb last_order && held HOrder h3 then
      let '(ok', h4) := reseat_order_plant h3 in
      if ok' then (true, h4, c2) else (false, ask_rebuild h4, c2)
    else (true, h3, c2).

Definition disconnect_order (h : Host) (c : Client) : bool * Host * Client :=
  let '(ok, h1, c1) := leave_order true h c in
  if negb ok then (false, h1, c1)
  else if bool_decide (order_key ∈ c_subscribed c1)
       then (true, remove_hub_interest order_key h1, drop_delivery order_key c1)
       else (true, h1, c1).

(** ** Teardown of a dead attachment *)

Definition teardown_topic (i : MdIntent) (h : Host) : Host :=
  let '(last, h1) := forget (Md i) h in
  if last then (venue_leave i h1).2 else h1.

Definition md_of (x : Held) : option MdIntent := match x with Md i => Some i | _ => None end.

(** A set visited group by group (four at most), as the typed collections are. *)
Definition by_rank {A} (rank : A -> nat) (l : list A) : list A :=
  List.filter (fun x => rank x =? 0) l ++ List.filter (fun x => rank x =? 1) l
  ++ List.filter (fun x => rank x =? 2) l ++ List.filter (fun x => rank x =? 3) l.
Definition md_rank (i : MdIntent) : nat := match i with Ticker _ => 0 | Book _ => 1 | TimeBars _ _ _ => 2 end.
Definition md_held (c : Client) : list MdIntent := by_rank md_rank (omap md_of (elements (c_held c))).

(** The typed sets are drained, then PnL and orders are let go, then the topics. *)
Definition teardown (h : Host) (c : Client) : Host :=
  let h1 := fold_left (fun h i => teardown_topic i h) (md_held c) h in
  let c1 := fold_left (fun c i => c_remove (Md i) c) (md_held c) c in
  let '(_, h2, c2) := leave_pnl false h1 c1 in
  let '(_, h3, c3) := leave_order false h2 c2 in
  fold_left (fun h k => remove_hub_interest k h) (elements (c_subscribed c3)) h3.
End Requests.

(** ** Recovery *)

Inductive Stream := SPlantTicker | SPlantHistory | SPlantPnl | SPlantOrder.
Inductive Recovery := Plant (s : Stream) | Login.
Definition stream_of (x : Held) : Stream :=
  match x with
  | Md (Ticker _) | Md (Book _) => SPlantTicker
  | Md (TimeBars _ _ _) => SPlantHistory
  | HPnl => SPlantPnl
  | HOrder | HBrackets => SPlantOrder
  end.
#[export] Instance Stream_eq_dec : EqDecision Stream.
Proof. solve_decision. Defined.
Definition carries (r : Recovery) (x : Held) : bool :=
  match r with Login => true | Plant s => bool_decide (stream_of x = s) end.

(** A plant was rebuilt: its joins are gone, and the held ones are to be restored; a
    new login answers a request for a full rebuild. *)
Definition rebuild (r : Recovery) (h : Host) : Host :=
  MkHost (h_counts h) (h_degraded h) (h_hub h) (filter (fun x => carries r x = false) (h_venue h)) false
    (match r with Login => false | Plant _ => h_force h end)
    (filter (fun x => carries r x = true) (restore_plan h)).

(** One join of [restore_plan_pass]; a bracket join waits for the order join. *)
Definition restore_one (ans : Answers) (h : Host) (x : Held) : Host :=
  let done (h' : Host) :=
    MkHost (h_counts h') (h_degraded h') (h_hub h') (h_venue h') (h_ready h') (h_force h') (h_pending h' ∖ {[x]}) in
  match x with
  | Md i => let '(ok, h1) := venue_join ans i h in if ok then done (clear_degraded i h1) else h1
  | HPnl => let '(ok, h1) := pnl_join ans h in if ok then done h1 else h1
  | HOrder => let '(ok, h1) := order_join ans h in if ok then done h1 else h1
  | HBrackets =>
      if bool_decide (HOrder ∈ h_pending h) then h
      else let '(ok, h1) := bracket_join ans h in if ok then done h1 else h1
  end.

(** The order of a pass: market data, then PnL, orders, brackets. *)
Definition rank (x : Held) : nat := match x with Md _ => 0 | HPnl => 1 | HOrder => 2 | HBrackets => 3 end.
Definition in_order (s : gset Held) : list Held := by_rank rank (elements s).

Definition restore_plan_pass (ans : Answers) (h : Host) : Host :=
  let still := h_pending h ∩ restore_plan h in
  let h1 := MkHost (h_counts h) (h_degraded h) (h_hub h) (h_venue h) (h_ready h) (h_force h) still in
  fold_left (restore_one ans) (in_order still) h1.

(** [restore_pass] over market data: every remembered intent is joined again,
    whether all were. *)
Definition restore_md (ans : Answers) (p : bool * Host) (i : MdIntent) : bool * Host :=
  let '(all, h) := p in
  let '(ok, h1) := venue_join ans i h in
  if ok then (all, clear_degraded i h1) else (false, h1).
Definition md_intents (h : Host) : list MdIntent :=
  by_rank md_rank (omap md_of (elements (restore_plan h))).

(** [reset_ticker_plant]: the old ticker is logged out first, so its joins are
    gone whether or not the new one connects; a connect that fails leaves the
    ticker down, a join that fails asks for a full rebuild. *)
Definition ticker_down (h : Host) : Host :=
  with_venue (filter (fun x => stream_of x <> SPlantTicker)) h.
Definition reset_ticker_plant (ans : Answers) (h : Host) : bool * Host :=
  if negb (ans CTickerReset) then (false, ticker_down h)
  else
    let '(all, h1) := fold_left (restore_md ans) (md_intents h) (true, ticker_down h) in
    if all then (true, h1) else (false, ask_rebuild h1).

(** The end of a recovery without unrestored account joins: market data left over
    is degraded, and the host is ready; unless a full rebuild was asked for in the
    meantime, which comes next. *)
Definition account (x : Held) : bool := match x with Md _ => false | _ => true end.
Definition finish (h : Host) : Host :=
  let left := by_rank md_rank (omap md_of (elements (h_pending h))) in
  let h1 := fold_left (fun h i => mark_degraded i h) left h in
  if h_force h1 then h1
  else MkHost (h_counts h1) (h_degraded h1) (h_hub h1) (h_venue h1) true (h_force h1) ∅.

(** ** Facts: visiting by group *)

Lemma by_rank_spec {A} (f : A -> nat) (l : list A) : (forall x, f x < 4) ->
  (forall x, x ∈ by_rank f l <-> x ∈ l) /\ (NoDup l -> NoDup (by_rank f l)).
Proof.
  intros Hf. assert (Hin : forall n x, x ∈ List.filter (fun x => f x =? n) l <-> x ∈ l /\ f x = n).
  { intros n x. by rewrite !list_elem_of_In, filter_In, Nat.eqb_eq. }
  unfold by_rank. split.
  - intros x. rewrite !elem_of_app, !Hin. specialize (Hf x).
    assert (f x = 0 \/ f x = 1 \/ f x = 2 \/ f x = 3) by lia. tauto.
  - intros Hnd. assert (Hn : forall n, NoDup (List.filter (fun x => f x =? n) l)).
    { intros n. apply NoDup_ListNoDup. by apply List.NoDup_filter, NoDup_ListNoDup. }
    rewrite !NoDup_app. split_and!; try apply Hn; intros x; rewrite ?elem_of_app, !Hin; lia.
Qed.

Lemma md_held_spec c i : i ∈ md_held c <-> Md i ∈ c_held c.
Proof.
  unfold md_held. rewrite (proj1 (by_rank_spec md_rank _ ltac:(intros []; simpl; lia))), list_elem_of_omap. split.
  - intros (x & Hx%elem_of_elements & Hm). destruct x; [|done..]. by simplify_eq/=.
  - intros Hi. exists (Md i). by rewrite elem_of_elements.
Qed.

Lemma md_held_nodup c : NoDup (md_held c).
Proof.
  unfold md_held. apply by_rank_spec; [intros []; simpl; lia|].
  generalize (NoDup_elements (c_held c)). induction (elements (c_held c)) as [|x l IH]; [constructor|].
  intros [Hx Hl]%NoDup_cons. destruct x as [i| | |]; simpl; [|by apply IH..]. constructor; [|by apply IH].
  intros (y & Hy & Em)%list_elem_of_omap. destruct y; [|done..]. by simplify_eq/=.
Qed.

(** ** Facts: counting *)

Definition at_ `{Countable K} (m : gmap K nat) (k : K) : nat := default 0 (m !! k).
Definition nonzero `{Countable K} (m : gmap K nat) : Prop := forall k, m !! k <> Some 0.

Section Count.
Context `{Countable K}.
Implicit Types (m : gmap K nat).

Lemma bump_at k k' m : at_ (bump k m).2 k' = at_ m k' + if decide (k' = k) then 1 else 0.
Proof.
  unfold at_, bump. simpl. destruct (decide (k' = k)) as [->|Hne].
  - rewrite lookup_insert_eq. simpl. lia.
  - rewrite lookup_insert_ne by done. lia.
Qed.

Lemma bump_first k m : (bump k m).1 = (at_ m k =? 0).
Proof. unfold at_, bump. by destruct (default 0 (m !! k)). Qed.

Lemma bump_nonzero k m : nonzero m -> nonzero (bump k m).2.
Proof. intros Hm k'. unfold bump. simpl. rewrite lookup_insert. case_decide; [congruence|apply Hm]. Qed.

Lemma drop_at k k' m : at_ (drop_count k m).2 k' = at_ m k' - if decide (k' = k) then 1 else 0.
Proof.
  unfold at_, drop_count. destruct (m !! k) as [n|] eqn:E.
  - destruct (Nat.eqb_spec (pred n) 0) as [En|En]; simpl; destruct (decide (k' = k)) as [->|Hne];
      rewrite ?lookup_delete_eq, ?lookup_insert_eq, ?lookup_delete_ne, ?lookup_insert_ne by done; rewrite ?E; simpl; lia.
  - simpl. destruct (decide (k' = k)) as [->|Hne]; [rewrite E; simpl; lia|lia].
Qed.

Lemma drop_last k m : nonzero m -> 1 <= at_ m k -> (drop_count k m).1 = (at_ m k =? 1).
Proof.
  unfold at_, drop_count. intros Hm. specialize (Hm k). destruct (m !! k) as [n|]; simpl; [|lia].
  intros Hn. destruct n as [|[|n]]; [lia|done|done].
Qed.

Lemma drop_nonzero k m : nonzero m -> nonzero (drop_count k m).2.
Proof.
  intros Hm k'. unfold drop_count. destruct (m !! k) as [n|] eqn:E; [|apply Hm].
  destruct (pred n =? 0) eqn:En; simpl.
  - rewrite lookup_delete. case_decide; [done|apply Hm].
  - rewrite lookup_insert. case_decide; [|apply Hm]. intros [= En']. apply Nat.eqb_neq in En. lia.
Qed.

Lemma at_dom m k : nonzero m -> is_Some (m !! k) <-> 1 <= at_ m k.
Proof.
  intros Hm. specialize (Hm k). unfold at_. destruct (m !! k) as [[|n]|]; simpl; [done| |].
  - split; [lia|eauto].
  - split; [by intros []|lia].
Qed.
End Count.

(** ** Facts: one client against the others *)

Definition b2n (b : bool) : nat := if b then 1 else 0.

(** [o] and [ho] count what the other clients hold and are attached to. *)
Record local (o : Held -> nat) (ho : SubKey -> nat) (h : Host) (c : Client) : Prop := MkLocal {
  lo_counts : forall x, at_ (h_counts h) x = o x + b2n (client_has x c);
  lo_hub : forall k, at_ (h_hub h) k = ho k + b2n (bool_decide (k ∈ c_subscribed c));
  lo_nonzero : nonzero (h_counts h);
  lo_hub_nonzero : nonzero (h_hub h)
}.

Section Local.
Context (o : Held -> nat) (ho : SubKey -> nat).
Implicit Types (h : Host) (c : Client).

Lemma b2n_insert x y c : x ∉ c_held c ->
  b2n (client_has y (c_insert x c)) = b2n (client_has y c) + if decide (y = x) then 1 else 0.
Proof.
  intros Hx. unfold client_has, c_insert. simpl. destruct (decide (y = x)) as [->|Hne].
  - rewrite bool_decide_eq_true_2 by set_solver. by rewrite bool_decide_eq_false_2.
  - rewrite (bool_decide_ext (y ∈ {[x]} ∪ c_held c) (y ∈ c_held c)) by set_solver. lia.
Qed.

Lemma b2n_remove x y c : x ∈ c_held c ->
  b2n (client_has y c) = b2n (client_has y (c_remove x c)) + if decide (y = x) then 1 else 0.
Proof.
  intros Hx. unfold client_has, c_remove. simpl. destruct (decide (y = x)) as [->|Hne].
  - rewrite bool_decide_eq_true_2 by done. rewrite bool_decide_eq_false_2 by set_solver. done.
  - rewrite (bool_decide_ext (y ∈ c_held c ∖ {[x]}) (y ∈ c_held c)) by set_solver. lia.
Qed.

(** Changes that the counters do not see. *)
Lemma local_frame h c h' c' :
  local o ho h c -> h_counts h' = h_counts h -> h_hub h' = h_hub h ->
  c_held c' = c_held c -> c_subscribed c' = c_subscribed c -> local o ho h' c'.
Proof.
  intros [H1 H2 H3 H4] E1 E2 E3 E4. unfold client_has in *.
  split; unfold client_has; rewrite ?E1, ?E2, ?E3, ?E4; done.
Qed.

Lemma note_fields x h :
  h_counts (note x h).2 = (bump x (h_counts h)).2 /\ h_hub (note x h).2 = h_hub h /\
  h_venue (note x h).2 = h_venue h /\ h_ready (note x h).2 = h_ready h /\ h_force (note x h).2 = h_force h /\
  h_pending (note x h).2 = h_pending h /\ h_degraded (note x h).2 = h_degraded h.
Proof. unfold note. by destruct (bump x (h_counts h)). Qed.

Lemma note_local x h c : local o ho h c -> x ∉ c_held c -> local o ho (note x h).2 (c_insert x c).
Proof.
  intros [H1 H2 H3 H4] Hx. destruct (note_fields x h) as (E1 & E2 & _). split; rewrite ?E1, ?E2; try done.
  - intros y. rewrite bump_at, H1, b2n_insert by done. lia.
  - by apply bump_nonzero.
Qed.

Lemma note_first x h c : local o ho h c -> x ∉ c_held c -> (note x h).1 = (o x =? 0).
Proof.
  intros [H1 _ _ _] Hx. unfold note. rewrite (surjective_pairing (bump x (h_counts h))). cbn [fst].
  rewrite bump_first, H1. unfold client_has. rewrite bool_decide_eq_false_2 by done. simpl. by rewrite Nat.add_0_r.
Qed.

Lemma forget_counts x h :
  h_counts (forget x h).2 = (drop_count x (h_counts h)).2 /\ h_hub (forget x h).2 = h_hub h /\
  h_venue (forget x h).2 = h_venue h /\ h_ready (forget x h).2 = h_ready h /\
  h_force (forget x h).2 = h_force h /\ h_pending (forget x h).2 = h_pending h /\
  h_degraded (forget x h).2 = (match x with Md i => if (forget x h).1 then h_degraded h ∖ {[i]} else h_degraded h
                               | _ => h_degraded h end).
Proof.
  unfold forget. destruct (drop_count x (h_counts h)) as [last m]. simpl.
  destruct x as [i| | |]; simpl; try done. by destruct last.
Qed.

Lemma forget_local x h c : local o ho h c -> x ∈ c_held c -> local o ho (forget x h).2 (c_remove x c).
Proof.
  intros [H1 H2 H3 H4] Hx. destruct (forget_counts x h) as (E1 & E2 & _). split; rewrite ?E1, ?E2; try done.
  - intros y. rewrite drop_at, H1, (b2n_remove x y c Hx). lia.
  - by apply drop_nonzero.
Qed.

Lemma forget_last x h c : local o ho h c -> x ∈ c_held c -> (forget x h).1 = (o x =? 0).
Proof.
  intros [H1 _ H3 _] Hx. unfold forget. rewrite (surjective_pairing (drop_count x (h_counts h))). cbn [fst].
  assert (Hc : at_ (h_counts h) x = S (o x)).
  { rewrite H1. unfold client_has. rewrite bool_decide_eq_true_2 by done. simpl. lia. }
  rewrite drop_last by (done || lia). rewrite Hc. done.
Qed.

Lemma add_hub_local k h c : local o ho h c -> k ∉ c_subscribed c ->
  local o ho (add_hub_interest k h) (ensure_delivery k (add_hub_interest k h) c) /\
  c_subscribed (ensure_delivery k (add_hub_interest k h) c) = {[k]} ∪ c_subscribed c.
Proof.
  intros [H1 H2 H3 H4] Hk. unfold ensure_delivery. rewrite bool_decide_eq_false_2 by done.
  rewrite bool_decide_eq_true_2 by (simpl; rewrite lookup_insert_eq; eauto). split; [|done].
  split; simpl; try done.
  - intros k'. change (at_ (bump k (h_hub h)).2 k' = ho k' + b2n (bool_decide (k' ∈ {[k]} ∪ c_subscribed c))).
    rewrite bump_at, H2. destruct (decide (k' = k)) as [->|Hne].
    + rewrite bool_decide_eq_false_2 by done. rewrite bool_decide_eq_true_2 by set_solver. simpl. lia.
    + rewrite (bool_decide_ext (k' ∈ {[k]} ∪ c_subscribed c) (k' ∈ c_subscribed c)) by set_solver. lia.
  - by apply (bump_nonzero k).
Qed.

Lemma remove_hub_local k h c : local o ho h c -> k ∈ c_subscribed c ->
  local o ho (remove_hub_interest k h) (drop_delivery k c).
Proof.
  intros [H1 H2 H3 H4] Hk. split; simpl; try done.
  - intros k'. rewrite drop_at, H2. destruct (decide (k' = k)) as [->|Hne].
    + rewrite bool_decide_eq_true_2 by done. rewrite bool_decide_eq_false_2 by set_solver. simpl. lia.
    + rewrite (bool_decide_ext (k' ∈ c_subscribed c ∖ {[k]}) (k' ∈ c_subscribed c)) by set_solver. lia.
  - by apply drop_nonzero.
Qed.
End Local.

(** ** Facts: topics and kinds of a client *)

Record cwf (c : Client) : Prop := MkCwf {
  cw_sub : forall x, x ∈ c_held c -> topic x ∈ c_subscribed c;
  cw_topics : forall k, k <> order_key -> k ∈ c_subscribed c -> exists x, x ∈ c_held c /\ topic x = k;
  cw_kinds : forall k, c_kinds c !! k = if decide (k ∈ c_subscribed c) then Some (mask k c) else None;
  cw_keys : forall i, Md i ∈ c_held c -> md_key i <> pnl_key /\ md_key i <> order_key;
  cw_brackets : HBrackets ∈ c_held c -> HOrder ∈ c_held c
}.

(** The topic itself: what is held on it is delivered, and (but for orders, whose
    delivery may outlast a failed disconnect) nothing else is. *)
Definition topic_ok (k : SubKey) (c : Client) : Prop :=
  (forall x, x ∈ c_held c -> topic x = k -> k ∈ c_subscribed c) /\
  (k <> order_key -> k ∈ c_subscribed c -> exists x, x ∈ c_held c /\ topic x = k).

(** The same, but for one topic. *)
Record cwf_but (k0 : SubKey) (c : Client) : Prop := MkCwfBut {
  cb_sub : forall x, x ∈ c_held c -> topic x <> k0 -> topic x ∈ c_subscribed c;
  cb_topics : forall k, k <> k0 -> k <> order_key -> k ∈ c_subscribed c -> exists x, x ∈ c_held c /\ topic x = k;
  cb_kinds : forall k, k <> k0 -> c_kinds c !! k = if decide (k ∈ c_subscribed c) then Some (mask k c) else None;
  cb_keys : forall i, Md i ∈ c_held c -> md_key i <> pnl_key /\ md_key i <> order_key;
  cb_brackets : HBrackets ∈ c_held c -> HOrder ∈ c_held c
}.

Lemma has_bars_spec k c : has_bars k c = true <-> exists b p, Md (TimeBars k b p) ∈ c_held c.
Proof.
  unfold has_bars. rewrite existsb_exists. split.
  - intros (x & Hin & Hx). apply list_elem_of_In, elem_of_elements in Hin.
    destruct x as [[| |k' b p]| | |]; try done. apply bool_decide_eq_true in Hx. subst. eauto.
  - intros (b & p & Hin). exists (Md (TimeBars k b p)). split; [|by apply bool_decide_eq_true].
    by apply list_elem_of_In, elem_of_elements.
Qed.

Lemma mask_ext_kinds k c c' :
  (forall i, md_key i = k -> Md i ∈ c_held c <-> Md i ∈ c_held c') ->
  (k = order_key -> HBrackets ∈ c_held c <-> HBrackets ∈ c_held c') -> mask k c = mask k c'.
Proof.
  intros H Hb. unfold mask, client_has.
  rewrite (bool_decide_ext (Md (Ticker k) ∈ c_held c) (Md (Ticker k) ∈ c_held c')) by (by apply H).
  rewrite (bool_decide_ext (Md (Book k) ∈ c_held c) (Md (Book k) ∈ c_held c')) by (by apply H).
  replace (has_bars k c) with (has_bars k c').
  2: { apply eq_true_iff_eq. rewrite !has_bars_spec. by split; intros (b & p & ?); exists b, p; apply H. }
  destruct (decide (k = order_key)) as [->|Hne].
  - by rewrite (bool_decide_ext (HBrackets ∈ c_held c) (HBrackets ∈ c_held c')) by (by apply Hb).
  - rewrite (bool_decide_eq_false_2 (k = order_key)) by done. by rewrite !andb_false_r.
Qed.

Lemma mask_ext k c c' : (forall x, topic x = k -> x ∈ c_held c <-> x ∈ c_held c') -> mask k c = mask k c'.
Proof. intros H. apply mask_ext_kinds; [intros i Hi; by apply H|intros ->; by apply H]. Qed.

Lemma mask_none k c : (forall x, topic x = k -> x ∉ c_held c) -> mask k c = 0%Z.
Proof.
  intros H. rewrite (mask_ext k c client_new); [reflexivity|]. intros x Hx. split; [by intros ?%H|set_solver].
Qed.

Lemma cwf_topic_ok k c : cwf c -> topic_ok k c.
Proof. intros Hc. split; [intros x Hx <-; by apply (cw_sub _ Hc)|apply (cw_topics _ Hc)]. Qed.

(** A topic kept for what is held on it. *)
Lemma topic_ok_in k c : k ∈ c_subscribed c -> (k <> order_key -> exists x, x ∈ c_held c /\ topic x = k) -> topic_ok k c.
Proof. intros Hk Hx. split; auto. Qed.

Section ClientFacts.
Context (k0 : SubKey).
Implicit Types (c : Client).

Lemma cwf_weaken c : cwf c -> cwf_but k0 c.
Proof. intros [H1 H1' H2 H3 H4]. split; auto. Qed.

Lemma but_insert x c : cwf_but k0 c -> topic x = k0 ->
  (forall i, x = Md i -> md_key i <> pnl_key /\ md_key i <> order_key) ->
  (x = HBrackets -> HOrder ∈ c_held c) -> cwf_but k0 (c_insert x c).
Proof.
  intros [H1 H1' H2 H3 H4] Hx Hk Hb. split; simpl.
  - intros y [->%elem_of_singleton|Hy]%elem_of_union Ht; [by destruct Ht|by apply H1].
  - intros k Hne Ho Hin. destruct (H1' k Hne Ho Hin) as (y & Hy & Ht). exists y. set_solver.
  - intros k Hne. rewrite (H2 k Hne). destruct (decide (k ∈ c_subscribed c)); [|done]. f_equal.
    apply mask_ext. intros y Hy. simpl. set_solver.
  - intros i [Hi%elem_of_singleton|Hi]%elem_of_union; [by apply Hk|by apply H3].
  - intros [Hi%elem_of_singleton|Hi]%elem_of_union; set_solver.
Qed.

Lemma but_remove x c : cwf_but k0 c -> topic x = k0 ->
  (x = HOrder -> HBrackets ∉ c_held c) -> cwf_but k0 (c_remove x c).
Proof.
  intros [H1 H1' H2 H3 H4] Hx Hb. split; simpl.
  - intros y [Hy _]%elem_of_difference Ht. by apply H1.
  - intros k Hne Ho Hin. destruct (H1' k Hne Ho Hin) as (y & Hy & Ht). exists y. set_solver.
  - intros k Hne. rewrite (H2 k Hne). destruct (decide (k ∈ c_subscribed c)); [|done]. f_equal.
    apply mask_ext. intros y Hy. simpl. set_solver.
  - intros i [Hi _]%elem_of_difference. by apply H3.
  - intros [Hi Hn]%elem_of_difference. apply elem_of_difference. split; [by apply H4|].
    intros E%elem_of_singleton. by apply Hb.
Qed.

Lemma but_sync c : cwf_but k0 c -> cwf_but k0 (sync_kinds k0 c).
Proof.
  intros [H1 H1' H2 H3 H4]. split; simpl; try done. intros k Hne. unfold sync_kinds. simpl.
  destruct (_ && _); rewrite ?lookup_delete_ne, ?lookup_insert_ne by done; by apply H2.
Qed.

Lemma but_ensure h c : cwf_but k0 c -> cwf_but k0 (ensure_delivery k0 h c).
Proof.
  intros Hc. unfold ensure_delivery. destruct (bool_decide (k0 ∈ c_subscribed c)); [done|].
  destruct Hc as [H1 H1' H2 H3 H4].
  assert (Hk : forall k, k <> k0 ->
    (match c_kinds c !! k0 with Some _ => c_kinds c | None => <[k0 := 0%Z]> (c_kinds c) end) !! k = c_kinds c !! k).
  { intros k Hne. destruct (c_kinds c !! k0); [done|]. by rewrite lookup_insert_ne. }
  destruct (bool_decide (is_Some _)); split; simpl; try done.
  - intros x Hx Ht. apply elem_of_union. right. by apply H1.
  - intros k Hne Ho Hin. apply H1'; [done|done|]. set_solver.
  - intros k Hne. rewrite Hk, (H2 k Hne) by done. change (mask k (MkClient _ _ _)) with (mask k c).
    destruct (decide (k ∈ c_subscribed c)), (decide (k ∈ {[k0]} ∪ c_subscribed c)); set_solver.
  - intros k Hne. rewrite Hk by done. exact (H2 k Hne).
Qed.

(** Putting the topic right. *)
Lemma but_close c : cwf_but k0 c -> topic_ok k0 c ->
  c_kinds c !! k0 = (if decide (k0 ∈ c_subscribed c) then Some (mask k0 c) else None) -> cwf c.
Proof.
  intros [H1 H1' H2 H3 H4] [Ht Ht'] Hk. split; try done.
  - intros x Hx. destruct (decide (topic x = k0)) as [E|E]; [rewrite E; by apply (Ht x)|by apply H1].
  - intros k. destruct (decide (k = k0)) as [->|Hne]; [done|by apply H1'].
  - intros k. destruct (decide (k = k0)) as [->|Hne]; [done|by apply H2].
Qed.

Lemma sync_close c : cwf_but k0 c -> topic_ok k0 c -> cwf (sync_kinds k0 c).
Proof.
  intros Hc Ht. apply but_close; [by apply but_sync|done|]. simpl.
  change (mask k0 (sync_kinds k0 c)) with (mask k0 c).
  destruct (decide (k0 ∈ c_subscribed c)) as [Hin|Hin].
  - rewrite (bool_decide_eq_true_2 (k0 ∈ c_subscribed c)) by done. rewrite andb_false_r. by rewrite lookup_insert_eq.
  - rewrite (bool_decide_eq_false_2 (k0 ∈ c_subscribed c)) by done.
    rewrite mask_none by (intros x Hx Hin'; by apply Hin, (proj1 Ht x)).
    simpl. by rewrite lookup_delete_eq.
Qed.

Lemma drop_close c : cwf_but k0 c -> (forall x, topic x = k0 -> x ∉ c_held c) -> cwf (drop_delivery k0 c).
Proof.
  intros [H1 H1' H2 H3 H4] Hn. split; simpl; try done.
  - intros x Hx. assert (topic x <> k0) by (intros E; by apply (Hn x)). apply elem_of_difference.
    split; [by apply H1|set_solver].
  - intros k Ho Hin. apply H1'; set_solver.
  - intros k. destruct (decide (k = k0)) as [->|Hne].
    + rewrite decide_False by set_solver. by rewrite lookup_delete_eq.
    + rewrite lookup_delete_ne, (H2 k Hne) by done.
      change (mask k (drop_delivery k0 c)) with (mask k c).
      destruct (decide (k ∈ c_subscribed c)), (decide (k ∈ c_subscribed c ∖ {[k0]})); set_solver.
Qed.
End ClientFacts.

Lemma wants_md_spec k c : (forall x, topic x = k -> exists i, x = Md i) ->
  wants_md k c = true <-> exists x, x ∈ c_held c /\ topic x = k.
Proof.
  intros Hmd. unfold wants_md, client_has. rewrite !orb_true_iff, !bool_decide_eq_true, has_bars_spec. split.
  - intros [[H|H]|(b & p & H)]; by eexists.
  - intros (x & Hx & Ht). destruct (Hmd x Ht) as [[k'|k'|k' b p] ->]; simpl in Ht; subst; eauto.
Qed.

(** ** Facts: what is held is fed *)

(** A held subscription is joined at the venue, known to be degraded, about to be
    restored, or behind a full rebuild that was asked for. *)
Definition ok_at (h : Host) (x : Held) : Prop :=
  1 <= at_ (h_counts h) x ->
  x ∈ h_venue h \/ (exists i, x = Md i /\ i ∈ h_degraded h) \/ x ∈ h_pending h \/
  h_force h = true.

(** All of it but for the subscriptions in [P]. *)
Record hwf_but (P : Held -> Prop) (h : Host) : Prop := MkHwf {
  hw_fed : forall x, ~ P x -> ok_at h x;
  hw_degraded : forall i, ~ P (Md i) -> i ∈ h_degraded h -> 1 <= at_ (h_counts h) (Md i);
  hw_ready : h_ready h = true -> h_pending h = ∅ /\ h_force h = false
}.
Definition hwf : Host -> Prop := hwf_but (fun _ => False).

Section HostFacts.
Context (P : Held -> Prop).
Implicit Types (h : Host).

Lemma hwf_weaken h : hwf h -> hwf_but P h.
Proof. intros [H1 H2 H3]. split; naive_solver. Qed.

Lemma hwf_close h : hwf_but P h -> (forall x, P x -> ok_at h x) ->
  (forall i, P (Md i) -> i ∈ h_degraded h -> 1 <= at_ (h_counts h) (Md i)) -> (forall x, P x \/ ~ P x) -> hwf h.
Proof.
  intros [H1 H2 H3] Hx Hd Hdec. split; [| |done].
  - intros x _. destruct (Hdec x); auto.
  - intros i _. destruct (Hdec (Md i)); auto.
Qed.

(** Operations that only touch the hole. *)
Lemma but_frame h h' :
  hwf_but P h -> (forall x, ~ P x -> at_ (h_counts h') x = at_ (h_counts h) x) ->
  (forall x, ~ P x -> x ∈ h_venue h' <-> x ∈ h_venue h) ->
  (forall i, ~ P (Md i) -> i ∈ h_degraded h' <-> i ∈ h_degraded h) ->
  h_ready h' = h_ready h -> h_force h' = h_force h -> h_pending h' = h_pending h -> hwf_but P h'.
Proof.
  intros [H1 H2 H3] Ec Ev Ed Er Ef Ep. split.
  - intros x Hx. unfold ok_at. rewrite (Ec x Hx), (Ev x Hx), Ep, Ef. intros Hc.
    destruct (H1 x Hx Hc) as [?|[(i & -> & Hi)|?]]; [by left| |by right; right].
    right; left. exists i. split; [done|]. by apply Ed.
  - intros i Hi Hd. rewrite (Ec _ Hi). apply H2; [done|]. by apply Ed.
  - by rewrite Er, Ep, Ef.
Qed.

Lemma but_note x h : P x -> hwf_but P h -> hwf_but P (note x h).2.
Proof.
  intros Hx Hh. destruct (note_fields x h) as (E1 & _ & E3 & E4 & E5 & E6 & E7). apply (but_frame h); try done.
  intros y Hy. rewrite E1, bump_at, decide_False by (by intros ->). lia.
Qed.

Lemma but_forget x h : P x -> hwf_but P h -> hwf_but P (forget x h).2.
Proof.
  intros Hx Hh. destruct (forget_counts x h) as (E1 & _ & E3 & E4 & E5 & E6 & E7). apply (but_frame h); try done.
  - intros y Hy. rewrite E1, drop_at, decide_False by (by intros ->). lia.
  - by rewrite E3.
  - intros i Hi. rewrite E7. destruct x as [j| | |]; try done. destruct (forget (Md j) h).1; [|done].
    assert (i <> j) by (by intros ->). set_solver.
Qed.

Lemma but_venue f h : (forall v x, ~ P x -> x ∈ f v <-> x ∈ v) -> hwf_but P h -> hwf_but P (with_venue f h).
Proof. intros Hf Hh. apply (but_frame h); try done. intros x Hx. simpl. by apply Hf. Qed.

Lemma but_degraded f h : (forall v i, ~ P (Md i) -> i ∈ f v <-> i ∈ v) -> hwf_but P h -> hwf_but P (with_degraded f h).
Proof. intros Hf Hh. apply (but_frame h); try done. intros x Hx. simpl. by apply Hf. Qed.

Lemma but_mark i h : P (Md i) -> hwf_but P h -> hwf_but P (mark_degraded i h).
Proof.
  intros Hi Hh. unfold mark_degraded. destruct (held (Md i) h); [|done]. apply but_degraded; [|done].
  intros v j Hj. assert (j <> i) by (by intros ->). set_solver.
Qed.

Lemma but_clear i h : P (Md i) -> hwf_but P h -> hwf_but P (clear_degraded i h).
Proof.
  intros Hi Hh. apply but_degraded; [|done]. intros v j Hj. assert (j <> i) by (by intros ->). set_solver.
Qed.

Lemma but_hub f h : hwf_but P h -> hwf_but P (with_hub f h).
Proof. intros Hh. by apply (but_frame h). Qed.
End HostFacts.

(** The calls of a request that change nothing the counters see. *)
Definition same_books (h h' : Host) : Prop :=
  h_counts h' = h_counts h /\ h_hub h' = h_hub h /\ h_ready h' = h_ready h /\
  h_force h' = h_force h /\ h_pending h' = h_pending h.

Lemma venue_join_spec ans i h :
  let '(ok, h') := venue_join ans i h in
  same_books h h' /\ h_degraded h' = h_degraded h /\
  (ok = true -> Md i ∈ h_venue h') /\ (ok = false -> h' = h) /\
  (hwf_but (eq (Md i)) h -> hwf_but (eq (Md i)) h').
Proof.
  unfold venue_join. destruct (ans (CJoin i)); [|done]. split_and!; try done; [set_solver|].
  intros Hh. apply but_venue; [set_solver|done].
Qed.

Lemma refresh_spec ans k h :
  let '(ok, h') := refresh_book ans k h in
  same_books h h' /\ h_degraded h' = h_degraded h /\ (ok = true -> Md (Book k) ∈ h_venue h') /\
  (hwf_but (eq (Md (Book k))) h -> hwf_but (eq (Md (Book k))) h').
Proof.
  unfold refresh_book, venue_leave. destruct (ans (CLeave (Book k))); [|done].
  unfold venue_join. destruct (ans (CJoin (Book k))); split_and!; try done; try set_solver;
    intros Hh; repeat apply but_venue; try done; set_solver.
Qed.

(** One client's books, its own state, and the host's. *)
Record inv (o : Held -> nat) (ho : SubKey -> nat) (h : Host) (c : Client) : Prop := MkInv {
  in_local : local o ho h c;
  in_client : cwf c;
  in_host : hwf h
}.

Section Requests_ok.
Context (o : Held -> nat) (ho : SubKey -> nat) (ans : Answers).
Implicit Types (h : Host) (c : Client).

Lemma has_true x c : client_has x c = true <-> x ∈ c_held c.
Proof. unfold client_has. by rewrite bool_decide_eq_true. Qed.
Lemma has_false x c : client_has x c = false <-> x ∉ c_held c.
Proof. unfold client_has. by rewrite bool_decide_eq_false. Qed.

(** Attaching to a topic. *)
Lemma attach_spec k h c : local o ho h c -> cwf c ->
  let '(had, h1, c1) := attach_shared_topic k h c in
  had = bool_decide (k ∈ c_subscribed c) /\ local o ho h1 c1 /\ cwf_but k c1 /\ c_held c1 = c_held c /\
  c_subscribed c1 = {[k]} ∪ c_subscribed c /\
  c_kinds c1 !! k = Some (if had then mask k c else 0%Z) /\
  (exists f, h1 = with_hub f h).
Proof.
  intros Hl Hc. unfold attach_shared_topic. case_bool_decide as Hk.
  - unfold ensure_delivery. rewrite bool_decide_eq_true_2 by done. split_and!; try done.
    + by apply cwf_weaken.
    + set_solver.
    + by rewrite (cw_kinds _ Hc), decide_True.
    + exists (fun m => m). by destruct h.
  - destruct (add_hub_local o ho k h c Hl Hk) as [Hl1 Hs]. split_and!; try done.
    + apply but_ensure. by apply cwf_weaken.
    + unfold ensure_delivery. repeat case_match; done.
    + unfold ensure_delivery. rewrite (bool_decide_eq_false_2 (k ∈ c_subscribed c)) by done.
      rewrite (cw_kinds _ Hc k), decide_False by done.
      destruct (bool_decide _); simpl; by rewrite lookup_insert_eq.
    + by eexists.
Qed.

(** Undoing it, when the client is left with what it held before. *)
Lemma rollback_spec k had h c c0 : local o ho h c -> cwf c0 -> cwf_but k c -> k <> order_key ->
  had = bool_decide (k ∈ c_subscribed c0) -> c_subscribed c = {[k]} ∪ c_subscribed c0 -> c_held c = c_held c0 ->
  c_kinds c !! k = (if had then Some (mask k c) else c_kinds c !! k) ->
  let '(h', c') := rollback_shared_topic k had h c in
  local o ho h' c' /\ cwf c' /\ (exists f, h' = with_hub f h).
Proof.
  intros Hl H0 Hb Hne -> Hs Hh Hk. unfold rollback_shared_topic. case_bool_decide as Hin.
  - split; [done|]. split; [|exists (fun m => m); by destruct h]. apply (but_close k); [done| |].
    + apply topic_ok_in; [set_solver|]. intros _. rewrite Hh. by apply (cw_topics _ H0).
    + rewrite decide_True by set_solver. exact Hk.
  - split_and!; [apply remove_hub_local; [done|set_solver]| |by eexists].
    apply drop_close; [done|]. intros x Hx Hin'. apply Hin. rewrite <- Hx. apply (cw_sub _ H0). by rewrite <- Hh.
Qed.

Lemma note_hub x f h : note x (with_hub f h) = ((note x h).1, with_hub f (note x h).2).
Proof. unfold note. simpl. by destruct (bump x (h_counts h)). Qed.

Lemma held_spec x h : nonzero (h_counts h) -> held x h = true <-> 1 <= at_ (h_counts h) x.
Proof. intros Hn. unfold held. rewrite bool_decide_eq_true. by apply at_dom. Qed.

Lemma mark_in i h : nonzero (h_counts h) -> 1 <= at_ (h_counts h) (Md i) -> i ∈ h_degraded (mark_degraded i h).
Proof. intros Hn Hc. unfold mark_degraded. rewrite (proj2 (held_spec (Md i) h Hn) Hc). simpl. set_solver. Qed.

Lemma mark_books i h : same_books h (mark_degraded i h) /\ h_venue (mark_degraded i h) = h_venue h.
Proof. unfold mark_degraded. by destruct (held (Md i) h). Qed.

Lemma same_local h h' c : same_books h h' -> local o ho h c -> local o ho h' c.
Proof. intros (E1 & E2 & _) Hl. by apply (local_frame o ho h c). Qed.

Lemma hole_close x h : hwf_but (eq x) h -> ok_at h x ->
  (forall i, x = Md i -> i ∈ h_degraded h -> 1 <= at_ (h_counts h) (Md i)) -> hwf h.
Proof.
  intros Hb Hx Hd. apply (hwf_close (eq x)); [done|by intros ? <-|naive_solver|]. intros y. destruct (decide (x = y)); auto.
Qed.

Lemma local_at x h c : local o ho h c -> x ∈ c_held c -> 1 <= at_ (h_counts h) x.
Proof. intros Hl Hx. rewrite (lo_counts _ _ _ _ Hl), (proj2 (has_true x c) Hx). simpl. lia. Qed.

(** Joining or refreshing on behalf of the holders. *)
Definition rejoin (i : MdIntent) (h : Host) : bool * Host :=
  match i with Book k => refresh_book ans k h | _ => venue_join ans i h end.

Lemma rejoin_spec i h : hwf_but (eq (Md i)) h ->
  let '(ok, h') := rejoin i h in
  same_books h h' /\ h_degraded h' = h_degraded h /\ hwf_but (eq (Md i)) h' /\ (ok = true -> Md i ∈ h_venue h').
Proof.
  intros Hb. unfold rejoin. destruct i as [k|k|k b p].
  - pose proof (venue_join_spec ans (Ticker k) h) as Hv. destruct (venue_join ans (Ticker k) h). naive_solver.
  - pose proof (refresh_spec ans k h) as Hv. destruct (refresh_book ans k h). naive_solver.
  - pose proof (venue_join_spec ans (TimeBars k b p) h) as Hv. destruct (venue_join ans (TimeBars k b p) h). naive_solver.
Qed.

Lemma rejoin_degraded_ok i h : hwf h ->
  let '(_, h') := rejoin_degraded ans i h in same_books h h' /\ hwf h'.
Proof.
  intros Hh. unfold rejoin_degraded. destruct (is_degraded i h) eqn:Ed; [|done].
  destruct (h_ready h); [|done]. cbn [negb]. fold (rejoin i h).
  apply bool_decide_eq_true in Ed. pose proof (hw_degraded _ _ Hh i ltac:(tauto) Ed) as Hheld.
  pose proof (rejoin_spec i h (hwf_weaken _ h Hh)) as Hv. destruct (rejoin i h) as [ok h1].
  destruct Hv as (Hs & Edg & Hb & Hok). pose proof Hs as (E1 & _). destruct ok.
  - split; [done|]. apply (hole_close (Md i)); [by apply but_clear| |].
    + intros _. left. by apply Hok.
    + intros j [= <-] Hd. simpl in Hd. set_solver.
  - split; [done|]. apply (hole_close (Md i)); [done| |].
    + intros _. right; left. exists i. by rewrite Edg.
    + intros j [= <-] _. by rewrite E1.
Qed.

(** A repeated subscribe: the books stay, a book is refreshed. *)
Lemma resubscribe_ok i h c :
  inv o ho h c -> Md i ∈ c_held c ->
  let '(_, h', c') := subscribe_topic ans i h c in inv o ho h' c' /\ c' = c.
Proof.
  intros [Hl Hc Hh] Hi. unfold subscribe_topic. rewrite (proj2 (has_true _ _) Hi).
  destruct (is_degraded i h) eqn:Ed.
  { pose proof (rejoin_degraded_ok i h Hh) as Hr. destruct (rejoin_degraded ans i h) as [ok h1].
    destruct Hr as [Hs ?]. split; [|done]. split; [by apply (same_local h)|done|done]. }
  destruct i as [k|k|k b p]; [by (split; [by split|])| |by (split; [by split|])].
  destruct (h_ready h); [|by (split; [by split|])]. cbn [negb].
  pose proof (rejoin_spec (Book k) h (hwf_weaken _ h Hh)) as Hv. unfold rejoin in Hv.
  destruct (refresh_book ans k h) as [ok h1]. destruct Hv as (Hs & Edg & Hb & Hok). pose proof Hs as (E1 & _).
  pose proof (local_at _ _ _ Hl Hi) as Hat.
  destruct ok; (split; [|done]); split; try done.
  - by apply (same_local h).
  - apply (hole_close (Md (Book k))); [done| |]; [intros _; left; by apply Hok|]. intros j [= <-] _. by rewrite E1.
  - destruct (mark_books (Book k) h1) as [Hm _]. apply (same_local h1); [done|]. by apply (same_local h).
  - destruct (mark_books (Book k) h1) as [Hm _]. pose proof Hm as (Em & _).
    apply (hole_close (Md (Book k))); [by apply but_mark| |].
    + intros _. right; left. exists (Book k). split; [done|]. apply mark_in; [|by rewrite E1].
      rewrite E1. apply Hl.
    + intros j [= <-] _. by rewrite Em, E1.
Qed.

(** The venue call of a fresh subscribe. *)
Definition fresh_join (i : MdIntent) (refresh : bool) (h : Host) : bool * Host :=
  if negb (h_ready h) then (false, h) else if refresh then refresh_book ans (md_key i) h else venue_join ans i h.

Lemma fresh_join_spec i refresh h : (refresh = true -> exists k, i = Book k) -> hwf_but (eq (Md i)) h ->
  let '(ok, h') := fresh_join i refresh h in
  same_books h h' /\ h_degraded h' = h_degraded h /\ hwf_but (eq (Md i)) h' /\ (ok = true -> Md i ∈ h_venue h').
Proof.
  intros Hr Hb. unfold fresh_join. destruct (h_ready h); [|done]. cbn [negb]. destruct refresh.
  - destruct (Hr eq_refl) as [k ->]. exact (rejoin_spec (Book k) h Hb).
  - pose proof (venue_join_spec ans i h) as Hv. destruct (venue_join ans i h). naive_solver.
Qed.

Lemma client_sync_local h c k : local o ho h c -> local o ho h (sync_kinds k c).
Proof. intros Hl. by apply (local_frame o ho h c). Qed.

(** A failed fresh subscribe leaves the books as they were. *)
Lemma undo_fresh i h4 c c2 had :
  local o ho h4 c2 -> cwf c -> cwf c2 -> Md i ∉ c_held c -> c_held c2 = {[Md i]} ∪ c_held c ->
  c_subscribed c2 = {[md_key i]} ∪ c_subscribed c -> had = bool_decide (md_key i ∈ c_subscribed c) ->
  md_key i <> order_key -> hwf_but (eq (Md i)) h4 -> (o (Md i) <> 0 -> i ∈ h_degraded h4) ->
  let '(h6, c6) := rollback_shared_topic (md_key i) had (forget (Md i) h4).2 (client_remove i c2) in
  inv o ho h6 c6 /\ c_held c6 = c_held c.
Proof.
  intros Hl Hc Hc2 Hi Hh Hs Hhad Hko Hb Hdg.
  assert (Hi2 : Md i ∈ c_held c2) by set_solver.
  pose proof (forget_local o ho (Md i) h4 c2 Hl Hi2) as Hl5.
  pose proof (forget_last o ho (Md i) h4 c2 Hl Hi2) as Hlast.
  pose proof (client_sync_local _ _ (md_key i) Hl5) as Hl5'. fold (client_remove i c2) in Hl5'.
  assert (Hheld : c_held (client_remove i c2) = c_held c).
  { simpl. rewrite Hh. apply set_eq. intros x. destruct (decide (x = Md i)); set_solver. }
  assert (Hbut : cwf_but (md_key i) (client_remove i c2)).
  { apply but_sync. apply but_remove; [by apply cwf_weaken|done|done]. }
  pose proof (rollback_spec (md_key i) had (forget (Md i) h4).2 (client_remove i c2) c Hl5' Hc Hbut Hko Hhad Hs Hheld) as Hr.
  assert (Hk : c_kinds (client_remove i c2) !! md_key i
               = if had then Some (mask (md_key i) (client_remove i c2)) else c_kinds (client_remove i c2) !! md_key i).
  { destruct had; [|done]. unfold client_remove, sync_kinds. simpl. rewrite Hs.
    rewrite (bool_decide_eq_true_2 (md_key i ∈ _)) by set_solver. rewrite andb_false_r, lookup_insert_eq. done. }
  specialize (Hr Hk). clear Hk. 
  assert (Hch : c_held (rollback_shared_topic (md_key i) had (forget (Md i) h4).2 (client_remove i c2)).2 = c_held c)
    by (unfold rollback_shared_topic; by destruct had).
  destruct (rollback_shared_topic _ _ _ _) as [h6 c6]. simpl in Hch. destruct Hr as (Hl6 & Hc6 & f & ->).
  split; [|done]. split; [done|done|].
  destruct (forget_counts (Md i) h4) as (_ & _ & _ & _ & _ & _ & Edg). rewrite Hlast in Edg.
  assert (Hat : at_ (h_counts (with_hub f (forget (Md i) h4).2)) (Md i) = o (Md i)).
  { rewrite (lo_counts _ _ _ _ Hl6). unfold client_has. rewrite Hch, bool_decide_eq_false_2 by done. simpl. lia. }
  apply (hole_close (Md i)); [by apply but_hub, but_forget| |].
  - intros Hge. rewrite Hat in Hge. right; left. exists i. split; [done|]. simpl. rewrite Edg.
    destruct (Nat.eqb_spec (o (Md i)) 0) as [E|E]; [lia|]. by apply Hdg.
  - intros j [= <-] Hd. rewrite Hat. simpl in Hd. rewrite Edg in Hd.
    destruct (Nat.eqb_spec (o (Md i)) 0) as [E|E]; [set_solver|lia].
Qed.

(** Subscribing anew: all of it, or nothing. *)
Lemma fresh_subscribe_ok i h c :
  inv o ho h c -> md_key i <> pnl_key -> md_key i <> order_key -> Md i ∉ c_held c ->
  let '(ok, h', c') := subscribe_topic ans i h c in
  inv o ho h' c' /\ c_held c' = (if ok then {[Md i]} ∪ c_held c else c_held c).
Proof.
  intros [Hl Hc Hh] Hk1 Hk2 Hi. unfold subscribe_topic. rewrite (proj2 (has_false _ _) Hi).
  pose proof (attach_spec (md_key i) h c Hl Hc) as Ha.
  destruct (attach_shared_topic (md_key i) h c) as [[had h1] c1].
  destruct Ha as (Hhad & Hl1 & Hb1 & Hh1 & Hs1 & _ & f & ->).
  assert (Hi1 : Md i ∉ c_held c1) by (by rewrite Hh1).
  pose proof (note_local o ho (Md i) (with_hub f h) c1 Hl1 Hi1) as Hl2.
  pose proof (note_first o ho (Md i) (with_hub f h) c1 Hl1 Hi1) as Hfirst.
  destruct (note_fields (Md i) (with_hub f h)) as (N1 & N2 & N3 & N4 & N5 & N6 & N7).
  pose proof (but_note (eq (Md i)) (Md i) (with_hub f h) eq_refl (but_hub _ f h (hwf_weaken _ h Hh))) as Hb2.
  destruct (note (Md i) (with_hub f h)) as [first h2]. cbn [fst snd] in *. subst first.
  apply (client_sync_local _ _ (md_key i)) in Hl2. fold (client_insert i c1) in Hl2.
  assert (Hh2 : c_held (client_insert i c1) = {[Md i]} ∪ c_held c) by (simpl; by rewrite Hh1).
  assert (Hc2 : cwf (client_insert i c1)).
  { apply sync_close; [apply but_insert; [done|done|naive_solver|done]|].
    apply topic_ok_in; [simpl; rewrite Hs1; set_solver|]. intros _. exists (Md i). split; [simpl; set_solver|done]. }
  assert (Hat2 : at_ (h_counts h2) (Md i) = S (o (Md i))).
  { rewrite (lo_counts _ _ _ _ Hl2), (proj2 (has_true _ _)) by (rewrite Hh2; set_solver). simpl. lia. }
  assert (Hat : at_ (h_counts h) (Md i) = o (Md i)).
  { rewrite (lo_counts _ _ _ _ Hl), (proj2 (has_false _ _)) by done. simpl. lia. }
  set (refresh := negb (o (Md i) =? 0) && match i with Book _ => true | _ => false end).
  fold (fresh_join i refresh h2).
  assert (Hrk : refresh = true -> exists k, i = Book k).
  { unfold refresh. intros [_ Hr]%andb_true_iff. destruct i; try done. eauto. }
  pose proof (fresh_join_spec i refresh h2 Hrk Hb2) as Hj. clearbody refresh.
  remember (negb (o (Md i) =? 0) && is_degraded i h2) as dg eqn:Edgf.
  destruct ((o (Md i) =? 0) || dg || refresh) eqn:Ecall.
  2: { split; [|done]. split; [done|done|]. apply orb_false_iff in Ecall as [[E0 _]%orb_false_iff _].
    apply Nat.eqb_neq in E0. apply (hole_close (Md i)); [done| |intros j [= <-] _; lia].
    intros _. pose proof (hw_fed _ _ Hh (Md i) ltac:(tauto)) as Hf. unfold ok_at in Hf. rewrite Hat in Hf.
    rewrite N3, N7, N6, N5. apply Hf. lia. }
  destruct (fresh_join i refresh h2) as [joined h3]. destruct Hj as (Hs & Edg & Hb3 & Hok).
  pose proof Hs as (E1 & _). destruct joined.
  - split; [|done]. split; [destruct dg; (apply (same_local h2); [exact Hs|done])|done|].
    apply (hole_close (Md i)).
    + destruct dg; [by apply but_clear|done].
    + intros _. left. destruct dg; by apply Hok.
    + intros j [= <-] _. assert (1 <= at_ (h_counts h3) (Md i)) by (rewrite E1; lia). by destruct dg.
  - set (h4 := if refresh then mark_degraded i h3 else h3).
    assert (H4 : same_books h2 h4 /\ hwf_but (eq (Md i)) h4).
    { unfold h4. destruct refresh; [|done]. destruct (mark_books i h3) as [(M1 & M2 & M3 & M4 & M5) _].
      destruct Hs as (S1 & S2 & S3 & S4 & S5). split; [|by apply but_mark]. unfold same_books. split_and!; congruence. }
    destruct H4 as [Hs4 Hb4]. pose proof (same_local h2 h4 _ Hs4 Hl2) as Hl4.
    assert (Hdg : o (Md i) <> 0 -> i ∈ h_degraded h4).
    { intros Ho. unfold h4. destruct refresh eqn:Er.
      - apply mark_in; [rewrite E1; apply Hl2|rewrite E1; lia].
      - rewrite Edg. destruct (Nat.eqb_spec (o (Md i)) 0); [done|]. simpl in Ecall. rewrite orb_false_r in Ecall.
        subst dg. simpl in Ecall. by apply bool_decide_eq_true in Ecall. }
    pose proof (undo_fresh i h4 c (client_insert i c1) had Hl4 Hc Hc2 Hi Hh2 Hs1 Hhad Hk2 Hb4 Hdg) as Hu.
    by destruct (rollback_shared_topic _ _ _ _).
Qed.

Lemma leave_spec i h : hwf_but (eq (Md i)) h ->
  let '(ok, h') := venue_leave ans i h in
  same_books h h' /\ h_degraded h' = h_degraded h /\ hwf_but (eq (Md i)) h' /\
  ok = ans (CLeave i) /\ (ok = false -> h' = h).
Proof.
  intros Hb. unfold venue_leave. destruct (ans (CLeave i)); [|done]. split_and!; try done.
  apply but_venue; [set_solver|done].
Qed.

Lemma md_topics i k x : md_key i = k -> k <> pnl_key -> k <> order_key -> topic x = k -> exists j, x = Md j.
Proof. intros <- H1 H2 Hx. destruct x as [j| | |]; [eauto|by destruct H1|by destruct H2|by destruct H2]. Qed.

(** The books after the last or another holder let go. *)
Lemma forget_hwf x h c : local o ho h c -> x ∈ c_held c -> hwf h ->
  hwf_but (eq x) (forget x h).2 /\ hwf (forget x h).2.
Proof.
  intros Hl Hx Hh. pose proof (but_forget (eq x) x h eq_refl (hwf_weaken _ h Hh)) as Hb. split; [done|].
  pose proof (forget_local o ho x h c Hl Hx) as Hl1. pose proof (forget_last o ho x h c Hl Hx) as Hlast.
  destruct (forget_counts x h) as (E1 & E2 & E3 & E4 & E5 & E6 & E7).
  assert (Hat : at_ (h_counts (forget x h).2) x = o x).
  { rewrite (lo_counts _ _ _ _ Hl1), (proj2 (has_false _ _)) by (simpl; set_solver). simpl. lia. }
  apply (hole_close x); [done| |].
  - unfold ok_at. rewrite Hat, E3, E5, E6, E7, Hlast. intros Ho.
    destruct (hw_fed _ _ Hh x ltac:(tauto) (local_at _ _ _ Hl Hx)) as [?|[(i & -> & Hi)|?]]; [by left| |by right; right].
    right; left. exists i. split; [done|]. by destruct (Nat.eqb_spec (o (Md i)) 0); [lia|].
  - intros i -> Hd. rewrite Hat. rewrite E7, Hlast in Hd. destruct (Nat.eqb_spec (o (Md i)) 0); [set_solver|lia].
Qed.

Lemma reinsert x (s : gset Held) : x ∈ s -> {[x]} ∪ (s ∖ {[x]}) = s.
Proof. intros Hx. apply set_eq. intros y. destruct (decide (y = x)); set_solver. Qed.

(** Letting go: released, or (the leave failed) still held. *)
Lemma unsubscribe_topic_ok i h c :
  inv o ho h c -> (ans (CLeave i) = false -> i ∈ h_degraded h -> Md i ∈ h_venue h) ->
  let '(ok, h', c') := unsubscribe_topic ans i h c in
  inv o ho h' c' /\ c_held c' = (if ok then c_held c ∖ {[Md i]} else c_held c).
Proof.
  intros [Hl Hc Hh] Hans. unfold unsubscribe_topic. destruct (client_has (Md i) c) eqn:Ei; cbn [negb].
  2: { apply has_false in Ei. split; [by split|]. set_solver. }
  apply has_true in Ei. destruct (cw_keys _ Hc i Ei) as [Hk1 Hk2].
  pose proof (forget_local o ho (Md i) h c Hl Ei) as Hl1.
  pose proof (forget_last o ho (Md i) h c Hl Ei) as Hlast.
  destruct (forget_hwf (Md i) h c Hl Ei Hh) as [Hb1 Hh1].
  destruct (forget_counts (Md i) h) as (F1 & F2 & F3 & F4 & F5 & F6 & F7).
  destruct (forget (Md i) h) as [last h1]. cbn [fst snd] in *. subst last.
  apply (client_sync_local _ _ (md_key i)) in Hl1. fold (client_remove i c) in Hl1.
  assert (Hat1 : at_ (h_counts h1) (Md i) = o (Md i)).
  { rewrite (lo_counts _ _ _ _ Hl1), (proj2 (has_false _ _)) by (simpl; set_solver). simpl. lia. }
  assert (Hsub : md_key i ∈ c_subscribed c) by (by apply (cw_sub _ Hc (Md i))).
  assert (Hbut : cwf_but (md_key i) (c_remove (Md i) c)) by (apply but_remove; [by apply cwf_weaken|done|done]).
  assert (H2 : exists ok h2, (if o (Md i) =? 0 then venue_leave ans i h1 else (true, h1)) = (ok, h2) /\
    same_books h1 h2 /\ (ok = true -> hwf h2) /\ (ok = false -> h2 = h1 /\ ans (CLeave i) = false /\ o (Md i) = 0)).
  { destruct (Nat.eqb_spec (o (Md i)) 0) as [E|E]; [|by exists true, h1].
    pose proof (leave_spec i h1 Hb1) as Hv. destruct (venue_leave ans i h1) as [ok h2].
    destruct Hv as (Hs & Hd & Hb & Hok & Hf). pose proof Hs as (E1 & _). exists ok, h2. split_and!; try done.
    - intros _. apply (hole_close (Md i)); [done| |].
      + unfold ok_at. rewrite E1, Hat1. lia.
      + intros j [= <-]. rewrite Hd, F7. destruct (Nat.eqb_spec (o (Md i)) 0); [|done]. set_solver.
    - intros ->. by rewrite <- Hok, Hf. }
  destruct H2 as (ok & h2 & -> & Hs2 & Hok & Hfail). destruct ok.
  - pose proof (same_local h1 h2 _ Hs2 Hl1) as Hl2. specialize (Hok eq_refl).
    pose proof (wants_md_spec (md_key i) (client_remove i c)
      (fun x => md_topics i (md_key i) x eq_refl Hk1 Hk2)) as Hw.
    unfold release_md_if_unused. destruct (wants_md (md_key i) (client_remove i c)) eqn:Ew.
    + split; [|done]. split; [done| |done]. apply sync_close; [done|].
      apply topic_ok_in; [done|]. intros _. by apply Hw.
    + split; [|done]. split; [by apply remove_hub_local| |by apply but_hub].
      apply drop_close; [by apply but_sync|]. intros x Hx Hin. assert (false = true); [|done]. apply Hw. eauto.
  - destruct (Hfail eq_refl) as (-> & Ha & Ho).
    assert (Hni : Md i ∉ c_held (client_remove i c)) by (simpl; set_solver).
    pose proof (note_local o ho (Md i) h1 (client_remove i c) Hl1 Hni) as Hl3.
    apply (client_sync_local _ _ (md_key i)) in Hl3. fold (client_insert i (client_remove i c)) in Hl3.
    assert (Hhc : c_held (client_insert i (client_remove i c)) = c_held c) by (simpl; by apply reinsert).
    split; [|done]. split; [done| |].
    + apply sync_close; [apply but_insert; [by apply but_sync|done|naive_solver|done]|].
      apply topic_ok_in; [done|]. intros _. exists (Md i). split; [simpl; set_solver|done].
    + destruct (note_fields (Md i) h1) as (N1 & N2 & N3 & N4 & N5 & N6 & N7).
      apply (hole_close (Md i)); [by apply but_note| |].
      * intros _. rewrite N3, N5, N6, F3, F5, F6.
        destruct (hw_fed _ _ Hh (Md i) ltac:(tauto) (local_at _ _ _ Hl Ei)) as [?|[(j & [= <-] & Hd)|?]];
          [by left|left; by apply Hans|by right; right].
      * intros j [= <-] Hd. rewrite N7, F7 in Hd. destruct (Nat.eqb_spec (o (Md i)) 0); [set_solver|done].
Qed.

(** *** PnL *)

Lemma plain_close h x : account x = true -> hwf_but (eq x) h -> ok_at h x -> hwf h.
Proof. intros Hx Hb Ho. apply (hole_close x); [done|done|]. by intros i ->. Qed.

Lemma pnl_topic c x : cwf c -> x ∈ c_held c -> topic x = pnl_key -> x = HPnl.
Proof.
  intros Hc Hx Ht. destruct x as [i| | |]; try done. by destruct (cw_keys _ Hc i Hx).
Qed.

Lemma pnl_mask c : (forall i, Md i ∈ c_held c -> md_key i <> pnl_key) -> mask pnl_key c = 0%Z.
Proof.
  intros H. rewrite (mask_ext_kinds pnl_key c client_new); [reflexivity| |done].
  intros i Hi. split; [by intros Hin%H|set_solver].
Qed.

Lemma subscribe_pnl_ok h c : inv o ho h c ->
  let '(ok, h', c') := subscribe_pnl ans h c in inv o ho h' c' /\ (ok = false -> c_held c' = c_held c).
Proof.
  intros [Hl Hc Hh]. unfold subscribe_pnl. destruct (h_ready h); cbn [negb]; [|by split; [split|]].
  destruct (client_has HPnl c) eqn:Ei; [by split; [split|]|]. apply has_false in Ei.
  pose proof (attach_spec pnl_key h c Hl Hc) as Ha.
  destruct (attach_shared_topic pnl_key h c) as [[had h1] c1].
  destruct Ha as (Hhad & Hl1 & Hb1 & Hh1 & Hs1 & Hk1 & f & ->).
  assert (Hno : pnl_key ∉ c_subscribed c).
  { intros (x & Hx & Ht)%(cw_topics _ Hc); [|done]. by rewrite (pnl_topic c x Hc Hx Ht) in Hx. }
  rewrite bool_decide_eq_false_2 in Hhad by done. subst had.
  assert (Hi1 : HPnl ∉ c_held c1) by (by rewrite Hh1).
  pose proof (note_local o ho HPnl (with_hub f h) c1 Hl1 Hi1) as Hl2.
  pose proof (note_first o ho HPnl (with_hub f h) c1 Hl1 Hi1) as Hfirst.
  destruct (note_fields HPnl (with_hub f h)) as (N1 & N2 & N3 & N4 & N5 & N6 & N7).
  pose proof (but_note (eq HPnl) HPnl (with_hub f h) eq_refl (but_hub _ f h (hwf_weaken _ h Hh))) as Hb2.
  destruct (note HPnl (with_hub f h)) as [first h2]. cbn [fst snd] in *. subst first.
  assert (Hat : at_ (h_counts h) HPnl = o HPnl).
  { rewrite (lo_counts _ _ _ _ Hl), (proj2 (has_false _ _)) by done. simpl. lia. }
  assert (Hbut : cwf_but pnl_key (c_insert HPnl c1)) by (by apply but_insert).
  assert (Hc2 : cwf (c_insert HPnl c1)).
  { apply (but_close pnl_key); [done| |].
    - apply topic_ok_in; [simpl; rewrite Hs1; set_solver|]. intros _. exists HPnl. split; [simpl; set_solver|done].
    - simpl. rewrite Hk1, decide_True by (simpl; set_solver). f_equal. symmetry. apply pnl_mask.
      intros i Hi. by apply (cb_keys _ _ Hbut). }
  assert (Hj : exists joined h3, (if o HPnl =? 0 then pnl_join ans h2 else (ans CPnlSnapshot, h2)) = (joined, h3) /\
    same_books h2 h3 /\ hwf_but (eq HPnl) h3 /\ (joined = true -> hwf h3) /\ (o HPnl <> 0 -> h3 = h2)).
  { destruct (Nat.eqb_spec (o HPnl) 0) as [E|E].
    - unfold pnl_join. destruct (_ && _); [|by exists false, h2].
      assert (Hb3 : hwf_but (eq HPnl) (with_venue (fun v => {[HPnl]} ∪ v) h2)) by (apply but_venue; [set_solver|done]).
      eexists true, _. split_and!; try done. intros _. apply (plain_close _ HPnl); [done|done|].
      intros _. left. simpl. set_solver.
    - exists (ans CPnlSnapshot), h2. split_and!; try done. intros _. apply (plain_close _ HPnl); [done|done|].
      intros _. rewrite N3, N7, N6, N5. apply (hw_fed _ _ Hh HPnl ltac:(tauto)). lia. }
  destruct Hj as (joined & h3 & -> & Hs3 & Hb3 & Hok & Hsame). destruct joined.
  { split; [|done]. split; [by apply (same_local h2)|done|by apply Hok]. }
  assert (Hin : HPnl ∈ c_held (c_insert HPnl c1)) by (simpl; set_solver).
  pose proof (same_local h2 h3 _ Hs3 Hl2) as Hl3.
  pose proof (forget_local o ho HPnl h3 _ Hl3 Hin) as Hl5.
  assert (Hhc : c_held (c_remove HPnl (c_insert HPnl c1)) = c_held c).
  { simpl. rewrite Hh1. apply set_eq. intros x. destruct (decide (x = HPnl)); set_solver. }
  unfold rollback_shared_topic. split; [|by intros _; simpl in Hhc |- *].
  split.
  - apply remove_hub_local; [done|]. simpl. rewrite Hs1. set_solver.
  - apply drop_close; [by apply but_remove|]. intros x Hx Hxin. rewrite Hhc in Hxin. apply Hno. rewrite <- Hx. by apply (cw_sub _ Hc).
  - apply but_hub. apply (plain_close _ HPnl); [done|by apply but_forget|].
    intros Hge. destruct (forget_counts HPnl h3) as (F1 & F2 & F3 & F4 & F5 & F6 & F7).
    assert (Hat5 : at_ (h_counts (forget HPnl h3).2) HPnl = o HPnl).
    { rewrite (lo_counts _ _ _ _ Hl5), (proj2 (has_false _ _)) by (simpl; set_solver). simpl. lia. }
    rewrite Hat5 in Hge. rewrite F3, F5, F6, F7, (Hsame ltac:(lia)), N3, N5, N6, N7.
    apply (hw_fed _ _ Hh HPnl ltac:(tauto)). lia.
Qed.

(** Letting PnL go; the topic is left to the caller. *)
Lemma leave_pnl_ok rollback h c : local o ho h c -> hwf h ->
  let '(ok, h', c') := leave_pnl ans rollback h c in
  local o ho h' c' /\ (cwf_but pnl_key c -> cwf_but pnl_key c') /\ hwf h' /\ c_subscribed c' = c_subscribed c /\ c_kinds c' = c_kinds c /\
  (ok = true \/ rollback = false -> c_held c' = c_held c ∖ {[HPnl]}) /\
  (ok = false -> rollback = true -> c_held c' = c_held c).
Proof.
  intros Hl Hh. unfold leave_pnl. destruct (client_has HPnl c) eqn:Ei; cbn [negb].
  2: { apply has_false in Ei. split_and!; try done. intros _. set_solver. }
  apply has_true in Ei.
  pose proof (forget_local o ho HPnl h c Hl Ei) as Hl1. pose proof (forget_last o ho HPnl h c Hl Ei) as Hlast.
  destruct (forget_hwf HPnl h c Hl Ei Hh) as [Hb1 Hh1].
  destruct (forget_counts HPnl h) as (F1 & F2 & F3 & F4 & F5 & F6 & F7).
  destruct (forget HPnl h) as [last h1]. cbn [fst snd] in *. subst last.
  assert (Hc1 : cwf_but pnl_key c -> cwf_but pnl_key (c_remove HPnl c)) by (intros; by apply but_remove).
  destruct (Nat.eqb_spec (o HPnl) 0) as [E|E]; [|by split_and!]. cbn [negb].
  assert (Hat1 : at_ (h_counts h1) HPnl = 0).
  { rewrite (lo_counts _ _ _ _ Hl1), (proj2 (has_false _ _)) by (simpl; set_solver). simpl. lia. }
  unfold pnl_disconnect. destruct (ans CPnlDisconnect).
  - split_and!; try done; [by apply (local_frame o ho h1 (c_remove HPnl c))|].
    apply (plain_close _ HPnl); [done|apply but_venue; [set_solver|done]|]. unfold ok_at. simpl. lia.
  - destruct rollback; [|split_and!; try done; naive_solver].
    assert (Hni : HPnl ∉ c_held (c_remove HPnl c)) by (simpl; set_solver).
    pose proof (note_local o ho HPnl h1 _ Hl1 Hni) as Hl3.
    destruct (note_fields HPnl h1) as (N1 & N2 & N3 & N4 & N5 & N6 & N7).
    split_and!; try done; [intros Hc; by apply but_insert; [apply Hc1| | |]| |naive_solver|intros _ _; simpl; by apply reinsert].
    apply (plain_close _ HPnl); [done|by apply but_note|]. intros _. rewrite N3, N5, N6, N7, F3, F5, F6, F7.
    apply (hw_fed _ _ Hh HPnl ltac:(tauto)). by apply (local_at _ _ c).
Qed.

Lemma disconnect_pnl_ok h c : inv o ho h c ->
  let '(ok, h', c') := disconnect_pnl ans h c in
  inv o ho h' c' /\ c_held c' = (if ok then c_held c ∖ {[HPnl]} else c_held c).
Proof.
  intros [Hl Hc Hh]. unfold disconnect_pnl.
  pose proof (leave_pnl_ok true h c Hl Hh) as Hv.
  destruct (leave_pnl ans true h c) as [[ok h1] c1]. destruct Hv as (Hl1 & Hc1 & Hh1 & Hs1 & Hk1 & Hok & Hno).
  specialize (Hc1 (cwf_weaken _ c Hc)). destruct ok; cbn [negb].
  - specialize (Hok (or_introl eq_refl)). rewrite Hs1. case_bool_decide as Hin; (split; [|done]).
    + split; [apply remove_hub_local; [done|by rewrite Hs1]| |by apply but_hub].
      apply drop_close; [done|]. intros x Hx Hxin. rewrite Hok in Hxin. apply elem_of_difference in Hxin as [Hx1 Hx2].
      apply Hx2. apply elem_of_singleton. by apply (pnl_topic c).
    + split; [done| |done]. apply (but_close pnl_key); [done| |].
      * split; [|by rewrite Hs1]. rewrite Hok. intros x [Hx _]%elem_of_difference Ht. exfalso. apply Hin.
        rewrite <- Ht. by apply (cw_sub _ Hc).
      * rewrite Hk1, Hs1, decide_False by done. by rewrite (cw_kinds _ Hc), decide_False.
  - specialize (Hno eq_refl eq_refl). split; [|done]. split; [done| |done].
    apply (but_close pnl_key); [done| |]; [|rewrite Hs1, Hk1].
    { destruct (cwf_topic_ok pnl_key c Hc) as [T1 T2]. split; rewrite Hs1, Hno; done. }
    rewrite (cw_kinds _ Hc). destruct (decide _); [|done]. f_equal. apply mask_ext. by rewrite Hno.
Qed.

(** *** Orders and brackets *)

Definition on_order (x : Held) : Prop := x = HOrder \/ x = HBrackets.

Lemma order_close h : hwf_but on_order h -> ok_at h HOrder -> ok_at h HBrackets -> hwf h.
Proof.
  intros Hb H1 H2. apply (hwf_close on_order); [done|by intros x [-> | ->]|by intros i [|]|].
  intros x. unfold on_order. destruct (decide (x = HOrder)), (decide (x = HBrackets)); tauto.
Qed.

(** What fed a subscription still does. *)
Lemma still_fed h h' x : hwf h -> 1 <= at_ (h_counts h) x -> (x ∈ h_venue h -> x ∈ h_venue h') ->
  h_degraded h' = h_degraded h -> h_force h' = h_force h -> h_pending h' = h_pending h -> ok_at h' x.
Proof.
  intros Hh Hc Hv Ed Ef Ep _. rewrite Ed, Ef, Ep.
  destruct (hw_fed _ _ Hh x ltac:(tauto) Hc) as [?|?]; [left; by apply Hv|by right].
Qed.

Lemma order_topic c x : cwf c -> x ∈ c_held c -> topic x = order_key -> on_order x.
Proof.
  intros Hc Hx Ht. unfold on_order. destruct x as [i| | |]; try done; auto. by destruct (cw_keys _ Hc i Hx).
Qed.

Lemma order_mask x c : x = HOrder -> mask order_key (c_insert x c) = mask order_key c /\
  mask order_key (c_remove x c) = mask order_key c.
Proof. intros ->. split; apply mask_ext_kinds; intros; simpl; set_solver. Qed.

(** Nothing of [h] but the counters of orders and brackets changed. *)
Definition same_but_counts (h h' : Host) : Prop :=
  h_hub h' = h_hub h /\ h_venue h' = h_venue h /\ h_degraded h' = h_degraded h /\ h_ready h' = h_ready h /\
  h_force h' = h_force h /\ h_pending h' = h_pending h.

Lemma note_order_spec x h : on_order x -> same_but_counts h (note x h).2 /\ (hwf_but on_order h -> hwf_but on_order (note x h).2).
Proof.
  intros Hx. destruct (note_fields x h) as (N1 & N2 & N3 & N4 & N5 & N6 & N7). split; [done|]. by apply but_note.
Qed.

Lemma forget_order_spec x h : on_order x ->
  same_but_counts h (forget x h).2 /\ (hwf_but on_order h -> hwf_but on_order (forget x h).2).
Proof.
  intros Hx. destruct (forget_counts x h) as (F1 & F2 & F3 & F4 & F5 & F6 & F7). split; [|by apply but_forget].
  split_and!; try done. rewrite F7. by destruct Hx as [-> | ->].
Qed.

(** The joins of a subscribe. *)
Definition order_joins (first_order first_brackets : bool) (h : Host) : bool * Host :=
  let '(ok1, h4) := if first_order then order_join ans h else (true, h) in
  if ok1 && first_brackets then bracket_join ans h4 else (ok1, h4).

Lemma order_joins_spec fo fb h : hwf_but on_order h ->
  let '(ok, h') := order_joins fo fb h in
  same_books h h' /\ h_degraded h' = h_degraded h /\ hwf_but on_order h' /\ h_venue h ⊆ h_venue h' /\
  (ok = true -> fo = true -> HOrder ∈ h_venue h') /\ (ok = true -> fb = true -> HBrackets ∈ h_venue h') /\
  (fo = true -> ans COrderJoin = true -> HOrder ∈ h_venue h').
Proof.
  intros Hb. unfold order_joins, order_join, bracket_join.
  assert (Hv1 : forall x h0, on_order x -> hwf_but on_order h0 -> hwf_but on_order (with_venue (fun v => {[x]} ∪ v) h0)).
  { intros x h0 Hx H0. apply but_venue; [|done]. intros v y Hy. assert (y <> x) by (by intros ->). set_solver. }
  assert (Ho : on_order HOrder) by (by left). assert (Hbr : on_order HBrackets) by (by right).
  destruct fo, (ans COrderJoin), fb, (ans CBracketJoin); simpl; split_and!; try done; try set_solver; auto.
Qed.

Hypothesis Hob : o HOrder = 0 -> o HBrackets = 0.

Lemma order_disconnect_spec h : hwf_but on_order h ->
  let '(ok, h') := order_disconnect ans h in
  same_books h h' /\ h_degraded h' = h_degraded h /\ hwf_but on_order h' /\ ok = ans COrderDisconnect /\
  (ok = false -> h' = h).
Proof.
  intros Hb. unfold order_disconnect. destruct (ans COrderDisconnect); [|done]. split_and!; try done.
  apply but_venue; [|done]. intros v x Hx. unfold on_order in Hx. set_solver.
Qed.

Lemma at_of x h c : local o ho h c -> at_ (h_counts h) x = o x + b2n (client_has x c).
Proof. intros Hl. apply Hl. Qed.

Lemma not_has x c : x ∉ c_held c -> b2n (client_has x c) = 0.
Proof. intros H. by rewrite (proj2 (has_false _ _) H). Qed.

Lemma sync_kinds_at k c : k ∈ c_subscribed c -> c_kinds (sync_kinds k c) !! k = Some (mask k c).
Proof.
  intros Hk. unfold sync_kinds. simpl. rewrite (bool_decide_eq_true_2 (k ∈ c_subscribed c)) by done.
  by rewrite andb_false_r, lookup_insert_eq.
Qed.

(** A subscription [c0] did not hold is fed for the others as it was. *)
Lemma others_fed x h0 c0 h c : hwf h0 -> local o ho h0 c0 -> x ∉ c_held c0 -> local o ho h c -> x ∉ c_held c ->
  (o x <> 0 -> x ∈ h_venue h0 -> x ∈ h_venue h) ->
  h_degraded h = h_degraded h0 -> h_force h = h_force h0 -> h_pending h = h_pending h0 -> ok_at h x.
Proof.
  intros Hh Hl0 Hx0 Hl Hx Hv Ed Ef Ep Hat. rewrite (at_of x h c Hl), (not_has x c Hx) in Hat.
  apply (still_fed h0 h x); try done.
  - rewrite (at_of x h0 c0 Hl0), (not_has x c0 Hx0). lia.
  - apply Hv. lia.
  - rewrite (at_of x h c Hl), (not_has x c Hx). lia.
Qed.

(** Dropping the brackets of a client. *)
Lemma drop_brackets_spec h c : local o ho h c -> cwf_but order_key c -> hwf_but on_order h -> HBrackets ∈ c_held c ->
  let h' := (forget HBrackets h).2 in
  let c' := sync_kinds order_key (c_remove HBrackets c) in
  local o ho h' c' /\ cwf_but order_key c' /\ hwf_but on_order h' /\ same_but_counts h h' /\
  c_held c' = c_held c ∖ {[HBrackets]} /\ c_subscribed c' = c_subscribed c.
Proof.
  intros Hl Hc Hb Hi. destruct (forget_order_spec HBrackets h (or_intror eq_refl)) as [Hs Hb'].
  split_and!; try done.
  - apply client_sync_local. by apply forget_local.
  - apply but_sync. by apply but_remove.
  - by apply Hb'.
Qed.

(** The brackets of a failed order subscription, taken back. *)
Lemma undo_brackets ib h c (held0 : gset Held) : local o ho h c -> cwf_but order_key c -> hwf_but on_order h ->
  c_held c = (if ib : bool then {[HBrackets]} else ∅) ∪ ({[HOrder]} ∪ held0) -> HBrackets ∉ held0 ->
  order_key ∈ c_subscribed c -> c_kinds c !! order_key = Some (mask order_key c) ->
  exists h1 c1, (if ib then ((forget HBrackets h).2, sync_kinds order_key (c_remove HBrackets c)) else (h, c)) = (h1, c1) /\
    local o ho h1 c1 /\ cwf_but order_key c1 /\ hwf_but on_order h1 /\ same_but_counts h h1 /\
    c_held c1 = {[HOrder]} ∪ held0 /\ c_subscribed c1 = c_subscribed c /\
    c_kinds c1 !! order_key = Some (mask order_key c1).
Proof.
  intros Hl Hc Hb Hheld Hb0 Hsub Hk. destruct ib.
  - destruct (drop_brackets_spec h c Hl Hc Hb) as (H1 & H2 & H3 & H4 & H5 & H6); [rewrite Hheld; set_solver|].
    eexists _, _. split; [reflexivity|]. split_and!; try done.
    + rewrite H5, Hheld. apply set_eq. intros x. destruct (decide (x = HBrackets)); set_solver.
    + rewrite sync_kinds_at by done. done.
  - eexists _, _. split; [reflexivity|]. split_and!; try done. rewrite Hheld. apply set_eq. set_solver.
Qed.

(** The topic of a failed order subscription: kept if it was there before. *)
Lemma undo_topic had h3 c2 c0 : local o ho h3 c2 -> hwf h3 -> cwf c0 -> cwf_but order_key c2 -> c_held c2 = c_held c0 ->
  HOrder ∉ c_held c0 -> HBrackets ∉ c_held c0 -> order_key ∈ c_subscribed c2 ->
  c_kinds c2 !! order_key = Some (mask order_key c2) ->
  let '(h', c') := rollback_shared_topic order_key had h3 c2 in
  inv o ho h' c' /\ c_held c0 ⊆ c_held c' /\ HBrackets ∉ c_held c'.
Proof.
  intros Hl3 Hh3 Hc0 Hc2 Hheld2 Ho0 Hb0 Hsub2 Hk2. unfold rollback_shared_topic. destruct had.
  - split; [|by rewrite Hheld2]. split; [done| |done].
    apply (but_close order_key); [done|by apply topic_ok_in|by rewrite decide_True].
  - split; [|simpl; by rewrite Hheld2]. split; [by apply remove_hub_local| |by apply but_hub].
    apply drop_close; [done|]. intros x Hx Hin. rewrite Hheld2 in Hin.
    by destruct (order_topic c0 x Hc0 Hin Hx) as [-> | ->].
Qed.

Lemma rollback_order_ok had ib h0 c0 h c :
  hwf h0 -> local o ho h0 c0 -> cwf c0 -> HOrder ∉ c_held c0 -> HBrackets ∉ c_held c0 ->
  local o ho h c -> cwf_but order_key c -> hwf_but on_order h ->
  c_held c = (if ib : bool then {[HBrackets]} else ∅) ∪ ({[HOrder]} ∪ c_held c0) -> order_key ∈ c_subscribed c ->
  c_kinds c !! order_key = Some (mask order_key c) ->
  h_degraded h = h_degraded h0 -> h_force h = h_force h0 -> h_pending h = h_pending h0 -> h_venue h0 ⊆ h_venue h ->
  (ans COrderDisconnect = false -> o HOrder = 0 -> HOrder ∈ h_venue h) ->
  let '(h', c') := rollback_order_introductions ans had true ib h c in
  inv o ho h' c' /\ c_held c0 ⊆ c_held c' /\ HBrackets ∉ c_held c'.
Proof.
  intros Hh0 Hl0 Hc0 Ho0 Hb0 Hl Hc Hb Hheld Hsub Hk Ed Ef Ep Hv Hans. unfold rollback_order_introductions.
  cbn [negb].
  destruct (undo_brackets ib h c (c_held c0) Hl Hc Hb Hheld Hb0 Hsub Hk) as
    (h1 & c1 & -> & Hl1 & Hc1 & Hb1 & (S1 & S2 & S3 & S4 & S5 & S6) & Hheld1 & Hsub1 & Hk1).
  assert (Hi1 : HOrder ∈ c_held c1) by (rewrite Hheld1; set_solver).
  pose proof (forget_local o ho HOrder h1 c1 Hl1 Hi1) as Hl2.
  pose proof (forget_last o ho HOrder h1 c1 Hl1 Hi1) as Hlast.
  destruct (forget_order_spec HOrder h1 (or_introl eq_refl)) as [(F1 & F2 & F3 & F4 & F5 & F6) Hb2]. specialize (Hb2 Hb1).
  destruct (forget HOrder h1) as [last h2]. cbn [fst snd] in *. subst last.
  set (c2 := c_remove HOrder c1) in *.
  assert (Hheld2 : c_held c2 = c_held c0).
  { simpl. rewrite Hheld1. apply set_eq. intros x. destruct (decide (x = HOrder)); set_solver. }
  assert (Hc2 : cwf_but order_key c2) by (apply but_remove; [done|done|intros _; rewrite Hheld1; set_solver]).
  assert (Hsub2 : order_key ∈ c_subscribed c2) by (simpl; by rewrite Hsub1).
  assert (Hgone : forall h3, local o ho h3 c2 -> hwf h3 ->
    let '(h', c') := rollback_shared_topic order_key had h3 c2 in
    inv o ho h' c' /\ c_held c0 ⊆ c_held c' /\ HBrackets ∉ c_held c').
  { intros h3 Hl3 Hh3. apply undo_topic; try done. unfold c2. by rewrite (proj2 (order_mask HOrder c1 eq_refl)). }
  destruct (Nat.eqb_spec (o HOrder) 0) as [E|E].
  - pose proof (order_disconnect_spec h2 Hb2) as Hd. destruct (order_disconnect ans h2) as [ok h3].
    destruct Hd as (Hs3 & Hdg3 & Hb3 & Hok & Hfail). destruct ok.
    + apply Hgone; [by apply (same_local h2)|]. pose proof (same_local h2 h3 c2 Hs3 Hl2) as Hl3.
      apply order_close; [done| |]; unfold ok_at; rewrite (at_of _ h3 c2 Hl3), not_has; try (rewrite Hheld2; done).
      * lia.
      * rewrite (Hob E). lia.
    + rewrite (Hfail eq_refl) in *. symmetry in Hok.
      assert (Hni : HOrder ∉ c_held c2) by (by rewrite Hheld2).
      pose proof (note_local o ho HOrder h2 c2 Hl2 Hni) as Hl3.
      destruct (note_order_spec HOrder h2 (or_introl eq_refl)) as [(G1 & G2 & G3 & G4 & G5 & G6) Hb4].
      split; [|simpl; rewrite <- Hheld2; simpl; set_solver].
      split; [done| |].
      * apply (but_close order_key); [by apply but_insert| |].
        -- by apply topic_ok_in.
        -- rewrite decide_True by done. rewrite (proj1 (order_mask HOrder c2 eq_refl)).
           unfold c2. rewrite (proj2 (order_mask HOrder c1 eq_refl)). exact Hk1.
      * apply order_close; [by apply Hb4| |].
        -- intros _. left. rewrite G2, F2, S2. by apply Hans.
        -- unfold ok_at. rewrite (at_of _ _ _ Hl3), not_has, (Hob E); [lia|]. simpl. rewrite Hheld1. set_solver.
  - apply Hgone; [done|]. apply order_close; [done| |];
      (eapply (others_fed _ h0 c0 h2 c2); try done; [by rewrite Hheld2|intros _ ?; rewrite F2, S2; by apply Hv| | |]; congruence).
Qed.

(** Brackets for a client that already has the order stream. *)
Lemma add_brackets_ok h c : inv o ho h c -> HOrder ∈ c_held c -> HBrackets ∉ c_held c ->
  let '(ok, h', c') := subscribe_order_plant_stream ans true true h c in
  inv o ho h' c' /\ c_held c ⊆ c_held c' /\ (ok = true -> HBrackets ∈ c_held c').
Proof.
  intros [Hl Hc Hh] Ho Hb. unfold subscribe_order_plant_stream. cbn [negb].
  rewrite (proj2 (has_true _ _) Ho), (proj2 (has_false _ _) Hb). cbn [negb andb].
  pose proof (attach_spec order_key h c Hl Hc) as Ha.
  destruct (attach_shared_topic order_key h c) as [[had h1] c1].
  destruct Ha as (Hhad & Hl1 & Hb1 & Hh1 & Hs1 & _ & f & ->).
  assert (Hi1 : HBrackets ∉ c_held c1) by (by rewrite Hh1).
  pose proof (note_local o ho HBrackets (with_hub f h) c1 Hl1 Hi1) as Hl2.
  pose proof (note_first o ho HBrackets (with_hub f h) c1 Hl1 Hi1) as Hfirst.
  destruct (note_order_spec HBrackets (with_hub f h) (or_intror eq_refl)) as [(G1 & G2 & G3 & G4 & G5 & G6) Hbn].
  specialize (Hbn (but_hub _ f h (hwf_weaken _ h Hh))).
  destruct (note HBrackets (with_hub f h)) as [first h3]. cbn [fst snd with_hub h_hub h_venue h_degraded h_ready h_force h_pending] in *. subst first.
  apply (client_sync_local _ _ order_key) in Hl2.
  set (c3 := sync_kinds order_key (c_insert HBrackets c1)) in *.
  assert (Hheld3 : c_held c3 = {[HBrackets]} ∪ c_held c) by (simpl; by rewrite Hh1).
  assert (Hsub3 : order_key ∈ c_subscribed c3) by (simpl; rewrite Hs1; set_solver).
  assert (Hc3b : cwf_but order_key c3).
  { apply but_sync, but_insert; [done|done|done|]. intros _. by rewrite Hh1. }
  assert (Hc3 : cwf c3).
  { apply sync_close; [apply but_insert; [done|done|done|intros _; by rewrite Hh1]|]. by apply topic_ok_in. }
  pose proof (order_joins_spec false (o HBrackets =? 0) h3 Hbn) as Hj. unfold order_joins in Hj. cbn [andb] in Hj.
  assert (Hfed : forall h' c', same_books h3 h' -> h_degraded h' = h_degraded h3 -> h_venue h3 ⊆ h_venue h' ->
    local o ho h' c' -> ok_at h' HOrder).
  { intros h' c' (Q1 & Q2 & Q3 & Q4 & Q5) Qd Qv Ql. apply (still_fed h h'); try congruence; try done.
    - by apply (local_at _ _ c).
    - intros Hv. apply Qv. by rewrite G2. }
  cbn [andb].
  destruct (if o HBrackets =? 0 then bracket_join ans h3 else (true, h3)) as [ok h5].
  destruct Hj as (Hs5 & Hd5 & Hb5 & Hv5 & _ & Hbr & _). pose proof (same_local h3 h5 c3 Hs5 Hl2) as Hl5.
  pose proof Hs5 as (Q1 & Q2 & Q3 & Q4 & Q5). destruct ok.
  - split; [|split; [rewrite Hheld3; set_solver|intros _; rewrite Hheld3; set_solver]].
    split; [done|done|]. apply order_close; [done|by apply (Hfed h5 c3)|].
    destruct (Nat.eqb_spec (o HBrackets) 0) as [E|E]; [intros _; left; by apply Hbr|].
    apply (still_fed h h5); try congruence; try done.
    + rewrite (at_of _ h c Hl), not_has by done. lia.
    + intros Hv. apply Hv5. by rewrite G2.
  - unfold rollback_order_introductions. cbn [negb].
    assert (Hi3 : HBrackets ∈ c_held c3) by (rewrite Hheld3; set_solver).
    destruct (drop_brackets_spec h5 c3 Hl5 Hc3b Hb5 Hi3) as (Hl6 & Hc6 & Hb6 & (R1 & R2 & R3 & R4 & R5 & R6) & Hh6 & Hs6).
    assert (Hheld6 : c_held (sync_kinds order_key (c_remove HBrackets c3)) = c_held c).
    { rewrite Hh6, Hheld3. apply set_eq. intros x. destruct (decide (x = HBrackets)); set_solver. }
    split; [|split; [by rewrite Hheld6|done]]. split; [done| |].
    + apply sync_close; [by apply but_remove|]. by apply topic_ok_in.
    + apply order_close; [done| |].
      * apply (still_fed h); try congruence; try done; [by apply (local_at _ _ c)|]. intros Hv. rewrite R2. apply Hv5. by rewrite G2.
      * eapply (others_fed _ h c _ _ Hh Hl Hb Hl6); try congruence; try (by rewrite Hheld6).
        intros _ Hv. rewrite R2. apply Hv5. by rewrite G2.
Qed.

(** The brackets of a fresh order subscription, counted and filtered in. *)
Lemma brackets_too wb h2 c1 c : local o ho h2 (c_insert HOrder c1) -> cwf_but order_key (c_insert HOrder c1) ->
  hwf_but on_order h2 -> c_held c1 = c_held c -> HBrackets ∉ c_held c -> order_key ∈ c_subscribed c1 ->
  c_kinds c1 !! order_key = Some (mask order_key (c_insert HOrder c1)) ->
  exists fb h3 c3, (if wb : bool then note HBrackets h2 else (false, h2)) = (fb, h3) /\
    (if wb then sync_kinds order_key (c_insert HBrackets (c_insert HOrder c1)) else c_insert HOrder c1) = c3 /\
    local o ho h3 c3 /\ cwf_but order_key c3 /\ hwf_but on_order h3 /\ same_but_counts h2 h3 /\
    c_held c3 = (if wb then {[HBrackets]} else ∅) ∪ ({[HOrder]} ∪ c_held c) /\ order_key ∈ c_subscribed c3 /\
    c_kinds c3 !! order_key = Some (mask order_key c3) /\ fb = wb && (o HBrackets =? 0).
Proof.
  intros Hl2 Hc2 Hb2 Hh1 Hb Hs1 Hk1. destruct wb.
  - assert (Hi2 : HBrackets ∉ c_held (c_insert HOrder c1)) by (simpl; rewrite Hh1; set_solver).
    pose proof (note_local o ho HBrackets h2 _ Hl2 Hi2) as Hl3.
    pose proof (note_first o ho HBrackets h2 _ Hl2 Hi2) as Hf3.
    destruct (note_order_spec HBrackets h2 (or_intror eq_refl)) as [Hsm Hb3].
    eexists _, _, _. split; [apply surjective_pairing|]. split; [reflexivity|]. split_and!; try done.
    + by apply client_sync_local.
    + apply but_sync, but_insert; try done. intros _. simpl. set_solver.
    + by apply Hb3.
    + simpl. by rewrite Hh1.
    + by rewrite sync_kinds_at.
  - eexists _, _, _. split; [reflexivity|]. split; [reflexivity|]. split_and!; try done.
    simpl. rewrite Hh1. apply set_eq. set_solver.
Qed.

(** What an order subscription that went through leaves fed. *)
Lemma order_joined wb h c h5 c3 : hwf h -> local o ho h c -> HOrder ∉ c_held c -> HBrackets ∉ c_held c ->
  local o ho h5 c3 -> hwf_but on_order h5 -> c_held c3 = (if wb : bool then {[HBrackets]} else ∅) ∪ ({[HOrder]} ∪ c_held c) ->
  h_venue h ⊆ h_venue h5 -> h_degraded h5 = h_degraded h -> h_force h5 = h_force h -> h_pending h5 = h_pending h ->
  (o HOrder = 0 -> HOrder ∈ h_venue h5) -> (wb = true -> o HBrackets = 0 -> HBrackets ∈ h_venue h5) -> hwf h5.
Proof.
  intros Hh Hl Ho Hb Hl5 Hb5 Hheld3 Hv Ed Ef Ep Hjo Hjb.
  assert (Hfed : forall x, x ∉ c_held c -> o x <> 0 -> ok_at h5 x).
  { intros x Hx E. apply (still_fed h h5); try done; [|set_solver]. rewrite (at_of _ h c Hl), not_has by done. lia. }
  apply order_close; [done| |].
  - destruct (Nat.eqb_spec (o HOrder) 0) as [E|E]; [intros _; left; auto|auto].
  - destruct (Nat.eqb_spec (o HBrackets) 0) as [E|E]; [|auto]. intros Hat. rewrite (at_of _ h5 c3 Hl5), E in Hat.
    destruct wb; [left; auto|]. rewrite not_has in Hat; [lia|]. rewrite Hheld3. set_solver.
Qed.

(** The order stream (and brackets) for a client that has neither. *)
Lemma add_order_ok wb h c : inv o ho h c -> HOrder ∉ c_held c ->
  (ans COrderDisconnect = false -> ans COrderJoin = true \/ HOrder ∈ h_venue h) ->
  let '(ok, h', c') := subscribe_order_plant_stream ans true wb h c in
  inv o ho h' c' /\ c_held c ⊆ c_held c' /\
  (ok = true -> HOrder ∈ c_held c' /\ (wb = true -> HBrackets ∈ c_held c')).
Proof.
  intros [Hl Hc Hh] Ho Hans. assert (Hb : HBrackets ∉ c_held c) by (intros Hin; by apply Ho, (cw_brackets _ Hc)).
  unfold subscribe_order_plant_stream. cbn [negb].
  rewrite (proj2 (has_false _ _) Ho), (proj2 (has_false _ _) Hb). cbn [negb andb]. rewrite andb_true_r.
  pose proof (attach_spec order_key h c Hl Hc) as Ha.
  destruct (attach_shared_topic order_key h c) as [[had h1] c1].
  destruct Ha as (Hhad & Hl1 & Hb1 & Hh1 & Hs1 & Hk1 & f & ->).
  assert (Hi1 : HOrder ∉ c_held c1) by (by rewrite Hh1).
  pose proof (note_local o ho HOrder (with_hub f h) c1 Hl1 Hi1) as Hl2.
  pose proof (note_first o ho HOrder (with_hub f h) c1 Hl1 Hi1) as Hfirst.
  destruct (note_order_spec HOrder (with_hub f h) (or_introl eq_refl)) as [(G1 & G2 & G3 & G4 & G5 & G6) Hb2].
  specialize (Hb2 (but_hub _ f h (hwf_weaken _ h Hh))).
  destruct (note HOrder (with_hub f h)) as [first h2].
  cbn [fst snd with_hub h_hub h_venue h_degraded h_ready h_force h_pending] in *. subst first.
  assert (Hc2 : cwf_but order_key (c_insert HOrder c1)) by (by apply but_insert).
  assert (Hmask0 : mask order_key (c_insert HOrder c1) = 0%Z).
  { rewrite (mask_ext_kinds order_key _ client_new); [reflexivity| |intros _; simpl; rewrite Hh1; set_solver].
    intros i Hi. split; [|set_solver]. intros Hin. by destruct (cb_keys _ _ Hc2 i Hin). }
  destruct (brackets_too wb h2 c1 c Hl2 Hc2 Hb2 Hh1 Hb) as
    (fb & h3 & c3 & -> & -> & Hl3 & Hc3b & Hb3 & (S1 & S2 & S3 & S4 & S5 & S6) & Hheld3 & Hsub3 & Hk3 & Hfb).
  { rewrite Hs1. set_solver. }
  { rewrite Hk1, Hmask0. f_equal. destruct had; [|done]. rewrite <- Hmask0.
    rewrite (proj1 (order_mask HOrder c1 eq_refl)). apply mask_ext. by rewrite Hh1. }
  fold (order_joins (o HOrder =? 0) fb h3).
  pose proof (order_joins_spec (o HOrder =? 0) fb h3 Hb3) as Hj. unfold order_joins in *.
  destruct (if o HOrder =? 0 then order_join ans h3 else (true, h3)) as [ok1 h4].
  destruct (if ok1 && fb then bracket_join ans h4 else (ok1, h4)) as [ok2 h5].
  destruct Hj as (Hs5 & Hd5 & Hb5 & Hv5 & Hjo & Hjb & Hjc). pose proof (same_local h3 h5 c3 Hs5 Hl3) as Hl5.
  pose proof Hs5 as (Q1 & Q2 & Q3 & Q4 & Q5).
  assert (Hv : h_venue h ⊆ h_venue h5) by (rewrite <- G2, <- S2; done).
  destruct ok2.
  - split; [|rewrite Hheld3; split; [set_solver|intros _; split; [set_solver|intros ->; set_solver]]].
    split; [done| |].
    + apply (but_close order_key); [done|by apply topic_ok_in|by rewrite decide_True].
    + apply (order_joined wb h c h5 c3); try done; try congruence.
      * intros E. apply Hjo; [done|]. by rewrite E.
      * intros -> E. apply Hjb; [done|]. by rewrite Hfb, E.
  - pose proof (rollback_order_ok had wb h c h5 c3 Hh Hl Hc Ho Hb Hl5 Hc3b Hb5 Hheld3 Hsub3 Hk3
      ltac:(congruence) ltac:(congruence) ltac:(congruence) Hv) as Hr.
    assert (Hd : ans COrderDisconnect = false -> o HOrder = 0 -> HOrder ∈ h_venue h5).
    { intros Hdis E. destruct (Hans Hdis) as [Hj|Hin]; [|set_solver]. apply Hjc; [|done]. by rewrite E. }
    specialize (Hr Hd). destruct (rollback_order_introductions _ _ _ _ _ _) as [h6 c6].
    destruct Hr as (? & ? & _). by split_and!.
Qed.

Lemma subscribe_order_ok trading wb h c : inv o ho h c ->
  (ans COrderDisconnect = false -> ans COrderJoin = true \/ HOrder ∈ h_venue h) ->
  let '(ok, h', c') := subscribe_order_plant_stream ans trading wb h c in
  inv o ho h' c' /\ c_held c ⊆ c_held c'.
Proof.
  intros Hi Hans. destruct trading; [|by unfold subscribe_order_plant_stream].
  destruct (client_has HOrder c) eqn:Eo.
  - destruct (client_has HBrackets c) eqn:Eb; [|destruct wb].
    + unfold subscribe_order_plant_stream. rewrite Eo, Eb. cbn [negb andb]. by rewrite andb_false_r.
    + pose proof (add_brackets_ok h c Hi) as Hb. apply has_true in Eo. apply has_false in Eb. specialize (Hb Eo Eb).
      destruct (subscribe_order_plant_stream _ _ _ _ _) as [[ok h'] c']. naive_solver.
    + unfold subscribe_order_plant_stream. by rewrite Eo.
  - apply has_false in Eo. pose proof (add_order_ok wb h c Hi Eo Hans) as Hb.
    destruct (subscribe_order_plant_stream _ _ _ _ _) as [[ok h'] c']. naive_solver.
Qed.

(** *** Letting orders go *)

Lemma ask_but P h : hwf_but P h -> hwf_but P (ask_rebuild h).
Proof.
  intros [H1 H2 H3]. split; [|exact H2|done]. intros x Hx Hc.
  destruct (H1 x Hx Hc) as [?|[?|[?|_]]]; [by left|by right; left|by right; right; left|by right; right; right].
Qed.

(** The order part of a client given up: its books, and the flags of the last. *)
Definition let_go (h : Host) (c : Client) : bool * bool * Host * Client :=
  let '(last_brackets, h1, c1) := clear_client_brackets h c in
  let '(last_order, h2) := forget HOrder h1 in (last_brackets, last_order, h2, c_remove HOrder c1).

Lemma clear_spec h c : local o ho h c -> hwf_but on_order h ->
  let '(last, h', c') := clear_client_brackets h c in
  local o ho h' c' /\ hwf_but on_order h' /\ same_but_counts h h' /\ c_held c' = c_held c ∖ {[HBrackets]} /\
  c_subscribed c' = c_subscribed c /\ (cwf c -> cwf c') /\ (last = true -> o HBrackets = 0).
Proof.
  intros Hl Hb. unfold clear_client_brackets. destruct (client_has HBrackets c) eqn:Ei; cbn [negb].
  2: { apply has_false in Ei. split_and!; try done. set_solver. }
  apply has_true in Ei. pose proof (forget_last o ho HBrackets h c Hl Ei) as Hlast.
  pose proof (forget_local o ho HBrackets h c Hl Ei) as Hl1.
  destruct (forget_order_spec HBrackets h (or_intror eq_refl)) as [Hs Hb'].
  destruct (forget HBrackets h) as [last h1]. cbn [fst snd] in *. subst last. split_and!; try done.
  - by apply client_sync_local.
  - by apply Hb'.
  - intros Hc. apply sync_close; [apply but_remove; [by apply cwf_weaken|done|done]|].
    apply topic_ok_in; [|done]. by apply (cw_sub _ Hc _ Ei).
  - by intros ?%Nat.eqb_eq.
Qed.

Lemma let_go_spec h c : local o ho h c -> hwf h -> HOrder ∈ c_held c ->
  let '(last_brackets, last_order, h', c') := let_go h c in
  local o ho h' c' /\ hwf h' /\ same_but_counts h h' /\ c_held c' = c_held c ∖ {[HOrder; HBrackets]} /\
  c_subscribed c' = c_subscribed c /\ (cwf c -> cwf c') /\
  (last_brackets = true -> o HBrackets = 0) /\ last_order = (o HOrder =? 0).
Proof.
  intros Hl Hh Ho. unfold let_go. pose proof (clear_spec h c Hl (hwf_weaken _ h Hh)) as H1.
  destruct (clear_client_brackets h c) as [[last h1] c1].
  destruct H1 as (Hl1 & Hb1 & (S1 & S2 & S3 & S4 & S5 & S6) & Hheld1 & Hsub1 & Hc1 & Hlast).
  assert (Ho1 : HOrder ∈ c_held c1) by (rewrite Hheld1; set_solver).
  pose proof (forget_last o ho HOrder h1 c1 Hl1 Ho1) as Hlo. pose proof (forget_local o ho HOrder h1 c1 Hl1 Ho1) as Hl2.
  destruct (forget_order_spec HOrder h1 (or_introl eq_refl)) as [(F1 & F2 & F3 & F4 & F5 & F6) Hb2].
  destruct (forget HOrder h1) as [lo h2]. cbn [fst snd] in *. subst lo.
  assert (Hheld2 : c_held (c_remove HOrder c1) = c_held c ∖ {[HOrder; HBrackets]}).
  { simpl. rewrite Hheld1. apply set_eq. intros x. destruct (decide (x = HOrder)), (decide (x = HBrackets)); set_solver. }
  split_and!; try done; try congruence.
  - assert (Hfed : forall x, on_order x -> ok_at h2 x).
    { intros x Hx Hat. rewrite (at_of x h2 _ Hl2), not_has in Hat by (rewrite Hheld2; destruct Hx as [-> | ->]; set_solver).
      apply (still_fed h h2 x); try congruence.
      - rewrite (at_of x h c Hl). lia.
      - rewrite (at_of x h2 _ Hl2). lia. }
    apply order_close; [by apply Hb2|apply Hfed; by left|apply Hfed; by right].
  - split_and!; congruence.
  - intros Hc. specialize (Hc1 Hc). apply (but_close order_key).
    + apply but_remove; [by apply cwf_weaken|done|]. rewrite Hheld1. set_solver.
    + apply topic_ok_in; [|done]. by apply (cw_sub _ Hc1 _ Ho1).
    + rewrite (proj2 (order_mask HOrder c1 eq_refl)). by rewrite (cw_kinds _ Hc1).
Qed.

Lemma reseat_spec h c : local o ho h c -> hwf h -> HBrackets ∉ c_held c -> o HBrackets = 0 ->
  let '(ok, h') := reseat_order_plant ans h in
  same_books h h' /\ (ok = true -> hwf h') /\ (ok = false -> hwf (ask_rebuild h')).
Proof.
  intros Hl Hh Hn E. unfold reseat_order_plant. pose proof (order_disconnect_spec h (hwf_weaken _ h Hh)) as H1.
  destruct (order_disconnect ans h) as [ok1 h1]. destruct H1 as (Hs1 & Hd1 & Hb1 & _). cbn [snd].
  pose proof (same_local h h1 c Hs1 Hl) as Hl1.
  assert (H0 : forall h2, h_counts h2 = h_counts h1 -> ok_at h2 HBrackets).
  { intros h2 E2. unfold ok_at. rewrite E2, (at_of _ h1 c Hl1), not_has by done. lia. }
  unfold order_join. destruct (ans COrderJoin); split_and!; try done; intros _.
  - apply order_close; [|intros _; left; simpl; set_solver|by apply H0].
    apply but_venue; [|done]. unfold on_order. set_solver.
  - apply order_close; [by apply ask_but| |by apply H0]. intros _. by right; right; right.
Qed.

(** Putting the order part of a client back. *)
Lemma put_back h c h2 c2 : local o ho h c -> hwf h -> HOrder ∈ c_held c ->
  local o ho h2 c2 -> hwf h2 -> same_but_counts h h2 -> c_held c2 = c_held c ∖ {[HOrder; HBrackets]} ->
  c_subscribed c2 = c_subscribed c -> (cwf c -> cwf c2) ->
  let h4 := (note HOrder h2).2 in
  let c4 := c_insert HOrder c2 in
  let h5 := if client_has HBrackets c then (note HBrackets h4).2 else h4 in
  let c5 := if client_has HBrackets c then sync_kinds order_key (c_insert HBrackets c4) else c4 in
  local o ho h5 c5 /\ hwf h5 /\ c_held c5 = c_held c /\ c_subscribed c5 = c_subscribed c /\ (cwf c -> cwf c5).
Proof.
  intros Hl Hh Ho Hl2 Hh2 (S1 & S2 & S3 & S4 & S5 & S6) Hheld2 Hsub2 Hc2 h4 c4 h5 c5.
  assert (Hn : HOrder ∉ c_held c2) by (rewrite Hheld2; set_solver).
  pose proof (note_local o ho HOrder h2 c2 Hl2 Hn) as Hl4. fold h4 c4 in Hl4.
  destruct (note_order_spec HOrder h2 (or_introl eq_refl)) as [(F1 & F2 & F3 & F4 & F5 & F6) Hb4].
  specialize (Hb4 (hwf_weaken _ h2 Hh2)). fold h4 in Hb4, F1, F2, F3, F4, F5, F6.
  assert (Hc4 : cwf c -> cwf c4).
  { intros Hc. pose proof (Hc2 Hc) as Hw. apply (but_close order_key).
    - apply but_insert; [by apply cwf_weaken|done|done|done].
    - apply topic_ok_in; [|done]. simpl. rewrite Hsub2. by apply (cw_sub _ Hc _ Ho).
    - unfold c4. rewrite (proj1 (order_mask HOrder c2 eq_refl)). by rewrite <- (cw_kinds _ Hw). }
  assert (Hfed : forall h', local o ho h' c5 -> hwf_but on_order h' -> same_but_counts h h' -> c_held c5 = c_held c -> hwf h').
  { intros h' Hl' Hb' (Q1 & Q2 & Q3 & Q4 & Q5 & Q6) He.
    assert (Hk : forall x, ok_at h' x).
    { intros x Hat. apply (still_fed h h' x); try done; [|by rewrite Q2].
      rewrite (at_of x h' c5 Hl') in Hat. rewrite (at_of x h c Hl). unfold client_has in *. by rewrite He in Hat. }
    by apply order_close. }
  assert (Hheld5 : c_held c5 = c_held c).
  { unfold c5, c4. destruct (client_has HBrackets c) eqn:Eb; simpl; rewrite Hheld2; apply set_eq; intros x.
    - apply has_true in Eb. destruct (decide (x = HOrder)), (decide (x = HBrackets)); set_solver.
    - apply has_false in Eb. destruct (decide (x = HOrder)), (decide (x = HBrackets)); set_solver. }
  unfold h5, c5 in *. destruct (client_has HBrackets c) eqn:Eb.
  - assert (Hn4 : HBrackets ∉ c_held c4) by (simpl; rewrite Hheld2; set_solver).
    pose proof (note_local o ho HBrackets h4 c4 Hl4 Hn4) as Hl5.
    destruct (note_order_spec HBrackets h4 (or_intror eq_refl)) as [(G1 & G2 & G3 & G4 & G5 & G6) Hb5].
    split_and!; try done.
    + by apply client_sync_local.
    + apply Hfed; [by apply client_sync_local|by apply Hb5| |done]. split_and!; congruence.
    + intros Hc. apply sync_close; [apply but_insert; [by apply cwf_weaken, Hc4|done|done|simpl; set_solver]|].
      apply topic_ok_in; [|done]. simpl. rewrite Hsub2. by apply (cw_sub _ Hc _ Ho).
  - split_and!; try done. apply Hfed; [done|done| |done]. split_and!; congruence.
Qed.

(** Letting the order plant go; the topic is left to the caller. *)
Lemma leave_order_ok rollback h c : local o ho h c -> hwf h -> (HBrackets ∈ c_held c -> HOrder ∈ c_held c) ->
  let '(ok, h', c') := leave_order ans rollback h c in
  local o ho h' c' /\ hwf h' /\ c_subscribed c' = c_subscribed c /\ (cwf c -> cwf c') /\
  (c_held c' = c_held c ∖ {[HOrder; HBrackets]} \/ (ok = false /\ rollback = true /\ c_held c' = c_held c)).
Proof.
  intros Hl Hh Hbo. unfold leave_order. destruct (client_has HOrder c) eqn:Eo.
  2: { apply has_false in Eo. rewrite (proj2 (has_false HBrackets c)) by tauto. cbn [negb andb].
       split_and!; try done. left. apply set_eq. intros x. split; [|set_solver].
       destruct (decide (x = HOrder)), (decide (x = HBrackets)); set_solver. }
  cbn [negb andb]. apply has_true in Eo. pose proof (let_go_spec h c Hl Hh Eo) as Hg. unfold let_go in Hg.
  destruct (clear_client_brackets h c) as [[lb h1] c1]. destruct (forget HOrder h1) as [lo h2].
  destruct Hg as (Hl2 & Hh2 & Hs2 & Hheld2 & Hsub2 & Hc2 & Hlb & ->).
  set (c2 := c_remove HOrder c1) in *.
  assert (Hn : (HOrder ∉ c_held c2) /\ (HBrackets ∉ c_held c2)) by (rewrite Hheld2; set_solver). destruct Hn as [Hn1 Hn2].
  destruct (Nat.eqb_spec (o HOrder) 0) as [E|E].
  - pose proof (order_disconnect_spec h2 (hwf_weaken _ h2 Hh2)) as Hd. destruct (order_disconnect ans h2) as [ok h3].
    destruct Hd as (Hs3 & _ & Hb3 & _ & Hf). destruct ok; cbn [negb].
    + rewrite andb_false_r. cbn [andb]. pose proof (same_local h2 h3 c2 Hs3 Hl2) as Hl3.
      split_and!; try done; [|by left]. apply order_close; [done| |]; unfold ok_at; rewrite (at_of _ h3 c2 Hl3), not_has by done.
      * lia.
      * rewrite (Hob E). lia.
    + rewrite (Hf eq_refl). destruct rollback; [|by split_and!; auto].
      pose proof (put_back h c h2 c2 Hl Hh Eo Hl2 Hh2 Hs2 Hheld2 Hsub2 Hc2) as Hp. cbn zeta in Hp.
      destruct (client_has HBrackets c); destruct Hp as (? & ? & ? & ? & ?); split_and!; auto.
  - cbn [negb]. destruct ((lb && true) && held HOrder h2) eqn:Er; [|by split_and!; auto].
    apply andb_true_iff in Er as [[Elb _]%andb_true_iff _].
    pose proof (reseat_spec h2 c2 Hl2 Hh2 Hn2 (Hlb Elb)) as Hr. destruct (reseat_order_plant ans h2) as [ok h4].
    destruct Hr as (Hs4 & Hok & Hf). pose proof (same_local h2 h4 c2 Hs4 Hl2) as Hl4.
    destruct ok; split_and!; auto. by apply (local_frame o ho h4 c2).
Qed.

Lemma disconnect_order_ok h c : inv o ho h c ->
  let '(ok, h', c') := disconnect_order ans h c in
  inv o ho h' c' /\ (ok = true -> c_held c' = c_held c ∖ {[HOrder; HBrackets]} /\ order_key ∉ c_subscribed c').
Proof.
  intros [Hl Hc Hh]. unfold disconnect_order. pose proof (leave_order_ok true h c Hl Hh (cw_brackets _ Hc)) as Hv.
  destruct (leave_order ans true h c) as [[ok h1] c1]. destruct Hv as (Hl1 & Hh1 & Hs1 & Hc1 & Hheld). specialize (Hc1 Hc).
  destruct ok; cbn [negb]; [|by split; [split|]]. destruct Hheld as [Hheld|[? _]]; [|done].
  case_bool_decide as Hin; (split; [|by intros _; split; [|try set_solver]]).
  - split; [by apply remove_hub_local| |by apply but_hub]. apply drop_close; [by apply cwf_weaken|].
    intros x Hx Hxin. destruct (order_topic c1 x Hc1 Hxin Hx) as [-> | ->]; rewrite Hheld in Hxin; set_solver.
  - by split.
Qed.

(** *** Teardown *)

Lemma teardown_topic_ok i h c : local o ho h c -> hwf h -> Md i ∈ c_held c ->
  local o ho (teardown_topic ans i h) (c_remove (Md i) c) /\ hwf (teardown_topic ans i h).
Proof.
  intros Hl Hh Hi. unfold teardown_topic. pose proof (forget_local o ho (Md i) h c Hl Hi) as Hl1.
  pose proof (forget_last o ho (Md i) h c Hl Hi) as Hlast. destruct (forget_hwf (Md i) h c Hl Hi Hh) as [Hb1 Hh1].
  destruct (forget_counts (Md i) h) as (_ & _ & _ & _ & _ & _ & F7).
  destruct (forget (Md i) h) as [last h1]. cbn [fst snd] in *. subst last.
  destruct (Nat.eqb_spec (o (Md i)) 0) as [E|E]; [|done].
  pose proof (leave_spec i h1 Hb1) as Hv. destruct (venue_leave ans i h1) as [ok h2]. cbn [snd].
  destruct Hv as (Hs & Hd & Hb & _ & _). pose proof Hs as (E1 & _). split; [by apply (same_local h1)|].
  apply (hole_close (Md i)); [done| |].
  - unfold ok_at. rewrite E1, (at_of _ h1 _ Hl1), not_has by (simpl; set_solver). lia.
  - intros j [= <-]. rewrite Hd, F7. set_solver.
Qed.

Lemma teardown_md_ok l h c : local o ho h c -> hwf h -> NoDup l -> (forall i, i ∈ l -> Md i ∈ c_held c) ->
  let h' := fold_left (fun h i => teardown_topic ans i h) l h in
  let c' := fold_left (fun c i => c_remove (Md i) c) l c in
  local o ho h' c' /\ hwf h' /\ c_subscribed c' = c_subscribed c /\
  (forall x, x ∈ c_held c' <-> x ∈ c_held c /\ forall i, i ∈ l -> x <> Md i).
Proof.
  revert h c. induction l as [|i l IH]; intros h c Hl Hh Hnd Hin; simpl.
  { split_and!; try done. set_solver. }
  apply NoDup_cons in Hnd as [Hni Hnd].
  destruct (teardown_topic_ok i h c Hl Hh) as [Hl1 Hh1]; [apply Hin; set_solver|].
  destruct (IH _ _ Hl1 Hh1 Hnd) as (H1 & H2 & H3 & H4).
  { intros j Hj. simpl. assert (j <> i) by (by intros ->). assert (Md j ∈ c_held c) by (apply Hin; set_solver). set_solver. }
  split_and!; try done. intros x. rewrite H4. simpl. split.
  - intros [[Hx Hne]%elem_of_difference Hl']. split; [done|]. intros j [->|Hj]%elem_of_cons; [set_solver|by apply Hl'].
  - intros [Hx Hl']. split; [|intros j Hj; apply Hl'; set_solver]. apply elem_of_difference. split; [done|].
    intros ->%elem_of_singleton. by apply (Hl' i); [set_solver|].
Qed.

Lemma teardown_topics_ok l h c : local o ho h c -> hwf h -> NoDup l -> (forall k, k ∈ l -> k ∈ c_subscribed c) ->
  let h' := fold_left (fun h k => remove_hub_interest k h) l h in
  let c' := fold_left (fun c k => drop_delivery k c) l c in
  local o ho h' c' /\ hwf h' /\ c_held c' = c_held c /\
  (forall k, k ∈ c_subscribed c' <-> k ∈ c_subscribed c /\ k ∉ l).
Proof.
  revert h c. induction l as [|k l IH]; intros h c Hl Hh Hnd Hin; simpl.
  { split_and!; try done. set_solver. }
  apply NoDup_cons in Hnd as [Hni Hnd].
  assert (Hl1 : local o ho (remove_hub_interest k h) (drop_delivery k c)) by (apply remove_hub_local; [done|apply Hin; set_solver]).
  assert (Hh1 : hwf (remove_hub_interest k h)) by (by apply but_hub).
  destruct (IH _ _ Hl1 Hh1 Hnd) as (H1 & H2 & H3 & H4).
  { intros k' Hk'. simpl. assert (k' <> k) by (by intros ->). assert (k' ∈ c_subscribed c) by (apply Hin; set_solver). set_solver. }
  split_and!; try done. intros k'. rewrite H4. simpl. rewrite elem_of_difference, elem_of_singleton, not_elem_of_cons. tauto.
Qed.

(** The books after a teardown are those of the other clients. *)
Lemma teardown_ok h c : local o ho h c -> hwf h -> (HBrackets ∈ c_held c -> HOrder ∈ c_held c) ->
  local o ho (teardown ans h c) client_new /\ hwf (teardown ans h c).
Proof.
  intros Hl Hh Hbo. unfold teardown.
  destruct (teardown_md_ok (md_held c) h c Hl Hh (md_held_nodup c)) as (Hl1 & Hh1 & Hs1 & Hheld1).
  { intros i. by rewrite md_held_spec. }
  set (c1 := fold_left (fun c i => c_remove (Md i) c) (md_held c) c) in *.
  pose proof (leave_pnl_ok false _ c1 Hl1 Hh1) as H2.
  destruct (leave_pnl ans false _ c1) as [[ok2 h2] c2]. destruct H2 as (Hl2 & _ & Hh2 & Hs2 & _ & Hheld2 & _).
  specialize (Hheld2 (or_intror eq_refl)).
  pose proof (leave_order_ok false h2 c2 Hl2 Hh2) as H3.
  destruct (leave_order ans false h2 c2) as [[ok3 h3] c3]. destruct H3 as (Hl3 & Hh3 & Hs3 & _ & Hheld3).
  { rewrite Hheld2. intros [Hb _]%elem_of_difference. apply elem_of_difference. rewrite Hheld1 in *. set_solver. }
  destruct Hheld3 as [Hheld3|(_ & [=] & _)].
  destruct (teardown_topics_ok (elements (c_subscribed c3)) h3 c3 Hl3 Hh3 (NoDup_elements _)) as (Hl4 & Hh4 & Hheld4 & Hs4).
  { intros k. by rewrite elem_of_elements. }
  split; [|done]. apply (local_frame o ho _ _ _ _ Hl4); try done; apply set_eq; simpl.
  - intros x. rewrite Hheld4, Hheld3, Hheld2, !elem_of_difference, Hheld1. split; [set_solver|].
    intros [[[Hx Hmd] Hp] Hb]. destruct x as [i| | |]; [|set_solver..]. exfalso. by apply (Hmd i); [by apply md_held_spec|].
  - intros k. rewrite Hs4, elem_of_elements. set_solver.
Qed.
End Requests_ok.

(** ** Facts: recovery *)

Section Recovery_ok.
Implicit Types (h : Host).

(** What recovery leaves to the clients' requests. *)
Definition same_counts h h' : Prop := h_counts h' = h_counts h /\ h_hub h' = h_hub h.

Lemma rebuild_ok r h : nonzero (h_counts h) -> hwf h -> r = Login \/ h_pending h = ∅ ->
  same_counts h (rebuild r h) /\ hwf (rebuild r h).
Proof.
  intros Hn [H1 H2 H3] Hr. split; [done|]. split; [|exact H2|done]. intros x _ Hat. simpl in *.
  destruct (carries r x) eqn:Ec.
  { right; right; left. apply elem_of_filter. split; [done|]. apply elem_of_dom. by apply at_dom. }
  destruct Hr as [-> | Hp]; [done|].
  destruct (H1 x ltac:(tauto) Hat) as [?|[?|[?|?]]].
  - left. by apply elem_of_filter.
  - by right; left.
  - set_solver.
  - right; right; right. by destruct r.
Qed.

(** A pending join that went through. *)
Lemma joined_hwf x h h' : hwf h -> h_counts h' = h_counts h -> h_ready h' = h_ready h -> h_force h' = h_force h ->
  h_venue h' = {[x]} ∪ h_venue h -> h_pending h' = h_pending h ∖ {[x]} ->
  (forall i, i ∈ h_degraded h' -> i ∈ h_degraded h) -> (forall i, Md i <> x -> i ∈ h_degraded h -> i ∈ h_degraded h') ->
  hwf h'.
Proof.
  intros [H1 H2 H3] Ec Er Ef Ev Ep Ed Ed'. split.
  - intros y _. unfold ok_at. rewrite Ec, Ev, Ep, Ef. intros Hat. destruct (decide (y = x)) as [->|Hne]; [left; set_solver|].
    destruct (H1 y ltac:(tauto) Hat) as [?|[(i & -> & Hi)|[?|?]]]; [left; set_solver| |right; right; left; set_solver|by right; right; right].
    right; left. exists i. auto.
  - intros i _ Hi. rewrite Ec. auto.
  - rewrite Er, Ef, Ep. intros Hr. destruct (H3 Hr) as [-> ?]. split; [set_solver|done].
Qed.

(** One join of a pass, tried. *)
Ltac restored x E Hgone Hjoin := split_and!; first
    [ done | by left | by right | exact (Hgone x _ _) | by apply (Hjoin x) | by intros Hq; rewrite !Hq in E
    | simpl; set_solver ].

Lemma restore_one_ok ans x h : hwf h ->
  let h' := restore_one ans h x in
  same_counts h h' /\ hwf h' /\ h_ready h' = h_ready h /\ h_force h' = h_force h /\
  (h_pending h' = h_pending h \/ h_pending h' = h_pending h ∖ {[x]}) /\ h_venue h ⊆ h_venue h' /\
  (forall y, y ∈ h_pending h -> y ∉ h_pending h' -> y ∈ h_venue h') /\
  ((forall q, ans q = true) -> x <> HBrackets \/ HOrder ∉ h_pending h -> h_pending h' = h_pending h ∖ {[x]}).
Proof.
  intros Hh. unfold restore_one, venue_join, pnl_join, order_join, bracket_join.
  assert (Hgone : forall (x : Held) (p v : gset Held), forall y, y ∈ p -> y ∉ p ∖ {[x]} -> y ∈ {[x]} ∪ v).
  { intros x0 p v y Hy Hny. destruct (decide (y = x0)); set_solver. }
  assert (Hjoin : forall x h', h_counts h' = h_counts h -> h_ready h' = h_ready h -> h_force h' = h_force h ->
    h_venue h' = {[x]} ∪ h_venue h -> h_pending h' = h_pending h ∖ {[x]} ->
    h_degraded h' = (match x with Md i => h_degraded h ∖ {[i]} | _ => h_degraded h end) -> hwf h').
  { intros x0 h' ? ? ? ? ? Ed. apply (joined_hwf x0 h); try done; rewrite Ed; destruct x0; set_solver. }
  destruct x as [i| | |].
  - destruct (ans (CJoin i)) eqn:E; restored (Md i) E Hgone Hjoin.
  - destruct (ans CPnlEnsure && ans CPnlJoin) eqn:E; restored HPnl E Hgone Hjoin.
  - destruct (ans COrderJoin) eqn:E; restored HOrder E Hgone Hjoin.
  - case_bool_decide as Hp.
    { split_and!; try done; [by left|]. intros _ [|]; done. }
    destruct (ans CBracketJoin) eqn:E; restored HBrackets E Hgone Hjoin.
Qed.

Lemma restore_fold_ok ans l h : hwf h ->
  let h' := fold_left (restore_one ans) l h in
  same_counts h h' /\ hwf h' /\ h_ready h' = h_ready h /\ h_force h' = h_force h /\ h_pending h' ⊆ h_pending h /\
  h_venue h ⊆ h_venue h' /\ (forall y, y ∈ h_pending h -> y ∉ h_pending h' -> y ∈ h_venue h') /\
  ((forall q, ans q = true) -> HBrackets ∉ l \/ HOrder ∉ h_pending h -> forall x, x ∈ h_pending h' -> x ∉ l).
Proof.
  revert h. induction l as [|x l IH]; intros h Hh; simpl.
  { split_and!; try done. intros. set_solver. }
  destruct (restore_one_ok ans x h Hh) as ((E1 & E2) & Hh1 & E3 & E4 & Hp & Hv & Hj & Hall).
  destruct (IH _ Hh1) as ((F1 & F2) & Hh2 & F3 & F4 & Hp2 & Hv2 & Hj2 & Hall2).
  assert (Hsub : h_pending (restore_one ans h x) ⊆ h_pending h) by (destruct Hp as [-> | ->]; set_solver).
  split_and!; try congruence.
  - split; congruence.
  - set_solver.
  - set_solver.
  - intros y Hy Hny. destruct (decide (y ∈ h_pending (restore_one ans h x))); [by apply Hj2|by apply Hv2, Hj].
  - intros Hq Hb y Hy. apply not_elem_of_cons.
    assert (Hx : h_pending (restore_one ans h x) = h_pending h ∖ {[x]}).
    { apply Hall; [done|]. destruct Hb as [Hb|Hb]; [left; intros ->; set_solver|by right]. }
    split; [set_solver|]. apply Hall2; [done| |done]. destruct Hb as [Hb|Hb]; [left; set_solver|right; set_solver].
Qed.

Lemma in_order_spec s : forall x, x ∈ in_order s <-> x ∈ s.
Proof. intros x. unfold in_order. rewrite (proj1 (by_rank_spec rank _ ltac:(intros []; simpl; lia))). apply elem_of_elements. Qed.

Lemma restore_plan_pass_ok ans h : nonzero (h_counts h) -> hwf h ->
  let h' := restore_plan_pass ans h in
  same_counts h h' /\ hwf h' /\ h_ready h' = h_ready h /\ h_force h' = h_force h /\ h_pending h' ⊆ h_pending h /\
  (forall y, y ∈ h_pending h ∩ restore_plan h -> y ∉ h_pending h' -> y ∈ h_venue h') /\
  ((forall q, ans q = true) -> h_pending h' = ∅).
Proof.
  intros Hn Hh. unfold restore_plan_pass. set (still := h_pending h ∩ restore_plan h).
  set (h1 := MkHost _ _ _ _ _ _ still).
  assert (Hh1 : hwf h1).
  { destruct Hh as [H1 H2 H3]. split; [|exact H2|].
    - intros x _ Hat. destruct (H1 x ltac:(tauto) Hat) as [?|[?|[?|?]]]; [by left|by right; left| |by right; right; right].
      right; right; left. apply elem_of_intersection. split; [done|]. apply elem_of_dom. by apply at_dom.
    - intros Hr. destruct (H3 Hr) as [Hp ?]. split; [|done]. unfold h1, still. simpl. rewrite Hp. set_solver. }
  destruct (restore_fold_ok ans (in_order still) h1 Hh1) as (Hs & Hh2 & F3 & F4 & Hp & _ & Hj & _).
  split_and!; try done; [set_solver|]. intros Hq. unfold in_order, by_rank. rewrite !app_assoc, fold_left_app.
  set (front := (_ ++ _) ++ _). set (back := List.filter _ _).
  assert (Hb : forall x, x ∈ back <-> x ∈ still /\ rank x = 3).
  { intros x. unfold back. by rewrite list_elem_of_In, filter_In, Nat.eqb_eq, <- list_elem_of_In, elem_of_elements. }
  assert (Hf : forall x, x ∈ front <-> x ∈ still /\ rank x <> 3).
  { intros x. unfold front. rewrite !elem_of_app, !list_elem_of_In, !filter_In, !Nat.eqb_eq, <- !list_elem_of_In, !elem_of_elements.
    destruct x; simpl; intuition lia. }
  destruct (restore_fold_ok ans front h1 Hh1) as (_ & Hh3 & _ & _ & Hp3 & _ & _ & Hall3).
  assert (Hdone : forall x, x ∈ h_pending (fold_left (restore_one ans) front h1) -> x ∉ front).
  { apply Hall3; [done|]. left. rewrite Hf. simpl. lia. }
  destruct (restore_fold_ok ans back _ Hh3) as (_ & _ & _ & _ & Hp4 & _ & _ & Hall4).
  apply set_eq. intros x. split; [|set_solver]. intros Hx. exfalso.
  assert (Hst : x ∈ still) by (apply Hp3, Hp4, Hx). pose proof (Hdone x (Hp4 x Hx)) as Hnf. rewrite Hf in Hnf.
  assert (Hnb : x ∉ back).
  { apply Hall4; [done| |done]. right. intros Ho. apply (Hdone _ Ho), Hf. split; [by apply Hp3|done]. }
  rewrite Hb in Hnb. destruct (decide (rank x = 3)); tauto.
Qed.

Lemma mark_fold l h : let h' := fold_left (fun h i => mark_degraded i h) l h in
  same_books h h' /\ h_venue h' = h_venue h /\
  (forall i, i ∈ h_degraded h' <-> i ∈ h_degraded h \/ (i ∈ l /\ held (Md i) h = true)).
Proof.
  revert h. induction l as [|i l IH]; intros h; simpl.
  { split_and!; try done. set_solver. }
  destruct (IH (mark_degraded i h)) as ((E1 & E2 & E3 & E4 & E5) & Ev & Hd).
  destruct (mark_books i h) as [(F1 & F2 & F3 & F4 & F5) Fv]. split_and!; try congruence; [split_and!; congruence|].
  intros j. rewrite Hd. unfold held in *. rewrite F1. unfold mark_degraded, held.
  destruct (bool_decide (is_Some (h_counts h !! Md i))) eqn:Eh; simpl.
  - rewrite elem_of_union, elem_of_singleton, elem_of_cons. split; [intuition (subst; auto)|]. intuition (subst; auto).
  - rewrite elem_of_cons. split; [tauto|]. intros [?|[[->|?] ?]]; [by left|congruence|by right].
Qed.

Lemma finish_ok h : nonzero (h_counts h) -> hwf h ->
  (forall x, x ∈ h_pending h -> account x = false) ->
  same_counts h (finish h) /\ hwf (finish h) /\ h_venue (finish h) = h_venue h /\
  (h_force h = false -> h_ready (finish h) = true).
Proof.
  intros Hn [H1 H2 H3] Ha. unfold finish.
  destruct (mark_fold (by_rank md_rank (omap md_of (elements (h_pending h)))) h) as ((E1 & E2 & E3 & E4 & E5) & Ev & Hd).
  set (h1 := fold_left _ _ _) in *.
  assert (Hdeg : forall i, i ∈ h_degraded h1 -> 1 <= at_ (h_counts h1) (Md i)).
  { intros i. rewrite E1, Hd. intros [?|[_ Hh]]; [auto|]. by apply held_spec in Hh. }
  assert (Hold : forall i, i ∈ h_degraded h -> i ∈ h_degraded h1) by (intros; apply Hd; by left).
  destruct (h_force h1) eqn:Ef; split_and!; try done; try congruence.
  - split; [|auto|rewrite E3; intros Hr; destruct (H3 Hr); split; congruence]. intros x _. unfold ok_at. rewrite E1, Ef, E5, Ev. intros Hat.
    destruct (H1 x ltac:(tauto) Hat) as [?|[(i & -> & Hi)|?]]; [by left|right; left; eauto|rewrite <- E4 in *; by right; right].
  - split; simpl; [|auto|done]. intros x _. unfold ok_at. simpl. rewrite E1, Ev. intros Hat.
    destruct (H1 x ltac:(tauto) Hat) as [?|[(i & -> & Hi)|[Hp|?]]]; [by left|right; left; eauto| |congruence].
    specialize (Ha x Hp). destruct x as [i| | |]; try done. right; left. exists i. split; [done|]. apply Hd. right. split.
    + rewrite (proj1 (by_rank_spec md_rank _ ltac:(intros []; simpl; lia))), list_elem_of_omap.
      exists (Md i). by rewrite elem_of_elements.
    + by apply held_spec.
Qed.

(** *** The ticker reset *)

Lemma restore_md_fold ans l : forall b h,
  let '(all, h') := fold_left (restore_md ans) l (b, h) in
  same_counts h h' /\ h_ready h' = h_ready h /\ h_force h' = h_force h /\ h_pending h' = h_pending h /\
  h_venue h ⊆ h_venue h' /\ h_degraded h' ⊆ h_degraded h /\
  (forall i, i ∈ h_degraded h -> i ∈ h_degraded h' \/ Md i ∈ h_venue h') /\
  (all = true -> forall i, i ∈ l -> Md i ∈ h_venue h') /\ (all = true -> b = true).
Proof.
  induction l as [|i l IH]; intros b h; cbn [fold_left].
  { split_and!; try done; [auto|by intros _ i ?%not_elem_of_nil]. }
  assert (restore_md ans (b, h) i =
    if ans (CJoin i) then (b, clear_degraded i (with_venue (fun v => {[Md i]} ∪ v) h)) else (false, h)) as ->
    by (unfold restore_md, venue_join; by destruct (ans (CJoin i))).
  destruct (ans (CJoin i)).
  - specialize (IH b (clear_degraded i (with_venue (fun v => {[Md i]} ∪ v) h))).
    destruct (fold_left _ l _) as [all h'].
    destruct IH as (Hc & Hr & Hf & Hp & Hv & Hd & Hk & Ha & Hb). simpl in *.
    split_and!; try done; [set_solver..| |].
    + intros j Hj. destruct (decide (j = i)) as [->|]; [right; set_solver|]. apply Hk. set_solver.
    + intros Et j [->|Hj]%elem_of_cons; [set_solver|auto].
  - specialize (IH false h). destruct (fold_left _ l _) as [all h'].
    destruct IH as (Hc & Hr & Hf & Hp & Hv & Hd & Hk & Ha & Hb).
    split_and!; try done; intros Et; by specialize (Hb Et).
Qed.

Lemma md_intents_spec h i : i ∈ md_intents h <-> is_Some (h_counts h !! Md i).
Proof.
  unfold md_intents.
  rewrite (proj1 (by_rank_spec md_rank _ ltac:(intros []; simpl; lia))), list_elem_of_omap.
  unfold restore_plan. split.
  - intros (x & Hx%elem_of_elements%elem_of_dom & Hm). destruct x; [|done..]. by simplify_eq/=.
  - intros Hi. exists (Md i). by rewrite elem_of_elements, elem_of_dom.
Qed.

(** Nothing the ticker carries is held, or a rebuild is coming anyway. *)
Definition reset_survives h : Prop :=
  h_force h = true \/ forall x, stream_of x = SPlantTicker -> h_counts h !! x = None.

Lemma at_absent (h : Host) x : h_counts h !! x = None -> at_ (h_counts h) x = 0.
Proof. intros E. unfold at_. by rewrite E. Qed.

Lemma ticker_down_fed h x : hwf h -> stream_of x <> SPlantTicker -> ok_at (ticker_down h) x.
Proof.
  intros Hh Hx Hat. destruct (hw_fed _ _ Hh x ltac:(tauto) Hat) as [?|?]; [|by right].
  left. apply elem_of_filter. by split.
Qed.

Lemma reset_ticker_ok ans h : nonzero (h_counts h) -> hwf h ->
  (ans CTickerReset = false -> reset_survives h) ->
  same_counts h (reset_ticker_plant ans h).2 /\ hwf (reset_ticker_plant ans h).2.
Proof.
  intros Hn Hh Ha. pose proof Hh as [H1 H2 H3]. unfold reset_ticker_plant.
  destruct (ans CTickerReset) eqn:Er; cbn [negb].
  - pose proof (restore_md_fold ans (md_intents h) true (ticker_down h)) as Hf.
    destruct (fold_left _ _ _) as [all h'].
    destruct Hf as ([Ec Eh] & Hr & Ef & Hp & Hv & Hd & Hk & Hall & _). simpl in *.
    assert (Hfed : forall x, ok_at h' x \/ all = false).
    { intros x. destruct all; [left|by right]. intros Hat. rewrite Ec in Hat.
      destruct x as [i| | |]; [left; apply (Hall eq_refl), md_intents_spec; by apply at_dom|..].
      all: match type of Hat with 1 <= at_ _ ?x =>
             destruct (ticker_down_fed h x Hh ltac:(by intros ?) Hat) as [?|[(i & ? & _)|?]] end;
        [left; set_solver|done|right; right; by rewrite Hp, Ef]. }
    assert (Hdeg : forall i, i ∈ h_degraded h' -> 1 <= at_ (h_counts h') (Md i)).
    { intros i Hi. rewrite Ec. apply H2; [tauto|]. by apply Hd. }
    destruct all; simpl; (split; [done|]).
    + split; [|auto|by rewrite Hr, Hp, Ef]. intros x _. by destruct (Hfed x).
    + split; [|auto|done]. intros x _ _. by right; right; right.
  - split; [done|]. specialize (Ha eq_refl). split; [|exact H2|exact H3]. intros x _.
    destruct (decide (stream_of x = SPlantTicker)) as [Es|Es]; [|by apply ticker_down_fed].
    intros Hat. destruct Ha as [?|Hno]; [by right; right; right|].
    simpl in Hat. rewrite at_absent in Hat by (by apply Hno). lia.
Qed.
End Recovery_ok.
End HostSubs.
