(* ===== verification/HostWorld.v ===== *)
(** * All clients of a host

    The requests of [HostSubs] interleaved: clients attach, subscribe, leave and
    die, the retry of degraded joins runs, plants are lost and rebuilt.  What the
    counters, the hub and the venue say in every reachable state. *)

From Stdlib Require Import String.
From stdpp Require Import base gmap strings list fin_maps fin_sets sets relations.
From Stdlib Require Import ZArith Lia.
From S2P Require Import Prelude HostSubs.
Open Scope string_scope.
Open Scope list_scope.
Open Scope nat_scope.

Module HostWorld.
Import HostSubs.

(** ** The steps *)

Inductive Req :=
  | Subscribe (i : MdIntent) | Unsubscribe (i : MdIntent)
  | SubscribePnl | DisconnectPnl
  | SubscribeOrder (trading brackets : bool) | DisconnectOrder
  | ResetTickerPlant.

Definition run (ans : Answers) (r : Req) (h : Host) (c : Client) : bool * Host * Client :=
  match r with
  | Subscribe i => subscribe_topic ans i h c
  | Unsubscribe i => unsubscribe_topic ans i h c
  | SubscribePnl => subscribe_pnl ans h c
  | DisconnectPnl => disconnect_pnl ans h c
  | SubscribeOrder t b => subscribe_order_plant_stream ans t b h c
  | DisconnectOrder => disconnect_order ans h c
  | ResetTickerPlant => let '(ok, h') := reset_ticker_plant ans h in (ok, h', c)
  end.

(** Symbols are not the two reserved topics; and three answers are ruled out, each of
    which the code does not survive (see [Samples]): a leave that fails for a join
    that is dark, a disconnect that fails right after the order join failed, and a
    ticker that cannot be reconnected after a reset logged the old one out, while
    something it carried is held and no rebuild is coming. *)
Definition admissible (ans : Answers) (r : Req) (h : Host) : Prop :=
  match r with
  | Subscribe i => md_key i <> pnl_key /\ md_key i <> order_key
  | Unsubscribe i => ans (CLeave i) = false -> i ∈ h_degraded h -> Md i ∈ h_venue h
  | SubscribeOrder _ _ => ans COrderDisconnect = false -> ans COrderJoin = true \/ HOrder ∈ h_venue h
  | ResetTickerPlant => ans CTickerReset = false -> reset_survives h
  | _ => True
  end.

Record World := MkWorld { w_host : Host; w_clients : gmap nat Client }.
Definition host_new : Host := MkHost ∅ ∅ ∅ ∅ true false ∅.
Definition world_new : World := MkWorld host_new ∅.

Inductive step : World -> World -> Prop :=
  | attach_step h cs id :
      cs !! id = None -> step (MkWorld h cs) (MkWorld h (<[id := client_new]> cs))
  | request_step h cs id c ans r ok h' c' :
      cs !! id = Some c -> admissible ans r h -> run ans r h c = (ok, h', c') ->
      step (MkWorld h cs) (MkWorld h' (<[id := c']> cs))
  | retry_step h cs ans i :
      step (MkWorld h cs) (MkWorld (rejoin_degraded ans i h).2 cs)
  | detach_step h cs id c ans :
      cs !! id = Some c -> step (MkWorld h cs) (MkWorld (teardown ans h c) (delete id cs))
  | rebuild_step h cs r :
      (* joins left over by a recovery are retried on a new login *)
      r = Login \/ h_pending h = ∅ -> step (MkWorld h cs) (MkWorld (rebuild r h) cs)
  | pass_step h cs ans :
      step (MkWorld h cs) (MkWorld (restore_plan_pass ans h) cs)
  | finish_step h cs :
      (forall x, x ∈ h_pending h -> account x = false) -> step (MkWorld h cs) (MkWorld (finish h) cs).

(** ** Counting clients *)

Definition tally (P : Client -> bool) (cs : gmap nat Client) : nat :=
  size (filter (fun p : nat * Client => P p.2 = true) cs).
Definition holders (x : Held) : gmap nat Client -> nat := tally (client_has x).
Definition attached (k : SubKey) : gmap nat Client -> nat := tally (fun c => bool_decide (k ∈ c_subscribed c)).

Section Tally.
Context (P : Client -> bool).
Implicit Types (cs : gmap nat Client).

Lemma tally_new id c cs : cs !! id = None -> tally P (<[id := c]> cs) = tally P cs + b2n (P c).
Proof.
  intros Hn. unfold tally. destruct (P c) eqn:E; simpl.
  - rewrite map_filter_insert_True by done. rewrite map_size_insert_None; [lia|]. by apply map_lookup_filter_None_2; left.
  - rewrite map_filter_insert_False by (simpl; congruence). rewrite delete_id by done. lia.
Qed.

Lemma tally_at id c cs : cs !! id = Some c -> tally P cs = tally P (delete id cs) + b2n (P c).
Proof.
  intros Hc. rewrite <- (insert_delete_id cs id c Hc) at 1. apply tally_new, lookup_delete_eq.
Qed.

Lemma tally_set id c c' cs : cs !! id = Some c -> tally P (<[id := c']> cs) = tally P (delete id cs) + b2n (P c').
Proof. intros Hc. rewrite <- insert_delete_eq. apply tally_new, lookup_delete_eq. Qed.
End Tally.

Lemma tally_le (P Q : Client -> bool) cs : (forall id c, cs !! id = Some c -> P c = true -> Q c = true) ->
  tally Q cs = 0 -> tally P cs = 0.
Proof.
  unfold tally. rewrite !map_size_empty_iff. intros Himp HQ. apply map_empty. intros id.
  apply map_lookup_filter_None_2. right. intros c Hc HP.
  assert (Hf : filter (fun p : nat * Client => Q p.2 = true) cs !! id = Some c).
  { apply map_lookup_filter_Some_2; [done|]. by apply (Himp id). }
  by rewrite HQ, lookup_empty in Hf.
Qed.

(** ** The invariant *)

Record wf (w : World) : Prop := MkWf {
  wf_counts : forall x, at_ (h_counts (w_host w)) x = holders x (w_clients w);
  wf_hub : forall k, at_ (h_hub (w_host w)) k = attached k (w_clients w);
  wf_nonzero : nonzero (h_counts (w_host w));
  wf_hub_nonzero : nonzero (h_hub (w_host w));
  wf_clients : forall id c, w_clients w !! id = Some c -> cwf c;
  wf_host : hwf (w_host w)
}.

Section Views.
Implicit Types (h : Host) (cs : gmap nat Client).

(** One client against the others, and back. *)
Lemma wf_local h cs id c : wf (MkWorld h cs) -> cs !! id = Some c ->
  inv (fun x => holders x (delete id cs)) (fun k => attached k (delete id cs)) h c.
Proof.
  intros [H1 H2 H3 H4 H5 H6] Hc. simpl in *. split; [|by apply (H5 id)|done]. split; try done.
  - intros x. rewrite H1. by apply tally_at.
  - intros k. rewrite H2. unfold attached. by rewrite (tally_at _ id c cs Hc).
Qed.

Lemma local_wf h cs id c h' c' : wf (MkWorld h cs) -> cs !! id = Some c ->
  inv (fun x => holders x (delete id cs)) (fun k => attached k (delete id cs)) h' c' ->
  wf (MkWorld h' (<[id := c']> cs)).
Proof.
  intros [_ _ _ _ H5 _] Hc [[L1 L2 L3 L4] Hc' Hh']. simpl in *. split; simpl; try done.
  - intros x. unfold holders. rewrite (tally_set _ id c c' cs Hc). apply L1.
  - intros k. unfold attached. rewrite (tally_set _ id c c' cs Hc). apply L2.
  - intros id' d. rewrite lookup_insert. case_decide; [by intros [= <-]|by apply H5].
Qed.

Lemma others_order h cs id : wf (MkWorld h cs) -> holders HOrder (delete id cs) = 0 -> holders HBrackets (delete id cs) = 0.
Proof.
  intros Hw. apply tally_le. intros id' c [_ Hc]%lookup_delete_Some. rewrite !has_true.
  apply (cw_brackets _ (wf_clients _ Hw id' c Hc)).
Qed.

Lemma same_wf h h' cs : wf (MkWorld h cs) -> same_counts h h' -> hwf h' -> wf (MkWorld h' cs).
Proof. intros [H1 H2 H3 H4 H5 H6] [E1 E2] Hh. split; simpl in *; rewrite ?E1, ?E2; done. Qed.

(** What every request keeps. *)
Lemma run_ok o ho ans r h c : (o HOrder = 0 -> o HBrackets = 0) -> inv o ho h c -> admissible ans r h ->
  let '(ok, h', c') := run ans r h c in inv o ho h' c'.
Proof.
  intros Hob Hi Ha. destruct r as [i|i| | |t b| |]; simpl in *.
  - destruct (client_has (Md i) c) eqn:E.
    + apply has_true in E. pose proof (resubscribe_ok o ho ans i h c Hi E) as Hr.
      destruct (subscribe_topic ans i h c) as [[ok h'] c']. tauto.
    + apply has_false in E. pose proof (fresh_subscribe_ok o ho ans i h c Hi (proj1 Ha) (proj2 Ha) E) as Hr.
      destruct (subscribe_topic ans i h c) as [[ok h'] c']. tauto.
  - pose proof (unsubscribe_topic_ok o ho ans i h c Hi Ha) as Hr. destruct (unsubscribe_topic ans i h c) as [[ok h'] c']. tauto.
  - pose proof (subscribe_pnl_ok o ho ans h c Hi) as Hr. destruct (subscribe_pnl ans h c) as [[ok h'] c']. tauto.
  - pose proof (disconnect_pnl_ok o ho ans h c Hi) as Hr. destruct (disconnect_pnl ans h c) as [[ok h'] c']. tauto.
  - pose proof (subscribe_order_ok o ho ans Hob t b h c Hi Ha) as Hr.
    destruct (subscribe_order_plant_stream ans t b h c) as [[ok h'] c']. tauto.
  - pose proof (disconnect_order_ok o ho ans Hob h c Hi) as Hr. destruct (disconnect_order ans h c) as [[ok h'] c']. tauto.
  - destruct Hi as [[L1 L2 L3 L4] Hc Hh].
    destruct (reset_ticker_ok ans h L3 Hh Ha) as [[E1 E2] Hh'].
    destruct (reset_ticker_plant ans h) as [ok h']. simpl in *. split; [split|done..]; by rewrite ?E1, ?E2.
Qed.

Lemma attach_wf h cs id : wf (MkWorld h cs) -> cs !! id = None -> wf (MkWorld h (<[id := client_new]> cs)).
Proof.
  intros [H1 H2 H3 H4 H5 H6] Hn. simpl in *. split; simpl; try done.
  - intros x. unfold holders. rewrite tally_new, not_has by done. rewrite H1. unfold holders. lia.
  - intros k. unfold attached. rewrite tally_new, (bool_decide_eq_false_2 (k ∈ _)) by done. rewrite H2. unfold attached. simpl. lia.
  - intros id' d. rewrite lookup_insert. case_decide; [|by apply H5]. intros [= <-]. split; simpl; set_solver.
Qed.

Lemma detach_wf h cs id c ans : wf (MkWorld h cs) -> cs !! id = Some c ->
  wf (MkWorld (teardown ans h c) (delete id cs)).
Proof.
  intros Hw Hc. destruct (wf_local h cs id c Hw Hc) as [Hl Hcw Hh].
  destruct (teardown_ok _ _ ans (others_order h cs id Hw) h c Hl Hh (cw_brackets _ Hcw)) as [[L1 L2 L3 L4] Hh'].
  split; simpl; try done.
  - intros x. rewrite L1, not_has by done. lia.
  - intros k. rewrite L2, (bool_decide_eq_false_2 (k ∈ _)) by done. simpl. lia.
  - intros id' d [_ Hd]%lookup_delete_Some. by apply (wf_clients _ Hw id').
Qed.

(** The retry only touches the join it retries. *)
Lemma retry_ok ans i h : hwf h -> same_counts h (rejoin_degraded ans i h).2 /\ hwf (rejoin_degraded ans i h).2.
Proof.
  intros Hh. pose proof (rejoin_degraded_ok (fun _ => 0) ans i h Hh) as Hr. destruct (rejoin_degraded ans i h) as [ok h'].
  destruct Hr as [(E1 & E2 & _) ?]. done.
Qed.
End Views.

Lemma new_wf : wf world_new.
Proof.
  split; simpl; try done; try (intros; rewrite lookup_empty in *; done).
  split; simpl; try done.
  intros x _ Hat. unfold at_ in Hat. simpl in Hat. rewrite lookup_empty in Hat. simpl in Hat. lia.
Qed.

Lemma step_wf w w' : step w w' -> wf w -> wf w'.
Proof.
  intros Hs Hw. destruct Hs as [h cs id Hn|h cs id c ans r ok h' c' Hc Ha Hr|h cs ans i|h cs id c ans Hc|h cs r Hr|h cs ans|h cs Hp].
  - by apply attach_wf.
  - apply (local_wf h cs id c); [done|done|].
    pose proof (run_ok _ _ ans r h c (others_order h cs id Hw) (wf_local h cs id c Hw Hc) Ha) as Hi. by rewrite Hr in Hi.
  - destruct (retry_ok ans i h (wf_host _ Hw)). by apply (same_wf h).
  - by apply detach_wf.
  - destruct (rebuild_ok r h (wf_nonzero _ Hw) (wf_host _ Hw) Hr). by apply (same_wf h).
  - destruct (restore_plan_pass_ok ans h (wf_nonzero _ Hw) (wf_host _ Hw)) as (? & ? & _). by apply (same_wf h).
  - destruct (finish_ok h (wf_nonzero _ Hw) (wf_host _ Hw) Hp) as (? & ? & _). by apply (same_wf h).
Qed.

Lemma reach_wf w : rtc step world_new w -> wf w.
Proof.
  assert (H : forall a b, rtc step a b -> wf a -> wf b).
  { induction 1 as [|a b c Hs _ IH]; [done|]. intros Ha. by apply IH, (step_wf a). }
  intros Hr. by apply (H world_new w Hr), new_wf.
Qed.

Lemma no_holders (K : Type) `{Countable K} (m : gmap K nat) : nonzero m -> (forall k, at_ m k = 0) -> m = ∅.
Proof.
  intros Hn Ha. apply map_empty. intros k. specialize (Hn k). specialize (Ha k). unfold at_ in Ha.
  destruct (m !! k) as [n|]; [simpl in Ha; by subst|done].
Qed.

(** A new login whose joins all succeed. *)
Definition all_ok : Answers := fun _ => true.
Definition relogin (h : Host) : Host := finish (restore_plan_pass all_ok (rebuild Login h)).

Lemma relogin_ok h : nonzero (h_counts h) -> hwf h ->
  h_ready (relogin h) = true /\ (forall x, 1 <= at_ (h_counts h) x -> x ∈ h_venue (relogin h)).
Proof.
  intros Hn Hh. destruct (rebuild_ok Login h Hn Hh (or_introl eq_refl)) as [[E1 _] Hh1].
  destruct (restore_plan_pass_ok all_ok (rebuild Login h)) as ([E2 _] & Hh2 & _ & Ef & _ & Hj & Hall); [by rewrite E1|done|].
  specialize (Hall (fun _ => eq_refl)). unfold relogin. set (h2 := restore_plan_pass _ _) in *.
  destruct (finish_ok h2) as (_ & _ & Ev & Hready); [by rewrite E2|done|rewrite Hall; by intros x ?%not_elem_of_empty|].
  split; [by apply Hready|]. intros x Hat. rewrite Ev. apply Hj; [|rewrite Hall; apply not_elem_of_empty].
  assert (Hd : x ∈ restore_plan h) by (apply elem_of_dom; by apply at_dom).
  apply elem_of_intersection. split; [|done]. by apply elem_of_filter.
Qed.

(** (C17) The books of the host in every state its clients, its retries and its
    recoveries can reach: a counter is the number of clients holding that
    subscription, a topic's interest the number of clients attached to it; a client
    is delivered every topic it holds something on, filtered by exactly the kinds it
    holds; while the host is ready, every held subscription is joined at the venue
    or is market data known to be degraded; when the last client is gone, nothing is
    left; and a new login whose joins succeed puts every held subscription back.
    The requests are those of the dispatch table that touch subscriptions, the
    legacy ticker reset among them; each is one step (it holds its topic's lock, a
    reset the session's).  Three venue failures the code does not survive are not
    [admissible], each shown in [Samples]: a leave that fails for a dark join, a
    disconnect that fails right after the order join failed, and a ticker reset
    whose reconnect fails (its joins stay dark, not degraded, on a ready host). *)
Theorem subscriptions_consistent w : rtc step world_new w ->
  let h := w_host w in
  (forall x, at_ (h_counts h) x = holders x (w_clients w)) /\
  (forall k, at_ (h_hub h) k = attached k (w_clients w)) /\
  (forall id c x, w_clients w !! id = Some c -> x ∈ c_held c ->
     topic x ∈ c_subscribed c /\ c_kinds c !! topic x = Some (mask (topic x) c) /\
     (h_ready h = true -> x ∈ h_venue h \/ exists i, x = Md i /\ i ∈ h_degraded h) /\
     h_ready (relogin h) = true /\ x ∈ h_venue (relogin h)) /\
  (w_clients w = ∅ -> h_counts h = ∅ /\ h_hub h = ∅).
Proof.
  intros Hr. pose proof (reach_wf w Hr) as Hw. pose proof Hw as [H1 H2 H3 H4 H5 H6]. cbn zeta. split_and!; try done.
  - intros id c x Hc Hx. pose proof (H5 id c Hc) as Hcw. pose proof (cw_sub _ Hcw x Hx) as Hs.
    assert (Hat : 1 <= at_ (h_counts (w_host w)) x).
    { rewrite H1. unfold holders. rewrite (tally_at _ id c _ Hc), (proj2 (has_true _ _) Hx). simpl. lia. }
    destruct (relogin_ok (w_host w) H3 H6) as [? Hre]. split_and!; auto.
    + by rewrite (cw_kinds _ Hcw), decide_True.
    + intros Hrd. destruct (hw_ready _ _ H6 Hrd) as [Hp Hf].
      destruct (hw_fed _ _ H6 x ltac:(tauto) Hat) as [?|[?|[Hin|?]]]; [by left|by right| |congruence].
      rewrite Hp in Hin. by apply not_elem_of_empty in Hin.
  - intros He. rewrite He in H1, H2. split; by apply no_holders.
Qed.

(** ** Samples *)

Module Samples.

Definition nq : MdIntent := Ticker ("NQU6", "CME").
Definition no_md : Answers := fun q => match q with CJoin _ => false | _ => true end.
Definition no_leave : Answers := fun q => match q with CLeave _ => false | _ => true end.
Definition no_orders : Answers := fun q => match q with COrderJoin | COrderDisconnect => false | _ => true end.

Definition request (ans : Answers) (id : nat) (r : Req) (w : World) : World :=
  match w_clients w !! id with
  | None => w
  | Some c => let '(_, h, c') := run ans r (w_host w) c in MkWorld h (<[id := c']> (w_clients w))
  end.
Definition on_host (f : Host -> Host) (w : World) : World := MkWorld (f (w_host w)) (w_clients w).
Definition attach (id : nat) (w : World) : World := MkWorld (w_host w) (<[id := client_new]> (w_clients w)).

Lemma request_reach ans id r w : rtc step world_new w -> is_Some (w_clients w !! id) -> admissible ans r (w_host w) ->
  rtc step world_new (request ans id r w).
Proof.
  intros Hr [c Hc] Ha. unfold request. rewrite Hc. destruct w as [h cs]. simpl in *.
  destruct (run ans r h c) as [[ok h'] c'] eqn:E. eapply rtc_r; [exact Hr|]. by apply (request_step h cs id c ans r ok).
Qed.

Lemma attach_reach id w : rtc step world_new w -> w_clients w !! id = None -> rtc step world_new (attach id w).
Proof. intros Hr Hn. eapply rtc_r; [exact Hr|]. destruct w. by apply attach_step. Qed.

(** A recovery on a new login, with one pass. *)
Definition recover (ans : Answers) (w : World) : World := on_host (fun h => finish (restore_plan_pass ans (rebuild Login h))) w.

Lemma recover_reach ans w : rtc step world_new w ->
  forallb (fun x => negb (account x)) (elements (h_pending (restore_plan_pass ans (rebuild Login (w_host w))))) = true ->
  rtc step world_new (recover ans w).
Proof.
  intros Hr Hall. destruct w as [h cs]. simpl in *. unfold recover, on_host. simpl.
  eapply rtc_r; [eapply rtc_r; [eapply rtc_r; [exact Hr|]|]|].
  - apply rebuild_step. by left.
  - apply pass_step.
  - apply finish_step. intros x Hx. rewrite forallb_forall in Hall.
    apply negb_true_iff, Hall, list_elem_of_In, elem_of_elements, Hx.
Qed.

Definition detach (ans : Answers) (id : nat) (w : World) : World :=
  match w_clients w !! id with
  | None => w
  | Some c => MkWorld (teardown ans (w_host w) c) (delete id (w_clients w))
  end.
Lemma detach_reach ans id w : rtc step world_new w -> rtc step world_new (detach ans id w).
Proof.
  intros Hr. unfold detach. destruct w as [h cs]. simpl. destruct (cs !! id) as [c|] eqn:E; [|done].
  eapply rtc_r; [exact Hr|]. by apply detach_step.
Qed.

(** Two clients on one symbol, one of them also trading; the ticker is reset, then the login is lost and the
    market data join of the recovery fails; then the trading client dies. *)
Definition two : World := attach 2 (attach 1 world_new).
Definition busy : World :=
  request all_ok 1 (SubscribeOrder true true) (request all_ok 2 (Subscribe nq) (request all_ok 1 (Subscribe nq) two)).
Definition sample : World := detach all_ok 1 (recover no_md (request all_ok 2 ResetTickerPlant busy)).

Lemma busy_reach : rtc step world_new busy.
Proof.
  unfold busy.
  apply request_reach; [|eexists; vm_compute; reflexivity|by intros].
  apply request_reach; [|eexists; vm_compute; reflexivity|split; vm_compute; discriminate].
  apply request_reach; [|eexists; vm_compute; reflexivity|split; vm_compute; discriminate].
  unfold two. apply attach_reach; [apply attach_reach; [apply rtc_refl|]|]; vm_compute; reflexivity.
Qed.

(** The same, after a ticker reset. *)
Lemma sample_reach : rtc step world_new sample.
Proof.
  unfold sample. apply detach_reach, recover_reach; [|vm_compute; reflexivity].
  apply request_reach; [apply busy_reach|eexists; vm_compute; reflexivity|by intros].
Qed.

Lemma subscriptions_consistent_witness :
  rtc step world_new sample /\ at_ (h_counts (w_host sample)) (Md nq) = holders (Md nq) (w_clients sample) /\
  holders (Md nq) (w_clients sample) = 1 /\ holders HOrder (w_clients sample) = 0.
Proof.
  split; [exact sample_reach|]. split; [exact (proj1 (subscriptions_consistent sample sample_reach) (Md nq))|].
  split; vm_compute; reflexivity.
Defined.

(** A leave that fails for a dark join is rolled back without its degraded mark: the
    client holds a subscription that the venue does not deliver, that no retry
    looks at, on a host that is ready. *)
Lemma dark_join_forgotten :
  rtc step world_new sample /\
  let w := request no_leave 2 (Unsubscribe nq) sample in
  nq ∈ h_degraded (w_host sample) /\ holders (Md nq) (w_clients w) = 1 /\ h_ready (w_host w) = true /\
  (Md nq ∉ h_venue (w_host w)) /\ h_degraded (w_host w) = ∅ /\
  (Md nq ∉ h_venue (w_host (request all_ok 2 (Subscribe nq) w))).
Proof.
  split; [exact sample_reach|]. cbn zeta.
  split_and!; first [by vm_compute | apply (bool_decide_unpack _); by vm_compute].
Qed.

(** The first order subscription fails and so does the disconnect of its rollback:
    the order flag stays, and the retry answers [Ok] without a join. *)
Lemma order_retry_skips_join :
  let w := request no_orders 1 (SubscribeOrder true false) (attach 1 world_new) in
  run no_orders (SubscribeOrder true false) host_new client_new =
    (false, w_host w, default client_new (w_clients w !! 1)) /\
  (run all_ok (SubscribeOrder true false) (w_host w) (default client_new (w_clients w !! 1))).1.1 = true /\
  HOrder ∉ h_venue (w_host (request all_ok 1 (SubscribeOrder true false) w)).
Proof. split_and!; first [by vm_compute | apply (bool_decide_unpack _); by vm_compute]. Qed.

(** A ticker reset that cannot reconnect: the client holds a subscription that the
    venue does not deliver, on a host that is ready, and neither the degraded set nor
    a requested rebuild will bring it back. *)
Definition no_ticker : Answers := fun q => match q with CTickerReset => false | _ => true end.
Lemma failed_reset_leaves_joins_dark :
  rtc step world_new busy /\
  let w := request no_ticker 2 ResetTickerPlant busy in
  (run no_ticker ResetTickerPlant (w_host busy) client_new).1.1 = false /\
  holders (Md nq) (w_clients w) = 2 /\ h_ready (w_host w) = true /\ h_force (w_host w) = false /\
  (Md nq ∉ h_venue (w_host w)) /\ h_degraded (w_host w) = ∅.
Proof.
  split; [exact busy_reach|]. cbn zeta.
  split_and!; first [by vm_compute | apply (bool_decide_unpack _); by vm_compute].
Qed.

(** One whose joins all come back, and one that ends in a requested rebuild. *)
Lemma reset_restores :
  Md nq ∈ h_venue (w_host (request all_ok 2 ResetTickerPlant busy)) /\
  h_ready (w_host (request no_md 2 ResetTickerPlant busy)) = false /\
  h_force (w_host (request no_md 2 ResetTickerPlant busy)) = true.
Proof. split_and!; first [by vm_compute | apply (bool_decide_unpack _); by vm_compute]. Qed.
End Samples.
End HostWorld.
